(* ===== verification/_CoqProject ===== *)
-Q . S2P
Prelude.v
Wire.v
GoText.v
Replay.v
Reliable.v
TlsCrypt.v
KeyDeriv.v
DataChan.v
CtrlConn.v
IpPool.v
Cipher.v
Push.v
Frame.v
IPv4.v
Reassembly.v
TcpSegment.v
Deadline.v
Stack.v
Udp.v
Session.v
SessionProps.v
Auth.v
Serve.v
Server.v
ServerInv.v
ServerProps.v
Handshake.v
Tunnel.v
NetTest.v
TestPki.v
Site.v
TcpConn.v
TcpInvariant.v
TcpTraces.v
TcpStream.v
TcpListener.v
TcpAccounting.v
TunnelWeb.v
WebSessions.v
TunnelUdp.v
Capture.v
