(* ===== verification/Prelude.v ===== *)
(** * A verification of govpn: an OpenVPN server library and its network stack

    govpn is an OpenVPN-compatible server in Go.  A client's UDP datagrams carry
    two channels.  The control channel wraps packets with a pre-shared static key
    (tls-crypt), makes them reliable, and offers the result to TLS as a byte
    stream; over it the two sides exchange key material (Key Method 2), agree on
    a data cipher and the server pushes the client's configuration.  The data
    channel seals IP packets with AES-GCM.  A userspace IPv4 stack can terminate
    the tunnel in the same process.

    ** Files, in dependency order, and what they model

    - [Prelude]: outcomes of a Go call (value, error, panic), machine-width
      integers with their wrap-around, byte slices with Go's bounds checks,
      big-endian fields, tactics and hints.
    - [Wire] (internal/wire/wire.go): the control packet format.
    - [GoText]: the functions of Go's strings and strconv packages the
      configuration code uses.
    - [Replay] (internal/datachan/replay.go): the 64-packet replay window and its
      specification by the full history.
    - [Reliable] (internal/reliable/reliable.go): send and receive windows,
      retransmission schedule, acknowledgement sets.
    - [TlsCrypt] (internal/tlscrypt): wrapping, unwrapping with authentication
      and replay check, the static key file.
    - [KeyDeriv] (internal/keyderiv): the TLS 1.0 PRF, key expansion, key
      directions, Key Method 2 messages.
    - [DataChan] (internal/datachan): sealing and opening data packets, packet
      numbers, pings.
    - [CtrlConn] (internal/ctrlconn/conn.go): the connection that ties packet
      format, reliability and tls-crypt together: Deliver, Read, Write, resets,
      the retransmission loop, Close, deadlines.
    - [IpPool] (ippool.go), [Cipher] (cipher.go), [Push] (push.go): tunnel
      addresses and peer ids, cipher negotiation, the pushed configuration.
    - [Frame] (netstack/internal/frame/frame.go): checksums, IPv4 and UDP
      construction.  [IPv4] (netstack/ipv4.go): header parsing, fragmentation.
    - [Reassembly] (netstack/reassembly.go): the RFC 815 reassembler and its
      bounds.  [TcpSegment] (netstack/tcp_segment.go): TCP headers and options.
    - [Deadline] (netstack/deadline.go): the deadline timer, with the runtime's
      part of time.AfterFunc.
    - [Stack] (netstack/stack.go, netstack/icmp.go): attachments, routes, access
      checks, dispatch, ICMP echo, outbound fragmentation, teardown.
    - [Udp] (netstack/udp.go): UDP sockets and their demultiplexer.
    - [Session] (session.go and what ovpn.go does to one session): key slots, the
      data path, the inbound queue, keepalives, the idle reaper, renegotiation,
      the end of the handshake, teardown, as the steps of one transition function
      ([exec]) with its state invariant.  [SessionProps]: the theorems about them.
    - [Auth] (ovpn.go): credentials, the authentication hook, AUTH_FAILED, the Key
      Method 2 exchange over TLS, at the first handshake and at renegotiations.
    - [Serve] (ovpn.go): Config, NewServer, Serve up to and with its read loop, the
      count of callbacks in flight.
    - [Server] (ovpn.go): the session tables, the triage of datagrams, tunnel
      addresses, publication, teardown, Close, Sessions and Stats, as a step relation
      on a heap of sessions.  [ServerInv]: its invariant, step by step.
      [ServerProps]: the theorems.
    - [Handshake] (ovpn.go): runHandshake and performPushExchange over a buffered
      reader, composed of [Auth], [Push], [Session] and [Server].
    - [Tunnel]: the whole path of a packet, from the client's seal to the embedder's
      read and back, and to the stack's answer (readLoop of netstack/stack.go on a
      session of the server).
    - [TcpConn] (netstack/tcp_conn.go, tcp_state.go, tcp_timer.go): the TCP
      connection: segments in, Read and Write, Close, retransmission, persist and
      TIME_WAIT timers.  [TcpInvariant]: its invariant and transitions;
      [TcpTraces]: concrete runs; [TcpStream]: the byte streams in both
      directions.
    - [TcpListener] (netstack/tcp_listener.go): listeners and the table of
      connections, on a heap of connection objects.  [TcpAccounting]: its
      invariant, the caps, resets.
    - [NetTest] (netstack/netstacktest): the packet builders and the in-memory
      session of the stack's tests.
    - [TestPki] (cmd/gentestpki/main.go): the generator of certificates, static key
      and client configuration, over a file system whose calls may fail.
    - [Site] (examples/tunnelweb/site): the example's pages, with net/http's routing
      and form parsing and html/template's escaping written out.
    - [TunnelWeb] (examples/tunnelweb/main.go): the example's start.  [WebSessions]:
      its sessions on its stack, the composition of [Server], [Session] and [Stack]
      by the OnSession hook and the stack's read loops.
    - [TunnelUdp]: a client's UDP datagram on its whole way to a socket of the stack,
      and the answer back, in the steps of [WebSessions].
    - [Capture] (test/interop/pcap.go, decode.go, golden_export.go): the reader of
      capture files, the decoder that judges them and the choice of golden vectors.

    ** How the code is rendered

    Definitions keep the names of the source.  A struct is a record, a method is
    a function of the record that returns the changed record; a method that holds
    a mutex for its whole body is one function.  A fallible call returns
    [outcome]: [Panic] is an index or slice out of range, so "never panics" is
    part of the statements.  An int of the machine that cannot overflow is a [Z];
    fixed-width integers wrap where the code relies on it ([u8] .. [u64]).
    Durations are 64-bit nanoseconds.  The clock, and what the network or a
    session returns, are arguments.  Blocking methods ([CtrlConn.Read], [Write],
    [WaitDrained], TCP's Read and Write) are one poll of their loop.  Where
    several goroutines share an object its methods are the atomic steps of a
    transition system, and theorems about reachable states or runs quantify over
    every interleaving of them; what a step does to the outside is a list of
    actions.  A [select] with several ready cases has its choice as an argument.  Code outside the repository (AES,
    GCM, HMAC, MD5, SHA, X.509) is a section parameter or a type class with its documented laws as
    hypotheses; each theorem that needs such a law has a witness with a concrete
    function.

    ** What the theorems show

    - Formats: parsing inverts printing and printing inverts parsing (control
      packets, Key Method 2, static key file, push reply, IPv4, TCP), and every
      byte string gets a verdict, with the error the code documents.
    - Windows: the bitmap replay window decides as the full history would; no
      number is accepted twice; the receive window hands out packets 0, 1, 2, ..
      whatever the network does; the send window keeps distinct ids; the
      retransmission round ends, and the one case in which it does not.
    - Channels: every selection of sent packets, in any order, unwraps and opens
      to what was sent or is refused as a replay; forged packets change nothing;
      no nonce is used twice; the byte stream read is the byte stream sent.
    - Keys and configuration: the derived keys are the RFC 2246 PRF's, both
      directions mirror; leases are never shared; the negotiated cipher is the
      server's first acceptable one and has a key length.
    - Network stack: fragments tile the datagram; reassembly inverts
      fragmentation for every arrival order and stays within its budgets against
      any sender; sessions are isolated from each other in every reachable state
      of the stack; routes are exactly the live attachments.
    - TCP: in every reachable state buffers, windows and timers are within
      bounds and nothing panics; states move along RFC 9293's diagram; against a
      network that loses, repeats and reorders the bytes read are a prefix of the
      peer's stream, and what is sent is what was written; a silent peer is
      dropped; half-open and live connections are counted exactly and capped.
    - UDP: datagrams are delivered in order or counted as the drop policy says;
      ports and queues are accounted for; deadlines behave as their
      specification as long as callbacks run promptly.
    - Sessions: key-ids and connections of the slots stay distinct and route
      control packets unambiguously; teardown happens once, releases the lease
      once and reports the first reason, and [OnSessionClosed] follows exactly for a
      session that has been handed over when the teardown looks; unauthenticated data
      packets change nothing; after a rollover what is in flight under the old keys is
      still opened within the transition window and refused behind it; the inbound queue is a FIFO that counts its losses; only authenticated
      traffic keeps a session from being reaped; renegotiations are rationed.
    - Credentials: a client passes exactly when the hook accepts what it sent in full;
      the two ends of a key exchange agree on keys and cipher; renegotiations
      authenticate again.
    - Server: the tables are exact in every reachable state; leases are neither shared
      nor lost; forged datagrams change nothing; a hard reset opens one session; a
      reconnecting client replaces its old session; shutdown leaves the tables empty;
      the counters add up; Serve starts exactly on the configurations that pass its checks;
      the listing of sessions is the live ones in the order of their addresses.
    - Handshake: every bring-up settles, established or torn down without a trace, unless
      the hook refuses with a client reason that holds no error, which panics; a client
      that plays by the rules is served.
    - Tunnel: between a served client and the embedder packets go both ways as the
      replay decision admits them, a ping of the client is answered, and a UDP datagram
      reaches its socket and is answered.
    - Example: what the generator writes chains up, is marked for its use and loads;
      the example starts exactly on the networks and ports its checks admit, and panics on
      an IPv6 network; every request gets the answer its path and method call for, and
      every page keeps its markup whatever a client sends; in every interleaving of server, hook and read
      loops the stack's attachments are those of sessions handed over, at their own
      addresses, and packets are delivered as coming from them.
    - Test helpers: the packets they build are the stack's own, and what their session
      shows a reader is what a real session shows; a capture of a server's traffic
      that ends between records decodes to the packets that were sent, and no capture to
      anything that does not verify.

    ** Bounds and fuel

    Loops whose recursion is not structural carry fuel that is proved enough:
    the payload's length for fragmentation and option walks, the window's size
    plus one for draining, two rounds for checksum folding of a 32-bit sum, the
    number of chunks for [Write], the used set's size plus one for the pool scan,
    the bytes outstanding for TCP's send loop, the number of reordered segments
    for its drain, the length of the data for a TCP Write, one round per byte of the
    stream for the loop over push requests, the text's length for breaking it into
    lines, eight rounds for the sixteen bytes of an IPv6 address.
    Running out is a value of its own ([errFuel] or [None]) which the theorems
    exclude.  The receive-window theorems are stated below 2^31 packets, where
    the code's wrap-around comparison is exact; what happens beyond is a theorem
    of its own.

    ** Not modelled

    The TLS handshake (its result is an argument; what its connection yields is a
    stream of bytes, cut into reads where that matters), goroutines and timers as such
    (their steps are), read deadlines of the handshake, logging and metrics.  The
    bodies of [runHandshake] and of the flows in [Tunnel] run without interference;
    what other goroutines do between their steps is covered by the theorems about
    reachable states of [Server].  A session's packet is handled in one step although
    the code reads the key slots and opens the packet in two.  A session's teardown is
    three steps, as its locks cut it: closing, ending, and the look at whether the session
    was handed over.  Of the commands, flag
    parsing, messages, the wait for a signal and what happens behind it are left out; of
    the site, the style sheet's content, times as text and the order in which Go walks
    the header map are arguments.  X.509, TLS key pairs and PEM certificate pools are
    type classes with their documented laws.  Of the interoperability harness, the test
    server and the writing of the golden corpus are left out: flags, polling, JSON and
    log lines around the modelled code. *)

From Stdlib Require Export ZArith Lia.
From stdpp Require Export base tactics numbers option list gmap sets strings.

#[export] Set Default Goal Selector "!".

Open Scope Z_scope.

(* ------------------------------------------------------------------ *)
(** ** Outcomes of a Go call: a value, an error value, or a panic *)

Inductive outcome (E A : Type) : Type :=
  | Ok (a : A)
  | Err (e : E)
  | Panic.
Arguments Ok {E A} a.
Arguments Err {E A} e.
Arguments Panic {E A}.

#[export] Instance outcome_ret (E : Type) : MRet (outcome E) := fun _ a => Ok a.
#[export] Instance outcome_bind (E : Type) : MBind (outcome E) := fun _ _ f m =>
  match m with
  | Ok a => f a
  | Err e => Err e
  | Panic => Panic
  end.

(** Reduce the binds whose head is already a value. *)
Ltac outcome_simpl := cbn [mbind outcome_bind] in *.

Definition is_ok {E A : Type} (m : outcome E A) : bool :=
  match m with Ok _ => true | _ => false end.

#[export] Instance Ok_inj {E A : Type} : Inj (=) (=) (@Ok E A).
Proof. by intros x y [= ->]. Qed.

#[export] Instance outcome_eq_dec {E A : Type} `{EqDecision E, EqDecision A} :
  EqDecision (outcome E A).
Proof. solve_decision. Defined.

(** Discharge a closed decidable hypothesis by computation. *)
Ltac decide_now := apply (bool_decide_unpack _); vm_compute; exact I.

(* ------------------------------------------------------------------ *)
(** ** Machine-width integers: Go's fixed-width arithmetic on [Z] *)

Definition u8 (x : Z) : Z := x mod 256.
Definition u16 (x : Z) : Z := x mod 65536.
Definition u32 (x : Z) : Z := x mod 4294967296.
Definition u64 (x : Z) : Z := x mod 18446744073709551616.

(** Two's-complement reading of a 32-bit and of a 64-bit word. *)
Definition i32 (x : Z) : Z :=
  if u32 x <? 2147483648 then u32 x else u32 x - 4294967296.
Definition i64 (x : Z) : Z :=
  if u64 x <? 9223372036854775808 then u64 x else u64 x - 18446744073709551616.

Declare Scope word_scope.
Delimit Scope word_scope with word.
Notation "x '+u32' y" := (u32 (x + y)) (at level 50, left associativity) : word_scope.
Notation "x '-u32' y" := (u32 (x - y)) (at level 50, left associativity) : word_scope.
Open Scope word_scope.

Definition is_u8 (x : Z) : Prop := 0 <= x < 256.
Definition is_u16 (x : Z) : Prop := 0 <= x < 65536.
Definition is_u32 (x : Z) : Prop := 0 <= x < 4294967296.

Create HintDb word.
#[export] Hint Unfold u8 u16 u32 u64 i32 i64 is_u8 is_u16 is_u32 : word.

(** [word_lia] decides linear goals with wrap-around: it unfolds the words and
    replaces [mod] and [/] by their defining inequalities. *)
Ltac word_lia :=
  autounfold with word in *; Z.to_euclidean_division_equations; lia.

(** Case analysis on every boolean comparison of the goal and the context. *)
Ltac bool_cases :=
  repeat match goal with
  | |- context [?x <? ?y] => destruct (Z.ltb_spec x y)
  | |- context [?x <=? ?y] => destruct (Z.leb_spec x y)
  | |- context [?x =? ?y] => destruct (Z.eqb_spec x y)
  | H : context [?x <? ?y] |- _ => destruct (Z.ltb_spec x y)
  | H : context [?x <=? ?y] |- _ => destruct (Z.leb_spec x y)
  | H : context [?x =? ?y] |- _ => destruct (Z.eqb_spec x y)
  end.

(** Decide the outermost [if] of the left-hand side, a [<?] test. *)
Ltac take_then :=
  lazymatch goal with |- (if ?c then _ else _) = _ =>
    replace c with true; [|symmetry; apply Z.ltb_lt] end.
Ltac take_else :=
  lazymatch goal with |- (if ?c then _ else _) = _ =>
    replace c with false; [|symmetry; apply Z.ltb_ge] end.

Lemma u8_range (x : Z) : is_u8 (u8 x).
Proof. word_lia. Qed.
Lemma u16_range (x : Z) : is_u16 (u16 x).
Proof. word_lia. Qed.
Lemma u32_range (x : Z) : is_u32 (u32 x).
Proof. word_lia. Qed.
Lemma u8_id (x : Z) : is_u8 x -> u8 x = x.
Proof. word_lia. Qed.
Lemma u16_id (x : Z) : is_u16 x -> u16 x = x.
Proof. word_lia. Qed.
Lemma u32_id (x : Z) : is_u32 x -> u32 x = x.
Proof. word_lia. Qed.
#[export] Hint Resolve u8_range u16_range u32_range : word.

(** Bits put beside each other: [a<<k | b] for [b] of [k] bits. *)
Lemma lor_shiftl_add (a b k : Z) :
  0 <= k -> 0 <= b < 2 ^ k -> Z.lor (Z.shiftl a k) b = a * 2 ^ k + b.
Proof.
  intros Hk Hb. rewrite <- Z.add_nocarry_lor; [by rewrite Z.shiftl_mul_pow2|].
  apply Z.bits_inj'. intros n Hn. rewrite Z.land_spec, Z.bits_0, Z.shiftl_spec by lia.
  destruct (Z.lt_ge_cases n k) as [Hlt|Hge]; [by rewrite Z.testbit_neg_r by lia|].
  replace b with (b mod 2 ^ k) by (by apply Z.mod_small).
  by rewrite Z.mod_pow2_bits_high, andb_false_r by lia.
Qed.

(* ------------------------------------------------------------------ *)
(** ** Byte strings and Go slices *)

Abbreviation bytes := (list Z).

Definition bytes_ok (b : bytes) : Prop := Forall is_u8 b.

#[export] Instance is_u8_dec (x : Z) : Decision (is_u8 x).
Proof. unfold is_u8. apply _. Defined.
#[export] Instance is_u16_dec (x : Z) : Decision (is_u16 x).
Proof. unfold is_u16. apply _. Defined.
#[export] Instance is_u32_dec (x : Z) : Decision (is_u32 x).
Proof. unfold is_u32. apply _. Defined.
#[export] Instance bytes_ok_dec (b : bytes) : Decision (bytes_ok b).
Proof. unfold bytes_ok. apply _. Defined.

(** [len(b)]. *)
Definition zlen {A : Type} (l : list A) : Z := Z.of_nat (length l).

(** [b[i:j]]: a panic when the bounds are out of order or past the end. *)
Definition slice {E A : Type} (l : list A) (i j : Z) : outcome E (list A) :=
  if (0 <=? i) && (i <=? j) && (j <=? zlen l)
  then Ok (take (Z.to_nat (j - i)) (drop (Z.to_nat i) l))
  else Panic.

(** [b[i:]]. *)
Definition slice_from {E A : Type} (l : list A) (i : Z) : outcome E (list A) :=
  slice l i (zlen l).

(** [b[i]]. *)
Definition index {E A : Type} (l : list A) (i : Z) : outcome E A :=
  if 0 <=? i then
    match l !! Z.to_nat i with Some x => Ok x | None => Panic end
  else Panic.

(** [binary.BigEndian.Uint16] and [Uint32]: they panic on a short slice. *)
Definition get_u16 {E : Type} (b : bytes) : outcome E Z :=
  match b with
  | b0 :: b1 :: _ => Ok (b0 * 256 + b1)
  | _ => Panic
  end.

Definition get_u32 {E : Type} (b : bytes) : outcome E Z :=
  match b with
  | b0 :: b1 :: b2 :: b3 :: _ => Ok (b0 * 16777216 + b1 * 65536 + b2 * 256 + b3)
  | _ => Panic
  end.

(** [binary.BigEndian.AppendUint16] / [AppendUint32] / [PutUint..]: the bytes
    written. *)
Definition be16 (v : Z) : bytes := [u8 (v / 256); u8 v].
Definition be32 (v : Z) : bytes :=
  [u8 (v / 16777216); u8 (v / 65536); u8 (v / 256); u8 v].

Lemma zlen_nonneg {A : Type} (l : list A) : 0 <= zlen l.
Proof. unfold zlen. lia. Qed.
Lemma zlen_nil {A : Type} : zlen (@nil A) = 0.
Proof. done. Qed.
Lemma zlen_cons {A : Type} (x : A) (l : list A) : zlen (x :: l) = 1 + zlen l.
Proof. unfold zlen. simpl. lia. Qed.
Lemma zlen_app {A : Type} (l k : list A) : zlen (l ++ k) = zlen l + zlen k.
Proof. unfold zlen. rewrite length_app. lia. Qed.
Lemma zlen_take {A : Type} (l : list A) (n : Z) :
  0 <= n -> zlen (take (Z.to_nat n) l) = Z.min n (zlen l).
Proof. intros. unfold zlen. rewrite length_take. lia. Qed.
Lemma zlen_drop {A : Type} (l : list A) (n : Z) :
  0 <= n <= zlen l -> zlen (drop (Z.to_nat n) l) = zlen l - n.
Proof. unfold zlen. intros. rewrite length_drop. lia. Qed.
Lemma zlen_0_nil {A : Type} (l : list A) : zlen l = 0 -> l = [].
Proof. unfold zlen. intros. apply nil_length_inv. lia. Qed.

Lemma slice_ok {E A : Type} (l : list A) (i j : Z) :
  0 <= i <= j -> j <= zlen l ->
  slice (E := E) l i j = Ok (take (Z.to_nat (j - i)) (drop (Z.to_nat i) l)).
Proof.
  intros. unfold slice.
  rewrite (proj2 (Z.leb_le 0 i)), (proj2 (Z.leb_le i j)),
    (proj2 (Z.leb_le j (zlen l))) by lia. done.
Qed.

Lemma slice_from_ok {E A : Type} (l : list A) (i : Z) :
  0 <= i <= zlen l -> slice_from (E := E) l i = Ok (drop (Z.to_nat i) l).
Proof.
  intros. unfold slice_from. rewrite slice_ok by lia. f_equal.
  apply take_ge. rewrite length_drop. unfold zlen in *. lia.
Qed.

Lemma index_ok {E A : Type} (l : list A) (i : Z) :
  0 <= i < zlen l -> exists x, l !! Z.to_nat i = Some x /\ index (E := E) l i = Ok x.
Proof.
  intros. unfold index, zlen in *. rewrite (proj2 (Z.leb_le 0 i)) by lia.
  destruct (lookup_lt_is_Some_2 l (Z.to_nat i)) as [x Hx]; [lia|].
  exists x. rewrite Hx. done.
Qed.

(** A slice taken inside an appended prefix. *)
Lemma slice_app_l {E A : Type} (l k : list A) (n : Z) :
  zlen l = n -> slice (E := E) (l ++ k) 0 n = Ok l.
Proof.
  intros <-. pose proof (zlen_nonneg l). pose proof (zlen_nonneg k).
  rewrite slice_ok by (rewrite ?zlen_app; lia).
  f_equal. simpl. rewrite Z.sub_0_r, drop_0. unfold zlen.
  rewrite Nat2Z.id, take_app_length. done.
Qed.

Lemma slice_from_app {E A : Type} (l k : list A) (n : Z) :
  zlen l = n -> slice_from (E := E) (l ++ k) n = Ok k.
Proof.
  intros <-. pose proof (zlen_nonneg l). pose proof (zlen_nonneg k).
  rewrite slice_from_ok by (rewrite ?zlen_app; lia).
  f_equal. unfold zlen. rewrite Nat2Z.id, drop_app_length. done.
Qed.

Lemma index_app_0 {E A : Type} (x : A) (k : list A) :
  index (E := E) ([x] ++ k) 0 = Ok x.
Proof. done. Qed.

Lemma be16_length (v : Z) : zlen (be16 v) = 2.
Proof. done. Qed.
Lemma be32_length (v : Z) : zlen (be32 v) = 4.
Proof. done. Qed.
Lemma be16_bytes (v : Z) : bytes_ok (be16 v).
Proof. repeat constructor; word_lia. Qed.
Lemma be32_bytes (v : Z) : bytes_ok (be32 v).
Proof. repeat constructor; word_lia. Qed.
#[export] Hint Resolve be16_bytes be32_bytes : word.

(** Big-endian round trips, in both directions. *)
Lemma get_be16 {E : Type} (v : Z) (k : bytes) :
  is_u16 v -> get_u16 (E := E) (be16 v ++ k) = Ok v.
Proof. intros. simpl. f_equal. word_lia. Qed.

Lemma get_be32 {E : Type} (v : Z) (k : bytes) :
  is_u32 v -> get_u32 (E := E) (be32 v ++ k) = Ok v.
Proof. intros. simpl. f_equal. word_lia. Qed.

Lemma get_u32_inv {E : Type} (b : bytes) (v : Z) :
  bytes_ok b -> zlen b = 4 -> get_u32 (E := E) b = Ok v -> is_u32 v /\ be32 v = b.
Proof.
  intros Hb Hl Hg. destruct b as [|b0 [|b1 [|b2 [|b3 [|? ?]]]]]; try done.
  - injection Hg as <-. unfold bytes_ok in Hb.
    rewrite !Forall_cons in Hb. destruct Hb as (? & ? & ? & ? & _).
    unfold be32. split; [word_lia|]. repeat f_equal; word_lia.
  - exfalso. revert Hl. unfold zlen. simpl. lia.
Qed.

Lemma get_u16_inv {E : Type} (b : bytes) (v : Z) :
  bytes_ok b -> zlen b = 2 -> get_u16 (E := E) b = Ok v -> is_u16 v /\ be16 v = b.
Proof.
  intros Hb Hl Hg. destruct b as [|b0 [|b1 [|? ?]]]; try done.
  - injection Hg as <-. unfold bytes_ok in Hb.
    rewrite !Forall_cons in Hb. destruct Hb as (? & ? & _).
    unfold be16. split; [word_lia|]. repeat f_equal; word_lia.
  - exfalso. revert Hl. unfold zlen. simpl. lia.
Qed.

Lemma get_u32_total {E : Type} (b : bytes) :
  4 <= zlen b -> exists v, get_u32 (E := E) b = Ok v.
Proof.
  intros Hl. destruct b as [|? [|? [|? [|? ?]]]]; unfold zlen in Hl; simpl in Hl; try lia.
  eexists. done.
Qed.

Lemma get_u16_total {E : Type} (b : bytes) :
  2 <= zlen b -> exists v, get_u16 (E := E) b = Ok v.
Proof.
  intros Hl. destruct b as [|? [|? ?]]; unfold zlen in Hl; simpl in Hl; try lia.
  eexists. done.
Qed.

Lemma bytes_ok_app (l k : bytes) : bytes_ok (l ++ k) <-> bytes_ok l /\ bytes_ok k.
Proof. apply Forall_app. Qed.
Lemma bytes_ok_take (l : bytes) (n : nat) : bytes_ok l -> bytes_ok (take n l).
Proof. apply Forall_take. Qed.
Lemma bytes_ok_drop (l : bytes) (n : nat) : bytes_ok l -> bytes_ok (drop n l).
Proof. apply Forall_drop. Qed.
#[export] Hint Resolve bytes_ok_take bytes_ok_drop : word.

(* ------------------------------------------------------------------ *)
(** ** Lists *)

Lemma filter_all {A : Type} (P : A -> Prop) `{!forall x, Decision (P x)} (l : list A) :
  Forall P l -> filter P l = l.
Proof. induction 1; [done|]. rewrite filter_cons_True by done. by f_equal. Qed.

(** ** Text: a Go string literal as its bytes *)

Definition of_string (s : string) : bytes :=
  map (fun a => Z.of_nat (Ascii.nat_of_ascii a)) (String.list_ascii_of_string s).

(** [strings.HasPrefix] and [strings.Index] on bytes. *)
Fixpoint has_prefix (p s : bytes) : bool :=
  match p, s with
  | [], _ => true
  | a :: p, b :: s => (a =? b) && has_prefix p s
  | _ :: _, [] => false
  end.

Fixpoint index_of (sub s : bytes) : option nat :=
  if has_prefix sub s then Some 0%nat
  else match s with
       | [] => None
       | _ :: s => S <$> index_of sub s
       end.

Lemma has_prefix_app (p s : bytes) : has_prefix p (p ++ s) = true.
Proof. induction p as [|a p IH]; [done|]. cbn. by rewrite Z.eqb_refl. Qed.

Lemma has_prefix_spec (p s : bytes) : has_prefix p s = true <-> exists k, s = p ++ k.
Proof.
  split; [|intros [k ->]; apply has_prefix_app].
  revert s. induction p as [|a p IH]; intros s H; [by exists s|].
  destruct s as [|b s]; [done|]. cbn in H. apply andb_true_iff in H as [->%Z.eqb_eq H].
  destruct (IH _ H) as [k ->]. by exists k.
Qed.

Lemma index_of_app_head (sub s : bytes) : index_of sub (sub ++ s) = Some 0%nat.
Proof.
  pose proof (has_prefix_app sub s) as H.
  destruct (sub ++ s); cbn [index_of]; by rewrite H.
Qed.

(** The first occurrence behind a prefix that avoids the first byte. *)
Lemma index_of_app (c : Z) (sub l s : bytes) :
  c ∉ l -> index_of (c :: sub) (l ++ (c :: sub) ++ s) = Some (length l).
Proof.
  induction l as [|x l IH]; intros Hc; [exact (index_of_app_head (c :: sub) s)|].
  apply not_elem_of_cons in Hc as [Hne Hc].
  change ((x :: l) ++ (c :: sub) ++ s) with (x :: (l ++ (c :: sub) ++ s)).
  specialize (IH Hc). set (t := l ++ (c :: sub) ++ s) in *.
  cbn [index_of has_prefix]. rewrite (proj2 (Z.eqb_neq c x)) by done. cbn [andb].
  by rewrite IH.
Qed.

(* ------------------------------------------------------------------ *)
(** ** The order of byte strings *)

(** [bytes.Compare(a, b) <= 0]. *)
Fixpoint bytes_le (a b : bytes) : bool :=
  match a, b with
  | [], _ => true
  | _ :: _, [] => false
  | x :: a, y :: b => if x <? y then true else if y <? x then false else bytes_le a b
  end.

Lemma bytes_le_total (a b : bytes) : bytes_le a b = true \/ bytes_le b a = true.
Proof.
  revert b. induction a as [|x a IH]; intros [|y b]; [by left|by left|by right|]. cbn.
  destruct (Z.ltb_spec x y), (Z.ltb_spec y x); try lia; auto.
Qed.

Lemma bytes_le_trans (a b c : bytes) : bytes_le a b = true -> bytes_le b c = true -> bytes_le a c = true.
Proof.
  revert b c. induction a as [|x a IH]; intros [|y b] [|z c]; cbn; try done.
  destruct (Z.ltb_spec x y), (Z.ltb_spec y x), (Z.ltb_spec y z), (Z.ltb_spec z y), (Z.ltb_spec x z), (Z.ltb_spec z x);
    try done; try lia. apply IH.
Qed.

Lemma bytes_le_antisym (a b : bytes) : bytes_le a b = true -> bytes_le b a = true -> a = b.
Proof.
  revert b. induction a as [|x a IH]; intros [|y b]; cbn; try done.
  destruct (Z.ltb_spec x y), (Z.ltb_spec y x); try done; try lia.
  intros Ha Hb. rewrite (IH b Ha Hb). f_equal. lia.
Qed.

Definition bytes_ordered (a b : bytes) : Prop := bytes_le a b = true.

#[export] Instance bytes_ordered_dec : RelDecision bytes_ordered.
Proof. intros a b. unfold bytes_ordered. apply _. Defined.
#[export] Instance bytes_ordered_total : Total bytes_ordered.
Proof. intros a b. apply bytes_le_total. Qed.
#[export] Instance bytes_ordered_trans : Transitive bytes_ordered.
Proof. intros a b c. apply bytes_le_trans. Qed.
#[export] Instance bytes_ordered_antisymm : AntiSymm (=) bytes_ordered.
Proof. intros a b. apply bytes_le_antisym. Qed.
