(* ===== verification/Wire.v ===== *)
(** * Wire: the control-channel packet format

    Model of [internal/wire/wire.go]: the packed opcode/key-id header byte and
    the plaintext body of a control packet (ack array, remote session id, own
    packet id, payload), with its parser and its printer.  Byte strings are
    lists of [Z]; every index or sub-slice the Go code performs is a partial
    operation of the [outcome] monad, so "never panics" is a theorem here. *)

From S2P Require Import Prelude.

(** ** Constants and data *)

Definition OpControlSoftResetV1 : Z := 3.
Definition OpControlV1 : Z := 4.
Definition OpAckV1 : Z := 5.
Definition OpDataV1 : Z := 6.
Definition OpControlHardResetClientV2 : Z := 7.
Definition OpControlHardResetServerV2 : Z := 8.
Definition OpDataV2 : Z := 9.
Definition OpControlHardResetClientV3 : Z := 10.
Definition OpControlWKCV1 : Z := 11.

Definition opcodeShift : Z := 3.
Definition keyIDMask : Z := 7.
Definition FirstOpcode : Z := 3.
Definition LastOpcode : Z := 11.
Definition SessionIDSize : Z := 8.
Definition MaxAcks : Z := 8.
Definition packetIDSize : Z := 4.

Inductive wire_error := ErrTooShort | ErrTooManyAcks | ErrBadOpcode.

#[export] Instance wire_error_eq_dec : EqDecision wire_error.
Proof. solve_decision. Defined.

Record Header := mkHeader {
  hdr_Opcode : Z;
  hdr_KeyID : Z;
  hdr_SessionID : bytes;
}.

Record ControlPacket := mkControlPacket {
  cp_Opcode : Z;
  cp_KeyID : Z;
  cp_SessionID : bytes;
  cp_Acks : list Z;
  cp_RemoteSessionID : bytes;
  cp_PacketID : Z;
  cp_Payload : bytes;
}.

(** The zero value of [SessionID]. *)
Definition zeroSessionID : bytes := replicate 8 0.

(** ** Operations *)

Definition ParseHeaderByte (b : Z) : Z * Z :=
  (Z.shiftr b opcodeShift, Z.land b keyIDMask).

Definition AppendHeaderByte (dst : bytes) (opcode keyID : Z) : bytes :=
  dst ++ [Z.lor (u8 (Z.shiftl opcode opcodeShift)) (Z.land keyID keyIDMask)].

Definition ValidOpcode (op : Z) : bool := (FirstOpcode <=? op) && (op <=? LastOpcode).

(** The loop that reads [ackCount] packet ids; it returns the ids and the
    remaining buffer. *)
Fixpoint parseAcks (ackCount : nat) (buf : bytes) : outcome wire_error (list Z * bytes) :=
  match ackCount with
  | O => Ok ([], buf)
  | S n =>
      if zlen buf <? packetIDSize then Err ErrTooShort else
      field ← slice buf 0 packetIDSize;
      id ← get_u32 field;
      buf' ← slice_from buf packetIDSize;
      '(acks, rest) ← parseAcks n buf';
      Ok (id :: acks, rest)
  end.

(** The optional remote session id, present only behind a non-empty ack array. *)
Definition readRemoteSID (ackCount : Z) (buf : bytes) : outcome wire_error (bytes * bytes) :=
  if 0 <? ackCount then
    if zlen buf <? SessionIDSize then Err ErrTooShort else
    remoteSID ← slice buf 0 SessionIDSize;
    rest ← slice_from buf SessionIDSize;
    Ok (remoteSID, rest)
  else Ok (zeroSessionID, buf).

(** The packet's own reliability packet id, omitted for [OpAckV1]. *)
Definition readPacketID (opcode : Z) (buf : bytes) : outcome wire_error (Z * bytes) :=
  if negb (opcode =? OpAckV1) then
    if zlen buf <? packetIDSize then Err ErrTooShort else
    field ← slice buf 0 packetIDSize;
    pid ← get_u32 field;
    rest ← slice_from buf packetIDSize;
    Ok (pid, rest)
  else Ok (0, buf).

Definition ParseControlPacket (plaintext : bytes) (hdr : Header)
    : outcome wire_error ControlPacket :=
  if negb (ValidOpcode (hdr_Opcode hdr)) then Err ErrBadOpcode else
  if zlen plaintext <? 1 then Err ErrTooShort else
  ackCount ← index plaintext 0;
  buf ← slice_from plaintext 1;
  if MaxAcks <? ackCount then Err ErrTooManyAcks else
  '(acks, buf) ← parseAcks (Z.to_nat ackCount) buf;
  '(remoteSID, buf) ← readRemoteSID ackCount buf;
  '(pid, payload) ← readPacketID (hdr_Opcode hdr) buf;
  Ok {| cp_Opcode := hdr_Opcode hdr;
        cp_KeyID := hdr_KeyID hdr;
        cp_SessionID := hdr_SessionID hdr;
        cp_Acks := acks;
        cp_RemoteSessionID := remoteSID;
        cp_PacketID := pid;
        cp_Payload := payload |}.

Definition AppendPlaintext (p : ControlPacket) (dst : bytes) : bytes :=
  dst ++ [u8 (zlen (cp_Acks p))]
      ++ concat (map be32 (cp_Acks p))
      ++ (if 0 <? zlen (cp_Acks p) then cp_RemoteSessionID p else [])
      ++ (if negb (cp_Opcode p =? OpAckV1) then be32 (cp_PacketID p) else [])
      ++ cp_Payload p.

(** ** Well-formed packets: what the Go types and the parser guarantee *)

Definition header_of (p : ControlPacket) : Header :=
  mkHeader (cp_Opcode p) (cp_KeyID p) (cp_SessionID p).

(** Typing facts the Go types give ([PacketID] is 32 bits, [SessionID] is 8
    bytes), the two fields the printer leaves out at their zero value, and the
    two limits the format has. *)
Record wf_packet (p : ControlPacket) : Prop := {
  wf_opcode : ValidOpcode (cp_Opcode p) = true;
  wf_nacks : zlen (cp_Acks p) <= MaxAcks;
  wf_acks : Forall is_u32 (cp_Acks p);
  wf_sid_len : zlen (cp_RemoteSessionID p) = SessionIDSize;
  wf_sid_zero : cp_Acks p = [] -> cp_RemoteSessionID p = zeroSessionID;
  wf_pid : is_u32 (cp_PacketID p);
  wf_pid_zero : cp_Opcode p = OpAckV1 -> cp_PacketID p = 0;
}.

(** ** The fields of a body, read back and read off *)

Lemma zlen_app_ge {A : Type} (l k : list A) (n : Z) :
  n <= zlen l -> (zlen (l ++ k) <? n) = false.
Proof. intros. pose proof (zlen_nonneg k). rewrite zlen_app. apply Z.ltb_ge. lia. Qed.

Lemma readRemoteSID_app (sid rest : bytes) (n : Z) :
  zlen sid = SessionIDSize -> 0 < n ->
  readRemoteSID n (sid ++ rest) = Ok (sid, rest).
Proof.
  intros Hs Hn. unfold readRemoteSID. rewrite (proj2 (Z.ltb_lt 0 n)) by done.
  rewrite zlen_app_ge by lia. rewrite slice_app_l, slice_from_app by done. done.
Qed.

Lemma readRemoteSID_spec (n : Z) (buf : bytes) :
  match readRemoteSID n buf with
  | Ok (sid, rest) =>
      zlen sid = SessionIDSize /\
      (if 0 <? n then buf = sid ++ rest else sid = zeroSessionID /\ rest = buf)
  | Err e => e = ErrTooShort /\ 0 < n /\ zlen buf < SessionIDSize
  | Panic => False
  end.
Proof.
  unfold readRemoteSID, SessionIDSize. destruct (Z.ltb_spec 0 n); [|done].
  destruct (Z.ltb_spec (zlen buf) 8); [done|].
  rewrite slice_ok, slice_from_ok by lia. outcome_simpl. simpl. rewrite drop_0.
  split; [|by rewrite (take_drop 8)].
  change (Pos.to_nat 8) with (Z.to_nat 8). rewrite zlen_take by lia. lia.
Qed.

Lemma readPacketID_app (opcode pid : Z) (rest : bytes) :
  is_u32 pid -> opcode <> OpAckV1 ->
  readPacketID opcode (be32 pid ++ rest) = Ok (pid, rest).
Proof.
  intros Hp Hop. unfold readPacketID. rewrite (proj2 (Z.eqb_neq _ _)) by done. cbn [negb].
  rewrite zlen_app_ge by done. rewrite slice_app_l, slice_from_app by done. outcome_simpl.
  rewrite <- (app_nil_r (be32 pid)), get_be32 by done. done.
Qed.

Lemma readPacketID_spec (opcode : Z) (buf : bytes) :
  match readPacketID opcode buf with
  | Ok (pid, rest) =>
      if opcode =? OpAckV1 then pid = 0 /\ rest = buf
      else zlen buf = 4 + zlen rest /\ (bytes_ok buf -> is_u32 pid /\ buf = be32 pid ++ rest)
  | Err e => e = ErrTooShort /\ opcode <> OpAckV1 /\ zlen buf < packetIDSize
  | Panic => False
  end.
Proof.
  unfold readPacketID, packetIDSize. destruct (Z.eqb_spec opcode OpAckV1); cbn [negb]; [done|].
  destruct (Z.ltb_spec (zlen buf) 4); [done|].
  rewrite slice_ok, slice_from_ok by lia. outcome_simpl.
  change (drop (Z.to_nat 0) buf) with buf.
  assert (Hl : zlen (take (Z.to_nat (4 - 0)) buf) = 4) by (rewrite zlen_take by lia; lia).
  destruct (get_u32_total (E := wire_error) (take (Z.to_nat (4 - 0)) buf)) as [pid Hp]; [lia|].
  rewrite Hp. outcome_simpl. rewrite zlen_drop by lia. split; [lia|]. intros Hb.
  apply get_u32_inv in Hp as [Hr ->]; [|auto with word|done].
  split; [done|]. simpl. by rewrite (take_drop 4).
Qed.

(** One iteration of the ack loop is a [readPacketID] of a non-ack packet. *)
Lemma parseAcks_S (n : nat) (buf : bytes) :
  parseAcks (S n) buf =
    ('(id, buf') ← readPacketID OpControlV1 buf;
     '(acks, rest) ← parseAcks n buf';
     Ok (id :: acks, rest)).
Proof.
  cbn [parseAcks]. unfold readPacketID. cbn [Z.eqb OpControlV1 OpAckV1 Pos.eqb negb].
  destruct (zlen buf <? packetIDSize); [done|].
  destruct (slice buf 0 packetIDSize); [|done..]. outcome_simpl.
  destruct (get_u32 _); [|done..]. outcome_simpl.
  by destruct (slice_from buf packetIDSize).
Qed.

Lemma parseAcks_concat (acks : list Z) (rest : bytes) :
  Forall is_u32 acks ->
  parseAcks (length acks) (concat (map be32 acks) ++ rest) = Ok (acks, rest).
Proof.
  induction 1 as [|id acks Hid _ IH]; [done|].
  cbn [length map concat]. rewrite <- app_assoc, parseAcks_S, readPacketID_app by done.
  outcome_simpl. rewrite IH. done.
Qed.

(** The loop fails only for want of bytes, and never panics. *)
Lemma parseAcks_spec (n : nat) (buf : bytes) :
  match parseAcks n buf with
  | Ok (acks, rest) =>
      length acks = n /\ zlen buf = 4 * Z.of_nat n + zlen rest /\
      (bytes_ok buf -> Forall is_u32 acks /\ buf = concat (map be32 acks) ++ rest)
  | Err e => e = ErrTooShort /\ zlen buf < 4 * Z.of_nat n
  | Panic => False
  end.
Proof.
  revert buf. induction n as [|n IH]; intros buf; [by repeat split|].
  rewrite parseAcks_S. pose proof (readPacketID_spec OpControlV1 buf) as HP.
  destruct (readPacketID OpControlV1 buf) as [[id buf']| |]; outcome_simpl;
    [|destruct HP as (-> & _ & HP); unfold packetIDSize in HP; split; [done|lia]|done].
  destruct HP as [Hl Hok]. specialize (IH buf').
  destruct (parseAcks n buf') as [[acks rest]| |]; cbn [mbind outcome_bind];
    [|destruct IH as [-> ?]; split; [done|lia]|done].
  destruct IH as (<- & Hl' & Hok'). split_and!; [done|cbn [length]; lia|].
  intros Hb. destruct (Hok Hb) as [? ->].
  apply bytes_ok_app in Hb as [_ Hb]. destruct (Hok' Hb) as [? ->].
  split; [by constructor|]. cbn [map concat]. by rewrite <- app_assoc.
Qed.

(** ** Properties of the format *)

Lemma ParseControlPacket_no_panic (pt : bytes) (hdr : Header) : ParseControlPacket pt hdr <> Panic.
Proof.
  unfold ParseControlPacket. destruct (ValidOpcode _); [|done]. cbn [negb].
  destruct (Z.ltb_spec (zlen pt) 1); [done|].
  destruct (index_ok (E := wire_error) pt 0) as (n & _ & ->); [lia|]. rewrite slice_from_ok by lia. outcome_simpl.
  destruct (MaxAcks <? n); [done|]. pose proof (parseAcks_spec (Z.to_nat n) (drop (Z.to_nat 1) pt)) as Ha.
  destruct (parseAcks _ _) as [[acks b1]| |]; outcome_simpl; [|done..].
  pose proof (readRemoteSID_spec n b1) as Hr. destruct (readRemoteSID n b1) as [[sid b2]| |]; outcome_simpl; [|done..].
  pose proof (readPacketID_spec (hdr_Opcode hdr) b2) as Hp. destruct (readPacketID _ b2) as [[pid pl]| |]; outcome_simpl; done.
Qed.

(** The number of bytes the fixed part of a body with [n] acks takes. *)
Definition body_size (opcode n : Z) : Z :=
  1 + 4 * n + (if 0 <? n then 8 else 0) + (if opcode =? OpAckV1 then 0 else 4).

(** Reference verdict on a body: which error, if any, the format calls for. *)
Definition parse_verdict (hdr : Header) (pt : bytes) : option wire_error :=
  if negb (ValidOpcode (hdr_Opcode hdr)) then Some ErrBadOpcode else
  match pt with
  | [] => Some ErrTooShort
  | n :: _ =>
      if MaxAcks <? n then Some ErrTooManyAcks
      else if zlen pt <? body_size (hdr_Opcode hdr) n then Some ErrTooShort else None
  end.

Lemma parse_print (p : ControlPacket) :
  wf_packet p ->
  ParseControlPacket (AppendPlaintext p []) (header_of p) = Ok p.
Proof.
  intros [Hop Hn Ha Hsl Hsz Hp Hpz]. destruct p as [op kid sid acks rsid pid pl]; cbn in *.
  pose proof (zlen_nonneg acks). unfold MaxAcks in Hn.
  unfold ParseControlPacket, AppendPlaintext. cbn [cp_Acks cp_Opcode cp_RemoteSessionID
    cp_PacketID cp_Payload header_of hdr_Opcode hdr_KeyID hdr_SessionID].
  rewrite Hop, u8_id by (unfold is_u8; lia). cbn [negb].
  match goal with |- context [zlen acks :: ?l] =>
    change (zlen acks :: l) with ([zlen acks] ++ l) end.
  rewrite zlen_app_ge, index_app_0, slice_from_app by done. outcome_simpl.
  rewrite (proj2 (Z.ltb_ge MaxAcks _)) by done.
  replace (Z.to_nat (zlen acks)) with (length acks) by (unfold zlen; lia).
  rewrite parseAcks_concat by done. outcome_simpl.
  replace (readRemoteSID _ _) with (Ok (E := wire_error) (rsid,
    (if negb (op =? OpAckV1) then be32 pid else []) ++ pl)).
  - outcome_simpl. destruct (Z.eqb_spec op OpAckV1) as [->|Hne]; cbn [negb].
    + rewrite Hpz by done. done.
    + rewrite readPacketID_app by done. done.
  - destruct acks as [|a acks]; [cbn; by rewrite Hsz|].
    rewrite (proj2 (Z.ltb_lt _ _)), readRemoteSID_app by (rewrite ?zlen_cons in *; pose proof (zlen_nonneg acks); done || lia).
    done.
Qed.

(** Parsing what the printer wrote gives the packet back: for every
    well-formed control packet, [ParseControlPacket] under the packet's own
    header is a left inverse of [AppendPlaintext]. *)
Theorem ParseControlPacket_AppendPlaintext (p : ControlPacket) :
  wf_packet p ->
  ParseControlPacket (AppendPlaintext p []) (header_of p) = Ok p.
Proof. apply parse_print. Qed.

(** Success, taken apart: the fields the parser read and where they sit. *)
Lemma ParseControlPacket_inv (n : Z) (buf : bytes) (hdr : Header) (p : ControlPacket) :
  ParseControlPacket (n :: buf) hdr = Ok p ->
  exists acks b1 sid b2 pid pl,
    ValidOpcode (hdr_Opcode hdr) = true /\ n <= MaxAcks /\
    parseAcks (Z.to_nat n) buf = Ok (acks, b1) /\
    readRemoteSID n b1 = Ok (sid, b2) /\
    readPacketID (hdr_Opcode hdr) b2 = Ok (pid, pl) /\
    p = mkControlPacket (hdr_Opcode hdr) (hdr_KeyID hdr) (hdr_SessionID hdr) acks sid pid pl.
Proof.
  unfold ParseControlPacket. intros H.
  destruct (ValidOpcode (hdr_Opcode hdr)); cbn [negb] in H; [|done].
  pose proof (zlen_nonneg buf). rewrite zlen_cons, (proj2 (Z.ltb_ge _ _)) in H by lia.
  change (n :: buf) with ([n] ++ buf) in H.
  rewrite index_app_0, slice_from_app in H by done. outcome_simpl.
  destruct (Z.ltb_spec MaxAcks n); [done|].
  destruct (parseAcks (Z.to_nat n) buf) as [[acks b1]| |]; outcome_simpl; [|done..].
  destruct (readRemoteSID n b1) as [[sid b2]| |] eqn:ES; outcome_simpl; [|done..].
  destruct (readPacketID (hdr_Opcode hdr) b2) as [[pid pl]| |] eqn:EP; outcome_simpl; [|done..].
  injection H as <-. exists acks, b1, sid, b2, pid, pl. done.
Qed.

(** The printer is the exact inverse of the parser: whatever byte string
    parses, serialising the parsed packet reproduces it byte for byte, and the
    parsed packet is well formed. *)
Theorem AppendPlaintext_ParseControlPacket (pt : bytes) (hdr : Header) (p : ControlPacket) :
  bytes_ok pt ->
  ParseControlPacket pt hdr = Ok p ->
  AppendPlaintext p [] = pt /\ wf_packet p /\ header_of p = hdr.
Proof.
  intros Hb H. destruct pt as [|n buf].
  { unfold ParseControlPacket in H. by destruct (negb _). }
  apply ParseControlPacket_inv in H as (acks & b1 & sid & b2 & pid & pl & Hv & Hn & HA & HS & HP & ->).
  inversion_clear Hb as [|? ? Hn8 Hbuf]. unfold is_u8 in Hn8.
  pose proof (parseAcks_spec (Z.to_nat n) buf) as SA. rewrite HA in SA.
  destruct SA as (Hlen & _ & SA). destruct (SA Hbuf) as [Ha ->].
  pose proof (readRemoteSID_spec n b1) as SS. rewrite HS in SS. destruct SS as [Hsl SS].
  pose proof (readPacketID_spec (hdr_Opcode hdr) b2) as SP. rewrite HP in SP.
  apply bytes_ok_app in Hbuf as [_ Hb1].
  assert (Hzl : zlen acks = n) by (unfold zlen; lia).
  assert (Hb2 : bytes_ok b2 /\ (n = 0 -> sid = zeroSessionID) /\
                b1 = (if 0 <? n then sid else []) ++ b2).
  { destruct (Z.ltb_spec 0 n); [|destruct SS as [-> ->]; done].
    rewrite SS in Hb1. apply bytes_ok_app in Hb1 as [_ ?]. by split_and!; [|lia|]. }
  destruct Hb2 as (Hb2 & Hzero & ->).
  assert (Hpid : is_u32 pid /\ (hdr_Opcode hdr = OpAckV1 -> pid = 0) /\
                 b2 = (if negb (hdr_Opcode hdr =? OpAckV1) then be32 pid else []) ++ pl).
  { destruct (Z.eqb_spec (hdr_Opcode hdr) OpAckV1) as [E|E]; cbn [negb].
    - destruct SP as [-> ->]. by split_and!; [word_lia|..].
    - destruct SP as [_ SP]. destruct (SP Hb2) as [? ->]. done. }
  destruct Hpid as (Hpid & Hp0 & ->).
  split_and!; [|constructor; cbn; try done; try lia|by destruct hdr].
  - unfold AppendPlaintext. cbn. rewrite Hzl, u8_id by (unfold is_u8; lia). done.
  - intros ->. apply Hzero. by rewrite <- Hzl.
Qed.

(** On every byte string the parser agrees with the format's own verdict:
    it succeeds exactly on bodies long enough for their ack count under a legal
    opcode, reports the documented error otherwise, and never panics. *)
Theorem ParseControlPacket_verdict (pt : bytes) (hdr : Header) :
  bytes_ok pt ->
  match ParseControlPacket pt hdr with
  | Ok _ => parse_verdict hdr pt = None
  | Err e => parse_verdict hdr pt = Some e
  | Panic => False
  end.
Proof.
  intros Hb. unfold ParseControlPacket, parse_verdict, body_size.
  destruct (ValidOpcode (hdr_Opcode hdr)); cbn [negb]; [|done].
  destruct pt as [|n buf]; [done|].
  pose proof (zlen_nonneg buf). inversion_clear Hb as [|? ? Hn _]. unfold is_u8 in Hn.
  change (n :: buf) with ([n] ++ buf).
  rewrite zlen_app, (proj2 (Z.ltb_ge _ 1)) by (change (zlen [n]) with 1; lia).
  rewrite index_app_0, slice_from_app by done. outcome_simpl.
  change (zlen [n]) with 1. destruct (Z.ltb_spec MaxAcks n); [done|].
  pose proof (parseAcks_spec (Z.to_nat n) buf) as HA.
  destruct (parseAcks (Z.to_nat n) buf) as [[acks b1]| |]; outcome_simpl; [|..|done].
  2: { destruct HA as [-> ?]. take_then; [done|]. bool_cases; lia. }
  destruct HA as (_ & Hl & _). pose proof (readRemoteSID_spec n b1) as HS.
  destruct (readRemoteSID n b1) as [[sid b2]| |]; outcome_simpl; [|..|done].
  2: { destruct HS as (-> & ? & ?). unfold SessionIDSize in *.
       take_then; [done|]. bool_cases; lia. }
  destruct HS as [Hsl HS].
  assert (Hl2 : zlen b1 = (if 0 <? n then 8 else 0) + zlen b2).
  { destruct (0 <? n); [rewrite HS, zlen_app; unfold SessionIDSize in *; lia|].
    destruct HS as [_ ->]. lia. }
  pose proof (readPacketID_spec (hdr_Opcode hdr) b2) as HP.
  destruct (readPacketID (hdr_Opcode hdr) b2) as [[pid pl]| |]; outcome_simpl; [|..|done].
  - pose proof (zlen_nonneg pl). take_else; [done|].
    destruct (hdr_Opcode hdr =? OpAckV1); destruct HP as [? ?]; subst; bool_cases; lia.
  - destruct HP as (-> & ? & ?). unfold packetIDSize in *.
    take_then; [done|].
    rewrite (proj2 (Z.eqb_neq _ OpAckV1)) by done. bool_cases; lia.
Qed.

Lemma header_byte_parse (op kid : Z) :
  ValidOpcode op = true -> 0 <= kid < 8 ->
  exists b, AppendHeaderByte [] op kid = [b] /\ is_u8 b /\ ParseHeaderByte b = (op, kid).
Proof.
  intros Hop Hk. unfold ValidOpcode, FirstOpcode, LastOpcode in Hop.
  assert (Hop' : 3 <= op <= 11) by lia. clear Hop.
  assert (Ho : In op [3;4;5;6;7;8;9;10;11]) by (cbn; lia).
  assert (Hkd : In kid [0;1;2;3;4;5;6;7]) by (cbn; lia).
  cbn in Ho, Hkd.
  repeat match goal with H : _ \/ _ |- _ => destruct H as [<-|H] | H : False |- _ => done end;
    eexists; (split; [reflexivity|]); vm_compute; split; done.
Qed.

(** ** Witnesses *)

Definition ex_packet : ControlPacket :=
  mkControlPacket OpControlV1 0 (replicate 8 1) [7; 4294967295] (replicate 8 2) 9 [1; 2; 3].

Lemma ParseControlPacket_AppendPlaintext_witness :
  ParseControlPacket (AppendPlaintext ex_packet []) (header_of ex_packet) = Ok ex_packet.
Proof.
  apply (ParseControlPacket_AppendPlaintext ex_packet).
  constructor; cbn; try done; try (unfold is_u32; lia).
  repeat constructor; unfold is_u32; lia.
Defined.

Lemma AppendPlaintext_ParseControlPacket_witness :
  AppendPlaintext ex_packet [] = [2; 0;0;0;7; 255;255;255;255; 2;2;2;2;2;2;2;2; 0;0;0;9; 1;2;3].
Proof.
  apply (AppendPlaintext_ParseControlPacket
    [2; 0;0;0;7; 255;255;255;255; 2;2;2;2;2;2;2;2; 0;0;0;9; 1;2;3]
    (header_of ex_packet) ex_packet).
  - decide_now.
  - vm_compute. reflexivity.
Defined.

Lemma ParseControlPacket_verdict_witness :
  match ParseControlPacket [2; 0;0;0;7; 255] (header_of ex_packet) with
  | Ok _ => parse_verdict (header_of ex_packet) [2; 0;0;0;7; 255] = None
  | Err e => parse_verdict (header_of ex_packet) [2; 0;0;0;7; 255] = Some e
  | Panic => False
  end.
Proof.
  apply (ParseControlPacket_verdict [2; 0;0;0;7; 255] (header_of ex_packet)). decide_now.
Defined.
