(* ===== verification/GoText.v ===== *)
(** * GoText: the text functions of Go's standard library the sources use

    Strings are byte lists.  [strings.Split], [Join], [CutPrefix], [TrimSpace],
    [EqualFold] against an ASCII string, [strconv.Atoi] and the [%d] verb, with
    the round trips the parsers rely on. *)

From S2P Require Import Prelude.

(** ** Splitting and joining on a one-byte separator *)

(** [strings.Split(s, sep)]: never empty. *)
Fixpoint split_on (sep : Z) (s : bytes) : list bytes :=
  match s with
  | [] => [[]]
  | c :: s =>
      if c =? sep then [] :: split_on sep s
      else match split_on sep s with
           | [] => [[c]]
           | w :: ws => (c :: w) :: ws
           end
  end.

(** [strings.Join(l, sep)]. *)
Fixpoint join (sep : Z) (l : list bytes) : bytes :=
  match l with
  | [] => []
  | [w] => w
  | w :: ws => w ++ [sep] ++ join sep ws
  end.

(** [strings.CutPrefix(s, p)]: [None] when [p] is not a prefix. *)
Definition cut_prefix (p s : bytes) : option bytes :=
  if has_prefix p s then Some (drop (length p) s) else None.

Lemma split_on_nonempty (sep : Z) (s : bytes) : split_on sep s <> [].
Proof. destruct s as [|c s]; cbn; [done|]. destruct (c =? sep); [done|]. by destruct (split_on sep s). Qed.

Lemma split_on_word (sep : Z) (w : bytes) : sep ∉ w -> split_on sep w = [w].
Proof.
  induction w as [|c w IH]; intros Hs; [done|]. apply not_elem_of_cons in Hs as [Hc Hs].
  cbn. rewrite (proj2 (Z.eqb_neq c sep)) by congruence. by rewrite IH.
Qed.

Lemma split_on_app (sep : Z) (w s : bytes) :
  sep ∉ w -> split_on sep (w ++ [sep] ++ s) = w :: split_on sep s.
Proof.
  induction w as [|c w IH]; intros Hs; [by cbn; rewrite Z.eqb_refl|].
  apply not_elem_of_cons in Hs as [Hc Hs]. cbn [app split_on].
  rewrite (proj2 (Z.eqb_neq c sep)) by congruence. cbn [app] in IH. by rewrite IH.
Qed.

(** Splitting what was joined gives the words back. *)
Lemma split_join (sep : Z) (l : list bytes) :
  l <> [] -> Forall (fun w => sep ∉ w) l -> split_on sep (join sep l) = l.
Proof.
  intros Hl H. destruct l as [|w ws]; [done|]. clear Hl. revert w H.
  induction ws as [|w' ws IH]; intros w [Hw Hws]%Forall_cons; [by apply split_on_word|].
  change (join sep (w :: w' :: ws)) with (w ++ [sep] ++ join sep (w' :: ws)).
  by rewrite split_on_app, IH.
Qed.

(** And joining what was split. *)
Lemma join_split (sep : Z) (s : bytes) : join sep (split_on sep s) = s.
Proof.
  induction s as [|c s IH]; [done|]. cbn [split_on]. destruct (Z.eqb_spec c sep) as [->|Hc].
  - pose proof (split_on_nonempty sep s). destruct (split_on sep s) as [|w ws]; [done|].
    change (join sep ([] :: w :: ws)) with ([sep] ++ join sep (w :: ws)). by rewrite IH.
  - pose proof (split_on_nonempty sep s). destruct (split_on sep s) as [|w [|w' ws]]; [done| |].
    + cbn in *. by rewrite IH.
    + change (join sep ((c :: w) :: w' :: ws)) with (c :: join sep (w :: w' :: ws)). by rewrite IH.
Qed.

Lemma split_on_no_sep (sep : Z) (s : bytes) : Forall (fun w => sep ∉ w) (split_on sep s).
Proof.
  induction s as [|c s IH]; [repeat constructor; apply not_elem_of_nil|].
  cbn. destruct (Z.eqb_spec c sep) as [->|Hc]; [constructor; [apply not_elem_of_nil|done]|].
  destruct (split_on sep s) as [|w ws].
  { repeat constructor. intros Hin%list_elem_of_singleton. congruence. }
  apply Forall_cons in IH as [Hw Hws]. constructor; [|done].
  apply not_elem_of_cons. split; [congruence|done].
Qed.

(** ** Case folding against an ASCII string *)

Definition ascii_lower (c : Z) : Z := if (65 <=? c) && (c <=? 90) then c + 32 else c.

(** The only runes outside ASCII that simple folding identifies with an ASCII
    letter are U+017F (long s, bytes C5 BF) and U+212A (Kelvin sign, bytes
    E2 84 AA). *)
Fixpoint fold_ascii (s : bytes) : bytes :=
  match s with
  | [] => []
  | c :: s1 =>
      match s1 with
      | d :: s2 =>
          if (c =? 197) && (d =? 191) then 115 :: fold_ascii s2
          else match s2 with
               | e :: s3 =>
                   if (c =? 226) && (d =? 132) && (e =? 170) then 107 :: fold_ascii s3
                   else ascii_lower c :: fold_ascii s1
               | [] => ascii_lower c :: fold_ascii s1
               end
      | [] => [ascii_lower c]
      end
  end.

(** [strings.EqualFold(a, s)] for an ASCII string [a]. *)
Definition equal_fold (a s : bytes) : bool := bool_decide (fold_ascii a = fold_ascii s).

(** ** Numbers *)

Definition is_digit (c : Z) : bool := (48 <=? c) && (c <=? 57).

(** The value of a digit string; [None] on any other byte. *)
Fixpoint digits_value (acc : Z) (s : bytes) : option Z :=
  match s with
  | [] => Some acc
  | c :: s => if is_digit c then digits_value (acc * 10 + (c - 48)) s else None
  end.

(** [strconv.Atoi]: an optional sign and at least one digit, in the range of a
    64-bit [int]; [None] is its error. *)
Definition atoi (s : bytes) : option Z :=
  let '(neg, ds) := match s with
                    | c :: ds => if c =? 43 then (false, ds) else if c =? 45 then (true, ds)
                                 else (false, s)
                    | [] => (false, s)
                    end in
  match ds with
  | [] => None
  | _ =>
      v ← digits_value 0 ds;
      let v := if neg then - v else v in
      if (-9223372036854775808 <=? v) && (v <=? 9223372036854775807) then Some v else None
  end.

(** The decimal digits of a natural number, most significant first.  A number
    has at most as many digits as bits, so its bit length is enough fuel. *)
Fixpoint digits_of (fuel : nat) (v : Z) (acc : bytes) : bytes :=
  match fuel with
  | O => acc
  | S fuel =>
      let acc := (48 + v mod 10) :: acc in
      if v <? 10 then acc else digits_of fuel (v / 10) acc
  end.

(** The [%d] verb. *)
Definition itoa (v : Z) : bytes :=
  if v <? 0 then 45 :: digits_of (S (Z.to_nat (Z.log2 (- v)))) (- v) []
  else digits_of (S (Z.to_nat (Z.log2 v))) v [].

Lemma digits_of_value (fuel : nat) (v : Z) (rest : bytes) :
  0 <= v -> v < 10 ^ Z.of_nat fuel -> (0 < fuel)%nat ->
  exists ds, digits_of fuel v rest = ds ++ rest /\ ds <> [] /\ Forall (fun c => is_digit c = true) ds /\
    forall acc, digits_value acc ds = Some (acc * 10 ^ zlen ds + v).
Proof.
  revert v rest. induction fuel as [|fuel IH]; intros v rest Hv Hb Hf; [lia|].
  cbn [digits_of].
  assert (Hd : is_digit (48 + v mod 10) = true).
  { unfold is_digit. pose proof (Z.mod_pos_bound v 10). lia. }
  destruct (Z.ltb_spec v 10) as [Hlt|Hge].
  - exists [48 + v mod 10]. split_and!; [done|done|by repeat constructor|].
    intros acc. unfold digits_value. rewrite Hd. rewrite Z.mod_small by lia.
    f_equal. unfold zlen. cbn. lia.
  - assert (0 < v / 10) by (apply Z.div_str_pos; lia).
    destruct (IH (v / 10) ((48 + v mod 10) :: rest)) as (ds & E & Hne & Hall & Hval).
    { lia. }
    { apply Z.div_lt_upper_bound; [lia|]. rewrite Nat2Z.inj_succ, Z.pow_succ_r in Hb by lia. done. }
    { destruct fuel; [|lia]. change (10 ^ Z.of_nat 1) with 10 in Hb. lia. }
    exists (ds ++ [48 + v mod 10]). split_and!.
    + by rewrite E, <- (assoc_L (++)).
    + by destruct ds.
    + apply Forall_app. split; [done|by repeat constructor].
    + intros acc.
      assert (Happ : forall k a, digits_value a (ds ++ k) =
        match digits_value a ds with Some x => digits_value x k | None => None end).
      { clear. intros k. induction ds as [|c ds IHd]; intros a; [done|]. cbn.
        destruct (is_digit c); [apply IHd|done]. }
      rewrite Happ, Hval. unfold digits_value. rewrite Hd. f_equal.
      rewrite zlen_app. change (zlen [48 + v mod 10]) with 1.
      rewrite Z.pow_add_r by (pose proof (zlen_nonneg ds); lia).
      change (10 ^ 1) with 10. pose proof (Z.div_mod v 10). lia.
Qed.

Lemma log2_digits (v : Z) : 0 <= v -> v < 10 ^ Z.of_nat (S (Z.to_nat (Z.log2 v))).
Proof.
  intros Hv. rewrite Nat2Z.inj_succ, Z2Nat.id by apply Z.log2_nonneg.
  destruct (Z.eq_dec v 0) as [->|Hne]; [done|].
  pose proof (Z.log2_spec v ltac:(lia)) as [_ H].
  eapply Z.lt_le_trans; [exact H|]. apply Z.pow_le_mono_l. lia.
Qed.

Lemma itoa_digits (v : Z) :
  0 <= v -> itoa v <> [] /\ Forall (fun c => is_digit c = true) (itoa v) /\
  digits_value 0 (itoa v) = Some v.
Proof.
  intros Hv. unfold itoa. rewrite (proj2 (Z.ltb_ge v 0)) by done.
  destruct (digits_of_value (S (Z.to_nat (Z.log2 v))) v []) as (ds & E & Hne & Hall & Hval);
    [done|by apply log2_digits|lia|].
  rewrite E, app_nil_r. split_and!; [done|done|]. rewrite Hval. f_equal.
Qed.

(** Parsing what [%d] printed. *)
Lemma atoi_itoa (v : Z) : 0 <= v <= 9223372036854775807 -> atoi (itoa v) = Some v.
Proof.
  intros Hv. destruct (itoa_digits v ltac:(lia)) as (Hne & Hall & Hval).
  destruct (itoa v) as [|c ds] eqn:E; [done|].
  apply Forall_cons in Hall as [Hc _]. unfold is_digit in Hc.
  unfold atoi. rewrite (proj2 (Z.eqb_neq c 43)), (proj2 (Z.eqb_neq c 45)) by lia.
  rewrite Hval. cbn [mbind option_bind].
  rewrite (proj2 (Z.leb_le _ _)), (proj2 (Z.leb_le _ _)) by lia. done.
Qed.

(** Digit strings contain no separator. *)
Lemma digits_avoid (sep : Z) (s : bytes) :
  is_digit sep = false -> Forall (fun c => is_digit c = true) s -> sep ∉ s.
Proof. intros Hs Hall Hin. rewrite Forall_forall in Hall. by rewrite (Hall _ Hin) in Hs. Qed.

(** ** White space *)

(** The UTF-8 forms of the runes [unicode.IsSpace] accepts. *)
Definition space_runes : list bytes :=
  [[9]; [10]; [11]; [12]; [13]; [32]; [194; 133]; [194; 160]; [225; 154; 128]] ++
  map (fun i => [226; 128; 128 + Z.of_nat i]) (seq 0 11) ++
  [[226; 128; 168]; [226; 128; 169]; [226; 128; 175]; [226; 129; 159]; [227; 128; 128]].

Definition leading_space (s : bytes) : option nat :=
  match find (fun r => has_prefix r s) space_runes with Some r => Some (length r) | None => None end.

Fixpoint trim_left (fuel : nat) (s : bytes) : bytes :=
  match fuel with
  | O => s
  | S fuel => match leading_space s with Some n => trim_left fuel (drop n s) | None => s end
  end.

Definition trailing_space (s : bytes) : option nat :=
  match find (fun r => has_prefix (rev r) (rev s)) space_runes with
  | Some r => Some (length r)
  | None => None
  end.

Fixpoint trim_right (fuel : nat) (s : bytes) : bytes :=
  match fuel with
  | O => s
  | S fuel =>
      match trailing_space s with
      | Some n => trim_right fuel (take (length s - n) s)
      | None => s
      end
  end.

(** [strings.TrimSpace]; each round removes at least one byte. *)
Definition trim_space (s : bytes) : bytes :=
  let s := trim_left (length s) s in trim_right (length s) s.
