(* ===== verification/Replay.v ===== *)
(** * Replay: the 64-wide sliding anti-replay window

    Model of [internal/datachan/replay.go] (type [replayWindow], method
    [accept]); [internal/tlscrypt/tlscrypt.go] carries a deliberate copy of the
    same type and method.  The window is a pair of a 32-bit high-water mark and
    a 64-bit bitmap.  Its promise to the two packet layers that consult it is
    the class [AntiReplay]: it decides exactly like the reference decision
    [window_accepts] over the full history of accepted sequence numbers. *)

From S2P Require Import Prelude.

Definition replayWindowSize : Z := 64.

(** [seen]: bit [i] set means [highest - i] has been seen. *)
Record replayWindow := mkReplayWindow {
  rw_init : bool;
  rw_highest : Z;
  rw_seen : Z;
}.

(** The zero value, as embedded in a fresh wrapper. *)
Definition zeroReplayWindow : replayWindow := mkReplayWindow false 0 0.

Definition accept (r : replayWindow) (seq : Z) : bool * replayWindow :=
  if negb (rw_init r) then (true, mkReplayWindow true seq 1) else
  if rw_highest r <? seq then
    let shift := seq -u32 rw_highest r in
    let seen := if replayWindowSize <=? shift then 1
                else Z.lor (u64 (Z.shiftl (rw_seen r) shift)) 1 in
    (true, mkReplayWindow true seq seen)
  else
    let diff := rw_highest r -u32 seq in
    if replayWindowSize <=? diff then (false, r) else
    let bit := u64 (Z.shiftl 1 diff) in
    if negb (Z.land (rw_seen r) bit =? 0) then (false, r) else
    (true, mkReplayWindow (rw_init r) (rw_highest r) (Z.lor (rw_seen r) bit)).

(** ** Abstract specification: decide from the whole history *)

(** The highest sequence number of a history (sequence numbers are not
    negative). *)
Definition zmax (h : list Z) : Z := foldr Z.max 0 h.

(** A sequence number is acceptable when nothing was accepted yet, when it is
    above everything accepted so far, or when it lies fewer than 64 below the
    highest one and was not accepted before. *)
Definition window_accepts (h : list Z) (seq : Z) : bool :=
  match h with
  | [] => true
  | _ => (zmax h <? seq) || ((zmax h - seq <? replayWindowSize) && negb (bool_decide (seq ∈ h)))
  end.

(** What an anti-replay window promises to the layer that consults it. *)
Class AntiReplay (W : Type) := {
  ar_init : W;
  ar_accept : W -> Z -> bool * W;
  ar_models : W -> list Z -> Prop;
  ar_init_models : ar_models ar_init [];
  ar_accept_spec : forall w h seq ok w',
    is_u32 seq -> ar_models w h -> ar_accept w seq = (ok, w') ->
    ok = window_accepts h seq /\ ar_models w' (if ok then seq :: h else h) /\
    (ok = false -> w' = w);
}.

(** ** Facts on the reference decision *)

Lemma zmax_ge (h : list Z) (x : Z) : x ∈ h -> x <= zmax h.
Proof.
  induction h as [|y h IH]; [by intros ?%elem_of_nil|].
  intros [->|Hx]%elem_of_cons; cbn; [lia|]. specialize (IH Hx). unfold zmax in IH. lia.
Qed.

Lemma zmax_elem (h : list Z) : Forall is_u32 h -> h <> [] -> zmax h ∈ h.
Proof.
  induction h as [|y h IH]; [done|]. intros [Hy Hh]%Forall_cons _. cbn.
  destruct h as [|z h].
  { cbn. rewrite Z.max_l by (unfold is_u32 in Hy; lia). by left. }
  destruct (Z.max_spec y (foldr Z.max 0 (z :: h))) as [[_ ->]|[_ ->]]; [|by left].
  right. by apply IH.
Qed.

Lemma window_accepts_fresh (h : list Z) (seq : Z) :
  window_accepts h seq = true -> seq ∉ h.
Proof.
  destruct h as [|x h]; [set_solver|]. unfold window_accepts. intros H Hin.
  rewrite bool_decide_true in H by done. apply zmax_ge in Hin. lia.
Qed.

(** ** The bitmap represents the recent history *)

Record window_models (r : replayWindow) (h : list Z) : Prop := {
  wm_range : Forall is_u32 h;
  wm_init : rw_init r = false <-> h = [];
  wm_highest : h <> [] -> rw_highest r = zmax h;
  wm_bits : h <> [] -> forall i, 0 <= i < 64 ->
    Z.testbit (rw_seen r) i = bool_decide (rw_highest r - i ∈ h);
}.

Lemma u64_testbit (x i : Z) : 0 <= i < 64 -> Z.testbit (u64 x) i = Z.testbit x i.
Proof. intros. unfold u64. apply (Z.mod_pow2_bits_low x 64 i). lia. Qed.

Lemma testbit_1 (i : Z) : 0 <= i -> Z.testbit 1 i = (0 =? i).
Proof. intros _. apply (Z.pow2_bits_eqb 0 i). done. Qed.

Lemma shiftl_1_testbit (d i : Z) :
  0 <= d < 64 -> 0 <= i < 64 -> Z.testbit (u64 (Z.shiftl 1 d)) i = (d =? i).
Proof. intros. rewrite u64_testbit, Z.shiftl_1_l, Z.pow2_bits_eqb by lia. done. Qed.

Lemma land_bit_zero (a d : Z) :
  0 <= d < 64 -> (Z.land a (u64 (Z.shiftl 1 d)) =? 0) = negb (Z.testbit a d).
Proof.
  intros Hd. assert (Hb : u64 (Z.shiftl 1 d) = 2 ^ d).
  { rewrite Z.shiftl_1_l. unfold u64. apply Z.mod_small.
    split; [apply Z.pow_nonneg; lia|]. apply (Z.pow_lt_mono_r 2 d 64); lia. }
  rewrite Hb. destruct (Z.testbit a d) eqn:E; cbn.
  - apply Z.eqb_neq. intros H0.
    assert (Z.testbit (Z.land a (2 ^ d)) d = true) as H1.
    { rewrite Z.land_spec, E, Z.pow2_bits_eqb, Z.eqb_refl by lia. done. }
    rewrite H0, Z.bits_0 in H1. done.
  - apply Z.eqb_eq. apply Z.bits_inj'. intros n Hn.
    rewrite Z.land_spec, Z.bits_0, Z.pow2_bits_eqb by lia.
    destruct (Z.eqb_spec d n) as [<-|]; [by rewrite E|by rewrite andb_false_r].
Qed.

Lemma accept_first (h : list Z) (r : replayWindow) (seq : Z) :
  is_u32 seq -> window_models r h -> rw_init r = false ->
  window_models (mkReplayWindow true seq 1) (seq :: h).
Proof.
  intros Hs [Hr Hi Hh Hb] E. apply Hi in E as ->. unfold is_u32 in Hs.
  constructor; cbn; [by constructor|done|cbn; lia|].
  intros _ i Hi'. rewrite testbit_1 by lia. apply eq_true_iff_eq.
  rewrite bool_decide_eq_true, list_elem_of_singleton, Z.eqb_eq. lia.
Qed.

(** A sequence number above the mark slides the window forward. *)
Lemma accept_above (h : list Z) (r : replayWindow) (seq : Z) :
  is_u32 seq -> window_models r h -> rw_init r = true -> rw_highest r < seq ->
  window_models (snd (accept r seq)) (seq :: h).
Proof.
  intros Hs [Hr Hi Hh Hb] E Hlt.
  assert (Hne : h <> []) by (intros ->; apply proj2 in Hi; by rewrite Hi in E).
  specialize (Hh Hne). specialize (Hb Hne).
  assert (Hm : is_u32 (zmax h)).
  { eapply (proj1 (Forall_forall _ _)); [apply Hr|]. by apply zmax_elem. }
  unfold accept. rewrite E. cbn [negb]. rewrite (proj2 (Z.ltb_lt _ _)) by done. cbn [snd].
  rewrite (u32_id (seq - rw_highest r)) by (unfold is_u32 in *; lia).
  constructor; cbn; [by constructor|done|intros _; unfold zmax in *; lia|].
  intros _ i Hi'.
  assert (Hmem : bool_decide (seq - i ∈ seq :: h) = ((0 =? i) || bool_decide (seq - i ∈ h))).
  { apply eq_true_iff_eq. rewrite orb_true_iff, !bool_decide_eq_true, elem_of_cons, Z.eqb_eq.
    assert (seq - i = seq <-> 0 = i) as -> by lia. done. }
  rewrite Hmem. destruct (Z.leb_spec replayWindowSize (seq - rw_highest r)) as [Hw|Hw].
  - rewrite testbit_1 by lia. rewrite bool_decide_false; [by rewrite orb_false_r|].
    intros Hin%zmax_ge. unfold replayWindowSize in Hw. lia.
  - rewrite Z.lor_spec, u64_testbit, testbit_1, orb_comm by lia. f_equal.
    rewrite Z.shiftl_spec by lia.
    destruct (decide (seq - rw_highest r <= i)) as [Hge|Hge].
    + rewrite Hb by lia.
      replace (rw_highest r - (i - (seq - rw_highest r))) with (seq - i) by lia. done.
    + rewrite Z.testbit_neg_r by lia. symmetry. apply bool_decide_false.
      intros Hin%zmax_ge. lia.
Qed.

(** A sequence number at or below the mark is looked up in the bitmap. *)
Lemma accept_below (h : list Z) (r : replayWindow) (seq : Z) (ok : bool) (r' : replayWindow) :
  is_u32 seq -> window_models r h -> rw_init r = true -> seq <= rw_highest r ->
  accept r seq = (ok, r') ->
  ok = (zmax h - seq <? replayWindowSize) && negb (bool_decide (seq ∈ h)) /\
  window_models r' (if ok then seq :: h else h) /\ (ok = false -> r' = r).
Proof.
  intros Hs Hw E Hle Ha. pose proof Hw as [Hr Hi Hh Hb].
  assert (Hne : h <> []) by (intros ->; apply proj2 in Hi; by rewrite Hi in E).
  specialize (Hh Hne). specialize (Hb Hne).
  assert (Hm : is_u32 (zmax h)).
  { eapply (proj1 (Forall_forall _ _)); [apply Hr|]. by apply zmax_elem. }
  unfold accept in Ha. rewrite E in Ha. cbn [negb] in Ha.
  rewrite (proj2 (Z.ltb_ge _ _)) in Ha by done.
  rewrite (u32_id (rw_highest r - seq)) in Ha by (unfold is_u32 in *; lia).
  rewrite Hh in *. unfold replayWindowSize in *.
  destruct (Z.leb_spec 64 (zmax h - seq)) as [Hd|Hd].
  { simplify_eq. rewrite (proj2 (Z.ltb_ge _ _)) by lia. done. }
  rewrite (proj2 (Z.ltb_lt _ _)) by lia. cbn [andb].
  unfold is_u32 in *. rewrite land_bit_zero, Hb in Ha by lia.
  replace (zmax h - (zmax h - seq)) with seq in Ha by lia.
  destruct (bool_decide_reflect (seq ∈ h)) as [Hin|Hnin]; cbn [negb] in *; simplify_eq; [done|].
  split_and!; [done| |done].
  constructor; cbn; [by constructor|done|intros _; unfold zmax in *; lia|].
  intros _ i Hi'. rewrite Z.lor_spec, shiftl_1_testbit, Hb by lia.
  apply eq_true_iff_eq. rewrite orb_true_iff, !bool_decide_eq_true, elem_of_cons, Z.eqb_eq.
  assert (zmax h - i = seq <-> zmax h - seq = i) as -> by lia. tauto.
Qed.

(** One call decides like the reference, keeps representing the history, and
    leaves the window untouched when it refuses. *)
Lemma accept_refines (r : replayWindow) (h : list Z) (seq : Z) (ok : bool) (r' : replayWindow) :
  is_u32 seq -> window_models r h -> accept r seq = (ok, r') ->
  ok = window_accepts h seq /\ window_models r' (if ok then seq :: h else h) /\
  (ok = false -> r' = r).
Proof.
  intros Hs Hw Ha. destruct (rw_init r) eqn:E.
  - assert (Hne : h <> []) by (intros ->; by rewrite (proj2 (wm_init _ _ Hw)) in E).
    assert (Hwa : window_accepts h seq =
      (zmax h <? seq) || ((zmax h - seq <? replayWindowSize) && negb (bool_decide (seq ∈ h))))
      by (by destruct h).
    rewrite Hwa. rewrite <- (wm_highest _ _ Hw Hne) in *.
    destruct (Z.ltb_spec (rw_highest r) seq) as [Hlt|Hge]; cbn [orb].
    + pose proof (accept_above h r seq Hs Hw E Hlt) as HA.
      assert (Hok : ok = true).
      { unfold accept in Ha. rewrite E in Ha. cbn [negb] in Ha.
        rewrite (proj2 (Z.ltb_lt _ _)) in Ha by done. by simplify_eq. }
      rewrite Ha in HA. by subst ok.
    + rewrite (wm_highest _ _ Hw Hne). by eapply accept_below.
  - pose proof (proj1 (wm_init _ _ Hw) E) as ->. unfold accept in Ha. rewrite E in Ha.
    cbn in Ha. simplify_eq. split_and!; [done| |done]. by eapply accept_first.
Qed.

Lemma zero_models : window_models zeroReplayWindow [].
Proof. by constructor. Qed.

#[export] Instance replayWindow_AntiReplay : AntiReplay replayWindow := {|
  ar_init := zeroReplayWindow;
  ar_accept := accept;
  ar_models := window_models;
  ar_init_models := zero_models;
  ar_accept_spec := accept_refines;
|}.

(** ** Whole runs *)

Section runs.
Context {W : Type} `{!AntiReplay W}.

(** The verdicts on a sequence of packets, the accepted numbers (latest
    first), and the window left behind. *)
Fixpoint accept_all (w : W) (seqs : list Z) : list bool * W :=
  match seqs with
  | [] => ([], w)
  | q :: rest =>
      let '(ok, w') := ar_accept w q in
      let '(oks, w'') := accept_all w' rest in (ok :: oks, w'')
  end.

Fixpoint accepted (w : W) (seqs : list Z) : list Z :=
  match seqs with
  | [] => []
  | q :: rest =>
      let '(ok, w') := ar_accept w q in
      (if ok then [q] else []) ++ accepted w' rest
  end.

Fixpoint reference_all (h : list Z) (seqs : list Z) : list bool :=
  match seqs with
  | [] => []
  | q :: rest =>
      let ok := window_accepts h q in
      ok :: reference_all (if ok then q :: h else h) rest
  end.

Lemma accept_all_reference (w : W) (h seqs : list Z) :
  Forall is_u32 seqs -> ar_models w h ->
  fst (accept_all w seqs) = reference_all h seqs.
Proof.
  intros Hs. revert w h. induction Hs as [|q seqs Hq _ IH]; intros w h Hw; [done|].
  cbn. destruct (ar_accept w q) as [ok w'] eqn:E.
  destruct (ar_accept_spec _ _ _ _ _ Hq Hw E) as (-> & Hw' & _).
  specialize (IH _ _ Hw'). destruct (accept_all w' seqs) as [oks w'']. cbn in *. by rewrite IH.
Qed.

Lemma accepted_fresh (w : W) (h seqs : list Z) :
  Forall is_u32 seqs -> ar_models w h ->
  NoDup (accepted w seqs) /\ Forall (fun q => q ∉ h) (accepted w seqs).
Proof.
  intros Hs. revert w h. induction Hs as [|q seqs Hq _ IH]; intros w h Hw; cbn.
  { split; constructor. }
  destruct (ar_accept w q) as [ok w'] eqn:E.
  destruct (ar_accept_spec _ _ _ _ _ Hq Hw E) as (Hok & Hw' & _).
  destruct (IH _ _ Hw') as [Hnd Hfr]. clear IH. destruct ok; cbn; [|done].
  rewrite Forall_forall in Hfr. split.
  - constructor; [|done]. intros Hin%Hfr. set_solver.
  - apply Forall_cons. split; [by apply window_accepts_fresh|].
    apply Forall_forall. intros x Hx%Hfr. set_solver.
Qed.
End runs.

(** C9. The bitmap window refines the reference decision: started from its zero
    value and fed any sequence of 32-bit packet numbers, in any order, the
    verdicts are exactly those of deciding every number against the complete
    history of accepted ones. *)
Theorem replay_window_refines (seqs : list Z) :
  Forall is_u32 seqs ->
  fst (accept_all zeroReplayWindow seqs) = reference_all [] seqs.
Proof. intros. by apply accept_all_reference, zero_models. Qed.

(** No packet number is ever accepted twice: the numbers a fresh window
    accepts, over any sequence of packets, are pairwise distinct. *)
Theorem replay_never_accepted_twice (seqs : list Z) :
  Forall is_u32 seqs -> NoDup (accepted zeroReplayWindow seqs).
Proof. intros. by apply (accepted_fresh zeroReplayWindow [] seqs), zero_models. Qed.

(** ** Witnesses *)

Lemma replay_window_refines_witness :
  fst (accept_all zeroReplayWindow [5; 5; 3; 70; 6; 7; 4294967295; 70]) =
  reference_all [] [5; 5; 3; 70; 6; 7; 4294967295; 70].
Proof. apply (replay_window_refines [5; 5; 3; 70; 6; 7; 4294967295; 70]). decide_now. Defined.

Lemma replay_never_accepted_twice_witness :
  NoDup (accepted zeroReplayWindow [5; 5; 3; 70; 6; 7; 7]).
Proof. apply (replay_never_accepted_twice [5; 5; 3; 70; 6; 7; 7]). decide_now. Defined.

Example replay_run :
  fst (accept_all zeroReplayWindow [5; 5; 3; 70; 6; 7; 4294967295; 70]) =
  [true; false; true; true; false; true; true; false].
Proof. vm_compute. reflexivity. Qed.
