(* ===== verification/Reliable.v ===== *)
(** * Reliable: the control-channel reliability layer

    Model of [internal/reliable/reliable.go]: the send window
    ([Next]/[MarkActive]/[SetPayload]/[Ack]/[Due]/[Empty]), the receive window
    ([Put]/[Get]) and the pending-acknowledgement queue ([AckSet]).  The mutexes
    serialise every method, so each one is a function on the state.  Packet ids
    are 32-bit words with Go's wrap-around; [time.Duration] is a 64-bit signed
    count of nanoseconds; an instant is the number of nanoseconds since the zero
    [time.Time], so the zero time is [0] and no clock reading is below it. *)

From stdpp Require Import sorting.
From S2P Require Import Prelude.

(** ** Constants *)

Definition AckSize : nat := 8.
Definition Capacity : nat := 12.
Definition NSendBuffers : nat := 6.
Definition NRecBuffers : nat := 12.
Definition NAckRetransmit : Z := 3.
Definition TLSTimeout : Z := 2000000000.
Definition zeroTime : Z := 0.

(** ** Packet-id arithmetic *)

Definition subtractPID (test base : Z) : Z := test -u32 base.

Definition pidInRange1 (test base extent : Z) : bool := subtractPID test base <? extent.

Definition pidInRange2 (test base extent : Z) : bool :=
  if base <=? (base +u32 extent) then test <? (base +u32 extent)
  else (test +u32 2147483648) <? ((base +u32 2147483648) +u32 extent).

Definition pidMin (p1 p2 : Z) : bool := negb (pidInRange1 p1 p2 2147483648).

(** ** State *)

Record entry := mkEntry {
  e_active : bool;
  e_timeout : Z;
  e_nextTry : Z;
  e_packetID : Z;
  e_nAcks : Z;
  e_payload : bytes;
}.

Definition zeroEntry : entry := mkEntry false 0 zeroTime 0 0 [].

Record Reliable := mkReliable {
  r_size : nat;
  r_initialTimeout : Z;
  r_packetID : Z;
  r_entries : list entry;
}.

(** [None] is the panic on a size out of range. *)
Definition New (size : nat) : option Reliable :=
  if decide (size = 0%nat \/ (Capacity < size)%nat) then None
  else Some (mkReliable size TLSTimeout 0 (replicate Capacity zeroEntry)).

(** The slots the loops [for i := 0; i < r.size; i++] visit. *)
Definition slots (r : Reliable) : list entry := take (r_size r) (r_entries r).

Definition with_entries (r : Reliable) (es : list entry) : Reliable :=
  mkReliable (r_size r) (r_initialTimeout r) (r_packetID r) es.
Definition with_packetID (r : Reliable) (id : Z) : Reliable :=
  mkReliable (r_size r) (r_initialTimeout r) id (r_entries r).

(** ** Send side *)

(** The running minimum of [Next]'s first loop. *)
Definition minStep (acc : option Z) (e : entry) : option Z :=
  if e_active e then
    match acc with
    | None => Some (e_packetID e)
    | Some m => if pidMin (e_packetID e) m then Some (e_packetID e) else Some m
    end
  else acc.

Definition minActiveID (es : list entry) : option Z := foldl minStep None es.

(** The index of the first slot that is not active. *)
Fixpoint firstFree (es : list entry) : option nat :=
  match es with
  | [] => None
  | e :: es => if e_active e then S <$> firstFree es else Some 0%nat
  end.

Definition Next (r : Reliable) : option nat :=
  match minActiveID (slots r) with
  | Some m =>
      if negb (pidInRange1 (r_packetID r) m (Z.of_nat (r_size r))) then None
      else firstFree (slots r)
  | None => firstFree (slots r)
  end.

(** [None] is the panic on an index out of range. *)
Definition MarkActive (r : Reliable) (idx : nat) : option (Z * Reliable) :=
  match r_entries r !! idx with
  | None => None
  | Some e =>
      let id := r_packetID r in
      let e' := mkEntry true (r_initialTimeout r) zeroTime id 0 (e_payload e) in
      Some (id, with_packetID (with_entries r (<[idx := e']> (r_entries r))) (id +u32 1))
  end.

Definition set_payload (payload : bytes) (e : entry) : entry :=
  mkEntry (e_active e) (e_timeout e) (e_nextTry e) (e_packetID e) (e_nAcks e) payload.

Definition SetPayload (r : Reliable) (idx : nat) (payload : bytes) : option Reliable :=
  match r_entries r !! idx with
  | None => None
  | Some e => Some (with_entries r (<[idx := set_payload payload e]> (r_entries r)))
  end.

Definition deactivate (e : entry) : entry :=
  mkEntry false (e_timeout e) (e_nextTry e) (e_packetID e) (e_nAcks e) (e_payload e).

(** The body of [Ack]'s inner loop: note the plain [<] on packet ids. *)
Definition ackEntry (pid : Z) (e : entry) : entry :=
  if negb (e_active e) then e else
  if e_packetID e =? pid then deactivate e else
  if e_packetID e <? pid then
    mkEntry (e_active e) (e_timeout e) (e_nextTry e) (e_packetID e) (e_nAcks e + 1) (e_payload e)
  else e.

Definition ackOne (r : Reliable) (pid : Z) : Reliable :=
  with_entries r (map (ackEntry pid) (slots r) ++ drop (r_size r) (r_entries r)).

Definition Ack (r : Reliable) (ids : list Z) : Reliable := foldl ackOne r ids.

Definition isDue (now : Z) (e : entry) : bool :=
  e_active e && ((NAckRetransmit <=? e_nAcks e) || (e_nextTry e <=? now)).

(** [Due]'s selection loop; the accumulator is the best index so far with its
    packet id, [i] the index of the head. *)
Fixpoint bestDue (now : Z) (i : nat) (acc : option (nat * Z)) (es : list entry)
    : option (nat * Z) :=
  match es with
  | [] => acc
  | e :: es =>
      let acc' :=
        if isDue now e then
          match acc with
          | None => Some (i, e_packetID e)
          | Some (_, m) => if pidMin (e_packetID e) m then Some (i, e_packetID e) else acc
          end
        else acc in
      bestDue now (S i) acc' es
  end.

(** The update [Due] applies to the entry it returns: the due time moves out by
    the old timeout and the timeout doubles, in 64-bit arithmetic. *)
Definition backoff (now : Z) (e : entry) : entry :=
  mkEntry (e_active e) (i64 (e_timeout e * 2)) (now + e_timeout e) (e_packetID e) 0 (e_payload e).

Definition Due (r : Reliable) (now : Z) : option (bytes * Z * Reliable) :=
  match bestDue now 0 None (slots r) with
  | None => None
  | Some (i, _) =>
      match r_entries r !! i with
      | None => None
      | Some e =>
          Some (e_payload e, e_packetID e, with_entries r (<[i := backoff now e]> (r_entries r)))
      end
  end.

Definition Empty (r : Reliable) : bool := forallb (fun e => negb (e_active e)) (slots r).

(** ** Receive side *)

Inductive PutResult := PutRejected | PutAccepted | PutDuplicate.

#[export] Instance PutResult_eq_dec : EqDecision PutResult.
Proof. solve_decision. Defined.

Definition holds (id : Z) (e : entry) : bool := e_active e && (e_packetID e =? id).

Definition Put (r : Reliable) (id : Z) (payload : bytes) : PutResult * Reliable :=
  if pidMin id (r_packetID r) then (PutRejected, r) else
  if existsb (holds id) (slots r) then (PutDuplicate, r) else
  if negb (pidInRange2 id (r_packetID r) (Z.of_nat (r_size r))) then (PutRejected, r) else
  match firstFree (slots r) with
  | None => (PutRejected, r)
  | Some i =>
      match r_entries r !! i with
      | None => (PutRejected, r)
      | Some e =>
          let e' := mkEntry true (e_timeout e) (e_nextTry e) id 0 payload in
          (PutAccepted, with_entries r (<[i := e']> (r_entries r)))
      end
  end.

(** The index of the first slot holding packet id [id]. *)
Fixpoint findHolder (id : Z) (es : list entry) : option (nat * entry) :=
  match es with
  | [] => None
  | e :: es =>
      if holds id e then Some (0%nat, e)
      else match findHolder id es with Some (i, e') => Some (S i, e') | None => None end
  end.

Definition Get (r : Reliable) : option (bytes * Reliable) :=
  match findHolder (r_packetID r) (slots r) with
  | None => None
  | Some (i, e) =>
      Some (e_payload e,
            with_packetID (with_entries r (<[i := deactivate e]> (r_entries r)))
                          (e_packetID e +u32 1))
  end.

(** ** Pending acknowledgements *)

Definition AckSet := list Z.

Definition Add (a : AckSet) (id : Z) : AckSet :=
  if existsb (Z.eqb id) a then a else a ++ [id].

Definition Drain (a : AckSet) : list Z * AckSet :=
  let n := if (AckSize <? length a)%nat then AckSize else length a in
  (take n a, drop n a).

Definition Peek (a : AckSet) : bool := (0 <? length a)%nat.

(** ** Slots as a set of active (id, payload) pairs *)

Definition activePair (e : entry) : option (Z * bytes) :=
  if e_active e then Some (e_packetID e, e_payload e) else None.

Definition activePairs (es : list entry) : list (Z * bytes) := omap activePair es.

Lemma activePairs_split (es : list entry) (i : nat) (e : entry) :
  es !! i = Some e ->
  activePairs es ≡ₚ option_list (activePair e) ++ activePairs (take i es ++ drop (S i) es).
Proof.
  intros H. rewrite <- (take_drop_middle es i e H) at 1.
  unfold activePairs. rewrite !omap_app. cbn.
  destruct (activePair e); cbn; [|done]. by rewrite Permutation_middle.
Qed.

Lemma activePairs_insert (es : list entry) (i : nat) (e e' : entry) :
  es !! i = Some e ->
  activePairs (<[i := e']> es) ≡ₚ option_list (activePair e') ++ activePairs (take i es ++ drop (S i) es).
Proof.
  intros H. pose proof (lookup_lt_Some _ _ _ H) as Hlt.
  rewrite (activePairs_split _ i e') by (by apply list_lookup_insert_eq).
  by rewrite take_insert_ge, drop_insert_lt by lia.
Qed.

Lemma firstFree_Some (es : list entry) (i : nat) :
  firstFree es = Some i -> exists e, es !! i = Some e /\ e_active e = false.
Proof.
  revert i. induction es as [|e es IH]; intros i H; cbn in H; [done|].
  destruct (e_active e) eqn:E.
  - apply fmap_Some in H as (j & Hj & ->). by apply IH.
  - simplify_eq. by exists e.
Qed.

Lemma firstFree_None (es : list entry) :
  firstFree es = None -> length (activePairs es) = length es.
Proof.
  induction es as [|e es IH]; cbn; [done|]. unfold activePair.
  destruct (e_active e); [|done]. intros H%fmap_None. cbn. f_equal. by apply IH.
Qed.

Lemma existsb_holds (id : Z) (es : list entry) :
  existsb (holds id) es = true <-> id ∈ (activePairs es).*1.
Proof.
  induction es as [|e es IH]; cbn; [split; [done|by intros ?%elem_of_nil]|].
  unfold holds at 1, activePair. destruct (e_active e); cbn; [|done].
  rewrite orb_true_iff, Z.eqb_eq, elem_of_cons, IH. split; intros [?|?]; auto.
Qed.

Lemma findHolder_Some (id : Z) (es : list entry) (i : nat) (e : entry) :
  findHolder id es = Some (i, e) -> es !! i = Some e /\ activePair e = Some (id, e_payload e).
Proof.
  revert i. induction es as [|e0 es IH]; intros i H; cbn in H; [done|].
  destruct (holds id e0) eqn:E.
  - simplify_eq. unfold holds in E. unfold activePair. destruct (e_active e); [|done].
    apply Z.eqb_eq in E. by rewrite E.
  - destruct (findHolder id es) as [[j e']|]; [|done]. simplify_eq. by apply IH.
Qed.

Lemma findHolder_None (id : Z) (es : list entry) :
  findHolder id es = None <-> id ∉ (activePairs es).*1.
Proof.
  rewrite <- existsb_holds, not_true_iff_false.
  induction es as [|e es IH]; cbn; [done|]. destruct (holds id e); cbn; [done|].
  destruct (findHolder id es) as [[]|]; [|tauto]. split; [done|]. intros E. apply IH in E. done.
Qed.

(** ** The receive window, specified *)

Definition shape (r : Reliable) : Prop :=
  (0 < r_size r <= Capacity)%nat /\ length (r_entries r) = Capacity.

(** The reference receiver: a floor and the out-of-order packets at or above
    it. *)
Definition spec_put (size : Z) (floor : Z) (buf : gmap Z bytes) (id : Z) (pl : bytes)
    : PutResult * gmap Z bytes :=
  if (id <? floor) || (floor + size <=? id) then (PutRejected, buf)
  else if decide (is_Some (buf !! id)) then (PutDuplicate, buf)
  else (PutAccepted, <[id := pl]> buf).

Definition spec_get (floor : Z) (buf : gmap Z bytes) : option (bytes * (Z * gmap Z bytes)) :=
  match buf !! floor with
  | Some pl => Some (pl, (floor + 1, delete floor buf))
  | None => None
  end.

Record recv_models (r : Reliable) (buf : gmap Z bytes) : Prop := {
  rm_shape : shape r;
  rm_floor : 0 <= r_packetID r;
  rm_nodup : NoDup (activePairs (slots r)).*1;
  rm_buf : buf = list_to_map (activePairs (slots r));
  rm_window : Forall (fun id => r_packetID r <= id < r_packetID r + Z.of_nat (r_size r))
                     (activePairs (slots r)).*1;
}.

(** The part of the id space in which no comparison wraps. *)
Definition no_wrap (r : Reliable) : Prop := r_packetID r + Z.of_nat (r_size r) <= 2147483648.

Lemma slots_length (r : Reliable) : shape r -> length (slots r) = r_size r.
Proof. intros [? ?]. unfold slots. rewrite length_take. lia. Qed.

Lemma slots_lookup (r : Reliable) (i : nat) (e : entry) :
  slots r !! i = Some e -> (i < r_size r)%nat /\ r_entries r !! i = Some e.
Proof. unfold slots. intros H. by apply lookup_take_Some in H as [? ?]. Qed.

Lemma slots_insert (r : Reliable) (i : nat) (e : entry) :
  (i < r_size r)%nat ->
  slots (with_entries r (<[i := e]> (r_entries r))) = <[i := e]> (slots r).
Proof. intros. unfold slots. cbn. by rewrite take_insert_lt by lia. Qed.

Lemma slots_with_packetID (r : Reliable) (id : Z) : slots (with_packetID r id) = slots r.
Proof. done. Qed.

Lemma shape_insert (r : Reliable) (i : nat) (e : entry) :
  shape r -> shape (with_entries r (<[i := e]> (r_entries r))).
Proof. intros [? ?]. split; cbn; [done|]. by rewrite length_insert. Qed.

(** A full window leaves no room for a new in-window id: the pigeonhole behind
    the "unreachable" fallback of [Put]. *)
Lemma window_not_full (r : Reliable) (buf : gmap Z bytes) (id : Z) :
  recv_models r buf ->
  r_packetID r <= id < r_packetID r + Z.of_nat (r_size r) ->
  id ∉ (activePairs (slots r)).*1 ->
  firstFree (slots r) <> None.
Proof.
  intros [Hsh Hf Hnd _ Hw] Hid Hnin E%firstFree_None.
  assert (Hle : (length (id :: (activePairs (slots r)).*1) <=
    length (seqZ (r_packetID r) (Z.of_nat (r_size r))))%nat).
  { apply submseteq_length, NoDup_submseteq; [by constructor|].
    intros x [->|Hx]%elem_of_cons; apply elem_of_seqZ; [done|].
    by apply (proj1 (Forall_forall _ _) Hw). }
  cbn in Hle. rewrite length_fmap, E, slots_length, length_seqZ in Hle by done. lia.
Qed.

Lemma pid_tests (id floor size : Z) :
  is_u32 id -> 0 <= floor -> 0 < size -> floor + size <= 2147483648 ->
  (pidMin id floor = true \/ pidInRange2 id floor size = false)
  <-> (id <? floor) || (floor + size <=? id) = true.
Proof.
  intros. unfold pidMin, pidInRange1, pidInRange2, subtractPID.
  rewrite (u32_id (floor + size)) by (unfold is_u32; lia).
  rewrite (proj2 (Z.leb_le floor _)) by lia.
  rewrite negb_true_iff, Z.ltb_ge, Z.ltb_ge, orb_true_iff, Z.ltb_lt, Z.leb_le. word_lia.
Qed.

Lemma lookup_activePairs (es : list entry) (id : Z) :
  is_Some ((list_to_map (activePairs es) : gmap Z bytes) !! id) <-> id ∈ (activePairs es).*1.
Proof.
  rewrite <- not_eq_None_Some, <- not_elem_of_list_to_map.
  destruct (decide (id ∈ (activePairs es).*1)); tauto.
Qed.

Lemma Put_refines (r : Reliable) (buf : gmap Z bytes) (id : Z) (pl : bytes) :
  recv_models r buf -> no_wrap r -> is_u32 id ->
  let '(res, r') := Put r id pl in
  let '(res', buf') := spec_put (Z.of_nat (r_size r)) (r_packetID r) buf id pl in
  res = res' /\ recv_models r' buf' /\ r_packetID r' = r_packetID r /\ r_size r' = r_size r.
Proof.
  intros Hm Hnw Hid. pose proof Hm as [Hsh Hf Hnd Hb Hw]. unfold Put, spec_put.
  pose proof (pid_tests id (r_packetID r) (Z.of_nat (r_size r)) Hid Hf
    ltac:(destruct Hsh; lia) Hnw) as Ht.
  destruct (pidMin id (r_packetID r)) eqn:Emin.
  { rewrite (proj1 Ht) by auto. done. }
  assert (Hdup : existsb (holds id) (slots r) = bool_decide (is_Some (buf !! id))).
  { apply eq_true_iff_eq. rewrite existsb_holds, bool_decide_eq_true, Hb, lookup_activePairs. done. }
  rewrite Hdup. rewrite bool_decide_decide.
  destruct ((id <? r_packetID r) || (r_packetID r + Z.of_nat (r_size r) <=? id)) eqn:Eout.
  { destruct (proj2 Ht eq_refl) as [?|Hr]; [done|]; rewrite Hr. cbn [negb].
    destruct (decide (is_Some (buf !! id))) as [Hs|]; [|done].
    exfalso. rewrite Hb in Hs. apply lookup_activePairs in Hs.
    apply (proj1 (Forall_forall _ _) Hw) in Hs. lia. }
  destruct (decide (is_Some (buf !! id))) as [Hs|Hns]; [done|].
  destruct (pidInRange2 id (r_packetID r) (Z.of_nat (r_size r))); cbn [negb].
  2: { by specialize (proj1 Ht (or_intror eq_refl)). }
  assert (Hnin : id ∉ (activePairs (slots r)).*1)
    by (rewrite Hb, lookup_activePairs in Hns; done).
  destruct (firstFree (slots r)) as [i|] eqn:Ef.
  2: { exfalso. eapply window_not_full; [done| |done..]. lia. }
  apply firstFree_Some in Ef as (e & Hi & Hina).
  destruct (slots_lookup _ _ _ Hi) as [Hlt ->].
  pose proof (activePairs_insert (slots r) i e (mkEntry true (e_timeout e) (e_nextTry e) id 0 pl) Hi)
    as Hperm.
  pose proof (activePairs_split (slots r) i e Hi) as Hperm0.
  unfold activePair in Hperm, Hperm0. rewrite Hina in Hperm0. cbn in Hperm, Hperm0.
  rewrite <- Hperm0 in Hperm.
  split_and!; try done. constructor; try done.
  - by apply shape_insert.
  - rewrite slots_insert by done. rewrite Hperm. cbn. by constructor.
  - rewrite slots_insert by done. rewrite Hb.
    symmetry. etransitivity; [apply list_to_map_proper, Hperm|done].
    rewrite Hperm. cbn. by constructor.
  - rewrite slots_insert by done. rewrite Hperm. cbn. constructor; [lia|done].
Qed.

Lemma Get_refines (r : Reliable) (buf : gmap Z bytes) :
  recv_models r buf -> no_wrap r ->
  match Get r, spec_get (r_packetID r) buf with
  | None, None => True
  | Some (pl, r'), Some (pl', (floor', buf')) =>
      pl = pl' /\ recv_models r' buf' /\ r_packetID r' = floor' /\ r_size r' = r_size r
  | _, _ => False
  end.
Proof.
  intros Hm Hnw. pose proof Hm as [Hsh Hf Hnd Hb Hw]. unfold Get, spec_get.
  destruct (findHolder (r_packetID r) (slots r)) as [[i e]|] eqn:E.
  2: { apply findHolder_None in E. rewrite Hb.
       by rewrite (proj1 (not_elem_of_list_to_map _ _) E). }
  apply findHolder_Some in E as [Hi Hp].
  destruct (slots_lookup _ _ _ Hi) as [Hlt Hei].
  pose proof (activePairs_split _ _ _ Hi) as Hs. rewrite Hp in Hs. cbn in Hs.
  pose proof (activePairs_insert (slots r) i e (deactivate e) Hi) as Hins. cbn in Hins.
  rewrite <- Hins in Hs. rewrite Hs in Hnd, Hw. cbn in Hnd, Hw.
  apply NoDup_cons in Hnd as [Hnin Hnd]. apply Forall_cons in Hw as [_ Hw].
  assert (Hbuf : buf = <[r_packetID r := e_payload e]>
      (list_to_map (activePairs (<[i := deactivate e]> (slots r))))).
  { rewrite Hb. rewrite (list_to_map_proper _ _ (rm_nodup _ _ Hm) Hs). done. }
  rewrite Hbuf, lookup_insert_eq.
  assert (Hid : e_packetID e = r_packetID r)
    by (unfold activePair in Hp; destruct (e_active e); by simplify_eq).
  rewrite Hid. destruct Hsh as [Hsz Hln]. unfold Capacity, no_wrap in *.
  rewrite u32_id by (unfold is_u32; lia).
  split_and!; try done.
  constructor; rewrite ?slots_with_packetID, ?slots_insert by done.
  - split; cbn; [done|by rewrite length_insert].
  - cbn. lia.
  - done.
  - apply delete_insert_id. by apply not_elem_of_list_to_map.
  - rewrite Forall_forall in Hw |- *. intros x Hx. cbn.
    specialize (Hw x Hx). assert (x <> r_packetID r) by (intros ->; done). lia.
Qed.

(** ** Runs of the receive window *)

Inductive recv_op :=
  | OpPut (id : Z) (payload : bytes)
  | OpGet.

(** The payloads [Get] returned over a run, in order, and the final state. *)
Fixpoint recv_run (r : Reliable) (ops : list recv_op) : list bytes * Reliable :=
  match ops with
  | [] => ([], r)
  | OpPut id pl :: ops => recv_run (snd (Put r id pl)) ops
  | OpGet :: ops =>
      match Get r with
      | None => recv_run r ops
      | Some (pl, r') => let '(out, r'') := recv_run r' ops in (pl :: out, r'')
      end
  end.

(** The peer's stream: every transmission of packet [id] carries [stream id]. *)
Definition op_from (stream : Z -> bytes) (op : recv_op) : Prop :=
  match op with
  | OpPut id pl => is_u32 id /\ pl = stream id
  | OpGet => True
  end.

Definition holds_stream (stream : Z -> bytes) (buf : gmap Z bytes) : Prop :=
  forall id pl, buf !! id = Some pl -> pl = stream id.

Lemma recv_run_in_order (stream : Z -> bytes) (ops : list recv_op) (r : Reliable)
    (buf : gmap Z bytes) :
  Forall (op_from stream) ops -> recv_models r buf -> holds_stream stream buf ->
  r_packetID r + zlen ops + Z.of_nat (r_size r) <= 2147483648 ->
  fst (recv_run r ops) = map stream (seqZ (r_packetID r) (zlen (fst (recv_run r ops)))).
Proof.
  intros Hops. revert r buf. induction Hops as [|op ops Hop _ IH]; intros r buf Hm Hs Hb; [done|].
  rewrite zlen_cons in Hb. pose proof (zlen_nonneg ops).
  assert (Hnw : no_wrap r) by (unfold no_wrap; lia).
  destruct op as [id pl|]; cbn [recv_run].
  - destruct Hop as [Hid ->]. pose proof (Put_refines r buf id (stream id) Hm Hnw Hid) as HP.
    unfold spec_put in HP. destruct (Put r id (stream id)) as [res r']. cbn [snd].
    destruct ((id <? r_packetID r) || _); [|destruct (decide _)];
      destruct HP as (_ & Hm' & Hf & Hz); rewrite <- Hf; eapply IH; try done; try lia.
    intros i p [[<- <-]|[_ Hi]]%lookup_insert_Some; [done|by apply Hs].
  - pose proof (Get_refines r buf Hm Hnw) as HG. unfold spec_get in HG.
    destruct (Get r) as [[pl r']|].
    2: { eapply IH; try done. lia. }
    destruct (buf !! r_packetID r) as [pl'|] eqn:Eb; [|done].
    destruct HG as (-> & Hm' & Hf & Hz).
    specialize (IH r' (delete (r_packetID r) buf)). rewrite Hf, Hz in IH.
    destruct (recv_run r' ops) as [out r'']. cbn [fst] in *.
    rewrite zlen_cons, seqZ_cons by (pose proof (zlen_nonneg out); lia). cbn [map].
    replace (Z.pred (1 + zlen out)) with (zlen out) by lia.
    f_equal; [by apply Hs|]. apply IH; [done| |lia].
    intros i p [_ Hi]%lookup_delete_Some. by apply Hs.
Qed.

Lemma activePairs_zero (n : nat) : activePairs (replicate n zeroEntry) = [].
Proof. by induction n. Qed.

Lemma New_shape (size : nat) (r : Reliable) :
  New size = Some r ->
  shape r /\ r_size r = size /\ r_packetID r = 0 /\ activePairs (slots r) = [].
Proof.
  unfold New. case_decide as Hd; [done|]. intros H%(inj Some). subst r.
  unfold shape, slots. cbn [r_size r_entries r_packetID].
  rewrite take_replicate, length_replicate, activePairs_zero. split_and!; lia || done.
Qed.

Lemma New_recv_models (size : nat) (r : Reliable) : New size = Some r -> recv_models r ∅.
Proof.
  intros (Hs & _ & Hp & Ha)%New_shape.
  constructor; rewrite ?Hp, ?Ha; cbn; try done; constructor.
Qed.

(** C8. Exactly-once, in-order delivery: for every interleaving of packet
    arrivals and [Get] calls of fewer than [2^31 - size] operations, with
    packets lost, duplicated, retransmitted or reordered in any way, the
    payloads [Get] returns are exactly the peer's packets 0, 1, 2, ... in
    order, each once. *)
Theorem Reliable_in_order_delivery (stream : Z -> bytes) (size : nat) (r : Reliable)
    (ops : list recv_op) :
  New size = Some r ->
  Forall (op_from stream) ops ->
  zlen ops + Z.of_nat size <= 2147483648 ->
  let out := fst (recv_run r ops) in out = map stream (seqZ 0 (zlen out)).
Proof.
  intros HN Hops Hb. pose proof (New_shape _ _ HN) as (_ & Hsz & Hp & _).
  cbv zeta. rewrite <- Hp.
  apply (recv_run_in_order stream ops r ∅); [done|by eapply New_recv_models|done|lia].
Qed.

(** Below the wrap-around region the receive window is the reference
    receiver: [Put] answers exactly [PutRejected] outside
    [[floor, floor+size)], [PutDuplicate] on a buffered id and [PutAccepted]
    (with the packet buffered) otherwise.  In particular the fallback for a
    full window is never taken. *)
Theorem Put_spec (r : Reliable) (buf : gmap Z bytes) (id : Z) (pl : bytes) :
  recv_models r buf -> no_wrap r -> is_u32 id ->
  fst (Put r id pl) = fst (spec_put (Z.of_nat (r_size r)) (r_packetID r) buf id pl) /\
  recv_models (snd (Put r id pl))
              (snd (spec_put (Z.of_nat (r_size r)) (r_packetID r) buf id pl)).
Proof.
  intros Hm Hw Hid. pose proof (Put_refines r buf id pl Hm Hw Hid) as H.
  destruct (Put r id pl), (spec_put _ _ _ _ _). tauto.
Qed.

(** Past the middle of the id space the capacity check admits far-future
    ids: with the floor above 2^31, every id more than 2^31 below the floor,
    hence at least [size] ahead of it in sequence order, is accepted as long as
    a slot is free. *)
Theorem Put_accepts_far_future (r : Reliable) (id : Z) (pl : bytes) (i : nat) :
  shape r ->
  2147483648 < r_packetID r -> r_packetID r + Z.of_nat (r_size r) < 4294967296 ->
  0 <= id < r_packetID r - 2147483648 ->
  firstFree (slots r) = Some i -> existsb (holds id) (slots r) = false ->
  fst (Put r id pl) = PutAccepted /\ Z.of_nat (r_size r) <= subtractPID id (r_packetID r).
Proof.
  intros [Hsz Hln] Hf Hfs Hid Hfree Hnh. unfold Capacity in *. unfold Put.
  assert (Hsub : subtractPID id (r_packetID r) = id - r_packetID r + 4294967296)
    by (unfold subtractPID; word_lia).
  assert (Hmin : pidMin id (r_packetID r) = false).
  { unfold pidMin, pidInRange1. rewrite Hsub, (proj2 (Z.ltb_lt _ _)) by lia. done. }
  assert (Hrng : pidInRange2 id (r_packetID r) (Z.of_nat (r_size r)) = true).
  { unfold pidInRange2. rewrite u32_id by (unfold is_u32; lia).
    rewrite (proj2 (Z.leb_le _ _)) by lia. apply Z.ltb_lt. lia. }
  rewrite Hmin, Hnh, Hrng, Hfree. cbn [negb].
  apply firstFree_Some in Hfree as (e & Hi & _). apply slots_lookup in Hi as [_ ->].
  split; [done|lia].
Qed.

(** ** The send window *)

Definition activeIDs (r : Reliable) : list Z := (activePairs (slots r)).*1.

(** [id] was assigned between 1 and [size] packets before the next one. *)
Definition in_window (r : Reliable) (id : Z) : Prop :=
  is_u32 id /\ 1 <= subtractPID (r_packetID r) id <= Z.of_nat (r_size r).

Record send_inv (r : Reliable) : Prop := {
  si_shape : shape r;
  si_next : is_u32 (r_packetID r);
  si_nodup : NoDup (activeIDs r);
  si_window : Forall (in_window r) (activeIDs r);
}.

(** Within the window the wrap-around comparison orders ids by age. *)
Lemma pidMin_age (r : Reliable) (a b : Z) :
  shape r -> in_window r a -> in_window r b ->
  pidMin a b = (subtractPID (r_packetID r) b <? subtractPID (r_packetID r) a).
Proof.
  intros [Hs _] [Ha Ha'] [Hb Hb']. unfold Capacity in Hs.
  unfold pidMin, pidInRange1, subtractPID in *. apply eq_true_iff_eq.
  rewrite negb_true_iff, Z.ltb_ge, Z.ltb_lt. word_lia.
Qed.

(** [m] is the oldest of [ids]. *)
Definition oldest (r : Reliable) (m : Z) (ids : list Z) : Prop :=
  m ∈ ids /\ Forall (fun id => subtractPID (r_packetID r) id <= subtractPID (r_packetID r) m) ids.

Lemma oldest_snoc (r : Reliable) (m id : Z) (ids : list Z) :
  shape r -> Forall (in_window r) (ids ++ [id]) -> oldest r m ids ->
  oldest r (if pidMin id m then id else m) (ids ++ [id]).
Proof.
  intros Hs Hw [Hin Hall]. apply Forall_app in Hw as [Hw Hid]. rewrite Forall_singleton in Hid.
  pose proof (proj1 (Forall_forall _ _) Hw _ Hin) as Hm.
  rewrite (pidMin_age r id m Hs Hid Hm).
  destruct (Z.ltb_spec (subtractPID (r_packetID r) m) (subtractPID (r_packetID r) id));
    (split; [set_solver|]); apply Forall_app; (split; [|rewrite Forall_singleton; lia]).
  - eapply Forall_impl; [done|]. cbn. lia.
  - done.
Qed.

Lemma activePairs_snoc (es : list entry) (e : entry) :
  (activePairs (es ++ [e])).*1 =
  (activePairs es).*1 ++ (if e_active e then [e_packetID e] else []).
Proof.
  unfold activePairs. rewrite omap_app, fmap_app. f_equal. cbn. unfold activePair.
  by destruct (e_active e).
Qed.

Lemma minActiveID_oldest (r : Reliable) (es : list entry) :
  shape r -> Forall (in_window r) (activePairs es).*1 ->
  match minActiveID es with
  | None => (activePairs es).*1 = []
  | Some m => oldest r m (activePairs es).*1
  end.
Proof.
  intros Hs. induction es as [|e es IH] using rev_ind; intros Hw; [done|].
  assert (Hfold : minActiveID (es ++ [e]) = minStep (minActiveID es) e)
    by apply foldl_snoc.
  rewrite Hfold, activePairs_snoc in *. unfold minStep.
  destruct (e_active e); [|rewrite app_nil_r in *; by apply IH].
  pose proof Hw as [Hw1 _]%Forall_app. specialize (IH Hw1).
  destruct (minActiveID es) as [m|].
  - pose proof (oldest_snoc r m (e_packetID e) _ Hs Hw IH) as H.
    by destruct (pidMin (e_packetID e) m).
  - rewrite IH. split; [set_solver|]. by rewrite app_nil_l, Forall_singleton.
Qed.

Lemma Next_Some (r : Reliable) (i : nat) :
  send_inv r -> Next r = Some i ->
  (exists e, slots r !! i = Some e /\ e_active e = false) /\
  Forall (fun id => subtractPID (r_packetID r) id < Z.of_nat (r_size r)) (activeIDs r).
Proof.
  intros [Hs Hp Hnd Hw] HN. unfold Next in HN.
  pose proof (minActiveID_oldest r (slots r) Hs Hw) as Hmin.
  destruct (minActiveID (slots r)) as [m|].
  - destruct (pidInRange1 (r_packetID r) m (Z.of_nat (r_size r))) eqn:E; cbn in HN; [|done].
    split; [by apply firstFree_Some|]. unfold pidInRange1 in E. apply Z.ltb_lt in E.
    eapply Forall_impl; [exact (proj2 Hmin)|]. cbn. lia.
  - split; [by apply firstFree_Some|]. unfold activeIDs. by rewrite Hmin.
Qed.

(** Replacing a slot by one with the same activity and id keeps the ids. *)
Lemma activeIDs_same (r : Reliable) (i : nat) (e e' : entry) :
  r_entries r !! i = Some e ->
  e_active e' = e_active e -> e_packetID e' = e_packetID e ->
  activeIDs (with_entries r (<[i := e']> (r_entries r))) ≡ₚ activeIDs r.
Proof.
  intros Hi Ha Hid. unfold activeIDs.
  destruct (decide (i < r_size r)%nat) as [Hlt|Hge].
  - rewrite slots_insert by done.
    assert (Hs : slots r !! i = Some e) by (unfold slots; by rewrite lookup_take_lt).
    rewrite (activePairs_insert _ _ _ e' Hs), (activePairs_split _ _ _ Hs), !fmap_app.
    unfold activePair. rewrite Ha, Hid. by destruct (e_active e).
  - unfold slots. cbn. by rewrite take_insert_ge by lia.
Qed.

Lemma send_inv_same (r r' : Reliable) :
  send_inv r -> shape r' -> r_size r' = r_size r -> r_packetID r' = r_packetID r ->
  activeIDs r' ⊆+ activeIDs r -> send_inv r'.
Proof.
  intros [Hs Hp Hnd Hw] Hs' Hz Hid Hsub. constructor; [done|by rewrite Hid| |].
  - apply submseteq_Permutation in Hsub as [k Hk]. rewrite Hk in Hnd. by apply NoDup_app in Hnd as [? _].
  - rewrite Forall_forall in Hw |- *. intros x Hx. unfold in_window. rewrite Hz, Hid.
    apply Hw. by eapply elem_of_submseteq.
Qed.

Lemma MarkActive_inv (r r' : Reliable) (i : nat) (id : Z) :
  send_inv r -> Next r = Some i -> MarkActive r i = Some (id, r') ->
  send_inv r' /\ id = r_packetID r /\ activeIDs r' ≡ₚ id :: activeIDs r.
Proof.
  intros Hinv HN HM. destruct (Next_Some _ _ Hinv HN) as [(e & Hi & Hina) Hage].
  destruct Hinv as [Hs Hp Hnd Hw]. destruct (slots_lookup _ _ _ Hi) as [Hlt Hei].
  unfold MarkActive in HM. rewrite Hei in HM. simplify_eq.
  set (e' := mkEntry true _ _ _ _ _).
  assert (Hids : activeIDs (with_packetID (with_entries r (<[i:=e']> (r_entries r)))
            (r_packetID r +u32 1)) ≡ₚ r_packetID r :: activeIDs r).
  { unfold activeIDs. rewrite slots_with_packetID, slots_insert by done.
    rewrite (activePairs_insert _ _ _ e' Hi), (activePairs_split _ _ _ Hi).
    unfold activePair. by rewrite Hina. }
  split_and!; [|done|done]. constructor.
  - destruct Hs. split; cbn; [done|by rewrite length_insert].
  - apply u32_range.
  - rewrite Hids. constructor; [|done]. intros Hin.
    apply (proj1 (Forall_forall _ _) Hw) in Hin as [_ Hin].
    unfold subtractPID in Hin. rewrite Z.sub_diag in Hin. word_lia.
  - rewrite Hids. destruct Hs as [Hsz _]. unfold Capacity in Hsz.
    constructor; [unfold in_window, subtractPID; cbn; split; [done|word_lia]|].
    rewrite Forall_forall in Hw, Hage |- *. intros x Hx.
    destruct (Hw x Hx) as [Hx32 Hx1]. specialize (Hage x Hx). cbn in Hage.
    unfold in_window, subtractPID in *. cbn. split; [done|word_lia].
Qed.

Lemma activePairs_cons (es : list entry) (e : entry) :
  (activePairs (e :: es)).*1 =
  (if e_active e then [e_packetID e] else []) ++ (activePairs es).*1.
Proof. unfold activePairs. cbn. unfold activePair. by destruct (e_active e). Qed.

Lemma ackEntry_ids (pid : Z) (es : list entry) :
  (activePairs (map (ackEntry pid) es)).*1 = filter (fun id => id <> pid) (activePairs es).*1.
Proof.
  induction es as [|e es IH]; [done|]. cbn [map]. rewrite !activePairs_cons, filter_app, IH.
  f_equal. unfold ackEntry. destruct (e_active e) eqn:E; cbn [negb]; [|by rewrite ?E].
  rewrite filter_cons, filter_nil. destruct (Z.eqb_spec (e_packetID e) pid) as [Hx|Hx]; cbn.
  - rewrite decide_False by (intros H; done). done.
  - rewrite decide_True by done. destruct (e_packetID e <? pid); cbn; by rewrite ?E.
Qed.

Lemma ackOne_ids (r : Reliable) (pid : Z) :
  shape r -> shape (ackOne r pid) /\
  activeIDs (ackOne r pid) = filter (fun id => id <> pid) (activeIDs r).
Proof.
  intros Hs. pose proof (slots_length r Hs) as Hl. destruct Hs as [Hsz Hln]. split.
  - split; [done|]. cbn. rewrite length_app, length_map, Hl, length_drop. lia.
  - unfold activeIDs. rewrite <- ackEntry_ids. unfold slots at 1. cbn.
    rewrite take_app_length' by (by rewrite length_map). done.
Qed.

Lemma Ack_ids (r : Reliable) (ids : list Z) :
  shape r -> shape (Ack r ids) /\ r_size (Ack r ids) = r_size r /\
  r_packetID (Ack r ids) = r_packetID r /\
  activeIDs (Ack r ids) = filter (fun id => id ∉ ids) (activeIDs r).
Proof.
  unfold Ack. revert r. induction ids as [|pid ids IH]; intros r Hs; cbn.
  - split_and!; try done. symmetry. apply filter_all. apply Forall_forall. intros. apply not_elem_of_nil.
  - destruct (ackOne_ids r pid Hs) as [Hs1 H1]. destruct (IH _ Hs1) as (H2 & H3 & H4 & H5).
    split_and!; try done. rewrite H5, H1, list_filter_filter.
    apply list_filter_iff. intros x. rewrite not_elem_of_cons. tauto.
Qed.

(** ** Selection of the entry to (re)send *)

Definition age (r : Reliable) (e : entry) : Z := subtractPID (r_packetID r) (e_packetID e).

(** The accumulator of [bestDue] over a prefix: nothing due, or the index of the
    oldest due entry. *)
Definition best_of (r : Reliable) (now : Z) (acc : option (nat * Z)) (es : list entry) : Prop :=
  match acc with
  | None => Forall (fun e => isDue now e = false) es
  | Some (j, m) =>
      exists e, es !! j = Some e /\ isDue now e = true /\ e_packetID e = m /\
        Forall (fun e' => isDue now e' = true -> age r e' <= age r e) es
  end.

Lemma isDue_active (now : Z) (e : entry) : isDue now e = true -> e_active e = true.
Proof. unfold isDue. by destruct (e_active e). Qed.

Lemma active_in_window (r : Reliable) (es : list entry) :
  Forall (in_window r) (activePairs es).*1 ->
  Forall (fun e => e_active e = true -> in_window r (e_packetID e)) es.
Proof.
  induction es as [|e es IH]; intros H; [constructor|].
  rewrite activePairs_cons in H. apply Forall_app in H as [H1 H2].
  constructor; [|by apply IH]. intros E. rewrite E in H1. by rewrite Forall_singleton in H1.
Qed.

Lemma best_of_step (r : Reliable) (now : Z) (acc : option (nat * Z)) (es : list entry) (e : entry) :
  shape r -> Forall (fun e => e_active e = true -> in_window r (e_packetID e)) (es ++ [e]) ->
  best_of r now acc es ->
  best_of r now
    (if isDue now e then
       match acc with
       | None => Some (length es, e_packetID e)
       | Some (_, m) => if pidMin (e_packetID e) m then Some (length es, e_packetID e) else acc
       end
     else acc) (es ++ [e]).
Proof.
  intros Hs [Hw He]%Forall_app Hb. rewrite Forall_singleton in He.
  assert (Hlast : (es ++ [e]) !! length es = Some e)
    by (rewrite lookup_app_r, Nat.sub_diag by lia; done).
  destruct (isDue now e) eqn:E.
  - specialize (He (isDue_active _ _ E)). destruct acc as [[j m]|]; cbn in Hb.
    + destruct Hb as (e0 & Hj & Hd & <- & Hall).
      assert (Hw0 : in_window r (e_packetID e0)).
      { eapply (proj1 (Forall_lookup _ _) Hw); [exact Hj|]. by eapply isDue_active. }
      rewrite (pidMin_age r _ _ Hs He Hw0).
      destruct (Z.ltb_spec (subtractPID (r_packetID r) (e_packetID e0))
                           (subtractPID (r_packetID r) (e_packetID e))).
      * exists e. split_and!; try done. apply Forall_app. split; [|by rewrite Forall_singleton].
        eapply Forall_impl; [exact Hall|]. cbn. unfold age. intros x Hx Hdx. specialize (Hx Hdx). lia.
      * exists e0. split_and!; try done; [by apply lookup_app_l_Some|].
        apply Forall_app. split; [done|]. rewrite Forall_singleton. unfold age. lia.
    + exists e. split_and!; try done. apply Forall_app. split; [|by rewrite Forall_singleton].
      eapply Forall_impl; [exact Hb|]. cbn. congruence.
  - destruct acc as [[j m]|]; cbn in *.
    + destruct Hb as (e0 & Hj & Hd & Hm & Hall). exists e0. split_and!; try done.
      * by apply lookup_app_l_Some.
      * apply Forall_app. split; [done|]. rewrite Forall_singleton. congruence.
    + apply Forall_app. split; [done|]. by rewrite Forall_singleton.
Qed.

Lemma bestDue_best (r : Reliable) (now : Z) (acc : option (nat * Z)) (pre es : list entry) :
  shape r -> Forall (fun e => e_active e = true -> in_window r (e_packetID e)) (pre ++ es) ->
  best_of r now acc pre ->
  best_of r now (bestDue now (length pre) acc es) (pre ++ es).
Proof.
  intros Hs. revert acc pre. induction es as [|e es IH]; intros acc pre Hw Hb.
  { by rewrite app_nil_r. }
  cbn [bestDue]. replace (pre ++ e :: es) with ((pre ++ [e]) ++ es) in * by (by rewrite <- app_assoc).
  replace (S (length pre)) with (length (pre ++ [e])) by (rewrite length_app; cbn; lia).
  apply IH; [done|]. apply best_of_step; [done| |done]. by apply Forall_app in Hw as [? _].
Qed.

Lemma Due_cases (r : Reliable) (now : Z) :
  send_inv r ->
  match Due r now with
  | None => Forall (fun e => isDue now e = false) (slots r)
  | Some (pl, id, r') =>
      exists i e, slots r !! i = Some e /\ isDue now e = true /\
        pl = e_payload e /\ id = e_packetID e /\
        r' = with_entries r (<[i := backoff now e]> (r_entries r)) /\
        Forall (fun e' => isDue now e' = true -> age r e' <= age r e) (slots r)
  end.
Proof.
  intros [Hs Hp Hnd Hw]. unfold Due.
  pose proof (bestDue_best r now None [] (slots r) Hs (active_in_window _ _ Hw)
    (Forall_nil_2 _)) as HB. cbn [length app] in HB.
  destruct (bestDue now 0 None (slots r)) as [[i m]|]; [|done].
  destruct HB as (e & Hi & Hd & <- & Hall). destruct (slots_lookup _ _ _ Hi) as [_ ->].
  by exists i, e.
Qed.

(** ** Steps of the send side *)

Inductive send_step : Reliable -> Reliable -> Prop :=
  | step_send r i id r' : Next r = Some i -> MarkActive r i = Some (id, r') -> send_step r r'
  | step_payload r i pl r' : SetPayload r i pl = Some r' -> send_step r r'
  | step_ack r ids : send_step r (Ack r ids)
  | step_due r now pl id r' : Due r now = Some (pl, id, r') -> send_step r r'.

Lemma Due_inv (r r' : Reliable) (now : Z) (pl : bytes) (id : Z) :
  send_inv r -> Due r now = Some (pl, id, r') -> send_inv r' /\ activeIDs r' ≡ₚ activeIDs r.
Proof.
  intros Hinv HD. pose proof (Due_cases r now Hinv) as HC. rewrite HD in HC.
  destruct HC as (i & e & Hi & _ & _ & _ & -> & _).
  destruct (slots_lookup _ _ _ Hi) as [_ Hei].
  pose proof (activeIDs_same r i e (backoff now e) Hei eq_refl eq_refl) as Hp.
  split; [|done]. eapply send_inv_same; try done; [by apply shape_insert, si_shape|by rewrite Hp].
Qed.

Lemma send_step_inv (r r' : Reliable) : send_inv r -> send_step r r' -> send_inv r'.
Proof.
  intros Hinv. destruct 1 as [r i id r' HN HM|r i pl r' HS|r ids|r now pl id r' HD].
  - by destruct (MarkActive_inv r r' i id Hinv HN HM).
  - unfold SetPayload in HS. destruct (r_entries r !! i) as [e|] eqn:E; [|done]. simplify_eq.
    eapply send_inv_same; try done; [by apply shape_insert, si_shape|].
    by rewrite (activeIDs_same r i e).
  - destruct (Ack_ids r ids (si_shape _ Hinv)) as (H1 & H2 & H3 & H4).
    eapply send_inv_same; try done. rewrite H4. apply sublist_submseteq, sublist_filter.
  - by destruct (Due_inv r r' now pl id Hinv HD).
Qed.

Lemma New_send_inv (size : nat) (r : Reliable) : New size = Some r -> send_inv r.
Proof.
  intros (Hs & _ & Hp & Ha)%New_shape.
  constructor; unfold activeIDs; rewrite ?Hp, ?Ha; cbn; first [done|word_lia|constructor].
Qed.

(** The send window never outgrows its size, across wrap-around of the
    32-bit id too: in every state reachable from [New] by sends, payload
    updates, acknowledgements (of any ids, forged ones included) and
    retransmissions, the outstanding packet ids are pairwise distinct and each
    lies between 1 and [size] behind the next id to assign. *)
Theorem send_window_invariant (size : nat) (r0 r : Reliable) :
  New size = Some r0 -> rtc send_step r0 r ->
  NoDup (activeIDs r) /\
  Forall (fun id => 1 <= subtractPID (r_packetID r) id <= Z.of_nat (r_size r)) (activeIDs r).
Proof.
  intros HN Hr. apply New_send_inv in HN.
  assert (Hinv : send_inv r) by (induction Hr; eauto using send_step_inv).
  split; [apply Hinv|]. eapply Forall_impl; [apply Hinv|]. by intros x [_ ?].
Qed.

(** [Due] selects correctly and applies the exponential backoff: it
    answers with nothing exactly when no entry is due; otherwise with the
    oldest due entry (wrap-around aware), whose due time moves out by its
    timeout, whose timeout doubles and whose fast-retransmit counter resets,
    every other slot being untouched. *)
Theorem Due_spec (size : nat) (r0 r : Reliable) (now : Z) :
  New size = Some r0 -> rtc send_step r0 r ->
  match Due r now with
  | None => Forall (fun e => isDue now e = false) (slots r)
  | Some (pl, id, r') =>
      exists i e, slots r !! i = Some e /\ isDue now e = true /\
        pl = e_payload e /\ id = e_packetID e /\
        r' = with_entries r (<[i := backoff now e]> (r_entries r)) /\
        Forall (fun e' => isDue now e' = true -> age r e' <= age r e) (slots r)
  end.
Proof.
  intros HN Hr. apply New_send_inv in HN. apply Due_cases.
  induction Hr; eauto using send_step_inv.
Qed.

(** [Ack] purges exactly the acknowledged packets: the outstanding ids
    afterwards are the outstanding ids before, in the same slots' order, minus
    the acknowledged ones; ids that were never sent purge nothing. *)
Theorem Ack_purges (size : nat) (r0 r : Reliable) (ids : list Z) :
  New size = Some r0 -> rtc send_step r0 r ->
  activeIDs (Ack r ids) = filter (fun id => id ∉ ids) (activeIDs r).
Proof.
  intros HN Hr. apply New_send_inv in HN.
  assert (Hinv : send_inv r) by (induction Hr; eauto using send_step_inv).
  by apply Ack_ids, si_shape.
Qed.

(** ** Progress of a retransmission round *)

Definition countDue (now : Z) (r : Reliable) : nat :=
  length (filter (fun e => isDue now e = true) (slots r)).

(** Every due entry has a positive timeout. *)
Definition due_timeouts_positive (now : Z) (r : Reliable) : Prop :=
  Forall (fun e => isDue now e = true -> 0 < e_timeout e) (slots r).

Lemma backoff_not_due (now : Z) (e : entry) : 0 < e_timeout e -> isDue now (backoff now e) = false.
Proof.
  intros. unfold isDue, backoff, NAckRetransmit. cbn.
  rewrite (proj2 (Z.leb_gt _ _)) by lia. by rewrite andb_false_r.
Qed.

Lemma filter_split {A : Type} (P : A -> Prop) `{!forall x, Decision (P x)} (l : list A)
    (i : nat) (x y : A) :
  l !! i = Some x -> P x -> ~ P y ->
  length (filter P l) = S (length (filter P (<[i := y]> l))).
Proof.
  intros Hi Hx Hy. pose proof (lookup_lt_Some _ _ _ Hi).
  rewrite (insert_take_drop l i y) by done. rewrite <- (take_drop_middle l i x Hi) at 1.
  rewrite !filter_app, !length_app, filter_cons_True, filter_cons_False by done. cbn. lia.
Qed.

(** One call of [Due] on positive timeouts takes one entry off the due set. *)
Lemma Due_progress (r r' : Reliable) (now : Z) (pl : bytes) (id : Z) :
  send_inv r -> due_timeouts_positive now r -> Due r now = Some (pl, id, r') ->
  countDue now r = S (countDue now r') /\ due_timeouts_positive now r'.
Proof.
  intros Hinv Hpos HD. pose proof (Due_cases r now Hinv) as HC. rewrite HD in HC.
  destruct HC as (i & e & Hi & Hdue & _ & _ & -> & _).
  destruct (slots_lookup _ _ _ Hi) as [Hlt _].
  pose proof (proj1 (Forall_lookup _ _) Hpos _ _ Hi Hdue) as Ht.
  pose proof (backoff_not_due now e Ht) as Hnd.
  unfold countDue, due_timeouts_positive. rewrite slots_insert by done. split.
  - eapply filter_split; [exact Hi|done|]. by rewrite Hnd.
  - apply Forall_insert; [done|]. by rewrite Hnd.
Qed.

(** ** The acknowledgement queue *)

Fixpoint drains (n : nat) (a : AckSet) : list (list Z) :=
  match n with
  | O => []
  | S n => let '(out, a') := Drain a in out :: drains n a'
  end.

Lemma Drain_split (a : AckSet) : Drain a = (take AckSize a, drop AckSize a).
Proof.
  unfold Drain. destruct (Nat.ltb_spec AckSize (length a)); [done|].
  by rewrite !firstn_all2, !skipn_all2 by lia.
Qed.

Lemma Add_spec (a : AckSet) (id : Z) :
  NoDup a -> NoDup (Add a id) /\ forall x, x ∈ Add a id <-> x = id \/ x ∈ a.
Proof.
  intros Hnd. unfold Add. destruct (existsb (Z.eqb id) a) eqn:E.
  - apply existsb_exists in E as (y & Hy & <-%Z.eqb_eq).
    apply list_elem_of_In in Hy. split; [done|]. intros x. split; [auto|by intros [->|?]].
  - assert (Hnin : id ∉ a).
    { intros Hin%list_elem_of_In. apply not_true_iff_false in E. apply E, existsb_exists.
      exists id. by rewrite Z.eqb_refl. }
    split.
    + apply NoDup_app. split_and!; [done| |apply NoDup_singleton].
      by intros x Hx ->%list_elem_of_singleton.
    + intros x. rewrite elem_of_app, list_elem_of_singleton. tauto.
Qed.

Lemma Add_all_spec (ids : list Z) :
  NoDup (foldl Add [] ids) /\ forall x, x ∈ foldl Add [] ids <-> x ∈ ids.
Proof.
  induction ids as [|id ids [Hnd IH]] using rev_ind; [by split; [apply NoDup_nil_2|]|].
  rewrite foldl_snoc. destruct (Add_spec _ id Hnd) as [Hnd' Hin]. split; [done|].
  intros x. rewrite Hin, IH, elem_of_app, list_elem_of_singleton. tauto.
Qed.

Lemma drains_spec (n : nat) (a : AckSet) :
  (length a <= n * AckSize)%nat ->
  concat (drains n a) = a /\ Forall (fun c => (length c <= AckSize)%nat) (drains n a).
Proof.
  revert a. induction n as [|n IH]; intros a Hl; cbn [drains].
  { destruct a; cbn in Hl; [done|lia]. }
  rewrite Drain_split. destruct (IH (drop AckSize a)) as [Hc Hf].
  { rewrite length_drop. unfold AckSize in *. lia. }
  cbn [concat]. rewrite Hc, take_drop. split; [done|]. constructor; [|done].
  rewrite length_take. lia.
Qed.

(** No acknowledgement is lost, duplicated or reordered: after any
    sequence of received ids the queue holds each of them once, and successive
    [Drain]s hand out all of it, in queueing order, at most [AckSize] per
    packet. *)
Theorem AckSet_lossless (ids : list Z) :
  let a := foldl Add [] ids in
  let packets := drains (length a) a in
  NoDup a /\ (forall id, id ∈ a <-> id ∈ ids) /\
  concat packets = a /\ Forall (fun c => (length c <= AckSize)%nat) packets.
Proof.
  cbv zeta. pose proof (Add_all_spec ids) as [Hnd Hin].
  pose proof (drains_spec (length (foldl Add [] ids)) (foldl Add [] ids)) as Hd.
  destruct Hd as [Hc Hf]; [unfold AckSize; lia|]. done.
Qed.

(** ** Witnesses *)

Definition recv0 : Reliable := mkReliable NRecBuffers TLSTimeout 0 (replicate Capacity zeroEntry).
Definition send0 : Reliable := mkReliable NSendBuffers TLSTimeout 0 (replicate Capacity zeroEntry).

Lemma Reliable_in_order_delivery_witness :
  let out := fst (recv_run recv0
    [OpPut 2 [12]; OpPut 0 [10]; OpPut 0 [10]; OpGet; OpGet; OpPut 1 [11]; OpGet; OpGet; OpGet]) in
  out = map (fun id => [10 + id]) (seqZ 0 (zlen out)).
Proof.
  apply (Reliable_in_order_delivery (fun id => [10 + id]) NRecBuffers); [reflexivity| |vm_compute; done].
  repeat (apply Forall_cons_2; [first [exact I | split; [unfold is_u32; lia|reflexivity]]|]).
  apply Forall_nil_2.
Defined.

Example recv_run_example :
  fst (recv_run recv0
    [OpPut 2 [12]; OpPut 0 [10]; OpPut 0 [10]; OpGet; OpGet; OpPut 1 [11]; OpGet; OpGet; OpGet])
  = [[10]; [11]; [12]].
Proof. vm_compute. reflexivity. Qed.

Lemma Put_spec_witness :
  fst (Put recv0 11 [1]) = fst (spec_put 12 0 ∅ 11 [1]) /\
  recv_models (snd (Put recv0 11 [1])) (snd (spec_put 12 0 ∅ 11 [1])).
Proof.
  apply (Put_spec recv0 ∅ 11 [1]); [|vm_compute; done|unfold is_u32; lia].
  apply (New_recv_models NRecBuffers). reflexivity.
Defined.

(** A receiver whose floor is past the middle of the id space. *)
Definition late : Reliable := with_packetID recv0 3221225472.

Lemma Put_accepts_far_future_witness :
  fst (Put late 5 [1]) = PutAccepted /\ 12 <= subtractPID 5 3221225472.
Proof.
  apply (Put_accepts_far_future late 5 [1] 0%nat); try reflexivity.
  - split; [|reflexivity]. vm_compute. lia.
  - split; [lia|reflexivity].
Defined.

(** Twelve such ids occupy every slot: the packet at the floor is then refused
    and nothing is ever delivered again. *)
Example late_window_wedged :
  let r := foldl (fun r id => snd (Put r id [])) late (seqZ 0 12) in
  fst (Put r 3221225472 [7]) = PutRejected /\ Get r = None.
Proof. vm_compute. done. Qed.

Definition send1 : Reliable :=
  match MarkActive send0 0 with Some (_, r) => r | None => send0 end.

Lemma send1_reachable : New NSendBuffers = Some send0 /\ rtc send_step send0 send1.
Proof.
  split; [reflexivity|]. apply rtc_once. by apply (step_send send0 0 0).
Qed.

Lemma send_window_invariant_witness :
  NoDup (activeIDs send1) /\
  Forall (fun id => 1 <= subtractPID (r_packetID send1) id <= Z.of_nat (r_size send1)) (activeIDs send1).
Proof.
  apply (send_window_invariant NSendBuffers send0 send1); apply send1_reachable.
Defined.

Lemma Due_spec_witness :
  match Due send1 5 with
  | None => Forall (fun e => isDue 5 e = false) (slots send1)
  | Some (pl, id, r') =>
      exists i e, slots send1 !! i = Some e /\ isDue 5 e = true /\
        pl = e_payload e /\ id = e_packetID e /\
        r' = with_entries send1 (<[i := backoff 5 e]> (r_entries send1)) /\
        Forall (fun e' => isDue 5 e' = true -> age send1 e' <= age send1 e) (slots send1)
  end.
Proof. apply (Due_spec NSendBuffers send0 send1 5); apply send1_reachable. Defined.

Lemma Ack_purges_witness :
  activeIDs (Ack send1 [0; 7]) = filter (fun id => id ∉ [0; 7]) (activeIDs send1).
Proof. apply (Ack_purges NSendBuffers send0 send1 [0; 7]); apply send1_reachable. Defined.
