(* ===== verification/TlsCrypt.v ===== *)
(** * TlsCrypt: control-channel encryption (tls-crypt)

    Model of [internal/tlscrypt/tlscrypt.go] (the wrap/unwrap construction: a
    MAC over header, packet id and plaintext whose first half is the CTR IV, a
    long-form packet id with its roll-over gate, and the replay window) and of
    [internal/tlscrypt/keyfile.go] (the "Static key V1" envelope).  HMAC-SHA256
    and AES-256-CTR are the two operations of class [TLSCryptPrims]; what the
    code relies on of them is class [TLSCryptLaws].  The package's own copy of
    the replay window is the window of [Replay]. *)

From S2P Require Import Prelude Replay.

(** ** Constants *)

Definition TagSize : Z := 32.
Definition BlockSize : Z := 16.
Definition PIDSize : Z := 8.
Definition OffPID : Z := 1 + 8.
Definition OffTag : Z := OffPID + PIDSize.
Definition OffCT : Z := OffTag + TagSize.

Inductive tc_error :=
  | ErrShort | ErrAuth | ErrReplay
  | ErrKeyMaterial | ErrHeaderLen | ErrRollOver
  | ErrBadEnvelope | ErrBadBodyLen.

#[export] Instance tc_error_eq_dec : EqDecision tc_error.
Proof. solve_decision. Defined.

(** ** The primitives *)

Class TLSCryptPrims := {
  (** [hmac.New(sha256.New, key)], written [msg], [Sum(nil)]. *)
  hmac_sha256 : bytes -> bytes -> bytes;
  (** [cipher.NewCTR(aes.NewCipher(key), iv).XORKeyStream]. *)
  aes_ctr : bytes -> bytes -> bytes -> bytes;
}.

Class TLSCryptLaws `{!TLSCryptPrims} : Prop := {
  hmac_length : forall k m, zlen (hmac_sha256 k m) = TagSize;
  ctr_involutive : forall k iv d, aes_ctr k iv (aes_ctr k iv d) = d;
}.

(** ** State *)

Record keySlot := mkKeySlot { ks_cipher : bytes; ks_hmac : bytes }.

(** The package's own anti-replay window and its [accept]. *)
Definition replayWindow : Type := Replay.replayWindow.
Definition accept : replayWindow -> Z -> bool * replayWindow := Replay.accept.

Record Wrapper := mkWrapper {
  w_encrypt : keySlot;
  w_decrypt : keySlot;
  w_sendSeq : Z;
  w_sendTime : Z;
  w_sendRolloverAt : Z;
  w_replay : replayWindow;
}.

(** [key256[a:b]] for constant bounds within a 256-byte string. *)
Definition field (key256 : bytes) (a b : nat) : bytes := take (b - a) (drop a key256).

Definition NewWrapper (key256 : bytes) (server : bool) : outcome tc_error Wrapper :=
  if negb (zlen key256 =? 256) then Err ErrKeyMaterial else
  let keys0 := mkKeySlot (field key256 0 32) (field key256 64 96) in
  let keys1 := mkKeySlot (field key256 128 160) (field key256 192 224) in
  if server then Ok (mkWrapper keys0 keys1 0 0 0 zeroReplayWindow)
  else Ok (mkWrapper keys1 keys0 0 0 0 zeroReplayWindow).

Section construction.
Context `{!TLSCryptPrims}.

(** ** Wrapping *)

(** The critical section of [Wrap]: the (sequence, timestamp) of the next
    packet and the wrapper left behind, on the error path too.  [now1] and
    [now2] are the two possible readings of [time.Now().Unix()]. *)
Definition nextPID (w : Wrapper) (now1 now2 : Z) : outcome tc_error (Z * Z) * Wrapper :=
  let w := if w_sendTime w =? 0
           then mkWrapper (w_encrypt w) (w_decrypt w) (w_sendSeq w) now1 (w_sendRolloverAt w) (w_replay w)
           else w in
  if w_sendSeq w =? 4294967295 then
    if negb (w_sendRolloverAt w =? 0) && (now2 <=? w_sendRolloverAt w) then (Err ErrRollOver, w)
    else (Ok (0 +u32 1, now2),
          mkWrapper (w_encrypt w) (w_decrypt w) (0 +u32 1) now2 now2 (w_replay w))
  else
    let seq := w_sendSeq w +u32 1 in
    (Ok (seq, w_sendTime w),
     mkWrapper (w_encrypt w) (w_decrypt w) seq (w_sendTime w) (w_sendRolloverAt w) (w_replay w)).

Definition wrapWithPID (w : Wrapper) (dst header pid plaintext : bytes) : bytes :=
  let aad := header ++ pid in
  let tag := hmac_sha256 (ks_hmac (w_encrypt w)) (aad ++ plaintext) in
  let ciphertext := aes_ctr (ks_cipher (w_encrypt w)) (take (Z.to_nat BlockSize) tag) plaintext in
  dst ++ aad ++ tag ++ ciphertext.

Definition Wrap (w : Wrapper) (now1 now2 : Z) (dst header plaintext : bytes)
    : outcome tc_error bytes * Wrapper :=
  if negb (zlen header =? OffPID) then (Err ErrHeaderLen, w) else
  let '(r, w') := nextPID w now1 now2 in
  ('(seq, ts) ← r; Ok (wrapWithPID w' dst header (be32 seq ++ be32 (u32 ts)) plaintext), w').

Definition WrapWithPacketID (w : Wrapper) (dst header pid plaintext : bytes)
    : outcome tc_error bytes :=
  if negb (zlen header =? OffPID) then Err ErrHeaderLen
  else Ok (wrapWithPID w dst header pid plaintext).

(** ** Unwrapping *)

(** Everything of [Unwrap] up to the tag comparison: the packet's sequence
    number and the decrypted bytes.  It reads the wrapper's keys only. *)
Definition authenticate (w : Wrapper) (packet : bytes) : outcome tc_error (Z * bytes) :=
  if zlen packet <? OffCT then Err ErrShort else
  aad ← slice packet 0 OffTag;
  wireTag ← slice packet OffTag OffCT;
  ciphertext ← slice_from packet OffCT;
  iv ← slice wireTag 0 BlockSize;
  let decrypted := aes_ctr (ks_cipher (w_decrypt w)) iv ciphertext in
  let computed := hmac_sha256 (ks_hmac (w_decrypt w)) (aad ++ decrypted) in
  if negb (bool_decide (wireTag = computed)) then Err ErrAuth else
  pid ← slice packet OffPID (OffPID + 4);
  seq ← get_u32 pid;
  Ok (seq, decrypted).

Definition with_replay (w : Wrapper) (rw : replayWindow) : Wrapper :=
  mkWrapper (w_encrypt w) (w_decrypt w) (w_sendSeq w) (w_sendTime w) (w_sendRolloverAt w) rw.

(** The result and the wrapper left behind: (header, plaintext) on success. *)
Definition Unwrap (w : Wrapper) (dst packet : bytes) : outcome tc_error (bytes * bytes) * Wrapper :=
  match authenticate w packet with
  | Err e => (Err e, w)
  | Panic => (Panic, w)
  | Ok (seq, decrypted) =>
      let '(ok, rw) := accept (w_replay w) seq in
      if negb ok then (Err ErrReplay, with_replay w rw)
      else (header ← slice packet 0 OffPID; Ok (header, dst ++ decrypted), with_replay w rw)
  end.

End construction.

(** ** The key file *)

Definition staticKeyHead : bytes := of_string "-----BEGIN OpenVPN Static key V1-----".
Definition staticKeyFoot : bytes := of_string "-----END OpenVPN Static key V1-----".
Definition staticKeyBodyLen : Z := 256.

Definition isHexDigit (c : Z) : bool :=
  ((48 <=? c) && (c <=? 57)) || ((97 <=? c) && (c <=? 102)) || ((65 <=? c) && (c <=? 70)).

Definition isKeySpace (c : Z) : bool := (c =? 10) || (c =? 13) || (c =? 32) || (c =? 9).

(** The loop that strips white space and refuses any other character.  The
    loop of the code ranges over runes; a byte above 127 starts a rune that is
    in neither class, so the byte-wise loop takes the same branches. *)
Fixpoint collectHex (body : bytes) : outcome tc_error bytes :=
  match body with
  | [] => Ok []
  | c :: body =>
      if isHexDigit c then rest ← collectHex body; Ok (c :: rest)
      else if isKeySpace c then collectHex body
      else Err ErrBadEnvelope
  end.

(** [hex.DecodeString]: [None] on an odd number of digits or a bad digit. *)
Definition hexValue (c : Z) : option Z :=
  if (48 <=? c) && (c <=? 57) then Some (c - 48)
  else if (97 <=? c) && (c <=? 102) then Some (c - 97 + 10)
  else if (65 <=? c) && (c <=? 70) then Some (c - 65 + 10)
  else None.

Fixpoint hexDecode (s : bytes) : option bytes :=
  match s with
  | [] => Some []
  | [_] => None
  | a :: b :: s =>
      match hexValue a, hexValue b, hexDecode s with
      | Some x, Some y, Some rest => Some (x * 16 + y :: rest)
      | _, _, _ => None
      end
  end.

Definition ParseStaticKeyV1 (data : bytes) : outcome tc_error bytes :=
  match index_of staticKeyHead data with
  | None => Err ErrBadEnvelope
  | Some headIdx =>
      rest ← slice_from data (Z.of_nat headIdx + zlen staticKeyHead);
      match index_of staticKeyFoot rest with
      | None => Err ErrBadEnvelope
      | Some footIdx =>
          body ← slice rest 0 (Z.of_nat footIdx);
          hexDigits ← collectHex body;
          match hexDecode hexDigits with
          | None => Err ErrBadEnvelope
          | Some raw => if negb (zlen raw =? staticKeyBodyLen) then Err ErrBadBodyLen else Ok raw
          end
      end
  end.

(** ** Facts on one packet *)

Lemma accept_false_same (r r' : replayWindow) (seq : Z) : accept r seq = (false, r') -> r' = r.
Proof.
  unfold accept, Replay.accept. intros H.
  repeat match type of H with context [if ?c then _ else _] => destruct c end; by simplify_eq.
Qed.

Lemma with_replay_same (w : Wrapper) : with_replay w (w_replay w) = w.
Proof. by destruct w. Qed.

Section packets.
Context `{!TLSCryptPrims}.

(** What a tag check accepts: the packet's tag is the MAC, under the
    receiver's key, of the cleartext prefix and of the decrypted payload. *)
Definition decrypted_of (w : Wrapper) (packet : bytes) : bytes :=
  aes_ctr (ks_cipher (w_decrypt w)) (take 16 (drop 17 packet)) (drop 49 packet).

Definition tag_verifies (w : Wrapper) (packet : bytes) : bool :=
  bool_decide (take 32 (drop 17 packet) =
    hmac_sha256 (ks_hmac (w_decrypt w)) (take 17 packet ++ decrypted_of w packet)).

(** The sequence number in the cleartext packet id. *)
Definition seq_of (packet : bytes) : Z :=
  match get_u32 (E := tc_error) (take 4 (drop 9 packet)) with Ok v => v | _ => 0 end.

Lemma authenticate_verdict (w : Wrapper) (packet : bytes) :
  authenticate w packet =
    if zlen packet <? 49 then Err ErrShort
    else if tag_verifies w packet then Ok (seq_of packet, decrypted_of w packet)
    else Err ErrAuth.
Proof.
  unfold authenticate, OffCT, OffTag, OffPID, PIDSize, TagSize, BlockSize.
  change (1 + 8 + 8 + 32) with 49. change (1 + 8 + 8) with 17.
  destruct (Z.ltb_spec (zlen packet) 49) as [Hs|Hs]; [done|].
  assert (Hl : (49 <= length packet)%nat) by (unfold zlen in Hs; lia).
  rewrite (slice_ok packet 0 17), (slice_ok packet 17 49), slice_from_ok by lia.
  outcome_simpl. change (Z.to_nat (17 - 0)) with 17%nat. change (Z.to_nat (49 - 17)) with 32%nat.
  change (Z.to_nat 17) with 17%nat. change (Z.to_nat 0) with 0%nat.
  change (Z.to_nat 49) with 49%nat.
  rewrite (slice_ok (take 32 _)) by
    (try lia; unfold zlen; rewrite length_take, length_drop; lia).
  outcome_simpl. change (Z.to_nat (16 - 0)) with 16%nat. change (Z.to_nat 0) with 0%nat.
  rewrite !drop_0, take_take. change (16 `min` 32)%nat with 16%nat.
  unfold tag_verifies, decrypted_of. case_bool_decide; [|done]. cbn [negb].
  rewrite slice_ok by lia. outcome_simpl.
  change (Z.to_nat (1 + 8 + 4 - (1 + 8))) with 4%nat. change (Z.to_nat (1 + 8)) with 9%nat.
  unfold seq_of.
  destruct (get_u32_total (E := tc_error) (take 4 (drop 9 packet))) as [v Hv].
  { unfold zlen. rewrite length_take, length_drop. lia. }
  rewrite Hv. done.
Qed.

(** Whole verdict of [Unwrap]. *)
Definition unwrap_verdict (w : Wrapper) (dst packet : bytes) :
    outcome tc_error (bytes * bytes) :=
  if zlen packet <? 49 then Err ErrShort
  else if negb (tag_verifies w packet) then Err ErrAuth
  else if fst (accept (w_replay w) (seq_of packet))
  then Ok (take 9 packet, dst ++ decrypted_of w packet)
  else Err ErrReplay.

Lemma Unwrap_result (w : Wrapper) (dst packet : bytes) :
  Unwrap w dst packet =
    (unwrap_verdict w dst packet,
     if is_ok (unwrap_verdict w dst packet)
     then with_replay w (snd (accept (w_replay w) (seq_of packet))) else w).
Proof.
  unfold Unwrap, unwrap_verdict. rewrite authenticate_verdict.
  destruct (Z.ltb_spec (zlen packet) 49) as [Hs|Hs]; [done|].
  destruct (tag_verifies w packet); [|done]. cbn [negb].
  destruct (accept (w_replay w) (seq_of packet)) as [[] rw] eqn:E; cbn [fst snd negb is_ok].
  - rewrite slice_ok by (unfold OffPID; lia). done.
  - apply accept_false_same in E as ->. by rewrite with_replay_same.
Qed.

(** A verdict is never a panic. *)
Lemma unwrap_verdict_ok (w : Wrapper) (dst packet : bytes) : unwrap_verdict w dst packet <> Panic.
Proof.
  unfold unwrap_verdict. destruct (_ <? _); [done|]. destruct (negb _); [done|]. by destruct (fst _).
Qed.

Context `{!TLSCryptLaws}.

(** A packet wrapped under the key the receiver decrypts with authenticates. *)
Lemma wrapped_packet (s r : Wrapper) (header plaintext : bytes) (seq ts : Z) :
  w_encrypt s = w_decrypt r -> zlen header = OffPID -> is_u32 seq ->
  let packet := wrapWithPID s [] header (be32 seq ++ be32 ts) plaintext in
  49 <= zlen packet /\ tag_verifies r packet = true /\ decrypted_of r packet = plaintext /\
  seq_of packet = seq /\ take 9 packet = header.
Proof.
  intros Hk Hh Hs packet.
  assert (Hp : packet =
    wrapWithPID (mkWrapper (w_decrypt r) (w_encrypt r) 0 0 0 (w_replay r)) []
      header (be32 seq ++ be32 ts) plaintext)
    by (unfold packet, wrapWithPID; by rewrite Hk).
  clearbody packet. unfold wrapWithPID in Hp. cbn [w_encrypt] in Hp.
  set (tag := hmac_sha256 _ _) in Hp. set (ct := aes_ctr _ _ _) in Hp.
  assert (Htag : length tag = 32%nat).
  { pose proof (hmac_length (ks_hmac (w_decrypt r))
      ((header ++ be32 seq ++ be32 ts) ++ plaintext)) as Hlen.
    unfold zlen, TagSize in Hlen. unfold tag. lia. }
  assert (Hhd : length header = 9%nat) by (unfold zlen, OffPID in Hh; lia).
  assert (Haad : length (header ++ be32 seq ++ be32 ts) = 17%nat)
    by (rewrite length_app, Hhd; done).
  assert (H17 : take 17 packet = header ++ be32 seq ++ be32 ts)
    by (rewrite Hp, app_nil_l; by apply take_app_length').
  assert (Hd17 : drop 17 packet = tag ++ ct)
    by (rewrite Hp, app_nil_l; by apply drop_app_length').
  assert (Ht : take 32 (drop 17 packet) = tag) by (rewrite Hd17; by apply take_app_length').
  assert (Hiv : take 16 (drop 17 packet) = take 16 tag).
  { rewrite <- Ht, take_take. done. }
  assert (Hct : drop 49 packet = ct).
  { change 49%nat with (17 + 32)%nat. rewrite <- drop_drop, Hd17. by apply drop_app_length'. }
  assert (Hdec : decrypted_of r packet = plaintext).
  { unfold decrypted_of. rewrite Hct, Hiv. apply ctr_involutive. }
  split_and!.
  - rewrite Hp. unfold zlen. rewrite !length_app in *. cbn [length] in *. lia.
  - unfold tag_verifies. rewrite Hdec, Ht, H17. by apply bool_decide_true.
  - done.
  - unfold seq_of.
    assert (take 4 (drop 9 packet) = be32 seq ++ []) as ->.
    { rewrite Hp, app_nil_l, <- !(assoc_L (++)), drop_app_length' by done. done. }
    by rewrite get_be32.
  - rewrite Hp, app_nil_l, <- !(assoc_L (++)). by apply take_app_length'.
Qed.

End packets.

(** ** Runs of one direction of the channel *)

(** One call of [Wrap]: the clock readings, the header and the payload. *)
Record message := mkMessage {
  m_now1 : Z; m_now2 : Z; m_header : bytes; m_plaintext : bytes;
}.

Section runs.
Context `{!TLSCryptPrims}.

Fixpoint wrap_all (w : Wrapper) (ms : list message) : list (outcome tc_error bytes) :=
  match ms with
  | [] => []
  | m :: ms =>
      let '(r, w') := Wrap w (m_now1 m) (m_now2 m) [] (m_header m) (m_plaintext m) in
      r :: wrap_all w' ms
  end.

Fixpoint unwrap_all (w : Wrapper) (packets : list bytes)
    : list (outcome tc_error (bytes * bytes)) :=
  match packets with
  | [] => []
  | p :: packets => let '(r, w') := Unwrap w [] p in r :: unwrap_all w' packets
  end.

(** What the receiver must answer to the [i]-th message of the run, given the
    verdict of the replay window on it. *)
Definition delivery (ms : list message) (i : nat) (fresh : bool)
    : outcome tc_error (bytes * bytes) :=
  match ms !! i with
  | Some m => if fresh then Ok (m_header m, m_plaintext m) else Err ErrReplay
  | None => Panic
  end.

(** Below the roll-over every call takes the next sequence number. *)
Lemma wrap_all_packets (w : Wrapper) (ms : list message) :
  Forall (fun m => zlen (m_header m) = OffPID) ms ->
  0 <= w_sendSeq w -> w_sendSeq w + zlen ms < 4294967296 ->
  exists packets, wrap_all w ms = map Ok packets /\
    forall i m, ms !! i = Some m -> exists ts w0, w_encrypt w0 = w_encrypt w /\
      packets !! i = Some (wrapWithPID w0 [] (m_header m)
        (be32 (w_sendSeq w + 1 + Z.of_nat i) ++ be32 ts) (m_plaintext m)).
Proof.
  intros Hh. revert w. induction Hh as [|m ms Hm _ IH]; intros w H0 Hn.
  { exists []. split; [done|]. intros i m. by rewrite lookup_nil. }
  rewrite zlen_cons in Hn. pose proof (zlen_nonneg ms).
  cbn [wrap_all]. unfold Wrap. rewrite Hm, Z.eqb_refl. cbn [negb].
  unfold nextPID. set (w1 := if w_sendTime w =? 0 then _ else _).
  assert (w_encrypt w1 = w_encrypt w /\ w_sendSeq w1 = w_sendSeq w) as [He Hs]
    by (unfold w1; by destruct (w_sendTime w =? 0)).
  rewrite Hs. rewrite (proj2 (Z.eqb_neq (w_sendSeq w) 4294967295)) by lia.
  rewrite (u32_id (w_sendSeq w + 1)) by (unfold is_u32; lia).
  set (w2 := mkWrapper _ _ _ _ _ _). outcome_simpl.
  destruct (IH w2) as (ps & Hps & Hall); [cbn; lia|cbn; lia|].
  eexists (_ :: ps). split; [cbn [map]; by rewrite Hps|].
  intros [|i] m' Hi.
  - cbn in Hi. injection Hi as <-. exists (u32 (w_sendTime w1)), w2.
    split; [done|]. cbn [lookup list_lookup]. by rewrite Z.add_0_r.
  - destruct (Hall i m' Hi) as (ts & w0 & Hw0 & Hp). exists ts, w0.
    split; [by rewrite Hw0|].
    replace (w_sendSeq w + 1 + Z.of_nat (S i)) with (w_sendSeq w2 + 1 + Z.of_nat i)
      by (unfold w2; cbn; lia).
    exact Hp.
Qed.

(** The receiver's answers to packets drawn from the run, in any order. *)
Lemma unwrap_all_delivery `{!TLSCryptLaws} (ms : list message) (packets : list bytes)
    (enc : keySlot) (idx : list nat) (r : Wrapper) (h : list Z) :
  zlen ms < 4294967295 ->
  Forall (fun m => zlen (m_header m) = OffPID) ms ->
  (forall i m, ms !! i = Some m -> exists ts w0, w_encrypt w0 = enc /\
     packets !! i = Some (wrapWithPID w0 [] (m_header m)
       (be32 (1 + Z.of_nat i) ++ be32 ts) (m_plaintext m))) ->
  w_decrypt r = enc -> window_models (w_replay r) h ->
  Forall (fun i => (i < length ms)%nat) idx ->
  unwrap_all r (map (fun i => nth i packets []) idx) =
  zip_with (delivery ms) idx (reference_all h (map (fun i => 1 + Z.of_nat i) idx)).
Proof.
  intros Hlen Hh Hps Hk. revert r h Hk. induction idx as [|i idx IH]; intros r h Hk Hw Hi; [done|].
  apply Forall_cons in Hi as [Hi Hidx]. cbn [map unwrap_all reference_all zip_with].
  destruct (lookup_lt_is_Some_2 ms i Hi) as [m Hm].
  destruct (Hps i m Hm) as (ts & w0 & Hw0 & Hp).
  rewrite (nth_lookup_Some _ _ _ _ Hp).
  assert (Hseq : is_u32 (1 + Z.of_nat i)) by (unfold is_u32, zlen in *; lia).
  assert (Hhm : zlen (m_header m) = OffPID) by (eapply Forall_lookup_1 in Hh; [done|apply Hm]).
  assert (Henc : w_encrypt w0 = w_decrypt r) by (by rewrite Hw0, Hk).
  destruct (wrapped_packet w0 r (m_header m) (m_plaintext m) (1 + Z.of_nat i) ts Henc Hhm Hseq)
    as (Hl & Htag & Hdec & Hsq & H9).
  rewrite Unwrap_result. unfold unwrap_verdict.
  rewrite (proj2 (Z.ltb_ge _ 49)) by done. rewrite Htag, Hsq, Hdec, H9. cbn [negb app].
  destruct (accept (w_replay r) (1 + Z.of_nat i)) as [ok rw] eqn:E.
  destruct (accept_refines _ _ _ _ _ Hseq Hw E) as (Hok & Hw' & Hsame).
  cbn [fst snd]. rewrite <- Hok. unfold delivery at 1. rewrite Hm.
  destruct ok; cbn [is_ok]; f_equal; (apply IH; [done|done|done]).
Qed.
End runs.

(** ** Facts on the key file *)

Definition hexDigit (v : Z) : Z := if v <? 10 then 48 + v else 87 + v.
Definition hexEncode (raw : bytes) : bytes :=
  concat (map (fun b => [hexDigit (b / 16); hexDigit (b mod 16)]) raw).

Lemma hexValue_digit (v : Z) : 0 <= v < 16 -> hexValue (hexDigit v) = Some v.
Proof.
  intros Hv. unfold hexValue, hexDigit.
  destruct (Z.ltb_spec v 10); bool_cases; cbn; try lia; f_equal; lia.
Qed.

Lemma hexDecode_encode (raw : bytes) : bytes_ok raw -> hexDecode (hexEncode raw) = Some raw.
Proof.
  induction 1 as [|b raw Hb _ IH]; [done|]. unfold is_u8 in Hb.
  change (hexEncode (b :: raw)) with (hexDigit (b / 16) :: hexDigit (b mod 16) :: hexEncode raw).
  cbn [hexDecode]. rewrite !hexValue_digit, IH by word_lia. do 2 f_equal. word_lia.
Qed.

Lemma collectHex_filter (body : bytes) :
  Forall (fun c => isHexDigit c || isKeySpace c = true) body ->
  collectHex body = Ok (List.filter isHexDigit body).
Proof.
  induction 1 as [|c body Hc _ IH]; [done|]. cbn. rewrite IH.
  destruct (isHexDigit c); [done|]. cbn in Hc. by rewrite Hc.
Qed.

Lemma key_body_no_dash (body : bytes) :
  Forall (fun c => isHexDigit c || isKeySpace c = true) body -> 45 ∉ body.
Proof. intros Hb Hin. rewrite Forall_forall in Hb. by specialize (Hb _ Hin). Qed.

(** ** Properties *)

Section properties.
Context `{!TLSCryptPrims} `{!TLSCryptLaws}.

(** C15. Delivery over a hostile network: a party with one key direction wraps
    fewer than 2^32-1 messages and its peer, built from the same 256-byte key
    with the other direction, is handed any selection of the resulting packets
    in any order, with losses, duplicates and delays.  Every wrap succeeds, and
    each packet handed over yields exactly the original header and payload when
    the reference replay decision over the accepted history admits its
    sequence number, and [ErrReplay] otherwise. *)
Theorem tlscrypt_delivery (key256 : bytes) (server : bool) (sender receiver : Wrapper)
    (ms : list message) :
  NewWrapper key256 server = Ok sender -> NewWrapper key256 (negb server) = Ok receiver ->
  Forall (fun m => zlen (m_header m) = OffPID) ms -> zlen ms < 4294967295 ->
  exists packets, wrap_all sender ms = map Ok packets /\
    forall idx : list nat, Forall (fun i => (i < length ms)%nat) idx ->
      unwrap_all receiver (map (fun i => nth i packets []) idx) =
      zip_with (delivery ms) idx (reference_all [] (map (fun i => 1 + Z.of_nat i) idx)).
Proof.
  intros Hs Hr Hh Hlen. unfold NewWrapper in *.
  destruct (zlen key256 =? 256); [|done]. cbn [negb] in *.
  assert (w_encrypt sender = w_decrypt receiver /\ w_sendSeq sender = 0 /\
          w_replay receiver = zeroReplayWindow) as (Hk & Hseq0 & Hz)
    by (destruct server; cbn [negb] in Hr; injection Hs as <-; injection Hr as <-; done).
  destruct (wrap_all_packets sender ms) as (packets & Hps & Hall); [done|lia|lia|].
  exists packets. split; [done|]. intros idx Hidx. rewrite Hseq0 in Hall.
  eapply unwrap_all_delivery; [done|done|exact Hall|done| |done].
  rewrite Hz. apply zero_models.
Qed.

(** C14. Fail closed: whatever the packet, [Unwrap] never panics; it answers
    with a payload only when the packet is long enough, its tag is the MAC
    under the receiver's key of the prefix and the decrypted bytes, and the
    replay window admits its sequence number; the answer is then that
    decryption.  In every other case it reports which of the three checks
    failed first and leaves the wrapper, its replay window included, as it
    was. *)
Theorem Unwrap_fail_closed (w : Wrapper) (dst packet : bytes) :
  Unwrap w dst packet =
    if zlen packet <? OffCT then (Err ErrShort, w)
    else if negb (tag_verifies w packet) then (Err ErrAuth, w)
    else let '(fresh, rw) := accept (w_replay w) (seq_of packet) in
      if fresh then (Ok (take 9 packet, dst ++ decrypted_of w packet), with_replay w rw)
      else (Err ErrReplay, w).
Proof.
  rewrite Unwrap_result. unfold unwrap_verdict. change OffCT with 49.
  destruct (zlen packet <? 49); [done|]. destruct (tag_verifies w packet); [|done].
  cbn [negb]. by destruct (accept (w_replay w) (seq_of packet)) as [[] rw].
Qed.

End properties.

(** The key-file reader is layout independent: whatever text without a
    dash precedes the header line, whatever follows the footer, and however
    the 512 hexadecimal digits are broken up by white space, the parser returns
    exactly the 256 key bytes. *)
Theorem ParseStaticKeyV1_layout (pre body post raw : bytes) :
  bytes_ok raw -> zlen raw = staticKeyBodyLen -> 45 ∉ pre ->
  Forall (fun c => isHexDigit c || isKeySpace c = true) body ->
  List.filter isHexDigit body = hexEncode raw ->
  ParseStaticKeyV1 (pre ++ staticKeyHead ++ body ++ staticKeyFoot ++ post) = Ok raw.
Proof.
  intros Hraw Hlen Hpre Hbody Hhex. unfold ParseStaticKeyV1.
  assert (Hhead : index_of staticKeyHead
    (pre ++ staticKeyHead ++ body ++ staticKeyFoot ++ post) = Some (length pre)).
  { unfold staticKeyHead. by apply (index_of_app 45). }
  rewrite Hhead, (assoc_L (++)), slice_from_app by (by rewrite zlen_app).
  outcome_simpl.
  assert (Hfoot : index_of staticKeyFoot (body ++ staticKeyFoot ++ post) = Some (length body)).
  { unfold staticKeyFoot. apply (index_of_app 45). by apply key_body_no_dash. }
  rewrite Hfoot, slice_app_l by done. outcome_simpl.
  rewrite collectHex_filter, Hhex by done. outcome_simpl.
  rewrite hexDecode_encode, Hlen by done. done.
Qed.

(** ** Witnesses, over a concrete pair of primitives *)

Module Toy.
#[export] Instance prims : TLSCryptPrims := {|
  hmac_sha256 k m := take 32 (map (fun b => u8 (b + 7)) (take 16 k) ++ m ++ replicate 32 0);
  aes_ctr k iv d := map (Z.lxor (hd 0 iv)) d;
|}.

#[export] Instance laws : TLSCryptLaws.
Proof.
  constructor.
  - intros k m. unfold zlen, hmac_sha256, prims, TagSize.
    rewrite length_take, !length_app, length_replicate. lia.
  - intros k iv d. unfold aes_ctr, prims. rewrite map_map. rewrite <- (map_id d) at 2.
    apply map_ext. intros a. by rewrite <- Z.lxor_assoc, Z.lxor_nilpotent, Z.lxor_0_l.
Qed.

Definition key : bytes := map (fun i => u8 (Z.of_nat i)) (seq 0 256).
Definition header : bytes := [56; 1; 2; 3; 4; 5; 6; 7; 8].
Definition messages : list message :=
  [mkMessage 100 100 header [1; 2; 3]; mkMessage 101 101 header []; mkMessage 102 102 header [9]].
End Toy.
#[local] Existing Instances Toy.prims Toy.laws.

Lemma tlscrypt_delivery_witness :
  exists c s packets, NewWrapper Toy.key false = Ok c /\ NewWrapper Toy.key true = Ok s /\
    wrap_all c Toy.messages = map Ok packets /\
    unwrap_all s (map (fun i => nth i packets []) [1; 0; 1]%nat) =
      [Ok (Toy.header, []); Ok (Toy.header, [1; 2; 3]); Err ErrReplay].
Proof.
  destruct (NewWrapper Toy.key false) as [c| |] eqn:Ec; [|by vm_compute in Ec..].
  destruct (NewWrapper Toy.key true) as [s| |] eqn:Es; [|by vm_compute in Es..].
  destruct (tlscrypt_delivery Toy.key false c s Toy.messages Ec Es) as (ps & Hps & Hall);
    [decide_now|done|].
  exists c, s, ps. split_and!; [done|done|done|].
  rewrite (Hall [1; 0; 1]%nat) by decide_now. vm_compute. reflexivity.
Defined.

Definition toy_body : bytes :=
  [10] ++ take 100 (hexEncode Toy.key) ++ [13; 10; 32] ++ drop 100 (hexEncode Toy.key) ++ [10].

Lemma ParseStaticKeyV1_layout_witness :
  ParseStaticKeyV1 (of_string "# key" ++ staticKeyHead ++ toy_body ++ staticKeyFoot ++ [10]) =
  Ok Toy.key.
Proof.
  apply (ParseStaticKeyV1_layout (of_string "# key") toy_body [10] Toy.key);
    [decide_now|reflexivity|decide_now|decide_now|vm_compute; reflexivity].
Defined.

(** The first roll-over is not gated by the clock: with no roll-over yet, a
    wrapper at the last sequence number repeats its first packet id in the
    same second. *)
Example first_rollover_ungated :
  fst (nextPID (mkWrapper (mkKeySlot [] []) (mkKeySlot [] []) 4294967295 100 0 zeroReplayWindow) 100 100)
  = Ok (1, 100) /\
  fst (nextPID (mkWrapper (mkKeySlot [] []) (mkKeySlot [] []) 0 0 0 zeroReplayWindow) 100 100)
  = Ok (1, 100).
Proof. done. Qed.
