(* ===== verification/KeyDeriv.v ===== *)
(** * KeyDeriv: Key Method 2 and the data-channel key derivation

    Model of [internal/keyderiv]: the TLS 1.0 PRF over HMAC-MD5 and HMAC-SHA1
    ([prf.go]), the two-stage key expansion and the per-direction slots
    ([keyexpansion.go]), and the Key Method 2 messages ([keymethod2.go]).  The
    two keyed hashes are the operations of class [PRFHashes]; of them the code
    relies on the digest sizes only (class [PRFHashLaws]). *)

From S2P Require Import Prelude TlsCrypt.

(** ** The PRF *)

Class PRFHashes := {
  hmac_md5 : bytes -> bytes -> bytes;
  hmac_sha1 : bytes -> bytes -> bytes;
}.

Class PRFHashLaws `{!PRFHashes} : Prop := {
  hmac_md5_length : forall k m, length (hmac_md5 k m) = 16%nat;
  hmac_sha1_length : forall k m, length (hmac_sha1 k m) = 20%nat;
}.

(** The loop of [pHash]: [a] is A(i), [need] the bytes of [out] still to fill.
    [None] when the fuel runs out. *)
Fixpoint pHashLoop (fuel : nat) (mac : bytes -> bytes) (seed a : bytes) (need : nat)
    : option bytes :=
  match need with
  | O => Some []
  | _ =>
      match fuel with
      | O => None
      | S fuel =>
          let block := mac (a ++ seed) in
          let copied := take need block in
          rest ← pHashLoop fuel mac seed (mac a) (need - length copied);
          Some (copied ++ rest)
      end
  end.

(** [pHash h secret seed out] fills [out], of length [n].  Every round fills at
    least one byte, so [n] rounds are enough. *)
Definition pHash (hmac : bytes -> bytes -> bytes) (secret seed : bytes) (n : nat) : option bytes :=
  pHashLoop n (hmac secret) seed (hmac secret seed) n.

Section prf.
Context `{!PRFHashes}.

Definition PRF (secret seed : bytes) (n : nat) : option bytes :=
  let slen := length secret in
  let half := (if slen mod 2 =? 0 then slen / 2 else slen / 2 + 1)%nat in
  let s1 := take half secret in
  let s2 := drop (slen - half) secret in
  out1 ← pHash hmac_md5 s1 seed n;
  out2 ← pHash hmac_sha1 s2 seed n;
  Some (zip_with Z.lxor out1 out2).

Definition openvpnPRF (secret label clientSeed serverSeed : bytes)
    (clientSID serverSID : option bytes) (n : nat) : option bytes :=
  let seed := label ++ clientSeed ++ serverSeed ++ default [] clientSID ++ default [] serverSID in
  PRF secret seed n.

End prf.

(** ** Key expansion *)

Record KeySource := mkKeySource { PreMaster : bytes; Random1 : bytes; Random2 : bytes }.
Record KeySource2 := mkKeySource2 { Client : KeySource; Server : KeySource }.

Record Key2 := mkKey2 { k2_raw : bytes }.

Inductive kd_error :=
  | ErrExpansionLen | ErrKeyMethod | ErrStringTooLong | EOF | ErrUnexpectedEOF | ErrRand.

#[export] Instance kd_error_eq_dec : EqDecision kd_error.
Proof. solve_decision. Defined.

Definition NewKey2 (b : bytes) : outcome kd_error Key2 :=
  if negb (zlen b =? 256) then Err ErrExpansionLen else Ok (mkKey2 b).

Definition keyDirection (server : bool) : Z * Z := if server then (1, 0) else (0, 1).

Record DataKeys := mkDataKeys {
  EncryptCipher : bytes;
  EncryptImplicitIV : bytes;
  DecryptCipher : bytes;
  DecryptImplicitIV : bytes;
  CipherKeyLen : Z;
}.

Definition slot (k : Key2) (idx : Z) : outcome kd_error (bytes * bytes) :=
  let base := idx * 128 in
  cipher ← slice (k2_raw k) base (base + 64);
  hmacField ← slice (k2_raw k) (base + 64) (base + 128);
  Ok (cipher, hmacField).

Definition ServerSlots (k : Key2) (cipherKeyLen : Z) : outcome kd_error DataKeys :=
  let '(encIdx, decIdx) := keyDirection true in
  '(encCipher, encHMAC) ← slot k encIdx;
  '(decCipher, decHMAC) ← slot k decIdx;
  ec ← slice encCipher 0 32;
  eiv ← slice encHMAC 0 8;
  dc ← slice decCipher 0 32;
  div ← slice decHMAC 0 8;
  Ok (mkDataKeys ec eiv dc div cipherKeyLen).

Definition masterSecretLabel : bytes := of_string "OpenVPN master secret".
Definition keyExpansionLabel : bytes := of_string "OpenVPN key expansion".

Definition DeriveKeys `{!PRFHashes} (src : KeySource2) (clientSID serverSID : bytes)
    : option (outcome kd_error Key2) :=
  master ← openvpnPRF (PreMaster (Client src)) masterSecretLabel
             (Random1 (Client src)) (Random1 (Server src)) None None 48;
  expansion ← openvpnPRF master keyExpansionLabel
             (Random2 (Client src)) (Random2 (Server src)) (Some clientSID) (Some serverSID) 256;
  Some (NewKey2 expansion).

(** ** Key Method 2 messages *)

Definition keyMethod2 : Z := 2.
Definition keyMethodMask : Z := 15.
Definition maxOptionsStringLen : Z := 512.

Record ClientOptions := mkClientOptions {
  Options : bytes; Username : bytes; Password : bytes; PeerInfo : bytes;
}.

(** [io.ReadFull] of a buffer of [n > 0] bytes from a reader whose remaining
    bytes are [r]: the bytes and what is left. *)
Definition readFull (n : Z) (r : bytes) : outcome kd_error (bytes * bytes) :=
  if n <=? zlen r then Ok (take (Z.to_nat n) r, drop (Z.to_nat n) r)
  else Err (if zlen r =? 0 then EOF else ErrUnexpectedEOF).

Definition readLengthPrefixedString (r : bytes) : outcome kd_error (bytes * bytes) :=
  '(lenBuf, r) ← readFull 2 r;
  n ← get_u16 lenBuf;
  if n =? 0 then Ok ([], r)
  else if maxOptionsStringLen <? n then Err ErrStringTooLong
  else readFull n r.

Definition ReadClientKeyMethod2 (r : bytes)
    : outcome kd_error (KeySource * ClientOptions * bytes) :=
  '(_, r) ← readFull 4 r;
  '(methodByte, r) ← readFull 1 r;
  m0 ← index methodByte 0;
  if negb (Z.land m0 keyMethodMask =? keyMethod2) then Err ErrKeyMethod else
  '(preMaster, r) ← readFull 48 r;
  '(random1, r) ← readFull 32 r;
  '(random2, r) ← readFull 32 r;
  '(options, r) ← readLengthPrefixedString r;
  '(username, r) ← readLengthPrefixedString r;
  '(password, r) ← readLengthPrefixedString r;
  '(peerInfo, r) ← readLengthPrefixedString r;
  Ok (mkKeySource preMaster random1 random2,
      mkClientOptions options username password peerInfo, r).

(** The bytes written and the fresh key source; [rand1] and [rand2] are what
    the two [rand.Read] calls return. *)
Definition WriteServerKeyMethod2 (rand1 rand2 : option bytes) (opts : bytes)
    : outcome kd_error (KeySource * bytes) :=
  match rand1, rand2 with
  | Some random1, Some random2 =>
      let optsBytes := opts ++ [0] in
      let buf := [0; 0; 0; 0] ++ [keyMethod2] ++ random1 ++ random2 ++
                 be16 (u16 (zlen optsBytes)) ++ optsBytes ++ [0; 0; 0; 0; 0; 0] in
      Ok (mkKeySource (replicate 48 0) random1 random2, buf)
  | _, _ => Err ErrRand
  end.

(** ** The PRF against RFC 2246, section 5 *)

(** A(0) = seed, A(i) = HMAC(secret, A(i-1)). *)
Definition A_i (mac : bytes -> bytes) (seed : bytes) (i : nat) : bytes := Nat.iter i mac seed.

(** P_hash: HMAC(secret, A(1) + seed) + HMAC(secret, A(2) + seed) + ..., cut to
    [n] bytes; [n] blocks of at least one byte are enough. *)
Definition P_hash (mac : bytes -> bytes) (seed : bytes) (n : nat) : bytes :=
  take n (concat (map (fun i => mac (A_i mac seed i ++ seed)) (seq 1 n))).

(** PRF = P_MD5(S1, seed) XOR P_SHA1(S2, seed), with S1 and S2 the first and the
    last ceil(L/2) bytes of the secret. *)
Definition PRF_rfc2246 `{!PRFHashes} (secret seed : bytes) (n : nat) : bytes :=
  let L_S := ((length secret + 1) / 2)%nat in
  zip_with Z.lxor
    (P_hash (hmac_md5 (take L_S secret)) seed n)
    (P_hash (hmac_sha1 (drop (length secret - L_S) secret)) seed n).

Lemma pHashLoop_spec (mac : bytes -> bytes) (seed : bytes) (d : nat) :
  (forall m, length (mac m) = S d) ->
  forall fuel i k need, (need <= fuel)%nat -> (need <= k)%nat ->
    pHashLoop fuel mac seed (A_i mac seed i) need =
    Some (take need (concat (map (fun i => mac (A_i mac seed i ++ seed)) (seq i k)))).
Proof.
  intros Hd. induction fuel as [|fuel IH]; intros i k need Hf Hk.
  { assert (need = 0%nat) as -> by lia. done. }
  destruct need as [|need]; [done|]. destruct k as [|k]; [lia|].
  cbn [pHashLoop seq map concat].
  set (block := mac (A_i mac seed i ++ seed)).
  assert (Hb : length block = S d) by apply Hd.
  change (mac (A_i mac seed i)) with (A_i mac seed (S i)).
  rewrite (IH (S i) k) by (rewrite length_take; lia). cbn [mbind option_bind].
  rewrite take_app. do 2 f_equal. rewrite length_take. f_equal. lia.
Qed.

Lemma pHash_spec (hmac : bytes -> bytes -> bytes) (d : nat) (secret seed : bytes) (n : nat) :
  (forall k m, length (hmac k m) = S d) ->
  pHash hmac secret seed n = Some (P_hash (hmac secret) seed n).
Proof. intros Hd. by apply (pHashLoop_spec (hmac secret) seed d (Hd secret) n 1 n n). Qed.

Lemma concat_blocks_length (f : nat -> bytes) (d : nat) (l : list nat) :
  (forall i, length (f i) = S d) -> (length l <= length (concat (map f l)))%nat.
Proof. intros Hf. induction l as [|i l IH]; cbn; [lia|]. rewrite length_app, Hf. lia. Qed.

Lemma P_hash_length (mac : bytes -> bytes) (seed : bytes) (n d : nat) :
  (forall m, length (mac m) = S d) -> length (P_hash mac seed n) = n.
Proof.
  intros Hd. unfold P_hash. rewrite length_take.
  pose proof (concat_blocks_length (fun i => mac (A_i mac seed i ++ seed)) d (seq 1 n)) as H.
  rewrite length_seq in H. specialize (H ltac:(intros; apply Hd)). lia.
Qed.

Lemma half_up (n : nat) : (if n mod 2 =? 0 then n / 2 else n / 2 + 1)%nat = ((n + 1) / 2)%nat.
Proof.
  pose proof (Nat.div_mod_eq n 2) as E. pose proof (Nat.mod_upper_bound n 2 ltac:(lia)).
  destruct (Nat.eqb_spec (n mod 2) 0) as [H0|H0].
  - replace (n + 1)%nat with (1 + (n / 2) * 2)%nat by lia. by rewrite Nat.div_add.
  - replace (n + 1)%nat with (0 + (n / 2 + 1) * 2)%nat by lia. by rewrite Nat.div_add.
Qed.

Lemma NewKey2_ok (b : bytes) : length b = 256%nat -> NewKey2 b = Ok (mkKey2 b).
Proof. intros H. unfold NewKey2, zlen. by rewrite H. Qed.

Lemma bind_some {A B : Type} (x : A) (f : A -> option B) : (Some x ≫= f) = f x.
Proof. reflexivity. Qed.

Section prf_facts.
Context `{!PRFHashes} `{!PRFHashLaws}.

Lemma PRF_reference (secret seed : bytes) (n : nat) :
  PRF secret seed n = Some (PRF_rfc2246 secret seed n).
Proof.
  unfold PRF. rewrite half_up.
  rewrite (pHash_spec hmac_md5 15) by (intros; by rewrite hmac_md5_length).
  rewrite (pHash_spec hmac_sha1 19) by (intros; by rewrite hmac_sha1_length). reflexivity.
Qed.

Lemma PRF_rfc2246_length (secret seed : bytes) (n : nat) :
  length (PRF_rfc2246 secret seed n) = n.
Proof.
  unfold PRF_rfc2246. rewrite length_zip_with.
  rewrite (P_hash_length (hmac_md5 _) _ _ 15) by (intros; by rewrite hmac_md5_length).
  rewrite (P_hash_length (hmac_sha1 _) _ _ 19) by (intros; by rewrite hmac_sha1_length). lia.
Qed.

#[local] Opaque PRF_rfc2246.

Lemma openvpnPRF_nosid (secret label cs ss : bytes) (n : nat) :
  openvpnPRF secret label cs ss None None n = Some (PRF_rfc2246 secret (label ++ cs ++ ss) n).
Proof.
  unfold openvpnPRF. rewrite PRF_reference. unfold default. rewrite app_nil_l, app_nil_r. reflexivity.
Qed.

Lemma openvpnPRF_sid (secret label cs ss csid ssid : bytes) (n : nat) :
  openvpnPRF secret label cs ss (Some csid) (Some ssid) n =
  Some (PRF_rfc2246 secret (label ++ cs ++ ss ++ csid ++ ssid) n).
Proof. unfold openvpnPRF. rewrite PRF_reference. reflexivity. Qed.

(** Key derivation is total and is the documented two-stage computation:
    the loops of the PRF terminate, the expansion always has the 256 bytes the
    key structure needs, and the result is the RFC 2246 PRF applied twice, the
    client's pre-master secret and both first randoms giving the 48-byte master
    secret, which with both second randoms and the session ids of client and
    server, in this order, gives the key block. *)
Theorem DeriveKeys_spec (src : KeySource2) (clientSID serverSID : bytes) :
  DeriveKeys src clientSID serverSID = Some (Ok (mkKey2 (
    PRF_rfc2246
      (PRF_rfc2246 (PreMaster (Client src))
         (of_string "OpenVPN master secret" ++ Random1 (Client src) ++ Random1 (Server src)) 48)
      (of_string "OpenVPN key expansion" ++ Random2 (Client src) ++ Random2 (Server src) ++
         clientSID ++ serverSID) 256))).
Proof.
  unfold DeriveKeys. rewrite openvpnPRF_nosid, bind_some, openvpnPRF_sid, bind_some.
  rewrite NewKey2_ok by apply PRF_rfc2246_length. reflexivity.
Qed.
End prf_facts.

Lemma slot_ok (k : Key2) (idx : Z) :
  zlen (k2_raw k) = 256 -> 0 <= idx <= 1 ->
  slot k idx = Ok (take 64 (drop (Z.to_nat (idx * 128)) (k2_raw k)),
                   take 64 (drop (Z.to_nat (idx * 128 + 64)) (k2_raw k))).
Proof.
  intros Hl Hi. unfold slot. rewrite !slice_ok by lia. outcome_simpl.
  do 2 f_equal; f_equal; lia.
Qed.

(** A short prefix of a 64-byte field. *)
Lemma slice_prefix (l : bytes) (o : nat) (n : Z) :
  Z.of_nat o + 64 <= zlen l -> 0 <= n <= 64 ->
  slice (E := kd_error) (take 64 (drop o l)) 0 n = Ok (take (Z.to_nat n) (drop o l)).
Proof.
  intros Hl Hn. rewrite slice_ok.
  - rewrite drop_0, take_take, Z.sub_0_r. do 2 f_equal. lia.
  - lia.
  - unfold zlen in *. rewrite length_take, length_drop. lia.
Qed.

(** The data channel's key direction is the mirror image of tls-crypt's for
    the same role: from one 256-byte block the server's data-channel encrypt
    key is what a tls-crypt server would decrypt with, and conversely; the
    implicit IVs are the first 8 bytes of the HMAC halves of the same slots. *)
Theorem ServerSlots_mirror (raw : bytes) (cipherKeyLen : Z) (tls : Wrapper) :
  NewWrapper raw true = Ok tls ->
  ServerSlots (mkKey2 raw) cipherKeyLen = Ok (mkDataKeys
    (ks_cipher (w_decrypt tls)) (take 8 (ks_hmac (w_decrypt tls)))
    (ks_cipher (w_encrypt tls)) (take 8 (ks_hmac (w_encrypt tls))) cipherKeyLen).
Proof.
  unfold NewWrapper. destruct (Z.eqb_spec (zlen raw) 256) as [Hl|]; [|done]. cbn [negb].
  intros H%(inj Ok). subst tls. unfold ServerSlots, keyDirection.
  rewrite !slot_ok by (cbn [k2_raw]; lia). outcome_simpl.
  rewrite !slice_prefix by (unfold zlen in *; cbn [k2_raw]; lia).
  unfold field. cbn [ks_hmac w_encrypt w_decrypt]. rewrite !take_take. reflexivity.
Qed.

(** ** Key Method 2: the client's message *)

(** The wire form of a length-prefixed string, and of a client message with
    [reserved] its first four bytes and [method] its method byte. *)
Definition lp_string (s : bytes) : bytes := be16 (zlen s) ++ s.

Definition client_message (reserved : bytes) (method : Z) (src : KeySource) (o : ClientOptions)
    : bytes :=
  reserved ++ [method] ++ PreMaster src ++ Random1 src ++ Random2 src ++
  lp_string (Options o) ++ lp_string (Username o) ++ lp_string (Password o) ++
  lp_string (PeerInfo o).

Definition short_string (s : bytes) : Prop := zlen s <= maxOptionsStringLen.

Record client_message_wf (reserved : bytes) (method : Z) (src : KeySource) (o : ClientOptions)
    : Prop := {
  cm_reserved : zlen reserved = 4;
  cm_method : Z.land method keyMethodMask = keyMethod2;
  cm_pre : zlen (PreMaster src) = 48;
  cm_r1 : zlen (Random1 src) = 32;
  cm_r2 : zlen (Random2 src) = 32;
  cm_options : short_string (Options o);
  cm_username : short_string (Username o);
  cm_password : short_string (Password o);
  cm_peerinfo : short_string (PeerInfo o);
}.

Lemma readFull_app (n : Z) (a r : bytes) : zlen a = n -> readFull n (a ++ r) = Ok (a, r).
Proof.
  intros <-. unfold readFull. pose proof (zlen_nonneg r).
  rewrite (proj2 (Z.leb_le _ _)) by (rewrite zlen_app; lia).
  unfold zlen. by rewrite Nat2Z.id, take_app_length, drop_app_length.
Qed.

Lemma readFull_inv (n : Z) (r a r' : bytes) :
  0 <= n -> readFull n r = Ok (a, r') -> r = a ++ r' /\ zlen a = n.
Proof.
  intros Hn. unfold readFull. destruct (Z.leb_spec n (zlen r)) as [Hl|]; [|done].
  intros [= <- <-]. split; [by rewrite take_drop|]. rewrite zlen_take; lia.
Qed.

Lemma readString_app (s r : bytes) :
  short_string s -> readLengthPrefixedString (lp_string s ++ r) = Ok (s, r).
Proof.
  unfold short_string, maxOptionsStringLen. intros Hs. pose proof (zlen_nonneg s).
  unfold readLengthPrefixedString, lp_string. rewrite <- (assoc_L (++)).
  rewrite readFull_app by done. outcome_simpl.
  rewrite <- (app_nil_r (be16 _)), get_be16 by (unfold is_u16; lia). outcome_simpl.
  destruct (Z.eqb_spec (zlen s) 0) as [H0|H0].
  { apply zlen_0_nil in H0 as ->. done. }
  unfold maxOptionsStringLen. rewrite (proj2 (Z.ltb_ge 512 _)) by lia. by apply readFull_app.
Qed.

Lemma readString_inv (r s r' : bytes) :
  bytes_ok r -> readLengthPrefixedString r = Ok (s, r') ->
  r = lp_string s ++ r' /\ short_string s /\ bytes_ok r'.
Proof.
  intros Hr. unfold readLengthPrefixedString.
  destruct (readFull 2 r) as [[lb r1]| |] eqn:E; [|done..]. outcome_simpl.
  apply readFull_inv in E as [-> Hlb]; [|lia].
  apply bytes_ok_app in Hr as [Hob Hr1].
  destruct (get_u16_total (E := kd_error) lb) as [n Hn]; [lia|]. rewrite Hn. outcome_simpl.
  destruct (get_u16_inv _ _ Hob Hlb Hn) as [Hnr <-].
  unfold short_string, lp_string, maxOptionsStringLen.
  destruct (Z.eqb_spec n 0) as [->|Hn0].
  { intros [= <- <-]. split_and!; [done|vm_compute; discriminate|done]. }
  destruct (Z.ltb_spec 512 n); [done|]. intros H2.
  apply readFull_inv in H2 as [-> Hs]; [|unfold is_u16 in Hnr; lia].
  apply bytes_ok_app in Hr1 as [_ ?].
  rewrite <- Hs, <- (assoc_L (++)). split_and!; [done|lia|done].
Qed.

(** One sequential read of a parser: turn the read into the split of its input. *)
Ltac read_step :=
  match goal with
  | |- (readFull ?n ?r ≫= _) = Ok _ -> _ =>
      let a := fresh "field" in let r' := fresh "r" in let E := fresh "E" in
      destruct (readFull n r) as [[a r']| |] eqn:E; [|done..]; outcome_simpl;
      apply readFull_inv in E as [-> E]; [|lia];
      let Ha := fresh "Hok" in
      match goal with Hb : bytes_ok (a ++ r') |- _ => apply bytes_ok_app in Hb as [Ha Hb] end
  | |- (readLengthPrefixedString ?r ≫= _) = Ok _ -> _ =>
      let a := fresh "str" in let r' := fresh "r" in let E := fresh "E" in
      destruct (readLengthPrefixedString r) as [[a r']| |] eqn:E; [|done..]; outcome_simpl;
      match goal with Hb : bytes_ok r |- _ =>
        destruct (readString_inv _ _ _ Hb E) as (-> & ? & ?) end; clear E
  end.

(** Reading never panics, whatever arrives. *)
Lemma readFull_no_panic (n : Z) (r : bytes) : readFull n r <> Panic.
Proof. unfold readFull. by destruct (_ <=? _). Qed.

Lemma readString_no_panic (r : bytes) : readLengthPrefixedString r <> Panic.
Proof.
  unfold readLengthPrefixedString. destruct (readFull 2 r) as [[b r']|e|] eqn:E; [|done|by apply readFull_no_panic in E].
  outcome_simpl. apply readFull_inv in E as [_ Hl]; [|lia].
  destruct (get_u16_total (E := kd_error) b) as [n ->]; [lia|]. outcome_simpl. destruct (n =? 0); [done|].
  destruct (_ <? _); [done|]. apply readFull_no_panic.
Qed.

Lemma ReadClientKeyMethod2_no_panic (r : bytes) : ReadClientKeyMethod2 r <> Panic.
Proof.
  unfold ReadClientKeyMethod2. destruct (readFull 4 r) as [[? r1]|e|] eqn:E; [|done|by apply readFull_no_panic in E]. outcome_simpl.
  destruct (readFull 1 r1) as [[m r2]|e|] eqn:E1; [|done|by apply readFull_no_panic in E1]. outcome_simpl.
  apply readFull_inv in E1 as [_ Hm]; [|lia]. destruct (index_ok (E := kd_error) m 0) as (m0 & _ & ->); [lia|]. outcome_simpl.
  destruct (negb _); [done|].
  repeat match goal with |- context [readFull ?n ?x] =>
    let E := fresh in destruct (readFull n x) as [[? ?]|?|] eqn:E; [|done|by apply readFull_no_panic in E]; outcome_simpl end.
  repeat match goal with |- context [readLengthPrefixedString ?x] =>
    let E := fresh in destruct (readLengthPrefixedString x) as [[? ?]|?|] eqn:E; [|done|by apply readString_no_panic in E]; outcome_simpl end.
  done.
Qed.

(** What a read leaves is the end of what there was. *)
Lemma readFull_rest (n : Z) (r a r' : bytes) : readFull n r = Ok (a, r') -> r' `suffix_of` r.
Proof. unfold readFull. destruct (n <=? zlen r); [|done]. intros [= _ <-]. exists (take (Z.to_nat n) r). by rewrite take_drop. Qed.

Lemma readString_rest (r a r' : bytes) : readLengthPrefixedString r = Ok (a, r') -> r' `suffix_of` r.
Proof.
  unfold readLengthPrefixedString. destruct (readFull 2 r) as [[b r1]| |] eqn:E; [|done..]. outcome_simpl.
  apply readFull_rest in E. destruct (get_u16 b) as [n| |]; [|done..]. outcome_simpl.
  destruct (n =? 0); [by intros [= _ <-]|]. destruct (_ <? _); [done|]. intros E1%readFull_rest. by etransitivity.
Qed.

Lemma ReadClientKeyMethod2_rest (r : bytes) (src : KeySource) (o : ClientOptions) (rest : bytes) :
  ReadClientKeyMethod2 r = Ok (src, o, rest) -> rest `suffix_of` r.
Proof.
  unfold ReadClientKeyMethod2.
  destruct (readFull 4 r) as [[? r1]| |] eqn:E1; [|done..]. outcome_simpl.
  destruct (readFull 1 r1) as [[m r2]| |] eqn:E2; [|done..]. outcome_simpl.
  destruct (index m 0); [|done..]. outcome_simpl. destruct (negb _); [done|].
  apply readFull_rest in E1, E2. assert (Hs : r2 `suffix_of` r) by by etransitivity. clear E1 E2. revert Hs. generalize r2. clear.
  intros x Hs.
  repeat match goal with |- context [readFull ?n ?y] =>
    let E := fresh in destruct (readFull n y) as [[? ?]| |] eqn:E; [|done..]; outcome_simpl; apply readFull_rest in E end.
  repeat match goal with |- context [readLengthPrefixedString ?y] =>
    let E := fresh in destruct (readLengthPrefixedString y) as [[? ?]| |] eqn:E; [|done..]; outcome_simpl; apply readString_rest in E end.
  intros [= _ _ <-]. by repeat (etransitivity; [eassumption|]).
Qed.

Lemma ReadClientKeyMethod2_exact (r : bytes) (src : KeySource) (o : ClientOptions) (rest : bytes) :
  bytes_ok r ->
  ReadClientKeyMethod2 r = Ok (src, o, rest) <->
  exists reserved method, client_message_wf reserved method src o /\
    r = client_message reserved method src o ++ rest.
Proof.
  intros Hr. split.
  - unfold ReadClientKeyMethod2. do 2 read_step. destruct field0 as [|m [|? ?]]; [done| |].
    2:{ exfalso. unfold zlen in E0. cbn in E0. lia. }
    change (index [m] 0) with (Ok (E := kd_error) m). outcome_simpl.
    destruct (Z.eqb_spec (Z.land m keyMethodMask) keyMethod2) as [Hm|]; [|done]. cbn [negb].
    do 7 read_step. intros Hres%(inj Ok). injection Hres as <- <- <-.
    exists field, m. split; [by constructor|].
    unfold client_message. rewrite <- !(assoc_L (++)). reflexivity.
  - intros (reserved & method & [] & ->). unfold ReadClientKeyMethod2, client_message.
    rewrite <- !(assoc_L (++)).
    rewrite !readFull_app by done. outcome_simpl. rewrite readFull_app by done. outcome_simpl.
    change (index [method] 0) with (Ok (E := kd_error) method). outcome_simpl.
    rewrite cm_method0. cbn [negb Z.eqb].
    repeat (rewrite readFull_app by done; outcome_simpl).
    repeat (rewrite readString_app by done; outcome_simpl). by destruct src, o.
Qed.

(** The Key Method 2 reader accepts exactly the well-formed client
    messages: it succeeds on a byte stream precisely when the stream starts
    with four reserved bytes, a method byte whose low nibble is 2, the three
    random fields and four length-prefixed strings of at most 512 bytes, and
    it then returns those very fields and leaves the reader right behind the
    message. *)
Theorem ReadClientKeyMethod2_iff (r : bytes) (src : KeySource) (o : ClientOptions) (rest : bytes) :
  bytes_ok r ->
  ReadClientKeyMethod2 r = Ok (src, o, rest) <->
  exists reserved method, client_message_wf reserved method src o /\
    r = client_message reserved method src o ++ rest.
Proof. apply ReadClientKeyMethod2_exact. Qed.

(** ** Witnesses *)

Lemma ServerSlots_mirror_witness :
  exists tls, NewWrapper Toy.key true = Ok tls /\
    ServerSlots (mkKey2 Toy.key) 16 = Ok (mkDataKeys
      (ks_cipher (w_decrypt tls)) (take 8 (ks_hmac (w_decrypt tls)))
      (ks_cipher (w_encrypt tls)) (take 8 (ks_hmac (w_encrypt tls))) 16).
Proof.
  destruct (NewWrapper Toy.key true) as [tls| |] eqn:E; [|by vm_compute in E..].
  exists tls. split; [done|]. apply (ServerSlots_mirror Toy.key 16 tls). exact E.
Defined.

Module ToyKM2.
Definition src : KeySource := mkKeySource (replicate 48 7) (replicate 32 8) (replicate 32 9).
Definition opts : ClientOptions := mkClientOptions [86; 52; 0] [] [] [73; 86; 0].
End ToyKM2.

Lemma ReadClientKeyMethod2_iff_witness :
  ReadClientKeyMethod2 (client_message [0; 0; 0; 0] 18 ToyKM2.src ToyKM2.opts ++ [1; 2]) =
  Ok (ToyKM2.src, ToyKM2.opts, [1; 2]).
Proof.
  apply (ReadClientKeyMethod2_iff _ ToyKM2.src ToyKM2.opts [1; 2]); [decide_now|].
  exists [0; 0; 0; 0], 18. split; [|reflexivity].
  constructor; vm_compute; first [reflexivity|discriminate].
Defined.

Module ToyPRF.
#[export] Instance hashes : PRFHashes := {|
  hmac_md5 k m := take 16 (map (fun b => u8 (b + hd 1 k)) m ++ replicate 16 5);
  hmac_sha1 k m := take 20 (map (fun b => u8 (3 * b + hd 2 k)) m ++ replicate 20 6);
|}.
#[export] Instance laws : PRFHashLaws.
Proof.
  constructor; intros k m; unfold hmac_md5, hmac_sha1, hashes;
    rewrite length_take, length_app, length_replicate; lia.
Qed.
End ToyPRF.
#[local] Existing Instances ToyPRF.hashes ToyPRF.laws.

Lemma DeriveKeys_spec_witness :
  exists k, DeriveKeys (mkKeySource2 ToyKM2.src ToyKM2.src) (replicate 8 1) (replicate 8 2) =
    Some (Ok k).
Proof.
  eexists. apply (DeriveKeys_spec (mkKeySource2 ToyKM2.src ToyKM2.src) (replicate 8 1) (replicate 8 2)).
Defined.
