(* ===== verification/DataChan.v ===== *)
(** * DataChan: the AEAD data channel

    Model of [internal/datachan/datachan.go] (P_DATA_V2 sealing and opening with
    AES-GCM, the send counter, the tag-before-ciphertext order) and
    [internal/datachan/ping.go] (the keepalive magic).  AES-GCM is class
    [AEAD]; what the code relies on of it is class [AEADLaws].  The replay
    window is used through the interface [AntiReplay] of [Replay]. *)

From S2P Require Import Prelude Wire Replay KeyDeriv.

Module DataChan.

(** ** Constants *)

Definition TagSize : Z := 16.
Definition NonceSize : Z := 12.
Definition offPeerID : Z := 1.
Definition offPacketID : Z := 4.
Definition offTag : Z := 8.
Definition offCiphertext : Z := offTag + TagSize.
Definition headerSize : Z := offTag.

Inductive dc_error :=
  | ErrShort | ErrAuth | ErrReplay | ErrPacketIDExhausted | ErrPingAbsorbed
  | ErrCipherKeyLen | KeySizeError.

#[export] Instance dc_error_eq_dec : EqDecision dc_error.
Proof. solve_decision. Defined.

(** ** AES-GCM *)

Class AEAD := {
  (** [cipher.NewGCM(aes.NewCipher(key))].[Seal(nil, nonce, plaintext, aad)]. *)
  gcm_seal : bytes -> bytes -> bytes -> bytes -> bytes;
  (** [Open(nil, nonce, sealed, aad)]: [None] on an authentication failure. *)
  gcm_open : bytes -> bytes -> bytes -> bytes -> option bytes;
}.

Class AEADLaws `{!AEAD} : Prop := {
  seal_length : forall k n p a, zlen (gcm_seal k n p a) = zlen p + TagSize;
  open_seal : forall k n p a, gcm_open k n (gcm_seal k n p a) a = Some p;
}.

(** [aes.NewCipher]: an error on any key size but 16, 24 and 32. *)
Definition aesNewCipher (key : bytes) : outcome dc_error bytes :=
  if (zlen key =? 16) || (zlen key =? 24) || (zlen key =? 32) then Ok key else Err KeySizeError.

(** ** Ping *)

Definition PingSize : Z := 16.
Definition pingMagic : bytes :=
  [42; 24; 123; 243; 100; 30; 180; 203; 7; 237; 45; 10; 152; 31; 199; 72].
Definition IsPing (plaintext : bytes) : bool :=
  (zlen plaintext =? PingSize) && bool_decide (plaintext = pingMagic).

(** ** The wrapper *)

Record Wrapper (W : Type) := mkWrapper {
  w_peerID : Z;
  w_keyID : Z;
  w_encryptAEAD : bytes;
  w_encryptIV : bytes;
  w_decryptAEAD : bytes;
  w_decryptIV : bytes;
  w_sendSeq : Z;
  w_replay : W;
}.
Arguments mkWrapper {W} _ _ _ _ _ _ _ _.
Arguments w_peerID {W} _.
Arguments w_keyID {W} _.
Arguments w_encryptAEAD {W} _.
Arguments w_encryptIV {W} _.
Arguments w_decryptAEAD {W} _.
Arguments w_decryptIV {W} _.
Arguments w_sendSeq {W} _.
Arguments w_replay {W} _.

Section operations.
Context {W : Type} `{!AntiReplay W} `{!AEAD}.

Definition NewWrapper (keys : DataKeys) (peerID keyID : Z) : outcome dc_error (Wrapper W) :=
  if negb (CipherKeyLen keys =? 16) && negb (CipherKeyLen keys =? 32) then Err ErrCipherKeyLen else
  ek ← slice (EncryptCipher keys) 0 (CipherKeyLen keys);
  encAEAD ← aesNewCipher ek;
  dk ← slice (DecryptCipher keys) 0 (CipherKeyLen keys);
  decAEAD ← aesNewCipher dk;
  Ok (mkWrapper peerID keyID encAEAD (EncryptImplicitIV keys) decAEAD (DecryptImplicitIV keys)
        0 ar_init).

Definition with_sendSeq (w : Wrapper W) (seq : Z) : Wrapper W :=
  mkWrapper (w_peerID w) (w_keyID w) (w_encryptAEAD w) (w_encryptIV w)
    (w_decryptAEAD w) (w_decryptIV w) seq (w_replay w).

Definition with_replay (w : Wrapper W) (r : W) : Wrapper W :=
  mkWrapper (w_peerID w) (w_keyID w) (w_encryptAEAD w) (w_encryptIV w)
    (w_decryptAEAD w) (w_decryptIV w) (w_sendSeq w) r.

Definition nextPacketID (w : Wrapper W) : outcome dc_error Z * Wrapper W :=
  if w_sendSeq w =? 4294967295 then (Err ErrPacketIDExhausted, w)
  else let seq := w_sendSeq w +u32 1 in (Ok seq, with_sendSeq w seq).

(** The 8-byte header, which is also the additional data. *)
Definition header (w : Wrapper W) (seq : Z) : bytes :=
  [u8 (Z.lor (u8 (Z.shiftl (u8 OpDataV2) 3)) (Z.land (w_keyID w) 7));
   u8 (Z.shiftr (w_peerID w) 16); u8 (Z.shiftr (w_peerID w) 8); u8 (w_peerID w)] ++ be32 seq.

Definition nonce (iv : bytes) (seq : Z) : bytes := be32 seq ++ take 8 iv.

Definition sealWithSeq (w : Wrapper W) (dst : bytes) (seq : Z) (plaintext : bytes)
    : outcome dc_error bytes :=
  let sealed := gcm_seal (w_encryptAEAD w) (nonce (w_encryptIV w) seq) plaintext (header w seq) in
  ciphertext ← slice sealed 0 (zlen sealed - TagSize);
  tag ← slice_from sealed (zlen sealed - TagSize);
  Ok (dst ++ header w seq ++ tag ++ ciphertext).

Definition Seal (w : Wrapper W) (dst plaintext : bytes) : outcome dc_error bytes * Wrapper W :=
  let '(r, w') := nextPacketID w in
  (seq ← r; sealWithSeq w' dst seq plaintext, w').

Definition SealWithPacketID (w : Wrapper W) (dst : bytes) (packetID : Z) (plaintext : bytes)
    : outcome dc_error bytes :=
  sealWithSeq w dst packetID plaintext.

Definition SealPing (w : Wrapper W) (dst : bytes) : outcome dc_error bytes * Wrapper W :=
  Seal w dst pingMagic.

Definition Open (w : Wrapper W) (dst packet : bytes) : outcome dc_error bytes * Wrapper W :=
  if zlen packet <? offCiphertext then (Err ErrShort, w) else
  match (hdr ← slice packet 0 headerSize;
         pid ← slice packet offPacketID offTag;
         seq ← get_u32 pid;
         tag ← slice packet offTag offCiphertext;
         ciphertext ← slice_from packet offCiphertext;
         Ok (hdr, seq, ciphertext ++ tag)) with
  | Err e => (Err e, w)
  | Panic => (Panic, w)
  | Ok (hdr, seq, sealed) =>
      match gcm_open (w_decryptAEAD w) (nonce (w_decryptIV w) seq) sealed hdr with
      | None => (Err ErrAuth, w)
      | Some plaintext =>
          let '(ok, r) := ar_accept (w_replay w) seq in
          let w' := with_replay w r in
          if negb ok then (Err ErrReplay, w')
          else if IsPing plaintext then (Err ErrPingAbsorbed, w')
          else (Ok (dst ++ plaintext), w')
      end
  end.

(** ** Facts on one packet *)

Definition seq_of (packet : bytes) : Z :=
  match get_u32 (E := dc_error) (take 4 (drop 4 packet)) with Ok v => v | _ => 0 end.

(** The AEAD check on a packet long enough to hold header and tag. *)
Definition opened (w : Wrapper W) (packet : bytes) : option bytes :=
  gcm_open (w_decryptAEAD w) (nonce (w_decryptIV w) (seq_of packet))
    (drop 24 packet ++ take 16 (drop 8 packet)) (take 8 packet).

Lemma Open_result (w : Wrapper W) (dst packet : bytes) :
  Open w dst packet =
    if zlen packet <? 24 then (Err ErrShort, w) else
    match opened w packet with
    | None => (Err ErrAuth, w)
    | Some plaintext =>
        let '(ok, r) := ar_accept (w_replay w) (seq_of packet) in
        (if negb ok then Err ErrReplay
         else if IsPing plaintext then Err ErrPingAbsorbed else Ok (dst ++ plaintext),
         with_replay w r)
    end.
Proof.
  unfold Open. change offCiphertext with 24. change headerSize with 8. change offPacketID with 4.
  change offTag with 8. destruct (Z.ltb_spec (zlen packet) 24) as [|Hl]; [done|].
  rewrite (slice_ok packet 0 8), (slice_ok packet 4 8), (slice_ok packet 8 24), slice_from_ok by lia.
  outcome_simpl. unfold opened, seq_of.
  change (Z.to_nat (8 - 4)) with 4%nat. change (Z.to_nat 4) with 4%nat.
  destruct (get_u32_total (E := dc_error) (take 4 (drop 4 packet))) as [v Hv].
  { unfold zlen in *. rewrite length_take, length_drop. lia. }
  rewrite Hv. outcome_simpl. rewrite Z.sub_0_r, drop_0.
  change (Z.to_nat (24 - 8)) with 16%nat. change (Z.to_nat 24) with 24%nat.
  change (Z.to_nat 8) with 8%nat.
  destruct (gcm_open _ _ _ _) as [p|]; [|done].
  destruct (ar_accept (w_replay w) v) as [[] r]; cbn [negb]; [|done]. by destruct (IsPing p).
Qed.

Context `{!AEADLaws}.

Lemma sealWithSeq_ok (w : Wrapper W) (seq : Z) (plaintext : bytes) :
  exists ct tag, sealWithSeq w [] seq plaintext = Ok (header w seq ++ tag ++ ct) /\
    length tag = 16%nat /\
    gcm_seal (w_encryptAEAD w) (nonce (w_encryptIV w) seq) plaintext (header w seq) = ct ++ tag.
Proof.
  unfold sealWithSeq, TagSize. set (sealed := gcm_seal _ _ _ _).
  assert (Hl : zlen sealed = zlen plaintext + 16) by apply seal_length.
  pose proof (zlen_nonneg plaintext).
  rewrite slice_ok, slice_from_ok by lia. outcome_simpl.
  rewrite Z.sub_0_r, drop_0. eexists _, _. split_and!; [done| |by rewrite take_drop].
  unfold zlen in *. rewrite length_drop. lia.
Qed.

(** The three bytes of a peer-id. *)
Lemma peer_bytes (p : Z) :
  0 <= p <= 16777215 ->
  Z.lor (Z.lor (u32 (Z.shiftl (u8 (Z.shiftr p 16)) 16)) (u32 (Z.shiftl (u8 (Z.shiftr p 8)) 8))) (u8 p) = p.
Proof.
  intros Hp.
  assert (E1 : u8 (Z.shiftr p 16) = p / 65536) by (rewrite Z.shiftr_div_pow2 by lia; change (2 ^ 16) with 65536; word_lia).
  assert (E2 : u8 (Z.shiftr p 8) = p / 256 mod 256) by (rewrite Z.shiftr_div_pow2 by lia; change (2 ^ 8) with 256; word_lia).
  rewrite E1, E2, !Z.shiftl_mul_pow2 by lia. change (2 ^ 16) with 65536. change (2 ^ 8) with 256.
  rewrite !u32_id by (unfold is_u32; Z.to_euclidean_division_equations; lia).
  replace (p / 65536 * 65536) with (Z.shiftl (p / 65536) 16) by (rewrite Z.shiftl_mul_pow2 by lia; done).
  rewrite lor_shiftl_add by (Z.to_euclidean_division_equations; lia).
  replace (_ + _) with (Z.shiftl (p / 256) 8)
    by (rewrite Z.shiftl_mul_pow2 by lia; change (2 ^ 8) with 256; change (2 ^ 16) with 65536; Z.to_euclidean_division_equations; lia).
  rewrite lor_shiftl_add by word_lia. change (2 ^ 8) with 256. word_lia.
Qed.

(** A packet sealed under the receiver's decryption key opens. *)
Lemma sealed_packet (s r : Wrapper W) (seq : Z) (plaintext packet : bytes) :
  w_encryptAEAD s = w_decryptAEAD r -> w_encryptIV s = w_decryptIV r -> is_u32 seq ->
  sealWithSeq s [] seq plaintext = Ok packet ->
  24 <= zlen packet /\ seq_of packet = seq /\ opened r packet = Some plaintext.
Proof.
  intros Hk Hiv Hs Hp. destruct (sealWithSeq_ok s seq plaintext) as (ct & tag & E & Ht & Hseal).
  rewrite E in Hp. apply (inj Ok) in Hp. subst packet.
  assert (Hh : length (header s seq) = 8%nat) by done.
  assert (Hsq : seq_of (header s seq ++ tag ++ ct) = seq).
  { unfold seq_of. change (take 4 (drop 4 (header s seq ++ tag ++ ct))) with (be32 seq ++ []).
    by rewrite get_be32. }
  split_and!; [|done|].
  - unfold zlen. rewrite !length_app. lia.
  - unfold opened. rewrite Hsq. change 24%nat with (8 + 16)%nat.
    rewrite <- drop_drop, take_app_length', drop_app_length', take_app_length', drop_app_length'
      by done.
    rewrite <- Hseal, <- Hk, <- Hiv. apply open_seal.
Qed.

(** ** Runs *)

Fixpoint seal_all (w : Wrapper W) (plaintexts : list bytes) : list (outcome dc_error bytes) :=
  match plaintexts with
  | [] => []
  | p :: plaintexts => let '(r, w') := Seal w [] p in r :: seal_all w' plaintexts
  end.

Fixpoint open_all (w : Wrapper W) (packets : list bytes) : list (outcome dc_error bytes) :=
  match packets with
  | [] => []
  | p :: packets => let '(r, w') := Open w [] p in r :: open_all w' packets
  end.

(** What opening the packet of the [i]-th payload must answer. *)
Definition delivery (plaintexts : list bytes) (i : nat) (fresh : bool) : outcome dc_error bytes :=
  match plaintexts !! i with
  | Some p => if fresh then if IsPing p then Err ErrPingAbsorbed else Ok p else Err ErrReplay
  | None => Panic
  end.

(** The [i]-th seal uses the [i]-th number after the counter, up to the
    ceiling, and fails from then on. *)
Lemma seal_all_lookup (w : Wrapper W) (plaintexts : list bytes) (i : nat) (p : bytes) :
  is_u32 (w_sendSeq w) -> plaintexts !! i = Some p ->
  exists w0, w_encryptAEAD w0 = w_encryptAEAD w /\ w_encryptIV w0 = w_encryptIV w /\
    let seq := w_sendSeq w + 1 + Z.of_nat i in
    seal_all w plaintexts !! i =
      Some (if seq <? 4294967296 then sealWithSeq w0 [] seq p else Err ErrPacketIDExhausted).
Proof.
  revert w i. induction plaintexts as [|q ps IH]; intros w i Hw Hi; [by rewrite lookup_nil in Hi|].
  cbn [seal_all]. unfold Seal, nextPacketID.
  destruct (Z.eqb_spec (w_sendSeq w) 4294967295) as [Hm|Hm].
  - outcome_simpl. destruct i as [|i].
    + exists w. split_and!; [done..|]. cbv zeta. rewrite (proj2 (Z.ltb_ge _ _)) by lia. done.
    + destruct (IH w i Hw Hi) as (w0 & E1 & E2 & E3). exists w0. split_and!; [done..|].
      cbv zeta in *. rewrite (proj2 (Z.ltb_ge _ _)) in E3 by lia.
      rewrite (proj2 (Z.ltb_ge _ _)) by lia. exact E3.
  - outcome_simpl. unfold is_u32 in Hw.
    rewrite (u32_id (w_sendSeq w + 1)) by (unfold is_u32; lia).
    set (w1 := with_sendSeq w (w_sendSeq w + 1)). destruct i as [|i].
    + cbn in Hi. injection Hi as ->. exists w1. split_and!; [done..|]. cbv zeta.
      rewrite (proj2 (Z.ltb_lt _ _)) by lia. by rewrite Z.add_0_r.
    + destruct (IH w1 i) as (w0 & E1 & E2 & E3); [unfold is_u32; cbn; lia|done|].
      exists w0. split_and!; [done..|]. cbv zeta in *.
      replace (w_sendSeq w + 1 + Z.of_nat (S i)) with (w_sendSeq w1 + 1 + Z.of_nat i)
        by (unfold w1; cbn; lia). exact E3.
Qed.

(** Below the ceiling every seal of a run succeeds. *)
Lemma seal_all_ok (w : Wrapper W) (ps : list bytes) :
  0 <= w_sendSeq w -> w_sendSeq w + zlen ps < 4294967296 ->
  exists packets, seal_all w ps = map Ok packets /\
    forall i p, ps !! i = Some p -> exists w0 packet,
      w_encryptAEAD w0 = w_encryptAEAD w /\ w_encryptIV w0 = w_encryptIV w /\
      sealWithSeq w0 [] (w_sendSeq w + 1 + Z.of_nat i) p = Ok packet /\ packets !! i = Some packet.
Proof.
  revert w. induction ps as [|q ps IH]; intros w Hz Hn.
  { exists []. split; [done|]. intros i p. by rewrite lookup_nil. }
  rewrite zlen_cons in Hn. pose proof (zlen_nonneg ps).
  cbn [seal_all]. unfold Seal, nextPacketID.
  rewrite (proj2 (Z.eqb_neq _ _)), (u32_id (w_sendSeq w + 1)) by (try unfold is_u32; lia).
  set (w1 := with_sendSeq w (w_sendSeq w + 1)). outcome_simpl.
  destruct (IH w1) as (ps' & Hps & Hall); [cbn; lia|cbn; lia|].
  destruct (sealWithSeq_ok w1 (w_sendSeq w + 1) q) as (ct & tag & E & _). rewrite E.
  eexists (_ :: ps'). split; [cbn [map]; by rewrite Hps|]. intros [|i] p Hi.
  - cbn in Hi. injection Hi as ->. exists w1. eexists. split_and!; [done|done| |done].
    rewrite Z.add_0_r. exact E.
  - destruct (Hall i p Hi) as (w0 & pk & E1 & E2 & E3 & E4). exists w0, pk.
    split_and!; [done|done| |done]. rewrite <- E3. f_equal. unfold w1. cbn. lia.
Qed.

Lemma seal_all_length (w : Wrapper W) (ps : list bytes) : length (seal_all w ps) = length ps.
Proof.
  revert w. induction ps as [|p ps IH]; intros w; [done|]. cbn.
  destruct (Seal w [] p). cbn. by rewrite IH.
Qed.

(** Opening packets drawn from a run, in any order. *)
Lemma open_all_delivery (plaintexts packets : list bytes) (key iv : bytes) (idx : list nat)
    (r : Wrapper W) (h : list Z) :
  zlen plaintexts < 4294967296 ->
  (forall i p, plaintexts !! i = Some p -> exists w0 packet,
     w_encryptAEAD w0 = key /\ w_encryptIV w0 = iv /\
     sealWithSeq w0 [] (1 + Z.of_nat i) p = Ok packet /\ packets !! i = Some packet) ->
  w_decryptAEAD r = key -> w_decryptIV r = iv -> ar_models (w_replay r) h ->
  Forall (fun i => (i < length plaintexts)%nat) idx ->
  open_all r (map (fun i => nth i packets []) idx) =
  zip_with (delivery plaintexts) idx (reference_all h (map (fun i => 1 + Z.of_nat i) idx)).
Proof.
  intros Hlen Hps. revert r h. induction idx as [|i idx IH]; intros r h Hk Hiv Hw Hi; [done|].
  apply Forall_cons in Hi as [Hi Hidx]. cbn [map open_all reference_all zip_with].
  destruct (lookup_lt_is_Some_2 plaintexts i Hi) as [p Hp].
  destruct (Hps i p Hp) as (w0 & packet & E1 & E2 & E3 & E4).
  rewrite (nth_lookup_Some _ _ _ _ E4).
  assert (Hseq : is_u32 (1 + Z.of_nat i)) by (unfold is_u32, zlen in *; lia).
  destruct (sealed_packet w0 r (1 + Z.of_nat i) p packet) as (Hl & Hsq & Ho);
    [congruence|congruence|done|done|].
  rewrite Open_result, (proj2 (Z.ltb_ge _ 24)), Ho, Hsq by done.
  destruct (ar_accept (w_replay r) (1 + Z.of_nat i)) as [ok rw] eqn:E.
  destruct (ar_accept_spec _ _ _ _ _ Hseq Hw E) as (Hok & Hw' & Hsame).
  rewrite <- Hok. unfold delivery at 1. rewrite Hp.
  rewrite (IH (with_replay r rw) (if ok then 1 + Z.of_nat i :: h else h)) by done.
  by destruct ok.
Qed.

(** ** Properties *)

(** The peer's key material: encrypt and decrypt directions exchanged. *)
Definition flip_keys (k : DataKeys) : DataKeys :=
  mkDataKeys (DecryptCipher k) (DecryptImplicitIV k) (EncryptCipher k) (EncryptImplicitIV k)
    (CipherKeyLen k).

Lemma NewWrapper_flip (keys : DataKeys) (peer1 peer2 kid1 kid2 : Z) (s r : Wrapper W) :
  NewWrapper keys peer1 kid1 = Ok s -> NewWrapper (flip_keys keys) peer2 kid2 = Ok r ->
  w_encryptAEAD s = w_decryptAEAD r /\ w_encryptIV s = w_decryptIV r /\
  w_sendSeq s = 0 /\ w_replay r = ar_init.
Proof.
  unfold NewWrapper, flip_keys. cbn [CipherKeyLen EncryptCipher DecryptCipher].
  destruct (negb _ && negb _); [done|].
  destruct (slice (EncryptCipher keys) 0 (CipherKeyLen keys)) as [ek| |]; [|done..]. outcome_simpl.
  destruct (aesNewCipher ek) as [ea| |] eqn:E1; [|done..]. outcome_simpl.
  destruct (slice (DecryptCipher keys) 0 (CipherKeyLen keys)) as [dk| |]; [|done..]. outcome_simpl.
  destruct (aesNewCipher dk) as [da| |] eqn:E2; [|done..]. outcome_simpl.
  intros Hs%(inj Ok) Hr%(inj Ok). by subst.
Qed.

Lemma NewWrapper_start (keys : DataKeys) (peer kid : Z) (w : Wrapper W) :
  NewWrapper keys peer kid = Ok w ->
  w_sendSeq w = 0 /\ w_replay w = ar_init /\ w_peerID w = peer /\ w_keyID w = kid.
Proof.
  unfold NewWrapper. destruct (_ && _); [done|]. destruct (slice (EncryptCipher keys) _ _); [|done..]. outcome_simpl.
  destruct (aesNewCipher _); [|done..]. outcome_simpl. destruct (slice (DecryptCipher keys) _ _); [|done..]. outcome_simpl.
  destruct (aesNewCipher _); [|done..]. outcome_simpl. by intros [= <-].
Qed.

(** Delivery on the data channel: a wrapper seals fewer than 2^32 payloads
    and its peer, built from the same keys with the directions exchanged, is
    handed any selection of the packets in any order.  Every seal succeeds, and
    each packet handed over yields exactly the original payload when the
    reference replay decision admits its number, [ErrPingAbsorbed] when that
    payload is the keepalive magic, and [ErrReplay] when the number is stale or
    was already accepted. *)
Theorem datachan_delivery (keys : DataKeys) (peer1 peer2 kid1 kid2 : Z)
    (sender receiver : Wrapper W) (plaintexts : list bytes) :
  NewWrapper keys peer1 kid1 = Ok sender ->
  NewWrapper (flip_keys keys) peer2 kid2 = Ok receiver ->
  zlen plaintexts < 4294967296 ->
  exists packets, seal_all sender plaintexts = map Ok packets /\
    forall idx : list nat, Forall (fun i => (i < length plaintexts)%nat) idx ->
      open_all receiver (map (fun i => nth i packets []) idx) =
      zip_with (delivery plaintexts) idx (reference_all [] (map (fun i => 1 + Z.of_nat i) idx)).
Proof.
  intros Hs Hr Hlen.
  assert (w_encryptAEAD sender = w_decryptAEAD receiver /\
          w_encryptIV sender = w_decryptIV receiver /\
          w_sendSeq sender = 0 /\ w_replay receiver = ar_init) as (Hk & Hiv & Hs0 & Hz).
  { eapply NewWrapper_flip; done. }
  destruct (seal_all_ok sender plaintexts) as (packets & Hps & Hall); [rewrite Hs0; lia|rewrite Hs0; lia|].
  exists packets. split; [done|]. intros idx Hidx.
  eapply open_all_delivery; [done| |done|done| |done].
  - intros i p Hp. destruct (Hall i p Hp) as (w0 & packet & E1 & E2 & E3 & E4).
    rewrite Hs0, Z.add_0_l in E3. exists w0, packet. split_and!; [congruence|congruence|done|done].
  - rewrite Hz. apply ar_init_models.
Qed.

Lemma nonce_inj (iv : bytes) (a b : Z) : is_u32 a -> is_u32 b -> nonce iv a = nonce iv b -> a = b.
Proof.
  unfold nonce. intros Ha Hb Hn. apply app_inj_1 in Hn as [Hn _]; [|done].
  pose proof (get_be32 (E := unit) a [] Ha) as E1. pose proof (get_be32 (E := unit) b [] Hb) as E2.
  rewrite Hn, E2 in E1. by injection E1.
Qed.

(** What a seal sends is what the AEAD made of the plaintext under the nonce of the
    packet's number, with the header as additional data. *)
Lemma sealed_with (w : Wrapper W) (seq : Z) (p : bytes) :
  is_u32 seq ->
  exists packet, sealWithSeq w [] seq p = Ok packet /\ seq_of packet = seq /\
    gcm_seal (w_encryptAEAD w) (nonce (w_encryptIV w) seq) p (take 8 packet) = drop 24 packet ++ take 16 (drop 8 packet).
Proof.
  intros Hs. destruct (sealWithSeq_ok w seq p) as (ct & tag & E & Ht & Hg). eexists. split; [exact E|]. split.
  - unfold seq_of. change (take 4 (drop 4 (header w seq ++ tag ++ ct))) with (be32 seq ++ []). by rewrite get_be32.
  - change 24%nat with (8 + 16)%nat.
    by rewrite <- drop_drop, take_app_length', drop_app_length', take_app_length', drop_app_length' by done.
Qed.

(** C16. No nonce is handed to the AEAD twice.  Over any number of [Seal] calls on a
    wrapper in any state, the [i]-th packet carries the [i]-th number after the
    wrapper's counter and what AES-GCM makes of the [i]-th plaintext and the header
    under the wrapper's key and the nonce [n i]; these nonces are pairwise distinct;
    and from the 2^32-th number on every call fails with [ErrPacketIDExhausted]
    instead of wrapping around.  This is for every AEAD, in particular for one whose
    output shows the nonce it was given. *)
Theorem Seal_nonces_unique (w : Wrapper W) (plaintexts : list bytes) :
  is_u32 (w_sendSeq w) ->
  let number (i : nat) := w_sendSeq w + 1 + Z.of_nat i in
  let n (i : nat) := nonce (w_encryptIV w) (number i) in
  (forall i p, plaintexts !! i = Some p -> number i < 4294967296 ->
    exists packet, seal_all w plaintexts !! i = Some (Ok packet) /\ seq_of packet = number i /\
      gcm_seal (w_encryptAEAD w) (n i) p (take 8 packet) = drop 24 packet ++ take 16 (drop 8 packet)) /\
  (forall i j, number i < 4294967296 -> number j < 4294967296 -> n i = n j -> i = j) /\
  (forall i, (i < length plaintexts)%nat -> 4294967296 <= number i ->
    seal_all w plaintexts !! i = Some (Err ErrPacketIDExhausted)).
Proof.
  intros Hw number n. split_and!.
  - intros i p Hp Hlt. destruct (seal_all_lookup w plaintexts i p Hw Hp) as (w0 & E1 & E2 & E). cbv zeta in E.
    rewrite E, (proj2 (Z.ltb_lt _ _)) by exact Hlt. unfold n, number in *. rewrite <- E1, <- E2.
    destruct (sealed_with w0 (w_sendSeq w + 1 + Z.of_nat i) p) as (packet & -> & Hp1 & Hp2); [unfold is_u32 in *; lia|].
    by exists packet.
  - intros i j Hi Hj Hn. apply nonce_inj in Hn; unfold number, is_u32 in *; lia.
  - intros i Hi Hc. destruct (lookup_lt_is_Some_2 plaintexts i Hi) as [p Hp].
    destruct (seal_all_lookup w plaintexts i p Hw Hp) as (w0 & _ & _ & E). cbv zeta in E.
    by rewrite (proj2 (Z.ltb_ge _ _)) in E by exact Hc.
Qed.

(** The packets that count as received: long enough, authentic, fresh. *)
Definition admitted (w : Wrapper W) (h : list Z) (packet : bytes) : bool :=
  negb (zlen packet <? 24) && bool_decide (is_Some (opened w packet)) &&
  window_accepts h (seq_of packet).

Lemma seq_of_u32 (packet : bytes) : bytes_ok packet -> is_u32 (seq_of packet).
Proof.
  intros Hb. unfold seq_of.
  assert (Hb4 : bytes_ok (take 4 (drop 4 packet))) by (by apply bytes_ok_take, bytes_ok_drop).
  assert (Hl4 : (length (take 4 (drop 4 packet)) <= 4)%nat) by (rewrite length_take; lia).
  generalize dependent (take 4 (drop 4 packet)). intros l Hl Hlen.
  destruct (get_u32 l) as [v| |] eqn:E; [|done..].
  eapply get_u32_inv; [exact Hl| |exact E].
  destruct l as [|? [|? [|? [|? [|? ?]]]]]; try done. cbn in Hlen. lia.
Qed.

(** Opening fails closed: whatever the packet, [Open] never panics and
    answers with a payload only when the AEAD opened it under the nonce made of
    the packet's own number and with its header as additional data, the
    reference replay decision admits that number, and the payload is not the
    keepalive magic.  A packet refused as short, unauthentic or replayed leaves
    the wrapper as it was; every other one, an absorbed ping included, adds
    exactly its number to the history. *)
Theorem Open_fail_closed (w : Wrapper W) (dst packet : bytes) (h : list Z) :
  bytes_ok packet -> ar_models (w_replay w) h ->
  let '(r, w') := Open w dst packet in
  r = (if zlen packet <? offCiphertext then Err ErrShort else
       match opened w packet with
       | None => Err ErrAuth
       | Some plaintext =>
           if negb (window_accepts h (seq_of packet)) then Err ErrReplay
           else if IsPing plaintext then Err ErrPingAbsorbed else Ok (dst ++ plaintext)
       end) /\
  (admitted w h packet = false -> w' = w) /\
  ar_models (w_replay w') (if admitted w h packet then seq_of packet :: h else h) /\
  w' = with_replay w (w_replay w').
Proof.
  intros Hb Hm. rewrite Open_result. change offCiphertext with 24. unfold admitted.
  assert (Hw : w = with_replay w (w_replay w)) by (by destruct w).
  destruct (zlen packet <? 24); [done|]. cbn [negb andb].
  destruct (opened w packet) as [p|]; [|done]. rewrite bool_decide_true by done. cbn [andb].
  destruct (ar_accept (w_replay w) (seq_of packet)) as [ok r] eqn:E.
  destruct (ar_accept_spec _ _ _ _ _ (seq_of_u32 _ Hb) Hm E) as (<- & Hr & Hsame).
  split_and!; [by destruct ok| |by destruct ok|done].
  intros ->. rewrite Hsame by done. by destruct w.
Qed.
End operations.

(** ** Witnesses, over a concrete AEAD *)

Module Toy.
(** Append a tag made of the key's first byte and check it on opening. *)
#[export] Instance aead : AEAD := {|
  gcm_seal k n p a := p ++ replicate 16 (hd 0 k);
  gcm_open k n s a :=
    let p := take (length s - 16) s in
    if bool_decide (drop (length s - 16) s = replicate 16 (hd 0 k)) then Some p else None;
|}.
#[export] Instance laws : AEADLaws.
Proof.
  constructor.
  - intros. unfold gcm_seal, aead. by rewrite zlen_app.
  - intros. unfold gcm_seal, gcm_open, aead.
    assert (length (p ++ replicate 16 (hd 0%Z k)) - 16 = length p)%nat as ->
      by (rewrite length_app, length_replicate; lia).
    cbv zeta. rewrite drop_app_length, take_app_length. by rewrite bool_decide_true.
Qed.
Definition keys : DataKeys :=
  mkDataKeys (replicate 32 7) (replicate 8 1) (replicate 32 9) (replicate 8 2) 32.
Definition server : Wrapper replayWindow :=
  mkWrapper 5 0 (replicate 32 7) (replicate 8 1) (replicate 32 9) (replicate 8 2) 4294967294
    zeroReplayWindow.
End Toy.
#[local] Existing Instances Toy.aead Toy.laws.

Lemma datachan_delivery_witness :
  exists (s c : Wrapper replayWindow) packets,
    NewWrapper Toy.keys 5 0 = Ok s /\ NewWrapper (flip_keys Toy.keys) 0 0 = Ok c /\
    seal_all s [[1; 2]; pingMagic; [3]] = map Ok packets /\
    open_all c (map (fun i => nth i packets []) [2; 1; 0; 2]%nat) =
      [Ok [3]; Err ErrPingAbsorbed; Ok [1; 2]; Err ErrReplay].
Proof.
  destruct (NewWrapper (W := replayWindow) Toy.keys 5 0) as [s| |] eqn:Es; [|by vm_compute in Es..].
  destruct (NewWrapper (W := replayWindow) (flip_keys Toy.keys) 0 0) as [c| |] eqn:Ec;
    [|by vm_compute in Ec..].
  destruct (datachan_delivery Toy.keys 5 0 0 0 s c [[1; 2]; pingMagic; [3]] Es Ec)
    as (ps & Hps & Hall); [done|].
  exists s, c, ps. split_and!; [done..|].
  rewrite (Hall [2; 1; 0; 2]%nat) by decide_now. vm_compute. reflexivity.
Defined.

Lemma Seal_nonces_unique_witness :
  (exists packet, seal_all Toy.server [[1]; [2]; [3]] !! 0%nat = Some (Ok packet) /\ seq_of packet = 4294967295) /\
  seal_all Toy.server [[1]; [2]; [3]] !! 1%nat = Some (Err ErrPacketIDExhausted).
Proof.
  destruct (Seal_nonces_unique Toy.server [[1]; [2]; [3]]) as (H1 & _ & H3); [decide_now|]. split.
  - destruct (H1 0%nat [1]) as (packet & E & Es & _); [reflexivity|reflexivity|]. exists packet. split; [exact E|exact Es].
  - apply H3; [cbn; lia|vm_compute; discriminate].
Defined.

Lemma Open_fail_closed_witness :
  let '(r, w') := Open Toy.server [] (replicate 30 0) in r = Err ErrAuth /\ w' = Toy.server.
Proof.
  pose proof (Open_fail_closed Toy.server [] (replicate 30 0) [] ltac:(decide_now) zero_models) as H.
  destruct (Open Toy.server [] (replicate 30 0)) as [r w']. destruct H as (-> & Hu & _).
  split; [vm_compute; reflexivity|]. apply Hu. vm_compute. reflexivity.
Defined.
End DataChan.
