(* ===== verification/CtrlConn.v ===== *)
(** * CtrlConn: the control channel as a byte stream

    Model of [internal/ctrlconn/conn.go]: one [Conn] composes the wire format,
    the tls-crypt wrapper of its session, a send and a receive window and the
    acknowledgement queue into a stream connection.  Every method is a function
    on the state; the datagrams it hands to the transport are part of its
    result.  A method that blocks is modelled by one poll of its wait loop,
    which answers that it still waits; the environment ([Env]) supplies the
    clock readings and the transport's answers. *)

From S2P Require Import Prelude Wire Replay Reliable TlsCrypt.

Module CtrlConn.

Definition MaxPayload : Z := 1150.

Inductive cc_error :=
  | ErrEOF | ErrClosedPipe | TimeoutError | WrapError (e : tc_error) | TransportError.

#[export] Instance cc_error_eq_dec : EqDecision cc_error.
Proof. solve_decision. Defined.

Record Env := mkEnv {
  env_now : Z;            (* clock.Now() *)
  env_unix1 : Z;          (* the two time.Now().Unix() readings of Wrap *)
  env_unix2 : Z;
  env_tx : bytes -> bool; (* transport.WriteTo succeeds *)
}.

(** The tls-crypt wrapper is the session's: the state carried here is the
    wrapper as this connection finds and leaves it. *)
Record Conn := mkConn {
  c_localSID : bytes;
  c_remoteSID : bytes;
  c_wrapper : Wrapper;
  c_keyID : Z;
  c_sendRel : Reliable;
  c_recvRel : Reliable;
  c_acks : AckSet;
  c_readBuf : bytes;
  c_closed : bool;
  c_readDeadline : Z;
  c_writeDeadline : Z;
}.

Definition with_send (c : Conn) (r : Reliable) : Conn :=
  mkConn (c_localSID c) (c_remoteSID c) (c_wrapper c) (c_keyID c) r (c_recvRel c) (c_acks c)
    (c_readBuf c) (c_closed c) (c_readDeadline c) (c_writeDeadline c).
Definition with_recv (c : Conn) (r : Reliable) (buf : bytes) : Conn :=
  mkConn (c_localSID c) (c_remoteSID c) (c_wrapper c) (c_keyID c) (c_sendRel c) r (c_acks c)
    buf (c_closed c) (c_readDeadline c) (c_writeDeadline c).
Definition with_acks (c : Conn) (a : AckSet) : Conn :=
  mkConn (c_localSID c) (c_remoteSID c) (c_wrapper c) (c_keyID c) (c_sendRel c) (c_recvRel c) a
    (c_readBuf c) (c_closed c) (c_readDeadline c) (c_writeDeadline c).
Definition with_wrapper (c : Conn) (w : Wrapper) : Conn :=
  mkConn (c_localSID c) (c_remoteSID c) w (c_keyID c) (c_sendRel c) (c_recvRel c) (c_acks c)
    (c_readBuf c) (c_closed c) (c_readDeadline c) (c_writeDeadline c).

(** ** Construction *)

Definition NewWithKeyID (localSID remoteSID : bytes) (wrapper : Wrapper) (keyID : Z)
    : option Conn :=
  sendRel ← New NSendBuffers;
  recvRel ← New NRecBuffers;
  Some (mkConn localSID remoteSID wrapper keyID sendRel recvRel [] [] false zeroTime zeroTime).

Definition NewConn (localSID remoteSID : bytes) (wrapper : Wrapper) : option Conn :=
  NewWithKeyID localSID remoteSID wrapper 0.

(** ** Inbound *)

(** The loop that drains the receive window in order.  Every round frees a
    slot, so one round more than there are slots is enough fuel; [None] would
    be the loop not ending. *)
Fixpoint drainLoop (fuel : nat) (r : Reliable) (buf : bytes) : option (Reliable * bytes) :=
  match fuel with
  | O => None
  | S fuel =>
      match Get r with
      | None => Some (r, buf)
      | Some (payload, r') =>
          drainLoop fuel r' (if (0 <? length payload)%nat then buf ++ payload else buf)
      end
  end.

Definition drain (c : Conn) : option Conn :=
  '(r, buf) ← drainLoop (S (r_size (c_recvRel c))) (c_recvRel c) (c_readBuf c);
  Some (with_recv c r buf).

Definition absorb (c : Conn) (cp : ControlPacket) : option Conn :=
  let c := with_send c (Ack (c_sendRel c) (cp_Acks cp)) in
  if negb (cp_Opcode cp =? OpAckV1) then
    let '(res, recv) := Put (c_recvRel c) (cp_PacketID cp) (cp_Payload cp) in
    let c := with_recv c recv (c_readBuf c) in
    match res with
    | PutAccepted | PutDuplicate => drain (with_acks c (Add (c_acks c) (cp_PacketID cp)))
    | PutRejected => Some c
    end
  else drain c.

(** ** Outbound *)

Section outbound.
Context `{!TLSCryptPrims}.

Definition transmit (env : Env) (wireBytes : bytes) : outcome cc_error unit * list bytes :=
  (if env_tx env wireBytes then Ok tt else Err TransportError, [wireBytes]).

Definition lift_wrap (r : outcome tc_error bytes) : outcome cc_error bytes :=
  match r with Ok b => Ok b | Err e => Err (WrapError e) | Panic => Panic end.

(** The packet [buildControlPacket] serialises. *)
Definition packetOf (c : Conn) (opcode id : Z) (acks : list Z) (payload : bytes) : ControlPacket :=
  mkControlPacket opcode (c_keyID c) (c_localSID c) acks (c_remoteSID c) id payload.

Definition buildControlPacket (env : Env) (c : Conn) (opcode id : Z) (payload : bytes)
    : outcome cc_error bytes * Conn :=
  let '(acks, rest) := Drain (c_acks c) in
  let c := with_acks c rest in
  let plaintext := AppendPlaintext (packetOf c opcode id acks payload) [] in
  let header := AppendHeaderByte [] opcode (c_keyID c) ++ c_localSID c in
  let '(r, w) := Wrap (c_wrapper c) (env_unix1 env) (env_unix2 env) [] header plaintext in
  (lift_wrap r, with_wrapper c w).

Definition flushAckOnly (env : Env) (c : Conn) : Conn * list bytes :=
  if negb (Peek (c_acks c)) then (c, []) else
  let '(r, c') := buildControlPacket env c OpAckV1 0 [] in
  match r with
  | Ok wireBytes => (c', snd (transmit env wireBytes))
  | _ => (c', [])
  end.

Definition Deliver (env : Env) (c : Conn) (cp : ControlPacket) : option (Conn * list bytes) :=
  c ← absorb c cp;
  Some (flushAckOnly env c).

(** One poll of the loop in [waitForSendSlot]. *)
Inductive slot_poll := SlotAt (idx : nat) | SlotErr (e : cc_error) | SlotWait.

Definition waitForSendSlot (env : Env) (c : Conn) : slot_poll :=
  match Next (c_sendRel c) with
  | Some idx => SlotAt idx
  | None =>
      if c_closed c then SlotErr ErrClosedPipe
      else if negb (c_writeDeadline c =? zeroTime) && (c_writeDeadline c <=? env_now env)
      then SlotErr TimeoutError
      else SlotWait
  end.

Inductive chunk_result := ChunkDone (r : outcome cc_error unit) | ChunkWait.

Definition writeChunk (env : Env) (c : Conn) (opcode : Z) (payload : bytes)
    : chunk_result * Conn * list bytes :=
  match waitForSendSlot env c with
  | SlotWait => (ChunkWait, c, [])
  | SlotErr e => (ChunkDone (Err e), c, [])
  | SlotAt idx =>
      match MarkActive (c_sendRel c) idx with
      | None => (ChunkDone Panic, c, [])
      | Some (id, rel) =>
          let c := with_send c rel in
          let '(r, c) := buildControlPacket env c opcode id payload in
          match r with
          | Err e => (ChunkDone (Err e), c, [])
          | Panic => (ChunkDone Panic, c, [])
          | Ok wireBytes =>
              match SetPayload (c_sendRel c) idx wireBytes with
              | None => (ChunkDone Panic, c, [])
              | Some rel =>
                  let '(res, sent) := transmit env wireBytes in
                  (ChunkDone res, with_send c rel, sent)
              end
          end
      end
  end.

Definition DeliverAndRespond (env : Env) (c : Conn) (cp : ControlPacket) (opcode : Z)
    (payload : bytes) : option (chunk_result * Conn * list bytes) :=
  c ← absorb c cp;
  Some (writeChunk env c opcode payload).

Definition SendReset (env : Env) (c : Conn) (opcode : Z) : chunk_result * Conn * list bytes :=
  writeChunk env c opcode [].

(** [Write] up to its return or its first wait; a waiting writer resumes with
    [rest].  [env k] is the environment of the [k]-th chunk.  Every chunk takes
    at least one byte, so [length p] is enough fuel. *)
Inductive write_result :=
  | WDone (written : Z)
  | WFail (written : Z) (r : outcome cc_error unit)
  | WWait (written : Z) (rest : bytes)
  | WFuel.

Definition chunkOf (p : bytes) : bytes :=
  if MaxPayload <? zlen p then take (Z.to_nat MaxPayload) p else p.

Fixpoint writeLoop (fuel : nat) (env : nat -> Env) (c : Conn) (p : bytes) (written : Z)
    : write_result * Conn * list bytes :=
  match p with
  | [] => (WDone written, c, [])
  | _ =>
      match fuel with
      | O => (WFuel, c, [])
      | S fuel =>
          let chunk := chunkOf p in
          let '(res, c', sent) := writeChunk (env 0%nat) c OpControlV1 chunk in
          match res with
          | ChunkWait => (WWait written p, c', sent)
          | ChunkDone (Ok _) =>
              let '(r, c'', sent') :=
                writeLoop fuel (fun k => env (S k)) c' (drop (length chunk) p)
                  (written + zlen chunk) in
              (r, c'', sent ++ sent')
          | ChunkDone e => (WFail written e, c', sent)
          end
      end
  end.

Definition Write (env : nat -> Env) (c : Conn) (p : bytes) : write_result * Conn * list bytes :=
  writeLoop (length p) env c p 0.

End outbound.

(** ** Reading, deadlines, closing *)

Inductive read_result := ReadOk (data : bytes) | ReadErr (e : cc_error) | ReadWait.

(** One poll of [Read] with a buffer of [n] bytes. *)
Definition Read (now : Z) (c : Conn) (n : nat) : read_result * Conn :=
  match c_readBuf c with
  | [] =>
      if c_closed c then (ReadErr ErrEOF, c)
      else if negb (c_readDeadline c =? zeroTime) && (c_readDeadline c <=? now)
      then (ReadErr TimeoutError, c)
      else (ReadWait, c)
  | buf => (ReadOk (take n buf), with_recv c (c_recvRel c) (drop n buf))
  end.

Definition Close (c : Conn) : Conn :=
  mkConn (c_localSID c) (c_remoteSID c) (c_wrapper c) (c_keyID c) (c_sendRel c) (c_recvRel c)
    (c_acks c) (c_readBuf c) true (c_readDeadline c) (c_writeDeadline c).

Definition SetReadDeadline (c : Conn) (t : Z) : Conn :=
  mkConn (c_localSID c) (c_remoteSID c) (c_wrapper c) (c_keyID c) (c_sendRel c) (c_recvRel c)
    (c_acks c) (c_readBuf c) (c_closed c) t (c_writeDeadline c).
Definition SetWriteDeadline (c : Conn) (t : Z) : Conn :=
  mkConn (c_localSID c) (c_remoteSID c) (c_wrapper c) (c_keyID c) (c_sendRel c) (c_recvRel c)
    (c_acks c) (c_readBuf c) (c_closed c) (c_readDeadline c) t.
Definition SetDeadline (c : Conn) (t : Z) : Conn := SetWriteDeadline (SetReadDeadline c t) t.

(** ** Retransmission and draining *)

(** The inner loop of one tick of [retransmitLoop]: [now k] is the clock at
    the [k]-th call of [Due].  [None]: still looping when the fuel is used up. *)
Fixpoint retransmitTick (fuel : nat) (now : nat -> Z) (r : Reliable)
    : option (Reliable * list bytes) :=
  match fuel with
  | O => None
  | S fuel =>
      match Due r (now 0%nat) with
      | None => Some (r, [])
      | Some (payload, _, r') =>
          '(r'', sent) ← retransmitTick fuel (fun k => now (S k)) r';
          Some (r'', payload :: sent)
      end
  end.

(** One round of [WaitDrained]: the connection before the [select], the event
    it received, and the connection then.  [None]: keep waiting. *)
Inductive drain_event := EvClosed | EvTick (now : Z).

Definition WaitDrained (c : Conn) (deadline : Z) (ev : drain_event) (c' : Conn) : option bool :=
  if Empty (c_sendRel c) then Some true
  else match ev with
       | EvClosed => Some false
       | EvTick now => if deadline <=? now then Some (Empty (c_sendRel c')) else None
       end.

(** ** The inbound stream *)

(** The receive side at a point of a run: [n] packets were absorbed, the first
    [floor] of them in order have been handed on. *)
Record inbound (stream : Z -> bytes) (r : Reliable) (n : Z) : Prop := {
  in_buf : exists buf, recv_models r buf /\ holds_stream stream buf /\
             r_packetID r + Z.of_nat (size buf) <= n;
  in_size : r_size r = NRecBuffers;
}.

Lemma seqZ_snoc_map (stream : Z -> bytes) (n : Z) :
  0 <= n -> concat (map stream (seqZ 0 (n + 1))) = concat (map stream (seqZ 0 n)) ++ stream n.
Proof.
  intros Hn. rewrite seqZ_app, map_app, concat_app by lia. f_equal.
  rewrite seqZ_cons, seqZ_nil by lia. cbn [map concat]. by rewrite app_nil_r, Z.add_0_l.
Qed.

(** What drains from the window is the next part of the stream, and nothing in
    order is withheld. *)
Lemma drainLoop_spec (stream : Z -> bytes) (fuel : nat) (r : Reliable) (buf : gmap Z bytes)
    (consumed out : bytes) (n : Z) :
  recv_models r buf -> holds_stream stream buf -> r_size r = NRecBuffers ->
  r_packetID r + Z.of_nat (size buf) <= n -> n <= 2147483648 - 12 -> (size buf < fuel)%nat ->
  consumed ++ out = concat (map stream (seqZ 0 (r_packetID r))) ->
  exists r' out', drainLoop fuel r out = Some (r', out') /\ inbound stream r' n /\
    Get r' = None /\ consumed ++ out' = concat (map stream (seqZ 0 (r_packetID r'))).
Proof.
  revert r buf out. induction fuel as [|fuel IH]; intros r buf out Hm Hs Hz Hn Hb Hf Ho; [lia|].
  pose proof (rm_floor _ _ Hm) as H0. unfold NRecBuffers in *.
  pose proof (Get_refines r buf Hm ltac:(unfold no_wrap; lia)) as HG. cbn [drainLoop].
  destruct (Get r) as [[pl r']|] eqn:E.
  2:{ exists r, out. split_and!; [done| |done|done]. constructor; [by exists buf|done]. }
  unfold spec_get in HG. destruct (buf !! r_packetID r) as [pl'|] eqn:Eb; [|done].
  destruct HG as (-> & Hm' & Hf' & Hz'). pose proof (Hs _ _ Eb) as ->.
  pose proof (map_size_delete_Some (M := gmap Z) (r_packetID r) buf ltac:(by eexists)) as Hsz.
  assert (Hpos : (size buf <> 0)%nat).
  { intros H%map_size_empty_inv. by rewrite H, lookup_empty in Eb. }
  apply (IH r' (delete (r_packetID r) buf)); try done; try (rewrite ?Hf', ?Hz'; lia).
  - intros i p [_ Hi]%lookup_delete_Some. by apply Hs.
  - rewrite Hf', seqZ_snoc_map, <- Ho, <- (assoc_L (++)) by lia. f_equal.
    destruct (stream (r_packetID r)); [|done]. cbn. by rewrite app_nil_r.
Qed.

Lemma buffered_le_size (r : Reliable) (buf : gmap Z bytes) :
  recv_models r buf -> (size buf <= r_size r)%nat.
Proof.
  intros [Hs _ Hnd -> _]. rewrite map_size_list_to_map by done.
  rewrite <- (slots_length r Hs). unfold activePairs. generalize (slots r) as es.
  induction es as [|e es IH]; cbn; [lia|]. destruct (activePair e); cbn; lia.
Qed.

Lemma drain_spec (stream : Z -> bytes) (c : Conn) (n : Z) (consumed : bytes) :
  inbound stream (c_recvRel c) n -> n <= 2147483648 - 12 ->
  consumed ++ c_readBuf c = concat (map stream (seqZ 0 (r_packetID (c_recvRel c)))) ->
  exists r' out', drain c = Some (with_recv c r' out') /\ inbound stream r' n /\ Get r' = None /\
    consumed ++ out' = concat (map stream (seqZ 0 (r_packetID r'))).
Proof.
  intros [(buf & Hm & Hs & Hle) Hz] Hb Ho. pose proof (buffered_le_size _ _ Hm).
  destruct (drainLoop_spec stream (S (r_size (c_recvRel c))) (c_recvRel c) buf consumed
    (c_readBuf c) n) as (r' & out' & E & Hin & Hg & Ho'); try done; [lia|].
  exists r', out'. unfold drain. rewrite E. done.
Qed.

(** An inbound control packet from a peer whose packet [id] carries
    [stream id]; an ack-only packet carries no id of its own. *)
Definition from_stream (stream : Z -> bytes) (cp : ControlPacket) : Prop :=
  cp_Opcode cp <> OpAckV1 -> is_u32 (cp_PacketID cp) /\ cp_Payload cp = stream (cp_PacketID cp).

(** Absorbing one packet keeps the read stream a prefix of the peer's stream,
    drains everything in order, and queues an acknowledgement exactly when the
    packet was accepted or is a duplicate still buffered. *)
Lemma absorb_stream (stream : Z -> bytes) (c : Conn) (cp : ControlPacket) (n : Z)
    (consumed : bytes) :
  from_stream stream cp -> inbound stream (c_recvRel c) n -> n + 1 <= 2147483648 - 12 ->
  Get (c_recvRel c) = None ->
  consumed ++ c_readBuf c = concat (map stream (seqZ 0 (r_packetID (c_recvRel c)))) ->
  exists c', absorb c cp = Some c' /\ inbound stream (c_recvRel c') (n + 1) /\
    Get (c_recvRel c') = None /\
    consumed ++ c_readBuf c' = concat (map stream (seqZ 0 (r_packetID (c_recvRel c')))).
Proof.
  intros Hfs Hin Hb Hg Ho. unfold absorb. cbn [c_recvRel with_send].
  assert (Hin1 : inbound stream (c_recvRel c) (n + 1)).
  { destruct Hin as [(buf & ? & ? & ?) ?]. constructor; [|done]. exists buf. split_and!; [done..|lia]. }
  destruct (Z.eqb_spec (cp_Opcode cp) OpAckV1) as [Hop|Hop]; cbn [negb].
  - destruct (drain_spec stream (with_send c (Ack (c_sendRel c) (cp_Acks cp))) (n + 1) consumed)
      as (r' & out' & E & H1 & H2 & H3); try done.
    rewrite E. by exists (with_recv (with_send c (Ack (c_sendRel c) (cp_Acks cp))) r' out').
  - destruct (Hfs Hop) as [Hid Hpl]. destruct Hin as [(buf & Hm & Hs & Hle) Hz].
    pose proof (rm_floor _ _ Hm) as H0. unfold NRecBuffers in Hz.
    pose proof (Put_refines (c_recvRel c) buf (cp_PacketID cp) (cp_Payload cp) Hm
      ltac:(unfold no_wrap; lia) Hid) as HP.
    destruct (Put (c_recvRel c) (cp_PacketID cp) (cp_Payload cp)) as [res rel] eqn:EP.
    assert (Hrel : inbound stream rel (n + 1) /\ r_packetID rel = r_packetID (c_recvRel c)).
    { unfold spec_put in HP. destruct ((cp_PacketID cp <? _) || _); [|destruct (decide _)];
        destruct HP as (_ & Hm' & Hf & Hz'); (split; [|done]).
      1,2: constructor; [exists buf; split_and!; [done|done|lia]|by rewrite Hz'].
      constructor; [|by rewrite Hz']. exists (<[cp_PacketID cp := cp_Payload cp]> buf).
      split_and!; [done| |rewrite map_size_insert_None by (by apply eq_None_not_Some); lia].
      intros i p [[<- <-]|[_ Hi]]%lookup_insert_Some; [done|by apply Hs]. }
    destruct Hrel as [Hrel Hf].
    destruct res.
    { eexists. split; [reflexivity|]. cbn [c_recvRel with_recv c_readBuf with_send].
      split_and!; [done| |by rewrite Hf].
      unfold spec_put in HP. destruct ((cp_PacketID cp <? _) || _); [|destruct (decide _); by destruct HP as [? _]].
      unfold Put in EP.
      repeat match type of EP with context [if ?b then _ else _] => destruct b
             | context [match ?x with Some _ => _ | None => _ end] => destruct x end;
        by simplify_eq. }
    all: match goal with |- exists c', drain ?cc = _ /\ _ =>
      destruct (drain_spec stream cc (n + 1) consumed) as (r' & out' & E & H1 & H2 & H3);
        [done|done|by cbn; rewrite Hf|]; rewrite E; by exists (with_recv cc r' out') end.
Qed.

(** ** Runs of a connection *)

(** The receive side of a connection: what outbound operations leave alone. *)
Definition recv_side (c : Conn) : Reliable * bytes := (c_recvRel c, c_readBuf c).

Section runs.
Context `{!TLSCryptPrims}.

Lemma buildControlPacket_frame (env : Env) (c : Conn) (op id : Z) (pl : bytes) :
  recv_side (snd (buildControlPacket env c op id pl)) = recv_side c.
Proof. unfold buildControlPacket. destruct (Drain _), (Wrap _ _ _ _ _ _). done. Qed.

Lemma flushAckOnly_frame (env : Env) (c : Conn) :
  recv_side (fst (flushAckOnly env c)) = recv_side c.
Proof.
  unfold flushAckOnly. destruct (negb _); [done|].
  pose proof (buildControlPacket_frame env c OpAckV1 0 []) as Hf.
  destruct (buildControlPacket env c OpAckV1 0 []) as [[] c']; done.
Qed.

Lemma writeChunk_frame (env : Env) (c c' : Conn) (op : Z) (pl : bytes) (r : chunk_result)
    (sent : list bytes) :
  writeChunk env c op pl = (r, c', sent) -> recv_side c' = recv_side c.
Proof.
  unfold writeChunk. destruct (waitForSendSlot env c) as [idx| |]; [|by intros [= _ <- _]..].
  destruct (MarkActive (c_sendRel c) idx) as [[id rel]|]; [|by intros [= _ <- _]].
  pose proof (buildControlPacket_frame env (with_send c rel) op id pl) as Hf.
  destruct (buildControlPacket env (with_send c rel) op id pl) as [[w| |] c1]; cbn [snd] in Hf;
    [|intros [= _ <- _]; exact Hf..].
  destruct (SetPayload (c_sendRel c1) idx w); intros [= _ <- _]; exact Hf.
Qed.

Lemma writeLoop_frame (fuel : nat) (env : nat -> Env) (c c' : Conn) (p : bytes) (n : Z)
    (r : write_result) (sent : list bytes) :
  writeLoop fuel env c p n = (r, c', sent) -> recv_side c' = recv_side c.
Proof.
  revert env c c' p n r sent. induction fuel as [|fuel IH]; intros env c c' p n r sent Hw;
    cbn [writeLoop] in Hw; (destruct p as [|b p]; [by simplify_eq|]); [by simplify_eq|].
  destruct (writeChunk (env 0%nat) c OpControlV1 (chunkOf (b :: p))) as [[cr c1] s1] eqn:E.
  apply writeChunk_frame in E.
  destruct cr as [[[]| |]|]; try (injection Hw as _ <- _; exact E).
  destruct (writeLoop fuel _ c1 _ _) as [[r2 c2] s2] eqn:E2. apply IH in E2.
  injection Hw as _ <- _. by rewrite E2.
Qed.

Inductive conn_op :=
  | COpDeliver (env : Env) (cp : ControlPacket)
  | COpRead (now : Z) (n : nat)
  | COpWrite (env : nat -> Env) (p : bytes)
  | COpReset (env : Env) (opcode : Z)
  | COpClose.

(** The bytes [Read] returned, the datagrams sent, the state left behind;
    [None] would be a method that does not return. *)
Definition conn_step (c : Conn) (op : conn_op) : option (bytes * list bytes * Conn) :=
  match op with
  | COpDeliver env cp => '(c, sent) ← Deliver env c cp; Some ([], sent, c)
  | COpRead now n =>
      let '(res, c) := Read now c n in
      Some (match res with ReadOk data => data | _ => [] end, [], c)
  | COpWrite env p => let '(_, c, sent) := Write env c p in Some ([], sent, c)
  | COpReset env opcode => let '(_, c, sent) := SendReset env c opcode in Some ([], sent, c)
  | COpClose => Some ([], [], Close c)
  end.

Fixpoint conn_run (c : Conn) (ops : list conn_op) : option (bytes * list bytes * Conn) :=
  match ops with
  | [] => Some ([], [], c)
  | op :: ops =>
      '(out, sent, c) ← conn_step c op;
      '(out', sent', c') ← conn_run c ops;
      Some (out ++ out', sent ++ sent', c')
  end.

Definition op_delivers (stream : Z -> bytes) (op : conn_op) : Prop :=
  match op with COpDeliver _ cp => from_stream stream cp | _ => True end.

(** The state of the inbound stream: what was read and what is buffered is the
    concatenation of the packets below the floor, and the packet at the floor
    has not arrived. *)
Record stream_at (stream : Z -> bytes) (consumed : bytes) (c : Conn) (n : Z) : Prop := {
  sa_in : inbound stream (c_recvRel c) n;
  sa_get : Get (c_recvRel c) = None;
  sa_bytes : consumed ++ c_readBuf c = concat (map stream (seqZ 0 (r_packetID (c_recvRel c))));
}.

Lemma stream_at_frame (stream : Z -> bytes) (consumed : bytes) (c c' : Conn) (n : Z) :
  recv_side c' = recv_side c -> stream_at stream consumed c n -> stream_at stream consumed c' n.
Proof. intros [= Hr Hb] [Q1 Q2 Q3]. constructor; by rewrite ?Hr, ?Hb. Qed.

Lemma stream_at_mono (stream : Z -> bytes) (consumed : bytes) (c : Conn) (n m : Z) :
  n <= m -> stream_at stream consumed c n -> stream_at stream consumed c m.
Proof.
  intros Hle [[(buf & ? & ? & ?) ?] Q2 Q3]. constructor; [|done|done].
  constructor; [|done]. exists buf. split_and!; [done..|lia].
Qed.

Lemma stream_at_read (stream : Z -> bytes) (consumed : bytes) (c : Conn) (n now : Z) (k : nat) :
  stream_at stream consumed c n ->
  let '(res, c') := Read now c k in
  stream_at stream (consumed ++ match res with ReadOk data => data | _ => [] end) c' n.
Proof.
  intros [Q1 Q2 Q3]. unfold Read. destruct (c_readBuf c) as [|b buf] eqn:E.
  - destruct (c_closed c); [|destruct (negb _ && _)]; rewrite app_nil_r; constructor; by rewrite ?E.
  - constructor; cbn [c_recvRel c_readBuf with_recv]; [done|done|].
    by rewrite <- (assoc_L (++)), take_drop.
Qed.

Lemma conn_step_stream (stream : Z -> bytes) (op : conn_op) (consumed : bytes) (c : Conn) (n : Z) :
  op_delivers stream op -> stream_at stream consumed c n -> n + 1 <= 2147483648 - 12 ->
  exists out sent c1, conn_step c op = Some (out, sent, c1) /\
    stream_at stream (consumed ++ out) c1 (n + 1).
Proof.
  intros Hop Hs Hb. destruct op as [env cp|now k|env p|env opc|]; cbn [conn_step].
  - destruct Hs as [Q1 Q2 Q3].
    destruct (absorb_stream stream c cp n consumed Hop Q1 ltac:(lia) Q2 Q3)
      as (c1 & E & G1 & G2 & G3).
    unfold Deliver. rewrite E. cbn [mbind option_bind].
    pose proof (flushAckOnly_frame env c1) as HF. destruct (flushAckOnly env c1) as [c2 s2].
    exists [], s2, c2. split; [done|]. rewrite app_nil_r.
    apply (stream_at_frame _ _ c1); [exact HF|by constructor].
  - pose proof (stream_at_read stream consumed c n now k Hs) as HR.
    destruct (Read now c k) as [res c1]. eexists _, _, _. split; [done|].
    eapply stream_at_mono; [|exact HR]. lia.
  - destruct (Write env c p) as [[r c1] s1] eqn:E. apply writeLoop_frame in E.
    exists [], s1, c1. rewrite app_nil_r. split; [done|].
    apply (stream_at_frame _ _ c); [done|]. eapply stream_at_mono; [|done]. lia.
  - destruct (SendReset env c opc) as [[r c1] s1] eqn:E. apply writeChunk_frame in E.
    exists [], s1, c1. rewrite app_nil_r. split; [done|].
    apply (stream_at_frame _ _ c); [done|]. eapply stream_at_mono; [|done]. lia.
  - exists [], [], (Close c). rewrite app_nil_r. split; [done|].
    apply (stream_at_frame _ _ c); [done|]. eapply stream_at_mono; [|done]. lia.
Qed.

Lemma conn_run_stream (stream : Z -> bytes) (ops : list conn_op) (consumed : bytes) (c : Conn)
    (n : Z) :
  Forall (op_delivers stream) ops -> stream_at stream consumed c n ->
  n + zlen ops <= 2147483648 - 12 ->
  exists out sent c', conn_run c ops = Some (out, sent, c') /\
    stream_at stream (consumed ++ out) c' (n + zlen ops).
Proof.
  intros Hops. revert consumed c n. induction Hops as [|op ops Hop _ IH]; intros consumed c n Hs Hb.
  { exists [], [], c. split; [done|]. rewrite app_nil_r, zlen_nil, Z.add_0_r. done. }
  rewrite zlen_cons in *. pose proof (zlen_nonneg ops).
  pose proof (conn_step_stream stream op consumed c n Hop Hs ltac:(lia)) as Hstep.
  destruct Hstep as (out & sent & c1 & E & Hs1).
  destruct (IH _ _ _ Hs1 ltac:(lia)) as (out' & sent' & c' & E' & Hs').
  exists (out ++ out'), (sent ++ sent'), c'. cbn [conn_run]. rewrite E. cbn [mbind option_bind].
  rewrite E'. split; [done|]. rewrite (assoc_L (++)).
  replace (n + (1 + zlen ops)) with (n + 1 + zlen ops) by lia. done.
Qed.

(** C10. The control channel delivers the peer's byte stream: on a new
    connection, through any run of arriving control packets (lost, duplicated,
    retransmitted, reordered, interleaved with acknowledgements), reads,
    writes, resets and closing, every method returns, and the bytes returned
    by [Read] followed by the bytes still buffered are exactly the payloads of
    the peer's packets 0, 1, ..., floor-1 in order, where [floor] is the first
    packet that has not arrived: nothing is lost, repeated, reordered or
    withheld. *)
Theorem ctrlconn_stream_delivery (stream : Z -> bytes) (localSID remoteSID : bytes) (w : Wrapper)
    (keyID : Z) (c0 : Conn) (ops : list conn_op) :
  NewWithKeyID localSID remoteSID w keyID = Some c0 ->
  Forall (op_delivers stream) ops -> zlen ops <= 2147483648 - 12 ->
  exists out sent c, conn_run c0 ops = Some (out, sent, c) /\
    out ++ c_readBuf c = concat (map stream (seqZ 0 (r_packetID (c_recvRel c)))) /\
    Get (c_recvRel c) = None.
Proof.
  intros HN Hops Hb. unfold NewWithKeyID in HN.
  destruct (New NSendBuffers) as [s0|] eqn:E0; [|done]. cbn [mbind option_bind] in HN.
  destruct (New NRecBuffers) as [r0|] eqn:E1; [|done]. cbn [mbind option_bind] in HN.
  apply (inj Some) in HN. subst c0. pose proof (New_shape _ _ E1) as (Hsh & Hz & Hp & Ha).
  destruct (conn_run_stream stream ops [] (mkConn localSID remoteSID w keyID s0 r0 [] [] false
    zeroTime zeroTime) 0 Hops) as (out & sent & c & E & [Q1 Q2 Q3]); [|done|].
  - constructor; cbn.
    + constructor; [|done]. exists ∅. split_and!; [by eapply New_recv_models|done|].
      rewrite Hp, map_size_empty. done.
    + unfold Get. rewrite (proj2 (findHolder_None _ _)); [done|]. rewrite Ha. apply not_elem_of_nil.
    + by rewrite Hp.
  - by exists out, sent, c.
Qed.

(** ** What the peer makes of the datagrams *)

(** A peer that authenticates a datagram and parses its body under the header
    in clear: the control packet in it. *)
Definition decode (peer : Wrapper) (datagram : bytes) : option ControlPacket :=
  match authenticate peer datagram, datagram with
  | Ok (_, plaintext), b :: rest =>
      let '(opcode, keyID) := ParseHeaderByte b in
      match ParseControlPacket plaintext (mkHeader opcode keyID (take 8 rest)) with
      | Ok cp => Some cp
      | _ => None
      end
  | _, _ => None
  end.

(** The packet as the parser returns it: without acks the remote session id is
    not on the wire. *)
Definition on_wire (c : Conn) (opcode id : Z) (acks : list Z) (payload : bytes) : ControlPacket :=
  mkControlPacket opcode (c_keyID c) (c_localSID c) acks
    (match acks with [] => zeroSessionID | _ => c_remoteSID c end) id payload.

Record conn_wf (c : Conn) : Prop := {
  wf_lsid : zlen (c_localSID c) = SessionIDSize;
  wf_rsid : zlen (c_remoteSID c) = SessionIDSize;
  wf_kid : 0 <= c_keyID c < 8;
  wf_ackids : Forall is_u32 (c_acks c);
  wf_send : send_inv (c_sendRel c);
}.

(** What an outbound operation may change of a connection. *)
Record same_peer (c c' : Conn) : Prop := {
  sp_lsid : c_localSID c' = c_localSID c;
  sp_rsid : c_remoteSID c' = c_remoteSID c;
  sp_kid : c_keyID c' = c_keyID c;
  sp_enc : w_encrypt (c_wrapper c') = w_encrypt (c_wrapper c);
}.

Context `{!TLSCryptLaws}.

Lemma Wrap_below_rollover (w : Wrapper) (now1 now2 : Z) (hdr pt : bytes) :
  zlen hdr = OffPID -> 0 <= w_sendSeq w < 4294967295 ->
  exists ts w', Wrap w now1 now2 [] hdr pt =
    (Ok (wrapWithPID w' [] hdr (be32 (w_sendSeq w + 1) ++ be32 ts) pt), w') /\
    w_encrypt w' = w_encrypt w /\ w_sendSeq w' = w_sendSeq w + 1.
Proof.
  intros Hh Hs. unfold Wrap. rewrite Hh, Z.eqb_refl. cbn [negb]. unfold nextPID.
  set (w1 := if w_sendTime w =? 0 then _ else _).
  assert (w_encrypt w1 = w_encrypt w /\ w_sendSeq w1 = w_sendSeq w) as [He Hq]
    by (unfold w1; by destruct (w_sendTime w =? 0)).
  rewrite Hq, (proj2 (Z.eqb_neq _ _)), (u32_id (w_sendSeq w + 1)) by (try unfold is_u32; lia).
  outcome_simpl. eexists _, _. split_and!; [reflexivity|exact He|reflexivity].
Qed.

(** A control packet that is built is understood by the peer, field by field. *)
Lemma buildControlPacket_decodes (env : Env) (c : Conn) (peer : Wrapper) (opcode id : Z)
    (payload : bytes) :
  conn_wf c -> ValidOpcode opcode = true -> is_u32 id -> (opcode = OpAckV1 -> id = 0) ->
  w_decrypt peer = w_encrypt (c_wrapper c) -> 0 <= w_sendSeq (c_wrapper c) < 4294967295 ->
  exists d c', buildControlPacket env c opcode id payload = (Ok d, c') /\
    decode peer d = Some (on_wire c opcode id (take AckSize (c_acks c)) payload) /\
    conn_wf c' /\ same_peer c c' /\ c_sendRel c' = c_sendRel c /\
    w_sendSeq (c_wrapper c') = w_sendSeq (c_wrapper c) + 1.
Proof.
  intros [Hl Hr Hk Ha Hsi] Hop Hid Hack Hkey Hseq. unfold buildControlPacket. rewrite Drain_split.
  destruct (header_byte_parse opcode (c_keyID c) Hop Hk) as (b & Hb & Hb8 & Hparse).
  cbn [c_keyID c_localSID c_wrapper with_acks]. rewrite Hb.
  set (hdr := [b] ++ c_localSID c).
  assert (Hhdr : zlen hdr = OffPID) by (unfold hdr; rewrite zlen_app, Hl; done).
  set (cp := on_wire c opcode id (take AckSize (c_acks c)) payload).
  assert (Hpt : AppendPlaintext (packetOf (with_acks c (drop AckSize (c_acks c))) opcode id
    (take AckSize (c_acks c)) payload) [] = AppendPlaintext cp []).
  { unfold cp, on_wire, AppendPlaintext, packetOf.
    cbn [cp_Acks cp_RemoteSessionID cp_Opcode cp_PacketID cp_Payload with_acks c_remoteSID].
    by destruct (take AckSize (c_acks c)). }
  rewrite Hpt. clear Hpt.
  destruct (Wrap_below_rollover (c_wrapper c) (env_unix1 env) (env_unix2 env) hdr
    (AppendPlaintext cp []) Hhdr Hseq) as (ts & w' & E & He & Hs'). rewrite E. cbn [lift_wrap].
  eexists _, _. split_and!; [reflexivity| | |by constructor|done|done].
  2:{ constructor; cbn; [done|done|done| |done]. by apply Forall_drop. }
  destruct (wrapped_packet w' peer hdr (AppendPlaintext cp []) (w_sendSeq (c_wrapper c) + 1) ts)
    as (G1 & G2 & G3 & G4 & G5); [by rewrite He, Hkey|done|unfold is_u32; lia|].
  set (d := wrapWithPID _ _ _ _ _) in *. unfold decode. rewrite authenticate_verdict, G2, G3.
  rewrite (proj2 (Z.ltb_ge _ 49)) by done.
  destruct d as [|b' rest] eqn:Ed; [done|].
  change (take 9 (b' :: rest)) with (b' :: take 8 rest) in G5.
  unfold hdr in G5. injection G5 as -> G5. rewrite G5, Hparse.
  change (mkHeader opcode (c_keyID c) (c_localSID c)) with (header_of cp).
  rewrite parse_print; [done|]. subst cp. unfold on_wire.
  constructor; cbn [cp_Acks cp_RemoteSessionID cp_Opcode cp_PacketID]; try done.
  - unfold zlen, MaxAcks. rewrite length_take. unfold AckSize. lia.
  - by apply Forall_take.
  - by destruct (take AckSize (c_acks c)).
  - intros ->. done.
Qed.

(** Either the window has a free slot and the chunk goes out under the next
    packet id, or nothing happens. *)
Lemma writeChunk_spec (env : Env) (c : Conn) (peer : Wrapper) (opcode : Z) (payload : bytes) :
  conn_wf c -> ValidOpcode opcode = true -> opcode <> OpAckV1 ->
  w_decrypt peer = w_encrypt (c_wrapper c) -> 0 <= w_sendSeq (c_wrapper c) < 4294967295 ->
  (forall d, env_tx env d = true) ->
  (exists r, (r = ChunkWait \/ exists e, r = ChunkDone (Err e)) /\
     writeChunk env c opcode payload = (r, c, [])) \/
  (exists d c', writeChunk env c opcode payload = (ChunkDone (Ok tt), c', [d]) /\
     decode peer d = Some (on_wire c opcode (r_packetID (c_sendRel c))
                             (take AckSize (c_acks c)) payload) /\
     conn_wf c' /\ same_peer c c' /\
     r_packetID (c_sendRel c') = r_packetID (c_sendRel c) +u32 1 /\
     w_sendSeq (c_wrapper c') = w_sendSeq (c_wrapper c) + 1).
Proof.
  intros Hwf Hop Hna Hkey Hseq Htx. unfold writeChunk, waitForSendSlot.
  destruct (Next (c_sendRel c)) as [idx|] eqn:EN.
  2:{ left. destruct (c_closed c); [|destruct (negb _ && _)]; eexists;
        (split; [|reflexivity]); eauto. }
  right. pose proof (wf_send _ Hwf) as Hsi.
  destruct (Next_Some _ _ Hsi EN) as [(e & Hi & _) _].
  destruct (slots_lookup _ _ _ Hi) as [Hlt Hei].
  destruct (MarkActive (c_sendRel c) idx) as [[id rel]|] eqn:EM.
  2:{ unfold MarkActive in EM. by rewrite Hei in EM. }
  destruct (MarkActive_inv _ _ _ _ Hsi EN EM) as (Hrel & Hid & _).
  assert (Hc1 : conn_wf (with_send c rel)) by (destruct Hwf; by constructor).
  destruct (buildControlPacket_decodes env (with_send c rel) peer opcode id payload Hc1 Hop
    ltac:(rewrite Hid; apply si_next, Hsi) ltac:(done) Hkey Hseq)
    as (d & c2 & E & Hd & Hwf2 & Hsp & Hs2 & Hq2).
  rewrite E, Hs2. cbn [c_sendRel with_send].
  assert (Hent : exists e', r_entries rel !! idx = Some e' /\ r_packetID rel = r_packetID (c_sendRel c) +u32 1).
  { unfold MarkActive in EM. rewrite Hei in EM. injection EM as _ <-. cbn [r_entries with_packetID with_entries r_packetID].
    eexists. split; [|done]. apply list_lookup_insert_eq. by eapply lookup_lt_Some. }
  destruct Hent as (e' & He' & Hpid). unfold SetPayload. rewrite He'. unfold transmit.
  rewrite Htx. eexists d, _. split_and!; [reflexivity|by rewrite Hid in Hd| | | |].
  - destruct Hwf2 as [? ? ? ? Hsi2]. constructor; try done. cbn. rewrite Hs2 in Hsi2.
    apply (send_step_inv rel); [exact Hsi2|]. apply (step_payload rel idx d). unfold SetPayload. by rewrite He'.
  - destruct Hsp. by constructor.
  - done.
  - done.
Qed.

(** The datagrams [sent] decode, in order, into data packets with consecutive
    ids from [id] on that carry [chunks]. *)
Fixpoint decodes_from (peer : Wrapper) (c : Conn) (id : Z) (sent chunks : list bytes) : Prop :=
  match sent, chunks with
  | [], [] => True
  | d :: sent, chunk :: chunks =>
      (exists acks, (length acks <= AckSize)%nat /\
         decode peer d = Some (on_wire c OpControlV1 id acks chunk)) /\
      decodes_from peer c (id +u32 1) sent chunks
  | _, _ => False
  end.

Lemma decodes_from_same (peer : Wrapper) (c c' : Conn) (id : Z) (sent chunks : list bytes) :
  same_peer c c' -> decodes_from peer c' id sent chunks -> decodes_from peer c id sent chunks.
Proof.
  intros [Hl Hr Hk _]. revert id chunks.
  induction sent as [|d sent IH]; intros id [|ch chunks] Hd; try done.
  destruct Hd as [(acks & Hn & Hd) Hrest]. split; [|by apply IH].
  exists acks. split; [done|]. rewrite Hd. unfold on_wire. by rewrite Hl, Hr, Hk.
Qed.

(** How far a call of [Write] on [p] got: [n] bytes after [written]. *)
Definition write_outcome (r : write_result) (p : bytes) (written : Z) (n : nat) : Prop :=
  match r with
  | WDone m => n = length p /\ m = written + zlen p
  | WFail m e => m = written + Z.of_nat n /\ exists e', e = Err e'
  | WWait m rest => m = written + Z.of_nat n /\ rest = drop n p
  | WFuel => False
  end.

Definition chunk_ok (chunk : bytes) : Prop := 0 < zlen chunk <= MaxPayload.

Lemma chunkOf_spec (p : bytes) :
  p <> [] -> chunk_ok (chunkOf p) /\ p = chunkOf p ++ drop (length (chunkOf p)) p.
Proof.
  intros Hp. assert (0 < zlen p).
  { destruct p; [done|]. rewrite zlen_cons. pose proof (zlen_nonneg p). lia. }
  unfold chunk_ok, chunkOf, MaxPayload. destruct (Z.ltb_spec 1150 (zlen p)).
  - rewrite zlen_take by lia. split; [lia|].
    rewrite length_take, Nat.min_l by (unfold zlen in *; lia). by rewrite take_drop.
  - split; [lia|]. by rewrite drop_all, app_nil_r.
Qed.

Lemma writeLoop_spec (fuel : nat) (env : nat -> Env) (c : Conn) (peer : Wrapper) (p : bytes)
    (written : Z) :
  conn_wf c -> w_decrypt peer = w_encrypt (c_wrapper c) ->
  (forall k d, env_tx (env k) d = true) -> (length p <= fuel)%nat ->
  0 <= w_sendSeq (c_wrapper c) -> w_sendSeq (c_wrapper c) + zlen p < 4294967296 ->
  let '(r, c', sent) := writeLoop fuel env c p written in
  exists n chunks, write_outcome r p written n /\
    concat chunks = take n p /\ Forall chunk_ok chunks /\
    decodes_from peer c (r_packetID (c_sendRel c)) sent chunks.
Proof.
  revert env c p written. induction fuel as [|fuel IH];
    intros env c p written Hwf Hkey Htx Hf Hs0 Hs; cbn [writeLoop];
    (destruct p as [|b p]; [exists 0%nat, []; split_and!;
      [split; [done|rewrite zlen_nil; lia]|done|constructor|done]|]);
    [cbn in Hf; lia|].
  destruct (chunkOf_spec (b :: p) ltac:(done)) as [Hok Hsplit].
  set (chunk := chunkOf (b :: p)) in *. set (bp := b :: p) in *.
  destruct (writeChunk_spec (env 0%nat) c peer OpControlV1 chunk Hwf eq_refl ltac:(done) Hkey)
    as [(r & Hr & E)|(d & c' & E & Hd & Hwf' & Hsp & Hpid & Hq)]; [|done| |].
  { unfold bp in Hs. rewrite zlen_cons in Hs. pose proof (zlen_nonneg p). lia. }
  - rewrite E. destruct Hr as [->|[e ->]]; exists 0%nat, [];
      (split_and!; [|done|constructor|done]); cbn; rewrite Z.add_0_r; eauto.
  - rewrite E. unfold chunk_ok in Hok.
    assert (Hlen : zlen bp = zlen chunk + zlen (drop (length chunk) bp))
      by (rewrite Hsplit at 1; by rewrite zlen_app).
    assert (Hlt : (length (drop (length chunk) bp) <= fuel)%nat) by (unfold zlen in *; lia).
    specialize (IH (fun k => env (S k)) c' (drop (length chunk) bp) (written + zlen chunk) Hwf').
    rewrite (sp_enc _ _ Hsp), Hq in IH. specialize (IH Hkey (fun k => Htx (S k)) Hlt).
    specialize (IH ltac:(lia) ltac:(pose proof (zlen_nonneg (drop (length chunk) bp)); lia)).
    destruct (writeLoop fuel _ c' _ _) as [[r c''] sent'].
    destruct IH as (n & chunks & Hout & Hcat & Hall & Hdec).
    exists (length chunk + n)%nat, (chunk :: chunks). split_and!.
    + unfold write_outcome in *. destruct r; try done.
      * destruct Hout as [-> ->]. unfold zlen in *. split; lia.
      * destruct Hout as [-> ?]. unfold zlen. split; [lia|done].
      * destruct Hout as [-> ->]. unfold zlen. rewrite drop_drop. split; [lia|done].
    + cbn [concat]. rewrite Hcat. rewrite Hsplit at 2.
      rewrite take_app_add. by f_equal.
    + by constructor.
    + cbn [app decodes_from]. split.
      * exists (take AckSize (c_acks c)). rewrite length_take. split; [lia|done].
      * rewrite <- Hpid. by eapply decodes_from_same.
Qed.

(** Fragmentation: over a transport that accepts datagrams, [Write] always
    reaches a return or a wait for a free slot, and the datagrams it emitted,
    authenticated and parsed by the peer, are data packets of this session
    with consecutive ids starting at the next one, at most 8 piggybacked
    acknowledgements each and non-empty payloads of at most 1150 bytes whose
    concatenation is exactly the part of the input reported as written. *)
Theorem Write_fragments (env : nat -> Env) (c : Conn) (peer : Wrapper) (p : bytes) :
  conn_wf c -> w_decrypt peer = w_encrypt (c_wrapper c) ->
  (forall k d, env_tx (env k) d = true) ->
  0 <= w_sendSeq (c_wrapper c) -> w_sendSeq (c_wrapper c) + zlen p < 4294967296 ->
  let '(r, c', sent) := Write env c p in
  exists n chunks, write_outcome r p 0 n /\
    concat chunks = take n p /\ Forall chunk_ok chunks /\
    decodes_from peer c (r_packetID (c_sendRel c)) sent chunks.
Proof. intros. by apply writeLoop_spec. Qed.

End runs.

(** ** Retransmission rounds *)

Lemma isDue_mono (now t : Z) (e : entry) : now <= t -> isDue now e = true -> isDue t e = true.
Proof.
  unfold isDue. intros Ht. rewrite !andb_true_iff, !orb_true_iff, !Z.leb_le.
  intros [? [?|?]]; (split; [done|]); [by left|right; lia].
Qed.

(** Every entry that is due by [t1] has a timeout above the length of the
    round that starts at [t0]. *)
Definition timeouts_outlast (t0 t1 : Z) (r : Reliable) : Prop :=
  Forall (fun e => isDue t1 e = true -> t1 - t0 < e_timeout e) (slots r).

(** [r'] is [r] after [Due] at [now] has picked its slot [i], which [t1] does not find due
    any more. *)
Definition picked (t1 now : Z) (r : Reliable) (i : nat) (pl : bytes) (r' : Reliable) : Prop :=
  exists e, slots r !! i = Some e /\ isDue now e = true /\ pl = e_payload e /\
    slots r' = <[i := backoff now e]> (slots r) /\ isDue t1 (backoff now e) = false.

Lemma Due_round_progress (r r' : Reliable) (t0 t1 now : Z) (pl : bytes) (id : Z) :
  send_inv r -> t0 <= now <= t1 -> timeouts_outlast t0 t1 r -> Due r now = Some (pl, id, r') ->
  countDue t1 r = S (countDue t1 r') /\ timeouts_outlast t0 t1 r' /\ exists i, picked t1 now r i pl r'.
Proof.
  intros Hinv Hnow Hpos HD. pose proof (Due_cases r now Hinv) as HC. rewrite HD in HC.
  destruct HC as (i & e & Hi & Hdue & Hpl & _ & -> & _).
  destruct (slots_lookup _ _ _ Hi) as [Hlt _].
  assert (Hdue1 : isDue t1 e = true) by (eapply isDue_mono; [|done]; lia).
  pose proof (proj1 (Forall_lookup _ _) Hpos _ _ Hi Hdue1) as Ht.
  assert (Hnd : isDue t1 (backoff now e) = false).
  { unfold isDue, backoff, NAckRetransmit. cbn.
    rewrite (proj2 (Z.leb_gt _ _)) by lia. by rewrite andb_false_r. }
  unfold countDue, timeouts_outlast, picked. rewrite slots_insert by done. split_and!.
  - eapply filter_split; [exact Hi|done|]. by rewrite Hnd.
  - apply Forall_insert; [done|]. by rewrite Hnd.
  - exists i, e. by split_and!.
Qed.

(** What a round did: [idx] are the slots whose packets were sent, in order.  Each of them
    was sent once, was due in the round and is backed off from the time it was picked;
    every other slot is as it was, and was not due when the round looked at it last. *)
Record round_done (now : nat -> Z) (t1 : Z) (r : Reliable) (idx : list nat) (sent : list bytes) (r' : Reliable) : Prop := {
  rd_once : NoDup idx;
  rd_due : Forall2 (fun i pl => exists e, slots r !! i = Some e /\ isDue t1 e = true /\ pl = e_payload e) idx sent;
  rd_sent : forall i e, i ∈ idx -> slots r !! i = Some e -> exists k, slots r' !! i = Some (backoff (now k) e);
  rd_kept : forall i, i ∉ idx -> slots r' !! i = slots r !! i;
  rd_rest : exists k, Due r' (now k) = None;
}.

Lemma round_done_nil (now : nat -> Z) (t1 : Z) (r : Reliable) : Due r (now 0%nat) = None -> round_done now t1 r [] [] r.
Proof. intros HD. constructor; [constructor|constructor|by intros i e ?%elem_of_nil|done|by exists 0%nat]. Qed.

Lemma round_done_cons (now : nat -> Z) (t1 : Z) (r r1 r' : Reliable) (i : nat) (pl : bytes) (idx : list nat) (sent : list bytes) :
  now 0%nat <= t1 -> picked t1 (now 0%nat) r i pl r1 -> round_done (fun k => now (S k)) t1 r1 idx sent r' ->
  round_done now t1 r (i :: idx) (pl :: sent) r'.
Proof.
  intros Ht (e & Hi & Hd & -> & Hs & Hn) [H1 H2 H3 H4 [k H5]].
  pose proof (lookup_lt_Some _ _ _ Hi) as Hlt.
  assert (Hni : i ∉ idx).
  { intros Hin. apply list_elem_of_lookup in Hin as [j Hj]. destruct (Forall2_lookup_l _ _ _ _ _ H2 Hj) as (p & _ & e' & He & Hd' & _).
    rewrite Hs, list_lookup_insert_eq in He by done. injection He as <-. by rewrite Hn in Hd'. }
  assert (Hother : forall j, j <> i -> slots r1 !! j = slots r !! j) by (intros j Hj; by rewrite Hs, list_lookup_insert_ne).
  constructor.
  - by constructor.
  - constructor; [exists e; split_and!; [done|by eapply isDue_mono|done]|].
    eapply Forall2_impl; [apply Forall2_same_length_lookup_2|]; [by eapply Forall2_length|intros j x y Hx Hy; exact (conj (list_elem_of_lookup_2 _ _ _ Hx) (Forall2_lookup_lr _ _ _ _ _ _ H2 Hx Hy))|].
    intros j p [Hj (e' & He & Hr)]. exists e'. rewrite <- Hother by (by intros ->). by split.
  - intros j e' [->|Hj]%elem_of_cons He.
    + rewrite Hi in He. injection He as <-. exists 0%nat. rewrite H4, Hs by done. by apply list_lookup_insert_eq.
    + rewrite <- Hother in He by (by intros ->). destruct (H3 j e' Hj He) as [k' Hk]. by exists (S k').
  - intros j [Hj1 Hj2]%not_elem_of_cons. rewrite H4 by done. by apply Hother.
  - by exists (S k).
Qed.

Lemma retransmitTick_ends (fuel : nat) (now : nat -> Z) (t0 t1 : Z) (r : Reliable) :
  send_inv r -> (forall k, t0 <= now k <= t1) -> timeouts_outlast t0 t1 r ->
  (countDue t1 r < fuel)%nat ->
  exists r' idx sent, retransmitTick fuel now r = Some (r', sent) /\
    (length sent <= countDue t1 r)%nat /\ send_inv r' /\ activeIDs r' ≡ₚ activeIDs r /\
    round_done now t1 r idx sent r'.
Proof.
  revert now r. induction fuel as [|fuel IH]; intros now r Hinv Hnow Hpos Hf; [lia|].
  cbn [retransmitTick]. destruct (Due r (now 0%nat)) as [[[pl id] r1]|] eqn:E.
  2:{ exists r, [], []. split_and!; [done|cbn; lia|done|done|by apply round_done_nil]. }
  destruct (Due_round_progress r r1 t0 t1 _ pl id Hinv (Hnow 0%nat) Hpos E) as (Hc & Hpos1 & i & Hp).
  destruct (Due_inv _ _ _ _ _ Hinv E) as [Hinv1 Hids].
  destruct (IH (fun k => now (S k)) r1 Hinv1 (fun k => Hnow (S k)) Hpos1 ltac:(lia))
    as (r' & idx & sent & -> & Hn & Hi & Hids' & Hr). cbn [mbind option_bind].
  exists r', (i :: idx), (pl :: sent). split_and!; [done|cbn; lia|done|by rewrite Hids'|].
  eapply round_done_cons; [apply Hnow|exact Hp|exact Hr].
Qed.

(** Nothing that was due when the round began is left unsent. *)
Lemma round_done_all (now : nat -> Z) (t0 t1 : Z) (r r' : Reliable) (idx : list nat) (sent : list bytes) (i : nat) (e : entry) :
  send_inv r' -> (forall k, t0 <= now k <= t1) -> round_done now t1 r idx sent r' ->
  slots r !! i = Some e -> isDue t0 e = true -> i ∈ idx.
Proof.
  intros Hinv Hnow [_ _ _ H4 [k H5]] Hi Hd. destruct (decide (i ∈ idx)) as [|Hn]; [done|]. exfalso.
  pose proof (Due_cases r' (now k) Hinv) as HC. rewrite H5 in HC. rewrite <- (H4 i Hn) in Hi.
  pose proof (proj1 (Forall_lookup _ _) HC _ _ Hi) as Hf. cbn in Hf.
  rewrite (isDue_mono t0 (now k) e) in Hf; [done|apply Hnow|done].
Qed.

Lemma countDue_le (t : Z) (r : Reliable) : shape r -> (countDue t r <= r_size r)%nat.
Proof.
  intros Hs. unfold countDue. rewrite <- (slots_length r Hs). apply length_filter.
Qed.

(** C35. A retransmission round ends: when the clock moves during the round by
    less than the timeouts of the entries due in it, the inner loop of
    [retransmitLoop] sends the packet of a slot at most once and only when it is
    due, hence at most as many datagrams as the window has slots; it sends every
    packet that was due when the round began, leaves those it does not send as
    they were and the others backed off from the time they were picked, keeps
    every outstanding packet outstanding, and stops with nothing left due. *)
Theorem retransmit_round_ends (now : nat -> Z) (t0 t1 : Z) (r : Reliable) :
  send_inv r -> (forall k, t0 <= now k <= t1) -> timeouts_outlast t0 t1 r ->
  exists r' idx sent, retransmitTick (S (r_size r)) now r = Some (r', sent) /\
    (length sent <= r_size r)%nat /\ send_inv r' /\ activeIDs r' ≡ₚ activeIDs r /\
    (* the slots sent from, in order *)
    NoDup idx /\
    Forall2 (fun i pl => exists e, slots r !! i = Some e /\ isDue t1 e = true /\ pl = e_payload e) idx sent /\
    (forall i e, slots r !! i = Some e -> isDue t0 e = true -> i ∈ idx) /\
    (forall i e, i ∈ idx -> slots r !! i = Some e -> exists k, slots r' !! i = Some (backoff (now k) e)) /\
    (forall i, i ∉ idx -> slots r' !! i = slots r !! i) /\
    exists k, Due r' (now k) = None.
Proof.
  intros Hinv Hnow Hpos. pose proof (countDue_le t1 r (si_shape _ Hinv)) as Hc.
  destruct (retransmitTick_ends (S (r_size r)) now t0 t1 r Hinv Hnow Hpos ltac:(lia))
    as (r' & idx & sent & E & Hn & Hi & Hids & Hr). pose proof (fun i e => round_done_all now t0 t1 r r' idx sent i e Hi Hnow Hr) as Hall.
  exists r', idx, sent. destruct Hr. split_and!; by try lia.
Qed.

(** An outstanding packet whose timeout has overflowed to zero. *)
Definition stuck (now : Z) (r : Reliable) : Prop :=
  Exists (fun e => e_timeout e = 0 /\ isDue now e = true) (slots r).

Lemma stuck_step (r : Reliable) (now : Z) :
  send_inv r -> stuck now r ->
  exists pl id r', Due r now = Some (pl, id, r') /\ send_inv r' /\ stuck now r'.
Proof.
  intros Hinv Hst. pose proof (Due_cases r now Hinv) as HC.
  destruct (Due r now) as [[[pl id] r']|] eqn:E.
  2:{ exfalso. apply Exists_exists in Hst as (e & Hin & _ & Hd).
      by rewrite (proj1 (Forall_forall _ _) HC e Hin) in Hd. }
  exists pl, id, r'. destruct (Due_inv _ _ _ _ _ Hinv E) as [Hinv' _].
  split_and!; [done|done|].
  destruct HC as (i & e & Hi & Hdue & _ & _ & -> & _).
  destruct (slots_lookup _ _ _ Hi) as [Hlt _]. unfold stuck. rewrite slots_insert by done.
  pose proof (lookup_lt_Some _ _ _ Hi) as Hlen.
  apply Exists_exists in Hst as (e0 & Hin & Ht & Hd).
  apply list_elem_of_lookup in Hin as [j Hj]. apply Exists_exists.
  destruct (decide (i = j)) as [<-|Hne].
  - rewrite Hi in Hj. injection Hj as <-. exists (backoff now e).
    split; [apply list_elem_of_lookup; exists i; by apply list_lookup_insert_eq|].
    split; [unfold backoff; cbn; by rewrite Ht|].
    unfold isDue, backoff in *. cbn. rewrite Ht, Z.add_0_r, Z.leb_refl.
    by destruct (e_active e).
  - exists e0. split; [|done]. apply list_elem_of_lookup. exists j.
    by rewrite list_lookup_insert_ne.
Qed.

Lemma stuck_mono (now t : Z) (r : Reliable) : now <= t -> stuck now r -> stuck t r.
Proof.
  intros Ht Hst. unfold stuck in *. eapply Exists_impl; [exact Hst|].
  intros e [H1 H2]. split; [done|]. by eapply isDue_mono.
Qed.

(** Exponential backoff has no ceiling and its 64-bit duration overflows
    to zero after 54 doublings; from then on the retransmission round never
    ends: with an outstanding packet whose timeout is zero, under a clock that
    never goes back, the inner loop of [retransmitLoop] keeps sending without
    bound (and without looking at the close channel), whatever the number of
    iterations. *)
Theorem retransmit_round_spins (fuel : nat) (now : nat -> Z) (r : Reliable) :
  send_inv r -> (forall k, now k <= now (S k)) -> stuck (now 0%nat) r ->
  retransmitTick fuel now r = None.
Proof.
  revert now r. induction fuel as [|fuel IH]; intros now r Hinv Hmono Hst; [done|].
  cbn [retransmitTick].
  destruct (stuck_step r (now 0%nat) Hinv Hst) as (pl & id & r' & -> & Hinv' & Hst').
  rewrite IH; [done|done|intros k; apply Hmono|].
  by apply (stuck_mono (now 0%nat)).
Qed.

(** ** Witnesses *)

#[local] Existing Instances Toy.prims Toy.laws.

Module ToyConn.
Definition env : Env := mkEnv 1000 5 5 (fun _ => true).
Definition wrapper (server : bool) : Wrapper :=
  let k0 := mkKeySlot (replicate 32 1) (replicate 32 2) in
  let k1 := mkKeySlot (replicate 32 3) (replicate 32 4) in
  if server then mkWrapper k0 k1 0 0 0 zeroReplayWindow
  else mkWrapper k1 k0 0 0 0 zeroReplayWindow.
Definition conn : Conn :=
  mkConn (replicate 8 1) (replicate 8 2) (wrapper true) 0 send0 recv0 [] [] false 0 0.
Definition stream (id : Z) : bytes := [id; id + 1].
Definition packet (id : Z) : ControlPacket :=
  mkControlPacket OpControlV1 0 (replicate 8 2) [] zeroSessionID id (stream id).
(** A peer that acknowledges, three times per call of [Due], a packet never
    sent. *)
Definition forge (r : Reliable) : Reliable :=
  let r := Ack r [4294967295; 4294967295; 4294967295] in
  match Due r 1000 with Some (_, _, r') => r' | None => r end.
Definition forged : Reliable := Nat.iter 54 forge send1.
End ToyConn.

Lemma ctrlconn_stream_delivery_witness :
  exists out sent c,
    conn_run ToyConn.conn [COpDeliver ToyConn.env (ToyConn.packet 1);
      COpDeliver ToyConn.env (ToyConn.packet 0); COpRead 0 3; COpDeliver ToyConn.env (ToyConn.packet 0)]
      = Some (out, sent, c) /\ out = [0; 1; 1] /\ length sent = 2%nat /\
    out ++ c_readBuf c =
      concat (map ToyConn.stream (seqZ 0 (r_packetID (c_recvRel c)))) /\ Get (c_recvRel c) = None.
Proof.
  destruct (ctrlconn_stream_delivery ToyConn.stream (replicate 8 1) (replicate 8 2)
    (ToyConn.wrapper true) 0 ToyConn.conn [COpDeliver ToyConn.env (ToyConn.packet 1);
      COpDeliver ToyConn.env (ToyConn.packet 0); COpRead 0 3;
      COpDeliver ToyConn.env (ToyConn.packet 0)]) as (out & sent & c & E & H).
  - reflexivity.
  - repeat constructor; cbn; lia.
  - vm_compute. discriminate.
  - exists out, sent, c. split; [done|]. vm_compute in E. injection E as <- <- <-.
    split_and!; [reflexivity|reflexivity|apply H..].
Defined.

Lemma Write_fragments_witness :
  let '(r, c', sent) := Write (fun _ => ToyConn.env) ToyConn.conn (replicate 1200 7) in
  exists n chunks, write_outcome r (replicate 1200 7) 0 n /\
    concat chunks = take n (replicate 1200 7) /\ Forall chunk_ok chunks /\
    decodes_from (ToyConn.wrapper false) ToyConn.conn 0 sent chunks.
Proof.
  apply (Write_fragments (fun _ => ToyConn.env) ToyConn.conn (ToyConn.wrapper false)
    (replicate 1200 7)); [|reflexivity|done|vm_compute; discriminate|reflexivity].
  constructor; [reflexivity|reflexivity|cbn; lia|constructor|].
  by apply (New_send_inv NSendBuffers).
Defined.

Lemma send1_inv : send_inv send1.
Proof.
  assert (H0 : send_inv send0) by (by apply (New_send_inv NSendBuffers)).
  destruct send1_reachable as [_ Hr]. revert H0. induction Hr as [|x y z Hxy _ IH]; [done|].
  intros Hx. by apply IH, (send_step_inv x).
Qed.

Lemma retransmit_round_ends_witness :
  exists r' idx sent, retransmitTick 7 (fun k => 1000) send1 = Some (r', sent) /\ NoDup idx /\ length idx = length sent /\
    (forall i e, slots send1 !! i = Some e -> isDue 1000 e = true -> i ∈ idx) /\ Due r' 1000 = None.
Proof.
  destruct (retransmit_round_ends (fun _ => 1000) 1000 1000 send1) as (r' & idx & sent & E & _ & _ & _ & H1 & H2 & H3 & _ & _ & _ & H4).
  - apply send1_inv.
  - intros; lia.
  - unfold timeouts_outlast. repeat (constructor; [vm_compute; intros; first [reflexivity|discriminate]|]).
    constructor.
  - exists r', idx, sent. split_and!; [exact E|exact H1|by eapply Forall2_length|exact H3|exact H4].
Defined.

Lemma forge_inv (r : Reliable) : send_inv r -> send_inv (ToyConn.forge r).
Proof.
  intros Hinv. unfold ToyConn.forge.
  assert (Ha : send_inv (Ack r [4294967295; 4294967295; 4294967295]))
    by (apply (send_step_inv r); [done|constructor]).
  destruct (Due _ 1000) as [[[pl id] r']|] eqn:E; [|done]. by destruct (Due_inv _ _ _ _ _ Ha E).
Qed.

(** After 54 retransmissions forced by forged acknowledgements, within any
    amount of time, the next round never ends. *)
Lemma retransmit_round_spins_witness :
  stuck 1000 ToyConn.forged /\
  forall fuel, retransmitTick fuel (fun _ => 1000) ToyConn.forged = None.
Proof.
  assert (Hst : stuck 1000 ToyConn.forged).
  { unfold stuck. apply Exists_exists. exists (nth 0 (slots ToyConn.forged) zeroEntry).
    split; [apply list_elem_of_In, nth_In; vm_compute; lia|vm_compute; split; reflexivity]. }
  assert (Hinv : send_inv ToyConn.forged).
  { unfold ToyConn.forged. generalize 54%nat as n.
    induction n as [|n IH]; [apply send1_inv|]. cbn [Nat.iter nat_rect]. by apply forge_inv. }
  split; [exact Hst|]. revert Hst Hinv. generalize ToyConn.forged. intros r Hst Hinv fuel.
  apply (retransmit_round_spins fuel (fun _ => 1000) r Hinv); [intros; lia|exact Hst].
Defined.

End CtrlConn.
