(* ===== verification/IpPool.v ===== *)
(** * IpPool: tunnel addresses and peer ids

    Model of [ippool.go]: the allocator of tunnel IPv4 addresses and peer ids.
    An address is a byte list as a Go [net.IP] is (4 or 16 bytes); a pool keeps
    the network address and size as 32-bit words and the two maps of used
    offsets and used peer ids as finite sets.  Every method runs under the
    pool's mutex (the validation [reserve] does before taking it reads only the
    immutable fields), so each is one function on the state. *)

From stdpp Require Import gmap.
From S2P Require Import Prelude.

Module IpPool.

Definition maxPeerID : Z := 16777215.

Inductive pool_error :=
  | ErrNetworkNil | ErrNotIPv4Network | ErrTooSmall
  | ErrPoolExhausted
  | errAssignIPNotIPv4 | errAssignIPOutsideNetwork | errAssignIPReserved | errAssignIPInUse.

#[export] Instance pool_error_eq_dec : EqDecision pool_error.
Proof. solve_decision. Defined.

(** ** [net.IP] and [net.IPMask] *)

(** [ip.To4()]: [None] is nil. *)
Definition to4 (ip : bytes) : option bytes :=
  if (length ip =? 4)%nat then Some ip
  else if (length ip =? 16)%nat && bool_decide (take 12 ip = replicate 10 0 ++ [255; 255])
  then Some (drop 12 ip)
  else None.

(** The leading one bits of a byte and whether zeros only follow. *)
Fixpoint leading_ones (fuel : nat) (v n : Z) : option Z :=
  match fuel with
  | O => if v =? 0 then Some n else None
  | S fuel =>
      if negb (Z.land v 128 =? 0) then leading_ones fuel (u8 (Z.shiftl v 1)) (n + 1)
      else if v =? 0 then Some n else None
  end.

(** The loop of [mask.Size()]: [None] for a mask that is not ones then zeros. *)
Fixpoint mask_ones (mask : bytes) (n : Z) : option Z :=
  match mask with
  | [] => Some n
  | v :: rest =>
      if v =? 255 then mask_ones rest (n + 8)
      else if forallb (Z.eqb 0) rest then leading_ones 8 v n else None
  end.

Definition mask_Size (mask : bytes) : Z * Z :=
  match mask_ones mask 0 with
  | Some ones => (ones, zlen mask * 8)
  | None => (0, 0)
  end.

Record IPNet := mkIPNet { net_IP : bytes; net_Mask : bytes }.

(** ** The pool *)

Record ipPool := mkIpPool {
  p_base : Z;
  p_size : Z;
  p_usedIPs : gset Z;
  p_usedPeerIDs : gset Z;
}.

Definition normalizeIPv4Mask (mask : bytes) : bytes :=
  if (length mask =? 16)%nat then drop 12 mask else mask.

Definition newIPPool (network : option IPNet) : outcome pool_error ipPool :=
  match network with
  | None => Err ErrNetworkNil
  | Some network =>
      match to4 (net_IP network) with
      | None => Err ErrNotIPv4Network
      | Some ip4 =>
          let mask := normalizeIPv4Mask (net_Mask network) in
          if negb (zlen mask =? 4) then Err ErrNotIPv4Network else
          let '(ones, bits) := mask_Size mask in
          if negb (bits =? 32) then Err ErrNotIPv4Network else
          let size := u32 (Z.shiftl 1 (32 - ones)) in
          if size <? 4 then Err ErrTooSmall else
          base ← get_u32 ip4;
          Ok (mkIpPool base size ∅ ∅)
      end
  end.

Definition offsetToIP (v : Z) : bytes := be32 v.

Definition serverIP (p : ipPool) : bytes := offsetToIP (p_base p +u32 1).

(** The loops [for o := from; o < limit; o++]: the first value not in [used].
    Every round but the last visits a used value, so one round more than there
    are used values is enough. *)
Fixpoint scan (fuel : nat) (used : gset Z) (o limit : Z) : option Z :=
  match fuel with
  | O => None
  | S fuel =>
      if o <? limit then if bool_decide (o ∈ used) then scan fuel used (o +u32 1) limit else Some o
      else None
  end.

Definition nextFreeOffset (p : ipPool) : option Z :=
  scan (S (size (p_usedIPs p))) (p_usedIPs p) 2 (p_size p -u32 1).

Definition nextFreePeerID (p : ipPool) : option Z :=
  scan (S (size (p_usedPeerIDs p))) (p_usedPeerIDs p) 0 (maxPeerID + 1).

Definition mark (p : ipPool) (offset peerID : Z) : ipPool :=
  mkIpPool (p_base p) (p_size p) ({[offset]} ∪ p_usedIPs p) ({[peerID]} ∪ p_usedPeerIDs p).

Definition allocate (p : ipPool) : outcome pool_error (bytes * Z) * ipPool :=
  match nextFreeOffset p with
  | None => (Err ErrPoolExhausted, p)
  | Some offset =>
      match nextFreePeerID p with
      | None => (Err ErrPoolExhausted, p)
      | Some peerID => (Ok (offsetToIP (p_base p +u32 offset), peerID), mark p offset peerID)
      end
  end.

Definition reserve (p : ipPool) (ip : bytes) : outcome pool_error Z * ipPool :=
  match to4 ip with
  | None => (Err errAssignIPNotIPv4, p)
  | Some ip4 =>
      match get_u32 ip4 with
      | Err e => (Err e, p)
      | Panic => (Panic, p)
      | Ok v =>
          if v <? p_base p then (Err errAssignIPOutsideNetwork, p) else
          let offset := v -u32 p_base p in
          if p_size p <=? offset then (Err errAssignIPOutsideNetwork, p) else
          if (offset =? 0) || (offset =? 1) || (offset =? p_size p -u32 1)
          then (Err errAssignIPReserved, p) else
          if bool_decide (offset ∈ p_usedIPs p) then (Err errAssignIPInUse, p) else
          match nextFreePeerID p with
          | None => (Err ErrPoolExhausted, p)
          | Some peerID => (Ok peerID, mark p offset peerID)
          end
      end
  end.

Definition release (p : ipPool) (ip : bytes) (peerID : Z) : ipPool :=
  let ips :=
    match to4 ip with
    | Some ip4 =>
        match get_u32 (E := pool_error) ip4 with
        | Ok v => p_usedIPs p ∖ {[v -u32 p_base p]}
        | _ => p_usedIPs p
        end
    | None => p_usedIPs p
    end in
  mkIpPool (p_base p) (p_size p) ips (p_usedPeerIDs p ∖ {[peerID]}).

(** ** The scans find the least free value *)

Definition least_free (used : gset Z) (from limit o : Z) : Prop :=
  from <= o < limit /\ o ∉ used /\ forall x, from <= x < o -> x ∈ used.

Lemma scan_spec (fuel : nat) (used : gset Z) (from limit : Z) :
  0 <= from -> limit <= 4294967295 -> (size (filter (fun x => (from <= x)%Z) used) < fuel)%nat ->
  match scan fuel used from limit with
  | Some o => least_free used from limit o
  | None => forall x, from <= x < limit -> x ∈ used
  end.
Proof.
  revert from. induction fuel as [|fuel IH]; intros from Hf Hl Hs; [lia|]. cbn [scan].
  destruct (Z.ltb_spec from limit) as [Hlt|Hge]; [|intros x ?; lia].
  case_bool_decide as Hin; [|split_and!; [lia|lia|done|intros x ?; lia]].
  rewrite u32_id by (unfold is_u32; lia).
  assert (Hdec : (size (filter (fun x => (from + 1 <= x)%Z) used) < fuel)%nat).
  { assert (Heq : filter (fun x => (from <= x)%Z) used ≡
      {[from]} ∪ filter (fun x => (from + 1 <= x)%Z) used).
    { intros x. rewrite elem_of_union, elem_of_singleton, !elem_of_filter.
      destruct (decide (x = from)) as [->|Hne]; [split; [by left|intros _; split; [lia|done]]|].
      split; [intros [? ?]; right; split; [lia|done]|intros [?|[? ?]]; [done|split; [lia|done]]]. }
    rewrite Heq, size_union, size_singleton in Hs; [lia|].
    intros x ->%elem_of_singleton [? _]%elem_of_filter. lia. }
  specialize (IH (from + 1) ltac:(lia) Hl Hdec).
  destruct (scan fuel used (from + 1) limit) as [o|].
  - destruct IH as (Hr & Hn & Hall). split_and!; [lia|lia|done|]. intros x Hx.
    destruct (decide (x = from)) as [->|]; [done|]. apply Hall. lia.
  - intros x Hx. destruct (decide (x = from)) as [->|]; [done|]. apply IH. lia.
Qed.

Lemma scan_enough (used : gset Z) (from limit : Z) :
  0 <= from -> limit <= 4294967295 ->
  match scan (S (size used)) used from limit with
  | Some o => least_free used from limit o
  | None => forall x, from <= x < limit -> x ∈ used
  end.
Proof.
  intros Hf Hl. apply scan_spec; [done|done|].
  assert (size (filter (fun x => (from <= x)%Z) used) <= size used)%nat; [|lia].
  apply subseteq_size. intros x [_ ?]%elem_of_filter. done.
Qed.

(** ** Leases *)

(** A lease as the caller holds it. *)
Record lease := mkLease { l_ip : bytes; l_peerID : Z }.

Record pool_wf (p : ipPool) : Prop := {
  pw_base : is_u32 (p_base p);
  pw_size : 4 <= p_size p <= 2147483648;
}.

(** The address as a 32-bit number, through [To4]. *)
Definition addr_of (ip : bytes) : option Z :=
  ip4 ← to4 ip;
  match get_u32 (E := pool_error) ip4 with Ok v => Some v | _ => None end.

Lemma addr_of_be32 (v : Z) : is_u32 v -> addr_of (be32 v) = Some v.
Proof.
  intros Hv. unfold addr_of. change (to4 (be32 v)) with (Some (be32 v)).
  cbn [mbind option_bind]. by rewrite <- (app_nil_r (be32 v)), get_be32.
Qed.

Lemma allocate_cases (p : ipPool) :
  pool_wf p ->
  match allocate p with
  | (Ok (ip, peerID), p') =>
      exists o, ip = be32 (p_base p +u32 o) /\ p' = mark p o peerID /\
        least_free (p_usedIPs p) 2 (p_size p - 1) o /\
        least_free (p_usedPeerIDs p) 0 (maxPeerID + 1) peerID
  | (Err e, p') =>
      e = ErrPoolExhausted /\ p' = p /\
      ((forall o, 2 <= o < p_size p - 1 -> o ∈ p_usedIPs p) \/
       (forall id, 0 <= id <= maxPeerID -> id ∈ p_usedPeerIDs p))
  | (Panic, _) => False
  end.
Proof.
  intros [Hb Hs]. unfold allocate, nextFreeOffset, nextFreePeerID, maxPeerID.
  rewrite (u32_id (p_size p - 1)) by (unfold is_u32; lia).
  pose proof (scan_enough (p_usedIPs p) 2 (p_size p - 1) ltac:(lia) ltac:(lia)) as HO.
  pose proof (scan_enough (p_usedPeerIDs p) 0 (16777215 + 1) ltac:(lia) ltac:(lia)) as HP.
  destruct (scan (S (size (p_usedIPs p))) _ _ _) as [o|]; [|split_and!; auto].
  destruct (scan (S (size (p_usedPeerIDs p))) _ _ _) as [id|].
  - exists o. split_and!; done.
  - split_and!; [done|done|]. right. intros x Hx. apply HP. lia.
Qed.

Lemma to4_ok (ip ip4 : bytes) :
  bytes_ok ip -> to4 ip = Some ip4 -> length ip4 = 4%nat /\ bytes_ok ip4.
Proof.
  intros Hok. unfold to4. destruct (Nat.eqb_spec (length ip) 4) as [H4|_]; [by intros [= <-]|].
  destruct (Nat.eqb_spec (length ip) 16) as [H16|]; [|done]. cbn [andb].
  destruct (bool_decide _); [|done]. intros [= <-]. rewrite length_drop, H16.
  split; [done|by apply bytes_ok_drop].
Qed.

Lemma reserve_cases (p : ipPool) (ip : bytes) :
  pool_wf p -> bytes_ok ip ->
  match reserve p ip with
  | (Ok peerID, p') =>
      exists v, addr_of ip = Some v /\ let o := v - p_base p in
        2 <= o < p_size p - 1 /\ o ∉ p_usedIPs p /\ p' = mark p o peerID /\
        least_free (p_usedPeerIDs p) 0 (maxPeerID + 1) peerID
  | (Err e, p') => p' = p
  | (Panic, _) => False
  end.
Proof.
  intros [Hb Hs] Hok. unfold reserve, addr_of.
  destruct (to4 ip) as [ip4|] eqn:E4; [|done]. cbn [mbind option_bind].
  destruct (to4_ok ip ip4 Hok E4) as [Hl4 Hok4].
  destruct (get_u32_total (E := pool_error) ip4) as [v Hv]; [unfold zlen; lia|].
  destruct (get_u32_inv ip4 v Hok4 ltac:(unfold zlen; lia) Hv) as [Hv32 _].
  rewrite Hv. destruct (Z.ltb_spec v (p_base p)) as [|Hge]; [done|].
  rewrite (u32_id (v - p_base p)), (u32_id (p_size p - 1)) by (unfold is_u32 in *; lia).
  destruct (Z.leb_spec (p_size p) (v - p_base p)); [done|].
  destruct ((v - p_base p =? 0) || (v - p_base p =? 1) || (v - p_base p =? p_size p - 1)) eqn:Er; [done|].
  case_bool_decide as Hin; [done|]. unfold nextFreePeerID, maxPeerID.
  pose proof (scan_enough (p_usedPeerIDs p) 0 (16777215 + 1) ltac:(lia) ltac:(lia)) as HP.
  destruct (scan (S (size (p_usedPeerIDs p))) _ _ _) as [id|]; [|done].
  exists v. apply orb_false_iff in Er as [Er ?]. apply orb_false_iff in Er as [? ?].
  split_and!; [done|lia|lia|done|done|apply HP..].
Qed.

(** A reservation inside the network, off the reserved addresses. *)
Lemma reserve_verdict (p : ipPool) (ip : bytes) (v : Z) :
  pool_wf p -> bytes_ok ip -> addr_of ip = Some v -> p_base p <= v -> 2 <= v - p_base p < p_size p - 1 ->
  (v - p_base p ∈ p_usedIPs p -> reserve p ip = (Err errAssignIPInUse, p)) /\
  (v - p_base p ∉ p_usedIPs p -> forall free, 0 <= free <= maxPeerID -> free ∉ p_usedPeerIDs p ->
     exists id, reserve p ip = (Ok id, mark p (v - p_base p) id)).
Proof.
  intros [Hb Hs] Hok. unfold addr_of, reserve. destruct (to4 ip) as [ip4|] eqn:E4; [|done]. cbn [mbind option_bind].
  destruct (to4_ok ip ip4 Hok E4) as [Hl4 Hok4].
  destruct (get_u32_total (E := pool_error) ip4) as [v' Hv]; [unfold zlen; lia|].
  destruct (get_u32_inv ip4 v' Hok4 ltac:(unfold zlen; lia) Hv) as [Hv32 _].
  rewrite Hv. intros [= ->] Hge Ho. rewrite (proj2 (Z.ltb_ge _ _)) by lia.
  rewrite (u32_id (v - p_base p)), (u32_id (p_size p - 1)) by (unfold is_u32 in *; lia).
  rewrite (proj2 (Z.leb_gt _ _)), !(proj2 (Z.eqb_neq _ _)) by lia. cbn [orb]. split.
  - intros Hin. by rewrite bool_decide_eq_true_2.
  - intros Hin free Hf Hfn. rewrite bool_decide_eq_false_2 by done. unfold nextFreePeerID, maxPeerID in *.
    pose proof (scan_enough (p_usedPeerIDs p) 0 (16777215 + 1) ltac:(lia) ltac:(lia)) as HP.
    destruct (scan (S (size (p_usedPeerIDs p))) _ _ _) as [id|]; [by exists id|]. destruct Hfn. apply HP. lia.
Qed.

(** ** Runs of the pool *)

(** The pool and the leases handed out and not yet returned.  A lease is
    released by its holder; releasing twice is not a step. *)
Inductive pool_step : ipPool * list lease -> ipPool * list lease -> Prop :=
  | step_allocate p ls ip id p' :
      allocate p = (Ok (ip, id), p') -> pool_step (p, ls) (p', mkLease ip id :: ls)
  | step_allocate_fail p ls e p' :
      allocate p = (Err e, p') -> pool_step (p, ls) (p', ls)
  | step_reserve p ls ip id p' :
      bytes_ok ip -> reserve p ip = (Ok id, p') -> pool_step (p, ls) (p', mkLease ip id :: ls)
  | step_reserve_fail p ls ip e p' :
      bytes_ok ip -> reserve p ip = (Err e, p') -> pool_step (p, ls) (p', ls)
  | step_release p ls1 l ls2 :
      pool_step (p, ls1 ++ l :: ls2) (release p (l_ip l) (l_peerID l), ls1 ++ ls2).

(** The offset of a lease inside the network. *)
Definition offset_of (base : Z) (l : lease) : option Z :=
  (fun v => v -u32 base) <$> addr_of (l_ip l).

Record lease_inv (p : ipPool) (ls : list lease) : Prop := {
  li_wf : pool_wf p;
  li_offsets : exists offs, Forall2 (fun l o => offset_of (p_base p) l = Some o) ls offs /\
    NoDup offs /\ list_to_set offs = p_usedIPs p /\
    Forall (fun o => 2 <= o < p_size p - 1) offs;
  li_peers : NoDup (map l_peerID ls) /\ list_to_set (map l_peerID ls) = p_usedPeerIDs p /\
    Forall (fun id => 0 <= id <= maxPeerID) (map l_peerID ls);
}.

Lemma lease_inv_mark (p : ipPool) (ls : list lease) (l : lease) (o : Z) :
  lease_inv p ls -> offset_of (p_base p) l = Some o -> 2 <= o < p_size p - 1 ->
  o ∉ p_usedIPs p -> least_free (p_usedPeerIDs p) 0 (maxPeerID + 1) (l_peerID l) ->
  lease_inv (mark p o (l_peerID l)) (l :: ls).
Proof.
  intros [Hwf (offs & Hall & Hnd & Hset & Hr) (Hp1 & Hp2 & Hp3)] Ho Hor Hnin (Hid & Hidn & _).
  constructor; [by destruct Hwf|exists (o :: offs)|]; cbn [p_base p_size p_usedIPs p_usedPeerIDs mark map].
  - split_and!; [by constructor| |set_solver|by constructor].
    constructor; [|done]. rewrite <- Hset in Hnin. by rewrite elem_of_list_to_set in Hnin.
  - split_and!; [|set_solver|constructor; [unfold maxPeerID in *; lia|done]].
    constructor; [|done]. rewrite <- Hp2 in Hidn. by rewrite elem_of_list_to_set in Hidn.
Qed.

Lemma lease_inv_release (p : ipPool) (ls1 ls2 : list lease) (l : lease) :
  lease_inv p (ls1 ++ l :: ls2) ->
  lease_inv (release p (l_ip l) (l_peerID l)) (ls1 ++ ls2).
Proof.
  intros [Hwf (offs & Hall & Hnd & Hset & Hr) (Hp1 & Hp2 & Hp3)].
  apply Forall2_app_inv_l in Hall as (offs1 & offs' & H1 & H2 & ->).
  apply Forall2_cons_inv_l in H2 as (o & offs2 & Ho & H2 & ->).
  assert (Hrel : release p (l_ip l) (l_peerID l) =
    mkIpPool (p_base p) (p_size p) (p_usedIPs p ∖ {[o]}) (p_usedPeerIDs p ∖ {[l_peerID l]})).
  { unfold release. unfold offset_of, addr_of in Ho.
    destruct (to4 (l_ip l)) as [ip4|]; [|done]. cbn [mbind option_bind] in Ho.
    destruct (get_u32 ip4) as [v| |]; [|done..]. cbn in Ho. by injection Ho as <-. }
  rewrite Hrel. apply NoDup_app in Hnd as (N1 & N2 & N3). apply NoDup_cons in N3 as [N3 N4].
  rewrite map_app in Hp1, Hp2, Hp3. cbn [map] in *.
  apply NoDup_app in Hp1 as (M1 & M2 & M3). apply NoDup_cons in M3 as [M3 M4].
  apply Forall_app in Hr as [R1 R2]. apply Forall_cons in R2 as [_ R2].
  apply Forall_app in Hp3 as [Q1 Q2]. apply Forall_cons in Q2 as [_ Q2].
  constructor; [by destruct Hwf|exists (offs1 ++ offs2)|]; cbn [p_base p_size p_usedIPs p_usedPeerIDs].
  - split_and!; [by apply Forall2_app| |set_solver|by apply Forall_app].
    apply NoDup_app. split_and!; [done|set_solver|done].
  - rewrite map_app. split_and!; [|set_solver|by apply Forall_app].
    apply NoDup_app. split_and!; [done|set_solver|done].
Qed.

(** The order in which leases are listed does not matter. *)
Lemma lease_inv_perm (p : ipPool) (ls ls' : list lease) : ls ≡ₚ ls' -> lease_inv p ls -> lease_inv p ls'.
Proof.
  intros HP [Hwf (offs & Hall & Hnd & Hset & Hr) (Hp1 & Hp2 & Hp3)].
  destruct (Permutation_Forall2 HP Hall) as (offs' & HPo & Hall').
  assert (HPp : map l_peerID ls ≡ₚ map l_peerID ls') by by apply Permutation_map.
  constructor; [done|exists offs'; split_and!|split_and!].
  - done.
  - by rewrite <- HPo.
  - rewrite <- Hset. apply set_eq. intros x. by rewrite !elem_of_list_to_set, HPo.
  - by rewrite <- HPo.
  - by rewrite <- HPp.
  - rewrite <- Hp2. apply set_eq. intros x. by rewrite !elem_of_list_to_set, HPp.
  - by rewrite <- HPp.
Qed.

(** Nor does the form of an address. *)
Lemma lease_inv_to4 (p : ipPool) (ls : list lease) (ip : bytes) (id : Z) :
  lease_inv p (mkLease ip id :: ls) -> lease_inv p (mkLease (default [] (to4 ip)) id :: ls).
Proof.
  intros [Hwf (offs & Hall & Hrest) Hp]. constructor; [done| |done]. exists offs. split; [|done].
  apply Forall2_cons_inv_l in Hall as (o & offs2 & Ho & H2 & ->). constructor; [|done].
  revert Ho. unfold offset_of, addr_of. cbn [l_ip]. destruct (to4 ip) as [ip4|] eqn:E; [|done].
  cbn [default from_option]. assert (E4 : length ip4 = 4%nat).
  { revert E. unfold to4. destruct (Nat.eqb_spec (length ip) 4); [by intros [= <-]|].
    destruct (Nat.eqb_spec (length ip) 16) as [E16|]; [|done]. cbn [andb]. destruct (bool_decide _); [|done].
    intros [= <-]. rewrite length_drop. lia. }
  intros Ho. unfold to4, Datatypes.id. by rewrite E4.
Qed.

Lemma pool_step_inv (s s' : ipPool * list lease) :
  pool_step s s' -> lease_inv s.1 s.2 -> lease_inv s'.1 s'.2.
Proof.
  intros Hstep Hinv.
  destruct Hstep as [p ls ip id p' E|p ls e p' E|p ls ip id p' Hok E|p ls ip e p' Hok E|p ls1 l ls2];
    cbn [fst snd] in *; pose proof (li_wf _ _ Hinv) as Hwf.
  - pose proof (allocate_cases p Hwf) as HC. rewrite E in HC.
    destruct HC as (o & -> & -> & Ho & Hid). destruct Ho as (Ho & Hn & _).
    apply (lease_inv_mark p ls (mkLease (be32 (p_base p +u32 o)) id) o); try done.
    unfold offset_of. cbn [l_ip]. rewrite addr_of_be32 by apply u32_range. cbn. f_equal.
    destruct Hwf as [Hb Hs]. unfold is_u32 in Hb. word_lia.
  - pose proof (allocate_cases p Hwf) as HC. rewrite E in HC. by destruct HC as (_ & -> & _).
  - pose proof (reserve_cases p ip Hwf Hok) as HC. rewrite E in HC. cbv zeta in HC.
    destruct HC as (v & Hv & Ho & Hn & -> & Hid).
    apply (lease_inv_mark p ls (mkLease ip id) (v - p_base p)); try done.
    unfold offset_of. cbn [l_ip]. rewrite Hv. cbn. f_equal.
    destruct Hwf as [Hb Hs]. apply u32_id. unfold is_u32. lia.
  - pose proof (reserve_cases p ip Hwf Hok) as HC. rewrite E in HC. by subst p'.
  - by apply lease_inv_release.
Qed.

Lemma u32_pow2_le (k : Z) : u32 (Z.shiftl 1 k) <= 2147483648.
Proof.
  destruct (Z.lt_ge_cases k 0) as [Hn|Hp].
  { rewrite <- (Z.opp_involutive k), Z.shiftl_opp_r, Z.shiftr_div_pow2 by lia.
    rewrite Z.div_small; [done|]. split; [done|]. apply Z.pow_gt_1; lia. }
  rewrite Z.shiftl_1_l. destruct (Z.lt_ge_cases k 32) as [Hl|Hg].
  - assert (2 ^ k <= 2 ^ 31) by (apply Z.pow_le_mono_r; lia).
    pose proof (Z.pow_pos_nonneg 2 k ltac:(lia) Hp).
    rewrite u32_id by (unfold is_u32; lia). done.
  - unfold u32. replace k with ((k - 32) + 32) by lia. rewrite Z.pow_add_r by lia.
    change (2 ^ 32) with 4294967296. rewrite Z.mod_mul by done. done.
Qed.

Lemma pool_run_inv (s s' : ipPool * list lease) :
  rtc pool_step s s' -> lease_inv s.1 s.2 -> lease_inv s'.1 s'.2.
Proof.
  induction 1 as [|x y z Hxy _ IH]; [done|]. intros Hx. by apply IH, (pool_step_inv x).
Qed.

Lemma newIPPool_inv (network : IPNet) (p : ipPool) :
  bytes_ok (net_IP network) -> newIPPool (Some network) = Ok p -> lease_inv p [].
Proof.
  intros Hok. unfold newIPPool. destruct (to4 (net_IP network)) as [ip4|] eqn:E4; [|done].
  destruct (negb _); [done|]. destruct (mask_Size _) as [ones bits]. destruct (negb _); [done|].
  set (size := u32 (Z.shiftl 1 (32 - ones))). destruct (Z.ltb_spec size 4) as [|Hs]; [done|].
  destruct (get_u32 ip4) as [base| |] eqn:Eb; [|done..]. outcome_simpl.
  intros Hp%(inj Ok). subst p.
  destruct (to4_ok _ ip4 Hok E4) as [Hl4 Hok4].
  destruct (get_u32_inv ip4 base Hok4 ltac:(unfold zlen; lia) Eb) as [Hb _].
  constructor; [|exists []; split_and!; try done; constructor|split_and!; try done; constructor].
  constructor; cbn; [done|]. split; [done|apply u32_pow2_le].
Qed.

(** First free, never blocking: [allocate] hands out the least free host
    offset (never the network, server or broadcast address) together with the
    least free peer id, marking exactly these two; it fails, leaving the pool
    unchanged, exactly when every host address or every peer id is in use. *)
Theorem allocate_first_free (network : IPNet) (p0 p : ipPool) (ls : list lease) :
  bytes_ok (net_IP network) -> newIPPool (Some network) = Ok p0 ->
  rtc pool_step (p0, []) (p, ls) ->
  match allocate p with
  | (Ok (ip, peerID), p') =>
      exists o, ip = offsetToIP (p_base p +u32 o) /\ p' = mark p o peerID /\
        least_free (p_usedIPs p) 2 (p_size p - 1) o /\
        least_free (p_usedPeerIDs p) 0 (maxPeerID + 1) peerID
  | (Err e, p') =>
      e = ErrPoolExhausted /\ p' = p /\
      ((forall o, 2 <= o < p_size p - 1 -> o ∈ p_usedIPs p) \/
       (forall id, 0 <= id <= maxPeerID -> id ∈ p_usedPeerIDs p))
  | (Panic, _) => False
  end.
Proof.
  intros Hok HN Hr. apply allocate_cases.
  by apply (pool_run_inv (p0, []) (p, ls) Hr), (newIPPool_inv network).
Qed.

(** No address and no peer id is shared: over any run of allocations,
    reservations of arbitrary addresses and releases by the holders, the leases
    outstanding have pairwise distinct addresses and pairwise distinct peer
    ids, every address is a host address of the network other than the
    server's, and the pool's two maps are exactly the outstanding leases. *)
Theorem leases_never_shared (network : IPNet) (p0 p : ipPool) (ls : list lease) :
  bytes_ok (net_IP network) -> newIPPool (Some network) = Ok p0 ->
  rtc pool_step (p0, []) (p, ls) ->
  NoDup (map l_peerID ls) /\ list_to_set (map l_peerID ls) = p_usedPeerIDs p /\
  exists offs, Forall2 (fun l o => offset_of (p_base p) l = Some o) ls offs /\ NoDup offs /\
    list_to_set offs = p_usedIPs p /\ Forall (fun o => 2 <= o < p_size p - 1) offs.
Proof.
  intros Hok HN Hr.
  destruct (pool_run_inv (p0, []) (p, ls) Hr (newIPPool_inv network p0 Hok HN))
    as [_ Ho (H1 & H2 & _)]. done.
Qed.

(** ** Witnesses *)

Module ToyPool.
Definition net : IPNet := mkIPNet [10; 9; 0; 0] [255; 255; 255; 248].
Definition pool0 : ipPool := mkIpPool 168361984 8 ∅ ∅.
Definition p1 := snd (allocate pool0).
Definition p2 := snd (reserve p1 [10; 9; 0; 3]).
Definition p3 := release p2 [10; 9; 0; 2] 0.
End ToyPool.

Lemma toy_run :
  newIPPool (Some ToyPool.net) = Ok ToyPool.pool0 /\
  rtc pool_step (ToyPool.pool0, []) (ToyPool.p3, [mkLease [10; 9; 0; 3] 1]).
Proof.
  split; [vm_compute; reflexivity|].
  eapply rtc_l; [apply (step_allocate _ _ [10; 9; 0; 2] 0 ToyPool.p1); vm_compute; reflexivity|].
  eapply rtc_l; [apply (step_reserve _ _ [10; 9; 0; 3] 1 ToyPool.p2);
    [decide_now|vm_compute; reflexivity]|].
  eapply rtc_l; [|apply rtc_refl].
  apply (step_release ToyPool.p2 [mkLease [10; 9; 0; 3] 1] (mkLease [10; 9; 0; 2] 0) []).
Qed.

(** The released address is handed out again, not the never used 10.9.0.4. *)
Lemma allocate_first_free_witness :
  fst (allocate ToyPool.p3) = Ok ([10; 9; 0; 2], 0) /\
  exists o, [10; 9; 0; 2] = offsetToIP (p_base ToyPool.p3 +u32 o) /\
    least_free (p_usedIPs ToyPool.p3) 2 (p_size ToyPool.p3 - 1) o.
Proof.
  destruct toy_run as [HN Hr].
  pose proof (allocate_first_free ToyPool.net ToyPool.pool0 ToyPool.p3 [mkLease [10; 9; 0; 3] 1]
    ltac:(decide_now) HN Hr) as H.
  assert (E : allocate ToyPool.p3 = (Ok ([10; 9; 0; 2], 0), snd (allocate ToyPool.p3)))
    by (vm_compute; reflexivity).
  rewrite E in H |- *. split; [done|]. destruct H as (o & Ho & _ & Hl & _). by exists o.
Defined.

Lemma leases_never_shared_witness :
  NoDup (map l_peerID [mkLease [10; 9; 0; 3] 1]) /\
  list_to_set (map l_peerID [mkLease [10; 9; 0; 3] 1]) = p_usedPeerIDs ToyPool.p3.
Proof.
  destruct toy_run as [HN Hr].
  destruct (leases_never_shared ToyPool.net ToyPool.pool0 ToyPool.p3 [mkLease [10; 9; 0; 3] 1]
    ltac:(decide_now) HN Hr) as (H1 & H2 & _). done.
Defined.

(** A network whose address has host bits set is not masked: the pool hands out
    addresses outside it. *)
Example unmasked_base :
  (p ← newIPPool (Some (mkIPNet [10; 9; 0; 254] [255; 255; 255; 0])); fst (allocate p)) =
  Ok ([10; 9; 1; 0], 0).
Proof. vm_compute. reflexivity. Qed.

(** A /0 network is refused as too small: its size wraps to zero. *)
Example whole_space_too_small :
  newIPPool (Some (mkIPNet [0; 0; 0; 0] [0; 0; 0; 0])) = Err ErrTooSmall.
Proof. vm_compute. reflexivity. Qed.
End IpPool.
