(* ===== verification/Cipher.v ===== *)
(** * Cipher: negotiation of the data-channel cipher

    Model of [cipher.go]: the server's allow-list, the client's capability
    signals (peer info and options string) and the selection.  Strings are byte
    lists, with the text functions of [GoText]. *)

From S2P Require Import Prelude GoText Replay KeyDeriv DataChan.

Module Cipher.

Definition maxCipherNameLen : Z := 63.
Definition AES256 : bytes := of_string "AES-256-GCM".
Definition AES128 : bytes := of_string "AES-128-GCM".
Definition supportedDataCiphers : list bytes := [AES256; AES128].
Definition cipherNegotiationFailedReason : bytes :=
  of_string "Data channel cipher negotiation failed (no shared cipher)".

Inductive cipher_error :=
  | errCipherNegotiationFailed
  | ErrConfigCipher (name : bytes)
  | ErrConfigEntry (name : bytes)
  | ErrConfigDuplicate (name : bytes).

#[export] Instance cipher_error_eq_dec : EqDecision cipher_error.
Proof. solve_decision. Defined.

(** ** Names *)

Definition isCipherNameByte (c : Z) : bool :=
  ((65 <=? c) && (c <=? 90)) || ((97 <=? c) && (c <=? 122)) || ((48 <=? c) && (c <=? 57)) ||
  (c =? 45).

Definition isCipherNameByteSet (name : bytes) : bool := forallb isCipherNameByte name.

Definition canonicalCipherName (name : bytes) : option bytes :=
  if (zlen name =? 0) || (maxCipherNameLen <? zlen name) then None else
  if negb (isCipherNameByteSet name) then None else
  find (fun candidate => equal_fold candidate name) supportedDataCiphers.

Definition cipherKeyLen (canonicalName : bytes) : Z :=
  if bool_decide (canonicalName = AES256) then 32
  else if bool_decide (canonicalName = AES128) then 16
  else 0.

(** ** The server's list *)

(** The validation loop; [seen] holds the canonical names so far. *)
Fixpoint resolveEntries (seen : list bytes) (names : list bytes)
    : outcome cipher_error (list bytes) :=
  match names with
  | [] => Ok []
  | name :: names =>
      match canonicalCipherName name with
      | None => Err (ErrConfigEntry name)
      | Some canonical =>
          if bool_decide (canonical ∈ seen) then Err (ErrConfigDuplicate canonical)
          else out ← resolveEntries (canonical :: seen) names; Ok (canonical :: out)
      end
  end.

Definition resolveDataCiphers (dataCiphers : list bytes) (cipher : bytes)
    : outcome cipher_error (list bytes) :=
  match dataCiphers with
  | [] =>
      match cipher with
      | [] => Ok supportedDataCiphers
      | _ =>
          match canonicalCipherName cipher with
          | None => Err (ErrConfigCipher cipher)
          | Some canonical => Ok [canonical]
          end
      end
  | _ => resolveEntries [] dataCiphers
  end.

(** ** The client's signals *)

Definition newline : Z := 10.
Definition colon : Z := 58.
Definition comma : Z := 44.

Fixpoint firstCut (key : bytes) (lines : list bytes) : option bytes :=
  match lines with
  | [] => None
  | line :: lines =>
      match cut_prefix key line with Some rest => Some rest | None => firstCut key lines end
  end.

Definition peerInfoValue (peerInfo key : bytes) : option bytes :=
  firstCut key (split_on newline peerInfo).

Definition IV_NCP : bytes := of_string "IV_NCP=".
Definition IV_CIPHERS : bytes := of_string "IV_CIPHERS=".

Definition peerNCPVersion (peerInfo : bytes) : Z :=
  match peerInfoValue peerInfo IV_NCP with
  | None => 0
  | Some value => match atoi (trim_space value) with None => 0 | Some n => n end
  end.

Definition peerSupportsNCP (peerInfo : bytes) : bool :=
  if 2 <=? peerNCPVersion peerInfo then true
  else bool_decide (is_Some (peerInfoValue peerInfo IV_CIPHERS)).

(** A nil slice and an empty one are both the empty list: no caller tells them
    apart. *)
Definition peerCipherList (peerInfo : bytes) : list bytes :=
  match peerInfoValue peerInfo IV_CIPHERS with
  | Some [] => []
  | Some value => split_on colon value
  | None => if 2 <=? peerNCPVersion peerInfo then [AES256; AES128] else []
  end.

Definition occPrefix : bytes := of_string "cipher ".

Fixpoint firstOCC (tokens : list bytes) : bytes :=
  match tokens with
  | [] => []
  | token :: tokens =>
      match cut_prefix occPrefix token with
      | None => firstOCC tokens
      | Some value =>
          if (zlen value =? 0) || (maxCipherNameLen <? zlen value) then [] else value
      end
  end.

Definition parseOCCCipher (options : bytes) : bytes := firstOCC (split_on comma options).

(** ** Selection *)

(** [strings.EqualFold] is symmetric; [s] is an entry of the server's list, an
    ASCII name. *)
Definition containsFold (l : list bytes) (s : bytes) : bool :=
  existsb (fun item => equal_fold s item) l.

Fixpoint selectCipher (allowList peerCiphers : list bytes) (occCipher : bytes)
    : outcome cipher_error bytes :=
  match allowList with
  | [] => Err errCipherNegotiationFailed
  | candidate :: allowList =>
      if containsFold peerCiphers candidate || equal_fold candidate occCipher then Ok candidate
      else selectCipher allowList peerCiphers occCipher
  end.

Definition serverKM2Options (cipher : bytes) : bytes :=
  of_string "V4,dev-type tun,link-mtu 1541,tun-mtu 1500,proto UDPv4,cipher " ++ cipher ++
  of_string ",auth SHA1,keysize " ++ itoa (cipherKeyLen cipher * 8) ++
  of_string ",key-method 2,tls-server".

(** ** Facts *)

Lemma canonicalCipherName_supported (name c : bytes) :
  canonicalCipherName name = Some c ->
  c ∈ supportedDataCiphers /\ fold_ascii c = fold_ascii name.
Proof.
  unfold canonicalCipherName. destruct (_ || _); [done|]. destruct (negb _); [done|].
  intros H%find_some. destruct H as [Hin Hf]. split; [by apply list_elem_of_In|].
  unfold equal_fold in Hf. by apply bool_decide_eq_true in Hf.
Qed.

Lemma cipherKeyLen_supported (c : bytes) :
  c ∈ supportedDataCiphers -> cipherKeyLen c = 16 \/ cipherKeyLen c = 32.
Proof.
  unfold supportedDataCiphers. rewrite !elem_of_cons, elem_of_nil.
  intros [->|[->|[]]]; vm_compute; auto.
Qed.

(** The validation loop succeeds exactly on supported, pairwise distinct names,
    and keeps their order. *)
Lemma resolveEntries_iff (seen names out : list bytes) :
  resolveEntries seen names = Ok out <->
  map canonicalCipherName names = map Some out /\ NoDup out /\ Forall (fun c => c ∉ seen) out.
Proof.
  revert seen out. induction names as [|name names IH]; intros seen out; cbn [resolveEntries map].
  { split; [intros [= <-]; split_and!; [done|constructor|constructor]|].
    intros (H & _). destruct out; [done|discriminate]. }
  destruct (canonicalCipherName name) as [c|] eqn:E.
  2:{ split; [done|]. intros (H & _). destruct out; discriminate. }
  case_bool_decide as Hin.
  { split; [done|]. intros (H & _ & Hf). destruct out as [|c' out]; [discriminate|].
    injection H as <- H. apply Forall_cons in Hf as [Hf _]. done. }
  split.
  - intros H. destruct (resolveEntries (c :: seen) names) as [out'| |] eqn:ER; [|done..].
    outcome_simpl. injection H as <-. apply IH in ER as (Hm & Hnd & Hfr). cbn [map].
    rewrite Hm. split_and!; [done| |].
    + constructor; [|done]. intros Hc. rewrite Forall_forall in Hfr. apply (Hfr c Hc). by left.
    + constructor; [done|]. eapply Forall_impl; [exact Hfr|]. intros x Hx Hs. apply Hx. by right.
  - intros (H & Hnd & Hf). destruct out as [|c' out]; [discriminate|]. cbn [map] in H.
    injection H as <- H. apply NoDup_cons in Hnd as [Hc Hnd]. apply Forall_cons in Hf as [_ Hf].
    rewrite (proj2 (IH (c :: seen) out)); [done|]. split_and!; [done|done|].
    rewrite Forall_forall in Hf |- *. intros x Hx. apply not_elem_of_cons.
    split; [congruence|by apply Hf].
Qed.

Lemma map_canonical_supported (names out : list bytes) :
  map canonicalCipherName names = map Some out -> Forall (fun c => c ∈ supportedDataCiphers) out.
Proof.
  revert out. induction names as [|n names IH]; intros [|c out] H; try discriminate; [constructor|].
  cbn in H. injection H as Hc H. constructor; [|by apply IH].
  by apply (canonicalCipherName_supported n).
Qed.

Lemma resolved_supported (dataCiphers : list bytes) (cipher : bytes) (allow : list bytes) :
  resolveDataCiphers dataCiphers cipher = Ok allow ->
  allow <> [] /\ NoDup allow /\ Forall (fun c => c ∈ supportedDataCiphers) allow.
Proof.
  unfold resolveDataCiphers. destruct dataCiphers as [|n names].
  - destruct cipher as [|b cipher].
    + intros H%(inj Ok). subst allow. split_and!; [done|decide_now|decide_now].
    + destruct (canonicalCipherName (b :: cipher)) as [c|] eqn:E; [|done].
      intros H%(inj Ok). subst allow. apply canonicalCipherName_supported in E as [Hc _].
      split_and!; [done|apply NoDup_singleton|constructor; [done|constructor]].
  - intros H. apply resolveEntries_iff in H as (Hm & Hnd & _).
    split_and!; [by intros ->|done|by eapply map_canonical_supported].
Qed.

(** Whether the client accepts [c]: named in its list, or its options cipher,
    up to case. *)
Definition acceptable (peerCiphers : list bytes) (occCipher c : bytes) : bool :=
  containsFold peerCiphers c || equal_fold c occCipher.

Lemma acceptable_perm (l l' : list bytes) (occ c : bytes) :
  l ≡ₚ l' -> acceptable l occ c = acceptable l' occ c.
Proof.
  intros Hp. unfold acceptable. f_equal. unfold containsFold. apply eq_true_iff_eq.
  rewrite !existsb_exists. split; intros (x & Hx & He); exists x; (split; [|done]);
    apply list_elem_of_In in Hx; apply list_elem_of_In; by rewrite Hp in * || rewrite <- Hp in *.
Qed.

Lemma selectCipher_cases (allow peer : list bytes) (occ : bytes) :
  match selectCipher allow peer occ with
  | Ok c => exists l1 l2, allow = l1 ++ c :: l2 /\ acceptable peer occ c = true /\
              Forall (fun x => acceptable peer occ x = false) l1
  | Err e => e = errCipherNegotiationFailed /\
              Forall (fun x => acceptable peer occ x = false) allow
  | Panic => False
  end.
Proof.
  induction allow as [|x allow IH]; cbn [selectCipher]; [split; [done|constructor]|].
  fold (acceptable peer occ x). destruct (acceptable peer occ x) eqn:E.
  - exists [], allow. split_and!; [done|done|constructor].
  - destruct (selectCipher allow peer occ) as [c|e|]; [|split; [apply IH|constructor; [done|apply IH]]|done].
    destruct IH as (l1 & l2 & -> & Hc & Hl1). exists (x :: l1), l2.
    split_and!; [done|done|by constructor].
Qed.

Lemma selectCipher_perm (allow peer peer' : list bytes) (occ : bytes) :
  peer ≡ₚ peer' -> selectCipher allow peer occ = selectCipher allow peer' occ.
Proof.
  intros Hp. induction allow as [|x allow IH]; [done|]. cbn [selectCipher].
  fold (acceptable peer occ x) (acceptable peer' occ x).
  by rewrite (acceptable_perm _ _ _ _ Hp), IH.
Qed.

(** The server's configuration decides: the allow-list a configuration
    resolves to is not empty, has no duplicates and holds supported canonical
    names only; a non-empty list of names resolves exactly when every name is
    supported (up to case) and no two are the same cipher, and then to their
    canonical forms in the configured order. *)
Theorem resolveDataCiphers_spec (dataCiphers : list bytes) (cipher : bytes) :
  (forall allow, resolveDataCiphers dataCiphers cipher = Ok allow ->
     allow <> [] /\ NoDup allow /\ Forall (fun c => c ∈ supportedDataCiphers) allow) /\
  (dataCiphers <> [] -> forall allow, resolveDataCiphers dataCiphers cipher = Ok allow <->
     map canonicalCipherName dataCiphers = map Some allow /\ NoDup allow).
Proof.
  split; [intros; by eapply resolved_supported|]. intros Hne allow.
  unfold resolveDataCiphers. destruct dataCiphers as [|n names]; [done|].
  rewrite resolveEntries_iff. split; [tauto|]. intros [? ?]. split_and!; [done|done|].
  apply Forall_forall. intros x _. apply not_elem_of_nil.
Qed.

(** The server's order wins: the selected cipher is the first entry of the
    server's list that the client accepts, whatever the order of the client's
    own list; the negotiation fails exactly when the client accepts none of
    the entries. *)
Theorem selectCipher_server_order (allow peer : list bytes) (occ : bytes) :
  match selectCipher allow peer occ with
  | Ok c =>
      (exists l1 l2, allow = l1 ++ c :: l2 /\ acceptable peer occ c = true /\
         Forall (fun x => acceptable peer occ x = false) l1) /\
      (forall peer', peer' ≡ₚ peer -> selectCipher allow peer' occ = Ok c)
  | Err e => e = errCipherNegotiationFailed /\
      Forall (fun x => acceptable peer occ x = false) allow
  | Panic => False
  end.
Proof.
  pose proof (selectCipher_cases allow peer occ) as H.
  destruct (selectCipher allow peer occ) as [c| |] eqn:E; [|done..].
  split; [done|]. intros peer' Hp. by rewrite (selectCipher_perm _ _ _ _ Hp).
Qed.

(** A wrapper is built from 32-byte arrays whenever the key length is legal. *)
Lemma NewWrapper_ok {W : Type} `{!AntiReplay W} (keys : DataKeys) (peerID keyID : Z) :
  zlen (EncryptCipher keys) = 32 -> zlen (DecryptCipher keys) = 32 ->
  CipherKeyLen keys = 16 \/ CipherKeyLen keys = 32 ->
  exists w : DataChan.Wrapper W, DataChan.NewWrapper keys peerID keyID = Ok w /\
    zlen (DataChan.w_encryptAEAD w) = CipherKeyLen keys /\
    zlen (DataChan.w_decryptAEAD w) = CipherKeyLen keys.
Proof.
  intros He Hd Hk. unfold DataChan.NewWrapper.
  replace (negb (CipherKeyLen keys =? 16) && negb (CipherKeyLen keys =? 32)) with false by lia.
  rewrite !slice_ok by lia. outcome_simpl. rewrite !drop_0, Z.sub_0_r.
  assert (Hae : forall b, zlen b = 32 ->
    DataChan.aesNewCipher (take (Z.to_nat (CipherKeyLen keys)) b) =
    Ok (take (Z.to_nat (CipherKeyLen keys)) b)).
  { intros b Hb. unfold DataChan.aesNewCipher. rewrite zlen_take by lia.
    replace (_ || _ || _) with true by lia. done. }
  rewrite !Hae by done. outcome_simpl.
  eexists. split_and!; [reflexivity| |]; cbn; rewrite zlen_take; lia.
Qed.

(** The server's slots of a 256-byte key block key the data channel at either length. *)
Lemma server_wrapper_ok {W : Type} `{!AntiReplay W} (raw : bytes) (n peerID keyID : Z) :
  zlen raw = 256 -> n = 16 \/ n = 32 ->
  exists keys (w : DataChan.Wrapper W),
    ServerSlots (mkKey2 raw) n = Ok keys /\ DataChan.NewWrapper keys peerID keyID = Ok w /\
    zlen (DataChan.w_encryptAEAD w) = n /\ zlen (DataChan.w_decryptAEAD w) = n.
Proof.
  intros Hl Hn. unfold ServerSlots, keyDirection. rewrite !slot_ok by (cbn [k2_raw]; lia). outcome_simpl.
  rewrite !slice_prefix by (unfold zlen in *; cbn [k2_raw]; lia). outcome_simpl.
  destruct (NewWrapper_ok (W := W) (mkDataKeys
    (take (Z.to_nat 32) (drop (Z.to_nat (1 * 128)) raw))
    (take (Z.to_nat 8) (drop (Z.to_nat (1 * 128 + 64)) raw))
    (take (Z.to_nat 32) (drop (Z.to_nat (0 * 128)) raw))
    (take (Z.to_nat 8) (drop (Z.to_nat (0 * 128 + 64)) raw)) n) peerID keyID)
    as (w & Hw & H1 & H2); cbn [EncryptCipher DecryptCipher CipherKeyLen].
  - unfold zlen in *. rewrite length_take, length_drop. lia.
  - unfold zlen in *. rewrite length_take, length_drop. lia.
  - done.
  - eexists _, w. split_and!; [reflexivity|exact Hw|done..].
Qed.

Lemma cipherKeyLen_cases (c : bytes) :
  cipherKeyLen c <> 0 -> cipherKeyLen c = 16 \/ cipherKeyLen c = 32.
Proof. unfold cipherKeyLen. intros H. repeat case_match; auto. done. Qed.

(** A negotiated cipher always keys the data channel: whatever the
    configuration, the client's signals and the 256-byte key block, when the
    negotiation succeeds the server's key slots are cut to the length of that
    cipher, the data-channel wrapper is built without error, and both its keys
    have exactly that length, 16 or 32 bytes. *)
Theorem negotiated_cipher_keys (dataCiphers : list bytes) (cipher : bytes) (allow : list bytes)
    (peer : list bytes) (occ c raw : bytes) (peerID keyID : Z) :
  resolveDataCiphers dataCiphers cipher = Ok allow -> selectCipher allow peer occ = Ok c ->
  zlen raw = 256 ->
  exists keys (w : DataChan.Wrapper replayWindow),
    ServerSlots (mkKey2 raw) (cipherKeyLen c) = Ok keys /\
    DataChan.NewWrapper keys peerID keyID = Ok w /\
    zlen (DataChan.w_encryptAEAD w) = cipherKeyLen c /\
    zlen (DataChan.w_decryptAEAD w) = cipherKeyLen c /\
    (cipherKeyLen c = 16 \/ cipherKeyLen c = 32).
Proof.
  intros HR HS Hl. apply resolved_supported in HR as (_ & _ & Hall).
  pose proof (selectCipher_cases allow peer occ) as HC. rewrite HS in HC.
  destruct HC as (l1 & l2 & -> & _ & _). apply Forall_app in Hall as [_ Hall].
  apply Forall_cons in Hall as [Hc _]. apply cipherKeyLen_supported in Hc.
  destruct (server_wrapper_ok (W := replayWindow) raw (cipherKeyLen c) peerID keyID Hl Hc)
    as (keys & w & H1 & H2 & H3 & H4).
  by exists keys, w.
Qed.

(** ** Witnesses *)

Module ToyNeg.
Definition cfg : list bytes := [of_string "aes-128-gcm"; of_string "AES-256-GCM"].
Definition info : bytes :=
  of_string "IV_VER=2.6.14" ++ [newline] ++ of_string "IV_NCP=2" ++ [newline] ++
  of_string "IV_CIPHERS=AES-256-GCM:AES-128-GCM:CHACHA20-POLY1305" ++ [newline].
End ToyNeg.

Lemma resolveDataCiphers_spec_witness :
  resolveDataCiphers ToyNeg.cfg [] = Ok [AES128; AES256].
Proof.
  apply (resolveDataCiphers_spec ToyNeg.cfg []); [done|].
  split; [vm_compute; reflexivity|decide_now].
Defined.

Example negotiation_server_order :
  selectCipher [AES128; AES256] (peerCipherList ToyNeg.info) [] = Ok AES128 /\
  peerSupportsNCP ToyNeg.info = true /\ peerNCPVersion ToyNeg.info = 2.
Proof. vm_compute. done. Qed.

Lemma negotiated_cipher_keys_witness :
  exists keys (w : DataChan.Wrapper replayWindow),
    ServerSlots (mkKey2 (replicate 256 7)) (cipherKeyLen AES128) = Ok keys /\
    DataChan.NewWrapper keys 3 0 = Ok w /\
    zlen (DataChan.w_encryptAEAD w) = cipherKeyLen AES128 /\
    zlen (DataChan.w_decryptAEAD w) = cipherKeyLen AES128 /\
    (cipherKeyLen AES128 = 16 \/ cipherKeyLen AES128 = 32).
Proof.
  apply (negotiated_cipher_keys ToyNeg.cfg [] [AES128; AES256] (peerCipherList ToyNeg.info) []
    AES128 (replicate 256 7) 3 0); vm_compute; reflexivity.
Defined.

(** A long s counts as an s when the client's list is compared, although only
    ASCII names are configurable. *)
Example long_s_accepted :
  selectCipher [AES256] [[65; 69; 197; 191] ++ of_string "-256-GCM"] [] = Ok AES256.
Proof. vm_compute. reflexivity. Qed.

End Cipher.
