(* ===== verification/Push.v ===== *)
(** * Push: the PUSH_REQUEST / PUSH_REPLY control strings

    Model of [push.go]: NUL-terminated control strings and the assembly of the
    server's PUSH_REPLY.  A [bufio.Reader] is the bytes it will still yield. *)

From S2P Require Import Prelude GoText IpPool Cipher.

Module Push.

Definition maxControlStringLen : Z := 1024.

Inductive push_error := ErrReaderEOF | ErrNoTerminator.

#[export] Instance push_error_eq_dec : EqDecision push_error.
Proof. solve_decision. Defined.

(** The loop of [readControlString]: [quota] bytes may still be consumed. *)
Fixpoint readLoop (quota : nat) (r buf : bytes) : outcome push_error (bytes * bytes) :=
  match quota with
  | O => Err ErrNoTerminator
  | S quota =>
      match r with
      | [] => Err ErrReaderEOF
      | b :: r => if b =? 0 then Ok (buf, r) else readLoop quota r (buf ++ [b])
      end
  end.

Definition readControlString (r : bytes) (max : nat) : outcome push_error (bytes * bytes) :=
  readLoop max r [].

(** The bytes written. *)
Definition writeControlString (s : bytes) : bytes := s ++ [0].

Definition second : Z := 1000000000.

(** Go's integer division truncates towards zero. *)
Definition durationToPushedSeconds (d : Z) : Z :=
  let secs := Z.quot d second in if secs <? 1 then 1 else secs.

Definition dot : Z := 46.

(** [ip.String()] of an IPv4 address in either form; the textual form of an
    IPv6 address is not modelled ([None]). *)
Definition ipString (ip : bytes) : option bytes :=
  ip4 ← IpPool.to4 ip; Some (join dot (map itoa ip4)).

(** The options of the reply, in order. *)
Definition pushOptions (clientIP netmask : bytes) (peerID : Z) (cipher : bytes)
    (supportsNCP : bool) (pingSeconds pingRestartSeconds : Z) : list bytes :=
  [of_string "PUSH_REPLY";
   of_string "ifconfig " ++ clientIP ++ of_string " " ++ netmask;
   of_string "topology subnet";
   of_string "peer-id " ++ itoa peerID] ++
  (if supportsNCP then [of_string "cipher " ++ cipher] else []) ++
  [of_string "ping " ++ itoa pingSeconds;
   of_string "ping-restart " ++ itoa pingRestartSeconds].

Definition buildPushReply (clientIP : bytes) (network : IpPool.IPNet) (peerID : Z) (cipher : bytes)
    (supportsNCP : bool) (pingSeconds pingRestartSeconds : Z) : option bytes :=
  netmask ← ipString (IpPool.normalizeIPv4Mask (IpPool.net_Mask network));
  client ← ipString clientIP;
  Some (join Cipher.comma
    (pushOptions client netmask peerID cipher supportsNCP pingSeconds pingRestartSeconds) ++ [0]).

(** ** Facts *)

Lemma readLoop_spec (quota : nat) (s r buf : bytes) :
  0 ∉ s ->
  readLoop quota (s ++ [0] ++ r) buf =
    if (length s <? quota)%nat then Ok (buf ++ s, r) else Err ErrNoTerminator.
Proof.
  revert quota buf. induction s as [|b s IH]; intros [|quota] buf Hs; cbn [readLoop app]; try done.
  - cbn. by rewrite app_nil_r.
  - apply not_elem_of_cons in Hs as [Hb Hs].
    rewrite (proj2 (Z.eqb_neq b 0)) by congruence. cbn [app] in IH. rewrite IH by done.
    rewrite <- (assoc_L (++)). done.
Qed.

(** The bytes of a dotted address are digits and dots. *)
Lemma join_itoa_avoid (sep : Z) (ip : bytes) :
  bytes_ok ip -> sep <> dot -> is_digit sep = false -> sep ∉ join dot (map itoa ip).
Proof.
  intros Hip Hd Hs. induction Hip as [|b ip Hb Hip IH]; [apply not_elem_of_nil|].
  assert (Hw : sep ∉ itoa b).
  { apply digits_avoid; [done|]. unfold is_u8 in Hb. apply itoa_digits. lia. }
  cbn [map]. destruct ip as [|b' ip]; [done|].
  change (join dot (itoa b :: map itoa (b' :: ip))) with
    (itoa b ++ [dot] ++ join dot (map itoa (b' :: ip))).
  rewrite !not_elem_of_app. split_and!; [done| |done].
  intros H%list_elem_of_singleton. done.
Qed.

(** Reading the dotted form back. *)
Definition parseIPv4 (s : bytes) : list (option Z) := map atoi (split_on dot s).

Lemma parse_ipString (ip s : bytes) :
  bytes_ok ip -> length ip = 4%nat -> ipString ip = Some s -> parseIPv4 s = map Some ip.
Proof.
  intros Hip Hl. unfold ipString, IpPool.to4. rewrite Hl. cbn [Nat.eqb mbind option_bind].
  intros [= <-]. unfold parseIPv4. rewrite split_join.
  - rewrite map_map. apply map_ext_in. intros b Hb%list_elem_of_In.
    apply atoi_itoa. eapply Forall_forall in Hip; [|exact Hb]. unfold is_u8 in Hip. lia.
  - by destruct ip.
  - apply Forall_map. eapply Forall_impl; [exact Hip|]. intros b Hb. cbn.
    apply digits_avoid; [done|]. unfold is_u8 in Hb. apply itoa_digits. lia.
Qed.

Lemma itoa_avoid (sep v : Z) : 0 <= v -> is_digit sep = false -> sep ∉ itoa v.
Proof. intros Hv Hs. apply digits_avoid; [done|]. by apply itoa_digits. Qed.

(** No byte [sep] outside the literals, the digits and the dots. *)
Definition plain (sep : Z) : Prop := sep = 0 \/ sep = Cipher.comma.

Lemma pushOptions_avoid (sep : Z) (ip mask cipher : bytes) (peerID ping restart : Z) (ncp : bool) :
  plain sep -> sep ∉ ip -> sep ∉ mask -> sep ∉ cipher ->
  0 <= peerID -> 0 <= ping -> 0 <= restart ->
  Forall (fun w => sep ∉ w) (pushOptions ip mask peerID cipher ncp ping restart).
Proof.
  intros Hp Hi Hm Hc H1 H2 H3. unfold pushOptions.
  assert (Hd : is_digit sep = false) by (by destruct Hp as [->| ->]).
  assert (Hlit : Forall (fun w => sep ∉ w) [of_string "PUSH_REPLY"; of_string "ifconfig ";
    of_string " "; of_string "topology subnet"; of_string "peer-id "; of_string "cipher ";
    of_string "ping "; of_string "ping-restart "]) by (destruct Hp as [->| ->]; decide_now).
  rewrite !Forall_cons in Hlit. destruct Hlit as (L1 & L2 & L3 & L4 & L5 & L6 & L7 & L8 & _).
  repeat apply Forall_app_2; try apply Forall_cons_2; try destruct ncp;
    repeat (apply Forall_cons_2 || apply Forall_nil_2);
    rewrite ?not_elem_of_app; split_and?; try done; by apply itoa_avoid.
Qed.

Lemma join_avoid (sep c : Z) (l : list bytes) :
  sep <> c -> Forall (fun w => sep ∉ w) l -> sep ∉ join c l.
Proof.
  intros Hc H. induction H as [|w l Hw Hl IH]; [apply not_elem_of_nil|].
  destruct l as [|w' l]; [done|].
  change (join c (w :: w' :: l)) with (w ++ [c] ++ join c (w' :: l)).
  rewrite !not_elem_of_app. split_and!; [done| |done]. by intros ?%list_elem_of_singleton.
Qed.

(** The client reads the reply back: for every IPv4 client address and mask
    (in either Go form of the mask), peer id, negotiated cipher and keepalive
    values, the reply is one NUL-terminated control string; reading a control
    string from the wire returns exactly it and leaves what follows; splitting
    it at commas gives exactly the pushed options in order; and the printed
    address and peer id parse back to the address bytes and the id.  The cipher
    is among the options exactly when the client negotiates ciphers. *)
Theorem push_reply_roundtrip (clientIP : bytes) (network : IpPool.IPNet) (peerID : Z)
    (cipher : bytes) (ncp : bool) (ping restart : Z) (rest : bytes) (max : nat) :
  bytes_ok clientIP -> length clientIP = 4%nat ->
  bytes_ok (IpPool.net_Mask network) -> (length (IpPool.net_Mask network) = 4%nat \/
    length (IpPool.net_Mask network) = 16%nat) ->
  cipher ∈ Cipher.supportedDataCiphers -> is_u32 peerID -> 0 <= ping -> 0 <= restart ->
  exists reply client netmask,
    buildPushReply clientIP network peerID cipher ncp ping restart =
      Some (writeControlString reply) /\
    ((length reply < max)%nat ->
       readControlString (writeControlString reply ++ rest) max = Ok (reply, rest)) /\
    split_on Cipher.comma reply = pushOptions client netmask peerID cipher ncp ping restart /\
    parseIPv4 client = map Some clientIP /\
    parseIPv4 netmask = map Some (IpPool.normalizeIPv4Mask (IpPool.net_Mask network)) /\
    atoi (itoa peerID) = Some peerID.
Proof.
  intros Hip Hl Hm Hml Hc Hid Hp1 Hp2. unfold is_u32 in Hid. unfold buildPushReply.
  set (mask := IpPool.normalizeIPv4Mask (IpPool.net_Mask network)).
  assert (Hmask : length mask = 4%nat /\ bytes_ok mask).
  { unfold mask, IpPool.normalizeIPv4Mask. destruct Hml as [E|E]; rewrite E; cbn [Nat.eqb]; [done|].
    rewrite length_drop, E. split; [done|by apply bytes_ok_drop]. }
  destruct Hmask as [Hmlen Hmok].
  assert (Hs : forall b, length b = 4%nat -> ipString b = Some (join dot (map itoa b))).
  { intros b Hb. unfold ipString, IpPool.to4. by rewrite Hb. }
  rewrite (Hs mask Hmlen), (Hs clientIP Hl). cbn [mbind option_bind].
  set (opts := pushOptions _ _ _ _ _ _ _).
  assert (Hcip : 0 ∉ cipher /\ Cipher.comma ∉ cipher).
  { unfold Cipher.supportedDataCiphers in Hc. rewrite !elem_of_cons, elem_of_nil in Hc.
    destruct Hc as [->|[->|[]]]; split; decide_now. }
  assert (Havoid : forall sep, plain sep -> Forall (fun w => sep ∉ w) opts).
  { intros sep Hsep. apply pushOptions_avoid; try done; try lia.
    - apply join_itoa_avoid; [done|..]; by destruct Hsep as [->| ->].
    - apply join_itoa_avoid; [done|..]; by destruct Hsep as [->| ->].
    - destruct Hsep as [->| ->]; apply Hcip. }
  exists (join Cipher.comma opts), (join dot (map itoa clientIP)), (join dot (map itoa mask)).
  split_and!.
  - done.
  - intros Hlt. unfold writeControlString, readControlString. rewrite <- (assoc_L (++)).
    rewrite readLoop_spec by (apply join_avoid; [done|apply Havoid; by left]).
    by rewrite (proj2 (Nat.ltb_lt _ _)).
  - apply split_join; [done|apply Havoid; by right].
  - apply (parse_ipString clientIP); [done|done|by apply Hs].
  - apply (parse_ipString mask); [done|done|by apply Hs].
  - apply atoi_itoa. lia.
Qed.

(** ** Witnesses *)

Lemma push_reply_roundtrip_witness :
  exists reply client netmask,
    buildPushReply [10; 9; 0; 2] (IpPool.mkIPNet [10; 9; 0; 0] (replicate 12 255 ++ [255; 255; 255; 0])) 7
      Cipher.AES256 true 10 60 = Some (writeControlString reply) /\
    ((length reply < 1024)%nat ->
       readControlString (writeControlString reply ++ [1]) 1024 = Ok (reply, [1])) /\
    split_on Cipher.comma reply = pushOptions client netmask 7 Cipher.AES256 true 10 60 /\
    parseIPv4 client = map Some [10; 9; 0; 2] /\
    parseIPv4 netmask = map Some [255; 255; 255; 0] /\ atoi (itoa 7) = Some 7.
Proof.
  apply (push_reply_roundtrip [10; 9; 0; 2]
    (IpPool.mkIPNet [10; 9; 0; 0] (replicate 12 255 ++ [255; 255; 255; 0])) 7 Cipher.AES256 true 10 60 [1] 1024);
    [decide_now|done|decide_now|by right|decide_now|decide_now|done|done].
Defined.

Example push_reply_text :
  buildPushReply [10; 9; 0; 2] (IpPool.mkIPNet [10; 9; 0; 0] [255; 255; 255; 0]) 7 Cipher.AES256 true 10 60 =
  Some (of_string
    "PUSH_REPLY,ifconfig 10.9.0.2 255.255.255.0,topology subnet,peer-id 7,cipher AES-256-GCM,ping 10,ping-restart 60"
    ++ [0]).
Proof. vm_compute. reflexivity. Qed.

End Push.
