(* ===== verification/Frame.v ===== *)
(** * Frame: packet construction and the Internet checksum

    Model of [netstack/internal/frame/frame.go].  The checksum loops keep Go's
    32-bit running sum; a [netip.Addr] is its four bytes.  The central fact is
    that the folding loop computes the one's-complement sum, so a packet with
    its checksum filled in always verifies. *)

From S2P Require Import Prelude.

Module Frame.

Definition MinIPv4HeaderLen : Z := 20.
Definition DefaultTTL : Z := 64.
Definition ProtocolICMP : Z := 1.
Definition ProtocolTCP : Z := 6.
Definition ProtocolUDP : Z := 17.
Definition FlagMoreFragments : Z := 8192.
Definition UDPHeaderLen : Z := 8.
Definition ICMPTypeEchoRequest : Z := 8.
Definition MinICMPHeaderLen : Z := 8.

(** ** Checksums *)

(** The word loop with its odd trailing byte, on a 32-bit running sum. *)
Fixpoint sumWords (sum : Z) (b : bytes) : Z :=
  match b with
  | b0 :: b1 :: rest => sumWords (sum +u32 Z.lor (Z.shiftl b0 8) b1) rest
  | [b0] => sum +u32 Z.shiftl b0 8
  | [] => sum
  end.

(** [for sum>>16 != 0 { sum = (sum & 0xFFFF) + (sum >> 16) }]; two rounds
    bring any 32-bit sum below 2^16 ([fold16_done]). *)
Fixpoint foldLoop (fuel : nat) (sum : Z) : Z :=
  match fuel with
  | O => sum
  | S fuel =>
      if negb (Z.shiftr sum 16 =? 0)
      then foldLoop fuel (Z.land sum 65535 +u32 Z.shiftr sum 16)
      else sum
  end.
Definition fold16 (sum : Z) : Z := foldLoop 2 sum.

(** [^uint16(sum)]. *)
Definition complement16 (sum : Z) : Z := 65535 - u16 sum.

Definition InternetChecksum (b : bytes) : Z := complement16 (fold16 (sumWords 0 b)).

Definition PseudoHeaderSum (src dst : bytes) (protocol length : Z) : Z :=
  sumWords (sumWords 0 src) dst +u32 protocol +u32 length.

Definition TransportChecksum (src dst : bytes) (protocol : Z) (payload : bytes) : Z :=
  complement16 (fold16
    (sumWords (PseudoHeaderSum src dst protocol (u16 (zlen payload))) payload)).

(** [binary.BigEndian.PutUint16(b[i:i+2], v)]. *)
Definition put16 {E : Type} (b : bytes) (i : nat) (v : Z) : outcome E bytes :=
  if (i + 2 <=? length b)%nat then Ok (take i b ++ be16 v ++ drop (i + 2) b) else Panic.

(** ** Construction *)

(** The header of [BuildIPv4] with its checksum field zero. *)
Definition ipv4HeaderBytes (totalLen : Z) (src dstAddr : bytes) (protocol : Z) : bytes :=
  [69; 0] ++ be16 (u16 totalLen) ++ be16 0 ++ be16 0 ++ [DefaultTTL; protocol] ++ [0; 0] ++ src ++ dstAddr.

Definition BuildIPv4 {E : Type} (dst : bytes) (src dstAddr : bytes) (protocol : Z) (payload : bytes)
    : outcome E bytes :=
  let totalLen := MinIPv4HeaderLen + zlen payload in
  let hdr := ipv4HeaderBytes totalLen src dstAddr protocol in
  hdr ← put16 hdr 10 (InternetChecksum hdr);
  Ok (dst ++ hdr ++ payload).

Definition BuildUDP {E : Type} (dst src dstAddr : bytes) (srcPort dstPort : Z) (payload : bytes)
    : outcome E bytes :=
  let totalLen := UDPHeaderLen + zlen payload in
  let segment := be16 srcPort ++ be16 dstPort ++ be16 (u16 totalLen) ++ [0; 0] ++ payload in
  let checksum := TransportChecksum src dstAddr ProtocolUDP segment in
  let checksum := if checksum =? 0 then 65535 else checksum in
  segment ← put16 segment 6 checksum;
  Ok (dst ++ segment).

(** ** The one's-complement sum *)

(** The sum of the 16-bit words, unbounded. *)
Fixpoint wsum (b : bytes) : Z :=
  match b with
  | b0 :: b1 :: rest => b0 * 256 + b1 + wsum rest
  | [b0] => b0 * 256
  | [] => 0
  end.

(** Induction two bytes at a time. *)
Lemma pair_ind (P : bytes -> Prop) :
  P [] -> (forall a, P [a]) -> (forall a b l, P l -> P (a :: b :: l)) -> forall l, P l.
Proof.
  intros H0 H1 H2 l. enough (P l /\ forall a, P (a :: l)) by tauto.
  induction l as [|x l [IH1 IH2]]; [auto|]. split; [done|]. intros a. auto.
Qed.

Lemma word_value (b0 b1 : Z) : is_u8 b1 -> Z.lor (Z.shiftl b0 8) b1 = b0 * 256 + b1.
Proof. intros Hb. by apply lor_shiftl_add. Qed.

Lemma wsum_bounds (b : bytes) : bytes_ok b -> 0 <= wsum b <= 65535 * ((zlen b + 1) / 2).
Proof.
  induction b as [|a|a a' b IH] using pair_ind; intros Hb; [done| |].
  - apply Forall_cons in Hb as [Ha _]. unfold is_u8 in Ha.
    change ((zlen [a] + 1) / 2) with 1. cbn. lia.
  - apply Forall_cons in Hb as [Ha Hb]. apply Forall_cons in Hb as [Ha' Hb].
    specialize (IH Hb). unfold is_u8 in *. rewrite !zlen_cons.
    replace (1 + (1 + zlen b) + 1) with ((zlen b + 1) + 1 * 2) by lia.
    rewrite Z.div_add by lia. cbn. lia.
Qed.

Lemma sumWords_wsum (sum : Z) (b : bytes) :
  bytes_ok b -> is_u32 sum -> sumWords sum b = u32 (sum + wsum b).
Proof.
  revert sum. induction b as [|a|a a' b IH] using pair_ind; intros sum Hb Hs.
  - cbn. rewrite Z.add_0_r. by rewrite u32_id.
  - cbn [sumWords wsum]. by rewrite Z.shiftl_mul_pow2 by lia.
  - apply Forall_cons in Hb as [Ha Hb]. apply Forall_cons in Hb as [Ha' Hb].
    cbn [sumWords wsum]. rewrite word_value, IH by (done || apply u32_range).
    unfold u32. rewrite Z.add_mod_idemp_l by done. f_equal. lia.
Qed.

Lemma wsum_app (a c : bytes) : Nat.Even (length a) -> wsum (a ++ c) = wsum a + wsum c.
Proof.
  induction a as [|x|x y a IH] using pair_ind; intros He; [done| |].
  - destruct He as [k Hk]. cbn in Hk. lia.
  - cbn [app wsum]. rewrite IH; [lia|]. destruct He as [k Hk]. exists (k - 1)%nat. cbn in Hk. lia.
Qed.

Lemma wsum_be16 (v : Z) : is_u16 v -> wsum (be16 v) = v.
Proof. intros. cbn. word_lia. Qed.

(** The folding loop ends and gives the one's-complement sum. *)
Lemma fold16_spec (s : Z) :
  is_u32 s -> fold16 s = if s =? 0 then 0 else (s - 1) mod 65535 + 1.
Proof.
  intros Hs. unfold fold16, foldLoop. rewrite !Z.shiftr_div_pow2, !(Z.land_ones _ 16) by lia.
  change (2 ^ 16) with 65536.
  destruct (Z.eqb_spec (s / 65536) 0) as [H0|H0]; cbn [negb].
  - destruct (Z.eqb_spec s 0); [done|]. word_lia.
  - rewrite (u32_id (s mod 65536 + s / 65536)) by word_lia.
    destruct (Z.eqb_spec s 0) as [->|Hne]; [done|].
    destruct (Z.eqb_spec ((s mod 65536 + s / 65536) / 65536) 0) as [H1|H1]; cbn [negb].
    + word_lia.
    + rewrite u32_id by word_lia. word_lia.
Qed.

Lemma fold16_done (s : Z) : is_u32 s -> 0 <= fold16 s <= 65535.
Proof. intros Hs. rewrite fold16_spec by done. destruct (s =? 0); [lia|]. word_lia. Qed.

(** Any sum completed by its own complement folds to all ones. *)
Lemma fold16_completed (s : Z) :
  0 <= s -> s + 65535 < 4294967296 -> fold16 (s + complement16 (fold16 s)) = 65535.
Proof.
  intros H0 Hs. unfold complement16.
  rewrite (u16_id (fold16 s)) by (pose proof (fold16_done s ltac:(unfold is_u32; lia)); unfold is_u16; lia).
  pose proof (fold16_done s ltac:(unfold is_u32; lia)) as Hb.
  rewrite (fold16_spec (s + _)) by (unfold is_u32; lia).
  rewrite (fold16_spec s) in * by (unfold is_u32; lia).
  destruct (Z.eqb_spec s 0) as [->|Hne]; [done|].
  rewrite (proj2 (Z.eqb_neq _ 0)) by lia.
  pose proof (Z.div_mod (s - 1) 65535 ltac:(lia)) as E.
  replace (s + (65535 - ((s - 1) mod 65535 + 1)) - 1) with (65534 + (s - 1) / 65535 * 65535) by lia.
  rewrite Z.mod_add by lia. done.
Qed.

Lemma complement16_range (s : Z) : is_u16 (complement16 s).
Proof. unfold complement16. word_lia. Qed.

(** The running sum over a buffer with a 16-bit field at an even offset. *)
Lemma sumWords_field (base v : Z) (a c : bytes) :
  bytes_ok a -> bytes_ok c -> Nat.Even (length a) -> 0 <= base -> is_u16 v ->
  base + wsum a + wsum c + v < 4294967296 ->
  sumWords base (a ++ be16 v ++ c) = base + wsum a + wsum c + v.
Proof.
  intros Ha Hc He Hb Hv Hlt. pose proof (wsum_bounds a Ha). pose proof (wsum_bounds c Hc).
  unfold is_u16 in Hv. rewrite sumWords_wsum.
  - rewrite !wsum_app, wsum_be16 by (done || (exists 1%nat; done)).
    rewrite u32_id by (unfold is_u32; lia). lia.
  - apply bytes_ok_app. split; [done|]. apply bytes_ok_app. auto with word.
  - unfold is_u32. lia.
Qed.

(** A checksum over a prefix sum: filling the zeroed field with the checksum
    makes the whole verify. *)
Lemma checksum_fills (base : Z) (a c : bytes) :
  bytes_ok a -> bytes_ok c -> Nat.Even (length a) -> 0 <= base ->
  base + wsum a + wsum c + 65535 < 4294967296 ->
  let ck := complement16 (fold16 (sumWords base (a ++ [0; 0] ++ c))) in
  complement16 (fold16 (sumWords base (a ++ be16 ck ++ c))) = 0.
Proof.
  intros Ha Hc He Hb0 Hb ck.
  pose proof (wsum_bounds a Ha). pose proof (wsum_bounds c Hc).
  assert (Hz : sumWords base (a ++ [0; 0] ++ c) = base + wsum a + wsum c).
  { change [0; 0] with (be16 0). rewrite sumWords_field by (done || (unfold is_u16; lia)). lia. }
  unfold ck. rewrite Hz.
  pose proof (complement16_range (fold16 (base + wsum a + wsum c))) as Hr. unfold is_u16 in Hr.
  rewrite sumWords_field by (done || (unfold is_u16; lia)). by rewrite fold16_completed by lia.
Qed.

Lemma put16_at {E : Type} (a c : bytes) (x y v : Z) (i : nat) :
  length a = i -> put16 (E := E) (a ++ [x; y] ++ c) i v = Ok (a ++ be16 v ++ c).
Proof.
  intros <-. unfold put16. rewrite (proj2 (Nat.leb_le _ _)) by (rewrite !length_app; cbn; lia).
  rewrite take_app_length, <- drop_drop, drop_app_length. done.
Qed.

Definition is_addr (a : bytes) : Prop := length a = 4%nat /\ bytes_ok a.

#[export] Instance is_addr_dec (a : bytes) : Decision (is_addr a).
Proof. unfold is_addr. apply _. Defined.

(** The shape of a built packet: the 20-byte header with its checksum, and the
    header verifies. *)
Lemma BuildIPv4_shape {E : Type} (src dstAddr : bytes) (protocol : Z) (payload : bytes) :
  is_addr src -> is_addr dstAddr -> is_u8 protocol ->
  exists ck hdr, is_u16 ck /\
    hdr = [69; 0] ++ be16 (u16 (20 + zlen payload)) ++ [0; 0; 0; 0; 64; protocol] ++ be16 ck ++
               src ++ dstAddr /\
    BuildIPv4 (E := E) [] src dstAddr protocol payload = Ok (hdr ++ payload) /\
    length hdr = 20%nat /\ bytes_ok hdr /\ InternetChecksum hdr = 0.
Proof.
  intros [Hs1 Hs2] [Hd1 Hd2] Hp.
  set (a := [69; 0] ++ be16 (u16 (20 + zlen payload)) ++ [0; 0; 0; 0; 64; protocol]).
  set (c := src ++ dstAddr).
  assert (Ha : bytes_ok a).
  { unfold a. repeat (apply bytes_ok_app; split); [decide_now|apply be16_bytes|].
    repeat (apply Forall_cons_2; [first [exact Hp|unfold is_u8; lia]|]). constructor. }
  assert (Hc : bytes_ok c) by (by apply bytes_ok_app).
  assert (Hcl : length c = 8%nat) by (unfold c; rewrite length_app; lia).
  set (ck := InternetChecksum (a ++ [0; 0] ++ c)).
  assert (Hck : is_u16 ck) by apply complement16_range.
  exists ck, (a ++ be16 ck ++ c). split_and!; [done|done| | | |].
  - unfold BuildIPv4.
    assert (Hz : ipv4HeaderBytes (MinIPv4HeaderLen + zlen payload) src dstAddr protocol =
      a ++ [0; 0] ++ c) by done.
    rewrite Hz, put16_at by done. done.
  - rewrite !length_app, Hcl. done.
  - apply bytes_ok_app. split; [done|]. apply bytes_ok_app. auto with word.
  - unfold ck, InternetChecksum. apply checksum_fills; [done|done|by exists 5%nat|lia|].
    pose proof (wsum_bounds a Ha) as H1. pose proof (wsum_bounds c Hc) as H2.
    assert (zlen a = 10) as E1 by done. assert (zlen c = 8) as E2 by (unfold zlen; lia).
    rewrite E1 in H1. rewrite E2 in H2.
    change ((10 + 1) / 2) with 5 in H1. change ((8 + 1) / 2) with 4 in H2. lia.
Qed.

(** What a receiver computes over a UDP datagram: zero for a valid checksum. *)
Lemma PseudoHeaderSum_bounds (src dst : bytes) (protocol len : Z) :
  is_addr src -> is_addr dst -> is_u8 protocol -> is_u16 len ->
  0 <= PseudoHeaderSum src dst protocol len <= 65535 * 5 + 255.
Proof.
  intros [Hs1 Hs2] [Hd1 Hd2] Hp Hl. unfold PseudoHeaderSum, is_u8, is_u16 in *.
  pose proof (wsum_bounds src Hs2) as B1. pose proof (wsum_bounds dst Hd2) as B2.
  unfold zlen in B1, B2. rewrite Hs1 in B1. rewrite Hd1 in B2.
  change ((Z.of_nat 4 + 1) / 2) with 2 in B1, B2.
  rewrite (sumWords_wsum 0 src), Z.add_0_l, (u32_id (wsum src)) by (done || (unfold is_u32; lia)).
  rewrite sumWords_wsum by (done || (unfold is_u32; lia)).
  rewrite (u32_id (wsum src + wsum dst)) by (unfold is_u32; lia).
  rewrite (u32_id (wsum src + wsum dst + protocol)) by (unfold is_u32; lia).
  rewrite u32_id by (unfold is_u32; lia). lia.
Qed.

(** A built UDP datagram verifies at the receiver, its checksum field is never
    the reserved zero, and header and payload are in place. *)
Lemma BuildUDP_shape {E : Type} (src dstAddr : bytes) (srcPort dstPort : Z) (payload : bytes) :
  is_addr src -> is_addr dstAddr -> is_u16 srcPort -> is_u16 dstPort -> bytes_ok payload ->
  zlen payload <= 65527 ->
  exists ck seg, is_u16 ck /\ ck <> 0 /\
    seg = be16 srcPort ++ be16 dstPort ++ be16 (8 + zlen payload) ++ be16 ck ++ payload /\
    BuildUDP (E := E) [] src dstAddr srcPort dstPort payload = Ok seg /\
    TransportChecksum src dstAddr ProtocolUDP seg = 0.
Proof.
  intros Hs Hd Hsp Hdp Hok Hlen. pose proof (zlen_nonneg payload) as H0.
  set (a := be16 srcPort ++ be16 dstPort ++ be16 (8 + zlen payload)).
  assert (Ha : bytes_ok a) by (unfold a; repeat (apply bytes_ok_app; split); apply be16_bytes).
  pose proof (wsum_bounds a Ha) as B1. pose proof (wsum_bounds payload Hok) as B2.
  assert (zlen a = 6) as E1 by done. rewrite E1 in B1. change ((6 + 1) / 2) with 3 in B1.
  assert (B3 : (zlen payload + 1) / 2 <= 32764) by (apply Z.div_le_upper_bound; lia).
  assert (Hseg : zlen (a ++ [0; 0] ++ payload) = 8 + zlen payload) by (rewrite !zlen_app, E1; change (zlen [0; 0]) with 2; lia).
  set (base := PseudoHeaderSum src dstAddr ProtocolUDP (u16 (8 + zlen payload))).
  assert (Hbase : 0 <= base <= 65535 * 5 + 255).
  { apply PseudoHeaderSum_bounds; [done|done|decide_now|apply u16_range]. }
  set (ck := complement16 (fold16 (sumWords base (a ++ [0; 0] ++ payload)))).
  assert (Hfill : complement16 (fold16 (sumWords base (a ++ be16 ck ++ payload))) = 0)
    by (apply checksum_fills; [done|done|by exists 3%nat|lia|lia]).
  assert (Hck : is_u16 ck) by apply complement16_range.
  set (ck' := if ck =? 0 then 65535 else ck).
  exists ck', (a ++ be16 ck' ++ payload). split; [unfold ck'; destruct (ck =? 0); [decide_now|done]|].
  split; [unfold ck'; by destruct (Z.eqb_spec ck 0)|].
  split; [unfold a; by rewrite <- !(assoc_L (++))|]. split.
  - unfold BuildUDP. change UDPHeaderLen with 8. rewrite (u16_id (8 + zlen payload)) by (unfold is_u16; lia).
    assert (Hz : be16 srcPort ++ be16 dstPort ++ be16 (8 + zlen payload) ++ [0; 0] ++ payload =
      a ++ [0; 0] ++ payload) by (unfold a; by rewrite <- !(assoc_L (++))).
    rewrite Hz. unfold TransportChecksum. rewrite Hseg. fold base. fold ck. fold ck'.
    rewrite put16_at by done. done.
  - unfold TransportChecksum.
    assert (Hl' : zlen (a ++ be16 ck' ++ payload) = 8 + zlen payload)
      by (rewrite !zlen_app, E1, be16_length; lia).
    rewrite Hl'. fold base. unfold ck'. destruct (Z.eqb_spec ck 0) as [Hc0|]; [|done].
    (* all ones instead of zero: the same one's-complement value *)
    assert (Hsum : forall v, is_u16 v -> sumWords base (a ++ be16 v ++ payload) =
      base + wsum a + wsum payload + v).
    { intros v Hv. apply sumWords_field; try done; [by exists 3%nat|lia|]. unfold is_u16 in Hv. lia. }
    rewrite Hsum by decide_now. rewrite Hc0, Hsum in Hfill by decide_now.
    unfold complement16 in *. rewrite !fold16_spec in * by (unfold is_u32; lia).
    rewrite (proj2 (Z.eqb_neq (_ + 65535) 0)) by lia.
    destruct (Z.eqb_spec (base + wsum a + wsum payload + 0) 0) as [|Hne]; [done|].
    replace (base + wsum a + wsum payload + 65535 - 1) with
      (base + wsum a + wsum payload + 0 - 1 + 1 * 65535) by lia.
    by rewrite Z.mod_add.
Qed.
End Frame.
