(* ===== verification/IPv4.v ===== *)
(** * IPv4: header parsing and fragmentation

    Model of [netstack/ipv4.go].  Every index and sub-slice is a partial operation, so
    that arbitrary input cannot make the parser panic is a theorem. *)

From S2P Require Import Prelude Frame.
Import Frame.

Module IPv4.

Definition minIPv4HeaderLen : Z := MinIPv4HeaderLen.
Definition maxIPv4HeaderLen : Z := 60.
Definition fragOffsetMask : Z := 8191.
Definition flagDontFragment : Z := 16384.
Definition maxIPv4Datagram : Z := 65535.

Inductive ip_error :=
  | errTooShort | errNotIPv4 | errBadIHL | errBadTotalLength | errBadFragment
  | errFuel. (* the fragmentation loop did not end: excluded by [fragmentIPv4_spec] *)

#[export] Instance ip_error_eq_dec : EqDecision ip_error.
Proof. solve_decision. Defined.

Record ipv4Header := mkIPv4Header {
  h_ihl : Z;
  h_totalLen : Z;
  h_protocol : Z;
  h_src : bytes;
  h_dst : bytes;
  h_payloadOff : Z;
  h_id : Z;
  h_moreFragments : bool;
  h_fragOffset : Z;
}.

Definition isFragment (h : ipv4Header) : bool := h_moreFragments h || negb (h_fragOffset h =? 0).

(** The fragment geometry check. *)
Definition badFragment (moreFragments : bool) (fragOffset payloadLen : Z) : bool :=
  (moreFragments || negb (fragOffset =? 0)) &&
  ((payloadLen =? 0) || (moreFragments && negb (payloadLen mod 8 =? 0)) ||
   (maxIPv4Datagram <? fragOffset + payloadLen)).

Definition parseIPv4 (pkt : bytes) : outcome ip_error ipv4Header :=
  if zlen pkt <? minIPv4HeaderLen then Err errTooShort else
  b0 ← index pkt 0;
  if negb (Z.shiftr b0 4 =? 4) then Err errNotIPv4 else
  let ihl := Z.land b0 15 * 4 in
  if (ihl <? minIPv4HeaderLen) || (zlen pkt <? ihl) then Err errBadIHL else
  f2 ← slice pkt 2 4;
  totalLen ← get_u16 f2;
  if (totalLen <? ihl) || (zlen pkt <? totalLen) then Err errBadTotalLength else
  f4 ← slice pkt 4 6;
  id ← get_u16 f4;
  f6 ← slice pkt 6 8;
  flagsFragOffset ← get_u16 f6;
  let moreFragments := negb (Z.land flagsFragOffset FlagMoreFragments =? 0) in
  let fragOffset := Z.land flagsFragOffset fragOffsetMask * 8 in
  if badFragment moreFragments fragOffset (totalLen - ihl) then Err errBadFragment else
  protocol ← index pkt 9;
  src ← slice pkt 12 16;
  dst ← slice pkt 16 20;
  Ok (mkIPv4Header ihl totalLen protocol src dst ihl id moreFragments fragOffset).

Definition buildIPv4 (dst src dstAddr : bytes) (protocol : Z) (payload : bytes)
    : outcome ip_error bytes :=
  BuildIPv4 dst src dstAddr protocol payload.

(** One fragment: the datagram's header over a chunk, rewritten. *)
Definition oneFragment (hdr : ipv4Header) (pkt chunk : bytes) (off : Z) (more : bool) (id : Z)
    : outcome ip_error bytes :=
  head ← slice pkt 0 (h_ihl hdr);
  let frag := head ++ chunk in
  frag ← put16 frag 2 (u16 (h_ihl hdr + zlen chunk));
  frag ← put16 frag 4 id;
  let flagsFragOffset := u16 (off / 8) in
  let flagsFragOffset :=
    if more then Z.lor flagsFragOffset FlagMoreFragments else flagsFragOffset in
  frag ← put16 frag 6 flagsFragOffset;
  frag ← put16 frag 10 0;
  h ← slice frag 0 (h_ihl hdr);
  put16 frag 10 (InternetChecksum h).

(** The loop over the payload; every round takes at least one byte, so the
    length of the payload is enough fuel. *)
Fixpoint fragLoop (fuel : nat) (hdr : ipv4Header) (pkt payload : bytes) (maxData id off : Z)
    : outcome ip_error (list bytes) :=
  if negb (off <? zlen payload) then Ok [] else
  match fuel with
  | O => Err errFuel
  | S fuel =>
      let last := off + maxData in
      let last := if zlen payload <? last then zlen payload else last in
      chunk ← slice payload off last;
      frag ← oneFragment hdr pkt chunk off (last <? zlen payload) id;
      frags ← fragLoop fuel hdr pkt payload maxData id (off + maxData);
      Ok (frag :: frags)
  end.

Definition fragmentIPv4 (hdr : ipv4Header) (pkt : bytes) (mtu id : Z)
    : outcome ip_error (list bytes) :=
  let maxData := Z.ldiff (mtu - h_ihl hdr) 7 in
  if maxData <=? 0 then Ok [] else
  payload ← slice pkt (h_payloadOff hdr) (h_totalLen hdr);
  fragLoop (length payload) hdr pkt payload maxData id 0.

(** ** Parsing *)

(** A packet of at least 20 bytes, taken apart. *)
Lemma twenty_bytes (pkt : bytes) :
  20 <= zlen pkt ->
  exists b0 b1 b2 b3 b4 b5 b6 b7 b8 b9 b10 b11 s0 s1 s2 s3 d0 d1 d2 d3 rest,
    pkt = b0 :: b1 :: b2 :: b3 :: b4 :: b5 :: b6 :: b7 :: b8 :: b9 :: b10 :: b11 ::
          s0 :: s1 :: s2 :: s3 :: d0 :: d1 :: d2 :: d3 :: rest.
Proof.
  intros Hl. do 20 (destruct pkt as [|? pkt]; [unfold zlen in Hl; cbn in Hl; lia|]).
  repeat eexists.
Qed.

(** What the parser decides, read off the bytes. *)
Lemma parseIPv4_bytes (b0 b1 b2 b3 b4 b5 b6 b7 b8 b9 b10 b11 s0 s1 s2 s3 d0 d1 d2 d3 : Z)
    (rest : bytes) :
  let pkt := b0 :: b1 :: b2 :: b3 :: b4 :: b5 :: b6 :: b7 :: b8 :: b9 :: b10 :: b11 ::
             s0 :: s1 :: s2 :: s3 :: d0 :: d1 :: d2 :: d3 :: rest in
  let ihl := Z.land b0 15 * 4 in
  let totalLen := b2 * 256 + b3 in
  let more := negb (Z.land (b6 * 256 + b7) 8192 =? 0) in
  let off := Z.land (b6 * 256 + b7) 8191 * 8 in
  parseIPv4 pkt =
    if negb (Z.shiftr b0 4 =? 4) then Err errNotIPv4 else
    if (ihl <? 20) || (zlen pkt <? ihl) then Err errBadIHL else
    if (totalLen <? ihl) || (zlen pkt <? totalLen) then Err errBadTotalLength else
    if badFragment more off (totalLen - ihl) then Err errBadFragment else
    Ok (mkIPv4Header ihl totalLen b9 [s0; s1; s2; s3] [d0; d1; d2; d3] ihl (b4 * 256 + b5) more off).
Proof.
  intros pkt ihl totalLen more off.
  assert (Hl : 20 <= zlen pkt).
  { unfold pkt. rewrite !zlen_cons. pose proof (zlen_nonneg rest). lia. }
  unfold parseIPv4. change minIPv4HeaderLen with 20. rewrite (proj2 (Z.ltb_ge _ 20)) by done.
  change (index pkt 0) with (Ok (E := ip_error) b0). outcome_simpl.
  destruct (negb (Z.shiftr b0 4 =? 4)); [done|]. fold ihl.
  destruct ((ihl <? 20) || (zlen pkt <? ihl)); [done|].
  rewrite (slice_ok pkt 2 4) by lia. outcome_simpl.
  change (take (Z.to_nat (4 - 2)) (drop (Z.to_nat 2) pkt)) with [b2; b3].
  change (get_u16 [b2; b3]) with (Ok (E := ip_error) totalLen). outcome_simpl.
  destruct ((totalLen <? ihl) || (zlen pkt <? totalLen)); [done|].
  rewrite (slice_ok pkt 4 6), (slice_ok pkt 6 8) by lia. outcome_simpl.
  change (take (Z.to_nat (6 - 4)) (drop (Z.to_nat 4) pkt)) with [b4; b5].
  change (take (Z.to_nat (8 - 6)) (drop (Z.to_nat 6) pkt)) with [b6; b7].
  change (get_u16 [b4; b5]) with (Ok (E := ip_error) (b4 * 256 + b5)).
  change (get_u16 [b6; b7]) with (Ok (E := ip_error) (b6 * 256 + b7)). outcome_simpl.
  change fragOffsetMask with 8191. change FlagMoreFragments with 8192. fold more off.
  destruct (badFragment more off (totalLen - ihl)); [done|].
  change (index pkt 9) with (Ok (E := ip_error) b9). outcome_simpl.
  rewrite (slice_ok pkt 12 16), (slice_ok pkt 16 20) by lia. outcome_simpl. done.
Qed.

(** The parser never panics, and what it accepts is consistent with the
    buffer. *)
Lemma parseIPv4_ok (pkt : bytes) :
  bytes_ok pkt ->
  match parseIPv4 pkt with
  | Ok h =>
      20 <= h_ihl h <= maxIPv4HeaderLen /\ h_ihl h <= h_totalLen h <= zlen pkt /\
      h_ihl h mod 4 = 0 /\ h_payloadOff h = h_ihl h /\
      is_addr (h_src h) /\ is_addr (h_dst h) /\ is_u8 (h_protocol h) /\ is_u16 (h_id h) /\
      h_totalLen h <= 65535 /\ 0 <= h_fragOffset h /\ h_fragOffset h mod 8 = 0 /\
      badFragment (h_moreFragments h) (h_fragOffset h) (h_totalLen h - h_ihl h) = false
  | Err _ => True
  | Panic => False
  end.
Proof.
  intros Hok. destruct (Z.lt_ge_cases (zlen pkt) 20) as [Hs|Hl].
  { unfold parseIPv4. change minIPv4HeaderLen with 20. by rewrite (proj2 (Z.ltb_lt _ 20)). }
  destruct (twenty_bytes pkt Hl) as (b0 & b1 & b2 & b3 & b4 & b5 & b6 & b7 & b8 & b9 & b10 & b11 &
    s0 & s1 & s2 & s3 & d0 & d1 & d2 & d3 & rest & ->).
  rewrite parseIPv4_bytes. unfold bytes_ok in Hok. rewrite !Forall_cons in Hok.
  destruct Hok as (? & ? & ? & ? & ? & ? & ? & ? & ? & ? & ? & ? & ? & ? & ? & ? & ? & ? & ? & ? & _).
  destruct (negb _); [done|].
  destruct (_ || _) eqn:E1; [done|]. apply orb_false_iff in E1 as [E1 E2].
  destruct (_ || _) eqn:E3; [done|]. apply orb_false_iff in E3 as [E3 E4].
  destruct (badFragment _ _ _) eqn:EB; [done|].
  cbn [h_ihl h_totalLen h_payloadOff h_src h_dst h_protocol h_id h_moreFragments h_fragOffset].
  assert (0 <= Z.land b0 15 <= 15).
  { change 15 with (Z.ones 4) at 1 2. rewrite Z.land_ones by lia.
    change (2 ^ 4) with 16. pose proof (Z.mod_pos_bound b0 16). lia. }
  assert (0 <= Z.land (b6 * 256 + b7) 8191).
  { apply Z.land_nonneg. lia. }
  unfold maxIPv4HeaderLen, is_u8, is_u16, is_addr in *.
  split_and!; try lia; try done; try (by rewrite Z.mod_mul);
    repeat (apply Forall_cons_2; [unfold is_u8; lia|]); apply Forall_nil_2.
Qed.

(** ** Built packets parse back *)

(** The payload a parsed packet carries. *)
Definition payload_of (h : ipv4Header) (pkt : bytes) : bytes :=
  take (Z.to_nat (h_totalLen h - h_payloadOff h)) (drop (Z.to_nat (h_payloadOff h)) pkt).

Lemma parse_built (src dst : bytes) (protocol : Z) (payload pkt : bytes) :
  is_addr src -> is_addr dst -> is_u8 protocol -> zlen payload <= 65515 ->
  buildIPv4 [] src dst protocol payload = Ok pkt ->
  parseIPv4 pkt = Ok (mkIPv4Header 20 (20 + zlen payload) protocol src dst 20 0 false 0) /\
  drop 20 pkt = payload /\ zlen pkt = 20 + zlen payload /\ InternetChecksum (take 20 pkt) = 0.
Proof.
  intros Hs Hd Hp Hl HB. pose proof (zlen_nonneg payload).
  destruct (BuildIPv4_shape (E := ip_error) src dst protocol payload Hs Hd Hp)
    as (ck & hdr & Hck & Hhdr & E & Hlen & Hok & Hsum).
  unfold buildIPv4 in HB. rewrite E in HB. apply (inj Ok) in HB. subst pkt.
  assert (Hz : zlen (hdr ++ payload) = 20 + zlen payload)
    by (rewrite zlen_app; unfold zlen at 1; rewrite Hlen; done).
  split_and!; [|by apply drop_app_length'|done|by rewrite take_app_length'].
  destruct Hs as [Hs _], Hd as [Hd _].
  destruct src as [|s0 [|s1 [|s2 [|s3 [|? ?]]]]]; try (cbn in Hs; lia).
  destruct dst as [|d0 [|d1 [|d2 [|d3 [|? ?]]]]]; try (cbn in Hd; lia).
  rewrite (u16_id (20 + zlen payload)) in Hhdr by (unfold is_u16; lia).
  rewrite Hhdr in Hz |- *. cbn [app be16] in Hz |- *. rewrite parseIPv4_bytes.
  rewrite Hz. change (negb (Z.shiftr 69 4 =? 4)) with false. cbv iota.
  change (Z.land 69 15 * 4) with 20.
  assert (Ht : u8 ((20 + zlen payload) / 256) * 256 + u8 (20 + zlen payload) = 20 + zlen payload)
    by word_lia.
  rewrite Ht. replace ((20 <? 20) || (20 + zlen payload <? 20)) with false by lia.
  replace ((20 + zlen payload <? 20) || (20 + zlen payload <? 20 + zlen payload)) with false by lia.
  reflexivity.
Qed.

(** ** Fragments *)

(** The header of the fragment at [off] carrying [n] bytes of the datagram. *)
Definition fragment_header (h : ipv4Header) (id : Z) (off n : Z) (more : bool) : ipv4Header :=
  mkIPv4Header (h_ihl h) (h_ihl h + n) (h_protocol h) (h_src h) (h_dst h) (h_ihl h) id more off.

Lemma flags_word (off : Z) (more : bool) :
  0 <= off <= 65535 -> off mod 8 = 0 ->
  let w := if more then Z.lor (u16 (off / 8)) FlagMoreFragments else u16 (off / 8) in
  is_u16 w /\ negb (Z.land w 8192 =? 0) = more /\ Z.land w 8191 * 8 = off.
Proof.
  intros Ho Hm w. assert (Hq : 0 <= off / 8 < 8192) by word_lia.
  assert (Hu : u16 (off / 8) = off / 8) by (apply u16_id; unfold is_u16; lia).
  assert (Hlow : Z.land (off / 8) 8191 = off / 8).
  { change 8191 with (Z.ones 13). rewrite Z.land_ones by lia. apply Z.mod_small.
    change (2 ^ 13) with 8192. lia. }
  assert (Hhigh : Z.land (off / 8) 8192 = 0).
  { apply Z.bits_inj'. intros n Hn. rewrite Z.land_spec, Z.bits_0. change 8192 with (2 ^ 13).
    rewrite Z.pow2_bits_eqb by lia. destruct (Z.eqb_spec 13 n) as [<-|]; [|by rewrite andb_false_r].
    rewrite Z.bits_above_log2; [done|lia|]. destruct (Z.eq_dec (off / 8) 0) as [->|]; [done|].
    apply Z.log2_lt_pow2; [lia|]. change (2 ^ 13) with 8192. lia. }
  destruct more; unfold w; rewrite Hu.
  - change FlagMoreFragments with 8192.
    rewrite !Z.land_lor_distr_l, Hlow, Hhigh. change (Z.land 8192 8192) with 8192.
    change (Z.land 8192 8191) with 0. rewrite Z.lor_0_r, Z.lor_0_l.
    rewrite <- Z.add_nocarry_lor by done.
    split; [unfold is_u16; lia|]. split; [done|word_lia].
  - rewrite Hlow, Hhigh. split; [unfold is_u16; lia|]. split; [done|word_lia].
Qed.

Lemma land15 (b0 : Z) : 0 <= Z.land b0 15 <= 15.
Proof.
  change 15 with (Z.ones 4) at 1 2. rewrite Z.land_ones by lia.
  change (2 ^ 4) with 16. pose proof (Z.mod_pos_bound b0 16). lia.
Qed.

(** The header part of a packet in three pieces. *)
Lemma slice_head (a c chunk : bytes) (n : Z) :
  zlen (a ++ [0; 0] ++ c) = n ->
  slice (E := ip_error) (a ++ [0; 0] ++ c ++ chunk) 0 n = Ok (a ++ [0; 0] ++ c).
Proof.
  intros Hn. replace (a ++ [0; 0] ++ c ++ chunk) with ((a ++ [0; 0] ++ c) ++ chunk)
    by (by rewrite <- !(assoc_L (++))). by apply slice_app_l.
Qed.

(** The header of an accepted packet, field by field; [b2] .. [b7], [b10] and
    [b11] are the bytes a fragment's header rewrites. *)
Lemma parsed_head (hdr : ipv4Header) (pkt : bytes) :
  bytes_ok pkt -> parseIPv4 pkt = Ok hdr ->
  exists b0 b1 b2 b3 b4 b5 b6 b7 b8 b10 b11 s0 s1 s2 s3 d0 d1 d2 d3 opts,
    take (Z.to_nat (h_ihl hdr)) pkt =
      b0 :: b1 :: b2 :: b3 :: b4 :: b5 :: b6 :: b7 :: b8 :: h_protocol hdr :: b10 :: b11 ::
      s0 :: s1 :: s2 :: s3 :: d0 :: d1 :: d2 :: d3 :: opts /\
    zlen opts = h_ihl hdr - 20 /\ h_ihl hdr = Z.land b0 15 * 4 /\ Z.shiftr b0 4 = 4 /\
    h_src hdr = [s0; s1; s2; s3] /\ h_dst hdr = [d0; d1; d2; d3].
Proof.
  intros Hok Hparse. pose proof (parseIPv4_ok pkt Hok) as HP. rewrite Hparse in HP.
  destruct HP as (Hihl & Htl & _).
  destruct (twenty_bytes pkt ltac:(lia)) as (b0 & b1 & b2 & b3 & b4 & b5 & b6 & b7 & b8 & b9 & b10 &
    b11 & s0 & s1 & s2 & s3 & d0 & d1 & d2 & d3 & rest & ->).
  rewrite parseIPv4_bytes in Hparse. rewrite !zlen_cons in Htl.
  destruct (Z.eqb_spec (Z.shiftr b0 4) 4); [|done]. cbn [negb] in Hparse.
  destruct (_ || _); [done|]. destruct (_ || _); [done|]. destruct (badFragment _ _ _); [done|].
  apply (inj Ok) in Hparse. subst hdr.
  cbn [h_ihl h_totalLen h_protocol h_src h_dst] in Hihl, Htl |- *.
  exists b0, b1, b2, b3, b4, b5, b6, b7, b8, b10, b11, s0, s1, s2, s3, d0, d1, d2, d3.
  exists (take (Z.to_nat (Z.land b0 15 * 4) - 20) rest). split_and!; try done.
  - replace (Z.to_nat (Z.land b0 15 * 4)) with (20 + (Z.to_nat (Z.land b0 15 * 4) - 20))%nat at 1 by lia.
    done.
  - unfold zlen in *. rewrite length_take. lia.
Qed.

(** A fragment's header up to its checksum field, and behind it. *)
Definition head_front (b0 b1 b8 tl id w : Z) (hdr : ipv4Header) : bytes :=
  [b0; b1] ++ be16 tl ++ be16 id ++ be16 w ++ [b8; h_protocol hdr].
Definition head_back (hdr : ipv4Header) (opts : bytes) : bytes := h_src hdr ++ h_dst hdr ++ opts.

Definition flagsWord (off : Z) (more : bool) : Z :=
  if more then Z.lor (u16 (off / 8)) FlagMoreFragments else u16 (off / 8).

Lemma oneFragment_shape (hdr : ipv4Header) (pkt chunk : bytes) (off id : Z) (more : bool) :
  bytes_ok pkt -> parseIPv4 pkt = Ok hdr -> h_ihl hdr + zlen chunk <= 65535 ->
  exists b0 b1 b8 opts,
    let a := head_front b0 b1 b8 (h_ihl hdr + zlen chunk) id (flagsWord off more) hdr in
    let c := head_back hdr opts in
    let ck := InternetChecksum (a ++ [0; 0] ++ c) in
    oneFragment hdr pkt chunk off more id = Ok (a ++ be16 ck ++ c ++ chunk) /\
    bytes_ok a /\ bytes_ok c /\ h_ihl hdr = Z.land b0 15 * 4 /\ Z.shiftr b0 4 = 4 /\
    zlen c = h_ihl hdr - 12.
Proof.
  intros Hok Hparse Hit. pose proof (parseIPv4_ok pkt Hok) as HP. rewrite Hparse in HP.
  destruct HP as (Hihl & Htl & _).
  destruct (parsed_head hdr pkt Hok Hparse) as (b0 & b1 & b2 & b3 & b4 & b5 & b6 & b7 & b8 & b10 & b11 &
    s0 & s1 & s2 & s3 & d0 & d1 & d2 & d3 & opts & Hhead & Hopts & Fi & Fv & Fs & Fd).
  exists b0, b1, b8, opts. cbv zeta.
  pose proof (bytes_ok_take pkt (Z.to_nat (h_ihl hdr)) Hok) as Hb. rewrite Hhead in Hb.
  unfold bytes_ok in Hb. rewrite !Forall_cons in Hb.
  destruct Hb as (? & ? & _ & _ & _ & _ & _ & _ & ? & ? & _ & _ & ? & ? & ? & ? & ? & ? & ? & ? & Hbo).
  pose proof (zlen_nonneg chunk).
  set (a := head_front _ _ _ _ _ _ _). set (c := head_back hdr opts).
  assert (Hzc : zlen c = h_ihl hdr - 12).
  { unfold c, head_back. rewrite Fs, Fd, !zlen_app. change (zlen [s0; s1; s2; s3]) with 4.
    change (zlen [d0; d1; d2; d3]) with 4. lia. }
  split_and!; try done.
  - unfold oneFragment. rewrite slice_ok by lia. outcome_simpl.
    rewrite Z.sub_0_r, drop_0, Hhead, (u16_id (h_ihl hdr + zlen chunk)) by (unfold is_u16; lia).
    fold (flagsWord off more).
    transitivity (h ← slice (a ++ [0; 0] ++ c ++ chunk) 0 (h_ihl hdr);
       put16 (E := ip_error) (a ++ [0; 0] ++ c ++ chunk) 10 (InternetChecksum h)).
    { unfold a, c, head_front, head_back. rewrite Fs, Fd. reflexivity. }
    rewrite (slice_head a c chunk) by (rewrite !zlen_app, Hzc; change (zlen a) with 10; unfold zlen; cbn; lia).
    outcome_simpl. by apply put16_at.
  - unfold a, head_front. repeat (apply bytes_ok_app; split); auto with word;
      repeat (apply Forall_cons_2; [done|]); apply Forall_nil_2.
  - unfold c, head_back. rewrite Fs, Fd. repeat (apply bytes_ok_app; split); try done;
      repeat (apply Forall_cons_2; [done|]); apply Forall_nil_2.
Qed.

(** Such a fragment parses to the datagram's header at its own offset. *)
Lemma fragment_parses (hdr : ipv4Header) (b0 b1 b8 off id ck : Z) (more : bool) (opts chunk : bytes) :
  is_addr (h_src hdr) -> is_addr (h_dst hdr) -> is_u16 id -> 20 <= h_ihl hdr ->
  h_ihl hdr = Z.land b0 15 * 4 -> Z.shiftr b0 4 = 4 -> zlen opts = h_ihl hdr - 20 ->
  0 < zlen chunk -> 0 <= off -> off mod 8 = 0 -> off + zlen chunk <= 65535 ->
  h_ihl hdr + zlen chunk <= 65535 -> (more = true -> zlen chunk mod 8 = 0) ->
  parseIPv4 (head_front b0 b1 b8 (h_ihl hdr + zlen chunk) id (flagsWord off more) hdr ++ be16 ck ++
             head_back hdr opts ++ chunk) = Ok (fragment_header hdr id off (zlen chunk) more).
Proof.
  intros [Hs _] [Hd _] Hid Hi Fi Fv Hopts Hn Ho Hom Hot Hit Hmore.
  destruct (flags_word off more ltac:(lia) Hom) as (Hw & Hwm & Hwo). fold (flagsWord off more) in *.
  destruct hdr as [ihl tl0 proto src dst po id0 mf fo]. unfold head_front, head_back.
  cbn [h_ihl h_totalLen h_protocol h_src h_dst] in *.
  destruct src as [|s0 [|s1 [|s2 [|s3 [|? ?]]]]]; try (cbn in Hs; lia).
  destruct dst as [|d0 [|d1 [|d2 [|d3 [|? ?]]]]]; try (cbn in Hd; lia).
  set (w := flagsWord off more) in *. set (tl := ihl + zlen chunk). unfold be16. cbn [app].
  rewrite parseIPv4_bytes.
  match goal with |- context [zlen (b0 :: ?l)] => replace (zlen (b0 :: l)) with tl end.
  2:{ rewrite !zlen_cons, zlen_app, Hopts. unfold tl. lia. }
  rewrite Fv, <- Fi. cbn [negb Z.eqb Pos.eqb].
  replace (u8 (tl / 256) * 256 + u8 tl) with tl by (unfold tl in *; word_lia).
  replace (u8 (id / 256) * 256 + u8 id) with id by word_lia.
  replace (u8 (w / 256) * 256 + u8 w) with w by word_lia.
  rewrite Hwm, Hwo.
  replace ((ihl <? 20) || (tl <? ihl)) with false by (unfold tl; lia).
  replace ((tl <? ihl) || (tl <? tl)) with false by (unfold tl; lia).
  assert (Hbad : badFragment more off (tl - ihl) = false).
  { unfold badFragment, maxIPv4Datagram, tl. replace (ihl + zlen chunk - ihl) with (zlen chunk) by lia.
    destruct more; [rewrite (Hmore eq_refl)|]; lia. }
  by rewrite Hbad.
Qed.

Lemma oneFragment_spec (hdr : ipv4Header) (pkt chunk : bytes) (off id : Z) (more : bool) :
  bytes_ok pkt -> parseIPv4 pkt = Ok hdr -> is_u16 id -> bytes_ok chunk -> 0 < zlen chunk ->
  0 <= off -> off mod 8 = 0 -> off + zlen chunk <= 65535 -> h_ihl hdr + zlen chunk <= 65535 ->
  (more = true -> zlen chunk mod 8 = 0) ->
  exists frag, oneFragment hdr pkt chunk off more id = Ok frag /\ bytes_ok frag /\
    zlen frag = h_ihl hdr + zlen chunk /\
    parseIPv4 frag = Ok (fragment_header hdr id off (zlen chunk) more) /\
    drop (Z.to_nat (h_ihl hdr)) frag = chunk /\
    InternetChecksum (take (Z.to_nat (h_ihl hdr)) frag) = 0.
Proof.
  intros Hok Hparse Hid Hck Hn Ho Hom Hot Hit Hmore.
  pose proof (parseIPv4_ok pkt Hok) as HP. rewrite Hparse in HP.
  destruct HP as (Hihl & Htl & _ & _ & Hs & Hd & _). unfold maxIPv4HeaderLen in Hihl.
  destruct (oneFragment_shape hdr pkt chunk off id more Hok Hparse Hit)
    as (b0 & b1 & b8 & opts & E & Ha & Hc & Fi & Fv & Hzc).
  set (a := head_front _ _ _ _ _ _ _) in *. set (c := head_back hdr opts) in *.
  set (ck := InternetChecksum _) in *.
  assert (Hopts : zlen opts = h_ihl hdr - 20).
  { unfold c, head_back in Hzc. destruct Hs as [Hs _], Hd as [Hd _]. unfold zlen in *.
    rewrite !length_app, Hs, Hd in Hzc. lia. }
  assert (Hsplit : a ++ be16 ck ++ c ++ chunk = (a ++ be16 ck ++ c) ++ chunk)
    by (by rewrite <- !(assoc_L (++))).
  assert (Hzh : length (a ++ be16 ck ++ c) = Z.to_nat (h_ihl hdr)).
  { rewrite !length_app. change (length a) with 10%nat. unfold zlen in Hzc. cbn [length be16]. lia. }
  exists (a ++ be16 ck ++ c ++ chunk). split_and!.
  - done.
  - apply bytes_ok_app. split; [done|]. apply bytes_ok_app. split; [apply be16_bytes|by apply bytes_ok_app].
  - rewrite Hsplit, zlen_app. unfold zlen at 1. rewrite Hzh. lia.
  - apply fragment_parses; done || lia.
  - rewrite Hsplit. by apply drop_app_length'.
  - rewrite Hsplit, take_app_length' by done. unfold ck, InternetChecksum.
    pose proof (wsum_bounds a Ha) as B1. pose proof (wsum_bounds c Hc) as B2.
    change (zlen a) with 10 in B1. change ((10 + 1) / 2) with 5 in B1.
    assert ((zlen c + 1) / 2 <= 25) by (apply Z.div_le_upper_bound; lia).
    apply checksum_fills; [done|done|by exists 5%nat|lia|lia].
Qed.

(** [frags] are the fragments of [payload] from byte [off] on, in order: each
    fits the MTU, parses to the datagram's header with its own length, offset
    and flags, carries exactly its part of the payload, verifies, and the next
    one starts where it ends; only the last one has no more to follow. *)
Fixpoint fragments_of (hdr : ipv4Header) (id mtu : Z) (payload : bytes) (off : Z)
    (frags : list bytes) : Prop :=
  match frags with
  | [] => off = zlen payload
  | f :: frags =>
      let n := zlen f - h_ihl hdr in
      0 < n /\ zlen f <= mtu /\ bytes_ok f /\ off + n <= zlen payload /\
      parseIPv4 f = Ok (fragment_header hdr id off n (off + n <? zlen payload)) /\
      drop (Z.to_nat (h_ihl hdr)) f = take (Z.to_nat n) (drop (Z.to_nat off) payload) /\
      InternetChecksum (take (Z.to_nat (h_ihl hdr)) f) = 0 /\
      fragments_of hdr id mtu payload (off + n) frags
  end.

Lemma fragLoop_spec (fuel : nat) (hdr : ipv4Header) (pkt payload : bytes) (maxData id mtu off : Z) :
  bytes_ok pkt -> parseIPv4 pkt = Ok hdr -> is_u16 id -> bytes_ok payload ->
  zlen payload + h_ihl hdr <= 65535 -> 0 < maxData -> maxData mod 8 = 0 ->
  h_ihl hdr + maxData <= mtu -> 0 <= off <= zlen payload ->
  (off mod 8 = 0 \/ off = zlen payload) -> zlen payload - off <= Z.of_nat fuel ->
  exists frags, fragLoop fuel hdr pkt payload maxData id off = Ok frags /\
    fragments_of hdr id mtu payload off frags.
Proof.
  intros Hok Hp Hid Hpl Hlen Hmd Hmd8 Hmtu. pose proof (parseIPv4_ok pkt Hok) as HP.
  rewrite Hp in HP. destruct HP as (Hihl & _).
  revert off. induction fuel as [|fuel IH]; intros off Ho Ho8 Hf; cbn [fragLoop].
  { rewrite (proj2 (Z.ltb_ge off _)) by lia. exists []. split; [done|cbn; lia]. }
  destruct (Z.ltb_spec off (zlen payload)) as [Hlt|Hge]; cbn [negb].
  2:{ exists []. split; [done|cbn; lia]. }
  destruct Ho8 as [Ho8|]; [|lia].
  set (last := if zlen payload <? off + maxData then zlen payload else off + maxData).
  assert (Hlast : off < last <= zlen payload /\ last - off <= maxData /\
    (last < zlen payload -> last = off + maxData))
    by (unfold last; destruct (Z.ltb_spec (zlen payload) (off + maxData)); lia).
  rewrite slice_ok by lia. outcome_simpl.
  set (chunk := take (Z.to_nat (last - off)) (drop (Z.to_nat off) payload)).
  assert (Hch : zlen chunk = last - off).
  { unfold chunk. rewrite zlen_take by lia. rewrite zlen_drop by lia. lia. }
  destruct (oneFragment_spec hdr pkt chunk off id (last <? zlen payload) Hok Hp Hid)
    as (f & E & Hfok & Hfz & Hfp & Hfd & Hfc); try lia.
  { unfold chunk. by apply bytes_ok_take, bytes_ok_drop. }
  { intros Hm%Z.ltb_lt. rewrite Hch. replace (last - off) with maxData by lia. done. }
  rewrite E. outcome_simpl.
  assert (Hn : zlen f - h_ihl hdr = last - off) by lia.
  destruct (Z.lt_ge_cases last (zlen payload)) as [Hl|Hl].
  - replace (off + maxData) with last by lia.
    destruct (IH last) as (frags & EF & Hfr); [lia| |lia|].
    { left. replace last with (off + maxData) by lia.
      rewrite Z.add_mod, Ho8, Hmd8 by lia. done. }
    rewrite EF. outcome_simpl. exists (f :: frags). split; [done|].
    cbn [fragments_of]. rewrite Hn. replace (off + (last - off)) with last by lia.
    rewrite Hch in Hfp. rewrite Hfd. split_and!; try done; lia.
  - assert (Hend : last = zlen payload) by lia.
    assert (EF : fragLoop fuel hdr pkt payload maxData id (off + maxData) = Ok []).
    { destruct (Hlast) as (? & ? & _).
      assert (zlen payload <= off + maxData) by (unfold last in Hend; destruct (Z.ltb_spec (zlen payload) (off + maxData)); lia).
      destruct fuel; cbn [fragLoop]; rewrite (proj2 (Z.ltb_ge _ _)) by lia; done. }
    rewrite EF. outcome_simpl. exists [f]. split; [done|].
    cbn [fragments_of]. rewrite Hn. replace (off + (last - off)) with last by lia.
    rewrite Hch in Hfp. rewrite Hfd. split_and!; try done; lia.
Qed.

(** Built packets parse back and verify: for any addresses, protocol and
    payload that fit an IPv4 datagram, construction cannot panic, the parser
    accepts the result as an unfragmented datagram with exactly these fields,
    the bytes behind the header are the payload, and the header checksum
    verifies. *)
Theorem buildIPv4_parses (src dst : bytes) (protocol : Z) (payload : bytes) :
  is_addr src -> is_addr dst -> is_u8 protocol -> zlen payload <= 65515 ->
  exists pkt, buildIPv4 [] src dst protocol payload = Ok pkt /\
    parseIPv4 pkt = Ok (mkIPv4Header 20 (20 + zlen payload) protocol src dst 20 0 false 0) /\
    drop 20 pkt = payload /\ zlen pkt = 20 + zlen payload /\ InternetChecksum (take 20 pkt) = 0.
Proof.
  intros Hs Hd Hp Hl.
  destruct (BuildIPv4_shape (E := ip_error) src dst protocol payload Hs Hd Hp)
    as (ck & hdr & _ & _ & E & _).
  exists (hdr ++ payload). split; [exact E|]. by apply (parse_built src dst protocol).
Qed.

Lemma ldiff7 (x : Z) : 0 <= x -> Z.ldiff x 7 = x - x mod 8 /\ Z.ldiff x 7 mod 8 = 0.
Proof.
  intros Hx. assert (E : Z.ldiff x 7 = x / 8 * 8).
  { change 7 with (Z.ones 3). rewrite Z.ldiff_ones_r, Z.shiftl_mul_pow2, Z.shiftr_div_pow2 by lia. done. }
  rewrite E. split; [word_lia|by rewrite Z.mod_mul].
Qed.

Lemma fragmentIPv4_ok (hdr : ipv4Header) (pkt : bytes) (mtu id : Z) :
  bytes_ok pkt -> parseIPv4 pkt = Ok hdr -> 576 <= mtu -> is_u16 id ->
  exists frags, fragmentIPv4 hdr pkt mtu id = Ok frags /\
    fragments_of hdr id mtu (payload_of hdr pkt) 0 frags.
Proof.
  intros Hok Hp Hmtu Hid. pose proof (parseIPv4_ok pkt Hok) as HP. rewrite Hp in HP.
  unfold maxIPv4HeaderLen in HP. destruct HP as (Hihl & Htl & _ & Hpo & _ & _ & _ & _ & H65 & _).
  unfold fragmentIPv4, payload_of. rewrite Hpo.
  destruct (ldiff7 (mtu - h_ihl hdr) ltac:(lia)) as [E1 E2].
  pose proof (Z.mod_pos_bound (mtu - h_ihl hdr) 8 ltac:(lia)).
  rewrite (proj2 (Z.leb_gt _ 0)) by lia. rewrite slice_ok by lia. outcome_simpl.
  set (payload := take _ _).
  assert (Hpl : zlen payload = h_totalLen hdr - h_ihl hdr).
  { unfold payload. rewrite zlen_take, zlen_drop by lia. lia. }
  apply fragLoop_spec; try done; try lia.
  - unfold payload. by apply bytes_ok_take, bytes_ok_drop.
  - by left.
  - unfold zlen. lia.
Qed.

(** Fragmentation is correct: for every packet the parser accepts and every
    MTU from 576 up, the loop ends and returns the datagram's fragments in
    order: each within the MTU, with a valid header checksum, parsed to the
    original addresses, protocol and the given identification, at 8-aligned
    offsets that tile the payload without gap or overlap, and with the
    more-fragments flag on all but the last. *)
Theorem fragmentIPv4_spec (hdr : ipv4Header) (pkt : bytes) (mtu id : Z) :
  bytes_ok pkt -> parseIPv4 pkt = Ok hdr -> 576 <= mtu -> is_u16 id ->
  exists frags, fragmentIPv4 hdr pkt mtu id = Ok frags /\
    fragments_of hdr id mtu (payload_of hdr pkt) 0 frags.
Proof. apply fragmentIPv4_ok. Qed.

(** ** Witnesses *)

Module ToyIP.
Definition payload : bytes := map (fun i => u8 (Z.of_nat i)) (seq 0 1200).
Definition packet : bytes :=
  match buildIPv4 [] [10; 8; 0; 1] [10; 8; 0; 2] 17 payload with Ok p => p | _ => [] end.
Definition header : ipv4Header :=
  mkIPv4Header 20 1220 17 [10; 8; 0; 1] [10; 8; 0; 2] 20 0 false 0.
End ToyIP.

Lemma buildIPv4_parses_witness :
  exists pkt, buildIPv4 [] [10; 8; 0; 1] [10; 8; 0; 2] 17 [1; 2; 3] = Ok pkt /\
    parseIPv4 pkt = Ok (mkIPv4Header 20 23 17 [10; 8; 0; 1] [10; 8; 0; 2] 20 0 false 0) /\
    drop 20 pkt = [1; 2; 3] /\ zlen pkt = 23 /\ InternetChecksum (take 20 pkt) = 0.
Proof.
  apply (buildIPv4_parses [10; 8; 0; 1] [10; 8; 0; 2] 17 [1; 2; 3]);
    [decide_now|decide_now|decide_now|vm_compute; discriminate].
Defined.

Lemma fragmentIPv4_spec_witness :
  exists frags, fragmentIPv4 ToyIP.header ToyIP.packet 576 7 = Ok frags /\ length frags = 3%nat /\
    fragments_of ToyIP.header 7 576 (payload_of ToyIP.header ToyIP.packet) 0 frags.
Proof.
  destruct (fragmentIPv4_spec ToyIP.header ToyIP.packet 576 7) as (frags & E & H);
    [decide_now|vm_compute; reflexivity|done|decide_now|].
  exists frags. split_and!; [done| |done]. vm_compute in E. by injection E as <-.
Defined.

End IPv4.
