(* ===== verification/Reassembly.v ===== *)
(** * Reassembly: IPv4 fragment reassembly

    Model of [netstack/reassembly.go]: the RFC 815 hole-descriptor algorithm of
    one session, with its three bounds.  The map of buffers is a finite map; a
    buffer is updated through its entry in the map (the Go code mutates it
    through a pointer).  [add] runs under the mutex and is one function; the
    clock is an argument. *)

From stdpp Require Import gmap.
From S2P Require Import Prelude Frame IPv4.
Import Frame IPv4.

Module Reassembly.

Definition maxReassemblyBuffersPerSession : Z := 16.
Definition maxReassemblyBytesPerSession : Z := 256 * 1024.
Definition reassemblyTimeout : Z := 30000000000.
Definition holeOpenEnd : Z := maxIPv4Datagram - 1.

(** (source, destination, protocol, identification). *)
Definition reassemblyKey : Type := bytes * bytes * Z * Z.

Definition keyOf (hdr : ipv4Header) : reassemblyKey :=
  (h_src hdr, h_dst hdr, h_protocol hdr, h_id hdr).

Record hole := mkHole { ho_first : Z; ho_last : Z }.

Record reassemblyBuffer := mkBuffer {
  rb_header : option bytes;
  rb_data : bytes;
  rb_holes : list hole;
  rb_totalLen : Z;
  rb_expires : Z;
}.

Record reassembler := mkReassembler {
  rs_bufs : gmap reassemblyKey reassemblyBuffer;
  rs_bytes : Z;
  rs_closed : bool;
  rs_maxBufs : Z;
  rs_maxBytes : Z;
  rs_timeout : Z;
}.

Definition resolveLimits (r : reassembler) : Z * Z * Z :=
  (if rs_maxBufs r =? 0 then maxReassemblyBuffersPerSession else rs_maxBufs r,
   if rs_maxBytes r =? 0 then maxReassemblyBytesPerSession else rs_maxBytes r,
   if rs_timeout r =? 0 then reassemblyTimeout else rs_timeout r).

Inductive reasmOutcome :=
  | reasmBuffered | reasmComplete | reasmDuplicate | reasmConflict | reasmBoundExceeded | reasmClosed.

#[export] Instance reasmOutcome_eq_dec : EqDecision reasmOutcome.
Proof. solve_decision. Defined.

Definition with_bufs (r : reassembler) (bufs : gmap reassemblyKey reassemblyBuffer) (n : Z)
    : reassembler :=
  mkReassembler bufs n (rs_closed r) (rs_maxBufs r) (rs_maxBytes r) (rs_timeout r).

Definition dropLocked (r : reassembler) (key : reassemblyKey) (b : reassemblyBuffer) : reassembler :=
  with_bufs r (delete key (rs_bufs r)) (rs_bytes r - zlen (rb_data b)).

(** The expiry sweep, over the buffers in some order. *)
Definition sweepStep (now : Z) (acc : reassembler * Z) (kb : reassemblyKey * reassemblyBuffer)
    : reassembler * Z :=
  let '(r, expired) := acc in
  if rb_expires kb.2 <=? now then (dropLocked r kb.1 kb.2, expired + 1) else (r, expired).

Definition sweep (now : Z) (r : reassembler) : reassembler * Z :=
  foldl (sweepStep now) (r, 0) (map_to_list (rs_bufs r)).

(** What a fragment [first..last] leaves of one hole, and whether it meets it. *)
Definition splitHole (first last : Z) (more : bool) (h : hole) : list hole * bool :=
  if negb more && (last <? ho_first h) then ([], false) else
  if (last <? ho_first h) || (ho_last h <? first) then ([h], false) else
  ((if ho_first h <? first then [mkHole (ho_first h) (first - 1)] else []) ++
   (if (last <? ho_last h) && more then [mkHole (last + 1) (ho_last h)] else []), true).

Fixpoint splitHoles (first last : Z) (more : bool) (hs : list hole) : list hole * bool :=
  match hs with
  | [] => ([], false)
  | h :: hs =>
      let '(l, i) := splitHole first last more h in
      let '(l', i') := splitHoles first last more hs in (l ++ l', i || i')
  end.

(** The buffer grown to [n] bytes and [payload] copied in at [first]. *)
Definition growTo (data : bytes) (n : Z) : bytes :=
  if zlen data <? n then data ++ replicate (Z.to_nat (n - zlen data)) 0 else data.
Definition copyAt (data : bytes) (first : nat) (payload : bytes) : bytes :=
  take first data ++ payload ++ drop (first + length payload) data.

(** The completed datagram: the first fragment's header, rewritten, and the
    data. *)
Definition assemble (header data : bytes) : outcome ip_error bytes :=
  let out := header ++ data in
  out ← put16 out 2 (u16 (zlen out));
  out ← put16 out 6 0;
  out ← put16 out 10 0;
  h ← slice out 0 (zlen header);
  put16 out 10 (InternetChecksum h).

Definition newBuffer (expires : Z) : reassemblyBuffer :=
  mkBuffer None [] [mkHole 0 holeOpenEnd] (-1) expires.

(** The end of [add]: the datagram when the buffer [b] is complete. *)
Definition tryComplete (r : reassembler) (key : reassemblyKey) (b : reassemblyBuffer)
    (intersects : bool) (expired : Z)
    : outcome ip_error (option bytes * reasmOutcome * Z * reassembler) :=
  if negb intersects then Ok (None, reasmDuplicate, expired, r) else
  match rb_header b with
  | None => Ok (None, reasmBuffered, expired, r)
  | Some header =>
      if (0 <? length (rb_holes b))%nat || (rb_totalLen b <? 0) || (zlen (rb_data b) <? rb_totalLen b)
      then Ok (None, reasmBuffered, expired, r) else
      if maxIPv4Datagram <? zlen header + rb_totalLen b
      then Ok (None, reasmConflict, expired, dropLocked r key b) else
      body ← slice (rb_data b) 0 (rb_totalLen b);
      out ← assemble header body;
      Ok (Some out, reasmComplete, expired, dropLocked r key b)
  end.

(** The part of [add] behind the buffer's lookup: the consistency checks, the
    byte budget, the holes and the copy into the buffer [b]. *)
Definition storeFragment (r : reassembler) (maxBytes expired : Z) (key : reassemblyKey)
    (b : reassemblyBuffer) (hdr : ipv4Header) (pkt payload : bytes)
    : outcome ip_error (option bytes * reasmOutcome * Z * reassembler) :=
  let first := h_fragOffset hdr in
  let last := first + zlen payload - 1 in
  if (0 <=? rb_totalLen b) && (rb_totalLen b <=? last)
  then Ok (None, reasmConflict, expired, dropLocked r key b) else
  if negb (h_moreFragments hdr) && (0 <=? rb_totalLen b) && negb (rb_totalLen b =? last + 1)
  then Ok (None, reasmConflict, expired, dropLocked r key b) else
  let totalLen := if h_moreFragments hdr then rb_totalLen b else last + 1 in
  let grow := Z.max 0 (last + 1 - zlen (rb_data b)) in
  if maxBytes <? rs_bytes r + grow then
    let b := mkBuffer (rb_header b) (rb_data b) (rb_holes b) totalLen (rb_expires b) in
    Ok (None, reasmBoundExceeded, expired, with_bufs r (<[key := b]> (rs_bufs r)) (rs_bytes r)) else
  let '(newHoles, intersects) := splitHoles first last (h_moreFragments hdr) (rb_holes b) in
  let grown := growTo (rb_data b) (last + 1) in
  let bytes' := rs_bytes r + (zlen grown - zlen (rb_data b)) in
  let data := copyAt grown (Z.to_nat first) payload in
  header ← (if first =? 0 then head ← slice pkt 0 (h_ihl hdr); Ok (Some head)
            else Ok (rb_header b));
  let b := mkBuffer header data newHoles totalLen (rb_expires b) in
  let r := with_bufs r (<[key := b]> (rs_bufs r)) bytes' in
  tryComplete r key b intersects expired.

Definition add (r : reassembler) (now : Z) (hdr : ipv4Header) (pkt : bytes)
    : outcome ip_error (option bytes * reasmOutcome * Z * reassembler) :=
  if rs_closed r then Ok (None, reasmClosed, 0, r) else
  let '(maxBufs, maxBytes, timeout) := resolveLimits r in
  let '(r, expired) := sweep now r in
  payload ← slice pkt (h_payloadOff hdr) (h_totalLen hdr);
  let key := keyOf hdr in
  let found := rs_bufs r !! key in
  if bool_decide (found = None) && (maxBufs <=? Z.of_nat (size (rs_bufs r)))
  then Ok (None, reasmBoundExceeded, expired, r) else
  let b := default (newBuffer (now + timeout)) found in
  let r := with_bufs r (<[key := b]> (rs_bufs r)) (rs_bytes r) in
  storeFragment r maxBytes expired key b hdr pkt payload.

Definition discardAll (r : reassembler) : reassembler :=
  mkReassembler ∅ 0 true (rs_maxBufs r) (rs_maxBytes r) (rs_timeout r).

(** ** The accounting invariant *)

Definition charge (b : reassemblyBuffer) : Z := zlen (rb_data b).
Definition totalBytes (bufs : gmap reassemblyKey reassemblyBuffer) : Z :=
  map_fold (fun _ b acc => charge b + acc) 0 bufs.

Lemma totalBytes_insert (bufs : gmap reassemblyKey reassemblyBuffer) (k : reassemblyKey)
    (b : reassemblyBuffer) :
  bufs !! k = None -> totalBytes (<[k := b]> bufs) = charge b + totalBytes bufs.
Proof.
  intros Hk. unfold totalBytes. rewrite map_fold_insert_L; [done| |done]. intros. lia.
Qed.

Lemma totalBytes_delete (bufs : gmap reassemblyKey reassemblyBuffer) (k : reassemblyKey)
    (b : reassemblyBuffer) :
  bufs !! k = Some b -> totalBytes (delete k bufs) = totalBytes bufs - charge b.
Proof.
  intros Hk. rewrite <- (insert_delete_id bufs k b Hk) at 2.
  rewrite totalBytes_insert by apply lookup_delete_eq. lia.
Qed.

Lemma totalBytes_replace (bufs : gmap reassemblyKey reassemblyBuffer) (k : reassemblyKey)
    (b b' : reassemblyBuffer) :
  bufs !! k = Some b -> totalBytes (<[k := b']> bufs) = totalBytes bufs - charge b + charge b'.
Proof.
  intros Hk. rewrite <- (insert_delete_eq bufs k b'), totalBytes_insert by apply lookup_delete_eq.
  rewrite (totalBytes_delete _ _ _ Hk). lia.
Qed.

(** The limits in force. *)
Definition bufLimit (r : reassembler) : Z := (resolveLimits r).1.1.
Definition byteLimit (r : reassembler) : Z := (resolveLimits r).1.2.

Record bounded (r : reassembler) : Prop := {
  bd_bytes : rs_bytes r = totalBytes (rs_bufs r);
  bd_bufs : Z.of_nat (size (rs_bufs r)) <= bufLimit r;
  bd_limit : rs_bytes r <= byteLimit r;
  bd_headers : map_Forall (fun _ b => forall h, rb_header b = Some h -> 20 <= zlen h) (rs_bufs r);
}.

(** Same configuration. *)
Definition same_limits (r r' : reassembler) : Prop := resolveLimits r' = resolveLimits r.

Lemma charge_nonneg (b : reassemblyBuffer) : 0 <= charge b.
Proof. apply zlen_nonneg. Qed.

Lemma dropLocked_bounded (r : reassembler) (k : reassemblyKey) (b : reassemblyBuffer) :
  rs_bufs r !! k = Some b -> bounded r -> bounded (dropLocked r k b).
Proof.
  intros Hk [H1 H2 H3 H4]. pose proof (charge_nonneg b) as Hc. unfold charge in Hc.
  constructor; cbn [dropLocked with_bufs rs_bufs rs_bytes].
  - rewrite (totalBytes_delete _ _ _ Hk). unfold charge. lia.
  - rewrite (map_size_delete_Some k) by (by rewrite Hk). unfold bufLimit in *. cbn in *. lia.
  - unfold byteLimit in *. cbn in *. lia.
  - by apply map_Forall_delete.
Qed.

(** Replacing (or entering) one buffer. *)
Lemma insert_bounded (r : reassembler) (k : reassemblyKey) (b : reassemblyBuffer) (n : Z) :
  bounded r -> rs_bytes r = totalBytes (rs_bufs r) ->
  (rs_bufs r !! k = None -> Z.of_nat (size (rs_bufs r)) < bufLimit r) ->
  n = rs_bytes r + (charge b - match rs_bufs r !! k with Some b0 => charge b0 | None => 0 end) ->
  n <= byteLimit r -> (forall h, rb_header b = Some h -> 20 <= zlen h) ->
  bounded (with_bufs r (<[k := b]> (rs_bufs r)) n).
Proof.
  intros [H1 H2 H3 H4] Hb Hroom Hn Hlim Hh.
  constructor; cbn [with_bufs rs_bufs rs_bytes]; [| |exact Hlim|by apply map_Forall_insert_2].
  - destruct (rs_bufs r !! k) as [b0|] eqn:E.
    + rewrite (totalBytes_replace _ _ _ _ E). lia.
    + rewrite totalBytes_insert by done. lia.
  - unfold bufLimit in *. cbn in *. destruct (rs_bufs r !! k) as [b0|] eqn:E.
    + rewrite map_size_insert_Some by (by rewrite E). done.
    + rewrite map_size_insert_None by done. specialize (Hroom eq_refl). lia.
Qed.

Lemma sweep_bounded (now : Z) (r : reassembler) :
  bounded r -> let '(r', n) := sweep now r in
  bounded r' /\ same_limits r r' /\ rs_closed r' = rs_closed r /\ 0 <= n /\
  rs_bufs r' ⊆ rs_bufs r /\ (forall k b, rs_bufs r' !! k = Some b -> now < rb_expires b).
Proof.
  unfold sweep.
  assert (Hgen : forall l r0 n0, NoDup l.*1 ->
    (forall k b, (k, b) ∈ l -> rs_bufs r0 !! k = Some b) -> bounded r0 -> 0 <= n0 ->
    let '(r', n) := foldl (sweepStep now) (r0, n0) l in
    bounded r' /\ same_limits r0 r' /\ rs_closed r' = rs_closed r0 /\ 0 <= n /\
    rs_bufs r' ⊆ rs_bufs r0 /\
    (forall k b, rs_bufs r' !! k = Some b -> (k, b) ∈ l -> now < rb_expires b) /\
    (forall k b, rs_bufs r0 !! k = Some b -> k ∉ l.*1 -> rs_bufs r' !! k = Some b)).
  { induction l as [|[k b] l IH]; intros r0 n0 Hnd Hl Hb Hn; cbn [foldl].
    { split_and!; try done. intros k b _ H%elem_of_nil. done. }
    cbn in Hnd. apply NoDup_cons in Hnd as [Hk Hnd].
    pose proof (Hl k b ltac:(by left)) as Hkb. cbn [sweepStep snd fst].
    destruct (Z.leb_spec (rb_expires b) now) as [He|He].
    - specialize (IH (dropLocked r0 k b) (n0 + 1) Hnd).
      destruct (foldl (sweepStep now) (dropLocked r0 k b, n0 + 1) l) as [r' n].
      destruct IH as (I1 & I2 & I3 & I4 & I5 & I6 & I7).
      { intros k' b' Hin. cbn. rewrite lookup_delete_ne; [apply Hl; by right|].
        intros ->. apply Hk. apply list_elem_of_fmap. by exists (k', b'). }
      { by apply dropLocked_bounded. }
      { lia. }
      split_and!; try done.
      + etransitivity; [exact I5|]. cbn. apply delete_subseteq.
      + intros k' b' Hin' [Heq|Hin]%elem_of_cons; [|by apply (I6 k')].
        injection Heq as -> ->.
        assert (rs_bufs (dropLocked r0 k b) !! k = Some b) as Hx by (by apply (lookup_weaken _ _ _ _ Hin')).
        cbn in Hx. by rewrite lookup_delete_eq in Hx.
      + intros k' b' Hk' Hnot. cbn in Hnot. apply not_elem_of_cons in Hnot as [Hne Hnot].
        apply I7; [|done]. cbn. by rewrite lookup_delete_ne.
    - specialize (IH r0 n0 Hnd ltac:(intros; apply Hl; by right) Hb Hn).
      destruct (foldl (sweepStep now) (r0, n0) l) as [r' n].
      destruct IH as (I1 & I2 & I3 & I4 & I5 & I6 & I7). split_and!; try done.
      + intros k' b' Hin' [Heq|Hin]%elem_of_cons; [by injection Heq as -> ->|by apply (I6 k')].
      + intros k' b' Hk' Hnot. cbn in Hnot. apply not_elem_of_cons in Hnot as [_ Hnot]. by apply I7. }
  intros Hb. specialize (Hgen (map_to_list (rs_bufs r)) r 0 (NoDup_fst_map_to_list _)
    ltac:(intros k b; apply elem_of_map_to_list) Hb ltac:(lia)).
  destruct (foldl _ _ _) as [r' n]. destruct Hgen as (I1 & I2 & I3 & I4 & I5 & I6 & _).
  split_and!; try done. intros k b Hk. apply (I6 k b Hk). apply elem_of_map_to_list.
  by apply (lookup_weaken _ _ _ _ Hk).
Qed.

(** ** No fragment breaks the bounds *)

Lemma growTo_length (data : bytes) (n : Z) : zlen (growTo data n) = Z.max (zlen data) n.
Proof.
  unfold growTo. pose proof (zlen_nonneg data). destruct (Z.ltb_spec (zlen data) n); [|lia].
  rewrite zlen_app. unfold zlen at 2. rewrite length_replicate. lia.
Qed.

Lemma copyAt_length (data : bytes) (first : nat) (payload : bytes) :
  (first + length payload <= length data)%nat -> zlen (copyAt data first payload) = zlen data.
Proof.
  intros H. unfold copyAt, zlen. rewrite !length_app, length_take, length_drop. lia.
Qed.

(** A fragment the parser accepted: where its payload lies. *)
Record fragment_in (hdr : ipv4Header) (pkt : bytes) : Prop := {
  fi_bytes : bytes_ok pkt;
  fi_parse : parseIPv4 pkt = Ok hdr;
  fi_frag : isFragment hdr = true;
}.

Lemma fragment_geometry (hdr : ipv4Header) (pkt : bytes) :
  fragment_in hdr pkt ->
  exists payload, slice (E := ip_error) pkt (h_payloadOff hdr) (h_totalLen hdr) = Ok payload /\
    payload = payload_of hdr pkt /\ 0 < zlen payload /\ 0 <= h_fragOffset hdr /\
    h_fragOffset hdr + zlen payload <= 65535 /\ bytes_ok payload /\
    slice (E := ip_error) pkt 0 (h_ihl hdr) = Ok (take (Z.to_nat (h_ihl hdr)) pkt) /\
    20 <= zlen (take (Z.to_nat (h_ihl hdr)) pkt) /\ h_ihl hdr <= 60.
Proof.
  intros [Hok Hp Hf]. pose proof (parseIPv4_ok pkt Hok) as HP. rewrite Hp in HP.
  unfold maxIPv4HeaderLen in HP.
  destruct HP as (Hi & Ht & _ & Hpo & _ & _ & _ & _ & _ & Ho & _ & Hbad).
  exists (payload_of hdr pkt). rewrite Hpo.
  assert (Hz : zlen (payload_of hdr pkt) = h_totalLen hdr - h_ihl hdr).
  { unfold payload_of. rewrite Hpo, zlen_take, zlen_drop by lia. lia. }
  unfold isFragment in Hf. unfold badFragment, maxIPv4Datagram in Hbad. rewrite Hf in Hbad.
  split_and!; try lia.
  - rewrite slice_ok by lia. unfold payload_of. by rewrite Hpo.
  - done.
  - unfold payload_of. by apply bytes_ok_take, bytes_ok_drop.
  - rewrite slice_ok, Z.sub_0_r by lia. done.
  - rewrite zlen_take by lia. lia.
Qed.

Lemma put16_total (b : bytes) (i : nat) (v : Z) :
  (i + 2 <= length b)%nat ->
  exists b', put16 (E := ip_error) b i v = Ok b' /\ length b' = length b.
Proof.
  intros H. unfold put16. rewrite (proj2 (Nat.leb_le _ _)) by done. eexists. split; [done|].
  rewrite !length_app, length_take, length_drop. cbn [length be16]. lia.
Qed.

Lemma assemble_ok (header data : bytes) :
  20 <= zlen header -> exists out, assemble header data = Ok out.
Proof.
  intros Hh. unfold assemble. pose proof (zlen_nonneg data).
  assert (Hlen : (20 <= length (header ++ data))%nat) by (unfold zlen in *; rewrite length_app; lia).
  destruct (put16_total (header ++ data) 2 (u16 (zlen (header ++ data))) ltac:(lia)) as (o1 & -> & L1).
  outcome_simpl. destruct (put16_total o1 6 0 ltac:(lia)) as (o2 & -> & L2).
  outcome_simpl. destruct (put16_total o2 10 0 ltac:(lia)) as (o3 & -> & L3).
  outcome_simpl. rewrite slice_ok; [|lia|unfold zlen in *; rewrite L3, L2, L1, length_app; lia].
  outcome_simpl.
  match goal with |- exists out, put16 o3 10 ?v = _ =>
    destruct (put16_total o3 10 v ltac:(lia)) as (o4 & -> & _) end.
  by exists o4.
Qed.

Lemma tryComplete_bounded (r : reassembler) (key : reassemblyKey) (b : reassemblyBuffer)
    (intersects : bool) (expired : Z) :
  bounded r -> rs_bufs r !! key = Some b -> 0 <= expired ->
  exists d out r', tryComplete r key b intersects expired = Ok (d, out, expired, r') /\
    bounded r' /\ same_limits r r' /\ (is_Some d <-> out = reasmComplete).
Proof.
  intros Hb Hk Hexp. assert (Hdrop : bounded (dropLocked r key b)) by (by apply dropLocked_bounded).
  unfold tryComplete. destruct (negb intersects); [by eexists None, _, _; split_and!|].
  destruct (rb_header b) as [hd|] eqn:Ehd; [|by eexists None, _, _; split_and!].
  destruct ((0 <? length (rb_holes b))%nat || (rb_totalLen b <? 0) || (zlen (rb_data b) <? rb_totalLen b))
    eqn:Ecomp; [by eexists None, _, _; split_and!|].
  destruct (maxIPv4Datagram <? zlen hd + rb_totalLen b); [by eexists None, _, _; split_and!|].
  rewrite slice_ok by lia. outcome_simpl.
  edestruct (assemble_ok hd) as [out Eo]; [by apply (bd_headers _ Hb key b Hk)|].
  rewrite Eo. outcome_simpl. by eexists (Some out), _, _; split_and!.
Qed.

(** The buffer whose end became known by a fragment that found no room. *)
Definition marked (b : reassemblyBuffer) (last : Z) (more : bool) : reassemblyBuffer :=
  mkBuffer (rb_header b) (rb_data b) (rb_holes b) (if more then rb_totalLen b else last + 1) (rb_expires b).

(** The buffer after a fragment, as [add] computes it. *)
Definition stored (b : reassemblyBuffer) (first last : Z) (more : bool) (payload head : bytes)
    : reassemblyBuffer :=
  mkBuffer (if first =? 0 then Some head else rb_header b)
    (copyAt (growTo (rb_data b) (last + 1)) (Z.to_nat first) payload)
    (splitHoles first last more (rb_holes b)).1
    (if more then rb_totalLen b else last + 1) (rb_expires b).

(** [storeFragment] by cases. *)
Lemma storeFragment_cases (r : reassembler) (maxBytes expired : Z) (key : reassemblyKey)
    (b : reassemblyBuffer) (hdr : ipv4Header) (pkt payload head : bytes) :
  slice (E := ip_error) pkt 0 (h_ihl hdr) = Ok head ->
  let first := h_fragOffset hdr in
  let last := first + zlen payload - 1 in
  let more := h_moreFragments hdr in
  let b' := stored b first last more payload head in
  storeFragment r maxBytes expired key b hdr pkt payload =
    if ((0 <=? rb_totalLen b) && (rb_totalLen b <=? last)) ||
       (negb more && (0 <=? rb_totalLen b) && negb (rb_totalLen b =? last + 1))
    then Ok (None, reasmConflict, expired, dropLocked r key b)
    else if maxBytes <? rs_bytes r + Z.max 0 (last + 1 - zlen (rb_data b))
    then Ok (None, reasmBoundExceeded, expired,
             with_bufs r (<[key := marked b last more]> (rs_bufs r)) (rs_bytes r))
    else tryComplete
      (with_bufs r (<[key := b']> (rs_bufs r))
         (rs_bytes r + (zlen (growTo (rb_data b) (last + 1)) - zlen (rb_data b))))
      key b' (splitHoles first last more (rb_holes b)).2 expired.
Proof.
  intros Eh first last more b'. unfold storeFragment. fold first. fold last. fold more.
  destruct ((0 <=? rb_totalLen b) && (rb_totalLen b <=? last)); cbn [orb]; [done|].
  destruct (negb more && _ && _); [done|]. destruct (maxBytes <? _); [done|].
  unfold b', stored. destruct (splitHoles first last more (rb_holes b)) as [l i]. cbn [fst snd].
  destruct (first =? 0); [rewrite Eh|]; done.
Qed.

Lemma stored_size (b : reassemblyBuffer) (first last : Z) (more : bool) (payload head : bytes) :
  0 <= first -> last = first + zlen payload - 1 ->
  charge (stored b first last more payload head) = Z.max (zlen (rb_data b)) (last + 1).
Proof.
  intros Hf ->. pose proof (growTo_length (rb_data b) (first + zlen payload - 1 + 1)) as Hg.
  unfold charge. cbn [stored rb_data]. rewrite copyAt_length; [done|]. unfold zlen in *. lia.
Qed.

Lemma storeFragment_bounded (r : reassembler) (maxBytes expired : Z) (key : reassemblyKey)
    (b : reassemblyBuffer) (hdr : ipv4Header) (pkt payload head : bytes) :
  bounded r -> rs_bufs r !! key = Some b -> byteLimit r = maxBytes -> 0 <= expired ->
  slice (E := ip_error) pkt 0 (h_ihl hdr) = Ok head -> 20 <= zlen head -> 0 <= h_fragOffset hdr ->
  exists d out r', storeFragment r maxBytes expired key b hdr pkt payload = Ok (d, out, expired, r') /\
    bounded r' /\ same_limits r r' /\ (is_Some d <-> out = reasmComplete).
Proof.
  intros Hb Hk Hlim Hexp Eh Hhd Ho. rewrite (storeFragment_cases _ _ _ _ _ _ _ _ _ Eh).
  set (first := h_fragOffset hdr) in *. set (last := first + zlen payload - 1). set (more := h_moreFragments hdr).
  pose proof (bd_limit _ Hb) as Hy. pose proof (bd_bytes _ Hb) as Hby.
  assert (Hroom : rs_bufs r !! key = None -> Z.of_nat (size (rs_bufs r)) < bufLimit r) by (by rewrite Hk).
  destruct (_ || _).
  { eexists None, _, _. split; [done|]. split_and!; [by apply dropLocked_bounded|done..]. }
  destruct (Z.ltb_spec maxBytes (rs_bytes r + Z.max 0 (last + 1 - zlen (rb_data b)))) as [Hov|Hfit].
  { eexists None, _, _. split; [done|]. split_and!; [|done..].
    apply insert_bounded; [done..| |by rewrite Hlim in *|apply (bd_headers _ Hb key b Hk)].
    rewrite Hk. unfold charge. cbn [marked rb_data]. lia. }
  set (b' := stored b first last more payload head).
  pose proof (stored_size b first last more payload head Ho eq_refl) as Hsz. fold b' in Hsz.
  pose proof (growTo_length (rb_data b) (last + 1)) as Hgl.
  set (r3 := with_bufs r (<[key := b']> (rs_bufs r)) _).
  assert (Hb3 : bounded r3).
  { apply insert_bounded; [done..| | |].
    - rewrite Hk, Hsz. unfold charge. lia.
    - lia.
    - cbn [b' stored rb_header]. destruct (first =? 0); [by intros h [= <-]|apply (bd_headers _ Hb key b Hk)]. }
  destruct (tryComplete_bounded r3 key b' (splitHoles first last more (rb_holes b)).2 expired Hb3
    (lookup_insert_eq _ _ _) Hexp) as (d & out & r' & E & H).
  by exists d, out, r'.
Qed.

Lemma add_bounded (r : reassembler) (now : Z) (hdr : ipv4Header) (pkt : bytes) :
  bounded r -> fragment_in hdr pkt ->
  exists d out n r', add r now hdr pkt = Ok (d, out, n, r') /\ bounded r' /\ same_limits r r' /\
    0 <= n /\ (is_Some d <-> out = reasmComplete).
Proof.
  intros Hb Hf.
  destruct (fragment_geometry hdr pkt Hf) as (payload & Es & _ & Hn & Ho & Hend & _ & Eh & Hhd & _).
  unfold add. destruct (rs_closed r); [by eexists None, _, 0, r; split_and!|].
  pose proof (sweep_bounded now r Hb) as HS. unfold same_limits in *.
  destruct (resolveLimits r) as [[maxBufs maxBytes] timeout] eqn:EL.
  destruct (sweep now r) as [r1 expired]. destruct HS as (Hb1 & Hsl & _ & Hexp & _).
  rewrite Es. outcome_simpl. set (key := keyOf hdr). set (found := rs_bufs r1 !! key).
  destruct (bool_decide (found = None) && (maxBufs <=? Z.of_nat (size (rs_bufs r1)))) eqn:Ecap.
  { by eexists None, _, expired, r1; split_and!. }
  set (b := default (newBuffer (now + timeout)) found).
  set (r2 := with_bufs r1 (<[key := b]> (rs_bufs r1)) (rs_bytes r1)).
  assert (Hb2 : bounded r2).
  { apply insert_bounded; [done|apply (bd_bytes _ Hb1)| | |apply (bd_limit _ Hb1)|].
    - intros Hnone. fold found in Hnone. rewrite Hnone in Ecap. cbn in Ecap.
      unfold bufLimit. rewrite Hsl. cbn. lia.
    - change (rs_bufs r1 !! key) with found. unfold b. destruct found; cbn [default from_option id]; [lia|].
      change (charge (newBuffer (now + timeout))) with 0. lia.
    - unfold b. destruct found as [b0|] eqn:Ef; [|done]. apply (bd_headers _ Hb1 key b0 Ef). }
  destruct (storeFragment_bounded r2 maxBytes expired key b hdr pkt payload _ Hb2
    (lookup_insert_eq _ _ _) ltac:(unfold byteLimit; change (resolveLimits r2) with (resolveLimits r1);
                                   by rewrite Hsl) Hexp Eh Hhd Ho) as (d & out & r' & E & Hb' & Hs' & Hd).
  exists d, out, expired, r'. split_and!; try done. by rewrite Hs'.
Qed.

(** ** Holes *)

Definition in_hole (x : Z) (h : hole) : Prop := ho_first h <= x <= ho_last h.
Definition in_holes (x : Z) (hs : list hole) : Prop := Exists (in_hole x) hs.
Definition holes_wf (hs : list hole) : Prop := Forall (fun h => ho_first h <= ho_last h) hs.

Lemma splitHole_spec (first last : Z) (more : bool) (h : hole) :
  first <= last -> ho_first h <= ho_last h ->
  let '(l, i) := splitHole first last more h in
  holes_wf l /\
  (forall x, in_holes x l <-> in_hole x h /\ (x < first \/ (last < x /\ more = true))) /\
  (i = true <-> exists x, in_hole x h /\ first <= x <= last).
Proof.
  intros Hfl Hh. unfold splitHole, in_holes, in_hole, holes_wf.
  destruct (negb more && (last <? ho_first h)) eqn:E1.
  { apply andb_true_iff in E1 as [Em El]. apply negb_true_iff in Em. apply Z.ltb_lt in El. subst more.
    split_and!; [constructor| |].
    - intros x. rewrite Exists_nil. split; [done|]. intros [? [?|[? ?]]]; [lia|done].
    - split; [done|]. intros (x & ? & ?). lia. }
  destruct ((last <? ho_first h) || (ho_last h <? first)) eqn:E2.
  { split_and!; [by constructor| |].
    - intros x. rewrite Exists_cons, Exists_nil.
      assert (last < ho_first h -> more = true) by (destruct more; [done|cbn in E1; lia]).
      split; [|tauto]. intros [?|[]]. split; [done|].
      destruct (Z.ltb_spec last (ho_first h)); [right; split; [lia|auto]|left; cbn in E2; lia].
    - split; [done|]. intros (x & ? & ?). lia. }
  apply orb_false_iff in E2 as [E2 E3]. apply Z.ltb_ge in E2, E3.
  split_and!.
  - apply Forall_app. split.
    + destruct (Z.ltb_spec (ho_first h) first); repeat constructor. cbn. lia.
    + destruct ((last <? ho_last h) && more) eqn:E; repeat constructor. cbn. lia.
  - intros x. rewrite Exists_app. split.
    + intros [H|H].
      * destruct (Z.ltb_spec (ho_first h) first); [|by apply Exists_nil in H].
        apply Exists_cons in H as [H|H]; [cbn in H; lia|by apply Exists_nil in H].
      * destruct ((last <? ho_last h) && more) eqn:E; [|by apply Exists_nil in H].
        apply andb_true_iff in E as [E ->]. apply Exists_cons in H as [H|H]; [cbn in H|by apply Exists_nil in H].
        split; [lia|]. right. split; [lia|done].
    + intros [Hx [Hlt|[Hgt ->]]].
      * left. rewrite (proj2 (Z.ltb_lt _ _)) by lia. left. cbn. lia.
      * right. rewrite (proj2 (Z.ltb_lt _ _)) by lia. left. cbn. lia.
  - split; [|done]. intros _. exists (Z.max first (ho_first h)). lia.
Qed.

Lemma splitHoles_spec (first last : Z) (more : bool) (hs : list hole) :
  first <= last -> holes_wf hs ->
  let '(l, i) := splitHoles first last more hs in
  holes_wf l /\
  (forall x, in_holes x l <-> in_holes x hs /\ (x < first \/ (last < x /\ more = true))) /\
  (i = true <-> exists x, in_holes x hs /\ first <= x <= last).
Proof.
  intros Hfl. induction hs as [|h hs IH]; intros Hw; cbn [splitHoles].
  { split_and!; [constructor| |].
    - intros x. unfold in_holes. rewrite Exists_nil. tauto.
    - split; [done|]. intros (x & H%Exists_nil & _). done. }
  apply Forall_cons in Hw as [Hh Hw]. specialize (IH Hw).
  pose proof (splitHole_spec first last more h Hfl Hh) as HS.
  destruct (splitHole first last more h) as [l1 i1].
  destruct (splitHoles first last more hs) as [l2 i2].
  destruct HS as (S1 & S2 & S3), IH as (I1 & I2 & I3).
  split_and!; [by apply Forall_app| |].
  - intros x. specialize (S2 x). specialize (I2 x). unfold in_holes in *.
    rewrite Exists_app, Exists_cons. tauto.
  - rewrite orb_true_iff, S3, I3. unfold in_holes. split.
    + intros [(x & ? & ?)|(x & ? & ?)]; exists x; rewrite Exists_cons; auto.
    + intros (x & [Hx|Hx]%Exists_cons & ?); [left|right]; eauto.
Qed.

Lemma no_holes (hs : list hole) : holes_wf hs -> (forall x, ~ in_holes x hs) -> hs = [].
Proof.
  intros Hw Hn. destruct hs as [|h hs]; [done|]. apply Forall_cons in Hw as [Hh _].
  exfalso. apply (Hn (ho_first h)). left. unfold in_hole. lia.
Qed.

(** ** A datagram and its fragments *)

(** The datagram under reassembly: its payload and how its fragments' headers
    read. *)
Record datagram := mkDatagram {
  dg_hdr : ipv4Header;
  dg_id : Z;
  dg_payload : bytes;
}.

Definition dg_len (d : datagram) : Z := zlen (dg_payload d).

Record datagram_wf (d : datagram) : Prop := {
  dw_len : 0 < dg_len d;
  dw_bytes : bytes_ok (dg_payload d);
  dw_fits : h_ihl (dg_hdr d) + dg_len d <= 65535;
  dw_ihl : 20 <= h_ihl (dg_hdr d);
}.

(** [pkt] is the fragment of [d] that covers the bytes [iv.1..iv.2]. *)
Record piece (d : datagram) (iv : Z * Z) (pkt : bytes) : Prop := {
  pc_range : 0 <= iv.1 <= iv.2 /\ iv.2 < dg_len d;
  pc_bytes : bytes_ok pkt;
  pc_parse : parseIPv4 pkt = Ok (fragment_header (dg_hdr d) (dg_id d) iv.1 (iv.2 + 1 - iv.1)
                                   (iv.2 + 1 <? dg_len d));
  pc_data : drop (Z.to_nat (h_ihl (dg_hdr d))) pkt =
            take (Z.to_nat (iv.2 + 1 - iv.1)) (drop (Z.to_nat iv.1) (dg_payload d));
  pc_len : zlen pkt = h_ihl (dg_hdr d) + (iv.2 + 1 - iv.1);
}.

Definition covered (S : list (Z * Z)) (x : Z) : Prop := Exists (fun iv => iv.1 <= x <= iv.2) S.
Definition final_in (d : datagram) (S : list (Z * Z)) : bool :=
  existsb (fun iv => iv.2 + 1 =? dg_len d) S.

(** The buffer of [d] after the fragments covering [S] arrived. *)
Record buf_inv (d : datagram) (b : reassemblyBuffer) (S : list (Z * Z)) : Prop := {
  bi_holes_wf : holes_wf (rb_holes b);
  bi_holes : forall x, in_holes x (rb_holes b) <->
    (0 <= x < if final_in d S then dg_len d else 65535) /\ ~ covered S x;
  bi_total : rb_totalLen b = if final_in d S then dg_len d else -1;
  bi_len : zlen (rb_data b) <= dg_len d;
  bi_data : forall x : nat, covered S (Z.of_nat x) -> rb_data b !! x = dg_payload d !! x;
  bi_ends : Forall (fun iv => iv.2 < zlen (rb_data b)) S;
  bi_header : forall iv, iv ∈ S -> iv.1 = 0 -> is_Some (rb_header b);
  bi_header_from : forall h, rb_header b = Some h -> exists iv pkt, piece d iv pkt /\ iv.1 = 0 /\
    h = take (Z.to_nat (h_ihl (dg_hdr d))) pkt;
}.

Lemma newBuffer_inv (d : datagram) (e : Z) : datagram_wf d -> buf_inv d (newBuffer e) [].
Proof.
  intros [Hl _ Hf Hi]. unfold newBuffer. constructor; cbn; try done.
  - by repeat constructor.
  - intros x. unfold in_holes, covered. rewrite Exists_cons, !Exists_nil.
    unfold in_hole. cbn [ho_first ho_last]. change holeOpenEnd with 65534. lia.
  - unfold zlen. cbn. lia.
  - intros x H%Exists_nil. done.
  - by intros iv H%elem_of_nil.
Qed.
(** ** One more fragment *)

Lemma growTo_lookup (data : bytes) (n : Z) (x : nat) :
  (x < length data)%nat -> growTo data n !! x = data !! x.
Proof. intros Hx. unfold growTo. destruct (zlen data <? n); [by rewrite lookup_app_l|done]. Qed.

Lemma copyAt_lookup (data payload : bytes) (f x : nat) :
  (f + length payload <= length data)%nat ->
  copyAt data f payload !! x =
    if decide (f <= x < f + length payload)%nat then payload !! (x - f)%nat else data !! x.
Proof.
  intros Hl. unfold copyAt. assert (length (take f data) = f) as Ht by (rewrite length_take; lia).
  destruct (decide _) as [Hd|Hd].
  - rewrite lookup_app_r, Ht by lia. by rewrite lookup_app_l by lia.
  - destruct (decide (x < f)%nat).
    + rewrite lookup_app_l, lookup_take_lt by lia. done.
    + rewrite lookup_app_r, Ht, lookup_app_r, lookup_drop by lia. f_equal. lia.
Qed.

Lemma covered_cons (iv : Z * Z) (S : list (Z * Z)) (x : Z) :
  covered (iv :: S) x <-> (iv.1 <= x <= iv.2) \/ covered S x.
Proof. apply Exists_cons. Qed.

Section Step.
Context (d : datagram) (iv : Z * Z) (pkt : bytes) (b : reassemblyBuffer) (S : list (Z * Z)).
Context (Hd : datagram_wf d) (Hp : piece d iv pkt) (Hb : buf_inv d b S).

Local Definition chunk : bytes :=
  take (Z.to_nat (iv.2 + 1 - iv.1)) (drop (Z.to_nat iv.1) (dg_payload d)).
Local Definition b' : reassemblyBuffer :=
  stored b iv.1 iv.2 (iv.2 + 1 <? dg_len d) chunk (take (Z.to_nat (h_ihl (dg_hdr d))) pkt).

Lemma chunk_length : zlen chunk = iv.2 + 1 - iv.1.
Proof.
  destruct (pc_range _ _ _ Hp). unfold chunk, dg_len in *. rewrite zlen_take, zlen_drop by lia. lia.
Qed.

Lemma stored_length : zlen (rb_data b') = Z.max (zlen (rb_data b)) (iv.2 + 1).
Proof.
  destruct (pc_range _ _ _ Hp). pose proof chunk_length. pose proof (growTo_length (rb_data b) (iv.2 + 1)).
  cbn [b' stored rb_data]. rewrite copyAt_length; unfold zlen in *; lia.
Qed.

Lemma final_in_cons : final_in d (iv :: S) = (iv.2 + 1 =? dg_len d) || final_in d S.
Proof. done. Qed.

Lemma stored_data (x : nat) :
  covered (iv :: S) (Z.of_nat x) -> rb_data b' !! x = dg_payload d !! x.
Proof.
  destruct (pc_range _ _ _ Hp). pose proof chunk_length as Hc.
  pose proof (growTo_length (rb_data b) (iv.2 + 1)) as Hg.
  intros Hx%covered_cons. cbn [b' stored rb_data]. rewrite copyAt_lookup by (unfold zlen in *; lia).
  destruct (decide _) as [Hin|Hout].
  - unfold chunk. unfold zlen in Hc. rewrite lookup_take_lt, lookup_drop by lia. f_equal. lia.
  - destruct Hx as [Hx|Hx]; [unfold zlen in Hc; lia|].
    rewrite <- (bi_data _ _ _ Hb x Hx). apply growTo_lookup.
    apply Exists_exists in Hx as (iv' & Hin & Hx). pose proof (bi_ends _ _ _ Hb) as He.
    rewrite Forall_forall in He. specialize (He iv' Hin). cbn in He. unfold zlen in He. lia.
Qed.

Lemma stored_inv : buf_inv d b' (iv :: S).
Proof.
  destruct (pc_range _ _ _ Hp) as [Hr1 Hr2]. pose proof stored_length as Hl. destruct Hd, Hb.
  pose proof (splitHoles_spec iv.1 iv.2 (iv.2 + 1 <? dg_len d) (rb_holes b) ltac:(lia) bi_holes_wf0) as HS.
  constructor.
  - cbn. destruct (splitHoles _ _ _ _). apply HS.
  - intros x. cbn [b' stored rb_holes]. destruct (splitHoles _ _ _ _) as [l i].
    destruct HS as (_ & HS & _). cbn [fst]. rewrite HS, bi_holes0, covered_cons, final_in_cons.
    destruct (Z.ltb_spec (iv.2 + 1) (dg_len d)), (Z.eqb_spec (iv.2 + 1) (dg_len d)); try lia; cbn [orb].
    + intuition (try done; lia).
    + destruct (final_in d S); intuition (try done; try lia).
  - cbn [b' stored rb_totalLen]. rewrite final_in_cons, bi_total0.
    destruct (Z.ltb_spec (iv.2 + 1) (dg_len d)), (Z.eqb_spec (iv.2 + 1) (dg_len d)); try lia; done.
  - lia.
  - exact stored_data.
  - apply Forall_cons. split; [rewrite Hl; lia|].
    eapply Forall_impl; [exact bi_ends0|]. intros iv' Hiv. cbv beta in *. rewrite Hl. lia.
  - intros iv' Hin H0. cbn. destruct (Z.eqb_spec iv.1 0); [by eexists|].
    apply elem_of_cons in Hin as [->|Hin]; [done|]. by apply (bi_header0 iv').
  - intros h. cbn. destruct (Z.eqb_spec iv.1 0); [|apply bi_header_from0].
    intros [= <-]. by exists iv, pkt.
Qed.
End Step.

(** Nothing is swept before its deadline. *)
Lemma sweep_fresh (now : Z) (r : reassembler) :
  map_Forall (fun _ b => now < rb_expires b) (rs_bufs r) -> sweep now r = (r, 0).
Proof.
  intros Hf. unfold sweep.
  assert (Hl : Forall (fun kb => now < rb_expires kb.2) (map_to_list (rs_bufs r))).
  { apply Forall_forall. intros [k b] Hin%elem_of_map_to_list. exact (Hf k b Hin). }
  induction Hl as [|[k b] l Hb Hl IH]; [done|]. cbn [foldl sweepStep snd] in *.
  by rewrite (proj2 (Z.leb_gt _ _) Hb).
Qed.

(** A reassembler with the default limits. *)
Definition defaults (bufs : gmap reassemblyKey reassemblyBuffer) (n : Z) : reassembler :=
  mkReassembler bufs n false 0 0 0.

Definition dg_key (d : datagram) : reassemblyKey :=
  (h_src (dg_hdr d), h_dst (dg_hdr d), h_protocol (dg_hdr d), dg_id d).

Definition piece_header (d : datagram) (iv : Z * Z) : ipv4Header :=
  fragment_header (dg_hdr d) (dg_id d) iv.1 (iv.2 + 1 - iv.1) (iv.2 + 1 <? dg_len d).

(** The state after the fragments covering [S] arrived, the first of them at
    [start]. *)
Inductive gathered (d : datagram) (start : Z) : list (Z * Z) -> reassembler -> Prop :=
  | gathered_none : gathered d start [] (defaults ∅ 0)
  | gathered_some (S : list (Z * Z)) (b : reassemblyBuffer) :
      buf_inv d b S -> rb_expires b = start + reassemblyTimeout -> S <> [] ->
      gathered d start S (defaults {[dg_key d := b]} (zlen (rb_data b))).

(** What [add] does with a piece of [d]: it stores it and tries to complete. *)
Lemma storeFragment_piece (d : datagram) (S : list (Z * Z)) (r : reassembler) (b0 : reassemblyBuffer)
    (iv : Z * Z) (pkt : bytes) :
  datagram_wf d -> piece d iv pkt -> buf_inv d b0 S -> rs_bytes r = zlen (rb_data b0) ->
  storeFragment r 262144 0 (dg_key d) b0 (piece_header d iv) pkt (chunk d iv) =
    tryComplete (with_bufs r (<[dg_key d := b' d iv pkt b0]> (rs_bufs r)) (zlen (rb_data (b' d iv pkt b0))))
      (dg_key d) (b' d iv pkt b0) (splitHoles iv.1 iv.2 (iv.2 + 1 <? dg_len d) (rb_holes b0)).2 0.
Proof.
  intros Hd Hp Hb Hbytes. pose proof (pc_range _ _ _ Hp) as [Hr1 Hr2].
  pose proof (pc_len _ _ _ Hp) as Hlen. pose proof (chunk_length d iv pkt Hp) as Hc.
  pose proof (dw_ihl _ Hd) as Hihl. pose proof (dw_fits _ Hd) as Hfits.
  rewrite (storeFragment_cases _ _ _ _ _ _ _ _ (take (Z.to_nat (h_ihl (dg_hdr d))) pkt)).
  2:{ change (h_ihl (piece_header d iv)) with (h_ihl (dg_hdr d)). by rewrite slice_ok, Z.sub_0_r by lia. }
  change (h_fragOffset (piece_header d iv)) with iv.1.
  change (h_moreFragments (piece_header d iv)) with (iv.2 + 1 <? dg_len d).
  replace (iv.1 + zlen (chunk d iv) - 1) with iv.2 by lia. cbv zeta.
  assert (Ht := bi_total _ _ _ Hb). pose proof (bi_len _ _ _ Hb) as Hbl.
  replace (_ || _) with false by (rewrite Ht; destruct (final_in d S); lia).
  rewrite Hbytes, (proj2 (Z.ltb_ge 262144 _)) by lia. fold (b' d iv pkt b0).
  by replace (zlen (rb_data b0) + (zlen (growTo (rb_data b0) (iv.2 + 1)) - zlen (rb_data b0))) with
    (zlen (rb_data (b' d iv pkt b0))) by (rewrite (stored_length d iv pkt b0 Hp), growTo_length; lia).
Qed.

Lemma add_piece (d : datagram) (start now : Z) (S : list (Z * Z)) (r : reassembler)
    (iv : Z * Z) (pkt : bytes) :
  datagram_wf d -> piece d iv pkt -> gathered d start S r ->
  (S = [] -> now = start) -> start <= now < start + reassemblyTimeout ->
  exists b0, buf_inv d b0 S /\ rb_expires b0 = start + reassemblyTimeout /\
    add r now (piece_header d iv) pkt =
      tryComplete (defaults {[dg_key d := b' d iv pkt b0]} (zlen (rb_data (b' d iv pkt b0))))
        (dg_key d) (b' d iv pkt b0)
        (splitHoles iv.1 iv.2 (iv.2 + 1 <? dg_len d) (rb_holes b0)).2 0.
Proof.
  intros Hd Hp Hg Hst Hnow.
  assert (Hex : exists b0, buf_inv d b0 S /\ rb_expires b0 = start + reassemblyTimeout /\
    default (newBuffer (now + reassemblyTimeout)) (rs_bufs r !! dg_key d) = b0 /\
    <[dg_key d := b0]> (rs_bufs r) = {[dg_key d := b0]} /\ rs_bytes r = zlen (rb_data b0) /\
    r = defaults (rs_bufs r) (rs_bytes r) /\ map_Forall (fun _ b => now < rb_expires b) (rs_bufs r) /\
    Z.of_nat (size (rs_bufs r)) <= 1).
  { destruct Hg as [|S b Hb He HS].
    - exists (newBuffer (now + reassemblyTimeout)). rewrite (Hst eq_refl).
      split_and!; try done. by apply newBuffer_inv.
    - exists b. cbn [defaults rs_bufs rs_bytes].
      rewrite lookup_singleton_eq, insert_singleton_eq, map_size_singleton.
      split_and!; try done. apply map_Forall_singleton. lia. }
  destruct Hex as (b0 & Hb & He & Edef & Eins & Ebytes & Er & Hfresh & Hsz).
  exists b0. split_and!; [done..|].
  pose proof (pc_range _ _ _ Hp) as [Hr1 Hr2]. pose proof (pc_len _ _ _ Hp) as Hlen.
  pose proof (dw_ihl _ Hd) as Hihl.
  assert (Hsl : slice (E := ip_error) pkt (h_ihl (dg_hdr d)) (h_ihl (dg_hdr d) + (iv.2 + 1 - iv.1)) =
                Ok (chunk d iv)).
  { rewrite slice_ok, (pc_data _ _ _ Hp), take_take by lia. unfold chunk. do 2 f_equal. lia. }
  unfold add. rewrite Er. cbn [rs_closed defaults].
  change (resolveLimits _) with (16, 262144, reassemblyTimeout). cbv iota beta.
  rewrite <- Er, sweep_fresh by done. cbv iota beta.
  change (keyOf (piece_header d iv)) with (dg_key d).
  change (h_payloadOff (piece_header d iv)) with (h_ihl (dg_hdr d)).
  change (h_totalLen (piece_header d iv)) with (h_ihl (dg_hdr d) + (iv.2 + 1 - iv.1)).
  rewrite Hsl. outcome_simpl.
  rewrite Edef, (proj2 (Z.leb_gt 16 _)), andb_false_r, (storeFragment_piece d S _ b0 iv pkt Hd Hp Hb) by (lia || done).
  cbn [with_bufs rs_bufs]. rewrite Eins, insert_singleton_eq. unfold with_bufs. by rewrite Er.
Qed.

Lemma complete_holes (d : datagram) (b : reassemblyBuffer) (S : list (Z * Z)) :
  datagram_wf d -> buf_inv d b S -> Forall (fun iv => 0 <= iv.1 <= iv.2 /\ iv.2 < dg_len d) S ->
  (forall x, 0 <= x < dg_len d -> covered S x) ->
  rb_holes b = [] /\ rb_totalLen b = dg_len d /\ rb_data b = dg_payload d /\
  exists iv pkt, piece d iv pkt /\ iv.1 = 0 /\
    rb_header b = Some (take (Z.to_nat (h_ihl (dg_hdr d))) pkt).
Proof.
  intros Hd [] Hr Hcov. destruct Hd as [Hl _ Hf Hi]. rewrite Forall_forall in Hr.
  assert (Hfin : final_in d S = true).
  { specialize (Hcov (dg_len d - 1) ltac:(lia)). apply Exists_exists in Hcov as (iv & Hin & Hx).
    apply existsb_exists. exists iv. split; [by apply list_elem_of_In|].
    specialize (Hr iv Hin). cbn in Hr. lia. }
  rewrite Hfin in *. split_and!; [|done| |].
  - apply no_holes; [done|]. intros x [Hx Hn]%bi_holes0. auto.
  - assert (Hlen : length (rb_data b) = length (dg_payload d)).
    { specialize (Hcov (dg_len d - 1) ltac:(lia)). apply Exists_exists in Hcov as (iv & Hin & Hx).
      rewrite Forall_forall in bi_ends0. specialize (bi_ends0 iv Hin). cbn in bi_ends0.
      unfold dg_len, zlen in *. lia. }
    apply list_eq. intros x. destruct (decide (x < length (dg_payload d))%nat) as [Hx|Hx].
    + apply bi_data0, Hcov. unfold dg_len, zlen. lia.
    + rewrite !lookup_ge_None_2 by lia. done.
  - specialize (Hcov 0 ltac:(lia)). apply Exists_exists in Hcov as (iv & Hin & Hx).
    specialize (Hr iv Hin). cbn in Hr. destruct (bi_header0 iv Hin ltac:(lia)) as [h Hh].
    destruct (bi_header_from0 h Hh) as (iv' & pkt & Hp & H0 & ->). by exists iv', pkt.
Qed.

Lemma incomplete_holes (d : datagram) (b : reassemblyBuffer) (S : list (Z * Z)) (x : Z) :
  buf_inv d b S -> 0 <= x < dg_len d -> ~ covered S x ->
  (0 <? length (rb_holes b))%nat || (rb_totalLen b <? 0) = true.
Proof.
  intros [] Hx Hn. destruct (final_in d S); [|rewrite bi_total0; by rewrite orb_true_r].
  assert (in_holes x (rb_holes b)) as Hin by (by apply bi_holes0).
  destruct (rb_holes b); [by apply Exists_nil in Hin|done].
Qed.

(** A fragment that leaves a byte missing completes nothing. *)
Lemma add_incomplete (d : datagram) (start now : Z) (S : list (Z * Z)) (r : reassembler)
    (iv : Z * Z) (pkt : bytes) (x : Z) :
  datagram_wf d -> piece d iv pkt -> gathered d start S r ->
  (S = [] -> now = start) -> start <= now < start + reassemblyTimeout ->
  0 <= x < dg_len d -> ~ covered (iv :: S) x ->
  exists out r', add r now (piece_header d iv) pkt = Ok (None, out, 0, r') /\
    out ∈ [reasmBuffered; reasmDuplicate] /\ gathered d start (iv :: S) r'.
Proof.
  intros Hd Hp Hg Hst Hnow Hx Hn.
  destruct (add_piece d start now S r iv pkt Hd Hp Hg Hst Hnow) as (b0 & Hb & He & ->).
  pose proof (stored_inv d iv pkt b0 S Hd Hp Hb) as Hi.
  pose proof (incomplete_holes d _ _ x Hi Hx Hn) as Hinc.
  assert (Hg' : gathered d start (iv :: S)
    (defaults {[dg_key d := b' d iv pkt b0]} (zlen (rb_data (b' d iv pkt b0))))) by (by constructor).
  unfold tryComplete. destruct (negb _).
  { exists reasmDuplicate. eexists. split_and!; [done|set_solver|done]. }
  exists reasmBuffered. eexists. rewrite Hinc. cbn [orb].
  split_and!; [by destruct (rb_header _)|set_solver|done].
Qed.

(** The rewritten header is the one fragmentation would write for the whole
    payload at offset 0. *)
Lemma assemble_fragment (hdr : ipv4Header) (pkt payload : bytes) :
  bytes_ok pkt -> parseIPv4 pkt = Ok hdr ->
  assemble (take (Z.to_nat (h_ihl hdr)) pkt) payload =
  oneFragment hdr pkt payload 0 false (h_id hdr).
Proof.
  intros Hok Hparse. pose proof (parseIPv4_ok pkt Hok) as HP. rewrite Hparse in HP.
  destruct HP as (Hihl & Htl & _).
  assert (Hth : zlen (take (Z.to_nat (h_ihl hdr)) pkt) = h_ihl hdr) by (rewrite zlen_take by lia; lia).
  unfold assemble, oneFragment. rewrite slice_ok by lia. outcome_simpl.
  rewrite Z.sub_0_r, drop_0, zlen_app, Hth. change (u16 (0 / 8)) with 0. cbv iota.
  destruct (twenty_bytes pkt ltac:(lia)) as (b0 & b1 & b2 & b3 & b4 & b5 & b6 & b7 & b8 & b9 & b10 &
    b11 & s0 & s1 & s2 & s3 & d0 & d1 & d2 & d3 & rest & ->).
  assert (Hid : be16 (h_id hdr) = [b4; b5]).
  { rewrite parseIPv4_bytes in Hparse.
    repeat (destruct (_ : bool) in Hparse; [done|]). apply (inj Ok) in Hparse. subst hdr. cbn [h_id].
    unfold bytes_ok in Hok. rewrite !Forall_cons in Hok.
    destruct Hok as (_ & _ & _ & _ & H4 & H5 & _). unfold be16. f_equal; [word_lia|]. f_equal. word_lia. }
  replace (Z.to_nat (h_ihl hdr)) with (20 + (Z.to_nat (h_ihl hdr) - 20))%nat by lia.
  set (opts := take (Z.to_nat (h_ihl hdr) - 20) rest).
  assert (E : forall (tl n : Z),
    (out ← put16 ((b0 :: b1 :: b2 :: b3 :: b4 :: b5 :: b6 :: b7 :: b8 :: b9 :: b10 :: b11 ::
          s0 :: s1 :: s2 :: s3 :: d0 :: d1 :: d2 :: d3 :: opts) ++ payload) 2 tl;
     out ← put16 out 6 0; out ← put16 out 10 0;
     h ← slice out 0 n; put16 out 10 (InternetChecksum h)) =
    (out ← put16 ((b0 :: b1 :: b2 :: b3 :: b4 :: b5 :: b6 :: b7 :: b8 :: b9 :: b10 :: b11 ::
          s0 :: s1 :: s2 :: s3 :: d0 :: d1 :: d2 :: d3 :: opts) ++ payload) 2 tl;
     out ← put16 out 4 (h_id hdr); out ← put16 out 6 0; out ← put16 out 10 0;
     h ← slice out 0 n; put16 (E := ip_error) out 10 (InternetChecksum h))).
  { intros tl n. unfold put16. rewrite Hid. reflexivity. }
  apply E.
Qed.

Lemma add_completes (d : datagram) (start now : Z) (S : list (Z * Z)) (r : reassembler)
    (iv : Z * Z) (pkt : bytes) :
  datagram_wf d -> is_u16 (dg_id d) -> piece d iv pkt -> gathered d start S r ->
  (S = [] -> now = start) -> start <= now < start + reassemblyTimeout ->
  Forall (fun iv => 0 <= iv.1 <= iv.2 /\ iv.2 < dg_len d) S ->
  (forall x, 0 <= x < dg_len d -> covered (iv :: S) x) -> ~ covered S iv.1 ->
  exists out, add r now (piece_header d iv) pkt = Ok (Some out, reasmComplete, 0, defaults ∅ 0) /\
    parseIPv4 out = Ok (fragment_header (dg_hdr d) (dg_id d) 0 (dg_len d) false) /\
    drop (Z.to_nat (h_ihl (dg_hdr d))) out = dg_payload d /\
    InternetChecksum (take (Z.to_nat (h_ihl (dg_hdr d))) out) = 0.
Proof.
  intros Hd Hid Hp Hg Hst Hnow HS Hcov Hnew. pose proof (pc_range _ _ _ Hp) as [Hr1 Hr2].
  destruct (add_piece d start now S r iv pkt Hd Hp Hg Hst Hnow) as (b0 & Hb & He & ->).
  destruct (complete_holes d _ _ Hd (stored_inv d iv pkt b0 S Hd Hp Hb)) as
    (Eh & Et & Ed & iv0 & pkt0 & Hp0 & H0 & Ehd); [by apply Forall_cons|done|].
  assert (Hint : (splitHoles iv.1 iv.2 (iv.2 + 1 <? dg_len d) (rb_holes b0)).2 = true).
  { pose proof (splitHoles_spec iv.1 iv.2 (iv.2 + 1 <? dg_len d) (rb_holes b0) ltac:(lia)
      (bi_holes_wf _ _ _ Hb)) as HSp.
    destruct (splitHoles _ _ _ _) as [l i]. apply HSp. exists iv.1. split; [|lia].
    apply (bi_holes _ _ _ Hb). pose proof (dw_fits _ Hd). pose proof (dw_ihl _ Hd).
    split; [destruct (final_in d S); lia|done]. }
  unfold tryComplete. rewrite Hint, Ehd, Eh, Et, Ed. cbn [negb length Nat.ltb Nat.leb orb].
  pose proof (dw_fits _ Hd) as Hf. pose proof (dw_len _ Hd) as Hl. pose proof (dw_ihl _ Hd) as Hi.
  pose proof (pc_len _ _ _ Hp0) as Hl0. pose proof (pc_range _ _ _ Hp0) as [Hr01 _].
  assert (Hth : zlen (take (Z.to_nat (h_ihl (dg_hdr d))) pkt0) = h_ihl (dg_hdr d))
    by (rewrite zlen_take by lia; lia).
  rewrite Hth, (proj2 (Z.ltb_ge (dg_len d) 0)) by lia. unfold dg_len in *. rewrite Z.ltb_irrefl.
  cbn [orb]. unfold maxIPv4Datagram. rewrite (proj2 (Z.ltb_ge 65535 _)) by lia.
  rewrite slice_ok by lia. outcome_simpl. rewrite Z.sub_0_r, drop_0, (take_ge (dg_payload d)) by (unfold zlen; lia).
  rewrite (assemble_fragment (piece_header d iv0) pkt0 _ (pc_bytes _ _ _ Hp0) (pc_parse _ _ _ Hp0)).
  destruct (oneFragment_spec (piece_header d iv0) pkt0 (dg_payload d) 0 (dg_id d) false
    (pc_bytes _ _ _ Hp0) (pc_parse _ _ _ Hp0)) as (out & Eo & _ & _ & Hpo & Hdo & Hco); try done.
  - apply Hd.
  - lia.
  - exists out. change (h_id (piece_header d iv0)) with (dg_id d). rewrite Eo. outcome_simpl.
    split_and!; [|done..]. unfold dropLocked, with_bufs. cbn [defaults rs_bufs rs_bytes].
    rewrite delete_singleton_eq, Ed, Z.sub_diag. done.
Qed.

(** ** What every buffer satisfies *)

(** A property of the buffers that new buffers have and that storing a fragment
    keeps is kept by [add], and the completed datagram comes from a buffer that
    has it. *)
Section Buffers.
Context (P : reassemblyBuffer -> Prop) (hdr : ipv4Header) (pkt : bytes).
Let first := h_fragOffset hdr.
Let last := first + zlen (payload_of hdr pkt) - 1.
Let more := h_moreFragments hdr.
Context (Pnew : forall e, P (newBuffer e)).
Context (Pend : forall b, P b -> P (marked b last more)).
Context (Pstored : forall b, P b ->
  P (stored b first last more (payload_of hdr pkt) (take (Z.to_nat (h_ihl hdr)) pkt))).

(** The buffers after [add] are those before, but for the fragment's own. *)
Local Definition kept (r r' : reassembler) : Prop :=
  forall k b, rs_bufs r' !! k = Some b ->
    (k <> keyOf hdr /\ rs_bufs r !! k = Some b) \/ (k = keyOf hdr /\ P b).

Lemma kept_dropped (r r' : reassembler) (b : reassemblyBuffer) :
  kept r r' -> kept r (dropLocked r' (keyOf hdr) b).
Proof.
  intros Hk k b' Hb'. cbn in Hb'. apply lookup_delete_Some in Hb' as [Hne Hb'].
  destruct (Hk k b' Hb') as [?|[? _]]; [by left|congruence].
Qed.

Lemma kept_inserted (r r' : reassembler) (b : reassemblyBuffer) (n : Z) :
  kept r r' -> P b -> kept r (with_bufs r' (<[keyOf hdr := b]> (rs_bufs r')) n).
Proof.
  intros Hk Hb k b' Hb'. cbn in Hb'. apply lookup_insert_Some in Hb' as [[<- <-]|[Hne Hb']]; [by right|].
  by apply Hk.
Qed.

Lemma tryComplete_kept (r r' r'' : reassembler) (b : reassemblyBuffer) (i : bool) (n m : Z)
    (d : option bytes) (out : reasmOutcome) :
  kept r r' -> P b -> tryComplete r' (keyOf hdr) b i n = Ok (d, out, m, r'') ->
  kept r r'' /\ forall o, d = Some o -> exists h, rb_header b = Some h /\
    0 <= rb_totalLen b <= zlen (rb_data b) /\ zlen h + rb_totalLen b <= 65535 /\
    assemble h (take (Z.to_nat (rb_totalLen b)) (rb_data b)) = Ok o.
Proof.
  intros Hk Hb. unfold tryComplete. destruct (negb i).
  { intros E. apply (inj Ok) in E. by simplify_eq. }
  destruct (rb_header b) as [h|] eqn:Eh; [|intros E; apply (inj Ok) in E; by simplify_eq].
  destruct (_ || _) eqn:E1; [intros E; apply (inj Ok) in E; by simplify_eq|].
  destruct (Z.ltb_spec maxIPv4Datagram (zlen h + rb_totalLen b)) as [H65|H65].
  { intros E. apply (inj Ok) in E. simplify_eq. split; [by apply kept_dropped|done]. }
  rewrite slice_ok by lia. outcome_simpl. rewrite Z.sub_0_r, drop_0.
  destruct (assemble h _) as [o| |] eqn:Ea; [|done..]. outcome_simpl.
  intros E. apply (inj Ok) in E. simplify_eq. split; [by apply kept_dropped|].
  intros o' Ho. simplify_eq. exists h. unfold maxIPv4Datagram in H65. split_and!; [done|lia..|done].
Qed.

Lemma add_buffers (r r' : reassembler) (now n : Z) (d : option bytes) (out : reasmOutcome) :
  bounded r -> fragment_in hdr pkt -> (forall b, rs_bufs r !! keyOf hdr = Some b -> P b) ->
  add r now hdr pkt = Ok (d, out, n, r') ->
  kept r r' /\ forall o, d = Some o -> exists b h, P b /\ rb_header b = Some h /\
    0 <= rb_totalLen b <= zlen (rb_data b) /\ zlen h + rb_totalLen b <= 65535 /\
    assemble h (take (Z.to_nat (rb_totalLen b)) (rb_data b)) = Ok o.
Proof.
  intros Hb Hf HP. destruct (fragment_geometry hdr pkt Hf) as
    (payload & Es & -> & Hn & Ho & Hend & _ & Eh & Hhd & _).
  assert (Hsame : forall r1, rs_bufs r1 ⊆ rs_bufs r -> kept r r1).
  { intros r1 Hsub k b Hk. pose proof (lookup_weaken _ _ _ _ Hk Hsub) as Hk'.
    destruct (decide (k = keyOf hdr)) as [->|]; [right; auto|by left]. }
  unfold add. destruct (rs_closed r).
  { intros E. apply (inj Ok) in E. simplify_eq. split; [by apply Hsame|done]. }
  pose proof (sweep_bounded now r Hb) as HS. destruct (resolveLimits r) as [[maxBufs maxBytes] timeout].
  destruct (sweep now r) as [r1 expired]. destruct HS as (_ & _ & _ & _ & Hsub & _).
  rewrite Es. outcome_simpl.
  destruct (bool_decide _ && _).
  { intros E. apply (inj Ok) in E. simplify_eq. split; [by apply Hsame|done]. }
  set (b := default _ _).
  assert (Hbp : P b).
  { unfold b. destruct (rs_bufs r1 !! keyOf hdr) as [b0|] eqn:E; [|apply Pnew].
    apply HP. by apply (lookup_weaken _ _ _ _ E). }
  set (r2 := with_bufs r1 (<[keyOf hdr := b]> (rs_bufs r1)) (rs_bytes r1)).
  assert (Hk2 : kept r r2) by (apply kept_inserted; [by apply Hsame|done]).
  rewrite (storeFragment_cases _ _ _ _ _ _ _ _ _ Eh). fold first. fold last. fold more. cbv zeta.
  destruct (_ || _).
  { intros E. apply (inj Ok) in E. simplify_eq. split; [by apply kept_dropped|done]. }
  destruct (maxBytes <? _).
  { intros E. apply (inj Ok) in E. simplify_eq. split; [|done]. by apply kept_inserted, Pend. }
  intros E. apply (tryComplete_kept r) in E as [Hk Hd]; [|by apply kept_inserted; auto|by apply Pstored].
  split; [done|]. intros o Ho'. destruct (Hd o Ho') as (h & ?). eexists _, h. split; [by apply Pstored|done].
Qed.
End Buffers.

(** ** Completed datagrams come from fragments of the same sender *)

(** The buffer's header, when it has one, is that of an accepted fragment with
    the key [k]; its data are bytes; a known length is not zero. *)
Definition buffer_ok (k : reassemblyKey) (b : reassemblyBuffer) : Prop :=
  (forall h, rb_header b = Some h -> exists pkt0 hdr0, bytes_ok pkt0 /\ parseIPv4 pkt0 = Ok hdr0 /\
     keyOf hdr0 = k /\ h = take (Z.to_nat (h_ihl hdr0)) pkt0) /\
  bytes_ok (rb_data b) /\ rb_totalLen b <> 0.

Lemma stored_bytes (data payload : bytes) (n : Z) (f : nat) :
  bytes_ok data -> bytes_ok payload -> bytes_ok (copyAt (growTo data n) f payload).
Proof.
  intros Hd Hp. assert (Hg : bytes_ok (growTo data n)).
  { unfold growTo. destruct (zlen data <? n); [|done]. apply bytes_ok_app. split; [done|].
    apply Forall_replicate. unfold is_u8. lia. }
  unfold copyAt. apply bytes_ok_app. split; [by apply bytes_ok_take|].
  apply bytes_ok_app. split; [done|by apply bytes_ok_drop].
Qed.

Lemma completed_datagram (k : reassemblyKey) (b : reassemblyBuffer) (h o : bytes) :
  buffer_ok k b -> rb_header b = Some h -> 0 <= rb_totalLen b <= zlen (rb_data b) ->
  zlen h + rb_totalLen b <= 65535 ->
  assemble h (take (Z.to_nat (rb_totalLen b)) (rb_data b)) = Ok o ->
  exists h', bytes_ok o /\ parseIPv4 o = Ok h' /\ keyOf h' = k /\ isFragment h' = false.
Proof.
  intros (Hh & Hd & Hne) Eh Ht H65 Ea. destruct (Hh h Eh) as (pkt0 & hdr0 & Hok & Hp & Hk & ->).
  pose proof (parseIPv4_ok pkt0 Hok) as HP. rewrite Hp in HP.
  destruct HP as (Hihl & Htl & _ & _ & _ & _ & _ & Hid & _).
  rewrite zlen_take in H65 by lia. rewrite (assemble_fragment hdr0) in Ea by done.
  set (body := take (Z.to_nat (rb_totalLen b)) (rb_data b)) in *.
  assert (Hz : zlen body = rb_totalLen b) by (unfold body; rewrite zlen_take by lia; lia).
  destruct (oneFragment_spec hdr0 pkt0 body 0 (h_id hdr0) false Hok Hp Hid) as
    (frag & E & Hfok & _ & Hfp & _); try done; try lia.
  { by apply bytes_ok_take. }
  rewrite E in Ea. apply (inj Ok) in Ea. subst o. eexists. split_and!; [done|exact Hfp|done|done].
Qed.

(** Everything buffered belongs to the fragments' own keys. *)
Definition owned (own : reassemblyKey -> Prop) (r : reassembler) : Prop :=
  forall k b, rs_bufs r !! k = Some b -> own k /\ buffer_ok k b.

Lemma add_owned (own : reassemblyKey -> Prop) (r r' : reassembler) (now n : Z) (hdr : ipv4Header)
    (pkt : bytes) (d : option bytes) (out : reasmOutcome) :
  bounded r -> fragment_in hdr pkt -> owned own r -> own (keyOf hdr) ->
  add r now hdr pkt = Ok (d, out, n, r') ->
  owned own r' /\ forall o, d = Some o ->
    exists h', bytes_ok o /\ parseIPv4 o = Ok h' /\ keyOf h' = keyOf hdr /\ isFragment h' = false.
Proof.
  intros Hb Hf Ho Hown E. destruct (fragment_geometry hdr pkt Hf) as
    (payload & _ & -> & Hn & Hoff & _ & Hpok & _ & _).
  apply (add_buffers (buffer_ok (keyOf hdr))) in E as [Hk Hd]; [| | | |done|done|].
  - split.
    + intros k b Hkb. destruct (Hk k b Hkb) as [[_ Hkb']|[-> Hbo]]; [by apply Ho|done].
    + intros o Ho'. destruct (Hd o Ho') as (b & h & Hbo & Hh & Ht & H65 & Ea).
      by apply (completed_datagram _ b h).
  - intros e. by split_and!; [|apply Forall_nil_2|].
  - intros b (H1 & H2 & H3). split_and!; try done. cbn. destruct (h_moreFragments hdr); lia.
  - intros b (H1 & H2 & H3). split_and!.
    + cbn. destruct (h_fragOffset hdr =? 0); [|done]. intros h [= <-].
      exists pkt, hdr. destruct Hf. done.
    + by apply stored_bytes.
    + cbn. destruct (h_moreFragments hdr); lia.
  - intros b Hkb. by apply Ho.
Qed.

(** ** Fragments as tiles of a datagram *)

(** The bytes a fragment carries. *)
Definition iv_of (f : bytes) : Z * Z :=
  match parseIPv4 f with
  | Ok h => (h_fragOffset h, h_fragOffset h + (h_totalLen h - h_ihl h) - 1)
  | _ => (0, 0)
  end.

Section Tiles.
Context (hdr : ipv4Header) (id mtu : Z) (payload : bytes).
Local Definition dg : datagram := mkDatagram hdr id payload.

Lemma iv_of_parsed (f : bytes) (off n : Z) (more : bool) :
  parseIPv4 f = Ok (fragment_header hdr id off n more) -> iv_of f = (off, off + n - 1).
Proof. intros E. unfold iv_of. rewrite E. cbn. f_equal. lia. Qed.

(** A fragment starts no earlier than the list of fragments it belongs to, and
    is a piece of the datagram. *)
Lemma tile_piece (frags : list bytes) (off : Z) (f : bytes) :
  fragments_of hdr id mtu payload off frags -> 0 <= off -> f ∈ frags ->
  off <= (iv_of f).1 /\ piece dg (iv_of f) f.
Proof.
  revert off. induction frags as [|g frags IH]; intros off Hfr Ho Hin; [by apply elem_of_nil in Hin|].
  destruct Hfr as (Hn & _ & Hok & Hend & Hp & Hd & _ & Hfr).
  apply elem_of_cons in Hin as [->|Hin].
  2:{ destruct (IH _ Hfr ltac:(lia) Hin). split; [lia|done]. }
  rewrite (iv_of_parsed _ _ _ _ Hp). split; [cbn; lia|]. set (n := zlen g - h_ihl hdr) in *.
  constructor; unfold dg_len; cbn [fst snd dg dg_payload dg_hdr dg_id]; try done;
    replace (off + n - 1 + 1 - off) with n by lia; replace (off + n - 1 + 1) with (off + n) by lia;
    try done; lia.
Qed.

Lemma tiles_distinct (frags : list bytes) (off : Z) (f g : bytes) :
  fragments_of hdr id mtu payload off frags -> 0 <= off -> f ∈ frags -> g ∈ frags ->
  f = g \/ (iv_of f).2 < (iv_of g).1 \/ (iv_of g).2 < (iv_of f).1.
Proof.
  revert off. induction frags as [|h frags IH]; intros off Hfr Ho Hf Hg; [by apply elem_of_nil in Hf|].
  destruct Hfr as (Hn & _ & _ & _ & Hp & _ & _ & Hfr).
  pose proof (iv_of_parsed _ _ _ _ Hp) as Hiv.
  assert (Hlater : forall k, k ∈ frags -> (iv_of h).2 < (iv_of k).1).
  { intros k Hk. destruct (tile_piece frags _ k Hfr ltac:(lia) Hk). rewrite Hiv. cbn. lia. }
  apply elem_of_cons in Hf as [->|Hf], Hg as [->|Hg]; auto. by apply (IH _ Hfr); [lia| |].
Qed.

Lemma tiles_cover (frags : list bytes) (off x : Z) :
  fragments_of hdr id mtu payload off frags -> off <= x < zlen payload ->
  exists f, f ∈ frags /\ (iv_of f).1 <= x <= (iv_of f).2.
Proof.
  revert off. induction frags as [|h frags IH]; intros off Hfr Hx; [cbn in Hfr; lia|].
  destruct Hfr as (Hn & _ & _ & _ & Hp & _ & _ & Hfr).
  destruct (Z.lt_ge_cases x (off + (zlen h - h_ihl hdr))) as [Hlt|Hge].
  - exists h. split; [by left|]. rewrite (iv_of_parsed _ _ _ _ Hp). cbn. lia.
  - destruct (IH _ Hfr ltac:(lia)) as (f & Hf & Hfx). exists f. split; [by right|done].
Qed.
End Tiles.

(** ** Theorems *)

(** Packets offered one after the other, each parsed and added. *)
Fixpoint feed (r : reassembler) (arrivals : list (Z * bytes))
    : outcome ip_error (list (option bytes * reasmOutcome) * reassembler) :=
  match arrivals with
  | [] => Ok ([], r)
  | (t, f) :: arrivals =>
      hdr ← parseIPv4 f;
      '(d, out, _, r) ← add r t hdr f;
      '(outs, r) ← feed r arrivals;
      Ok ((d, out) :: outs, r)
  end.

(** While one fragment is missing, nothing is delivered. *)
Lemma feed_incomplete (hdr : ipv4Header) (id mtu start : Z) (payload f : bytes) (frags : list bytes)
    (pre : list (Z * bytes)) (S : list bytes) (r : reassembler) :
  let d := dg hdr id payload in
  datagram_wf d -> fragments_of hdr id mtu payload 0 frags -> f ∈ frags ->
  gathered d start (map iv_of S) r -> (S = [] -> forall a, head pre = Some a -> a.1 = start) ->
  Forall (fun g => g ∈ frags /\ g <> f) S ->
  Forall (fun a => (a.2 ∈ frags /\ a.2 <> f) /\ start <= a.1 < start + reassemblyTimeout) pre ->
  exists outs r' S', feed r pre = Ok (outs, r') /\ length outs = length pre /\
    Forall (fun o => o.1 = None /\ o.2 ∈ [reasmBuffered; reasmDuplicate]) outs /\
    gathered d start (map iv_of S') r' /\ Forall (fun g => g ∈ frags /\ g <> f) S' /\
    (forall g, g ∈ S' <-> g ∈ S \/ g ∈ pre.*2).
Proof.
  intros d Hd Hfr Hf. revert S r. induction pre as [|[t g] pre IH]; intros S r Hg Hst HS Hpre.
  { exists [], r, S. split_and!; try done. set_solver. }
  apply Forall_cons in Hpre as [[[Hgin Hgf] Ht] Hpre]. cbn [fst snd] in *.
  destruct (tile_piece hdr id mtu payload frags 0 g Hfr ltac:(lia) Hgin) as [_ Hp].
  destruct (tile_piece hdr id mtu payload frags 0 f Hfr ltac:(lia) Hf) as [_ Hpf].
  pose proof (pc_range d _ _ Hpf) as [Hr1 Hr2].
  assert (HS' : Forall (fun g => g ∈ frags /\ g <> f) (g :: S)) by (by apply Forall_cons).
  destruct (add_incomplete d start t (map iv_of S) r (iv_of g) g (iv_of f).1)
    as (out & r1 & E & Hout & Hg1); try done.
  { intros HnilS%fmap_nil_inv. by apply (Hst HnilS (t, g)). }
  { lia. }
  { intros Hcov. change (covered (map iv_of (g :: S)) (iv_of f).1) in Hcov.
    apply Exists_exists in Hcov as (iv & Hin & Hx). apply list_elem_of_fmap in Hin as (k & -> & Hk).
    rewrite Forall_forall in HS'. destruct (HS' k Hk) as [Hkin Hkf].
    destruct (tiles_distinct hdr id mtu payload frags 0 f k Hfr ltac:(lia) Hf Hkin) as [?|[?|?]];
      [congruence|lia|lia]. }
  destruct (IH (g :: S) r1) as (outs & r' & S' & EF & Hlen & Houts & Hg' & HS'' & HSel); try done.
  exists ((None, out) :: outs), r', S'. cbn [feed]. rewrite (pc_parse _ _ _ Hp). outcome_simpl.
  change (fragment_header _ _ _ _ _) with (piece_header d (iv_of g)). rewrite E. outcome_simpl.
  rewrite EF. outcome_simpl. split_and!; try done.
  - cbn. lia.
  - by apply Forall_cons.
  - intros k. rewrite HSel. cbn. rewrite !elem_of_cons. tauto.
Qed.

Lemma parsed_datagram (hdr : ipv4Header) (pkt : bytes) (id : Z) :
  bytes_ok pkt -> parseIPv4 pkt = Ok hdr -> h_ihl hdr < h_totalLen hdr ->
  datagram_wf (dg hdr id (payload_of hdr pkt)).
Proof.
  intros Hok Hparse Hne. pose proof (parseIPv4_ok pkt Hok) as HP. rewrite Hparse in HP.
  destruct HP as (Hihl & Htl & _ & Hpo & _ & _ & _ & _ & H65 & _).
  assert (Hz : zlen (payload_of hdr pkt) = h_totalLen hdr - h_ihl hdr).
  { unfold payload_of. rewrite Hpo, zlen_take, zlen_drop by lia. lia. }
  constructor; unfold dg_len; cbn [dg dg_payload dg_hdr]; [lia| |lia|lia].
  unfold payload_of. by apply bytes_ok_take, bytes_ok_drop.
Qed.

Lemma feed_app (r : reassembler) (a k : list (Z * bytes)) :
  feed r (a ++ k) =
  ('(o1, r1) ← feed r a; '(o2, r2) ← feed r1 k; Ok (o1 ++ o2, r2)).
Proof.
  revert r. induction a as [|[t f] a IH]; intros r; cbn [app feed].
  { outcome_simpl. by destruct (feed r k) as [[? ?]| |]. }
  destruct (parseIPv4 f) as [h| |]; [|done..]. outcome_simpl.
  destruct (add r t h f) as [[[[d out] n] r1]| |]; [|done..]. outcome_simpl.
  rewrite IH. destruct (feed r1 a) as [[o1 r2]| |]; [|done..]. outcome_simpl.
  by destruct (feed r2 k) as [[o2 r3]| |].
Qed.

(** C24. Reassembly inverts fragmentation, whatever the order: offer the
    fragments of a datagram in any order and with any repetitions, all within
    the timeout of the first.  Until the last missing one arrives nothing is
    delivered; that one yields the whole datagram, with the original header
    fields, the original payload, no fragment bits and a valid header checksum,
    and leaves the reassembler empty. *)
Theorem reassembly_any_order (hdr : ipv4Header) (pkt : bytes) (mtu id start t : Z)
    (frags : list bytes) (pre : list (Z * bytes)) (f : bytes) :
  bytes_ok pkt -> parseIPv4 pkt = Ok hdr -> h_ihl hdr < h_totalLen hdr -> 576 <= mtu -> is_u16 id ->
  fragmentIPv4 hdr pkt mtu id = Ok frags ->
  f ∈ frags -> f ∉ pre.*2 -> (forall g, g ∈ frags <-> g = f \/ g ∈ pre.*2) ->
  Forall (fun a => start <= a.1 < start + reassemblyTimeout) (pre ++ [(t, f)]) ->
  (forall a, head (pre ++ [(t, f)]) = Some a -> a.1 = start) ->
  exists outs out,
    feed (defaults ∅ 0) (pre ++ [(t, f)]) = Ok (outs ++ [(Some out, reasmComplete)], defaults ∅ 0) /\
    length outs = length pre /\
    Forall (fun o => o.1 = None /\ o.2 ∈ [reasmBuffered; reasmDuplicate]) outs /\
    parseIPv4 out = Ok (fragment_header hdr id 0 (zlen (payload_of hdr pkt)) false) /\
    drop (Z.to_nat (h_ihl hdr)) out = payload_of hdr pkt /\
    InternetChecksum (take (Z.to_nat (h_ihl hdr)) out) = 0.
Proof.
  intros Hok Hparse Hne Hmtu Hid Hfrag Hf Hfresh Hall Htime Hstart.
  destruct (fragmentIPv4_ok hdr pkt mtu id Hok Hparse Hmtu Hid) as (frags' & E' & Hfr).
  rewrite Hfrag in E'. apply (inj Ok) in E'. subst frags'.
  pose proof (parsed_datagram hdr pkt id Hok Hparse Hne) as Hd.
  set (d := dg hdr id (payload_of hdr pkt)) in *.
  apply Forall_app in Htime as [Hpre Ht]. apply Forall_cons in Ht as [Ht _]. cbn [fst] in Ht.
  destruct (feed_incomplete hdr id mtu start (payload_of hdr pkt) f frags pre [] (defaults ∅ 0))
    as (outs & r & S & E & Hlen & Houts & Hg & HS & HSel); try done.
  { constructor. }
  { intros _ a Ha. apply Hstart. by destruct pre. }
  { rewrite Forall_forall in Hpre |- *. intros a Ha. split; [|by apply Hpre].
    assert (a.2 ∈ pre.*2) by (by apply list_elem_of_fmap_2). split; [apply Hall; by right|].
    intros Heq. by rewrite Heq in *. }
  destruct (tile_piece hdr id mtu _ frags 0 f Hfr ltac:(lia) Hf) as [_ Hp].
  destruct (add_completes d start t (map iv_of S) r (iv_of f) f) as (out & Ea & Ho); try done.
  { intros HnilS%fmap_nil_inv. subst S. destruct pre as [|a pre]; [by apply (Hstart (t, f))|].
    exfalso. apply (elem_of_nil a.2), HSel. right. by left. }
  { apply Forall_map, Forall_forall. intros g Hgin. rewrite Forall_forall in HS.
    destruct (HS g Hgin) as [Hgf _].
    destruct (tile_piece hdr id mtu _ frags 0 g Hfr ltac:(lia) Hgf) as [_ Hpg].
    exact (pc_range d _ _ Hpg). }
  { intros x Hx. destruct (tiles_cover hdr id mtu _ frags 0 x Hfr Hx) as (g & Hg1 & Hgx).
    apply Exists_exists. exists (iv_of g). split; [|done].
    change (iv_of g ∈ map iv_of (f :: S)). apply list_elem_of_fmap_2.
    apply elem_of_cons. apply Hall in Hg1 as [->|Hg1]; [by left|right]. apply HSel. by right. }
  { intros Hcov. apply Exists_exists in Hcov as (iv & Hin & Hx).
    apply list_elem_of_fmap in Hin as (k & -> & Hk). rewrite Forall_forall in HS.
    destruct (HS k Hk) as [Hkin Hkf]. pose proof (pc_range d _ _ Hp) as [? ?].
    destruct (tiles_distinct hdr id mtu _ frags 0 f k Hfr ltac:(lia) Hf Hkin) as [?|[?|?]];
      [congruence|lia|lia]. }
  exists outs, out. rewrite feed_app, E. outcome_simpl. cbn [feed].
  rewrite (pc_parse d _ _ Hp). outcome_simpl.
  change (fragment_header _ _ _ _ _) with (piece_header d (iv_of f)) at 1. rewrite Ea. outcome_simpl.
  destruct Ho as (? & ? & ?). by split_and!.
Qed.

(** The traffic of one attachment: packets from its session, and its teardown. *)
Inductive event := EvPacket (now : Z) (pkt : bytes) | EvTeardown.

(** As the stack drives the reassembler: only fragments that parse reach it. *)
Fixpoint run (r : reassembler) (evs : list event) : outcome ip_error reassembler :=
  match evs with
  | [] => Ok r
  | EvTeardown :: evs => run (discardAll r) evs
  | EvPacket now pkt :: evs =>
      match parseIPv4 pkt with
      | Ok hdr =>
          if isFragment hdr then '(_, _, _, r) ← add r now hdr pkt; run r evs else run r evs
      | Err _ => run r evs
      | Panic => Panic
      end
  end.

Definition event_ok (e : event) : Prop :=
  match e with EvPacket _ pkt => bytes_ok pkt | EvTeardown => True end.

#[export] Instance event_ok_dec (e : event) : Decision (event_ok e).
Proof. destruct e; apply _. Defined.

(** A torn-down reassembler stays empty. *)
Lemma run_torn_down (r : reassembler) (evs : list event) :
  Forall event_ok evs -> rs_closed r = true -> rs_bufs r = ∅ -> rs_bytes r = 0 ->
  exists r', run r evs = Ok r' /\ rs_bufs r' = ∅ /\ rs_bytes r' = 0.
Proof.
  intros Hok. revert r. induction Hok as [|e evs He Hok IH]; intros r Hc Hb Hn; [by exists r|].
  destruct e as [now pkt|]; cbn [run]; [|by apply IH].
  pose proof (parseIPv4_ok pkt He) as HP. destruct (parseIPv4 pkt) as [hdr|e|]; [|by apply IH|done].
  destruct (isFragment hdr); [|by apply IH]. unfold add. rewrite Hc. outcome_simpl. by apply IH.
Qed.

Lemma run_bounded (r : reassembler) (evs : list event) :
  Forall event_ok evs -> bounded r -> 0 <= bufLimit r -> 0 <= byteLimit r ->
  exists r', run r evs = Ok r' /\ bounded r' /\ same_limits r r' /\
    (EvTeardown ∈ evs -> rs_bufs r' = ∅ /\ rs_bytes r' = 0).
Proof.
  intros Hok. revert r. induction Hok as [|e evs He Hok IH]; intros r Hb HB HY.
  { exists r. split_and!; try done. by intros ?%elem_of_nil. }
  assert (Hsame : exists r', run r evs = Ok r' /\ bounded r' /\ same_limits r r' /\
    (forall now pkt, EvTeardown ∈ EvPacket now pkt :: evs -> rs_bufs r' = ∅ /\ rs_bytes r' = 0)).
  { destruct (IH r Hb HB HY) as (r' & E & Hb' & Hs & Ht). exists r'. split_and!; try done;
      intros now pkt [?|?]%elem_of_cons; auto; done. }
  destruct e as [now pkt|]; cbn [run].
  - pose proof (parseIPv4_ok pkt He) as HP. destruct (parseIPv4 pkt) as [hdr|e|] eqn:Ep; [| |done].
    2:{ destruct Hsame as (r' & ? & ? & ? & Ht). exists r'. eauto. }
    destruct (isFragment hdr) eqn:Ef.
    2:{ destruct Hsame as (r' & ? & ? & ? & Ht). exists r'. eauto. }
    destruct (add_bounded r now hdr pkt Hb) as (d & out & n & r1 & Ea & Hb1 & Hs1 & _); [done|].
    rewrite Ea. outcome_simpl. unfold same_limits, bufLimit, byteLimit in *.
    destruct (IH r1) as (r' & E & Hb' & Hs & Ht); [done|by rewrite Hs1..|].
    exists r'. split_and!; [done|done|congruence|].
    intros [?|?]%elem_of_cons; [done|]. by apply Ht.
  - destruct (run_torn_down (discardAll r) evs) as (r' & E & Hbufs & Hbytes); [done..|].
    destruct (IH (discardAll r)) as (r'' & E' & Hb' & Hs & _); [|done|done|].
    { constructor; try done. }
    rewrite E in E'. apply (inj Ok) in E'. subst r''. by exists r'.
Qed.

(** C25. Memory stays bounded against any sender: over every sequence of packets
    (hostile ones included) and a teardown, the reassembler never panics, holds
    at most the configured number of datagrams and of bytes, its byte counter
    is exactly the sum of the buffers it holds, and after the teardown it holds
    nothing. *)
Theorem reassembly_bounded (maxBufs maxBytes timeout : Z) (evs : list event) :
  0 <= maxBufs -> 0 <= maxBytes -> Forall event_ok evs ->
  let r0 := mkReassembler ∅ 0 false maxBufs maxBytes timeout in
  exists r, run r0 evs = Ok r /\
    Z.of_nat (size (rs_bufs r)) <= (if maxBufs =? 0 then 16 else maxBufs) /\
    rs_bytes r <= (if maxBytes =? 0 then 262144 else maxBytes) /\
    rs_bytes r = totalBytes (rs_bufs r) /\
    (EvTeardown ∈ evs -> rs_bufs r = ∅ /\ rs_bytes r = 0).
Proof.
  intros HB HY Hok r0.
  assert (Hl : 0 <= bufLimit r0 /\ 0 <= byteLimit r0).
  { unfold bufLimit, byteLimit. cbn.
    unfold maxReassemblyBuffersPerSession, maxReassemblyBytesPerSession.
    destruct (maxBufs =? 0), (maxBytes =? 0); lia. }
  destruct Hl as [Hl1 Hl2].
  destruct (run_bounded r0 evs Hok) as (r & E & [] & Hs & Ht); [by constructor|done|done|].
  unfold same_limits, bufLimit, byteLimit in *. rewrite Hs in *.
  exists r. by split_and!.
Qed.

(** ** Witnesses *)

Module ToyFrags.
Definition frags : list bytes :=
  match fragmentIPv4 ToyIP.header ToyIP.packet 576 7 with Ok l => l | _ => [] end.
Definition nth (i : nat) : bytes := default [] (frags !! i).
(** The last fragment first, the middle one twice, the first one last. *)
Definition pre : list (Z * bytes) := [(100, nth 2); (101, nth 1); (5000, nth 1)].
End ToyFrags.

Lemma reassembly_any_order_witness :
  exists outs out,
    feed (defaults ∅ 0) (ToyFrags.pre ++ [(6000, ToyFrags.nth 0)]) =
      Ok (outs ++ [(Some out, reasmComplete)], defaults ∅ 0) /\ length outs = 3%nat /\
    drop 20 out = payload_of ToyIP.header ToyIP.packet.
Proof.
  assert (E : fragmentIPv4 ToyIP.header ToyIP.packet 576 7 = Ok ToyFrags.frags)
    by (vm_compute; reflexivity).
  assert (Hex : ToyFrags.frags = [ToyFrags.nth 0; ToyFrags.nth 1; ToyFrags.nth 2])
    by (vm_compute; reflexivity).
  destruct (reassembly_any_order ToyIP.header ToyIP.packet 576 7 100 6000 ToyFrags.frags
    ToyFrags.pre (ToyFrags.nth 0)) as (outs & out & H1 & H2 & _ & _ & H5 & _).
  - decide_now.
  - vm_compute; reflexivity.
  - done.
  - done.
  - decide_now.
  - exact E.
  - rewrite Hex. by left.
  - decide_now.
  - intros g. rewrite Hex. unfold ToyFrags.pre. cbn [fmap list_fmap snd].
    rewrite !elem_of_cons, elem_of_nil. tauto.
  - decide_now.
  - intros a. cbn. by intros [= <-].
  - exists outs, out. by split_and!.
Defined.

Lemma reassembly_bounded_witness :
  exists r, run (mkReassembler ∅ 0 false 1 1024 0)
      [EvPacket 0 (ToyFrags.nth 0); EvPacket 1 [1; 2; 3]; EvPacket 2 (ToyFrags.nth 2); EvTeardown] = Ok r /\
    rs_bufs r = ∅ /\ rs_bytes r = 0.
Proof.
  destruct (reassembly_bounded 1 1024 0
    [EvPacket 0 (ToyFrags.nth 0); EvPacket 1 [1; 2; 3]; EvPacket 2 (ToyFrags.nth 2); EvTeardown])
    as (r & E & _ & _ & _ & Ht); [done|done| |].
  - decide_now.
  - exists r. split; [exact E|]. apply Ht. do 3 apply list_elem_of_further; apply list_elem_of_here.
Defined.

(** ** Two overlaps *)

Module Overlap.
Definition frag (off : Z) (n : nat) (more : bool) : bytes :=
  match oneFragment ToyIP.header ToyIP.packet (replicate n 7) off more 9 with Ok f => f | _ => [] end.
Definition outcomes (arrivals : list bytes) : list reasmOutcome :=
  match feed (defaults ∅ 0) (map (pair 0) arrivals) with Ok (outs, _) => outs.*2 | _ => [] end.

(** A final fragment inside the data received so far, with holes only behind its
    end: reported as a duplicate, and although no byte is missing any more the
    datagram never completes. *)
Example final_overlap_stuck :
  outcomes [frag 0 16 true; frag 8 8 false; frag 0 16 true; frag 8 8 false] =
  [reasmBuffered; reasmDuplicate; reasmDuplicate; reasmDuplicate].
Proof. vm_compute. reflexivity. Qed.

(** A final fragment that ends before data received earlier is accepted in one
    order and a conflict in the other. *)
Example shorter_end_order :
  outcomes [frag 8 16 true; frag 8 8 false; frag 0 8 true] =
    [reasmBuffered; reasmDuplicate; reasmComplete] /\
  outcomes [frag 8 8 false; frag 8 16 true; frag 0 8 true] =
    [reasmBuffered; reasmConflict; reasmBuffered].
Proof. vm_compute. split; reflexivity. Qed.
End Overlap.

End Reassembly.
