(* ===== verification/TcpSegment.v ===== *)
(** * TcpSegment: the TCP header

    Model of [netstack/tcp_segment.go]: parsing with its walk over the options,
    and construction with the MSS option and the checksum. *)

From S2P Require Import Prelude Frame IPv4.
Import Frame.

Module TcpSegment.

Definition flagFIN : Z := 1.
Definition flagSYN : Z := 2.
Definition flagRST : Z := 4.
Definition flagPSH : Z := 8.
Definition flagACK : Z := 16.
Definition tcpHeaderMinLen : Z := 20.
Definition tcpHeaderMaxLen : Z := 60.
Definition mssOptionKind : Z := 2.
Definition mssOptionLen : Z := 4.
Definition optionKindEnd : Z := 0.
Definition optionKindNop : Z := 1.
Definition defaultMSSWhenAbsent : Z := 536.

Inductive tcp_error :=
  | errTCPTooShort | errTCPBadDataOffset | errTCPBadOption
  | errFuel. (* the option walk did not end: excluded by [parseTCP_total] *)

#[export] Instance tcp_error_eq_dec : EqDecision tcp_error.
Proof. solve_decision. Defined.

Record tcpSegment := mkTcpSegment {
  srcPort : Z;
  dstPort : Z;
  seq : Z;
  ack : Z;
  flags : Z;
  window : Z;
  hasMSS : bool;
  mss : Z;
  payload : bytes;
}.

(** A flag bit is set. *)
Definition has_flag (flags bit : Z) : bool := negb (Z.land flags bit =? 0).

Definition segLen (s : tcpSegment) : Z :=
  let n := u32 (zlen (payload s)) in
  let n := if has_flag (flags s) flagSYN then n +u32 1 else n in
  if has_flag (flags s) flagFIN then n +u32 1 else n.

(** The walk over the options; the MSS option found so far. *)
Fixpoint optLoop (fuel : nat) (opts : bytes) (found : bool * Z) : outcome tcp_error (bool * Z) :=
  if negb (0 <? zlen opts) then Ok found else
  match fuel with
  | O => Err errFuel
  | S fuel =>
      kind ← index opts 0;
      if kind =? optionKindEnd then Ok found else
      if kind =? optionKindNop then
        opts ← slice_from opts 1;
        optLoop fuel opts found
      else
      if zlen opts <? 2 then Err errTCPBadOption else
      optLen ← index opts 1;
      if (optLen <? 2) || (zlen opts <? optLen) then Err errTCPBadOption else
      found ← (if kind =? mssOptionKind then
                 if negb (optLen =? mssOptionLen) then Err errTCPBadOption else
                 f ← slice opts 2 4;
                 v ← get_u16 f;
                 Ok (true, v)
               else Ok found);
      opts ← slice_from opts optLen;
      optLoop fuel opts found
  end.

Definition parseTCP (payload : bytes) : outcome tcp_error tcpSegment :=
  if zlen payload <? tcpHeaderMinLen then Err errTCPTooShort else
  b12 ← index payload 12;
  let dataOffset := Z.shiftr b12 4 * 4 in
  if (dataOffset <? tcpHeaderMinLen) || (zlen payload <? dataOffset) then Err errTCPBadDataOffset else
  f0 ← slice payload 0 2; srcPort ← get_u16 f0;
  f2 ← slice payload 2 4; dstPort ← get_u16 f2;
  f4 ← slice payload 4 8; seq ← get_u32 f4;
  f8 ← slice payload 8 12; ack ← get_u32 f8;
  flags ← index payload 13;
  f14 ← slice payload 14 16; window ← get_u16 f14;
  opts ← slice payload tcpHeaderMinLen dataOffset;
  '(hasMSS, mss) ← optLoop (length opts) opts (false, 0);
  data ← slice_from payload dataOffset;
  Ok (mkTcpSegment srcPort dstPort seq ack flags window hasMSS mss data).

(** The header of [buildTCP] with its checksum field zero. *)
Definition tcpHeaderBytes (seg : tcpSegment) : bytes :=
  let headerLen := if hasMSS seg then tcpHeaderMinLen + mssOptionLen else tcpHeaderMinLen in
  be16 (srcPort seg) ++ be16 (dstPort seg) ++ be32 (seq seg) ++ be32 (ack seg) ++
  [u8 (Z.shiftl (u8 (headerLen / 4)) 4); flags seg] ++ be16 (window seg) ++ [0; 0] ++ [0; 0] ++
  (if hasMSS seg then [mssOptionKind; mssOptionLen] ++ be16 (mss seg) else []).

Definition buildTCP (dst : bytes) (seg : tcpSegment) (src dstAddr : bytes) : outcome tcp_error bytes :=
  let full := tcpHeaderBytes seg ++ payload seg in
  let cs := TransportChecksum src dstAddr ProtocolTCP full in
  full ← put16 full 16 cs;
  Ok (dst ++ full).

(** ** The option list *)

(** The grammar of the options region: [walks opts f g] when the options [opts]
    are well formed and turn the MSS value [f] seen before them into [g]. *)
Inductive walks : bytes -> bool * Z -> bool * Z -> Prop :=
  | walks_nil (f : bool * Z) : walks [] f f
  | walks_end (rest : bytes) (f : bool * Z) : walks (0 :: rest) f f
  | walks_nop (rest : bytes) (f g : bool * Z) : walks rest f g -> walks (1 :: rest) f g
  | walks_mss (hi lo : Z) (rest : bytes) (f g : bool * Z) :
      walks rest (true, hi * 256 + lo) g -> walks (2 :: 4 :: hi :: lo :: rest) f g
  | walks_other (kind n : Z) (rest : bytes) (f g : bool * Z) :
      kind <> 0 -> kind <> 1 -> kind <> 2 -> 2 <= n <= 2 + zlen rest ->
      walks (drop (Z.to_nat (n - 2)) rest) f g -> walks (kind :: n :: rest) f g.

(** Every byte string of options is either in the grammar or refused. *)
Lemma optLoop_spec (fuel : nat) (opts : bytes) (f : bool * Z) :
  (length opts <= fuel)%nat ->
  match optLoop fuel opts f with
  | Ok g => walks opts f g
  | Err e => e = errTCPBadOption /\ forall g, ~ walks opts f g
  | Panic => False
  end.
Proof.
  revert opts f. induction fuel as [|fuel IH]; intros opts f Hl.
  { destruct opts; [|cbn in Hl; lia]. constructor. }
  cbn [optLoop]. destruct opts as [|kind tl]; [constructor|].
  assert (Hz : 0 < zlen (kind :: tl)) by (rewrite zlen_cons; pose proof (zlen_nonneg tl); lia).
  rewrite (proj2 (Z.ltb_lt _ _) Hz). cbn [negb]. cbn [length] in Hl.
  change (index (kind :: tl) 0) with (Ok (E := tcp_error) kind). outcome_simpl.
  unfold optionKindEnd, optionKindNop, mssOptionKind, mssOptionLen.
  destruct (Z.eqb_spec kind 0) as [->|H0]; [constructor|].
  destruct (Z.eqb_spec kind 1) as [->|H1].
  { rewrite slice_from_ok by lia. outcome_simpl. change (drop (Z.to_nat 1) (1 :: tl)) with tl.
    specialize (IH tl f ltac:(lia)). destruct (optLoop fuel tl f) as [g|e|]; [by constructor| |done].
    destruct IH as [-> IH]. split; [done|]. intros g Hw. inversion Hw; simplify_eq; try done; by apply (IH g). }
  destruct tl as [|n tl].
  { change (zlen [kind] <? 2) with true. split; [done|]. intros g Hw. by inversion Hw. }
  assert (Hz2 : zlen (kind :: n :: tl) = 2 + zlen tl) by (rewrite !zlen_cons; lia).
  pose proof (zlen_nonneg tl) as Hnn. rewrite Hz2, (proj2 (Z.ltb_ge _ 2)) by lia.
  change (index (kind :: n :: tl) 1) with (Ok (E := tcp_error) n). outcome_simpl.
  destruct ((n <? 2) || (2 + zlen tl <? n)) eqn:En.
  { rewrite orb_true_iff, !Z.ltb_lt in En. split; [done|]. intros g Hw.
    inversion Hw; simplify_eq; try done; unfold zlen in *; cbn [length] in *; lia. }
  rewrite slice_from_ok by lia. outcome_simpl.
  assert (Hdrop : drop (Z.to_nat n) (kind :: n :: tl) = drop (Z.to_nat (n - 2)) tl).
  { replace (Z.to_nat n) with (S (S (Z.to_nat (n - 2)))) by lia. done. }
  rewrite Hdrop. cbn [length] in Hl.
  assert (Hfuel : (length (drop (Z.to_nat (n - 2)) tl) <= fuel)%nat) by (rewrite length_drop; lia).
  destruct (Z.eqb_spec kind 2) as [->|H2].
  - destruct (Z.eqb_spec n 4) as [->|Hn]; cbn [negb].
    2:{ split; [done|]. intros g Hw. by inversion Hw. }
    destruct tl as [|hi [|lo rest]]; [unfold zlen in En; cbn in En; done..|].
    rewrite slice_ok by (rewrite ?zlen_cons in *; lia). outcome_simpl.
    change (take _ _) with [hi; lo]. cbn [get_u16]. outcome_simpl.
    change (drop (Z.to_nat (4 - 2)) (hi :: lo :: rest)) with rest in *.
    specialize (IH rest (true, hi * 256 + lo) Hfuel).
    destruct (optLoop fuel rest _) as [g|e|]; [by constructor| |done].
    destruct IH as [-> IH]. split; [done|]. intros g Hw. inversion Hw; simplify_eq; try done; by apply (IH g).
  - outcome_simpl. specialize (IH _ f Hfuel).
    destruct (optLoop fuel _ f) as [g|e|]; [constructor; try done; lia| |done].
    destruct IH as [-> IH]. split; [done|]. intros g Hw. inversion Hw; simplify_eq. by apply (IH g).
Qed.

(** ** Parsing *)

Definition dataOffset_of (p : bytes) : Z := Z.shiftr (default 0 (p !! 12%nat)) 4 * 4.
Definition options_of (p : bytes) : bytes := take (Z.to_nat (dataOffset_of p - 20)) (drop 20 p).

Record seg_range (s : tcpSegment) : Prop := {
  sr_ports : is_u16 (srcPort s) /\ is_u16 (dstPort s);
  sr_seqs : is_u32 (seq s) /\ is_u32 (ack s);
  sr_flags : is_u8 (flags s) /\ is_u16 (window s);
  sr_payload : bytes_ok (payload s);
}.

Lemma get_u16_range (b0 b1 : Z) : is_u8 b0 -> is_u8 b1 -> is_u16 (b0 * 256 + b1).
Proof. unfold is_u8, is_u16. lia. Qed.

(** The parser, read off the bytes of a header. *)
Lemma parseTCP_bytes (p0 p1 p2 p3 q0 q1 q2 q3 a0 a1 a2 a3 b12 fl w0 w1 c0 c1 u0 u1 : Z) (rest : bytes) :
  let p := p0 :: p1 :: p2 :: p3 :: q0 :: q1 :: q2 :: q3 :: a0 :: a1 :: a2 :: a3 :: b12 :: fl ::
           w0 :: w1 :: c0 :: c1 :: u0 :: u1 :: rest in
  let off := Z.shiftr b12 4 * 4 in
  parseTCP p =
    if (off <? 20) || (zlen p <? off) then Err errTCPBadDataOffset else
    '(m, v) ← optLoop (length (options_of p)) (options_of p) (false, 0);
    Ok (mkTcpSegment (p0 * 256 + p1) (p2 * 256 + p3)
          (q0 * 16777216 + q1 * 65536 + q2 * 256 + q3) (a0 * 16777216 + a1 * 65536 + a2 * 256 + a3)
          fl (w0 * 256 + w1) m v (drop (Z.to_nat off) p)).
Proof.
  intros p off. assert (Hl : 20 <= zlen p).
  { unfold p. rewrite !zlen_cons. pose proof (zlen_nonneg rest). lia. }
  unfold parseTCP. change tcpHeaderMinLen with 20. rewrite (proj2 (Z.ltb_ge _ 20)) by done.
  change (index p 12) with (Ok (E := tcp_error) b12). outcome_simpl. fold off.
  destruct ((off <? 20) || (zlen p <? off)) eqn:Eo; [done|].
  rewrite (slice_ok p 0 2), (slice_ok p 2 4), (slice_ok p 4 8), (slice_ok p 8 12), (slice_ok p 14 16),
    (slice_ok p 20 off), (slice_from_ok p off) by lia.
  change (index p 13) with (Ok (E := tcp_error) fl).
  change (take (Z.to_nat (2 - 0)) (drop (Z.to_nat 0) p)) with [p0; p1].
  change (take (Z.to_nat (4 - 2)) (drop (Z.to_nat 2) p)) with [p2; p3].
  change (take (Z.to_nat (8 - 4)) (drop (Z.to_nat 4) p)) with [q0; q1; q2; q3].
  change (take (Z.to_nat (12 - 8)) (drop (Z.to_nat 8) p)) with [a0; a1; a2; a3].
  change (take (Z.to_nat (16 - 14)) (drop (Z.to_nat 14) p)) with [w0; w1].
  change (take (Z.to_nat (off - 20)) (drop (Z.to_nat 20) p)) with (options_of p).
  cbn [get_u16 get_u32]. outcome_simpl. done.
Qed.

(** The parser decides every byte string. *)
Lemma parseTCP_decides (p : bytes) :
  bytes_ok p ->
  match parseTCP p with
  | Ok s => 20 <= dataOffset_of p <= zlen p /\ walks (options_of p) (false, 0) (hasMSS s, mss s) /\
            payload s = drop (Z.to_nat (dataOffset_of p)) p /\ seg_range s
  | Err errTCPTooShort => zlen p < 20
  | Err errTCPBadDataOffset => 20 <= zlen p /\ ~ 20 <= dataOffset_of p <= zlen p
  | Err errTCPBadOption =>
      20 <= dataOffset_of p <= zlen p /\ forall g, ~ walks (options_of p) (false, 0) g
  | Err errFuel | Panic => False
  end.
Proof.
  intros Hok. destruct (Z.lt_ge_cases (zlen p) 20) as [Hs|Hl].
  { unfold parseTCP. change tcpHeaderMinLen with 20. by rewrite (proj2 (Z.ltb_lt _ 20) Hs). }
  destruct (IPv4.twenty_bytes p Hl) as (p0 & p1 & p2 & p3 & q0 & q1 & q2 & q3 & a0 & a1 & a2 & a3 & b12 &
    fl & w0 & w1 & c0 & c1 & u0 & u1 & rest & ->).
  rewrite parseTCP_bytes.
  match goal with |- context [options_of ?q] => set (p := q) in * end.
  change (Z.shiftr b12 4 * 4) with (dataOffset_of p).
  destruct ((dataOffset_of p <? 20) || (zlen p <? dataOffset_of p)) eqn:Eo; [split; [done|lia]|].
  pose proof (optLoop_spec (length (options_of p)) (options_of p) (false, 0) (le_n _)) as HO.
  destruct (optLoop _ _ _) as [[m v]|e|]; outcome_simpl; [|destruct HO as [-> HO]; split; [lia|done]|done].
  split_and!; [lia|lia|done|done|].
  assert (Hdok : bytes_ok (drop (Z.to_nat (dataOffset_of p)) p)) by (by apply bytes_ok_drop).
  unfold p in Hok. unfold bytes_ok in Hok. rewrite !Forall_cons in Hok.
  destruct Hok as (? & ? & ? & ? & ? & ? & ? & ? & ? & ? & ? & ? & ? & ? & ? & ? & _).
  constructor; cbn [srcPort dstPort seq ack flags window payload]; [| | |done];
    unfold is_u8, is_u16, is_u32 in *; lia.
Qed.

Lemma walks_u16 (opts : bytes) (f g : bool * Z) :
  walks opts f g -> bytes_ok opts -> is_u16 f.2 -> is_u16 g.2.
Proof.
  induction 1 as [f|rest f|rest f g _ IH|hi lo rest f g _ IH|kind n rest f g _ _ _ _ _ IH]; intros Hok Hf; try done.
  - apply IH; [|done]. by inversion Hok.
  - unfold bytes_ok in Hok. rewrite !Forall_cons in Hok. destruct Hok as (_ & _ & Hhi & Hlo & Hr).
    apply IH; [done|]. cbn. by apply get_u16_range.
  - unfold bytes_ok in Hok. rewrite !Forall_cons in Hok. destruct Hok as (_ & _ & Hr). apply IH; [|done]. by apply bytes_ok_drop.
Qed.

(** What a parsed segment is like. *)
Lemma parseTCP_ok (p : bytes) (s : tcpSegment) :
  bytes_ok p -> parseTCP p = Ok s -> seg_range s /\ is_u16 (mss s) /\ zlen (payload s) <= zlen p.
Proof.
  intros Hok HE. pose proof (parseTCP_decides p Hok) as H. rewrite HE in H. destruct H as (Ho & Hw & Hp & Hr).
  split_and!; [done| |].
  - apply (walks_u16 _ _ _ Hw); [|decide_now]. unfold options_of. by apply bytes_ok_take, bytes_ok_drop.
  - rewrite Hp, zlen_drop by lia. lia.
Qed.

(** C36. TCP header parsing decides every byte string: it never panics and its
    option walk ends; a segment is returned exactly when the data offset lies in
    the buffer and the options are in the grammar, with the MSS the grammar
    gives, the bytes behind the offset as payload and every field in its
    range; otherwise the error names the first check that failed. *)
Theorem parseTCP_verdict (p : bytes) :
  bytes_ok p ->
  match parseTCP p with
  | Ok s => 20 <= dataOffset_of p <= zlen p /\ walks (options_of p) (false, 0) (hasMSS s, mss s) /\
            payload s = drop (Z.to_nat (dataOffset_of p)) p /\ seg_range s
  | Err errTCPTooShort => zlen p < 20
  | Err errTCPBadDataOffset => 20 <= zlen p /\ ~ 20 <= dataOffset_of p <= zlen p
  | Err errTCPBadOption =>
      20 <= dataOffset_of p <= zlen p /\ forall g, ~ walks (options_of p) (false, 0) g
  | Err errFuel | Panic => False
  end.
Proof. exact (parseTCP_decides p). Qed.

(** ** Construction *)

Definition headerLen (s : tcpSegment) : Z := if hasMSS s then 24 else 20.

(** The 16 bytes in front of the checksum field, and those behind it. *)
Definition before_cs (s : tcpSegment) : bytes :=
  be16 (srcPort s) ++ be16 (dstPort s) ++ be32 (seq s) ++ be32 (ack s) ++
  [if hasMSS s then 96 else 80; flags s] ++ be16 (window s).
Definition after_cs (s : tcpSegment) : bytes :=
  [0; 0] ++ (if hasMSS s then [2; 4] ++ be16 (mss s) else []) ++ payload s.

Lemma buildTCP_shape (s : tcpSegment) (src dst : bytes) :
  seg_range s -> is_addr src -> is_addr dst -> zlen (payload s) <= 65495 ->
  exists cs, is_u16 cs /\ buildTCP [] s src dst = Ok (before_cs s ++ be16 cs ++ after_cs s) /\
    TransportChecksum src dst ProtocolTCP (before_cs s ++ be16 cs ++ after_cs s) = 0 /\
    zlen (before_cs s ++ be16 cs ++ after_cs s) = headerLen s + zlen (payload s).
Proof.
  intros [_ _ [Hf _] Hp] Hs Hd Hl. pose proof (zlen_nonneg (payload s)).
  assert (Hfull : tcpHeaderBytes s ++ payload s = before_cs s ++ [0; 0] ++ after_cs s).
  { unfold tcpHeaderBytes, before_cs, after_cs. destruct (hasMSS s); reflexivity. }
  assert (Ha : bytes_ok (before_cs s)).
  { unfold before_cs. repeat (apply bytes_ok_app; split); auto with word.
    apply Forall_cons_2; [destruct (hasMSS s); unfold is_u8; lia|]. by apply Forall_cons_2; [|apply Forall_nil_2]. }
  assert (Hc : bytes_ok (after_cs s)).
  { unfold after_cs. apply bytes_ok_app. split; [decide_now|]. apply bytes_ok_app. split; [|done].
    destruct (hasMSS s); [|apply Forall_nil_2]. apply bytes_ok_app. split; [decide_now|apply be16_bytes]. }
  assert (Hza : zlen (before_cs s) = 16) by done.
  assert (Hzc : zlen (after_cs s) = headerLen s - 18 + zlen (payload s)).
  { unfold after_cs, headerLen. rewrite !zlen_app. destruct (hasMSS s); unfold zlen; cbn; lia. }
  assert (Hlen : forall x, zlen x = 2 -> zlen (before_cs s ++ x ++ after_cs s) = headerLen s + zlen (payload s)).
  { intros x Hx. rewrite !zlen_app, Hza, Hx, Hzc. lia. }
  set (base := PseudoHeaderSum src dst ProtocolTCP (u16 (headerLen s + zlen (payload s)))).
  assert (Hbase : 0 <= base <= 65535 * 5 + 255)
    by (apply PseudoHeaderSum_bounds; [done|done|decide_now|apply u16_range]).
  pose proof (wsum_bounds (before_cs s) Ha) as B1. pose proof (wsum_bounds (after_cs s) Hc) as B2.
  rewrite Hza in B1. change ((16 + 1) / 2) with 8 in B1.
  assert (headerLen s <= 24) by (unfold headerLen; destruct (hasMSS s); lia).
  assert (B3 : (zlen (after_cs s) + 1) / 2 <= 32752) by (apply Z.div_le_upper_bound; lia).
  set (cs := complement16 (fold16 (sumWords base (before_cs s ++ [0; 0] ++ after_cs s)))).
  exists cs. split_and!.
  - apply complement16_range.
  - unfold buildTCP. rewrite Hfull. unfold TransportChecksum. rewrite (Hlen [0; 0]) by done. fold base. fold cs.
    rewrite put16_at by done. done.
  - unfold TransportChecksum. rewrite Hlen by done. fold base.
    apply checksum_fills; [done|done|by exists 8%nat|lia|lia].
  - by apply Hlen.
Qed.

(** A built TCP segment parses back to itself: every field, the MSS option
    and the payload survive, construction cannot panic, and the checksum over
    the pseudo-header verifies at the receiver. *)
Lemma parseTCP_buildTCP (s : tcpSegment) (src dst : bytes) :
  seg_range s -> is_u16 (mss s) -> (hasMSS s = false -> mss s = 0) ->
  is_addr src -> is_addr dst -> zlen (payload s) <= 65495 ->
  exists p, buildTCP [] s src dst = Ok p /\ parseTCP p = Ok s /\
    TransportChecksum src dst ProtocolTCP p = 0 /\ zlen p = headerLen s + zlen (payload s).
Proof.
  intros Hr Hm Hm0 Hs Hd Hl.
  destruct (buildTCP_shape s src dst Hr Hs Hd Hl) as (cs & Hcs & E & Hsum & Hz).
  exists (before_cs s ++ be16 cs ++ after_cs s). split_and!; [done| |done|done].
  pose proof (zlen_nonneg (payload s)) as Hnn. destruct Hr as [[] [] [] _].
  destruct s as [sp dp sq ak fl wi hm ms pl]. unfold before_cs, after_cs, headerLen in *.
  cbn [srcPort dstPort seq ack flags window hasMSS mss payload] in *.
  unfold be16, be32 in *. destruct hm; cbn [app] in Hz |- *; rewrite parseTCP_bytes, Hz.
  - change (Z.shiftr 96 4 * 4) with 24. rewrite (proj2 (Z.ltb_ge (24 + zlen pl) 24)) by lia.
    change (24 <? 20) with false. cbn [orb].
    match goal with |- context [options_of ?q] =>
      change (options_of q) with [2; 4; u8 (ms / 256); u8 ms] end.
    replace (optLoop _ _ _) with (Ok (E := tcp_error) (true, u8 (ms / 256) * 256 + u8 ms)) by reflexivity.
    outcome_simpl. f_equal. f_equal; try reflexivity; clear Hz Hsum E; word_lia.
  - rewrite Hm0 in * by done.
    change (Z.shiftr 80 4 * 4) with 20. rewrite (proj2 (Z.ltb_ge (20 + zlen pl) 20)) by lia.
    change (20 <? 20) with false. cbn [orb].
    match goal with |- context [options_of ?q] => change (options_of q) with (@nil Z) end.
    replace (optLoop _ _ _) with (Ok (E := tcp_error) (false, 0)) by reflexivity. outcome_simpl. f_equal. f_equal; try reflexivity; clear Hz Hsum E; word_lia.
Qed.

(** ** Witnesses *)

Module ToySegment.
(** Padding, an unknown option and an MSS option. *)
Definition raw : bytes :=
  [1; 187; 195; 80; 0; 0; 0; 1; 0; 0; 0; 0; 128; 2; 255; 255; 0; 0; 0; 0;
   1; 1; 8; 4; 9; 9; 2; 4; 5; 180; 0; 77] ++ [42].
End ToySegment.

Lemma parseTCP_verdict_witness :
  exists s, parseTCP ToySegment.raw = Ok s /\ payload s = [42] /\ (hasMSS s, mss s) = (true, 1460) /\
    walks (options_of ToySegment.raw) (false, 0) (hasMSS s, mss s).
Proof.
  pose proof (parseTCP_verdict ToySegment.raw ltac:(decide_now)) as H.
  destruct (parseTCP ToySegment.raw) as [s| |] eqn:E; vm_compute in E; [|done..].
  apply (inj Ok) in E. exists s. destruct H as (_ & Hw & _). split_and!; [done|by subst s|by subst s|exact Hw].
Defined.

End TcpSegment.
