(* ===== verification/Deadline.v ===== *)
(** * Deadline: read and write deadlines of a connection

    Model of [netstack/deadline.go].  A deadline is a channel that is closed when
    the deadline passes.  The Go runtime's part of [time.AfterFunc] is written
    out, because the code's behaviour depends on it: a timer is pending until it
    is due; when it fires its callback runs in a goroutine of its own, which may
    have to wait for the mutex; [Stop] cancels a pending timer and does nothing
    to a callback that has started. *)

From stdpp Require Import gmap.
From S2P Require Import Prelude.

Module Deadline.

Record deadlineTimer := mkDeadlineTimer {
  timer : option nat;            (* the current [*time.Timer] *)
  ch : nat;                      (* the channel [wait] returns *)
  expired : bool;
  closed : gset nat;             (* the channels that have been closed *)
  nextCh : nat;                  (* the next channel [make] returns *)
  pending : gmap nat (Z * nat);  (* armed timers: due time, captured channel *)
  started : gmap nat nat;        (* callbacks waiting for the mutex: captured channel *)
  nextTimer : nat;
}.

Definition newDeadlineTimer : deadlineTimer :=
  mkDeadlineTimer None 0 false ∅ 1 ∅ ∅ 0.

(** [close(ch)]: a panic when the channel is closed already. *)
Definition close_ch (c : nat) (d : deadlineTimer) : outcome unit deadlineTimer :=
  if bool_decide (c ∈ closed d) then Panic else
  Ok (mkDeadlineTimer (timer d) (ch d) (expired d) ({[c]} ∪ closed d) (nextCh d)
        (pending d) (started d) (nextTimer d)).

Definition set_expired (b : bool) (d : deadlineTimer) : deadlineTimer :=
  mkDeadlineTimer (timer d) (ch d) b (closed d) (nextCh d) (pending d) (started d) (nextTimer d).

(** [if d.timer != nil { d.timer.Stop(); d.timer = nil }]. *)
Definition stop (d : deadlineTimer) : deadlineTimer :=
  match timer d with
  | None => d
  | Some id => mkDeadlineTimer None (ch d) (expired d) (closed d) (nextCh d)
                 (delete id (pending d)) (started d) (nextTimer d)
  end.

(** [t] is [None] for the zero time; [now] is what [time.Until] compares with. *)
Definition set (d : deadlineTimer) (now : Z) (t : option Z) : outcome unit deadlineTimer :=
  let d := stop d in
  let d := if expired d
           then mkDeadlineTimer (timer d) (nextCh d) false (closed d) (S (nextCh d))
                  (pending d) (started d) (nextTimer d)
           else d in
  match t with
  | None => Ok d
  | Some t =>
      let dur := t - now in
      if dur <=? 0 then close_ch (ch d) (set_expired true d)
      else Ok (mkDeadlineTimer (Some (nextTimer d)) (ch d) (expired d) (closed d) (nextCh d)
                 (<[nextTimer d := (now + dur, ch d)]> (pending d)) (started d) (S (nextTimer d)))
  end.

Definition wait (d : deadlineTimer) : nat := ch d.

(** [select { case <-d.wait(): .. default: }] takes the first case. *)
Definition passed (d : deadlineTimer) : bool := bool_decide (wait d ∈ closed d).

(** The runtime fires timer [id]: its callback starts. *)
Definition fires (d : deadlineTimer) (id : nat) (now : Z) : deadlineTimer :=
  match pending d !! id with
  | Some (due, c) =>
      if due <=? now
      then mkDeadlineTimer (timer d) (ch d) (expired d) (closed d) (nextCh d)
             (delete id (pending d)) (<[id := c]> (started d)) (nextTimer d)
      else d
  | None => d
  end.

(** The body of the callback once it has the mutex. *)
Definition callback (d : deadlineTimer) (id : nat) : outcome unit deadlineTimer :=
  match started d !! id with
  | None => Ok d
  | Some c =>
      let d := mkDeadlineTimer (timer d) (ch d) (expired d) (closed d) (nextCh d)
                 (pending d) (delete id (started d)) (nextTimer d) in
      if expired d then Ok d else close_ch c (set_expired true d)
  end.

(** ** Prompt callbacks *)

(** Time passes up to [now] and the current timer's callback, if due, runs before
    anything else takes the mutex. *)
Definition tick (d : deadlineTimer) (now : Z) : outcome unit deadlineTimer :=
  match timer d with
  | None => Ok d
  | Some id => callback (fires d id now) id
  end.

Inductive event := Set_ (now : Z) (t : option Z) | Tick (now : Z) | Stop_.

Definition step (d : deadlineTimer) (e : event) : outcome unit deadlineTimer :=
  match e with
  | Set_ now t => set d now t
  | Tick now => tick d now
  | Stop_ => Ok (stop d)
  end.

Fixpoint run (d : deadlineTimer) (es : list event) : outcome unit deadlineTimer :=
  match es with
  | [] => Ok d
  | e :: es => d ← step d e; run d es
  end.

(** What a deadline means: the armed deadline, and whether it has passed. *)
Definition spec_step (s : option Z * bool) (e : event) : option Z * bool :=
  match e with
  | Set_ now None => (None, false)
  | Set_ now (Some t) => if t <=? now then (None, true) else (Some t, false)
  | Tick now =>
      match s.1 with
      | Some t => if t <=? now then (None, true) else s
      | None => s
      end
  | Stop_ => (None, s.2)
  end.

(** The state between two events: no callback waits, at most the current timer is
    pending, and it closes the current channel. *)
Record prompt (d : deadlineTimer) (s : option Z * bool) : Prop := {
  pr_started : started d = ∅;
  pr_expired : expired d = s.2;
  pr_passed : passed d = s.2;
  pr_fresh : forall c, c ∈ closed d -> (c < nextCh d)%nat;
  pr_ch : (ch d < nextCh d)%nat;
  pr_pending :
    match s.1 with
    | Some t => exists id, timer d = Some id /\ pending d = {[id := (t, ch d)]} /\ s.2 = false
    | None => pending d = ∅
    end;
}.

Lemma prompt_new : prompt newDeadlineTimer (None, false).
Proof. constructor; cbn; [done|done|done|set_solver|lia|done]. Qed.

Lemma prompt_stop (d : deadlineTimer) (s : option Z * bool) :
  prompt d s -> prompt (stop d) (None, s.2).
Proof.
  intros [Hst He Hpa Hf Hc Hp]. unfold stop. destruct s as [[t|] b]; cbn in *.
  - destruct Hp as (id & Ht & Hpe & ->). rewrite Ht.
    constructor; cbn; try done. by rewrite Hpe, delete_singleton_eq.
  - destruct (timer d); constructor; cbn; try done. by rewrite Hp, delete_empty.
Qed.

Lemma close_ok (d : deadlineTimer) (c : nat) :
  c ∉ closed d ->
  close_ch c d = Ok (mkDeadlineTimer (timer d) (ch d) (expired d) ({[c]} ∪ closed d) (nextCh d)
                       (pending d) (started d) (nextTimer d)).
Proof. intros Hc. unfold close_ch. by rewrite bool_decide_eq_false_2. Qed.

Lemma passed_closed (d : deadlineTimer) : passed d = false <-> ch d ∉ closed d.
Proof. unfold passed, wait. by rewrite bool_decide_eq_false. Qed.

(** Every event keeps the current channel in step with the specification. *)
Lemma set_prompt (d : deadlineTimer) (s : option Z * bool) (now : Z) (t : option Z) :
  prompt d s -> exists d', set d now t = Ok d' /\ prompt d' (spec_step s (Set_ now t)).
Proof.
  intros Hpr%prompt_stop. unfold set. set (d0 := stop d) in *. clearbody d0.
  set (d1 := if expired d0 then _ else d0).
  assert (H1 : prompt d1 (None, false)).
  { destruct Hpr as [Hst He Hpa Hf Hc Hp]. unfold d1. cbn in *. destruct (expired d0) eqn:Ex.
    - constructor; cbn; try done; [|intros c Hcc%Hf; lia|lia].
      apply passed_closed. cbn. intros Hin%Hf. lia.
    - constructor; cbn; try done. by rewrite Hpa. }
  clearbody d1. destruct H1 as [Hst He Hpa Hf Hc Hp]; cbn in *.
  destruct t as [t|]; [|exists d1; split; [done|by constructor]].
  destruct (Z.leb_spec (t - now) 0) as [Hle|Hgt].
  - rewrite (proj2 (Z.leb_le t now)) by lia. rewrite close_ok by exact (proj1 (passed_closed _) Hpa).
    eexists. split; [done|]. constructor; cbn; try done.
    + unfold passed, wait. cbn. apply bool_decide_eq_true_2. set_solver.
    + intros c [->%elem_of_singleton|Hin]%elem_of_union; [done|by apply Hf].
  - rewrite (proj2 (Z.leb_gt t now)) by lia. eexists. split; [done|]. constructor; cbn; try done.
    rewrite Hp. exists (nextTimer d1). by replace (now + (t - now)) with t by lia.
Qed.

Lemma tick_prompt (d : deadlineTimer) (s : option Z * bool) (now : Z) :
  prompt d s -> exists d', tick d now = Ok d' /\ prompt d' (spec_step s (Tick now)).
Proof.
  intros [Hst He Hpa Hf Hc Hp]. destruct s as [[t|] b]; cbn in *.
  - destruct Hp as (id & Ht & Hpe & ->). unfold tick. rewrite Ht. unfold fires.
    rewrite Hpe, lookup_singleton_eq. destruct (t <=? now) eqn:El.
    + unfold callback. cbn. rewrite lookup_insert_eq. cbn. rewrite He.
      rewrite close_ok by exact (proj1 (passed_closed _) Hpa). eexists. split; [done|].
      constructor; cbn; try done.
      * by rewrite Hst, insert_empty, delete_singleton_eq.
      * unfold passed, wait. cbn. apply bool_decide_eq_true_2. set_solver.
      * intros c [->%elem_of_singleton|Hin]%elem_of_union; [done|by apply Hf].
      * by rewrite delete_singleton_eq.
    + unfold callback. rewrite Hst, lookup_empty. exists d. split; [done|].
      constructor; cbn; try done. eauto.
  - exists d. unfold tick, fires, callback. destruct (timer d); [|split; [done|by constructor]].
    rewrite Hp, lookup_empty, Hst, lookup_empty. split; [done|by constructor].
Qed.

Lemma run_prompt (es : list event) (d : deadlineTimer) (s : option Z * bool) :
  prompt d s -> exists d', run d es = Ok d' /\ prompt d' (foldl spec_step s es).
Proof.
  revert d s. induction es as [|e es IH]; intros d s Hp; [by exists d|]. cbn [run foldl].
  assert (exists d1, step d e = Ok d1 /\ prompt d1 (spec_step s e)) as (d1 & -> & Hp1).
  { destruct e as [now t|now|]; cbn [step].
    - by apply set_prompt.
    - by apply tick_prompt.
    - exists (stop d). split; [done|by apply prompt_stop]. }
  outcome_simpl. by apply IH.
Qed.

(** A deadline refines its meaning: after any sequence of arming, re-arming,
    clearing, stopping and passing time, in which a due callback runs before the
    next call, no channel is closed twice and the channel [wait] returns is closed
    exactly when the deadline set last has passed. *)
Theorem deadline_refines (es : list event) :
  exists d, run newDeadlineTimer es = Ok d /\ passed d = (foldl spec_step (None, false) es).2.
Proof.
  destruct (run_prompt es _ _ prompt_new) as (d & Hr & Hp). exists d. split; [done|]. by destruct Hp.
Qed.

(** ** A callback that waits for the mutex *)

(** A callback that has started and waits for the mutex while the deadline is
    moved to the past and then set again (or cleared) closes a channel that is
    closed already: the process panics. *)
Theorem stale_callback_panics (d : deadlineTimer) (s : option Z * bool) (t now now' : Z)
    (past : Z) (next : option Z) (id : nat) :
  prompt d s -> s.1 = Some t -> timer d = Some id -> t <= now -> past <= now ->
  match next with Some u => now' < u | None => True end ->
  exists d1 d2, set (fires d id now) now (Some past) = Ok d1 /\ set d1 now' next = Ok d2 /\
    callback d2 id = Panic.
Proof.
  intros [Hst He Hpa Hf Hc Hp] Hs Hid Ht Hpast Hnext. rewrite Hs in Hp.
  destruct Hp as (id' & Hid' & Hpe & Hs2). assert (id' = id) as -> by congruence. rewrite Hs2 in *.
  unfold fires. rewrite Hpe, lookup_singleton_eq, (proj2 (Z.leb_le t now)) by done.
  unfold set at 1, stop. cbn. rewrite Hid. cbn. rewrite He. cbn.
  rewrite (proj2 (Z.leb_le (past - now) 0)) by lia.
  rewrite close_ok by exact (proj1 (passed_closed _) Hpa). eexists _. cbn.
  assert (Hin : ch d ∈ {[ch d]} ∪ closed d) by set_solver.
  destruct next as [u|].
  - unfold set. cbn. rewrite (proj2 (Z.leb_gt (u - now') 0)) by lia.
    eexists. split_and!; [done|done|]. unfold callback. cbn. rewrite lookup_insert_eq. cbn.
    unfold close_ch. cbn. by rewrite bool_decide_eq_true_2.
  - eexists. split_and!; [done|done|]. unfold callback. cbn. rewrite lookup_insert_eq. cbn.
    unfold close_ch. cbn. by rewrite bool_decide_eq_true_2.
Qed.

(** The same race, one call shorter: a deadline that was cleared still expires. *)
Example cleared_deadline_expires :
  exists d1 d2 d3, set newDeadlineTimer 0 (Some 10) = Ok d1 /\ set (fires d1 0 10) 10 None = Ok d2 /\
    callback d2 0 = Ok d3 /\ passed d2 = false /\ passed d3 = true.
Proof. do 3 eexists. split_and!; vm_compute; reflexivity. Qed.

Lemma stale_callback_panics_witness :
  exists d d1 d2, set newDeadlineTimer 0 (Some 10) = Ok d /\
    set (fires d 0 10) 10 (Some 5) = Ok d1 /\ set d1 11 None = Ok d2 /\ callback d2 0 = Panic.
Proof.
  destruct (set_prompt newDeadlineTimer (None, false) 0 (Some 10) prompt_new) as (d & E & Hp).
  exists d. assert (Ht : timer d = Some 0%nat) by (vm_compute in E; apply (inj Ok) in E; by subst d).
  destruct (stale_callback_panics d (Some 10, false) 10 10 11 5 None 0 Hp eq_refl Ht
    ltac:(lia) ltac:(lia) I) as (d1 & d2 & H1 & H2 & H3).
  by exists d1, d2.
Defined.

End Deadline.
