(* ===== verification/Stack.v ===== *)
(** * Stack: the userspace IPv4 endpoint

    Model of [netstack/stack.go] and [netstack/icmp.go]: attachments and their
    routes, inbound delivery with its access checks, dispatch to the protocol
    handlers, ICMP echo, the outbound seam with fragmentation, and teardown.

    The attachments are the objects of a heap indexed by their identity (the Go
    code compares attachment pointers); routes map an address to one of them.
    What a call does to the outside is a list of actions: writes to an
    attachment's session and calls of the UDP or TCP handler.  Whether a
    session's [Write] succeeds is a parameter.  The clock is an argument. *)

From stdpp Require Import gmap sorting.
From S2P Require Import Prelude Frame IPv4 Reassembly IpPool TcpSegment.
Import Frame IPv4 Reassembly.

Module Stack.

Definition readBufferSize : Z := 2048.
Definition maxReadRetryBufferSize : Z := 65535.
Definition defaultMTU : Z := 1500.
Definition minMTU : Z := 576.
Definition maxMTU : Z := maxIPv4Datagram.
Definition icmpTypeEchoReply : Z := 0.

Inductive stack_error :=
  | ErrNilServerIP | ErrNotIPv4Address | ErrInvalidAttachIP | ErrAttachServerIP | ErrDuplicateAttach
  | ErrHandlerAlreadyRegistered | ErrInvalidMTU | ErrOutboundSourceMismatch
  | ErrInvalidReassemblyLimits | ErrNilSession
  | ErrParse (e : ip_error)   (* [writePacket] passing on what [parseIPv4] or fragmentation returned *)
  | ErrSession.               (* what [Session.Write] returned *)

(** The counters of the [stats] struct. *)
Inductive counter :=
  | icmpEchoRequests | icmpEchoReplies | packetsReceived | malformedDropped | fragmentsDropped
  | spoofedSourceDropped | wrongDestinationDropped | unhandledProtocolDropped
  | outboundSourceDropped | shortReadBufferGrown | fragmentsReassembled | reassemblyTimeouts
  | reassemblyBoundExceeded | outboundFragmented.

#[export] Instance counter_eq_dec : EqDecision counter.
Proof. solve_decision. Defined.

Definition stats : Type := counter -> Z.
Definition bump (st : stats) (c : counter) (n : Z) : stats :=
  fun c' => if decide (c' = c) then u64 (st c' + n) else st c'.

Record ReassemblyLimits := mkLimits {
  MaxDatagramsPerAttachment : Z;
  MaxBytesPerAttachment : Z;
  Timeout : Z;
}.

Record attachment := mkAttachment {
  at_sess : nat;
  at_ip : bytes;
  at_stopped : bool;
  at_reasm : reassembler;
}.

Record Stack := mkStack {
  s_serverIP : bytes;
  s_mtu : Z;
  s_reasmLimits : ReassemblyLimits;
  s_ipID : Z;
  s_routes : gmap bytes nat;
  s_atts : gmap nat attachment;
  s_next : nat;                 (* the identity of the next attachment *)
  s_udpHandler : bool;          (* a handler is registered *)
  s_tcpHandler : bool;
  s_stats : stats;
  s_stopped : bool;
}.

Definition set_stats (s : Stack) (st : stats) : Stack :=
  mkStack (s_serverIP s) (s_mtu s) (s_reasmLimits s) (s_ipID s) (s_routes s) (s_atts s) (s_next s)
    (s_udpHandler s) (s_tcpHandler s) st (s_stopped s).
Definition count (s : Stack) (c : counter) : Stack := set_stats s (bump (s_stats s) c 1).
Definition set_ipID (s : Stack) (id : Z) : Stack :=
  mkStack (s_serverIP s) (s_mtu s) (s_reasmLimits s) id (s_routes s) (s_atts s) (s_next s)
    (s_udpHandler s) (s_tcpHandler s) (s_stats s) (s_stopped s).
Definition set_atts (s : Stack) (atts : gmap nat attachment) : Stack :=
  mkStack (s_serverIP s) (s_mtu s) (s_reasmLimits s) (s_ipID s) (s_routes s) atts (s_next s)
    (s_udpHandler s) (s_tcpHandler s) (s_stats s) (s_stopped s).
Definition set_routes (s : Stack) (routes : gmap bytes nat) : Stack :=
  mkStack (s_serverIP s) (s_mtu s) (s_reasmLimits s) (s_ipID s) routes (s_atts s) (s_next s)
    (s_udpHandler s) (s_tcpHandler s) (s_stats s) (s_stopped s).
Definition set_mtu (s : Stack) (mtu : Z) : Stack :=
  mkStack (s_serverIP s) mtu (s_reasmLimits s) (s_ipID s) (s_routes s) (s_atts s) (s_next s)
    (s_udpHandler s) (s_tcpHandler s) (s_stats s) (s_stopped s).
Definition set_limits (s : Stack) (l : ReassemblyLimits) : Stack :=
  mkStack (s_serverIP s) (s_mtu s) l (s_ipID s) (s_routes s) (s_atts s) (s_next s)
    (s_udpHandler s) (s_tcpHandler s) (s_stats s) (s_stopped s).
Definition set_handlers (s : Stack) (udp tcp : bool) : Stack :=
  mkStack (s_serverIP s) (s_mtu s) (s_reasmLimits s) (s_ipID s) (s_routes s) (s_atts s) (s_next s)
    udp tcp (s_stats s) (s_stopped s).
Definition set_stopped (s : Stack) : Stack :=
  mkStack (s_serverIP s) (s_mtu s) (s_reasmLimits s) (s_ipID s) (s_routes s) (s_atts s) (s_next s)
    (s_udpHandler s) (s_tcpHandler s) (s_stats s) true.

Definition set_reasm (a : attachment) (r : reassembler) : attachment :=
  mkAttachment (at_sess a) (at_ip a) (at_stopped a) r.

(** [attachment.stop]: once. *)
Definition stop (a : attachment) : attachment :=
  if at_stopped a then a
  else mkAttachment (at_sess a) (at_ip a) true (discardAll (at_reasm a)).

(** ** Construction *)

Definition Option : Type := Stack -> Stack.
Definition WithMTU (mtu : Z) : Option := fun s => set_mtu s mtu.
Definition WithReassemblyLimits (l : ReassemblyLimits) : Option := fun s => set_limits s l.

Definition New (serverIP : option bytes) (opts : list Option) : outcome stack_error Stack :=
  match serverIP with
  | None => Err ErrNilServerIP
  | Some ip =>
      match IpPool.to4 ip with
      | None => Err ErrNotIPv4Address
      | Some ip4 =>
          let s := mkStack ip4 defaultMTU (mkLimits 0 0 0) 0 ∅ ∅ 0 false false (fun _ => 0) false in
          let s := foldl (fun s (opt : Option) => opt s) s opts in
          if (s_mtu s <? minMTU) || (maxMTU <? s_mtu s) then Err ErrInvalidMTU else
          let l := s_reasmLimits s in
          if (MaxDatagramsPerAttachment l <? 0) || (MaxBytesPerAttachment l <? 0) || (Timeout l <? 0)
          then Err ErrInvalidReassemblyLimits else Ok s
      end
  end.

Definition maxSegmentSize (s : Stack) : Z := u16 (s_mtu s - minIPv4HeaderLen - TcpSegment.tcpHeaderMinLen).

Definition toIPv4Addr (ip : option bytes) : outcome stack_error bytes :=
  match ip with
  | None => Err ErrInvalidAttachIP
  | Some ip => match IpPool.to4 ip with None => Err ErrInvalidAttachIP | Some ip4 => Ok ip4 end
  end.

Definition registerUDPHandler (s : Stack) : outcome stack_error unit * Stack :=
  if s_udpHandler s then (Err ErrHandlerAlreadyRegistered, s)
  else (Ok tt, set_handlers s true (s_tcpHandler s)).
Definition registerTCPHandler (s : Stack) : outcome stack_error unit * Stack :=
  if s_tcpHandler s then (Err ErrHandlerAlreadyRegistered, s)
  else (Ok tt, set_handlers s (s_udpHandler s) true).

(** ** Attachments *)

Definition newAttachment (s : Stack) (sess : nat) (addr : bytes) : attachment :=
  let l := s_reasmLimits s in
  mkAttachment sess addr false
    (mkReassembler ∅ 0 false (MaxDatagramsPerAttachment l) (MaxBytesPerAttachment l) (Timeout l)).

(** The identity of the new attachment, whose read loop starts. *)
Definition Attach (s : Stack) (sess : option nat) (ip : option bytes)
    : outcome stack_error nat * Stack :=
  match sess with
  | None => (Err ErrNilSession, s)
  | Some sess =>
      match toIPv4Addr ip with
      | Err e => (Err e, s)
      | Panic => (Panic, s)
      | Ok addr =>
          if bool_decide (addr = s_serverIP s) then (Err ErrAttachServerIP, s) else
          match s_routes s !! addr with
          | Some _ => (Err ErrDuplicateAttach, s)
          | None =>
              (Ok (s_next s),
               mkStack (s_serverIP s) (s_mtu s) (s_reasmLimits s) (s_ipID s)
                 (<[addr := s_next s]> (s_routes s))
                 (<[s_next s := newAttachment s sess addr]> (s_atts s)) (S (s_next s))
                 (s_udpHandler s) (s_tcpHandler s) (s_stats s) (s_stopped s))
          end
      end
  end.

Definition stopAt (s : Stack) (a : nat) : Stack := set_atts s (alter stop a (s_atts s)).

Definition Detach (s : Stack) (ip : option bytes) : bool * Stack :=
  match toIPv4Addr ip with
  | Ok addr =>
      match s_routes s !! addr with
      | None => (false, s)
      | Some a => (true, stopAt (set_routes s (delete addr (s_routes s))) a)
      end
  | _ => (false, s)
  end.

Definition IsAttached (s : Stack) (ip : option bytes) : bool :=
  match toIPv4Addr ip with
  | Ok addr => bool_decide (is_Some (s_routes s !! addr))
  | _ => false
  end.

(** [ServerIP]: a copy of the four bytes. *)
Definition ServerIP (s : Stack) : bytes := s_serverIP s.

Definition MTU (s : Stack) : Z := s_mtu s.

(** [Routes], for one order in which Go may iterate over the map. *)
Definition Routes (order : list bytes) : list bytes := merge_sort bytes_ordered order.

(** The read loop's own detach: the route goes only if it is still [a]'s. *)
Definition detachAttachment (s : Stack) (a : nat) : Stack :=
  match s_atts s !! a with
  | None => s
  | Some att =>
      let s := if bool_decide (s_routes s !! at_ip att = Some a)
               then set_routes s (delete (at_ip att) (s_routes s)) else s in
      stopAt s a
  end.

Definition Close (s : Stack) : Stack :=
  if s_stopped s then s else
  let routes := s_routes s in
  let s := set_routes (set_stopped s) ∅ in
  foldl (fun s (ra : bytes * nat) => stopAt s ra.2) s (map_to_list routes).

(** ** Packets *)

Inductive action :=
  | Write (a : nat) (pkt : bytes)                 (* [a.sess.Write(pkt)] *)
  | ToUDP (a : nat) (src dst payload : bytes)     (* the UDP handler's [handlePacket] *)
  | ToTCP (a : nat) (src dst payload : bytes).

Section Packets.
(** Whether the session of attachment [a] takes the packet. *)
Context (writeOK : nat -> bytes -> bool).

(** The write loop over the fragments: it stops at the first failing write. *)
Fixpoint writeAll (a : nat) (frags : list bytes) : bool * list action :=
  match frags with
  | [] => (true, [])
  | f :: frags =>
      if writeOK a f then let '(ok, acts) := writeAll a frags in (ok, Write a f :: acts)
      else (false, [Write a f])
  end.

(** The error returned ([None] for nil), the stack and the writes. *)
Definition writePacket (s : Stack) (a : nat) (pkt : bytes)
    : outcome ip_error (option stack_error * Stack * list action) :=
  match parseIPv4 pkt with
  | Panic => Panic
  | Err e => Ok (Some (ErrParse e), s, [])
  | Ok hdr =>
      if negb (bool_decide (h_src hdr = s_serverIP s))
      then Ok (Some ErrOutboundSourceMismatch, count s outboundSourceDropped, []) else
      if h_totalLen hdr <=? s_mtu s then
        Ok (if writeOK a pkt then None else Some ErrSession, s, [Write a pkt]) else
      let ipID := s_ipID s +u32 1 in
      let s := set_ipID s ipID in
      frags ← fragmentIPv4 hdr pkt (s_mtu s) (u16 ipID);
      if (length frags =? 0)%nat then Ok (Some (ErrParse errBadFragment), s, []) else
      let s := count s outboundFragmented in
      let '(ok, acts) := writeAll a frags in
      Ok (if ok then None else Some ErrSession, s, acts)
  end.

Definition handleICMP (s : Stack) (a : nat) (hdr : ipv4Header) (icmpMsg : bytes)
    : outcome ip_error (Stack * list action) :=
  if zlen icmpMsg <? MinICMPHeaderLen then Ok (count s malformedDropped, []) else
  ty ← index icmpMsg 0;
  if negb (ty =? ICMPTypeEchoRequest) then Ok (s, []) else
  let s := count s icmpEchoRequests in
  rest ← slice_from icmpMsg 1;
  let out := icmpTypeEchoReply :: rest in
  out ← put16 out 2 0;
  out ← put16 out 2 (InternetChecksum out);
  reply ← buildIPv4 [] (s_serverIP s) (h_src hdr) ProtocolICMP out;
  '(err, s, acts) ← writePacket s a reply;
  Ok (match err with Some _ => s | None => count s icmpEchoReplies end, acts).

Definition dispatch (s : Stack) (a : nat) (hdr : ipv4Header) (pkt : bytes)
    : outcome ip_error (Stack * list action) :=
  payload ← slice pkt (h_payloadOff hdr) (h_totalLen hdr);
  if h_protocol hdr =? ProtocolICMP then handleICMP s a hdr payload else
  if h_protocol hdr =? ProtocolUDP then
    if s_udpHandler s then Ok (s, [ToUDP a (h_src hdr) (h_dst hdr) payload])
    else Ok (count s unhandledProtocolDropped, []) else
  if h_protocol hdr =? ProtocolTCP then
    if s_tcpHandler s then Ok (s, [ToTCP a (h_src hdr) (h_dst hdr) payload])
    else Ok (count s unhandledProtocolDropped, []) else
  Ok (count s unhandledProtocolDropped, []).

(** The fragment branch of [deliver]. *)
Definition deliverFragment (s : Stack) (a : nat) (att : attachment) (now : Z) (hdr : ipv4Header)
    (pkt : bytes) : outcome ip_error (Stack * list action) :=
  '(datagram, out, expired, reasm) ← add (at_reasm att) now hdr pkt;
  let s := set_atts s (<[a := set_reasm att reasm]> (s_atts s)) in
  let s := if 0 <? expired then set_stats s (bump (s_stats s) reassemblyTimeouts expired) else s in
  match out with
  | reasmComplete =>
      let datagram := default [] datagram in
      match parseIPv4 datagram with
      | Panic => Panic
      | Err _ => Ok (count s malformedDropped, [])
      | Ok whole => dispatch (count s fragmentsReassembled) a whole datagram
      end
  | reasmBoundExceeded => Ok (count s reassemblyBoundExceeded, [])
  | reasmDuplicate | reasmConflict | reasmClosed => Ok (count s fragmentsDropped, [])
  | reasmBuffered => Ok (s, [])
  end.

Definition deliver (s : Stack) (a : nat) (att : attachment) (now : Z) (pkt : bytes)
    : outcome ip_error (Stack * list action) :=
  let s := count s packetsReceived in
  match parseIPv4 pkt with
  | Panic => Panic
  | Err _ => Ok (count s malformedDropped, [])
  | Ok hdr =>
      if negb (bool_decide (h_src hdr = at_ip att)) then Ok (count s spoofedSourceDropped, []) else
      if negb (bool_decide (h_dst hdr = s_serverIP s))
      then Ok (count s wrongDestinationDropped, []) else
      if isFragment hdr then deliverFragment s a att now hdr pkt else dispatch s a hdr pkt
  end.

(** The check at the top of the read loop, before [Session.Read] is called. *)
Definition mayRead (s : Stack) (a : nat) : bool :=
  match s_atts s !! a with Some att => negb (at_stopped att) | None => false end.

(** The read loop behind [Session.Read]: [res] is what it returned ([None] an
    error), [buf] the buffer's size.  The result: the stack, the size of the
    buffer for the next round ([None]: the loop has ended) and the actions. *)
Definition afterRead (s : Stack) (a : nat) (buf : Z) (res : option bytes) (now : Z)
    : outcome ip_error (Stack * option Z * list action) :=
  match s_atts s !! a with
  | None => Ok (s, None, [])
  | Some att =>
      match res with
      | None =>
          if buf <? maxReadRetryBufferSize
          then Ok (count s shortReadBufferGrown, Some maxReadRetryBufferSize, [])
          else Ok (detachAttachment s a, None, [])
      | Some pkt =>
          if at_stopped att then Ok (s, None, []) else
          '(s, acts) ← deliver s a att now pkt;
          Ok (s, Some buf, acts)
      end
  end.
End Packets.

(** ** The invariant *)

Definition own_key (server ip : bytes) (k : reassemblyKey) : Prop := k.1.1.1 = ip /\ k.1.1.2 = server.

Record att_inv (server : bytes) (att : attachment) : Prop := {
  ai_addr : is_addr (at_ip att);
  ai_not_server : at_ip att <> server;
  ai_bounded : bounded (at_reasm att);
  ai_limits : 0 <= bufLimit (at_reasm att) /\ 0 <= byteLimit (at_reasm att);
  ai_owned : owned (own_key server (at_ip att)) (at_reasm att);
  ai_stopped : at_stopped att = true ->
    rs_closed (at_reasm att) = true /\ rs_bufs (at_reasm att) = ∅ /\ rs_bytes (at_reasm att) = 0;
}.

Record stack_inv (s : Stack) : Prop := {
  si_server : is_addr (s_serverIP s);
  si_mtu : 576 <= s_mtu s <= 65535;
  si_limits : 0 <= MaxDatagramsPerAttachment (s_reasmLimits s) /\
              0 <= MaxBytesPerAttachment (s_reasmLimits s);
  si_fresh : forall a att, s_atts s !! a = Some att -> (a < s_next s)%nat;
  si_atts : forall a att, s_atts s !! a = Some att -> att_inv (s_serverIP s) att;
  si_routes : forall ip a, s_routes s !! ip = Some a ->
    exists att, s_atts s !! a = Some att /\ at_ip att = ip /\ at_stopped att = false;
  si_live : forall a att, s_atts s !! a = Some att -> at_stopped att = false ->
    s_routes s !! at_ip att = Some a;
}.

(** What counting, numbering and handler registration leave alone. *)
Definition same_core (s s' : Stack) : Prop :=
  s_serverIP s' = s_serverIP s /\ s_mtu s' = s_mtu s /\ s_reasmLimits s' = s_reasmLimits s /\
  s_next s' = s_next s /\ s_atts s' = s_atts s /\ s_routes s' = s_routes s.

Lemma same_core_refl (s : Stack) : same_core s s.
Proof. by split_and!. Qed.
Lemma same_core_trans (s s' s'' : Stack) : same_core s s' -> same_core s' s'' -> same_core s s''.
Proof. intros (?&?&?&?&?&?) (?&?&?&?&?&?). unfold same_core. split_and!; congruence. Qed.
Lemma count_core (s : Stack) (c : counter) : same_core s (count s c).
Proof. by split_and!. Qed.

Lemma core_inv (s s' : Stack) : same_core s s' -> stack_inv s -> stack_inv s'.
Proof.
  intros (E1 & E2 & E3 & E4 & E5 & E6) []. constructor; rewrite ?E1, ?E2, ?E3, ?E4, ?E5, ?E6; done.
Qed.

(** ** Teardown *)

Lemma discardAll_bounded (r : reassembler) :
  0 <= bufLimit r -> 0 <= byteLimit r -> bounded (discardAll r).
Proof. intros. by constructor. Qed.

Lemma stop_inv (server : bytes) (att : attachment) : att_inv server att -> att_inv server (stop att).
Proof.
  intros H. unfold stop. destruct (at_stopped att) eqn:E; [done|]. destruct H.
  destruct ai_limits0. constructor; try done.
Qed.

Lemma stop_stopped (att : attachment) : at_stopped (stop att) = true /\ at_ip (stop att) = at_ip att.
Proof. unfold stop. destruct (at_stopped att) eqn:E; cbn; auto. Qed.

(** Removing a route and stopping its attachment. *)
Lemma unroute_inv (s : Stack) (a : nat) (att : attachment) :
  stack_inv s -> s_atts s !! a = Some att ->
  (at_stopped att = false -> s_routes s !! at_ip att = Some a) ->
  stack_inv (stopAt (if bool_decide (s_routes s !! at_ip att = Some a)
                     then set_routes s (delete (at_ip att) (s_routes s)) else s) a).
Proof.
  intros [] Ha Hlive.
  set (s1 := if bool_decide _ then _ else _).
  assert (Hr : forall ip a', s_routes s1 !! ip = Some a' -> a' <> a /\ s_routes s !! ip = Some a').
  { intros ip a' Hr. unfold s1 in Hr. case_bool_decide as Hd.
    - cbn in Hr. apply lookup_delete_Some in Hr as [Hne Hr]. split; [|done]. intros ->.
      destruct (si_routes0 ip a Hr) as (att' & E & <- & _). congruence.
    - split; [|done]. intros ->. destruct (si_routes0 ip a Hr) as (att' & E & Eip & Es).
      rewrite Ha in E. apply (inj Some) in E. subst att'. apply Hd. by rewrite Eip. }
  assert (Hr' : forall ip a', a' <> a -> s_routes s !! ip = Some a' -> s_routes s1 !! ip = Some a').
  { intros ip a' Hne Hr'. unfold s1. case_bool_decide as Hd; [|done]. cbn.
    rewrite lookup_delete_ne; [done|]. intros <-. congruence. }
  assert (Ec : s_serverIP s1 = s_serverIP s /\ s_mtu s1 = s_mtu s /\
    s_reasmLimits s1 = s_reasmLimits s /\ s_next s1 = s_next s /\ s_atts s1 = s_atts s)
    by (unfold s1; by case_bool_decide).
  destruct Ec as (E1 & E2 & E3 & E4 & E5). clearbody s1.
  assert (Hat : forall a' att', s_atts (stopAt s1 a) !! a' = Some att' ->
    (a' = a /\ att' = stop att) \/ (a' <> a /\ s_atts s !! a' = Some att')).
  { intros a' att' H. cbn in H. rewrite E5 in H. apply lookup_alter_Some in H as [(-> & x & Hx & ->)|[? ?]].
    - left. split; [done|]. congruence.
    - right. split; [|done]. intros ->. done. }
  constructor; cbn [stopAt set_atts s_serverIP s_mtu s_reasmLimits s_next s_routes]; rewrite ?E1, ?E2, ?E3, ?E4;
    try done.
  - intros a' att' [[-> _]|[_ H]]%Hat; eauto.
  - intros a' att' [[-> ->]|[_ H]]%Hat; [apply stop_inv|]; eauto.
  - intros ip a' [Hne Hr0]%Hr. destruct (si_routes0 ip a' Hr0) as (att' & E & Hatt). exists att'.
    split; [|done]. cbn. rewrite E5, lookup_alter_ne by done. done.
  - intros a' att' [[-> ->]|[Hne H]]%Hat Hs; [destruct (stop_stopped att); congruence|].
    apply Hr'; [done|]. eauto.
Qed.

Lemma detachAttachment_inv (s : Stack) (a : nat) : stack_inv s -> stack_inv (detachAttachment s a).
Proof.
  intros Hi. unfold detachAttachment. destruct (s_atts s !! a) as [att|] eqn:E; [|done].
  apply unroute_inv; [done|done|]. by apply (si_live _ Hi).
Qed.

Lemma Detach_inv (s : Stack) (ip : option bytes) : stack_inv s -> stack_inv (Detach s ip).2.
Proof.
  intros Hi. unfold Detach. destruct (toIPv4Addr ip) as [addr| |]; [|done..].
  destruct (s_routes s !! addr) as [a|] eqn:E; [|done].
  destruct (si_routes _ Hi addr a E) as (att & Ha & Hip & Hs). subst addr. cbn [snd].
  pose proof (unroute_inv s a att Hi Ha ltac:(by intros _)) as H.
  by rewrite bool_decide_eq_true_2 in H.
Qed.

Lemma stop_idem (att : attachment) : stop (stop att) = stop att.
Proof. unfold stop. destruct (at_stopped att) eqn:E; cbn; by rewrite ?E. Qed.

Lemma stopAll_spec (l : list (bytes * nat)) (s : Stack) :
  let s' := foldl (fun s (ra : bytes * nat) => stopAt s ra.2) s l in
  s_serverIP s' = s_serverIP s /\ s_mtu s' = s_mtu s /\ s_reasmLimits s' = s_reasmLimits s /\
  s_next s' = s_next s /\ s_routes s' = s_routes s /\
  forall a, s_atts s' !! a = if decide (a ∈ l.*2) then stop <$> s_atts s !! a else s_atts s !! a.
Proof.
  revert s. induction l as [|[ip a] l IH]; intros s; cbn [foldl].
  { split_and!; done. }
  destruct (IH (stopAt s a)) as (E1 & E2 & E3 & E4 & E5 & E6). split_and!; try done.
  intros a'. cbn [fmap list_fmap snd]. rewrite E6. cbn [stopAt set_atts s_atts].
  destruct (decide (a' = a)) as [->|Hne].
  - rewrite lookup_alter_eq, (decide_True (P := a ∈ a :: l.*2)) by (by left).
    destruct (decide (a ∈ l.*2)); [|done]. destruct (s_atts s !! a); cbn; [|done]. by rewrite stop_idem.
  - rewrite lookup_alter_ne by done. destruct (decide (a' ∈ l.*2)) as [H|H].
    + rewrite decide_True by (by right). done.
    + rewrite decide_False; [done|]. intros [?|?]%elem_of_cons; done.
Qed.

Lemma Close_inv (s : Stack) : stack_inv s -> stack_inv (Close s).
Proof.
  intros []. unfold Close. destruct (s_stopped s); [by constructor|].
  destruct (stopAll_spec (map_to_list (s_routes s)) (set_routes (set_stopped s) ∅))
    as (E1 & E2 & E3 & E4 & E5 & E6).
  set (s' := foldl _ _ _) in *. clearbody s'.
  cbn [set_routes set_stopped s_serverIP s_mtu s_reasmLimits s_next s_routes s_atts] in *.
  assert (Hat : forall a att', s_atts s' !! a = Some att' ->
    exists att, s_atts s !! a = Some att /\ (att' = stop att \/ (att' = att /\ a ∉ (map_to_list (s_routes s)).*2))).
  { intros a att' H. rewrite E6 in H. destruct (decide _) as [Hin|Hin]; [|by eexists; eauto].
    destruct (s_atts s !! a) as [att|]; [|done]. exists att. split; [done|]. left. by apply (inj Some) in H. }
  constructor; rewrite ?E1, ?E2, ?E3, ?E4, ?E5; try done.
  - intros a att' (att & H & _)%Hat. eauto.
  - intros a att' (att & H & [->|[-> _]])%Hat; [apply stop_inv|]; eauto.
  - intros a att' (att & H & [->|[-> Hn]])%Hat Hs; [destruct (stop_stopped att); congruence|].
    destruct Hn. apply list_elem_of_fmap. exists (at_ip att, a). split; [done|].
    apply elem_of_map_to_list. eauto.
Qed.

(** ** Attaching and construction *)

Lemma to4_addr (ip ip4 : bytes) : bytes_ok ip -> IpPool.to4 ip = Some ip4 -> is_addr ip4.
Proof.
  unfold IpPool.to4. intros Hok. destruct (length ip =? 4)%nat eqn:E.
  { intros [= <-]. split; [by apply Nat.eqb_eq|done]. }
  destruct ((length ip =? 16)%nat && _) eqn:E2; [|done].
  intros [= <-]. apply andb_true_iff in E2 as [E2%Nat.eqb_eq _].
  split; [rewrite length_drop; lia|by apply bytes_ok_drop].
Qed.

Lemma Attach_inv (s : Stack) (sess : option nat) (ip : option bytes) :
  stack_inv s -> (forall b, ip = Some b -> bytes_ok b) -> stack_inv (Attach s sess ip).2.
Proof.
  intros Hi Hip. unfold Attach. destruct sess as [sess|]; [|done].
  destruct ip as [ip|]; [|done]. cbn [toIPv4Addr].
  destruct (IpPool.to4 ip) as [addr|] eqn:E4; [|done].
  pose proof (to4_addr ip addr (Hip ip eq_refl) E4) as Haddr.
  case_bool_decide as Hsrv; [done|]. destruct (s_routes s !! addr) as [a|] eqn:Er; [done|].
  destruct Hi. cbn [snd].
  assert (Hnew : s_atts s !! s_next s = None).
  { destruct (s_atts s !! s_next s) as [att|] eqn:E; [|done]. apply si_fresh0 in E. lia. }
  constructor; cbn [s_serverIP s_mtu s_reasmLimits s_next s_routes s_atts]; try done.
  - intros a att [[<- _]|[_ H]]%lookup_insert_Some; [lia|]. apply si_fresh0 in H. lia.
  - intros a att [[<- <-]|[_ H]]%lookup_insert_Some; [|by eauto]. destruct si_limits0 as [L1 L2].
    assert (Hl : 0 <= bufLimit (at_reasm (newAttachment s sess addr)) /\
                 0 <= byteLimit (at_reasm (newAttachment s sess addr))).
    { unfold bufLimit, byteLimit. cbn. unfold maxReassemblyBuffersPerSession, maxReassemblyBytesPerSession.
      destruct (_ =? 0), (_ =? 0); lia. }
    constructor; try done. constructor; try done; apply Hl.
  - intros ip' a [[<- <-]|[Hne H]]%lookup_insert_Some.
    + exists (newAttachment s sess addr). by rewrite lookup_insert_eq.
    + destruct (si_routes0 ip' a H) as (att & Ha & Hatt). exists att. split; [|done].
      rewrite lookup_insert_ne; [done|]. intros <-. congruence.
  - intros a att [[<- <-]|[Hne H]]%lookup_insert_Some Hs; [cbn; by rewrite lookup_insert_eq|].
    pose proof (si_live0 a att H Hs) as Hr. rewrite lookup_insert_ne; [done|]. intros Heq. by rewrite Heq, Hr in Er.
Qed.

(** The options a caller can build. *)
Inductive std_option : Option -> Prop :=
  | std_mtu (mtu : Z) : std_option (WithMTU mtu)
  | std_limits (l : ReassemblyLimits) : std_option (WithReassemblyLimits l).

Lemma New_inv (ip : option bytes) (opts : list Option) (s : Stack) :
  (forall b, ip = Some b -> bytes_ok b) -> Forall std_option opts -> New ip opts = Ok s -> stack_inv s.
Proof.
  intros Hip Ho. unfold New. destruct ip as [ip|]; [|done].
  destruct (IpPool.to4 ip) as [ip4|] eqn:E4; [|done].
  pose proof (to4_addr ip ip4 (Hip ip eq_refl) E4) as Haddr.
  set (s0 := mkStack _ _ _ _ _ _ _ _ _ _ _).
  assert (Hf : forall s1, s_serverIP s1 = ip4 /\ s_atts s1 = ∅ /\ s_routes s1 = ∅ ->
    let s2 := foldl (fun s (opt : Option) => opt s) s1 opts in
    s_serverIP s2 = ip4 /\ s_atts s2 = ∅ /\ s_routes s2 = ∅).
  { induction Ho as [|o opts Ho' Ho IH]; intros s1 H1; cbn [foldl]; [done|].
    apply IH. destruct Ho'; exact H1. }
  specialize (Hf s0 ltac:(by split_and!)). destruct Hf as (E1 & E2 & E3).
  set (s1 := foldl _ _ _) in *. clearbody s1.
  destruct (_ || _) eqn:Em; [done|]. destruct (_ || _ || _) eqn:El; [done|].
  intros E. apply (inj Ok) in E. subst s. unfold minMTU, maxMTU, maxIPv4Datagram in Em.
  constructor; rewrite ?E1, ?E2, ?E3; try done; lia.
Qed.

(** ** Outbound packets *)

Section Delivery.
Context (writeOK : nat -> bytes -> bool).

(** Writing stops after the first failing write. *)
Lemma writeAll_spec (a : nat) (frags : list bytes) :
  let '(ok, acts) := writeAll writeOK a frags in
  exists k, acts = map (Write a) (take k frags) /\
    Forall (fun f => writeOK a f = true) (take (pred k) frags) /\
    ok = forallb (writeOK a) frags /\ (ok = true -> k = length frags).
Proof.
  induction frags as [|f frags IH]; cbn [writeAll forallb].
  { by exists 0%nat. }
  destruct (writeOK a f) eqn:E; [|exists 1%nat; split_and!; [done|constructor|done..]].
  destruct (writeAll writeOK a frags) as [ok acts]. destruct IH as (k & -> & Hok & -> & Hk).
  exists (S k). cbn [take map pred]. split_and!; [done| |done|].
  - destruct k as [|k]; [constructor|]. cbn [take pred] in *. by constructor.
  - intros H. cbn. by rewrite Hk.
Qed.

(** A packet of the server, for [dst], within the MTU. *)
Definition out_ok (s : Stack) (dst : bytes) (p : bytes) : Prop :=
  exists h, parseIPv4 p = Ok h /\ h_src h = s_serverIP s /\ h_dst h = dst /\ h_totalLen h <= s_mtu s.

Lemma fragments_out (s : Stack) (hdr : ipv4Header) (id : Z) (payload : bytes) (frags : list bytes) (off : Z) :
  h_src hdr = s_serverIP s -> fragments_of hdr id (s_mtu s) payload off frags ->
  Forall (out_ok s (h_dst hdr)) frags.
Proof.
  intros Hs. revert off. induction frags as [|f frags IH]; intros off; [constructor|].
  intros (Hn & Hm & _ & _ & Hp & _ & _ & Hf). constructor; [|by apply (IH _ Hf)].
  eexists. split_and!; [exact Hp|done|done|cbn; lia].
Qed.

Lemma writePacket_ok (s : Stack) (a : nat) (pkt : bytes) :
  bytes_ok pkt -> 576 <= s_mtu s <= 65535 ->
  exists err s' acts, writePacket writeOK s a pkt = Ok (err, s', acts) /\ same_core s s' /\
    match parseIPv4 pkt with
    | Panic => False
    | Err e => err = Some (ErrParse e) /\ acts = []
    | Ok hdr =>
        if decide (h_src hdr = s_serverIP s) then
          exists pkts k, acts = map (Write a) (take k pkts) /\
            Forall (fun f => writeOK a f = true) (take (pred k) pkts) /\
            err = (if forallb (writeOK a) pkts then None else Some ErrSession) /\
            (err = None -> k = length pkts) /\ Forall (out_ok s (h_dst hdr)) pkts /\ pkts <> [] /\
            (if h_totalLen hdr <=? s_mtu s then pkts = [pkt]
             else exists id, fragments_of hdr id (s_mtu s) (payload_of hdr pkt) 0 pkts)
        else err = Some ErrOutboundSourceMismatch /\ acts = []
    end.
Proof.
  intros Hok Hmtu. unfold writePacket. pose proof (parseIPv4_ok pkt Hok) as HP.
  destruct (parseIPv4 pkt) as [hdr|e|] eqn:Ep; [|by eexists _, s, []; split_and!|done].
  destruct HP as (Hihl & Htl & _ & Hpo & _ & _ & _ & _ & H65 & _).
  unfold maxIPv4HeaderLen in Hihl.
  case_bool_decide as Hs; cbn [negb].
  2:{ eexists _, _, []. split; [done|]. split; [apply count_core|]. by rewrite decide_False. }
  destruct (decide (h_src hdr = s_serverIP s)) as [_|]; [|done].
  destruct (Z.leb_spec (h_totalLen hdr) (s_mtu s)) as [Hle|Hgt].
  { eexists _, s, _. split; [done|]. split; [apply same_core_refl|]. exists [pkt], 1%nat.
    cbn [forallb]. rewrite andb_true_r. split_and!; try done; try constructor.
    - eexists. split_and!; [exact Ep|done|done|done].
    - constructor. }
  set (id := s_ipID s +u32 1).
  destruct (fragmentIPv4_ok hdr pkt (s_mtu s) (u16 id) Hok Ep) as (frags & Ef & Hfr);
    [lia|apply u16_range|].
  cbn [set_ipID s_mtu]. rewrite Ef. outcome_simpl.
  assert (Hne : frags <> []).
  { intros ->. cbn in Hfr. unfold payload_of in Hfr. rewrite Hpo, zlen_take, zlen_drop in Hfr by lia. lia. }
  destruct (Nat.eqb_spec (length frags) 0) as [Hl|_]; [by apply nil_length_inv in Hl|].
  pose proof (writeAll_spec a frags) as HW. destruct (writeAll writeOK a frags) as [ok acts].
  destruct HW as (k & -> & Hk1 & -> & Hk2).
  eexists _, _, _. split; [done|]. split; [by split_and!|].
  exists frags, k. split_and!; try done.
  - intros E. apply Hk2. by destruct (forallb (writeOK a) frags).
  - by apply (fragments_out s hdr (u16 id) (payload_of hdr pkt) frags 0).
  - by exists (u16 id).
Qed.

(** What an action of attachment [a] may do. *)
Definition act_ok (s : Stack) (a : nat) (ip : bytes) (act : action) : Prop :=
  match act with
  | Write a' p => a' = a /\ out_ok s ip p
  | ToUDP a' src dst _ | ToTCP a' src dst _ => a' = a /\ src = ip /\ dst = s_serverIP s
  end.

Lemma writePacket_acts (s : Stack) (a : nat) (ip pkt : bytes) :
  bytes_ok pkt -> 576 <= s_mtu s <= 65535 -> (forall hdr, parseIPv4 pkt = Ok hdr -> h_dst hdr = ip) ->
  exists err s' acts, writePacket writeOK s a pkt = Ok (err, s', acts) /\ same_core s s' /\
    Forall (act_ok s a ip) acts.
Proof.
  intros Hok Hmtu Hdst. destruct (writePacket_ok s a pkt Hok Hmtu) as (err & s' & acts & E & Hc & Hm).
  exists err, s', acts. split_and!; [done..|].
  destruct (parseIPv4 pkt) as [hdr|e|] eqn:Ep; [|by destruct Hm as [_ ->]|done].
  destruct (decide _); [|by destruct Hm as [_ ->]].
  destruct Hm as (pkts & k & -> & _ & _ & _ & Hout & _). rewrite (Hdst hdr eq_refl) in Hout.
  apply Forall_map. apply Forall_take. eapply Forall_impl; [exact Hout|]. intros p Hp. by split.
Qed.

(** ** Inbound packets *)

Lemma put16_bytes (b b' : bytes) (i : nat) (v : Z) :
  bytes_ok b -> put16 (E := ip_error) b i v = Ok b' -> bytes_ok b' /\ length b' = length b.
Proof.
  intros Hb. unfold put16. destruct (Nat.leb_spec (i + 2) (length b)); [|done].
  intros E. apply (inj Ok) in E. subst b'. split.
  - apply bytes_ok_app. split; [by apply bytes_ok_take|]. apply bytes_ok_app.
    split; [apply be16_bytes|by apply bytes_ok_drop].
  - rewrite !length_app, length_take, length_drop. cbn [length be16]. lia.
Qed.

Lemma handleICMP_ok (s : Stack) (a : nat) (hdr : ipv4Header) (icmpMsg : bytes) :
  is_addr (s_serverIP s) -> 576 <= s_mtu s <= 65535 -> is_addr (h_src hdr) ->
  bytes_ok icmpMsg -> zlen icmpMsg <= 65515 ->
  exists s' acts, handleICMP writeOK s a hdr icmpMsg = Ok (s', acts) /\ same_core s s' /\
    Forall (act_ok s a (h_src hdr)) acts.
Proof.
  intros Hsrv Hmtu Hsrc Hok Hlen. unfold handleICMP. change MinICMPHeaderLen with 8.
  destruct (Z.ltb_spec (zlen icmpMsg) 8) as [|Hl]; [eexists _, []; split_and!; [done|apply count_core|done]|].
  destruct icmpMsg as [|ty rest]; [unfold zlen in Hl; cbn in Hl; lia|].
  change (index (ty :: rest) 0) with (Ok (E := ip_error) ty). outcome_simpl.
  destruct (negb _); [eexists _, []; split_and!; [done|apply same_core_refl|done]|].
  rewrite slice_from_ok by lia. outcome_simpl. change (drop (Z.to_nat 1) (ty :: rest)) with rest.
  apply Forall_cons in Hok as [_ Hok].
  assert (Hout : bytes_ok (icmpTypeEchoReply :: rest)) by (constructor; [unfold is_u8, icmpTypeEchoReply; lia|done]).
  assert (Hlr : (8 <= length (icmpTypeEchoReply :: rest))%nat) by (unfold zlen in Hl; cbn [length] in *; lia).
  destruct (put16_total (icmpTypeEchoReply :: rest) 2 0 ltac:(lia)) as (o1 & E1 & L1).
  rewrite E1. outcome_simpl. destruct (put16_bytes _ _ _ _ Hout E1) as [B1 _].
  destruct (put16_total o1 2 (InternetChecksum o1) ltac:(lia)) as (o2 & E2 & L2).
  rewrite E2. outcome_simpl. destruct (put16_bytes _ _ _ _ B1 E2) as [B2 _].
  assert (Hz : zlen o2 <= 65515) by (unfold zlen in *; cbn [length] in *; lia).
  destruct (BuildIPv4_shape (E := ip_error) (s_serverIP s) (h_src hdr) ProtocolICMP o2 Hsrv Hsrc)
    as (ck & ih & _ & _ & Eb & _ & Bih & _); [done|].
  destruct (parse_built (s_serverIP s) (h_src hdr) ProtocolICMP o2 (ih ++ o2)) as [Hp _]; try done.
  cbn [count set_stats s_serverIP]. unfold buildIPv4. rewrite Eb. outcome_simpl.
  destruct (writePacket_acts (count s icmpEchoRequests) a (h_src hdr) (ih ++ o2))
    as (err & s' & acts & Ew & Hc & Ha); [by apply bytes_ok_app|done| |].
  { intros h' Hp'. rewrite Hp in Hp'. apply (inj Ok) in Hp'. by subst h'. }
  rewrite Ew. outcome_simpl. eexists _, acts. split; [done|]. split; [|exact Ha].
  apply (same_core_trans _ s'); [exact Hc|]. destruct err; [apply same_core_refl|apply count_core].
Qed.

Lemma dispatch_ok (s : Stack) (a : nat) (ip : bytes) (hdr : ipv4Header) (pkt : bytes) :
  is_addr (s_serverIP s) -> 576 <= s_mtu s <= 65535 ->
  bytes_ok pkt -> parseIPv4 pkt = Ok hdr -> h_src hdr = ip -> h_dst hdr = s_serverIP s ->
  exists s' acts, dispatch writeOK s a hdr pkt = Ok (s', acts) /\ same_core s s' /\
    Forall (act_ok s a ip) acts.
Proof.
  intros Hsrv Hmtu Hok Hp Hsrc Hdst. pose proof (parseIPv4_ok pkt Hok) as HP. rewrite Hp in HP.
  destruct HP as (Hihl & Htl & _ & Hpo & Hs & _ & _ & _ & H65 & _).
  unfold dispatch. rewrite slice_ok by lia. outcome_simpl.
  destruct (h_protocol hdr =? ProtocolICMP).
  { rewrite <- Hsrc. apply handleICMP_ok; try done; [by apply bytes_ok_take, bytes_ok_drop|].
    rewrite zlen_take by lia. lia. }
  assert (Hdrop : exists s' acts, Ok (E := ip_error) (count s unhandledProtocolDropped, []) = Ok (s', acts) /\
    same_core s s' /\ Forall (act_ok s a ip) acts)
    by (eexists _, []; split_and!; [done|apply count_core|done]).
  destruct (h_protocol hdr =? ProtocolUDP).
  { destruct (s_udpHandler s); [|done]. eexists s, _. split_and!; [done|apply same_core_refl|].
    constructor; [by split_and!|constructor]. }
  destruct (h_protocol hdr =? ProtocolTCP); [|done].
  destruct (s_tcpHandler s); [|done]. eexists s, _. split_and!; [done|apply same_core_refl|].
  constructor; [by split_and!|constructor].
Qed.
End Delivery.

(** The access check of [deliver]. *)
Definition admitted (s : Stack) (att : attachment) (pkt : bytes) : Prop :=
  exists hdr, parseIPv4 pkt = Ok hdr /\ h_src hdr = at_ip att /\ h_dst hdr = s_serverIP s.

(** [a]'s attachment replaced by one that differs in its reassembler only. *)
Definition with_att (s : Stack) (a : nat) (att : attachment) : Stack :=
  set_atts s (<[a := att]> (s_atts s)).

Lemma with_att_same (s : Stack) (a : nat) (att : attachment) :
  s_atts s !! a = Some att -> same_core s (with_att s a att).
Proof. intros Ha. unfold with_att. split_and!; try done. cbn. by rewrite insert_id. Qed.

Lemma with_att_inv (s : Stack) (a : nat) (att : attachment) (r : reassembler) :
  stack_inv s -> s_atts s !! a = Some att -> att_inv (s_serverIP s) (set_reasm att r) ->
  stack_inv (with_att s a (set_reasm att r)).
Proof.
  intros [] Ha Hi. constructor; cbn [with_att set_atts s_serverIP s_mtu s_reasmLimits s_next s_routes s_atts];
    try done.
  - intros a' att' [[<- _]|[_ H]]%lookup_insert_Some; eauto.
  - intros a' att' [[<- <-]|[_ H]]%lookup_insert_Some; eauto.
  - intros ip a' Hr. destruct (si_routes0 ip a' Hr) as (att' & E & Hatt).
    destruct (decide (a' = a)) as [->|Hne].
    + exists (set_reasm att r). rewrite lookup_insert_eq. split; [done|].
      rewrite Ha in E. apply (inj Some) in E. by subst att'.
    + exists att'. rewrite lookup_insert_ne by done. done.
  - intros a' att' [[<- <-]|[_ H]]%lookup_insert_Some Hs; [exact (si_live0 _ att Ha Hs)|exact (si_live0 _ _ H Hs)].
Qed.

Lemma add_att_inv (server : bytes) (att : attachment) (now n : Z) (hdr : ipv4Header) (pkt : bytes)
    (d : option bytes) (out : reasmOutcome) (r' : reassembler) :
  att_inv server att -> fragment_in hdr pkt -> h_src hdr = at_ip att -> h_dst hdr = server ->
  add (at_reasm att) now hdr pkt = Ok (d, out, n, r') ->
  att_inv server (set_reasm att r') /\ forall o, d = Some o ->
    exists h', bytes_ok o /\ parseIPv4 o = Ok h' /\ h_src h' = at_ip att /\ h_dst h' = server.
Proof.
  intros [] Hf Hs Hd E.
  destruct (add_owned (own_key server (at_ip att)) _ _ _ _ _ _ _ _ ai_bounded0 Hf ai_owned0 ltac:(done) E)
    as [Ho Hc].
  destruct (add_bounded (at_reasm att) now hdr pkt ai_bounded0 Hf) as (d' & out' & n' & r'' & E' & Hb & Hl & _).
  rewrite E in E'. apply (inj Ok) in E'. simplify_eq.
  split.
  - constructor; cbn [set_reasm at_ip at_reasm at_stopped]; try done.
    + unfold bufLimit, byteLimit, same_limits in *. by rewrite Hl.
    + intros Hst. destruct (ai_stopped0 Hst) as (Hcl & Hbufs & Hbytes).
      unfold add in E. rewrite Hcl in E. apply (inj Ok) in E. by simplify_eq.
  - intros o Ho'. destruct (Hc o Ho') as (h' & Hok & Hp & Hk & _). exists h'.
    unfold keyOf in Hk. injection Hk as -> -> _ _. by split_and!.
Qed.

Section Reads.
Context (writeOK : nat -> bytes -> bool).

Lemma deliverFragment_ok (s : Stack) (a : nat) (att : attachment) (now : Z) (hdr : ipv4Header)
    (pkt : bytes) :
  stack_inv s -> s_atts s !! a = Some att -> fragment_in hdr pkt ->
  h_src hdr = at_ip att -> h_dst hdr = s_serverIP s ->
  exists s' acts r, deliverFragment writeOK s a att now hdr pkt = Ok (s', acts) /\
    same_core (with_att s a (set_reasm att r)) s' /\ att_inv (s_serverIP s) (set_reasm att r) /\
    Forall (act_ok s a (at_ip att)) acts.
Proof.
  intros Hi Ha Hfi Hs Hd. pose proof (si_atts _ Hi a att Ha) as Hatt.
  destruct (add_bounded (at_reasm att) now hdr pkt (ai_bounded _ _ Hatt) Hfi)
    as (d & out & n & r & Ea & _ & _ & _ & Hsome).
  destruct (add_att_inv (s_serverIP s) att now n hdr pkt d out r Hatt Hfi Hs Hd Ea) as [Hatt' Hcomp].
  unfold deliverFragment. rewrite Ea. outcome_simpl.
  set (s1 := if 0 <? n then _ else _).
  assert (Hc1 : same_core (with_att s a (set_reasm att r)) s1)
    by (unfold s1; destruct (0 <? n); by split_and!).
  clearbody s1.
  assert (Hcnt : forall c, same_core (with_att s a (set_reasm att r)) (count s1 c)).
  { intros c. apply (same_core_trans _ s1); [done|apply count_core]. }
  destruct out; [by eexists s1, [], r| |by eexists _, [], r..].
  destruct (proj2 Hsome eq_refl) as [o ->]. destruct (Hcomp o eq_refl) as (h' & Hoo & Hpo & Hso & Hdo).
  change (default [] (Some o)) with o. rewrite Hpo.
  destruct (Hcnt fragmentsReassembled) as (E1 & E2 & _). cbn [with_att set_atts s_serverIP s_mtu] in E1, E2.
  destruct (dispatch_ok writeOK (count s1 fragmentsReassembled) a (at_ip att) h' o)
    as (s' & acts & -> & Hc & Hact); try done.
  - rewrite E1. apply Hi.
  - rewrite E2. apply Hi.
  - by rewrite E1.
  - exists s', acts, r. split_and!; try done.
    + by apply (same_core_trans _ (count s1 fragmentsReassembled)).
    + eapply Forall_impl; [exact Hact|]. intros act. unfold act_ok, out_ok. by rewrite E1, E2.
Qed.

Lemma deliver_ok (s : Stack) (a : nat) (att : attachment) (now : Z) (pkt : bytes) :
  stack_inv s -> s_atts s !! a = Some att -> bytes_ok pkt ->
  exists s' acts r, deliver writeOK s a att now pkt = Ok (s', acts) /\
    same_core (with_att s a (set_reasm att r)) s' /\ att_inv (s_serverIP s) (set_reasm att r) /\
    Forall (act_ok s a (at_ip att)) acts /\ (~ admitted s att pkt -> acts = [] /\ r = at_reasm att).
Proof.
  intros Hi Ha Hok. pose proof (si_atts _ Hi a att Ha) as Hatt.
  assert (Hid : set_reasm att (at_reasm att) = att) by (by destruct att).
  assert (Hquiet : forall s', same_core s s' ->
    same_core (with_att s a (set_reasm att (at_reasm att))) s' /\
    att_inv (s_serverIP s) (set_reasm att (at_reasm att)) /\ Forall (act_ok s a (at_ip att)) []).
  { intros s' Hs'. rewrite Hid. split_and!; [|done|done].
    destruct (with_att_same s a att Ha) as (?&?&?&?&?&?), Hs' as (?&?&?&?&?&?).
    split_and!; congruence. }
  assert (Hcc : forall c, same_core s (count (count s packetsReceived) c)) by (intros; by split_and!).
  unfold deliver. pose proof (parseIPv4_ok pkt Hok) as HP.
  destruct (parseIPv4 pkt) as [hdr|e|] eqn:Ep; [| |done].
  2:{ eexists _, [], (at_reasm att). split; [done|]. destruct (Hquiet _ (Hcc malformedDropped)) as (? & ? & ?).
      by split_and!. }
  case_bool_decide as Hs; cbn [negb].
  2:{ eexists _, [], (at_reasm att). split; [done|].
      destruct (Hquiet _ (Hcc spoofedSourceDropped)) as (? & ? & ?). by split_and!. }
  case_bool_decide as Hd; cbn [negb].
  2:{ eexists _, [], (at_reasm att). split; [done|].
      destruct (Hquiet _ (Hcc wrongDestinationDropped)) as (? & ? & ?). by split_and!. }
  change (s_serverIP (count s packetsReceived)) with (s_serverIP s) in Hd.
  assert (Had : admitted s att pkt) by (by exists hdr).
  destruct (isFragment hdr) eqn:Ef.
  2:{ destruct (dispatch_ok writeOK (count s packetsReceived) a (at_ip att) hdr pkt)
        as (s' & acts & -> & Hc & Hact); [apply Hi|apply Hi|done..|].
      exists s', acts, (at_reasm att). split; [done|]. destruct (Hquiet s') as (? & ? & _); [exact Hc|].
      split_and!; done. }
  destruct (deliverFragment_ok (count s packetsReceived) a att now hdr pkt)
    as (s' & acts & r & E & Hc & Hatt' & Hact); try done.
  { by apply (core_inv s). }
  exists s', acts, r. by split_and!.
Qed.

Lemma deliver_inv (s s' : Stack) (a : nat) (att : attachment) (now : Z) (pkt : bytes) (acts : list action) :
  stack_inv s -> s_atts s !! a = Some att -> bytes_ok pkt ->
  deliver writeOK s a att now pkt = Ok (s', acts) -> stack_inv s'.
Proof.
  intros Hi Ha Hok E. destruct (deliver_ok s a att now pkt Hi Ha Hok) as (s1 & acts1 & r & E1 & Hc & Hai & _).
  rewrite E in E1. apply (inj Ok) in E1. simplify_eq.
  eapply core_inv; [exact Hc|]. by apply with_att_inv.
Qed.
End Reads.

(** ** Reachable states *)

Section Reachable.
Context (writeOK : nat -> bytes -> bool).

(** The public operations, the rounds of the read loops, deliveries (also to an
    attachment that was stopped after its read loop's last check) and the
    handlers' writes, in any order. *)
Inductive reachable : Stack -> Prop :=
  | reach_new (ip : option bytes) (opts : list Option) (s : Stack) :
      (forall b, ip = Some b -> bytes_ok b) -> Forall std_option opts -> New ip opts = Ok s ->
      reachable s
  | reach_attach (s : Stack) (sess : option nat) (ip : option bytes) :
      reachable s -> (forall b, ip = Some b -> bytes_ok b) -> reachable (Attach s sess ip).2
  | reach_detach (s : Stack) (ip : option bytes) : reachable s -> reachable (Detach s ip).2
  | reach_close (s : Stack) : reachable s -> reachable (Close s)
  | reach_udp (s : Stack) : reachable s -> reachable (registerUDPHandler s).2
  | reach_tcp (s : Stack) : reachable s -> reachable (registerTCPHandler s).2
  | reach_read (s s' : Stack) (a : nat) (buf now : Z) (res : option bytes) (next : option Z)
      (acts : list action) :
      reachable s -> (forall pkt, res = Some pkt -> bytes_ok pkt) ->
      afterRead writeOK s a buf res now = Ok (s', next, acts) -> reachable s'
  | reach_deliver (s s' : Stack) (a : nat) (att : attachment) (now : Z) (pkt : bytes)
      (acts : list action) :
      reachable s -> s_atts s !! a = Some att -> bytes_ok pkt ->
      deliver writeOK s a att now pkt = Ok (s', acts) -> reachable s'
  | reach_write (s s' : Stack) (a : nat) (pkt : bytes) (err : option stack_error) (acts : list action) :
      reachable s -> bytes_ok pkt -> writePacket writeOK s a pkt = Ok (err, s', acts) -> reachable s'.

Lemma afterRead_inv (s s' : Stack) (a : nat) (buf now : Z) (res : option bytes) (next : option Z)
    (acts : list action) :
  stack_inv s -> (forall pkt, res = Some pkt -> bytes_ok pkt) ->
  afterRead writeOK s a buf res now = Ok (s', next, acts) -> stack_inv s'.
Proof.
  intros Hi Hok. unfold afterRead. destruct (s_atts s !! a) as [att|] eqn:Ha.
  2:{ intros E. apply (inj Ok) in E. by simplify_eq. }
  destruct res as [pkt|].
  - destruct (at_stopped att); [intros E; apply (inj Ok) in E; by simplify_eq|].
    destruct (deliver writeOK s a att now pkt) as [[s1 acts1]| |] eqn:Ed; [|done..]. outcome_simpl.
    intros E. apply (inj Ok) in E. simplify_eq. by apply (deliver_inv _ _ _ _ _ _ _ _ Hi Ha (Hok pkt eq_refl) Ed).
  - destruct (buf <? maxReadRetryBufferSize); intros E; apply (inj Ok) in E; simplify_eq.
    + eapply core_inv; [apply count_core|done].
    + by apply detachAttachment_inv.
Qed.

Lemma reachable_inv (s : Stack) : reachable s -> stack_inv s.
Proof.
  induction 1 as [ip opts s Hip Ho E|s sess ip _ IH Hip|s ip _ IH|s _ IH|s _ IH|s _ IH|
    s s' a buf now res next acts _ IH Hok E|s s' a att now pkt acts _ IH Ha Hok E|s s' a pkt err acts _ IH Hok E].
  - by apply (New_inv ip opts).
  - by apply Attach_inv.
  - by apply Detach_inv.
  - by apply Close_inv.
  - unfold registerUDPHandler. destruct (s_udpHandler s); [done|]. eapply core_inv; [|exact IH]. by split_and!.
  - unfold registerTCPHandler. destruct (s_tcpHandler s); [done|]. eapply core_inv; [|exact IH]. by split_and!.
  - by apply (afterRead_inv s s' a buf now res next acts).
  - by apply (deliver_inv writeOK s s' a att now pkt acts).
  - destruct (writePacket_ok writeOK s a pkt Hok (si_mtu _ IH)) as (err' & s1 & acts' & E1 & Hc & _).
    rewrite E in E1. apply (inj Ok) in E1. simplify_eq. by apply (core_inv s).
Qed.

(** C26. Isolation of sessions: in every reachable state, whatever a session
    sends, delivery does not panic; a packet that does not parse, or whose source
    is not the session's own address, or whose destination is not the server,
    causes no action and touches no reassembly state; every datagram handed to
    a protocol handler (reassembled ones included) carries the session's own
    source address and the server's destination; every packet written in
    response goes to that session only, comes from the server's address and
    fits the MTU; and no other attachment and no route changes. *)
Theorem delivery_isolated (s : Stack) (a : nat) (att : attachment) (now : Z) (pkt : bytes) :
  reachable s -> s_atts s !! a = Some att -> bytes_ok pkt ->
  exists s' acts, deliver writeOK s a att now pkt = Ok (s', acts) /\
    (~ admitted s att pkt -> acts = [] /\ s_atts s' = s_atts s) /\
    Forall (fun act =>
      match act with
      | Write a' p => a' = a /\ exists h, parseIPv4 p = Ok h /\ h_src h = s_serverIP s /\
                                          h_dst h = at_ip att /\ h_totalLen h <= s_mtu s
      | ToUDP a' src dst _ | ToTCP a' src dst _ => a' = a /\ src = at_ip att /\ dst = s_serverIP s
      end) acts /\
    (forall a', a' <> a -> s_atts s' !! a' = s_atts s !! a') /\ s_routes s' = s_routes s.
Proof.
  intros Hr Ha Hok. apply reachable_inv in Hr as Hi.
  destruct (deliver_ok writeOK s a att now pkt Hi Ha Hok) as (s' & acts & r & E & Hc & _ & Hacts & Hn).
  destruct Hc as (_ & _ & _ & _ & E5 & E6). cbn in E5, E6.
  exists s', acts. split_and!; [done| |done| |done].
  - intros Hna. destruct (Hn Hna) as [-> ->]. split; [done|]. rewrite E5. apply insert_id. by destruct att.
  - intros a' Hne. rewrite E5. by rewrite lookup_insert_ne.
Qed.

(** Routes and attachments agree: in every reachable state the routed
    addresses are exactly the addresses of the attachments that are not stopped,
    one attachment per address and never the server's; every attachment's
    reassembler is within its limits; and a stopped attachment holds no
    reassembly state and accepts none. *)
Theorem routes_live (s : Stack) :
  reachable s ->
  (forall ip a, s_routes s !! ip = Some a <->
     exists att, s_atts s !! a = Some att /\ at_ip att = ip /\ at_stopped att = false) /\
  s_routes s !! s_serverIP s = None /\
  (forall a att, s_atts s !! a = Some att ->
     Z.of_nat (size (rs_bufs (at_reasm att))) <= bufLimit (at_reasm att) /\
     rs_bytes (at_reasm att) = totalBytes (rs_bufs (at_reasm att)) /\
     rs_bytes (at_reasm att) <= byteLimit (at_reasm att) /\
     (at_stopped att = true -> rs_bufs (at_reasm att) = ∅ /\ rs_closed (at_reasm att) = true)).
Proof.
  intros Hr. apply reachable_inv in Hr as []. split_and!.
  - intros ip a. split; [apply si_routes0|]. intros (att & Ha & <- & Hs). by apply si_live0.
  - destruct (s_routes s !! s_serverIP s) as [a|] eqn:E; [|done].
    destruct (si_routes0 _ _ E) as (att & Ha & Hip & _). by destruct (ai_not_server _ _ (si_atts0 a att Ha)).
  - intros a att Ha. destruct (si_atts0 a att Ha) as [_ _ [] _ _ Hst]. split_and!; try done.
    intros Hs. destruct (Hst Hs) as (? & ? & ?). done.
Qed.

(** Outbound packets: [writePacket] never panics; a packet that does not
    parse or does not come from the server's address is refused and nothing is
    written; any other packet goes out as itself when it fits the MTU and
    otherwise as its fragments, in order, all with the server's source and
    within the MTU, up to the first write that fails; and the result is nil
    exactly when every write succeeded. *)
Theorem writePacket_spec (s : Stack) (a : nat) (pkt : bytes) :
  bytes_ok pkt -> 576 <= s_mtu s <= 65535 ->
  exists err s' acts, writePacket writeOK s a pkt = Ok (err, s', acts) /\ same_core s s' /\
    match parseIPv4 pkt with
    | Panic => False
    | Err e => err = Some (ErrParse e) /\ acts = []
    | Ok hdr =>
        if decide (h_src hdr = s_serverIP s) then
          exists pkts k, acts = map (Write a) (take k pkts) /\
            Forall (fun f => writeOK a f = true) (take (pred k) pkts) /\
            err = (if forallb (writeOK a) pkts then None else Some ErrSession) /\
            (err = None -> k = length pkts) /\ Forall (out_ok s (h_dst hdr)) pkts /\ pkts <> [] /\
            (if h_totalLen hdr <=? s_mtu s then pkts = [pkt]
             else exists id, fragments_of hdr id (s_mtu s) (payload_of hdr pkt) 0 pkts)
        else err = Some ErrOutboundSourceMismatch /\ acts = []
    end.
Proof. apply writePacket_ok. Qed.

(** [Routes] lists the addresses of the live attachments, each once, in their order,
    whatever order the map is iterated in. *)
Theorem routes_listed (s : Stack) (order : list bytes) :
  stack_inv s -> order ≡ₚ map fst (map_to_list (s_routes s)) ->
  (forall ip, ip ∈ Routes order <-> exists a att, s_atts s !! a = Some att /\ at_ip att = ip /\ at_stopped att = false) /\
  NoDup (Routes order) /\ StronglySorted bytes_ordered (Routes order) /\
  (forall order', order' ≡ₚ order -> Routes order' = Routes order).
Proof.
  intros Hi HO. assert (HP : Routes order ≡ₚ map fst (map_to_list (s_routes s))) by (unfold Routes; by rewrite merge_sort_Permutation).
  split_and!.
  - intros ip. rewrite HP. split.
    + intros ([ip' a] & -> & Ha%elem_of_map_to_list)%list_elem_of_fmap. destruct (si_routes _ Hi _ _ Ha) as (att & ? & ? & ?).
      by exists a, att.
    + intros (a & att & Ha & <- & Hs). apply list_elem_of_fmap. exists (at_ip att, a). split; [done|].
      apply elem_of_map_to_list. by apply (si_live _ Hi).
  - rewrite HP. apply NoDup_fst_map_to_list.
  - unfold Routes. apply (StronglySorted_merge_sort bytes_ordered); apply _.
  - intros order' HO'. apply (StronglySorted_unique bytes_ordered); [unfold Routes; apply (StronglySorted_merge_sort bytes_ordered); apply _..|].
    unfold Routes. by rewrite !merge_sort_Permutation.
Qed.

(** ** Echo *)

(** The reply to an echo request: another type and a checksum of its own. *)
Definition echo_reply (icmpMsg : bytes) : bytes :=
  match icmpMsg with
  | _ :: code :: _ :: _ :: rest =>
      [icmpTypeEchoReply; code] ++ be16 (InternetChecksum ([icmpTypeEchoReply; code] ++ [0; 0] ++ rest)) ++ rest
  | _ => []
  end.

Lemma echo_reply_facts (icmpMsg : bytes) :
  bytes_ok icmpMsg -> MinICMPHeaderLen <= zlen icmpMsg <= 65515 ->
  zlen (echo_reply icmpMsg) = zlen icmpMsg /\ bytes_ok (echo_reply icmpMsg) /\
  InternetChecksum (echo_reply icmpMsg) = 0 /\ drop 4 (echo_reply icmpMsg) = drop 4 icmpMsg.
Proof.
  change MinICMPHeaderLen with 8. intros Hok Hl.
  destruct icmpMsg as [|ty [|code [|c0 [|c1 rest]]]]; try (unfold zlen in Hl; cbn in Hl; lia). cbn [echo_reply].
  apply Forall_cons in Hok as [_ Hok]. apply Forall_cons in Hok as [Hc Hok]. apply Forall_cons in Hok as [_ Hok]. apply Forall_cons in Hok as [_ Hok].
  assert (Ha : bytes_ok [icmpTypeEchoReply; code]) by (repeat constructor; [done|apply Hc|apply Hc]).
  set (ck := InternetChecksum _).
  split_and!; [done| | |done].
  - apply bytes_ok_app. split; [done|]. apply bytes_ok_app. split; [apply be16_bytes|done].
  - pose proof (wsum_bounds _ Ha) as B1. pose proof (wsum_bounds _ Hok) as B2. change (zlen [icmpTypeEchoReply; code]) with 2 in B1.
    change ((2 + 1) / 2) with 1 in B1.
    assert ((zlen rest + 1) / 2 <= 32768) by (rewrite !zlen_cons in Hl; apply Z.div_le_upper_bound; lia).
    apply (checksum_fills 0 [icmpTypeEchoReply; code] rest); [done|done|by exists 1%nat|lia|lia].
Qed.

(** A client's echo request is answered: one packet goes back to its session, the
    request's message with the type of a reply and a checksum that verifies, the
    identifier, number and data unchanged; both counters go up. *)
Lemma echo_answered (s : Stack) (a : nat) (att : attachment) (now : Z) (icmpMsg pkt : bytes) :
  stack_inv s -> s_atts s !! a = Some att -> bytes_ok icmpMsg ->
  MinICMPHeaderLen <= zlen icmpMsg <= s_mtu s - 20 -> hd 0 icmpMsg = ICMPTypeEchoRequest ->
  buildIPv4 [] (at_ip att) (s_serverIP s) ProtocolICMP icmpMsg = Ok pkt -> (forall p, writeOK a p = true) ->
  exists reply, buildIPv4 [] (s_serverIP s) (at_ip att) ProtocolICMP (echo_reply icmpMsg) = Ok reply /\
    deliver writeOK s a att now pkt =
      Ok (count (count (count s packetsReceived) icmpEchoRequests) icmpEchoReplies, [Write a reply]).
Proof.
  intros Hi Ha Hok Hl Hty Hb Hw. destruct Hi as [Hsrv Hmtu _ _ Hatts _ _]. destruct (Hatts a att Ha) as [Hip Hns _ _ _ _].
  destruct (echo_reply_facts icmpMsg Hok ltac:(lia)) as (Hrl & Hrok & _ & _).
  destruct (parse_built (at_ip att) (s_serverIP s) ProtocolICMP icmpMsg pkt Hip Hsrv) as (Hp & Hdr & Hz & _); [done|lia|done|].
  destruct (BuildIPv4_shape (E := ip_error) (s_serverIP s) (at_ip att) ProtocolICMP (echo_reply icmpMsg) Hsrv Hip)
    as (ck & ih & _ & _ & Eb & _); [done|].
  destruct (parse_built (s_serverIP s) (at_ip att) ProtocolICMP (echo_reply icmpMsg) _ Hsrv Hip ltac:(done) ltac:(lia) Eb) as (Hpr & _).
  exists (ih ++ echo_reply icmpMsg). split; [exact Eb|].
  unfold deliver. rewrite Hp. cbn [h_src h_dst]. rewrite !bool_decide_eq_true_2 by done. cbn [negb].
  change (isFragment _) with false. cbn [andb]. unfold dispatch. cbn [h_payloadOff h_totalLen h_protocol].
  pose proof (zlen_nonneg icmpMsg). rewrite slice_ok by lia. outcome_simpl. change (ProtocolICMP =? ProtocolICMP) with true. cbv iota.
  change (Z.to_nat 20) with 20%nat. rewrite Hdr. replace (20 + zlen icmpMsg - 20) with (zlen icmpMsg) by lia.
  replace (take (Z.to_nat (zlen icmpMsg)) icmpMsg) with icmpMsg by (unfold zlen; by rewrite Nat2Z.id, firstn_all).
  unfold handleICMP. rewrite (proj2 (Z.ltb_ge _ _)) by lia.
  destruct icmpMsg as [|ty [|code [|c0 [|c1 rest]]]]; try (unfold zlen in Hl; cbn in Hl; change MinICMPHeaderLen with 8 in Hl; lia).
  cbn [hd] in Hty. subst ty. cbn [index Z.leb Z.compare Z.to_nat lookup list_lookup]. outcome_simpl.
  change (ICMPTypeEchoRequest =? ICMPTypeEchoRequest) with true. cbn [negb].
  rewrite slice_from_ok by (unfold zlen; cbn [length]; lia). outcome_simpl. change (drop (Z.to_nat 1) (?x :: ?l)) with l.
  change (icmpTypeEchoReply :: code :: c0 :: c1 :: rest) with ([icmpTypeEchoReply; code] ++ [c0; c1] ++ rest).
  rewrite (put16_at [icmpTypeEchoReply; code] rest c0 c1 0 2) by done. outcome_simpl. change (be16 0) with [0; 0].
  rewrite (put16_at [icmpTypeEchoReply; code] rest 0 0 _ 2) by done. outcome_simpl.
  change ([icmpTypeEchoReply; code] ++ be16 _ ++ rest) with (echo_reply (ICMPTypeEchoRequest :: code :: c0 :: c1 :: rest)).
  cbn [count set_stats s_serverIP h_src]. unfold buildIPv4. rewrite Eb. outcome_simpl.
  unfold writePacket. rewrite Hpr. cbn [h_src]. rewrite bool_decide_eq_true_2 by done. cbn [negb h_totalLen count set_stats s_mtu].
  rewrite (proj2 (Z.leb_le _ _)) by lia. outcome_simpl. by rewrite Hw.
Qed.
End Reachable.

(** ** Witnesses *)

Module ToyStack.
Definition always : nat -> bytes -> bool := fun _ _ => true.
Definition server : bytes := [10; 8; 0; 1].
Definition client : bytes := [10; 8; 0; 2].
Definition s0 : Stack :=
  mkStack server 576 (mkLimits 0 0 0) 0 ∅ ∅ 0 false false (fun _ => 0) false.
Definition s1 : Stack := (Attach s0 (Some 7%nat) (Some client)).2.
Definition att : attachment := newAttachment s0 7 client.
(** An echo request of the client with 600 bytes of data: the reply is larger
    than the MTU of 576. *)
Definition echo : bytes := [8; 0; 0; 0; 0; 1; 0; 1] ++ replicate 600 5.
Definition ping : bytes :=
  match buildIPv4 [] client server 1 echo with Ok p => p | _ => [] end.
(** The same from another client's address. *)
Definition spoofed : bytes :=
  match buildIPv4 [] [10; 8; 0; 3] server 1 echo with Ok p => p | _ => [] end.

Lemma reachable1 : reachable always s1.
Proof.
  apply reach_attach; [|intros b E; apply (inj Some) in E; subst b; decide_now].
  apply (reach_new _ (Some server) [WithMTU 576]); [|repeat constructor|reflexivity].
  intros b E. apply (inj Some) in E. subst b. decide_now.
Qed.

(** Two actions: the reply goes out in two fragments. *)
Example ping_answered :
  match deliver always s1 0 att 0 ping with
  | Ok (s, [Write _ p; Write _ q]) => zlen p + zlen q = 648 /\ s_stats s icmpEchoReplies = 1
  | _ => False
  end.
Proof. vm_compute. done. Qed.
End ToyStack.

Lemma delivery_isolated_witness :
  exists s' acts, deliver ToyStack.always ToyStack.s1 0 ToyStack.att 0 ToyStack.spoofed = Ok (s', acts) /\
    acts = [] /\ s_atts s' = s_atts ToyStack.s1.
Proof.
  destruct (delivery_isolated ToyStack.always ToyStack.s1 0 ToyStack.att 0 ToyStack.spoofed)
    as (s' & acts & E & Hn & _).
  - exact ToyStack.reachable1.
  - reflexivity.
  - decide_now.
  - exists s', acts. split; [exact E|]. apply Hn. intros (hdr & Hp & Hs & _).
    vm_compute in Hp. apply (inj Ok) in Hp. subst hdr. vm_compute in Hs. discriminate Hs.
Defined.

Lemma routes_live_witness :
  s_routes ToyStack.s1 !! ToyStack.client = Some 0%nat /\
  s_routes ToyStack.s1 !! s_serverIP ToyStack.s1 = None.
Proof.
  destruct (routes_live ToyStack.always ToyStack.s1 ToyStack.reachable1) as (Hr & Hs & _).
  split; [|exact Hs]. apply Hr. by exists ToyStack.att.
Defined.

Lemma writePacket_spec_witness :
  exists err s' acts, writePacket ToyStack.always ToyStack.s1 0 ToyIP.packet = Ok (err, s', acts) /\
    same_core ToyStack.s1 s'.
Proof.
  destruct (writePacket_spec ToyStack.always ToyStack.s1 0 ToyIP.packet) as (err & s' & acts & E & Hc & _).
  - decide_now.
  - split; vm_compute; discriminate.
  - exists err, s', acts. split; [exact E|exact Hc].
Defined.

End Stack.
