(* ===== verification/Udp.v ===== *)
(** * Udp: datagram sockets

    Model of [netstack/udp.go]: parsing and building UDP datagrams, the port
    demultiplexer with its bounded queues and drop policies, and the listener
    that implements [net.PacketConn].

    Listeners are objects of a heap indexed by their identity (the code compares
    pointers); [ports] names the one that is bound.  The queue is the buffered
    channel [inbound].  The three selects of the drop-oldest branch are separate
    steps: other goroutines may take from or add to the channel in between, and
    what they do is an argument. *)

From stdpp Require Import gmap.
From S2P Require Import Prelude Frame IPv4 IpPool Deadline Stack.
Import Frame.

Module Udp.

Definition udpHeaderLen : Z := UDPHeaderLen.
Definition udpQueueDepth : Z := 64.
Definition maxUDPPayload : Z := 65507.

Inductive udp_error :=
  | ErrUDPPortZero | ErrUDPPortInUse | ErrUDPNoRoute | ErrUDPPayloadTooLarge | ErrUDPInvalidAddr
  | ErrInvalidUDPQueueDepth | ErrInvalidUDPDropPolicy | errUDPHeaderTooShort | errUDPBadLength
  | ErrClosed                            (* [net.ErrClosed] *)
  | errDeadlineExceeded
  | ErrWrite (e : Stack.stack_error).    (* what [writePacket] returned *)

(** ** Datagrams *)

Definition parseUDP (payload : bytes) : outcome udp_error (Z * Z * bytes) :=
  if zlen payload <? udpHeaderLen then Err errUDPHeaderTooShort else
  lenField ← slice payload 4 6;
  length ← get_u16 lenField;
  if (length <? udpHeaderLen) || (zlen payload <? length) then Err errUDPBadLength else
  srcField ← slice payload 0 2;
  srcPort ← get_u16 srcField;
  dstField ← slice payload 2 4;
  dstPort ← get_u16 dstField;
  data ← slice payload udpHeaderLen length;
  Ok (srcPort, dstPort, data).

Definition buildUDP (dst src dstAddr : bytes) (srcPort dstPort : Z) (payload : bytes)
    : outcome udp_error bytes :=
  BuildUDP dst src dstAddr srcPort dstPort payload.

(** ** Listeners *)

(** [UDPDropPolicy] is an [int]: values other than the two constants exist. *)
Definition UDPDropNewest : Z := 0.
Definition UDPDropOldest : Z := 1.

Record UDPOptions := mkUDPOptions { QueueDepth : Z; DropPolicy : Z }.

(** The sender's address and port, and the payload. *)
Record udpDatagram := mkDatagram { dg_ip : bytes; dg_port : Z; dg_data : bytes }.

#[export] Instance udpDatagram_eq_dec : EqDecision udpDatagram.
Proof. solve_decision. Defined.

Record udpConn := mkUdpConn {
  c_port : Z;
  c_policy : Z;
  c_depth : Z;                      (* the capacity of [inbound] *)
  c_inbound : list udpDatagram;
  c_closed : bool;
  c_readDeadline : Deadline.deadlineTimer;
  c_writeDeadline : Deadline.deadlineTimer;
}.

Record udpDemux := mkUdpDemux {
  ports : gmap Z nat;
  noListenerDropped : Z;
  badChecksumDropped : Z;
  queueFullDropped : Z;
  conns : gmap nat udpConn;         (* the listener objects *)
  next : nat;                       (* the identity of the next one *)
}.

Definition set_inbound (q : list udpDatagram) (c : udpConn) : udpConn :=
  mkUdpConn (c_port c) (c_policy c) (c_depth c) q (c_closed c) (c_readDeadline c) (c_writeDeadline c).
Definition set_deadlines (r w : Deadline.deadlineTimer) (c : udpConn) : udpConn :=
  mkUdpConn (c_port c) (c_policy c) (c_depth c) (c_inbound c) (c_closed c) r w.
Definition set_conns (h : gmap nat udpConn) (d : udpDemux) : udpDemux :=
  mkUdpDemux (ports d) (noListenerDropped d) (badChecksumDropped d) (queueFullDropped d) h (next d).
Definition set_ports (m : gmap Z nat) (d : udpDemux) : udpDemux :=
  mkUdpDemux m (noListenerDropped d) (badChecksumDropped d) (queueFullDropped d) (conns d) (next d).
Definition add_noListener (d : udpDemux) : udpDemux :=
  mkUdpDemux (ports d) (u64 (noListenerDropped d + 1)) (badChecksumDropped d) (queueFullDropped d)
    (conns d) (next d).
Definition add_badChecksum (d : udpDemux) : udpDemux :=
  mkUdpDemux (ports d) (noListenerDropped d) (u64 (badChecksumDropped d + 1)) (queueFullDropped d)
    (conns d) (next d).
Definition add_queueFull (d : udpDemux) : udpDemux :=
  mkUdpDemux (ports d) (noListenerDropped d) (badChecksumDropped d) (u64 (queueFullDropped d + 1))
    (conns d) (next d).

Definition newUDPConn (port depth policy : Z) : udpConn :=
  mkUdpConn port policy depth [] false Deadline.newDeadlineTimer Deadline.newDeadlineTimer.

(** The demux that is registered, or a new one that becomes it.  [d] is the demux
    behind [s.udpHandler] when that is one; the type assertion on another handler
    panics. *)
Definition udpDemuxFor (s : Stack.Stack) (d : option udpDemux) : outcome udp_error (Stack.Stack * udpDemux) :=
  match d with
  | Some d => Ok (s, d)
  | None =>
      match Stack.registerUDPHandler s with
      | (Ok _, s) => Ok (s, mkUdpDemux ∅ 0 0 0 ∅ 0)
      | _ => Panic
      end
  end.

(** The result is the identity of the listener; the stack and the demux as they
    are left, also on an error. *)
Definition ListenUDPOptions (s : Stack.Stack) (d : option udpDemux) (port : Z) (opts : UDPOptions)
    : outcome udp_error nat * (Stack.Stack * option udpDemux) :=
  if port =? 0 then (Err ErrUDPPortZero, (s, d)) else
  if QueueDepth opts <? 0 then (Err ErrInvalidUDPQueueDepth, (s, d)) else
  if negb (DropPolicy opts =? UDPDropNewest) && negb (DropPolicy opts =? UDPDropOldest)
  then (Err ErrInvalidUDPDropPolicy, (s, d)) else
  let depth := if QueueDepth opts =? 0 then udpQueueDepth else QueueDepth opts in
  match udpDemuxFor s d with
  | Err e => (Err e, (s, d))
  | Panic => (Panic, (s, d))
  | Ok (s, demux) =>
      match ports demux !! port with
      | Some _ => (Err ErrUDPPortInUse, (s, Some demux))
      | None =>
          let id := next demux in
          (Ok id, (s, Some (mkUdpDemux (<[port := id]> (ports demux)) (noListenerDropped demux)
                              (badChecksumDropped demux) (queueFullDropped demux)
                              (<[id := newUDPConn port depth (DropPolicy opts)]> (conns demux)) (S id))))
      end
  end.

Definition ListenUDP (s : Stack.Stack) (d : option udpDemux) (port : Z)
    : outcome udp_error nat * (Stack.Stack * option udpDemux) :=
  ListenUDPOptions s d port (mkUDPOptions 0 UDPDropNewest).

(** ** Inbound *)

(** [select { case ch <- x: .. default: .. }] on a buffered channel. *)
Definition trySend (depth : Z) (q : list udpDatagram) (x : udpDatagram) : option (list udpDatagram) :=
  if zlen q <? depth then Some (q ++ [x]) else None.

(** [select { case <-ch: default: }]. *)
Definition tryRecv (q : list udpDatagram) : list udpDatagram := tail q.

(** The switch on the policy: the channel afterwards, and whether
    [queueFullDropped] is incremented.  [env1] and [env2] are what other
    goroutines do to the channel between the selects of the drop-oldest branch. *)
Definition enqueue (env1 env2 : list udpDatagram -> list udpDatagram) (policy depth : Z)
    (q : list udpDatagram) (x : udpDatagram) : list udpDatagram * bool :=
  match trySend depth q x with
  | Some q => (q, false)
  | None =>
      if policy =? UDPDropOldest then
        let q := env2 (tryRecv (env1 q)) in
        (default q (trySend depth q x), true)
      else (q, true)
  end.

(** No other goroutine touches the channel. *)
Definition alone (q : list udpDatagram) : list udpDatagram := q.

(** The checksum test of [handlePacket]. *)
Definition checksumOK (src dst payload data : bytes) : outcome udp_error bool :=
  wireField ← slice payload 6 8;
  wireChecksum ← get_u16 wireField;
  if wireChecksum =? 0 then Ok true else
  segment ← slice payload 0 (udpHeaderLen + zlen data);
  segment ← put16 segment 6 0;
  let computed := TransportChecksum src dst ProtocolUDP segment in
  let computed := if computed =? 0 then 65535 else computed in
  Ok (computed =? wireChecksum).

(** The part of [handlePacket] under [d.mu]: the port lookup and the enqueue. *)
Definition deliver (d : udpDemux) (dstPort : Z) (dgram : udpDatagram) : udpDemux :=
  match ports d !! dstPort ≫= fun id => c ← conns d !! id; Some (id, c) with
  | None => add_noListener d
  | Some (id, conn) =>
      let '(q, full) := enqueue alone alone (c_policy conn) (c_depth conn) (c_inbound conn) dgram in
      let d := set_conns (<[id := set_inbound q conn]> (conns d)) d in
      if full then add_queueFull d else d
  end.

Definition handlePacket (s : Stack.Stack) (d : udpDemux) (src dst payload : bytes)
    : outcome udp_error (Stack.Stack * udpDemux) :=
  match parseUDP payload with
  | Panic => Panic
  | Err _ => Ok (Stack.count s Stack.malformedDropped, d)
  | Ok (srcPort, dstPort, data) =>
      valid ← checksumOK src dst payload data;
      if negb valid then Ok (s, add_badChecksum d)
      else Ok (s, deliver d dstPort (mkDatagram src srcPort data))
  end.

(** ** The socket's methods *)

Inductive read_result :=
  | RdErr (e : udp_error)
  | RdData (p : bytes) (ip : bytes) (port : Z)   (* the bytes copied, the sender *)
  | RdBlocks.

(** The two selects at the top of [ReadFrom]. *)
Definition readEntry (c : udpConn) : option udp_error :=
  if c_closed c then Some ErrClosed else
  if Deadline.passed (c_readDeadline c) then Some errDeadlineExceeded else None.

(** The cases of the last select that are ready. *)
Definition readReady (c : udpConn) (n : nat) : list (read_result * udpConn) :=
  match c_inbound c with
  | x :: q => [(RdData (take n (dg_data x)) (dg_ip x) (dg_port x), set_inbound q c)]
  | [] => []
  end ++
  (if c_closed c then [(RdErr ErrClosed, c)] else []) ++
  (if Deadline.passed (c_readDeadline c) then [(RdErr errDeadlineExceeded, c)] else []).

(** The last select in the state [c] it is evaluated in; [pick] is the runtime's
    choice among the ready cases. *)
Definition readSelect (c : udpConn) (n pick : nat) : read_result * udpConn :=
  match readReady c n with
  | [] => (RdBlocks, c)
  | r :: rs => nth (pick mod length (r :: rs)) (r :: rs) r
  end.

(** [n] is the length of the caller's buffer.  Nothing happens between the
    selects; a call that blocks goes on as [readSelect] in a later state. *)
Definition ReadFrom (c : udpConn) (n pick : nat) : read_result * udpConn :=
  match readEntry c with
  | Some e => (RdErr e, c)
  | None => readSelect c n pick
  end.

(** The dynamic value of a [net.Addr]. *)
Inductive net_addr :=
  | UDPAddr (ip : option bytes) (port : Z)   (* a [*net.UDPAddr]; [None] is the nil IP *)
  | NilUDPAddr                               (* a nil [*net.UDPAddr] in the interface *)
  | OtherAddr.                               (* any other type, or the nil interface *)

Section Outbound.
Context (writeOK : nat -> bytes -> bool).

(** The count returned and the error ([None] for nil), the stack, the writes. *)
Definition WriteTo (s : Stack.Stack) (c : udpConn) (p : bytes) (addr : net_addr)
    : outcome udp_error (Z * option udp_error * Stack.Stack * list Stack.action) :=
  let fail e := Ok (0, Some e, s, []) in
  if c_closed c then fail ErrClosed else
  if Deadline.passed (c_writeDeadline c) then fail errDeadlineExceeded else
  match addr with
  | OtherAddr => fail ErrUDPInvalidAddr
  | NilUDPAddr => Panic
  | UDPAddr None _ => fail ErrUDPInvalidAddr
  | UDPAddr (Some ip) port =>
      match IpPool.to4 ip with
      | None => fail ErrUDPInvalidAddr
      | Some dstAddr =>
          if maxUDPPayload <? zlen p then fail ErrUDPPayloadTooLarge else
          let serverIP := Stack.s_serverIP s in
          match Stack.s_routes s !! dstAddr with
          | None => fail ErrUDPNoRoute
          | Some att =>
              datagram ← buildUDP [] serverIP dstAddr (c_port c) (u16 port) p;
              match IPv4.buildIPv4 [] serverIP dstAddr ProtocolUDP datagram with
              | Ok pkt =>
                  match Stack.writePacket writeOK s att pkt with
                  | Ok (Some e, s, acts) => Ok (0, Some (ErrWrite e), s, acts)
                  | Ok (None, s, acts) => Ok (zlen p, None, s, acts)
                  | _ => Panic
                  end
              | _ => Panic
              end
          end
      end
  end.
End Outbound.

(** The body of [closeOnce]; [c_closed] is set by its last step. *)
Definition Close (d : udpDemux) (id : nat) : udpDemux :=
  match conns d !! id with
  | None => d
  | Some c =>
      if c_closed c then d else
      let d := if bool_decide (ports d !! c_port c = Some id)
               then set_ports (delete (c_port c) (ports d)) d else d in
      set_conns (<[id := mkUdpConn (c_port c) (c_policy c) (c_depth c) (c_inbound c) true
                           (Deadline.stop (c_readDeadline c)) (Deadline.stop (c_writeDeadline c))]>
                   (conns d)) d
  end.

Definition LocalAddr (s : Stack.Stack) (c : udpConn) : net_addr :=
  UDPAddr (Some (Stack.s_serverIP s)) (c_port c).

Definition SetReadDeadline (now : Z) (t : option Z) (c : udpConn) : outcome unit udpConn :=
  r ← Deadline.set (c_readDeadline c) now t; Ok (set_deadlines r (c_writeDeadline c) c).
Definition SetWriteDeadline (now : Z) (t : option Z) (c : udpConn) : outcome unit udpConn :=
  w ← Deadline.set (c_writeDeadline c) now t; Ok (set_deadlines (c_readDeadline c) w c).
Definition SetDeadline (now : Z) (t : option Z) (c : udpConn) : outcome unit udpConn :=
  r ← Deadline.set (c_readDeadline c) now t;
  w ← Deadline.set (c_writeDeadline c) now t;
  Ok (set_deadlines r w c).

(** [QueueFullDropped], [NoListenerDropped], [BadChecksumDropped]. *)
Definition UDPStats (d : option udpDemux) : Z * Z * Z :=
  match d with
  | None => (0, 0, 0)
  | Some d => (queueFullDropped d, noListenerDropped d, badChecksumDropped d)
  end.

(** ** The datagram format *)

(** RFC 768's header: [payload] begins with a datagram from [sp] to [dp] with
    checksum field [ck] and [data]. *)
Definition udp_segment (sp dp ck : Z) (data : bytes) : bytes :=
  be16 sp ++ be16 dp ++ be16 (8 + zlen data) ++ be16 ck ++ data.
Definition is_datagram (payload : bytes) (sp dp ck : Z) (data : bytes) : Prop :=
  is_u16 sp /\ is_u16 dp /\ is_u16 ck /\ zlen data <= 65527 /\
  exists rest, payload = udp_segment sp dp ck data ++ rest.

(** RFC 768's rule for a receiver: no checksum, or the one's-complement sum over
    pseudo-header and datagram, checksum included, is all ones. *)
Definition rfc_accepts (src dst : bytes) (sp dp ck : Z) (data : bytes) : bool :=
  (ck =? 0) || (TransportChecksum src dst ProtocolUDP (udp_segment sp dp ck data) =? 0).

Lemma segment_len (sp dp ck : Z) (data : bytes) : zlen (udp_segment sp dp ck data) = 8 + zlen data.
Proof. unfold udp_segment. rewrite !zlen_app, !be16_length. lia. Qed.

Lemma slice_field (l pre : bytes) (x y i j : Z) (post : bytes) :
  l = pre ++ x :: y :: post -> zlen pre = i -> j = i + 2 -> slice (E := udp_error) l i j = Ok [x; y].
Proof.
  intros -> <- ->. pose proof (zlen_nonneg pre). pose proof (zlen_nonneg post).
  rewrite slice_ok by (rewrite ?zlen_app, ?zlen_cons; lia).
  replace (Z.to_nat (zlen pre)) with (length pre) by (unfold zlen; lia).
  rewrite drop_app_length. by replace (Z.to_nat _) with 2%nat by lia.
Qed.

(** [parseUDP] on a payload with at least eight bytes. *)
Lemma parseUDP_fields (b0 b1 b2 b3 b4 b5 b6 b7 : Z) (tl : bytes) :
  let l := b4 * 256 + b5 in
  parseUDP (b0 :: b1 :: b2 :: b3 :: b4 :: b5 :: b6 :: b7 :: tl) =
  if (l <? 8) || (8 + zlen tl <? l) then Err errUDPBadLength
  else Ok (b0 * 256 + b1, b2 * 256 + b3, take (Z.to_nat (l - 8)) tl).
Proof.
  set (p := b0 :: _). pose proof (zlen_nonneg tl).
  assert (Hz : zlen p = 8 + zlen tl) by (unfold p; rewrite !zlen_cons; lia).
  unfold parseUDP, udpHeaderLen, UDPHeaderLen. rewrite Hz, (proj2 (Z.ltb_ge _ _)) by lia.
  rewrite (slice_field p [b0; b1; b2; b3] b4 b5 4 6 (b6 :: b7 :: tl)) by done.
  rewrite (slice_field p [] b0 b1 0 2 (b2 :: b3 :: b4 :: b5 :: b6 :: b7 :: tl)) by done.
  rewrite (slice_field p [b0; b1] b2 b3 2 4 (b4 :: b5 :: b6 :: b7 :: tl)) by done.
  outcome_simpl. cbn [get_u16]. outcome_simpl. set (l := b4 * 256 + b5).
  destruct (Z.ltb_spec l 8); [done|]. destruct (Z.ltb_spec (8 + zlen tl) l); [done|]. cbn [orb].
  by rewrite slice_ok by lia.
Qed.

(** [parseUDP] accepts exactly the payloads that begin with a datagram. *)
Lemma parseUDP_decides (payload : bytes) :
  bytes_ok payload ->
  match parseUDP payload with
  | Ok (sp, dp, data) => exists ck, is_datagram payload sp dp ck data
  | Err _ => forall sp dp ck data, ~ is_datagram payload sp dp ck data
  | Panic => False
  end.
Proof.
  intros Hok. destruct (Z.ltb_spec (zlen payload) 8) as [Hs|Hs].
  { unfold parseUDP. rewrite (proj2 (Z.ltb_lt _ _)) by done. intros sp dp ck data (_ & _ & _ & _ & r & ->).
    rewrite zlen_app, segment_len in Hs. pose proof (zlen_nonneg data). pose proof (zlen_nonneg r). lia. }
  destruct payload as [|b0 [|b1 [|b2 [|b3 [|b4 [|b5 [|b6 [|b7 tl]]]]]]]]; try (vm_compute in Hs; by destruct Hs).
  rewrite parseUDP_fields. set (l := b4 * 256 + b5).
  unfold bytes_ok in Hok. rewrite !Forall_cons in Hok.
  destruct Hok as (? & ? & ? & ? & ? & ? & ? & ? & Htl). pose proof (zlen_nonneg tl).
  destruct ((l <? 8) || (8 + zlen tl <? l)) eqn:Hb.
  - intros sp dp ck data (_ & _ & _ & Hd & r & E). pose proof (zlen_nonneg data).
    unfold udp_segment, be16 in E. cbn in E. injection E as _ _ _ _ E4 E5 _ _ E8.
    assert (Hl : l = 8 + zlen data) by (unfold l; rewrite E4, E5; word_lia).
    subst tl. rewrite zlen_app in Hb. pose proof (zlen_nonneg r). bool_cases; (done || lia).
  - assert (Hl : 8 <= l <= 8 + zlen tl) by (bool_cases; (done || lia)).
    assert (Hz : zlen (take (Z.to_nat (l - 8)) tl) = l - 8) by (rewrite zlen_take; lia).
    exists (b6 * 256 + b7). unfold is_datagram, udp_segment. rewrite Hz.
    split_and!; try word_lia. exists (drop (Z.to_nat (l - 8)) tl).
    rewrite <- !(assoc_L (++)), take_drop. replace (8 + (l - 8)) with l by lia. unfold l, be16. cbn.
    repeat f_equal; word_lia.
Qed.

(** A payload begins with at most one datagram. *)
Lemma is_datagram_parse (payload : bytes) (sp dp ck : Z) (data : bytes) :
  bytes_ok payload -> is_datagram payload sp dp ck data -> parseUDP payload = Ok (sp, dp, data).
Proof.
  intros Hok (Hsp & Hdp & Hck & Hd & r & ->). unfold udp_segment, be16. cbn [app].
  rewrite parseUDP_fields. pose proof (zlen_nonneg data). pose proof (zlen_nonneg r).
  replace (u8 ((8 + zlen data) / 256) * 256 + u8 (8 + zlen data)) with (8 + zlen data) by word_lia.
  rewrite zlen_app, !(proj2 (Z.ltb_ge _ _)) by lia. cbn [orb].
  replace (Z.to_nat (8 + zlen data - 8)) with (length data) by (unfold zlen; lia).
  rewrite take_app_length. repeat f_equal; word_lia.
Qed.

(** ** The checksum test *)

(** Comparing with the recomputed checksum (zero sent as all ones) is the same as
    summing to all ones. *)
Lemma checksum_compare (sum w : Z) :
  0 < sum -> sum + 65535 < 4294967296 -> 0 < w < 65536 ->
  let ck := complement16 (fold16 sum) in
  (if ck =? 0 then 65535 else ck) = w <-> complement16 (fold16 (sum + w)) = 0.
Proof.
  intros Hs Hb Hw. pose proof (fold16_done sum ltac:(unfold is_u32; lia)) as B1.
  pose proof (fold16_done (sum + w) ltac:(unfold is_u32; lia)) as B2.
  unfold complement16. rewrite !u16_id by (unfold is_u16; lia).
  rewrite !fold16_spec in * by (unfold is_u32; lia).
  rewrite (proj2 (Z.eqb_neq sum 0)), (proj2 (Z.eqb_neq (sum + w) 0)) in * by lia.
  cbn zeta. destruct (Z.eqb_spec (65535 - ((sum - 1) mod 65535 + 1)) 0); word_lia.
Qed.

Lemma bytes_ok_data (payload : bytes) (sp dp ck : Z) (data : bytes) :
  bytes_ok payload -> is_datagram payload sp dp ck data -> bytes_ok data.
Proof.
  intros Hok (_ & _ & _ & _ & r & ->). unfold udp_segment in Hok. rewrite !bytes_ok_app in Hok. by destruct Hok as ((_ & _ & _ & _ & ?) & _).
Qed.

Lemma checksumOK_rfc (src dst payload : bytes) (sp dp ck : Z) (data : bytes) :
  is_addr src -> is_addr dst -> bytes_ok payload -> is_datagram payload sp dp ck data ->
  checksumOK src dst payload data = Ok (rfc_accepts src dst sp dp ck data).
Proof.
  intros Hs Hd Hok Hdg. pose proof (bytes_ok_data _ _ _ _ _ Hok Hdg) as Hdat.
  destruct Hdg as (Hsp & Hdp & Hck & Hlen & r & ->). pose proof (zlen_nonneg data).
  set (a := be16 sp ++ be16 dp ++ be16 (8 + zlen data)).
  assert (Hseg : forall v, udp_segment sp dp v data = a ++ be16 v ++ data)
    by (intros v; unfold udp_segment, a; by rewrite <- !(assoc_L (++))).
  assert (Ha : bytes_ok a) by (unfold a; repeat (apply bytes_ok_app; split); apply be16_bytes).
  assert (Hwa : wsum a = sp + dp + (8 + zlen data)).
  { unfold a. rewrite !wsum_app, !wsum_be16 by (done || (exists 1%nat; done) || (unfold is_u16; lia)). lia. }
  unfold checksumOK, rfc_accepts. rewrite !Hseg.
  rewrite (slice_field _ a (u8 (ck / 256)) (u8 ck) 6 8 (data ++ r)) by (done || (unfold be16; by rewrite <- !(assoc_L (++)))).
  outcome_simpl. rewrite (get_be16 ck []) by done. outcome_simpl.
  destruct (Z.eqb_spec ck 0) as [|Hne]; [done|]. cbn [orb].
  rewrite slice_app_l by (rewrite <- Hseg; apply segment_len). outcome_simpl.
  change (be16 ck) with [u8 (ck / 256); u8 ck] at 1. rewrite put16_at by done. outcome_simpl. f_equal.
  unfold TransportChecksum. rewrite !zlen_app, !be16_length.
  change (zlen a) with 6. set (base := PseudoHeaderSum _ _ _ _).
  assert (Hbase : 0 <= base <= 65535 * 5 + 255)
    by (apply PseudoHeaderSum_bounds; [done|done|decide_now|apply u16_range]).
  pose proof (wsum_bounds data Hdat) as B. assert (B3 : (zlen data + 1) / 2 <= 32764) by (apply Z.div_le_upper_bound; lia).
  unfold is_u16 in *. rewrite !sumWords_field by (done || (by exists 3%nat) || (unfold is_u16; lia)).
  apply eq_bool_prop_intro. rewrite !Is_true_true, !Z.eqb_eq, Z.add_0_r. apply checksum_compare; lia.
Qed.

Lemma handlePacket_datagram (s : Stack.Stack) (d : udpDemux) (src dst payload : bytes) (sp dp ck : Z) (data : bytes) :
  is_addr src -> is_addr dst -> bytes_ok payload -> is_datagram payload sp dp ck data ->
  handlePacket s d src dst payload =
  Ok (s, if rfc_accepts src dst sp dp ck data then deliver d dp (mkDatagram src sp data) else add_badChecksum d).
Proof.
  intros Hs Hd Hok Hdg. unfold handlePacket.
  rewrite (is_datagram_parse _ _ _ _ _ Hok Hdg), (checksumOK_rfc _ _ _ _ _ _ _ Hs Hd Hok Hdg).
  outcome_simpl. by destruct (rfc_accepts _ _ _ _ _ _).
Qed.

(** The verdict on an inbound datagram: whatever the payload, [handlePacket]
    does not panic; a payload that does not begin with an RFC 768 datagram only
    counts as malformed; a datagram is handed to its destination port with its
    exact data and sender precisely when RFC 768's receiver rule accepts it (no
    checksum, or the one's-complement sum over pseudo-header and datagram is all
    ones), which is not how the code computes it, and counts as a bad checksum
    otherwise. *)
Theorem handlePacket_verdict (s : Stack.Stack) (d : udpDemux) (src dst payload : bytes) :
  is_addr src -> is_addr dst -> bytes_ok payload ->
  (forall sp dp ck data, is_datagram payload sp dp ck data ->
     handlePacket s d src dst payload =
     Ok (s, if rfc_accepts src dst sp dp ck data then deliver d dp (mkDatagram src sp data)
            else add_badChecksum d)) /\
  ((forall sp dp ck data, ~ is_datagram payload sp dp ck data) ->
     handlePacket s d src dst payload = Ok (Stack.count s Stack.malformedDropped, d)).
Proof.
  intros Hs Hd Hok. split; [intros; by apply handlePacket_datagram|]. intros Hno.
  pose proof (parseUDP_decides payload Hok) as HP. unfold handlePacket.
  destruct (parseUDP payload) as [[[sp dp] data]| |]; [|done..]. by destruct HP as [ck HP%Hno].
Qed.

(** ** Queues *)

(** What a queue of capacity [depth] keeps of everything that arrived. *)
Definition kept (policy depth : Z) (xs : list udpDatagram) : list udpDatagram :=
  if policy =? UDPDropOldest then drop (length xs - Z.to_nat depth) xs else take (Z.to_nat depth) xs.

Lemma kept_short (policy depth : Z) (xs : list udpDatagram) : zlen xs <= depth -> kept policy depth xs = xs.
Proof.
  intros Hl. unfold kept, zlen in *. destruct (policy =? UDPDropOldest).
  - by replace (length xs - Z.to_nat depth)%nat with 0%nat by lia.
  - apply take_ge. lia.
Qed.

Lemma kept_len (policy depth : Z) (xs : list udpDatagram) :
  0 <= depth -> zlen (kept policy depth xs) = Z.min depth (zlen xs).
Proof.
  intros Hd. unfold kept, zlen. destruct (policy =? UDPDropOldest).
  - rewrite length_drop. lia.
  - rewrite length_take. lia.
Qed.

(** One arrival keeps what the policy says of everything so far. *)
Lemma enqueue_kept (policy depth : Z) (xs : list udpDatagram) (x : udpDatagram) :
  1 <= depth ->
  enqueue alone alone policy depth (kept policy depth xs) x =
  (kept policy depth (xs ++ [x]), depth <? zlen (xs ++ [x])).
Proof.
  intros Hd. unfold enqueue, trySend. rewrite kept_len by lia. rewrite zlen_app. change (zlen [x]) with 1.
  destruct (Z.ltb_spec (Z.min depth (zlen xs)) depth) as [Hlt|Hge].
  - rewrite (proj2 (Z.ltb_ge _ _)) by lia. f_equal.
    by rewrite !kept_short by (rewrite ?zlen_app; change (zlen [x]) with 1; lia).
  - rewrite (proj2 (Z.ltb_lt depth (zlen xs + 1))) by lia. unfold kept. unfold zlen in *.
    destruct (policy =? UDPDropOldest); f_equal.
    + unfold alone, tryRecv. rewrite length_app. change (length [x]) with 1%nat.
      replace (length xs + 1 - Z.to_nat depth)%nat with (length xs - Z.to_nat depth + 1)%nat by lia.
      rewrite drop_app_le by lia. rewrite <- (drop_drop _ 1).
      set (q := drop (length xs - Z.to_nat depth) xs).
      assert (length q = Z.to_nat depth) by (unfold q; rewrite length_drop; lia).
      destruct q as [|y q]; [cbn in *; lia|]. cbn [tail drop]. cbn in *.
      by rewrite (proj2 (Z.ltb_lt _ _)) by lia.
    + by rewrite take_app_le by lia.
Qed.

(** ** From senders to a reader *)

(** The datagrams [msgs], each built by its sender for [port] at [dst], arrive one
    after the other. *)
Fixpoint exchange (s : Stack.Stack) (d : udpDemux) (dst : bytes) (port : Z) (msgs : list udpDatagram)
    : outcome udp_error (Stack.Stack * udpDemux) :=
  match msgs with
  | [] => Ok (s, d)
  | m :: msgs =>
      pkt ← buildUDP [] (dg_ip m) dst (dg_port m) port (dg_data m);
      '(s, d) ← handlePacket s d (dg_ip m) dst pkt;
      exchange s d dst port msgs
  end.

(** [k] calls of [ReadFrom] with a buffer of [n] bytes. *)
Fixpoint reads (k : nat) (c : udpConn) (n pick : nat) : list read_result :=
  match k with
  | O => []
  | S k => let '(r, c) := ReadFrom c n pick in r :: reads k c n pick
  end.

Definition msg_ok (m : udpDatagram) : Prop :=
  is_addr (dg_ip m) /\ is_u16 (dg_port m) /\ bytes_ok (dg_data m) /\ zlen (dg_data m) <= maxUDPPayload.

#[export] Instance msg_ok_dec (m : udpDatagram) : Decision (msg_ok m).
Proof. unfold msg_ok. apply _. Defined.

(** A built datagram is accepted. *)
Lemma built_accepted (m : udpDatagram) (dst : bytes) (port : Z) :
  msg_ok m -> is_addr dst -> is_u16 port ->
  exists pkt, buildUDP [] (dg_ip m) dst (dg_port m) port (dg_data m) = Ok pkt /\
    bytes_ok pkt /\ zlen pkt = 8 + zlen (dg_data m) /\
    (exists ck, is_datagram pkt (dg_port m) port ck (dg_data m)) /\
    TransportChecksum (dg_ip m) dst ProtocolUDP pkt = 0 /\
    forall s d, handlePacket s d (dg_ip m) dst pkt = Ok (s, deliver d port m).
Proof.
  intros (Hs & Hsp & Hdat & Hlen) Hd Hp. unfold maxUDPPayload in Hlen.
  destruct (BuildUDP_shape (E := udp_error) (dg_ip m) dst (dg_port m) port (dg_data m))
    as (ck & seg & Hck & Hne & Hseg & HB & HT); try done; [lia|].
  assert (Hok : bytes_ok seg) by (subst seg; repeat (apply bytes_ok_app; split); auto with word).
  assert (Hdg : is_datagram seg (dg_port m) port ck (dg_data m)).
  { split_and!; try done; [lia|]. exists []. subst seg. by rewrite app_nil_r. }
  exists seg. split_and!; [done|done|subst seg; apply segment_len|by eexists|done|]. intros s d.
  rewrite (handlePacket_datagram _ _ _ _ _ _ _ _ _ Hs Hd Hok Hdg). unfold rfc_accepts.
  fold (udp_segment (dg_port m) port ck (dg_data m)) in Hseg. rewrite <- Hseg, HT. cbn.
  rewrite orb_true_r. by destruct m.
Qed.

Lemma deliver_bound (d : udpDemux) (port : Z) (id : nat) (c : udpConn) (m : udpDatagram) :
  ports d !! port = Some id -> conns d !! id = Some c -> 
  let r := enqueue alone alone (c_policy c) (c_depth c) (c_inbound c) m in
  deliver d port m =
  mkUdpDemux (ports d) (noListenerDropped d) (badChecksumDropped d)
    (if r.2 then u64 (queueFullDropped d + 1) else queueFullDropped d)
    (<[id := set_inbound r.1 c]> (conns d)) (next d).
Proof.
  intros Hp Hc r. unfold deliver. rewrite Hp. cbn. rewrite Hc. cbn. fold r. by destruct r as [q [|]].
Qed.

Lemma exchange_kept (dst : bytes) (port : Z) (id : nat) (msgs : list udpDatagram) :
  is_addr dst -> is_u16 port -> Forall msg_ok msgs ->
  forall (s : Stack.Stack) (d : udpDemux) (c : udpConn) (xs : list udpDatagram),
  ports d !! port = Some id -> conns d !! id = Some c -> 1 <= c_depth c ->
  c_inbound c = kept (c_policy c) (c_depth c) xs -> zlen (c_inbound c) = Z.min (c_depth c) (zlen xs) ->
  exists lost, (lost = length (xs ++ msgs) - Nat.max (length xs) (Z.to_nat (c_depth c)))%nat /\
  exchange s d dst port msgs =
  Ok (s, mkUdpDemux (ports d) (noListenerDropped d) (badChecksumDropped d)
           (Nat.iter lost (fun x => u64 (x + 1)) (queueFullDropped d))
           (<[id := set_inbound (kept (c_policy c) (c_depth c) (xs ++ msgs)) c]> (conns d)) (next d)).
Proof.
  intros Hd Hp Hms. induction Hms as [|m msgs Hm _ IH]; intros s d c xs Hport Hc Hdep Hq Hl; cbn [exchange].
  { eexists. split; [done|]. rewrite app_nil_r. rewrite <- Hq.
    replace (_ - _)%nat with 0%nat by lia. cbn. rewrite insert_id; [by destruct d|]. by destruct c. }
  destruct (built_accepted m dst port Hm Hd Hp) as (pkt & HB & _ & _ & _ & _ & HH).
  rewrite HB. outcome_simpl. rewrite HH. outcome_simpl.
  rewrite (deliver_bound d port id c m Hport Hc). rewrite Hq, enqueue_kept by done. cbn [fst snd].
  set (c' := set_inbound (kept (c_policy c) (c_depth c) (xs ++ [m])) c).
  set (d' := mkUdpDemux _ _ _ _ (<[id := c']> (conns d)) _).
  destruct (IH s d' c' (xs ++ [m])) as (lost & Hlost & HE); try done.
  - cbn. by rewrite lookup_insert_eq.
  - cbn. rewrite kept_len by lia. done.
  - rewrite HE. rewrite <- (assoc_L (++)). cbn [app]. eexists. split; [done|]. f_equal. f_equal.
    unfold d', c'. cbn. rewrite insert_insert_eq. f_equal.
    rewrite Hlost, !length_app. unfold zlen. rewrite length_app. cbn [length c_depth set_inbound].
    destruct (Z.ltb_spec (c_depth c) (Z.of_nat (length xs + 1))).
    + rewrite <- (Nat.iter_succ_r _ (fun x => u64 (x + 1))). f_equal. change (c_depth c') with (c_depth c). lia.
    + f_equal. change (c_depth c') with (c_depth c). lia.
Qed.

Lemma ReadFrom_head (c : udpConn) (x : udpDatagram) (q : list udpDatagram) (n pick : nat) :
  readEntry c = None -> c_inbound c = x :: q ->
  ReadFrom c n pick = (RdData (take n (dg_data x)) (dg_ip x) (dg_port x), set_inbound q c).
Proof.
  unfold ReadFrom, readSelect, readReady, readEntry. intros He Hq. rewrite Hq.
  destruct (c_closed c); [done|]. destruct (Deadline.passed (c_readDeadline c)); [done|].
  cbn [app length nth]. by rewrite Nat.mod_1_r.
Qed.

Lemma reads_queue (q : list udpDatagram) (c : udpConn) (n pick : nat) :
  readEntry c = None -> c_inbound c = q ->
  reads (S (length q)) c n pick =
  map (fun x => RdData (take n (dg_data x)) (dg_ip x) (dg_port x)) q ++ [RdBlocks].
Proof.
  revert c. induction q as [|x q IH]; intros c He Hq.
  - cbn. unfold ReadFrom. rewrite He. unfold readSelect, readReady. rewrite Hq. unfold readEntry in He.
    destruct (c_closed c); [done|]. by destruct (Deadline.passed (c_readDeadline c)).
  - cbn [length]. cbn [reads]. rewrite (ReadFrom_head c x q n pick He Hq). cbn [map app]. f_equal.
    by apply (IH (set_inbound q c)).
Qed.

(** C34. From senders to a reader: datagrams built for a bound port, arriving in any
    number at a listener with an empty queue, are all accepted; the listener then
    holds, in order, the first [depth] of them under drop-newest and the last
    [depth] under drop-oldest, every lost one counted once; nothing else of the
    demux changes; and as long as the listener is open and its deadline has not
    passed, [ReadFrom] returns exactly those, in order, each cut to the caller's
    buffer, with its sender's address and port, and then blocks. *)
Theorem udp_delivery (s : Stack.Stack) (d : udpDemux) (dst : bytes) (port : Z) (id : nat) (c : udpConn)
    (msgs : list udpDatagram) (n pick : nat) :
  is_addr dst -> is_u16 port -> Forall msg_ok msgs ->
  ports d !! port = Some id -> conns d !! id = Some c -> 1 <= c_depth c -> c_inbound c = [] ->
  let q := kept (c_policy c) (c_depth c) msgs in
  let c' := set_inbound q c in
  exchange s d dst port msgs =
    Ok (s, mkUdpDemux (ports d) (noListenerDropped d) (badChecksumDropped d)
             (Nat.iter (length msgs - Z.to_nat (c_depth c)) (fun x => u64 (x + 1)) (queueFullDropped d))
             (<[id := c']> (conns d)) (next d)) /\
  (readEntry c = None ->
   reads (S (length q)) c' n pick =
   map (fun x => RdData (take n (dg_data x)) (dg_ip x) (dg_port x)) q ++ [RdBlocks]).
Proof.
  intros Hd Hp Hms Hport Hc Hdep Hq q c'. split; [|intros He; by apply reads_queue].
  destruct (exchange_kept dst port id msgs Hd Hp Hms s d c [] Hport Hc Hdep) as (lost & -> & HE).
  - rewrite Hq. by rewrite kept_short by (change (zlen (@nil udpDatagram)) with 0; lia).
  - rewrite Hq. change (zlen (@nil udpDatagram)) with 0. lia.
  - rewrite HE. by repeat f_equal.
Qed.

(** With other goroutines at work between the selects the queue stays bounded, and
    a datagram that finds room at first is never counted as lost. *)
Lemma enqueue_interference (env1 env2 : list udpDatagram -> list udpDatagram) (policy depth : Z)
    (q : list udpDatagram) (x : udpDatagram) :
  (forall q, zlen q <= depth -> zlen (env1 q) <= depth) ->
  (forall q, zlen q <= depth -> zlen (env2 q) <= depth) ->
  zlen q <= depth -> zlen (enqueue env1 env2 policy depth q x).1 <= depth.
Proof.
  intros H1 H2 Hq. unfold enqueue.
  assert (Hsend : forall q, zlen q <= depth -> zlen (default q (trySend depth q x)) <= depth).
  { intros q' Hq'. unfold trySend. destruct (Z.ltb_spec (zlen q') depth); [|done].
    cbn. rewrite zlen_app. change (zlen [x]) with 1. lia. }
  pose proof (Hsend q Hq) as Hs. destruct (trySend depth q x); [done|].
  destruct (policy =? UDPDropOldest); [|done]. apply Hsend, H2.
  etrans; [|apply (H1 q Hq)]. unfold tryRecv, zlen. destruct (env1 q); cbn; lia.
Qed.

Module ToyRace.
Definition dg (b : Z) : udpDatagram := mkDatagram [10; 8; 0; 2] 5000 [b].
End ToyRace.

(** A reader that empties the queue between the first send and the eviction: every
    datagram reaches a reader, yet one is counted as lost. *)
Example counted_without_loss :
  enqueue (fun _ => []) alone UDPDropOldest 1 [ToyRace.dg 1] (ToyRace.dg 2) = ([ToyRace.dg 2], true).
Proof. reflexivity. Qed.

(** Another sender that takes the freed slot: two datagrams are lost (the evicted
    one and the arriving one), one is counted here. *)
Example two_lost_one_counted :
  enqueue alone (fun q => q ++ [ToyRace.dg 3]) UDPDropOldest 1 [ToyRace.dg 1] (ToyRace.dg 2) =
  ([ToyRace.dg 3], true).
Proof. reflexivity. Qed.

(** ** Sending *)

(** The destination of a write that is allowed: the attachment, its address. *)
Definition destination (s : Stack.Stack) (c : udpConn) (p : bytes) (addr : net_addr) (a : nat) (dst : bytes)
    (port : Z) : Prop :=
  c_closed c = false /\ Deadline.passed (c_writeDeadline c) = false /\ zlen p <= maxUDPPayload /\
  Stack.s_routes s !! dst = Some a /\ exists ip, addr = UDPAddr (Some ip) port /\ IpPool.to4 ip = Some dst.

Section Sending.
Context (writeOK : nat -> bytes -> bool).

Lemma WriteTo_refused (s : Stack.Stack) (c : udpConn) (p : bytes) (addr : net_addr) :
  (forall a dst port, ~ destination s c p addr a dst port) ->
  (exists e, WriteTo writeOK s c p addr = Ok (0, Some e, s, [])) \/
  (addr = NilUDPAddr /\ WriteTo writeOK s c p addr = Panic).
Proof.
  intros Hno. unfold WriteTo. destruct (c_closed c) eqn:Ec; [left; by eexists|].
  destruct (Deadline.passed (c_writeDeadline c)) eqn:Ed; [left; by eexists|].
  destruct addr as [[ip|] port| |]; [|left; by eexists|by right|left; by eexists].
  destruct (IpPool.to4 ip) as [dst|] eqn:Eip; [|left; by eexists].
  destruct (Z.ltb_spec maxUDPPayload (zlen p)); [left; by eexists|].
  destruct (Stack.s_routes s !! dst) as [a|] eqn:Ea; [|left; by eexists].
  exfalso. apply (Hno a dst port). split_and!; try done. by exists ip.
Qed.

(** [WriteTo] is refused with an error, and nothing is written, unless the
    socket is open, its deadline has not passed, the address is an IPv4
    [*net.UDPAddr], the payload is at most 65507 bytes and a session is attached
    at the address (a nil [*net.UDPAddr] panics); otherwise it hands that session
    alone one IPv4 packet from the server's address to the destination, whose
    payload is the datagram from the socket's port with the caller's bytes and a
    checksum that verifies, as itself if it fits the MTU and as its fragments if
    not; the count is the payload's length exactly when every write succeeded. *)
Theorem WriteTo_spec (s : Stack.Stack) (c : udpConn) (p : bytes) (addr : net_addr) :
  is_addr (Stack.s_serverIP s) -> 576 <= Stack.s_mtu s <= 65535 -> is_u16 (c_port c) -> bytes_ok p ->
  (forall ip port, addr = UDPAddr (Some ip) port -> bytes_ok ip) ->
  ((forall a dst port, ~ destination s c p addr a dst port) ->
   (exists e, WriteTo writeOK s c p addr = Ok (0, Some e, s, [])) \/
   (addr = NilUDPAddr /\ WriteTo writeOK s c p addr = Panic)) /\
  (forall a dst port, destination s c p addr a dst port ->
   exists pkt hdr ck pkts k s',
     WriteTo writeOK s c p addr =
       Ok (if forallb (writeOK a) pkts then zlen p else 0,
           if forallb (writeOK a) pkts then None else Some (ErrWrite Stack.ErrSession),
           s', map (Stack.Write a) (take k pkts)) /\
     Stack.same_core s s' /\ (forallb (writeOK a) pkts = true -> k = length pkts) /\
     IPv4.parseIPv4 pkt = Ok hdr /\ IPv4.h_src hdr = Stack.s_serverIP s /\ IPv4.h_dst hdr = dst /\
     IPv4.h_protocol hdr = ProtocolUDP /\
     is_datagram (IPv4.payload_of hdr pkt) (c_port c) (u16 port) ck p /\
     rfc_accepts (Stack.s_serverIP s) dst (c_port c) (u16 port) ck p = true /\
     Forall (Stack.out_ok s dst) pkts /\
     (if 28 + zlen p <=? Stack.s_mtu s then pkts = [pkt]
      else exists i, IPv4.fragments_of hdr i (Stack.s_mtu s) (IPv4.payload_of hdr pkt) 0 pkts)).
Proof.
  intros Hs Hmtu Hport Hp Hip. split; [apply WriteTo_refused|].
  intros a dst port (Hc & Hdl & Hlen & Ha & ip & -> & Hdst).
  pose proof (Stack.to4_addr ip dst (Hip _ _ eq_refl) Hdst) as Hd. pose proof (zlen_nonneg p).
  unfold WriteTo. rewrite Hc, Hdl, Hdst, (proj2 (Z.ltb_ge _ _)), Ha by done.
  destruct (built_accepted (mkDatagram (Stack.s_serverIP s) (c_port c) p) dst (u16 port))
    as (seg & HB & Hok & Hz & (ck & Hdg) & HT & _); [done|done|apply u16_range|]. cbn [dg_ip dg_port dg_data] in *.
  rewrite HB. outcome_simpl. assert (Hu8 : is_u8 ProtocolUDP) by decide_now. unfold maxUDPPayload in Hlen.
  destruct (BuildIPv4_shape (E := IPv4.ip_error) (Stack.s_serverIP s) dst ProtocolUDP seg Hs Hd Hu8)
    as (ick & hd & _ & _ & HI & Hhl & Hhok & _).
  destruct (IPv4.parse_built (Stack.s_serverIP s) dst ProtocolUDP seg (hd ++ seg) Hs Hd Hu8 ltac:(lia) HI)
    as (HPI & Hdr & HzI & _).
  unfold IPv4.buildIPv4. rewrite HI.
  destruct (Stack.writePacket_ok writeOK s a (hd ++ seg)) as (err & s' & acts & HW & Hcore & HM);
    [by apply bytes_ok_app|done|]. rewrite HW. rewrite HPI in HM. cbn [IPv4.h_src IPv4.h_dst IPv4.h_totalLen] in HM.
  rewrite decide_True in HM by done. destruct HM as (pkts & k & -> & _ & -> & Hk & Hout & _ & Hfr).
  set (hdr := IPv4.mkIPv4Header 20 (20 + zlen seg) ProtocolUDP (Stack.s_serverIP s) dst 20 0 false 0) in *.
  assert (Hpay : IPv4.payload_of hdr (hd ++ seg) = seg).
  { unfold IPv4.payload_of. cbn. change (Z.to_nat 20) with 20%nat. rewrite Hdr. apply take_ge. unfold zlen. lia. }
  exists (hd ++ seg), hdr, ck, pkts, k, s'. rewrite Hpay in *. replace (28 + zlen p) with (20 + zlen seg) by lia.
  split_and!; try done.
  - by destruct (forallb (writeOK a) pkts).
  - intros E. rewrite E in Hk. by apply Hk.
  - unfold rfc_accepts. destruct Hdg as (_ & _ & _ & _ & r & Er).
    assert (r = []) as ->.
    { apply zlen_0_nil. apply (f_equal zlen) in Er. rewrite zlen_app, segment_len in Er. lia. }
    rewrite app_nil_r in Er. rewrite <- Er, HT. apply orb_true_r.
Qed.
End Sending.

(** ** Ports *)

Record conn_ok (d : udpDemux) (id : nat) (c : udpConn) : Prop := {
  ck_id : (id < next d)%nat;
  ck_depth : 1 <= c_depth c;
  ck_queue : zlen (c_inbound c) <= c_depth c;
  ck_policy : c_policy c = UDPDropNewest \/ c_policy c = UDPDropOldest;
  ck_bound : c_closed c = false -> ports d !! c_port c = Some id;
}.

Record udp_inv (d : udpDemux) : Prop := {
  ui_ports : forall p id, ports d !! p = Some id ->
    exists c, conns d !! id = Some c /\ c_port c = p /\ c_closed c = false;
  ui_conns : forall id c, conns d !! id = Some c -> conn_ok d id c;
}.

(** The states of the stack's UDP side: listeners come and go, packets arrive,
    readers run at any time (a read that blocked goes on with the last select). *)
Inductive reachable : Stack.Stack -> option udpDemux -> Prop :=
  | r_init s : Stack.s_udpHandler s = false -> reachable s None
  | r_stack s s' d : reachable s d -> Stack.s_udpHandler s' = Stack.s_udpHandler s -> reachable s' d
  | r_listen s d port opts : reachable s d ->
      reachable (ListenUDPOptions s d port opts).2.1 (ListenUDPOptions s d port opts).2.2
  | r_packet s d src dst payload s' d' : reachable s (Some d) ->
      handlePacket s d src dst payload = Ok (s', d') -> reachable s' (Some d')
  | r_read s d id c n pick : reachable s (Some d) -> conns d !! id = Some c ->
      reachable s (Some (set_conns (<[id := (ReadFrom c n pick).2]> (conns d)) d))
  | r_wake s d id c n pick : reachable s (Some d) -> conns d !! id = Some c ->
      reachable s (Some (set_conns (<[id := (readSelect c n pick).2]> (conns d)) d))
  | r_close s d id : reachable s (Some d) -> reachable s (Some (Close d id))
  | r_deadline s d id c r w : reachable s (Some d) -> conns d !! id = Some c ->
      reachable s (Some (set_conns (<[id := set_deadlines r w c]> (conns d)) d)).

(** Replacing a listener by one that agrees but for the queue and the deadlines. *)
Lemma update_inv (d : udpDemux) (id : nat) (c c' : udpConn) :
  udp_inv d -> conns d !! id = Some c ->
  c_port c' = c_port c -> c_policy c' = c_policy c -> c_depth c' = c_depth c -> c_closed c' = c_closed c ->
  zlen (c_inbound c') <= c_depth c ->
  udp_inv (set_conns (<[id := c']> (conns d)) d).
Proof.
  intros [Hp Hc] Hid Eport Epol Edep Ecl Hq. split; cbn.
  - intros p i Hpi. destruct (Hp p i Hpi) as (x & Hx & Hxp & Hxc). destruct (decide (i = id)) as [->|Hne].
    + rewrite lookup_insert_eq. exists c'. rewrite Hid in Hx. simplify_eq. by rewrite Eport, Ecl.
    + rewrite lookup_insert_ne by done. by exists x.
  - intros i x. destruct (decide (i = id)) as [->|Hne].
    + rewrite lookup_insert_eq. intros [= <-]. destruct (Hc id c Hid) as [H1 H2 H3 H4 H5].
      constructor; cbn; rewrite ?Eport, ?Epol, ?Edep, ?Ecl; done.
    + rewrite lookup_insert_ne by done. intros Hx. by destruct (Hc i x Hx) as [H1 H2 H3 H4 H5].
Qed.

Lemma readSelect_keeps (c : udpConn) (n pick : nat) :
  let c' := (readSelect c n pick).2 in
  c_port c' = c_port c /\ c_policy c' = c_policy c /\ c_depth c' = c_depth c /\ c_closed c' = c_closed c /\
  zlen (c_inbound c') <= zlen (c_inbound c).
Proof.
  unfold readSelect. destruct (readReady c n) as [|r rs] eqn:E; [done|].
  assert (HF : Forall (fun x => x.2 = c \/ exists y q, c_inbound c = y :: q /\ x.2 = set_inbound q c) (r :: rs)).
  { rewrite <- E. unfold readReady. repeat (apply Forall_app; split).
    - destruct (c_inbound c) as [|y q]; constructor; [right; by exists y, q|constructor].
    - destruct (c_closed c); repeat constructor.
    - destruct (Deadline.passed _); repeat constructor. }
  pose proof (nth_In (r :: rs) r (n := pick mod length (r :: rs))) as Hin.
  rewrite Forall_forall in HF. destruct (HF (nth (pick mod length (r :: rs)) (r :: rs) r)) as [Heq|(y & q & Eq & Heq)].
  - apply list_elem_of_In, Hin. apply Nat.mod_upper_bound. done.
  - cbv zeta. by rewrite Heq.
  - cbv zeta. rewrite Heq, Eq. cbn. split_and!; try done. rewrite zlen_cons. lia.
Qed.

Lemma select_inv (d : udpDemux) (id : nat) (c : udpConn) (n pick : nat) :
  udp_inv d -> conns d !! id = Some c ->
  udp_inv (set_conns (<[id := (readSelect c n pick).2]> (conns d)) d).
Proof.
  intros Hi Hid. destruct (readSelect_keeps c n pick) as (H1 & H2 & H3 & H4 & H5).
  apply (update_inv d id c); try done. etrans; [exact H5|]. apply (ck_queue _ _ _ (ui_conns _ Hi id c Hid)).
Qed.

Lemma udp_deliver_inv (d : udpDemux) (port : Z) (m : udpDatagram) : udp_inv d -> udp_inv (deliver d port m).
Proof.
  intros Hi. destruct (ports d !! port) as [id|] eqn:Ep.
  - destruct (ui_ports _ Hi port id Ep) as (c & Hc & _). rewrite (deliver_bound d port id c m Ep Hc).
    set (r := enqueue _ _ _ _ _ _).
    assert (Hu : udp_inv (set_conns (<[id := set_inbound r.1 c]> (conns d)) d)).
    { apply (update_inv d id c); try done. cbn. apply enqueue_interference; try done.
      apply (ck_queue _ _ _ (ui_conns _ Hi id c Hc)). }
    destruct Hu as [H1 H2]. split; [exact H1|]. intros i x Hx. by destruct (H2 i x Hx).
  - unfold deliver. rewrite Ep. cbn. destruct Hi as [H1 H2]. split; [exact H1|].
    intros i x Hx. by destruct (H2 i x Hx).
Qed.

Lemma udp_handlePacket_inv (s s' : Stack.Stack) (d d' : udpDemux) (src dst payload : bytes) :
  handlePacket s d src dst payload = Ok (s', d') ->
  Stack.s_udpHandler s' = Stack.s_udpHandler s /\ (udp_inv d -> udp_inv d').
Proof.
  unfold handlePacket. destruct (parseUDP payload) as [[[sp dp] data]|e|]; [|intros [= <- <-]; done|done].
  destruct (checksumOK src dst payload data) as [[|]| |]; outcome_simpl; cbn; [| |done..].
  - intros [= <- <-]. split; [done|]. apply udp_deliver_inv.
  - intros [= <- <-]. split; [done|]. intros [H1 H2]. split; [exact H1|].
    intros i x Hx. by destruct (H2 i x Hx).
Qed.

Lemma udpClose_inv (d : udpDemux) (id : nat) : udp_inv d -> udp_inv (Close d id).
Proof.
  intros [Hp Hc]. unfold Close. destruct (conns d !! id) as [c|] eqn:Hid; [|done].
  destruct (c_closed c) eqn:Ecl; [done|]. pose proof (Hc id c Hid) as Hok.
  rewrite bool_decide_eq_true_2 by (by apply (ck_bound _ _ _ Hok)). split; cbn.
  - intros p i [Hne Hpi]%lookup_delete_Some. destruct (Hp p i Hpi) as (x & Hx & Hxp & Hxc).
    destruct (decide (i = id)) as [->|Hni]; [congruence|]. rewrite lookup_insert_ne by done. by exists x.
  - intros i x. destruct (decide (i = id)) as [->|Hne].
    + rewrite lookup_insert_eq. intros [= <-]. by destruct Hok.
    + rewrite lookup_insert_ne by done. intros Hx. destruct (Hc i x Hx) as [H1 H2 H3 H4 H5].
      constructor; cbn; try done. intros Hop. rewrite lookup_delete_ne; [by apply H5|].
      intros Eq. pose proof (H5 Hop) as Hb. rewrite <- Eq, (ck_bound _ _ _ Hok Ecl) in Hb. congruence.
Qed.

(** Handler and demux agree. *)
Definition side_inv (s : Stack.Stack) (d : option udpDemux) : Prop :=
  match d with
  | None => Stack.s_udpHandler s = false
  | Some d => Stack.s_udpHandler s = true /\ udp_inv d
  end.

Lemma demuxFor_ok (s : Stack.Stack) (d : option udpDemux) :
  side_inv s d -> exists s', udpDemuxFor s d = Ok (s', default (mkUdpDemux ∅ 0 0 0 ∅ 0) d) /\
    side_inv s' (Some (default (mkUdpDemux ∅ 0 0 0 ∅ 0) d)).
Proof.
  intros Hi. destruct d as [d|]; cbn in *; [by exists s|]. unfold Stack.registerUDPHandler. rewrite Hi.
  eexists. split; [done|]. split; [done|]. split; cbn; intros *; by rewrite lookup_empty.
Qed.

(** The listener [ListenUDPOptions] adds. *)
Lemma udp_listen_inv (d : udpDemux) (port depth policy : Z) :
  udp_inv d -> ports d !! port = None -> 1 <= depth -> policy = UDPDropNewest \/ policy = UDPDropOldest ->
  udp_inv (mkUdpDemux (<[port := next d]> (ports d)) (noListenerDropped d) (badChecksumDropped d)
             (queueFullDropped d) (<[next d := newUDPConn port depth policy]> (conns d)) (S (next d))).
Proof.
  intros [Hp Hc] Hfree Hdep Hpol. split; cbn.
  - intros p i. destruct (decide (p = port)) as [->|Hne].
    + rewrite lookup_insert_eq. intros [= <-]. rewrite lookup_insert_eq. by eexists.
    + rewrite lookup_insert_ne by done. intros Hpi. destruct (Hp p i Hpi) as (x & Hx & Hxp & Hxc).
      rewrite lookup_insert_ne by (pose proof (ck_id _ _ _ (Hc i x Hx)); lia). by exists x.
  - intros i x. destruct (decide (i = next d)) as [->|Hne].
    + rewrite lookup_insert_eq. intros [= <-]. constructor; cbn; [lia|done|change (0 <= depth); lia|done|]. intros _. by rewrite lookup_insert_eq.
    + rewrite lookup_insert_ne by done. intros Hx. destruct (Hc i x Hx) as [H1 H2 H3 H4 H5].
      constructor; cbn; try done; [lia|]. intros Hop. rewrite lookup_insert_ne; [by apply H5|].
      intros ->. specialize (H5 Hop). congruence.
Qed.

Definition opts_ok (opts : UDPOptions) : Prop :=
  0 <= QueueDepth opts /\ (DropPolicy opts = UDPDropNewest \/ DropPolicy opts = UDPDropOldest).

(** The whole of [ListenUDPOptions]: it succeeds iff port and options are valid and
    the port is free. *)
Lemma listen_spec (s : Stack.Stack) (d : option udpDemux) (port : Z) (opts : UDPOptions) :
  side_inv s d ->
  let r := ListenUDPOptions s d port opts in
  side_inv r.2.1 r.2.2 /\ r.1 <> Panic /\
  ((exists id, r.1 = Ok id) <->
   port <> 0 /\ opts_ok opts /\ (default (mkUdpDemux ∅ 0 0 0 ∅ 0) d).(ports) !! port = None).
Proof.
  intros Hi. cbv zeta. unfold opts_ok, ListenUDPOptions. destruct (Z.eqb_spec port 0) as [->|Hp0].
  { split_and!; [done..|]. split; [by intros [? ?]|by intros []]. }
  destruct (Z.ltb_spec (QueueDepth opts) 0).
  { split_and!; [done..|]. split; [by intros [? ?]|]. intros (_ & (Hq & _) & _). lia. }
  destruct (negb _ && negb _) eqn:Epol.
  { split_and!; [done..|]. split; [by intros [? ?]|]. intros (_ & (_ & Hpol) & _).
    destruct Hpol as [E|E]; rewrite E in Epol; cbn in Epol; done. }
  assert (Hpol : DropPolicy opts = UDPDropNewest \/ DropPolicy opts = UDPDropOldest).
  { destruct (Z.eqb_spec (DropPolicy opts) UDPDropNewest); [by left|].
    destruct (Z.eqb_spec (DropPolicy opts) UDPDropOldest); [by right|]. done. }
  destruct (demuxFor_ok s d Hi) as (s' & -> & Hi'). set (dm := default _ d) in *. clearbody dm.
  destruct Hi' as [Hh Hi']. destruct (ports dm !! port) as [i|] eqn:Ep; cbn [fst snd].
  - split_and!; [done..|]. split; [by intros [? ?]|by intros (_ & _ & ?)].
  - split_and!; [|done|]; [|split; [done|by eexists]]. split; [done|]. apply udp_listen_inv; try done.
    unfold udpQueueDepth. destruct (Z.eqb_spec (QueueDepth opts) 0); lia.
Qed.

Lemma udp_reachable_inv (s : Stack.Stack) (d : option udpDemux) : reachable s d -> side_inv s d.
Proof.
  induction 1 as [s Hs|s s' d _ IH Hs|s d port opts _ IH|s d src dst payload s' d' _ IH HP
                 |s d id c n pick _ IH Hc|s d id c n pick _ IH Hc|s d id _ IH|s d id c r w _ IH Hc].
  - done.
  - destruct d; cbn in *; by rewrite Hs.
  - by apply listen_spec.
  - destruct IH as [Hh Hi]. destruct (udp_handlePacket_inv _ _ _ _ _ _ _ HP) as [E H]. split; [congruence|auto].
  - destruct IH as [Hh Hi]. split; [done|]. unfold ReadFrom. destruct (readEntry c); [|by apply select_inv].
    apply (update_inv d id c); try done. apply (ck_queue _ _ _ (ui_conns _ Hi id c Hc)).
  - destruct IH as [Hh Hi]. split; [done|]. by apply select_inv.
  - destruct IH as [Hh Hi]. split; [done|]. by apply udpClose_inv.
  - destruct IH as [Hh Hi]. split; [done|].
    apply (update_inv d id c); try done. apply (ck_queue _ _ _ (ui_conns _ Hi id c Hc)).
Qed.

(** Ports and queues, in every reachable state: a port leads to a listener
    exactly while that listener is open and bound to it, so no port has two; no
    queue exceeds its depth; opening a listener never panics and succeeds exactly
    when the port is not zero, the options are valid and no open listener has the
    port; and closing a listener frees its port at once: datagrams for it are
    dropped and counted, and a new listener can take it. *)
Theorem udp_ports (s : Stack.Stack) (d : udpDemux) :
  reachable s (Some d) ->
  (forall p id, ports d !! p = Some id <->
     exists c, conns d !! id = Some c /\ c_port c = p /\ c_closed c = false) /\
  (forall id c, conns d !! id = Some c -> zlen (c_inbound c) <= c_depth c) /\
  (forall port opts,
     (ListenUDPOptions s (Some d) port opts).1 <> Panic /\
     ((exists id, (ListenUDPOptions s (Some d) port opts).1 = Ok id) <->
      port <> 0 /\ opts_ok opts /\
      forall id c, conns d !! id = Some c -> c_closed c = false -> c_port c <> port)) /\
  (forall id c m opts, conns d !! id = Some c -> c_closed c = false -> c_port c <> 0 -> opts_ok opts ->
     deliver (Close d id) (c_port c) m = add_noListener (Close d id) /\
     exists id', (ListenUDPOptions s (Some (Close d id)) (c_port c) opts).1 = Ok id').
Proof.
  intros [Hh Hi]%udp_reachable_inv. split_and!.
  - intros p id. split; [apply (ui_ports _ Hi)|]. intros (c & Hc & <- & Hop).
    by apply (ck_bound _ _ _ (ui_conns _ Hi id c Hc)).
  - intros id c Hc. apply (ck_queue _ _ _ (ui_conns _ Hi id c Hc)).
  - intros port opts. destruct (listen_spec s (Some d) port opts) as (_ & Hnp & Hiff); [by split|].
    split; [done|]. rewrite Hiff. cbn. split; intros (H1 & H2 & H3); split_and!; try done.
    + intros id c Hc Hop <-. rewrite (ck_bound _ _ _ (ui_conns _ Hi id c Hc) Hop) in H3. done.
    + destruct (ports d !! port) as [id|] eqn:Ep; [|done].
      destruct (ui_ports _ Hi port id Ep) as (c & Hc & Hp & Hop). by destruct (H3 id c Hc Hop).
  - intros id c m opts Hc Hop Hp0 Hopts.
    assert (Hfree : ports (Close d id) !! c_port c = None).
    { unfold Close. rewrite Hc, Hop, bool_decide_eq_true_2 by (by apply (ck_bound _ _ _ (ui_conns _ Hi id c Hc))).
      cbn. apply lookup_delete_eq. }
    split; [unfold deliver; by rewrite Hfree|].
    apply (listen_spec s (Some (Close d id))); [split; [done|by apply udpClose_inv]|done].
Qed.

(** ** Witnesses *)

Module ToyUdp.
Definition server : bytes := [10; 8; 0; 1].
Definition client : bytes := [10; 8; 0; 2].
Definition s0 : Stack.Stack :=
  Stack.mkStack server 576 (Stack.mkLimits 0 0 0) 0 {[client := 0%nat]} ∅ 1 false false (fun _ => 0) false.
(** A listener on port 53 with a queue of two, dropping the oldest. *)
Definition opened : outcome udp_error nat * (Stack.Stack * option udpDemux) :=
  ListenUDPOptions s0 None 53 (mkUDPOptions 2 UDPDropOldest).
Definition conn : udpConn := newUDPConn 53 2 UDPDropOldest.
Definition s : Stack.Stack := opened.2.1.
Definition d : udpDemux := mkUdpDemux {[53 := 0%nat]} 0 0 0 {[0%nat := conn]} 1.
Definition msg (b : Z) : udpDatagram := mkDatagram client 5000 [b; 7; 7].
(** A datagram whose checksum is wrong. *)
Definition bad : bytes := udp_segment 5000 53 1 [1; 2; 3].
End ToyUdp.

Example toy_opened : ToyUdp.opened = (Ok 0%nat, (ToyUdp.s, Some ToyUdp.d)).
Proof. reflexivity. Qed.

Lemma handlePacket_verdict_witness :
  handlePacket ToyUdp.s ToyUdp.d ToyUdp.client ToyUdp.server ToyUdp.bad =
    Ok (ToyUdp.s, add_badChecksum ToyUdp.d).
Proof.
  destruct (handlePacket_verdict ToyUdp.s ToyUdp.d ToyUdp.client ToyUdp.server ToyUdp.bad) as [H _].
  - decide_now.
  - decide_now.
  - decide_now.
  - rewrite (H 5000 53 1 [1; 2; 3]); [reflexivity|]. split_and!; [decide_now..|]. exists []. reflexivity.
Defined.

Lemma udp_delivery_witness :
  exists d', exchange ToyUdp.s ToyUdp.d ToyUdp.server 53 (map ToyUdp.msg [1; 2; 3; 4]) = Ok (ToyUdp.s, d') /\
    queueFullDropped d' = 2 /\ 
    reads 3 (set_inbound [ToyUdp.msg 3; ToyUdp.msg 4] ToyUdp.conn) 2 0 =
      [RdData [3; 7] ToyUdp.client 5000; RdData [4; 7] ToyUdp.client 5000; RdBlocks].
Proof.
  destruct (udp_delivery ToyUdp.s ToyUdp.d ToyUdp.server 53 0 ToyUdp.conn (map ToyUdp.msg [1; 2; 3; 4]) 2 0)
    as [H1 H2].
  - decide_now.
  - decide_now.
  - decide_now.
  - reflexivity.
  - reflexivity.
  - vm_compute. discriminate.
  - reflexivity.
  - eexists. split; [exact H1|]. split; [reflexivity|]. exact (H2 eq_refl).
Defined.

Lemma WriteTo_spec_witness :
  exists s' acts, WriteTo (fun _ _ => true) ToyUdp.s ToyUdp.conn (replicate 1000 9)
      (UDPAddr (Some ToyUdp.client) 5000) = Ok (1000, None, s', acts) /\ (1 < length acts)%nat.
Proof.
  destruct (WriteTo_spec (fun _ _ => true) ToyUdp.s ToyUdp.conn (replicate 1000 9)
              (UDPAddr (Some ToyUdp.client) 5000)) as [_ H].
  - decide_now.
  - split; vm_compute; discriminate.
  - decide_now.
  - decide_now.
  - intros ip port [= <- _]. decide_now.
  - destruct (H 0%nat ToyUdp.client 5000) as (pkt & hdr & ck & pkts & k & s' & HW & _ & Hk & _).
    { split_and!; [reflexivity|reflexivity|vm_compute; discriminate|reflexivity|].
      exists ToyUdp.client. split; reflexivity. }
    assert (Hall : forallb (fun _ : bytes => true) pkts = true) by (apply forallb_forall; reflexivity).
    rewrite Hall in HW. exists s', (map (Stack.Write 0) (take k pkts)). split; [exact HW|].
    assert (Hlen : match WriteTo (fun _ _ => true) ToyUdp.s ToyUdp.conn (replicate 1000 9)
              (UDPAddr (Some ToyUdp.client) 5000) with Ok (_, _, _, acts) => Nat.ltb 1 (length acts) | _ => false end = true)
      by (vm_compute; reflexivity).
    rewrite HW in Hlen. apply Nat.ltb_lt. exact Hlen.
Defined.

Lemma udp_ports_witness :
  (forall p id, ports ToyUdp.d !! p = Some id <->
     exists c, conns ToyUdp.d !! id = Some c /\ c_port c = p /\ c_closed c = false) /\
  (forall m, deliver (Close ToyUdp.d 0) 53 m = add_noListener (Close ToyUdp.d 0)).
Proof.
  destruct (udp_ports ToyUdp.s ToyUdp.d) as (H1 & _ & _ & H4).
  - exact (r_listen ToyUdp.s0 None 53 (mkUDPOptions 2 UDPDropOldest) (r_init ToyUdp.s0 eq_refl)).
  - split; [exact H1|]. intros m.
    apply (H4 0%nat ToyUdp.conn m (mkUDPOptions 0 0)); [reflexivity|reflexivity|discriminate|].
    split; [vm_compute; discriminate|left; reflexivity].
Defined.

(** A nil [*net.UDPAddr] is dereferenced. *)
Example nil_address_panics :
  WriteTo (fun _ _ => true) ToyUdp.s ToyUdp.conn [1] NilUDPAddr = Panic.
Proof. reflexivity. Qed.

End Udp.
