(* ===== verification/Session.v ===== *)
(** * Session: the data path and the key slots of a client session

    Model of [session.go] and of the renegotiation part of [ovpn.go]: sealing
    and opening data packets under the primary and the lame-duck key, the inbound
    queue and [Read], keepalives, the idle reaper, routing control packets by
    key-id, renegotiation from its trigger to the swap of the key slots, and
    teardown.

    A control-channel [Conn] is an identity; [k_open] holds those whose
    retransmission goroutine runs.  What a method does to the outside is a list
    of actions, which the server carries out.  A method under [mu] is one function;
    [closeWithReason] is three, because other goroutines can run between the close of
    [stopCh] and the locked part, and before the load of [published] at its end.  The
    clock readings of one call are one argument.  A zero [time.Time] is [None]; where a
    [select] has several ready cases the runtime's choice is an argument. *)

From stdpp Require Import gmap.
From S2P Require Import Prelude Wire Replay KeyDeriv DataChan Cipher.
Import DataChan.

Module Session.

(** ** Constants *)

Definition occMagic : bytes :=
  [40; 127; 52; 107; 212; 239; 122; 129; 45; 86; 184; 211; 175; 197; 69; 156].
Definition occExit : Z := 6.
Definition keyIDMask : Z := 7.
Definition second : Z := 1000000000.
Definition transitionWindow : Z := 3600 * second.

Definition isExitNotify (plaintext : bytes) : bool :=
  (17 <=? zlen plaintext) && bool_decide (take 16 plaintext = occMagic) &&
  bool_decide (plaintext !! 16%nat = Some occExit).

Definition nextKeyID (current : Z) : Z :=
  let next := Z.land (u8 (current + 1)) keyIDMask in
  if next =? 0 then 1 else next.

Inductive CloseReason :=
  | CloseReasonUnknown | CloseReasonEmbedder | CloseReasonClientExitNotify | CloseReasonIdleReap
  | CloseReasonServerClose | CloseReasonReplaced | CloseReasonAuthFailed.

#[export] Instance CloseReason_eq_dec : EqDecision CloseReason.
Proof. solve_decision. Defined.

(** ** Times *)

Definition maxDuration : Z := 9223372036854775807.

(** [now.Sub(t)], which saturates. *)
Definition elapsed (now : Z) (t : option Z) : Z :=
  match t with
  | None => maxDuration
  | Some t => Z.max (- maxDuration - 1) (Z.min maxDuration (now - t))
  end.

(** [now.Before(t)]. *)
Definition before (now : Z) (t : option Z) : bool :=
  match t with Some t => now <? t | None => false end.

(** ** Data *)

Record keySlot (W : Type) := mkSlot {
  ks_keyID : Z;
  ks_conn : option nat;
  ks_wrapper : option (Wrapper W);
  ks_established : option Z;
  ks_mustDie : option Z;
}.
Arguments mkSlot {W} _ _ _ _ _.
Arguments ks_keyID {W} _.
Arguments ks_conn {W} _.
Arguments ks_wrapper {W} _.
Arguments ks_established {W} _.
Arguments ks_mustDie {W} _.

Definition emptySlot {W : Type} : keySlot W := mkSlot 0 None None None None.

(** The key state, and the session's control-channel connections. *)
Record keyState (W : Type) := mkKeys {
  k_primary : keySlot W;
  k_lameDuck : keySlot W;
  k_pendingReneg : option nat;
  k_pendingRenegKeyID : Z;
  k_lastRenegAccepted : option Z;
  k_renegotiations : Z;
  k_dataKeys : option Key2;
  k_conn : nat;           (* the initial handshake's *)
  k_open : gset nat;      (* the connections that have not been closed *)
  k_nextConn : nat;       (* the identity of the next connection *)
}.
Arguments mkKeys {W} _ _ _ _ _ _ _ _ _ _.
Arguments k_primary {W} _.
Arguments k_lameDuck {W} _.
Arguments k_pendingReneg {W} _.
Arguments k_pendingRenegKeyID {W} _.
Arguments k_lastRenegAccepted {W} _.
Arguments k_renegotiations {W} _.
Arguments k_dataKeys {W} _.
Arguments k_conn {W} _.
Arguments k_open {W} _.
Arguments k_nextConn {W} _.

(** Teardown and publication. *)
Record lifeState := mkLife {
  l_stopping : bool;            (* [stopCh] is closed *)
  l_torn : bool;                (* the teardown has come to its load of [published] *)
  l_ended : bool;               (* the body of [stopOnce] has finished *)
  l_closeReason : CloseReason;
  l_published : bool;
  l_established : bool;
  l_doneCh : bool;              (* [doneCh] is closed *)
  l_outcome : bool;             (* [outcomeOnce] has fired *)
}.

(** What negotiation and the push exchange assigned. *)
Record leaseState := mkLease {
  a_assignedIP : option bytes;
  a_peerID : Z;
  a_cipher : bytes;
  a_peerSupportsNCP : bool;
  a_establishedAt : option Z;
  a_lastAuthTraffic : option Z;
}.

(** The IP queue ([None]: the nil channel; else capacity and contents) and the
    counters. *)
Record dataState := mkData {
  d_ipInbound : option (Z * list bytes);
  d_pendingRead : option bytes;
  d_bytesIn : Z;
  d_bytesOut : Z;
  d_packetsIn : Z;
  d_packetsOut : Z;
  d_inboundQueueDropped : Z;
  d_keepalivesIn : Z;
}.

(** What [Stats] returns. *)
Record SessionStats := mkSessionStats {
  BytesIn : Z;
  BytesOut : Z;
  PacketsIn : Z;
  PacketsOut : Z;
  KeepalivesIn : Z;
  InboundQueueDropped : Z;
  StatsCipher : bytes;
  Renegotiations : Z;
  EstablishedAt : option Z;
  LastAuthTrafficAt : option Z;
}.

Record Session (W : Type) := mkSession {
  s_keys : keyState W;
  s_life : lifeState;
  s_lease : leaseState;
  s_data : dataState;
}.
Arguments mkSession {W} _ _ _ _.
Arguments s_keys {W} _.
Arguments s_life {W} _.
Arguments s_lease {W} _.
Arguments s_data {W} _.

(** The server's settings a session reads. *)
Record settings := mkSettings {
  renegSec : Z;
  renegMinInterval : Z;
  reapWindow : Z;
  hasOnSession : bool;
  hasOnSessionClosed : bool;
}.

(** The handshake counters a session is counted under, and the ways its bring-up
    fails: TLS, the key exchange, the credentials, the cipher negotiation, the push. *)
Inductive hs_outcome := HandshakesCompleted | HandshakesFailed | HandshakesTimedOut | AuthFailed | CipherNegotiationFailed.
Inductive hs_failure := FailTLS | FailKeyMethod2 | FailAuth | FailCipher | FailPush.

#[export] Instance hs_outcome_eq_dec : EqDecision hs_outcome.
Proof. solve_decision. Defined.

Inductive action :=
  | SendData (pkt : bytes)                              (* [srv.pc.WriteTo(pkt, RemoteAddr)] *)
  | DeliverTo (conn : nat) (cp : ControlPacket)         (* [conn.Deliver(cp)] *)
  | RespondOn (conn : nat) (cp : ControlPacket) (opcode : Z)  (* [conn.DeliverAndRespond] *)
  | ResetOn (conn : nat) (opcode : Z)                   (* [conn.SendReset(opcode)] *)
  | GoRenegotiate (conn : nat) (keyID : Z)              (* [go srv.runRenegotiation(..)] *)
  | CloseConn (conn : nat)
  | DropRoute (peerID : Z)                              (* the entry of [srv.dataSessions] *)
  | ReleaseLease (ip : bytes) (peerID : Z)              (* [srv.pool.release(ip, peerID)] *)
  | RemoveSession                                       (* [srv.removeSession(s)] *)
  | CallOnSession
  | CallOnSessionClosed (r : CloseReason)
  | CountOutcome (o : hs_outcome).                      (* one of the four counters, by one *)

Inductive session_error :=
  | EOF | ErrBufferTooSmall | ErrNotEstablished | ErrSeal (e : dc_error) | ErrTransport.

Section operations.
Context {W : Type} `{!AntiReplay W} `{!AEAD}.
Notation Session := (Session W).
Notation keyState := (keyState W).
Notation keySlot := (keySlot W).

(** ** Field updates *)

Definition set_keys (k : keyState) (s : Session) : Session := mkSession k (s_life s) (s_lease s) (s_data s).
Definition set_life (l : lifeState) (s : Session) : Session := mkSession (s_keys s) l (s_lease s) (s_data s).
Definition set_lease (a : leaseState) (s : Session) : Session := mkSession (s_keys s) (s_life s) a (s_data s).
Definition set_data (d : dataState) (s : Session) : Session := mkSession (s_keys s) (s_life s) (s_lease s) d.

Definition set_slots (p l : keySlot) (k : keyState) : keyState :=
  mkKeys p l (k_pendingReneg k) (k_pendingRenegKeyID k) (k_lastRenegAccepted k) (k_renegotiations k)
    (k_dataKeys k) (k_conn k) (k_open k) (k_nextConn k).
Definition set_pending (c : option nat) (k : keyState) : keyState :=
  mkKeys (k_primary k) (k_lameDuck k) c (k_pendingRenegKeyID k) (k_lastRenegAccepted k)
    (k_renegotiations k) (k_dataKeys k) (k_conn k) (k_open k) (k_nextConn k).
Definition set_open (o : gset nat) (k : keyState) : keyState :=
  mkKeys (k_primary k) (k_lameDuck k) (k_pendingReneg k) (k_pendingRenegKeyID k) (k_lastRenegAccepted k)
    (k_renegotiations k) (k_dataKeys k) (k_conn k) o (k_nextConn k).
Definition set_wrapper (w : Wrapper W) (sl : keySlot) : keySlot :=
  mkSlot (ks_keyID sl) (ks_conn sl) (Some w) (ks_established sl) (ks_mustDie sl).
Definition set_queue (q : option (Z * list bytes)) (p : option bytes) (d : dataState) : dataState :=
  mkData q p (d_bytesIn d) (d_bytesOut d) (d_packetsIn d) (d_packetsOut d) (d_inboundQueueDropped d)
    (d_keepalivesIn d).

(** [conn.Close()], idempotent. *)
Definition closeConn (c : nat) (s : Session) : Session :=
  set_keys (set_open (k_open (s_keys s) ∖ {[c]}) (s_keys s)) s.
Definition closeConns (cs : list nat) (s : Session) : Session := foldl (fun s c => closeConn c s) s cs.

Definition touchAuthTraffic (now : Z) (s : Session) : Session :=
  let a := s_lease s in
  set_lease (mkLease (a_assignedIP a) (a_peerID a) (a_cipher a) (a_peerSupportsNCP a) (a_establishedAt a)
               (Some now)) s.

(** ** Accessors *)

Definition closing (s : Session) : bool := l_stopping (s_life s).
Definition AssignedIP (s : Session) : option bytes := a_assignedIP (s_lease s).
Definition PeerID (s : Session) : Z := a_peerID (s_lease s).
Definition Cipher (s : Session) : bytes := a_cipher (s_lease s).
Definition RenegotiationCount (s : Session) : Z := k_renegotiations (s_keys s).

Definition Stats (s : Session) : SessionStats :=
  mkSessionStats (d_bytesIn (s_data s)) (d_bytesOut (s_data s)) (d_packetsIn (s_data s)) (d_packetsOut (s_data s))
    (d_keepalivesIn (s_data s)) (d_inboundQueueDropped (s_data s)) (Cipher s) (RenegotiationCount s)
    (a_establishedAt (s_lease s)) (a_lastAuthTraffic (s_lease s)).
Definition getCloseReason (s : Session) : CloseReason := l_closeReason (s_life s).

(** The reply is [None] until the keys exist. *)
Definition DebugDataKeys (s : Session) : outcome kd_error (option DataKeys) :=
  match k_dataKeys (s_keys s) with
  | None => Ok None
  | Some k => dk ← ServerSlots k (Cipher.cipherKeyLen (Cipher s)); Ok (Some dk)
  end.

(** ** Teardown *)

(** The body of [stopOnce] up to the close of [stopCh]. *)
Definition closeBegin (r : CloseReason) (s : Session) : Session :=
  let l := s_life s in
  if l_stopping l then s else
  set_life (mkLife true (l_torn l) (l_ended l) r (l_published l) (l_established l) (l_doneCh l) (l_outcome l)) s.

(** The connections a session may own beyond [s.conn]. *)
Definition ownedConns (k : keyState) : list nat :=
  omap id [ks_conn (k_primary k); ks_conn (k_lameDuck k); k_pendingReneg k].
#[local] Arguments ownedConns : simpl never.

(** [closeWithReason] from its critical section to the load of [published]: the
    body of [stopOnce] runs for the first caller.  The close of [s.conn] by which
    every caller ends is idempotent and taken here. *)
Definition closeEnd (cfg : settings) (s : Session) : Session * list action :=
  let l := s_life s in
  let k := s_keys s in
  let '(s, acts) :=
    if l_torn l then (s, []) else
    let s := set_life (mkLife (l_stopping l) true (l_ended l) (l_closeReason l) (l_published l) (l_established l)
                         (l_doneCh l) (l_outcome l)) s in
    (closeConns (ownedConns k) s,
     (match ks_wrapper (k_primary k) with Some _ => [DropRoute (PeerID s)] | None => [] end) ++
     (match AssignedIP s with Some ip => [ReleaseLease ip (PeerID s)] | None => [] end) ++
     [RemoveSession] ++ map CloseConn (ownedConns k)) in
  (closeConn (k_conn k) s, acts ++ [CloseConn (k_conn k)]).

(** The load of [published], under no lock: a hand-over that comes before it
    counts, one that comes after it does not. *)
Definition closeNotify (cfg : settings) (s : Session) : Session * list action :=
  let l := s_life s in
  if l_ended l then (s, []) else
  (set_life (mkLife (l_stopping l) (l_torn l) true (l_closeReason l) (l_published l) (l_established l)
               (l_doneCh l) (l_outcome l)) s,
   if hasOnSessionClosed cfg && l_published l then [CallOnSessionClosed (l_closeReason l)] else []).

(** What a handler that ends in [closeWithReason] does of it within its step; the
    load is the teardown's next step. *)
Definition teardown (cfg : settings) (r : CloseReason) (s : Session) : Session * list action :=
  closeEnd cfg (closeBegin r s).

(** [closeWithReason] without interference. *)
Definition closeWithReason (cfg : settings) (r : CloseReason) (s : Session) : Session * list action :=
  let '(s, a1) := teardown cfg r s in let '(s, a2) := closeNotify cfg s in (s, a1 ++ a2).

Definition Close (cfg : settings) (s : Session) : Session * list action :=
  closeWithReason cfg CloseReasonEmbedder s.

(** ** Inbound data *)

(** [pick] chooses between room in the queue and a closed [stopCh]. *)
Definition deliverIP (pick : bool) (plaintext : bytes) (s : Session) : Session :=
  let d := s_data s in
  let stop := closing s in
  let drop := set_data (mkData (d_ipInbound d) (d_pendingRead d) (d_bytesIn d) (d_bytesOut d) (d_packetsIn d)
                 (d_packetsOut d) (u64 (d_inboundQueueDropped d + 1)) (d_keepalivesIn d)) s in
  match d_ipInbound d with
  | Some (cap, q) =>
      if zlen q <? cap then
        if stop && pick then s else set_data (set_queue (Some (cap, q ++ [plaintext])) (d_pendingRead d) d) s
      else if stop then s else drop
  | None => if stop then s else drop
  end.

Definition countPacket (plaintext : bytes) (s : Session) : Session :=
  let d := s_data s in
  set_data (mkData (d_ipInbound d) (d_pendingRead d) (u64 (d_bytesIn d + zlen plaintext)) (d_bytesOut d)
              (u64 (d_packetsIn d + 1)) (d_packetsOut d) (d_inboundQueueDropped d) (d_keepalivesIn d)) s.

Definition countKeepalive (s : Session) : Session :=
  let d := s_data s in
  set_data (mkData (d_ipInbound d) (d_pendingRead d) (d_bytesIn d) (d_bytesOut d) (d_packetsIn d)
              (d_packetsOut d) (d_inboundQueueDropped d) (u64 (d_keepalivesIn d + 1))) s.

(** The part of [handleDataPacket] behind a successful [Open]. *)
Definition acceptPlaintext (cfg : settings) (now : Z) (pick : bool) (plaintext : bytes) (s : Session)
    : Session * list action :=
  let s := touchAuthTraffic now s in
  if isExitNotify plaintext then teardown cfg CloseReasonClientExitNotify s
  else (deliverIP pick plaintext (countPacket plaintext s), []).

Definition set_primary_wrapper (w : Wrapper W) (s : Session) : Session :=
  let k := s_keys s in set_keys (set_slots (set_wrapper w (k_primary k)) (k_lameDuck k) k) s.
Definition set_lame_wrapper (w : Wrapper W) (s : Session) : Session :=
  let k := s_keys s in set_keys (set_slots (k_primary k) (set_wrapper w (k_lameDuck k)) k) s.

Definition handleDataPacket (cfg : settings) (now : Z) (pick : bool) (s : Session) (packet : bytes)
    : outcome dc_error (Session * list action) :=
  match ks_wrapper (k_primary (s_keys s)) with
  | None => Ok (s, [])
  | Some w =>
      let lameDuck := k_lameDuck (s_keys s) in
      let '(res, w) := Open w [] packet in
      let s := set_primary_wrapper w s in
      match res with
      | Panic => Panic
      | Ok plaintext => Ok (acceptPlaintext cfg now pick plaintext s)
      | Err ErrPingAbsorbed => Ok (countKeepalive (touchAuthTraffic now s), [])
      | Err _ =>
          match ks_wrapper lameDuck with
          | None => Ok (s, [])
          | Some lw =>
              if negb (before now (ks_mustDie lameDuck)) then Ok (s, []) else
              let '(res, lw) := Open lw [] packet in
              let s := set_lame_wrapper lw s in
              match res with
              | Panic => Panic
              | Ok plaintext => Ok (acceptPlaintext cfg now pick plaintext s)
              | Err ErrPingAbsorbed => Ok (countKeepalive (touchAuthTraffic now s), [])
              | Err _ => Ok (s, [])
              end
          end
      end
  end.

(** ** Read and Write *)

Inductive read_result := RdData (pkt : bytes) | RdErr (e : session_error) | RdBlocks.

(** [n] is the length of the caller's buffer; with a packet queued and [stopCh]
    closed [pick] chooses. *)
Definition Read (s : Session) (n : Z) (pick : bool) : read_result * Session :=
  let d := s_data s in
  match d_pendingRead d with
  | Some pkt =>
      if n <? zlen pkt then (RdErr ErrBufferTooSmall, s)
      else (RdData pkt, set_data (set_queue (d_ipInbound d) None d) s)
  | None =>
      match d_ipInbound d with
      | Some (cap, pkt :: q) =>
          if closing s && pick then (RdErr EOF, s) else
          if n <? zlen pkt then (RdErr ErrBufferTooSmall, set_data (set_queue (Some (cap, q)) (Some pkt) d) s)
          else (RdData pkt, set_data (set_queue (Some (cap, q)) None d) s)
      | _ => if closing s then (RdErr EOF, s) else (RdBlocks, s)
      end
  end.

(** [pcOK]: whether the transport takes the datagram ([None]: there is none). *)
Definition Write (pcOK : option (bytes -> bool)) (s : Session) (p : bytes)
    : outcome session_error Z * Session * list action :=
  if closing s then (Err EOF, s, []) else
  match ks_wrapper (k_primary (s_keys s)) with
  | None => (Err ErrNotEstablished, s, [])
  | Some w =>
      let '(res, w) := Seal w [] p in
      let s := set_primary_wrapper w s in
      match res with
      | Panic => (Panic, s, [])
      | Err e => (Err (ErrSeal e), s, [])
      | Ok sealed =>
          match pcOK with
          | None => (Err ErrTransport, s, [])
          | Some ok =>
              if negb (ok sealed) then (Err ErrTransport, s, [SendData sealed]) else
              let d := s_data s in
              (Ok (zlen p),
               set_data (mkData (d_ipInbound d) (d_pendingRead d) (d_bytesIn d) (u64 (d_bytesOut d + zlen p))
                           (d_packetsIn d) (u64 (d_packetsOut d + 1)) (d_inboundQueueDropped d)
                           (d_keepalivesIn d)) s,
               [SendData sealed])
          end
      end
  end.

(** One tick of [runKeepalive]; [hasPC]: the server has a transport. *)
Definition emitPing (hasPC : bool) (s : Session) : outcome dc_error (Session * list action) :=
  match ks_wrapper (k_primary (s_keys s)) with
  | None => Ok (s, [])
  | Some w =>
      let '(res, w) := SealPing w [] in
      let s := set_primary_wrapper w s in
      match res with
      | Panic => Panic
      | Err _ => Ok (s, [])
      | Ok sealed => Ok (s, if hasPC then [SendData sealed] else [])
      end
  end.

(** ** Control packets *)

Definition routeControlPacket (s : Session) (keyID : Z) : option nat :=
  let k := s_keys s in
  match ks_conn (k_primary k) with
  | None => if keyID =? 0 then Some (k_conn k) else None
  | Some c =>
      if keyID =? ks_keyID (k_primary k) then Some c else
      if bool_decide (is_Some (ks_conn (k_lameDuck k))) && (keyID =? ks_keyID (k_lameDuck k))
      then ks_conn (k_lameDuck k) else
      if bool_decide (is_Some (k_pendingReneg k)) && (keyID =? k_pendingRenegKeyID k)
      then k_pendingReneg k else None
  end.

(** [pump] for one packet of the inbound queue. *)
Definition pump (now : Z) (s : Session) (cp : ControlPacket) : Session * list action :=
  if closing s then (s, []) else
  match routeControlPacket s (cp_KeyID cp) with
  | Some c => (touchAuthTraffic now s, [DeliverTo c cp])
  | None => (s, [])
  end.

(** ** Renegotiation *)

(** The connection and its key-id, or a refusal.  [wantKeyID] is the peer's, on
    the receiving side. *)
Definition startRenegotiation (cfg : settings) (now : Z) (wantKeyID : option Z) (s : Session)
    : option (nat * Z) * Session :=
  let k := s_keys s in
  if closing s then (None, s) else
  if negb (bool_decide (is_Some (ks_conn (k_primary k)))) ||
     negb (bool_decide (is_Some (ks_established (k_primary k)))) then (None, s) else
  if bool_decide (is_Some (k_pendingReneg k)) then (None, s) else
  if bool_decide (is_Some (k_lastRenegAccepted k)) &&
     (elapsed now (k_lastRenegAccepted k) <? renegMinInterval cfg) then (None, s) else
  let next := nextKeyID (ks_keyID (k_primary k)) in
  if match wantKeyID with Some want => negb (want =? next) | None => false end then (None, s) else
  let newConn := k_nextConn k in
  (Some (newConn, next),
   set_keys (mkKeys (k_primary k) (k_lameDuck k) (Some newConn) next (Some now) (k_renegotiations k)
               (k_dataKeys k) (k_conn k) ({[newConn]} ∪ k_open k) (S newConn)) s).

Definition beginRenegotiation (cfg : settings) (now : Z) (s : Session) (cp : ControlPacket)
    : Session * list action :=
  match startRenegotiation cfg now (Some (cp_KeyID cp)) s with
  | (None, s) => (s, [])
  | (Some (newConn, keyID), s) => (s, [RespondOn newConn cp OpControlSoftResetV1; GoRenegotiate newConn keyID])
  end.

(** A soft reset of an existing session, as [handleDatagram] treats it. *)
Definition handleSoftReset (cfg : settings) (now : Z) (s : Session) (cp : ControlPacket)
    : Session * list action :=
  match routeControlPacket s (cp_KeyID cp) with
  | Some c => (touchAuthTraffic now s, [DeliverTo c cp])
  | None => beginRenegotiation cfg now s cp
  end.

Definition checkReneg (cfg : settings) (hasPC : bool) (now : Z) (s : Session) : Session * list action :=
  match ks_established (k_primary (s_keys s)) with
  | None => (s, [])
  | Some established =>
      if elapsed now (Some established) <? renegSec cfg then (s, []) else
      if negb hasPC then (s, []) else
      match startRenegotiation cfg now None s with
      | (None, s) => (s, [])
      | (Some (newConn, keyID), s) =>
          (s, [ResetOn newConn OpControlSoftResetV1; GoRenegotiate newConn keyID])
      end
  end.

Definition sweepLameDuck (now : Z) (s : Session) : Session * list action :=
  let k := s_keys s in
  let ld := k_lameDuck k in
  if bool_decide (is_Some (ks_wrapper ld)) && negb (before now (ks_mustDie ld)) then
    let s := set_keys (set_slots (k_primary k) emptySlot k) s in
    match ks_conn ld with Some c => (closeConn c s, [CloseConn c]) | None => (s, []) end
  else (s, []).

(** One tick of [runReneg]. *)
Definition runReneg (cfg : settings) (hasPC : bool) (now : Z) (s : Session) : Session * list action :=
  let '(s, a1) := sweepLameDuck now s in
  let '(s, a2) := checkReneg cfg hasPC now s in (s, a1 ++ a2).

(** One tick of [runReap]; the last component: the goroutine goes on. *)
Definition runReap (cfg : settings) (now : Z) (s : Session) : Session * list action * bool :=
  if reapWindow cfg <=? elapsed now (a_lastAuthTraffic (s_lease s)) then
    let '(s, acts) := teardown cfg CloseReasonIdleReap s in (s, acts, false)
  else (s, [], true).

(** [if sess.pendingReneg == newConn { sess.pendingReneg = nil }]. *)
Definition clearPending (newConn : nat) (s : Session) : Session :=
  let k := s_keys s in
  if bool_decide (k_pendingReneg k = Some newConn) then set_keys (set_pending None k) s else s.

Definition abandon (newConn : nat) (s : Session) : Session * list action :=
  (closeConn newConn (clearPending newConn s), [CloseConn newConn]).

(** The locked section at the end of [runRenegotiation]. *)
Definition swapKeys (now : Z) (s : Session) (newConn : nat) (keyID : Z) (dataKeys : Key2)
    : outcome dc_error (Session * list action) :=
  let k := s_keys s in
  if closing s || negb (bool_decide (k_pendingReneg k = Some newConn))
  then Ok (closeConn newConn s, [CloseConn newConn]) else
  match ServerSlots dataKeys (Cipher.cipherKeyLen (Cipher s)) with
  | Ok dk =>
      match NewWrapper dk (PeerID s) keyID with
      | Panic => Panic
      | Err _ => Ok (abandon newConn s)
      | Ok newWrapper =>
          let p := k_primary k in
          let old := ks_conn (k_lameDuck k) in
          let k := mkKeys (mkSlot keyID (Some newConn) (Some newWrapper) (Some now) None)
                     (mkSlot (ks_keyID p) (ks_conn p) (ks_wrapper p) (ks_established p)
                        (Some (now + transitionWindow)))
                     None (k_pendingRenegKeyID k) (k_lastRenegAccepted k) (u32 (k_renegotiations k + 1))
                     (Some dataKeys) (k_conn k) (k_open k) (k_nextConn k) in
          let s := set_keys k s in
          Ok (match old with Some c => (closeConn c s, [CloseConn c]) | None => (s, []) end)
      end
  | _ => Panic
  end.

(** What the TLS handshake and the Key Method 2 exchange over the new connection
    came to. *)
Inductive reneg_result := RenegFailed | RenegAuthRejected | RenegKeys (dataKeys : Key2).

(** [runRenegotiation] from there on. *)
Definition finishRenegotiation (cfg : settings) (now : Z) (s : Session) (newConn : nat) (keyID : Z)
    (res : reneg_result) : outcome dc_error (Session * list action) :=
  match res with
  | RenegFailed => Ok (abandon newConn s)
  | RenegAuthRejected =>
      let '(s, a1) := abandon newConn s in
      let '(s, a2) := teardown cfg CloseReasonAuthFailed s in Ok (s, a1 ++ a2)
  | RenegKeys dataKeys => swapKeys now s newConn keyID dataKeys
  end.

(** The window has expired. *)
Definition enforceRenegotiationWindow (s : Session) (newConn : nat) : Session * list action :=
  if bool_decide (k_pendingReneg (s_keys s) = Some newConn) then abandon newConn s else (s, []).

(** ** Publication *)

(** The session [handleDatagram] builds: its only connection is number 0. *)
Definition newSession : Session :=
  mkSession (mkKeys emptySlot emptySlot None 0 None 0 None 0 {[0%nat]} 1)
    (mkLife false false false CloseReasonUnknown false false false false)
    (mkLease None 0 [] false None None)
    (mkData None None 0 0 0 0 0 0).

(** The keys and the cipher of [performKeyMethod2Exchange]. *)
Definition publishKeys (dataKeys : Key2) (cipher : bytes) (supportsNCP : bool) (s : Session) : Session :=
  let k := s_keys s in let a := s_lease s in
  set_keys (mkKeys (k_primary k) (k_lameDuck k) (k_pendingReneg k) (k_pendingRenegKeyID k)
              (k_lastRenegAccepted k) (k_renegotiations k) (Some dataKeys) (k_conn k) (k_open k) (k_nextConn k))
    (set_lease (mkLease (a_assignedIP a) (a_peerID a) cipher supportsNCP (a_establishedAt a)
                  (a_lastAuthTraffic a)) s).

(** The atomic publish of [performPushExchange], the entry of [dataSessions] apart;
    [None] when the session is closing. *)
Definition publishLease (now : Z) (ip : bytes) (peerID queue : Z) (w : Wrapper W) (s : Session)
    : option Session :=
  if closing s then None else
  let k := s_keys s in let a := s_lease s in let d := s_data s in
  Some (mkSession (set_slots (mkSlot 0 (Some (k_conn k)) (Some w) (Some now) None) (k_lameDuck k) k)
          (s_life s)
          (mkLease (Some ip) peerID (a_cipher a) (a_peerSupportsNCP a) (Some now) (Some now))
          (set_queue (Some (queue, [])) (d_pendingRead d) d)).

(** ** The end of the handshake *)

Definition recordHandshakeOutcome (o : hs_outcome) (s : Session) : Session * list action :=
  let l := s_life s in
  if l_outcome l then (s, []) else
  (set_life (mkLife (l_stopping l) (l_torn l) (l_ended l) (l_closeReason l) (l_published l) (l_established l)
               (l_doneCh l) true) s, [CountOutcome o]).

Definition closeDone (s : Session) : Session :=
  let l := s_life s in
  set_life (mkLife (l_stopping l) (l_torn l) (l_ended l) (l_closeReason l) (l_published l) (l_established l) true
              (l_outcome l)) s.

Definition failure_outcome (f : hs_failure) : hs_outcome :=
  match f with FailAuth => AuthFailed | FailCipher => CipherNegotiationFailed | _ => HandshakesFailed end.
Definition failure_reason (f : hs_failure) : CloseReason :=
  match f with FailAuth => CloseReasonAuthFailed | _ => CloseReasonUnknown end.

(** [runHandshake] when a stage fails. *)
Definition handshakeFailed (cfg : settings) (f : hs_failure) (s : Session) : Session * list action :=
  let '(s, a1) := recordHandshakeOutcome (failure_outcome f) s in
  let '(s, a2) := teardown cfg (failure_reason f) (closeDone s) in (s, a1 ++ a2).

(** [runHandshake] after the push exchange, up to [established]. *)
Definition handshakeDone (cfg : settings) (s : Session) : Session * list action :=
  let s := closeDone s in
  if closing s then
    let '(s, a1) := recordHandshakeOutcome HandshakesFailed s in
    let '(s, a2) := teardown cfg CloseReasonUnknown s in (s, a1 ++ a2)
  else
    let '(s, a1) := recordHandshakeOutcome HandshakesCompleted s in
    let l := s_life s in
    (set_life (mkLife (l_stopping l) (l_torn l) (l_ended l) (l_closeReason l) (l_published l) true (l_doneCh l)
                 (l_outcome l)) s, a1).

(** The end of [runHandshake]. *)
Definition publishSession (cfg : settings) (s : Session) : Session * list action :=
  if hasOnSession cfg then
    let l := s_life s in
    (set_life (mkLife (l_stopping l) (l_torn l) (l_ended l) (l_closeReason l) true (l_established l) (l_doneCh l)
                 (l_outcome l)) s, [CallOnSession])
  else (s, []).

(** The window has expired; [pick]: the choice when [doneCh] is closed too. *)
Definition enforceHandshakeWindow (cfg : settings) (pick : bool) (s : Session) : Session * list action :=
  if l_doneCh (s_life s) && pick then (s, []) else
  let '(s, a1) := recordHandshakeOutcome HandshakesTimedOut s in
  let '(s, a2) := teardown cfg CloseReasonUnknown s in (s, a1 ++ a2).

(** ** The steps of a session *)

(** What the session's goroutines and callers do, one atomic step each.  The
    renegotiations in flight, with their key-ids, are part of the state. *)
Inductive event :=
  | EPublishKeys (dataKeys : Key2) (cipher : bytes) (ncp : bool)
  | EPublishLease (now : Z) (ip : bytes) (peerID queue : Z) (w : Wrapper W)
  | EHandshakeFailed (f : hs_failure)
  | EHandshakeDone
  | EPublish
  | EHandshakeWindow (pick : bool)
  | EData (now : Z) (pick : bool) (packet : bytes)
  | ERead (n : Z) (pick : bool)
  | EWrite (pcOK : option (bytes -> bool)) (p : bytes)
  | EPing (hasPC : bool)
  | EPump (now : Z) (cp : ControlPacket)
  | ESoftReset (now : Z) (cp : ControlPacket)
  | ETickReneg (hasPC : bool) (now : Z)
  | ETickReap (now : Z)
  | EFinish (now : Z) (conn : nat) (res : reneg_result)
  | EWindow (conn : nat)
  | ECloseBegin (r : CloseReason)
  | ECloseEnd
  | ECloseNotify.

Definition state : Type := Session * gmap nat Z.

(** The renegotiations a list of actions starts. *)
Definition spawned (acts : list action) (inflight : gmap nat Z) : gmap nat Z :=
  foldl (fun m a => match a with GoRenegotiate c k => <[c := k]> m | _ => m end) inflight acts.

Definition exec (cfg : settings) (st : state) (e : event) : outcome dc_error (state * list action) :=
  let '(s, fl) := st in
  let ret (r : Session * list action) := Ok ((r.1, spawned r.2 fl), r.2) in
  match e with
  | EPublishKeys dk c ncp =>
      match ks_conn (k_primary (s_keys s)) with
      | None => ret (publishKeys dk c ncp s, [])
      | Some _ => ret (s, [])
      end
  | EPublishLease now ip peer q w =>
      match AssignedIP s, publishLease now ip peer q w s with
      | None, Some s' => ret (s', [])
      | _, _ => ret (s, [])
      end
  | EHandshakeFailed f => if l_doneCh (s_life s) then ret (s, []) else ret (handshakeFailed cfg f s)
  | EHandshakeDone =>
      match AssignedIP s with
      | Some _ => if l_doneCh (s_life s) then ret (s, []) else ret (handshakeDone cfg s)
      | None => ret (s, [])
      end
  | EPublish =>
      if l_established (s_life s) && negb (l_published (s_life s)) then ret (publishSession cfg s) else ret (s, [])
  | EHandshakeWindow pick => ret (enforceHandshakeWindow cfg pick s)
  | EData now pick p => r ← handleDataPacket cfg now pick s p; ret r
  | ERead n pick => ret ((Read s n pick).2, [])
  | EWrite ok p =>
      match Write ok s p with
      | (Panic, _, _) => Panic
      | (_, s', acts) => ret (s', acts)
      end
  | EPing hasPC => r ← emitPing hasPC s; ret r
  | EPump now cp => ret (pump now s cp)
  | ESoftReset now cp => ret (handleSoftReset cfg now s cp)
  | ETickReneg hasPC now => ret (runReneg cfg hasPC now s)
  | ETickReap now => ret (runReap cfg now s).1
  | EFinish now c res =>
      match fl !! c with
      | None => ret (s, [])
      | Some keyID =>
          r ← finishRenegotiation cfg now s c keyID res;
          Ok ((r.1, spawned r.2 (delete c fl)), r.2)
      end
  | EWindow c => ret (enforceRenegotiationWindow s c)
  | ECloseBegin r => ret (closeBegin r s, [])
  | ECloseEnd => if closing s then ret (closeEnd cfg s) else ret (s, [])
  | ECloseNotify => if l_torn (s_life s) then ret (closeNotify cfg s) else ret (s, [])
  end.

(** What the callers guarantee: keys of the right shape, a cipher with a known key
    length before the push exchange. *)
Definition event_ok (s : Session) (e : event) : Prop :=
  match e with
  | EPublishKeys dk c _ => zlen (k2_raw dk) = 256 /\ Cipher.cipherKeyLen c <> 0
  | EPublishLease _ _ _ _ _ => Cipher.cipherKeyLen (Cipher s) <> 0
  | EFinish _ _ (RenegKeys dk) => zlen (k2_raw dk) = 256
  | _ => True
  end.

Inductive reachable (cfg : settings) : state -> Prop :=
  | reach_new : reachable cfg (newSession, ∅)
  | reach_step st e st' acts : reachable cfg st -> event_ok st.1 e ->
      exec cfg st e = Ok (st', acts) -> reachable cfg st'.

(** ** Key-ids *)

Lemma nextKeyID_spec (k : Z) : 0 <= k <= 7 -> nextKeyID k = if k =? 7 then 1 else k + 1.
Proof.
  intros Hk. assert (k = 0 \/ k = 1 \/ k = 2 \/ k = 3 \/ k = 4 \/ k = 5 \/ k = 6 \/ k = 7) as Hc by lia.
  by repeat destruct Hc as [->|Hc]; [..|subst].
Qed.

(** The key slots of a session: [stop] and [torn] are [stopCh] closed and the
    teardown finished, [fl] the renegotiations in flight. *)
Record keys_inv (k : keyState) (stop torn : bool) (fl : gmap nat Z) : Prop := {
  ki_id : 0 <= ks_keyID (k_primary k) <= 7;
  ki_primary : match ks_conn (k_primary k) with
    | None => k_primary k = emptySlot /\ k_lameDuck k = emptySlot /\ k_pendingReneg k = None
    | Some _ => is_Some (ks_established (k_primary k)) /\ is_Some (ks_wrapper (k_primary k))
    end;
  ki_lame : match ks_conn (k_lameDuck k) with
    | None => k_lameDuck k = emptySlot
    | Some _ => 0 <= ks_keyID (k_lameDuck k) <= 7 /\
        ks_keyID (k_primary k) = nextKeyID (ks_keyID (k_lameDuck k)) /\
        is_Some (ks_wrapper (k_lameDuck k)) /\ is_Some (ks_mustDie (k_lameDuck k))
    end;
  ki_pending : is_Some (k_pendingReneg k) -> k_pendingRenegKeyID k = nextKeyID (ks_keyID (k_primary k));
  ki_nodup : NoDup (ownedConns k);
  ki_fresh : (0 < k_nextConn k)%nat /\ k_conn k = 0%nat /\ forall c, c ∈ ownedConns k -> (c < k_nextConn k)%nat;
  ki_torn : torn = true -> k_open k = ∅;
  ki_cover : k_open k ⊆ {[k_conn k]} ∪ list_to_set (ownedConns k);
  ki_live : stop = false -> k_open k =
    match ks_conn (k_primary k) with None => {[k_conn k]} | Some _ => list_to_set (ownedConns k) end;
  ki_flight : forall c id, fl !! c = Some id ->
    (0 < c < k_nextConn k)%nat /\ ks_conn (k_primary k) <> Some c /\ ks_conn (k_lameDuck k) <> Some c /\
    (k_pendingReneg k = Some c -> id = k_pendingRenegKeyID k) /\ is_Some (ks_conn (k_primary k));
  ki_pending_flight : stop = false -> forall c, k_pendingReneg k = Some c -> is_Some (fl !! c);
}.

Record session_inv (st : state) : Prop := {
  si_keys : keys_inv (s_keys st.1) (l_stopping (s_life st.1)) (l_torn (s_life st.1)) st.2;
  si_torn : l_torn (s_life st.1) = true -> l_stopping (s_life st.1) = true;
  si_lease : is_Some (AssignedIP st.1) <-> is_Some (ks_conn (k_primary (s_keys st.1)));
  si_cipher : is_Some (AssignedIP st.1) -> Cipher.cipherKeyLen (Cipher st.1) <> 0;
  si_reason : l_stopping (s_life st.1) = false -> getCloseReason st.1 = CloseReasonUnknown;
  si_queue : forall cap q, d_ipInbound (s_data st.1) = Some (cap, q) -> zlen q <= Z.max 0 cap;
}.

(** ** What leaves the slots alone *)

Definition stop_of (s : Session) : bool * bool := (l_stopping (s_life s), l_torn (s_life s)).

(** The same session but for wrappers, the queue, the counters and the time of the
    last authenticated traffic. *)
Record quiet (s s' : Session) : Prop := {
  q_life : s_life s' = s_life s;
  q_assigned : AssignedIP s' = AssignedIP s;
  q_cipher : Cipher s' = Cipher s;
  q_keys : s_keys s' = s_keys s \/
    (exists w, is_Some (ks_wrapper (k_primary (s_keys s))) /\
       s_keys s' = set_slots (set_wrapper w (k_primary (s_keys s))) (k_lameDuck (s_keys s)) (s_keys s)) \/
    (exists w w', is_Some (ks_wrapper (k_primary (s_keys s))) /\ is_Some (ks_wrapper (k_lameDuck (s_keys s))) /\
       s_keys s' = set_slots (set_wrapper w (k_primary (s_keys s))) (set_wrapper w' (k_lameDuck (s_keys s))) (s_keys s));
  q_queue : forall cap q', d_ipInbound (s_data s') = Some (cap, q') ->
    exists q, d_ipInbound (s_data s) = Some (cap, q) /\ (zlen q <= Z.max 0 cap -> zlen q' <= Z.max 0 cap);
}.

Lemma wrapper_inv (k : keyState) (stop torn : bool) (fl : gmap nat Z) (w : Wrapper W) :
  is_Some (ks_wrapper (k_primary k)) -> keys_inv k stop torn fl ->
  keys_inv (set_slots (set_wrapper w (k_primary k)) (k_lameDuck k) k) stop torn fl.
Proof.
  intros Hw [H1 H2 H3 H4 H5 H6 H7 H7' H8 H9 H10]. constructor; try done. cbn.
  destruct (ks_conn (k_primary k)) as [c|]; [by destruct H2|]. destruct H2 as (E & _). rewrite E in Hw. by destruct Hw.
Qed.

Lemma lame_wrapper_inv (k : keyState) (stop torn : bool) (fl : gmap nat Z) (w : Wrapper W) :
  is_Some (ks_wrapper (k_lameDuck k)) -> keys_inv k stop torn fl ->
  keys_inv (set_slots (k_primary k) (set_wrapper w (k_lameDuck k)) k) stop torn fl.
Proof.
  intros Hw [H1 H2 H3 H4 H5 H6 H7 H7' H8 H9 H10]. constructor; try done; cbn.
  - destruct (ks_conn (k_primary k)) as [c|]; [done|]. destruct H2 as (_ & E & _). rewrite E in Hw. by destruct Hw.
  - destruct (ks_conn (k_lameDuck k)) as [c|]; [by destruct H3 as (? & ? & ? & ?)|]. rewrite H3 in Hw. by destruct Hw.
Qed.

Lemma quiet_inv (s s' : Session) (fl : gmap nat Z) :
  quiet s s' -> session_inv (s, fl) -> session_inv (s', fl).
Proof.
  intros [Ql Qa Qc Qk Qq] [Hk Ht Hl Hc Hr Hq]. cbn [fst snd] in *.
  assert (Hk' : keys_inv (s_keys s') (l_stopping (s_life s')) (l_torn (s_life s')) fl).
  { rewrite Ql. destruct Qk as [->|[(w & Hw & ->)|(w & w' & Hw & Hw' & ->)]]; [done|by apply wrapper_inv|].
    by apply (lame_wrapper_inv (set_slots (set_wrapper w (k_primary (s_keys s))) (k_lameDuck (s_keys s)) (s_keys s))),
      wrapper_inv. }
  constructor; cbn [fst snd]; unfold getCloseReason in *; rewrite ?Ql, ?Qa, ?Qc; try done.
  - by rewrite Ql in Hk'.
  - rewrite Hl. by destruct Qk as [->|[(w & _ & ->)|(w & w' & _ & _ & ->)]].
  - intros cap q' E. destruct (Qq cap q' E) as (q & E0 & Hqq). apply Hqq. by eapply Hq.
Qed.

Lemma quiet_refl (s : Session) : quiet s s.
Proof. constructor; try done; [by left|]. intros cap q E. by exists q. Qed.

(** ** Quiet operations *)

Lemma touch_quiet (now : Z) (s : Session) : quiet s (touchAuthTraffic now s).
Proof. constructor; try done; [by left|]. intros cap q E. by exists q. Qed.

Lemma quiet_trans_data (s s1 s' : Session) :
  quiet s s1 -> s_life s' = s_life s1 -> s_lease s' = s_lease s1 -> s_keys s' = s_keys s1 ->
  (forall cap q', d_ipInbound (s_data s') = Some (cap, q') ->
     exists q, d_ipInbound (s_data s1) = Some (cap, q) /\ (zlen q <= Z.max 0 cap -> zlen q' <= Z.max 0 cap)) ->
  quiet s s'.
Proof.
  intros [Ql Qa Qc Qk Qq] El Ea Ek Hd. constructor.
  - by rewrite El.
  - unfold AssignedIP in *. by rewrite Ea.
  - unfold Cipher in *. by rewrite Ea.
  - by rewrite Ek.
  - intros cap q' E. destruct (Hd cap q' E) as (q1 & E1 & H1). destruct (Qq cap q1 E1) as (q & E0 & H0).
    exists q. auto.
Qed.

Lemma deliverIP_queue (pick : bool) (p : bytes) (s : Session) (cap : Z) (q' : list bytes) :
  d_ipInbound (s_data (deliverIP pick p s)) = Some (cap, q') ->
  exists q, d_ipInbound (s_data s) = Some (cap, q) /\ (zlen q <= Z.max 0 cap -> zlen q' <= Z.max 0 cap).
Proof.
  unfold deliverIP. destruct (d_ipInbound (s_data s)) as [[cap0 q0]|] eqn:Eq.
  - destruct (Z.ltb_spec (zlen q0) cap0); destruct (closing s), pick; cbn; rewrite ?Eq; intros E;
      injection E as <- <-; eexists; (split; [done|]); rewrite ?zlen_app; try done; change (zlen [p]) with 1; lia.
  - destruct (closing s); cbn; rewrite ?Eq; done.
Qed.

Lemma deliverIP_rest (pick : bool) (p : bytes) (s : Session) :
  s_life (deliverIP pick p s) = s_life s /\ s_lease (deliverIP pick p s) = s_lease s /\
  s_keys (deliverIP pick p s) = s_keys s.
Proof.
  unfold deliverIP. destruct (d_ipInbound (s_data s)) as [[cap q]|]; [destruct (zlen q <? cap)|];
    destruct (closing s), pick; done.
Qed.

(** ** Closing connections *)

Definition starts (a : action) : bool := match a with GoRenegotiate _ _ => true | _ => false end.

Lemma spawned_none (acts : list action) (fl : gmap nat Z) :
  Forall (fun a => starts a = false) acts -> spawned acts fl = fl.
Proof. induction 1 as [|a acts Ha _ IH]; [done|]. cbn. by destruct a. Qed.

Lemma closeConn_keys (c : nat) (s : Session) :
  s_keys (closeConn c s) = set_open (k_open (s_keys s) ∖ {[c]}) (s_keys s).
Proof. done. Qed.

Lemma closeConns_eq (cs : list nat) (s : Session) :
  closeConns cs s = set_keys (set_open (k_open (s_keys s) ∖ list_to_set cs) (s_keys s)) s.
Proof.
  revert s. induction cs as [|c cs IH]; intros s; cbn.
  - replace (k_open (s_keys s) ∖ ∅) with (k_open (s_keys s)) by set_solver.
    unfold set_keys, set_open. destruct s as [[] ? ? ?]. done.
  - unfold closeConns in IH. rewrite IH. unfold closeConn, set_keys, set_open. cbn. f_equal. f_equal. set_solver.
Qed.

(** Closing connections keeps the slots' invariant once the session is stopping. *)
Lemma close_keys_inv (k : keyState) (torn torn' : bool) (fl : gmap nat Z) (o : gset nat) :
  o ⊆ k_open k -> (torn' = true -> o = ∅) -> keys_inv k true torn fl -> keys_inv (set_open o k) true torn' fl.
Proof.
  intros Ho Ht [H1 H2 H3 H4 H5 H6 H7 H7' H8 H9 H10]. constructor; try done.
  cbn. etrans; [exact Ho|done].
Qed.

Lemma closeBegin_inv (r : CloseReason) (s : Session) (fl : gmap nat Z) :
  session_inv (s, fl) -> session_inv (closeBegin r s, fl).
Proof.
  intros [Hk Ht Hl Hc Hr Hq]. unfold closeBegin. cbn in *. destruct (l_stopping (s_life s)) eqn:El.
  { constructor; cbn; rewrite ?El; done. }
  constructor; cbn; try done. destruct Hk as [H1 H2 H3 H4 H5 H6 H7 H7' H8 H9 H10]. by constructor.
Qed.

(** After the teardown no connection is open. *)
Ltac quiet_acts :=
  repeat first
    [ apply Forall_app; split
    | apply Forall_cons; split; [reflexivity|]
    | apply Forall_nil; exact I
    | apply Forall_map, Forall_true; reflexivity
    | case_match ].

Lemma closeEnd_inv (cfg : settings) (s : Session) (fl : gmap nat Z) :
  session_inv (s, fl) -> closing s = true ->
  session_inv ((closeEnd cfg s).1, fl) /\ k_open (s_keys (closeEnd cfg s).1) = ∅ /\
  spawned (closeEnd cfg s).2 fl = fl.
Proof.
  intros [Hk Ht Hl Hc Hr Hq] Hcl. unfold closing in Hcl. cbn [fst snd] in *. rewrite Hcl in Hk. unfold closeEnd.
  destruct (l_torn (s_life s)) eqn:Et.
  - assert (Ho : k_open (s_keys s) = ∅) by by apply (ki_torn _ _ _ _ Hk). cbn. split_and!; [|set_solver|done].
    constructor; cbn; try done. rewrite Hcl, Et.
    apply (close_keys_inv _ true); [set_solver|set_solver|done].
  - rewrite closeConns_eq. cbn. assert (Ho : k_open (s_keys s) ∖ list_to_set (ownedConns (s_keys s)) ∖ {[k_conn (s_keys s)]} = ∅).
    { pose proof (ki_cover _ _ _ _ Hk). set_solver. }
    split_and!; [|exact Ho|].
    + constructor; cbn; rewrite ?Hcl; try done.
      rewrite Ho. by apply (close_keys_inv (s_keys s) false true).
    + apply spawned_none. quiet_acts.
Qed.

Lemma closeWithReason_inv (cfg : settings) (r : CloseReason) (s : Session) (fl : gmap nat Z) :
  session_inv (s, fl) ->
  session_inv ((teardown cfg r s).1, fl) /\ spawned (teardown cfg r s).2 fl = fl.
Proof.
  intros Hi. unfold teardown.
  destruct (closeEnd_inv cfg (closeBegin r s) fl) as (H1 & _ & H2); [by apply closeBegin_inv|..|done].
  unfold closing, closeBegin. by destruct (l_stopping (s_life s)) eqn:E.
Qed.

(** ** The data path *)

Lemma accept_inv (cfg : settings) (now : Z) (pick : bool) (p : bytes) (s s0 : Session) (fl : gmap nat Z) :
  quiet s0 s -> session_inv (s0, fl) ->
  session_inv ((acceptPlaintext cfg now pick p s).1, fl) /\
  spawned (acceptPlaintext cfg now pick p s).2 fl = fl.
Proof.
  intros Hq Hi. unfold acceptPlaintext.
  assert (Ht : quiet s0 (touchAuthTraffic now s)).
  { destruct Hq as [Ql Qa Qc Qk Qq]. by constructor. }
  destruct (isExitNotify p); [apply closeWithReason_inv; by apply (quiet_inv s0)|].
  split; [|done]. apply (quiet_inv s0); [|done]. cbn [fst].
  destruct (deliverIP_rest pick p (countPacket p (touchAuthTraffic now s))) as (E1 & E2 & E3).
  apply (quiet_trans_data s0 (touchAuthTraffic now s)); try done.
  intros cap q' E. by apply deliverIP_queue in E.
Qed.

Lemma set_primary_quiet (w w0 : Wrapper W) (s : Session) :
  ks_wrapper (k_primary (s_keys s)) = Some w0 -> quiet s (set_primary_wrapper w s).
Proof.
  intros Hw. constructor; try done; [|intros cap q E; by exists q].
  right. left. exists w. split; [by exists w0|done].
Qed.

Lemma set_lame_quiet (w w' w0 w1 : Wrapper W) (s : Session) :
  ks_wrapper (k_primary (s_keys s)) = Some w0 -> ks_wrapper (k_lameDuck (s_keys s)) = Some w1 ->
  quiet s (set_lame_wrapper w' (set_primary_wrapper w s)).
Proof.
  intros Hw Hl. constructor; try done; [|intros cap q E; by exists q].
  right. right. exists w, w'. split_and!; [by exists w0|by exists w1|done].
Qed.

Lemma keepalive_quiet (now : Z) (s0 s : Session) :
  quiet s0 s -> quiet s0 (countKeepalive (touchAuthTraffic now s)).
Proof. intros [Ql Qa Qc Qk Qq]. by constructor. Qed.

Lemma Open_no_panic (w : Wrapper W) (packet : bytes) : (Open w [] packet).1 <> Panic.
Proof.
  rewrite Open_result. destruct (zlen packet <? 24); [done|]. destruct (opened w packet); [|done].
  destruct (ar_accept _ _) as [ok r]. destruct ok; [|done]. cbn. by destruct (IsPing _).
Qed.

Lemma handleDataPacket_inv (cfg : settings) (now : Z) (pick : bool) (s : Session) (fl : gmap nat Z) (packet : bytes) :
  session_inv (s, fl) ->
  exists s' acts, handleDataPacket cfg now pick s packet = Ok (s', acts) /\ session_inv (s', fl) /\
    spawned acts fl = fl.
Proof.
  intros Hi. unfold handleDataPacket. destruct (ks_wrapper (k_primary (s_keys s))) as [w|] eqn:Ew; [|by exists s, []].
  pose proof (Open_no_panic w packet) as Hp. destruct (Open w [] packet) as [r w'] eqn:Eo.
  pose proof (set_primary_quiet w' w s Ew) as Hq1.
  destruct r as [p|e|]; [| |done].
  - eexists _, _. split; [apply f_equal, surjective_pairing|]. by apply (accept_inv _ _ _ _ _ s).
  - assert (Hlame : exists s' acts,
      match ks_wrapper (k_lameDuck (s_keys s)) with
      | None => Ok (set_primary_wrapper w' s, [])
      | Some lw =>
          if negb (before now (ks_mustDie (k_lameDuck (s_keys s)))) then Ok (set_primary_wrapper w' s, []) else
          let '(res, lw) := Open lw [] packet in
          let s := set_lame_wrapper lw (set_primary_wrapper w' s) in
          match res with
          | Panic => Panic
          | Ok plaintext => Ok (acceptPlaintext cfg now pick plaintext s)
          | Err ErrPingAbsorbed => Ok (countKeepalive (touchAuthTraffic now s), [])
          | Err _ => Ok (s, [])
          end
      end = Ok (E := dc_error) (s', acts) /\ session_inv (s', fl) /\ spawned acts fl = fl).
    { destruct (ks_wrapper (k_lameDuck (s_keys s))) as [lw|] eqn:El.
      2:{ eexists _, []. split_and!; [done|by apply (quiet_inv s)|done]. }
      destruct (before _ _); cbn [negb]; [|eexists _, []; split_and!; [done|by apply (quiet_inv s)|done]].
      pose proof (Open_no_panic lw packet) as Hp2. destruct (Open lw [] packet) as [r2 lw'] eqn:Eo2.
      pose proof (set_lame_quiet w' lw' w lw s Ew El) as Hq2.
      destruct r2 as [p|e2|]; [| |done].
      - eexists _, _. split; [apply f_equal, surjective_pairing|]. by apply (accept_inv _ _ _ _ _ s).
      - destruct e2; eexists _, []; (split_and!; [done| |done]); apply (quiet_inv s); try done;
          by apply keepalive_quiet. }
    destruct e; try exact Hlame. eexists _, []. split_and!; [done| |done].
    by apply (quiet_inv s), Hi; apply keepalive_quiet.
Qed.

Lemma Read_quiet (s : Session) (n : Z) (pick : bool) : quiet s (Read s n pick).2.
Proof.
  unfold Read. destruct (d_pendingRead (s_data s)) as [pkt|].
  - destruct (n <? zlen pkt); [apply quiet_refl|]. constructor; try done; [by left|]. intros cap q E. by exists q.
  - destruct (d_ipInbound (s_data s)) as [[cap [|pkt q]]|] eqn:Eq;
      [destruct (closing s); apply quiet_refl| |destruct (closing s); apply quiet_refl].
    destruct (closing s && pick); [apply quiet_refl|].
    destruct (n <? zlen pkt); (constructor; try done; [by left|]); cbn; intros cap' q' [= <- <-];
      exists (pkt :: q); (split; [done|]); rewrite zlen_cons; lia.
Qed.

Section renegotiation.
Context `{!AEADLaws}.

Lemma Seal_ok (w : Wrapper W) (p : bytes) : (Seal w [] p).1 <> Panic.
Proof.
  unfold Seal, nextPacketID. destruct (w_sendSeq w =? 4294967295); [done|]. cbn. outcome_simpl.
  by destruct (sealWithSeq_ok (with_sendSeq w (w_sendSeq w +u32 1)) (w_sendSeq w +u32 1) p) as (ct & tag & -> & _).
Qed.

Lemma Write_inv (ok : option (bytes -> bool)) (s : Session) (p : bytes) (fl : gmap nat Z) :
  session_inv (s, fl) ->
  exists r s' acts, Write ok s p = (r, s', acts) /\ r <> Panic /\ session_inv (s', fl) /\ spawned acts fl = fl.
Proof.
  intros Hi. unfold Write. destruct (closing s); [by eexists _, s, []|].
  destruct (ks_wrapper (k_primary (s_keys s))) as [w|] eqn:Ew; [|by eexists _, s, []].
  pose proof (Seal_ok w p) as Hp. destruct (Seal w [] p) as [r w']. pose proof (set_primary_quiet w' w s Ew) as Hq.
  assert (Hi' : session_inv (set_primary_wrapper w' s, fl)) by by apply (quiet_inv s).
  destruct r as [sealed|e|]; [| |done].
  - destruct ok as [ok|]; [|by eexists _, _, []].
    destruct (ok sealed); cbn [negb]; [|by eexists _, _, [SendData sealed]].
    eexists _, _, _. split_and!; [done|done| |done]. apply (quiet_inv s); [|done].
    apply (quiet_trans_data s (set_primary_wrapper w' s)); try done. intros cap q E. by exists q.
  - by eexists _, _, [].
Qed.

Lemma emitPing_inv (hasPC : bool) (s : Session) (fl : gmap nat Z) :
  session_inv (s, fl) ->
  exists s' acts, emitPing hasPC s = Ok (s', acts) /\ session_inv (s', fl) /\ spawned acts fl = fl.
Proof.
  intros Hi. unfold emitPing. destruct (ks_wrapper (k_primary (s_keys s))) as [w|] eqn:Ew; [|by eexists s, []].
  pose proof (Seal_ok w pingMagic) as Hp. unfold SealPing. destruct (Seal w [] pingMagic) as [r w'].
  assert (Hi' : session_inv (set_primary_wrapper w' s, fl)) by (apply (quiet_inv s); [by apply (set_primary_quiet w' w)|done]).
  destruct r as [sealed|e|]; [| |done]; (eexists _, _; split_and!; [done|done|]); [by destruct hasPC|done].
Qed.

(** ** Renegotiation *)

Lemma closing_eq (s : Session) : closing s = l_stopping (s_life s).
Proof. done. Qed.

(** A renegotiation that starts adds its connection as the pending one. *)
Lemma start_inv (cfg : settings) (now : Z) (want : option Z) (s : Session) (fl : gmap nat Z) :
  session_inv (s, fl) ->
  match startRenegotiation cfg now want s with
  | (None, s') => s' = s
  | (Some (c, keyID), s') => session_inv (s', <[c := keyID]> fl)
  end.
Proof.
  intros Hi. unfold startRenegotiation. destruct (closing s) eqn:Ecl; [done|].
  destruct (_ || _) eqn:Eest; [done|]. destruct (bool_decide (is_Some (k_pendingReneg _))) eqn:Ep; [done|].
  destruct (bool_decide _ && _); [done|]. destruct (match want with Some _ => _ | None => false end); [done|].
  rewrite closing_eq in Ecl. apply bool_decide_eq_false, eq_None_not_Some in Ep.
  apply orb_false_elim in Eest as [Ec%negb_false_iff%bool_decide_eq_true _]. destruct Ec as [c Ec].
  destruct Hi as [Hk Ht Hl Hc Hr Hq]. cbn [fst snd] in *.
  set (k := s_keys s) in *. destruct Hk as [H1 H2 H3 H4 H5 [H6 [H6' Hfr]] H7 H7' H8 H9 H10].
  constructor; cbn [fst snd]; try done. cbn [s_keys set_keys s_life].
  assert (Howned : forall k', ks_conn (k_primary k') = Some c -> k_lameDuck k' = k_lameDuck k -> k_pendingReneg k' = Some (k_nextConn k) ->
    ownedConns k' = ownedConns k ++ [k_nextConn k]).
  { intros k' E1 E2 E3. unfold ownedConns. rewrite E1, E2, E3, Ec, Ep. cbn. by destruct (ks_conn (k_lameDuck k)). }
  assert (Hcid : forall d, Some d = ks_conn (k_primary k) \/ Some d = ks_conn (k_lameDuck k) -> (d < k_nextConn k)%nat).
  { intros d Hd. apply Hfr. unfold ownedConns. destruct Hd as [E|E]; rewrite <- E; cbn.
    - apply list_elem_of_here.
    - destruct (ks_conn (k_primary k)); [apply list_elem_of_further|]; apply list_elem_of_here. }
  constructor; cbn; try done.
  - rewrite Ec in *. done.
  - rewrite Howned by done. apply NoDup_app. split_and!; [done| |apply NoDup_singleton].
    intros d Hd%Hfr ->%list_elem_of_singleton. lia.
  - split_and!; [lia|done|]. intros d. rewrite Howned by done. intros [Hd%Hfr| ->%list_elem_of_singleton]%elem_of_app; lia.
  - intros E. specialize (Ht E). congruence.
  - rewrite Howned, list_to_set_app_L by done. clear -H7'. set_solver.
  - intros _. specialize (H8 Ecl). rewrite Ec in *. rewrite Howned, list_to_set_app_L, H8 by done. clear. set_solver.
  - intros d id. destruct (decide (d = k_nextConn k)) as [->|Hne].
    + rewrite lookup_insert_eq. intros [= <-]. split_and!; [lia|lia| | |done|by exists c].
      * intros E. symmetry in E. specialize (Hcid _ (or_introl E)). lia.
      * intros E. symmetry in E. specialize (Hcid _ (or_intror E)). lia.
    + rewrite lookup_insert_ne by done. intros Hd. destruct (H9 d id Hd) as (? & ? & ? & ? & ?).
      split_and!; try done; try lia. intros [= E]. lia.
  - intros _ d [= <-]. exists (nextKeyID (ks_keyID (k_primary k))). by rewrite lookup_insert_eq.
Qed.

Lemma owned_eq (k : keyState) :
  ownedConns k = option_list (ks_conn (k_primary k)) ++ option_list (ks_conn (k_lameDuck k)) ++
                 option_list (k_pendingReneg k).
Proof.
  unfold ownedConns. destruct (ks_conn (k_primary k)), (ks_conn (k_lameDuck k)), (k_pendingReneg k); done.
Qed.

(** A number that occurs once, taken out. *)
Lemma set_without (a b : list nat) (c : nat) :
  NoDup (a ++ c :: b) ->
  NoDup (a ++ b) /\ (list_to_set (a ++ c :: b) : gset nat) ∖ {[c]} = list_to_set (a ++ b).
Proof.
  intros Hn. apply NoDup_app in Hn as (Ha & Hd & [Hc Hb]%NoDup_cons). split.
  - apply NoDup_app. split_and!; [done| |done]. intros x Hx Hxb. apply (Hd x Hx). by apply list_elem_of_further.
  - apply set_eq. intros x. rewrite elem_of_difference, !elem_of_list_to_set, !elem_of_app, elem_of_cons, elem_of_singleton.
    split; [tauto|]. intros [Hx|Hx]; (split; [tauto|intros ->]); [exact (Hd _ Hx (list_elem_of_here _ _))|done].
Qed.

(** The lame duck goes. *)
Lemma drop_lame_inv (k : keyState) (stop torn : bool) (fl : gmap nat Z) (c : nat) :
  keys_inv k stop torn fl -> ks_conn (k_lameDuck k) = Some c ->
  keys_inv (set_open (k_open k ∖ {[c]}) (set_slots (k_primary k) emptySlot k)) stop torn fl.
Proof.
  intros [H1 H2 H3 H4 H5 (H6 & H6' & Hfr) H7 H7' H8 H9 H10] Ec. set (k' := set_open _ _).
  assert (Ep : is_Some (ks_conn (k_primary k))).
  { destruct (ks_conn (k_primary k)) eqn:E; [done|]. destruct H2 as (_ & E2 & _). by rewrite E2 in Ec. }
  rewrite owned_eq, Ec in *. cbn [option_list app] in *.
  assert (Eo : ownedConns k' = option_list (ks_conn (k_primary k)) ++ option_list (k_pendingReneg k)) by by rewrite owned_eq.
  destruct (set_without _ _ _ H5) as [Hn Hs].
  constructor; try done.
  - cbn. destruct (ks_conn (k_primary k)) eqn:E; [done|by destruct Ep].
  - by rewrite Eo.
  - cbn. split_and!; [done|done|]. intros d. rewrite Eo. intros Hd. apply Hfr.
    apply elem_of_app in Hd as [?|?]; apply elem_of_app; [by left|right; by apply list_elem_of_further].
  - intros Et. cbn. rewrite (H7 Et). clear. set_solver.
  - rewrite Eo. cbn. clear -H7'. set_solver.
  - intros Es. cbn. rewrite Eo. specialize (H8 Es). destruct Ep as [p Ep']. rewrite Ep' in *. rewrite H8. exact Hs.
  - intros d id Hd. destruct (H9 d id Hd) as (? & ? & ? & ? & ?). subst k'. cbn. split_and!; (done || lia).
Qed.

Lemma sweep_inv (now : Z) (s : Session) (fl : gmap nat Z) :
  session_inv (s, fl) ->
  session_inv ((sweepLameDuck now s).1, fl) /\ spawned (sweepLameDuck now s).2 fl = fl.
Proof.
  intros Hi. unfold sweepLameDuck. destruct (_ && _) eqn:E; [|done].
  apply andb_true_iff in E as [Ew%bool_decide_eq_true _].
  destruct Hi as [Hk Ht Hl Hc Hr Hq]. cbn [fst snd] in *.
  destruct (ks_conn (k_lameDuck (s_keys s))) as [c|] eqn:Ec.
  - split; [|done]. constructor; try done. exact (drop_lame_inv (s_keys s) _ _ _ c Hk Ec).
  - exfalso. pose proof (ki_lame _ _ _ _ Hk) as H3. rewrite Ec in H3. rewrite H3 in Ew. by destruct Ew.
Qed.

Lemma touch_inv (now : Z) (s : Session) (fl : gmap nat Z) :
  session_inv (s, fl) -> session_inv (touchAuthTraffic now s, fl).
Proof. apply quiet_inv, touch_quiet. Qed.

Lemma begin_inv (cfg : settings) (now : Z) (s : Session) (cp : ControlPacket) (fl : gmap nat Z) :
  session_inv (s, fl) ->
  session_inv ((beginRenegotiation cfg now s cp).1, spawned (beginRenegotiation cfg now s cp).2 fl).
Proof.
  intros Hi. unfold beginRenegotiation. pose proof (start_inv cfg now (Some (cp_KeyID cp)) s fl Hi) as Hst.
  destruct (startRenegotiation cfg now _ s) as [[[c id]|] s']; [done|]. by subst s'.
Qed.

Lemma checkReneg_inv (cfg : settings) (hasPC : bool) (now : Z) (s : Session) (fl : gmap nat Z) :
  session_inv (s, fl) ->
  session_inv ((checkReneg cfg hasPC now s).1, spawned (checkReneg cfg hasPC now s).2 fl).
Proof.
  intros Hi. unfold checkReneg. destruct (ks_established _); [|done]. destruct (_ <? _); [done|].
  destruct hasPC; [|done]. cbn [negb]. pose proof (start_inv cfg now None s fl Hi) as Hst.
  destruct (startRenegotiation cfg now _ s) as [[[c id]|] s']; [done|]. by subst s'.
Qed.

Lemma soft_inv (cfg : settings) (now : Z) (s : Session) (cp : ControlPacket) (fl : gmap nat Z) :
  session_inv (s, fl) ->
  session_inv ((handleSoftReset cfg now s cp).1, spawned (handleSoftReset cfg now s cp).2 fl).
Proof.
  intros Hi. unfold handleSoftReset. destruct (routeControlPacket s _); [by apply touch_inv|by apply begin_inv].
Qed.

Lemma pump_inv (now : Z) (s : Session) (cp : ControlPacket) (fl : gmap nat Z) :
  session_inv (s, fl) -> session_inv ((pump now s cp).1, fl) /\ spawned (pump now s cp).2 fl = fl.
Proof.
  intros Hi. unfold pump. destruct (closing s); [done|]. destruct (routeControlPacket s _); [|done].
  split; [by apply touch_inv|done].
Qed.

(** A renegotiation is called off: its connection is closed and no longer pending. *)
Lemma abandon_keys_inv (k : keyState) (stop torn : bool) (fl : gmap nat Z) (c : nat) :
  keys_inv k stop torn fl -> k_pendingReneg k = Some c ->
  ks_conn (k_primary k) <> Some c -> ks_conn (k_lameDuck k) <> Some c ->
  keys_inv (set_open (k_open k ∖ {[c]}) (set_pending None k)) stop torn fl.
Proof.
  intros [H1 H2 H3 H4 H5 (H6 & H6' & Hfr) H7 H7' H8 H9 H10] Ec Hp Hlm. set (k' := set_open _ _).
  rewrite owned_eq, Ec in *. cbn [option_list] in *. rewrite (assoc_L (++)) in *.
  assert (Eo : ownedConns k' = (option_list (ks_conn (k_primary k)) ++ option_list (ks_conn (k_lameDuck k))) ++ [])
    by (rewrite owned_eq; by rewrite (assoc_L (++))).
  destruct (set_without _ _ _ H5) as [Hn Hs].
  constructor; try done.
  - cbn. destruct (ks_conn (k_primary k)); [done|]. by destruct H2 as (? & ? & ?).
  - by intros [? ?].
  - by rewrite Eo.
  - split_and!; [done|done|]. intros d. rewrite Eo, app_nil_r. intros Hd. apply Hfr, elem_of_app. by left.
  - intros Et. cbn. rewrite (H7 Et). clear. set_solver.
  - rewrite Eo. cbn. clear -H7'. set_solver.
  - intros Es. cbn. rewrite Eo. specialize (H8 Es). destruct (ks_conn (k_primary k)) eqn:E.
    + rewrite H8. exact Hs.
    + destruct H2 as (_ & _ & H2). congruence.
  - intros d id Hd. destruct (H9 d id Hd) as (? & ? & ? & ? & ?). subst k'. cbn. split_and!; (done || lia).
Qed.

(** Closing a connection no slot has. *)
Lemma stray_keys_inv (k : keyState) (stop torn : bool) (fl : gmap nat Z) (c : nat) :
  keys_inv k stop torn fl -> c <> 0%nat -> (stop = false -> c ∉ ownedConns k) ->
  keys_inv (set_open (k_open k ∖ {[c]}) k) stop torn fl.
Proof.
  intros [H1 H2 H3 H4 H5 H6 H7 H7' H8 H9 H10] H0c Hc. constructor; try done; cbn.
  - intros Et. rewrite (H7 Et). clear. set_solver.
  - etrans; [|exact H7']. clear. set_solver.
  - intros Es. rewrite (H8 Es). specialize (Hc Es). change (ownedConns (set_open _ k)) with (ownedConns k).
    destruct (ks_conn (k_primary k)); apply difference_disjoint_L.
    + apply disjoint_singleton_r. by rewrite elem_of_list_to_set.
    + apply disjoint_singleton_r. rewrite elem_of_singleton. destruct H6 as (_ & -> & _). done.
Qed.

Lemma flight_delete (k : keyState) (stop torn : bool) (fl : gmap nat Z) (c : nat) :
  keys_inv k stop torn fl -> (stop = false -> k_pendingReneg k <> Some c) ->
  keys_inv k stop torn (delete c fl).
Proof.
  intros [H1 H2 H3 H4 H5 H6 H7 H7' H8 H9 H10] Hc. constructor; try done.
  - intros d id [_ Hd]%lookup_delete_Some. by apply H9.
  - intros Es d Hd. rewrite lookup_delete_ne by (intros ->; by apply (Hc Es)). by apply H10.
Qed.

Lemma with_keys_inv (s : Session) (k : keyState) (fl fl' : gmap nat Z) :
  session_inv (s, fl) -> ks_conn (k_primary k) = ks_conn (k_primary (s_keys s)) ->
  keys_inv k (l_stopping (s_life s)) (l_torn (s_life s)) fl' -> session_inv (set_keys k s, fl').
Proof.
  intros [Hk Ht Hl Hc Hr Hq] E Hk'. constructor; try done. cbn [fst snd] in *. cbn. by rewrite E.
Qed.

Lemma abandon_inv (s : Session) (fl : gmap nat Z) (c : nat) (id : Z) :
  session_inv (s, fl) -> fl !! c = Some id ->
  session_inv ((abandon c s).1, delete c fl) /\ spawned (abandon c s).2 (delete c fl) = delete c fl.
Proof.
  intros Hi Hc. split; [|done]. pose proof (si_keys _ Hi) as Hk. cbn [fst snd] in Hk.
  destruct (ki_flight _ _ _ _ Hk c id Hc) as (Hlt & Hp & Hlm & _ & _).
  unfold abandon, clearPending. case_bool_decide as Ep; cbn [fst].
  - apply (with_keys_inv s _ fl); [done|done|]. apply flight_delete; [|done].
    exact (abandon_keys_inv (s_keys s) _ _ fl c Hk Ep Hp Hlm).
  - apply (with_keys_inv s _ fl); [done|done|]. apply flight_delete; [|done].
    apply stray_keys_inv; [done|lia|]. intros _. rewrite owned_eq, !elem_of_app.
    intros [Hin|[Hin|Hin]]; [destruct (ks_conn (k_primary _))|destruct (ks_conn (k_lameDuck _))|destruct (k_pendingReneg _)];
      cbn in Hin; rewrite ?list_elem_of_singleton in Hin; try (by apply elem_of_nil in Hin); by subst.
Qed.

Lemma window_inv (s : Session) (fl : gmap nat Z) (c : nat) :
  session_inv (s, fl) ->
  session_inv ((enforceRenegotiationWindow s c).1, fl) /\ spawned (enforceRenegotiationWindow s c).2 fl = fl.
Proof.
  intros Hi. unfold enforceRenegotiationWindow. case_bool_decide as Ep; [|done]. split; [|done].
  pose proof (si_keys _ Hi) as Hk. cbn [fst snd] in Hk. unfold abandon, clearPending.
  rewrite bool_decide_eq_true_2 by done. apply (with_keys_inv s _ fl); [done|done|].
  pose proof (ki_nodup _ _ _ _ Hk) as Hn. rewrite owned_eq, Ep in Hn.
  apply (abandon_keys_inv (s_keys s) _ _ fl c Hk Ep); intros E; rewrite E in Hn; cbn in Hn.
  - apply NoDup_cons in Hn as [Hn _]. apply Hn. apply elem_of_app. right. apply list_elem_of_here.
  - apply NoDup_app in Hn as (_ & _ & [Hn _]%NoDup_cons). apply Hn, list_elem_of_here.
Qed.

(** The key slots after the swap. *)
Definition swapped (now : Z) (c : nat) (id : Z) (w : Wrapper W) (dataKeys : Key2) (k : keyState) : keyState :=
  let p := k_primary k in
  mkKeys (mkSlot id (Some c) (Some w) (Some now) None)
    (mkSlot (ks_keyID p) (ks_conn p) (ks_wrapper p) (ks_established p) (Some (now + transitionWindow)))
    None (k_pendingRenegKeyID k) (k_lastRenegAccepted k) (u32 (k_renegotiations k + 1))
    (Some dataKeys) (k_conn k)
    (match ks_conn (k_lameDuck k) with Some d => k_open k ∖ {[d]} | None => k_open k end) (k_nextConn k).

Lemma nextKeyID_range (k : Z) : 0 <= k <= 7 -> 0 <= nextKeyID k <= 7.
Proof. intros Hk. rewrite nextKeyID_spec by done. destruct (Z.eqb_spec k 7); lia. Qed.

(** The three connections of the slots before the swap, and what the swap makes of
    them: the pending one leads, the old primary follows, the old lame duck is gone. *)
Lemma swapped_owned (k : keyState) (c p : nat) (now id : Z) (w : Wrapper W) (dk : Key2) :
  k_pendingReneg k = Some c -> ks_conn (k_primary k) = Some p ->
  ownedConns k = p :: option_list (ks_conn (k_lameDuck k)) ++ [c] /\
  ownedConns (swapped now c id w dk k) = [c; p].
Proof. intros Ec Ep. rewrite !owned_eq, Ec, Ep. unfold swapped. cbn. by rewrite Ep. Qed.

Lemma swapped_inv (k : keyState) (torn : bool) (fl : gmap nat Z) (now id : Z) (c : nat) (w : Wrapper W) (dk : Key2) :
  keys_inv k false torn fl -> k_pendingReneg k = Some c -> fl !! c = Some id -> (torn = true -> False) ->
  keys_inv (swapped now c id w dk k) false torn (delete c fl).
Proof.
  intros [H1 H2 H3 H4 H5 (H6 & H6' & Hfr) H7 H7' H8 H9 H10] Ec Hfl Htorn.
  destruct (H9 c id Hfl) as (Hlt & Hp & Hl & Hid & [p Ep]). specialize (Hid Ec).
  destruct (swapped_owned k c p now id w dk Ec Ep) as [Eo Eo'].
  rewrite Ep in *. rewrite Eo in *. specialize (H8 eq_refl).
  assert (Hpc : p <> c) by congruence. assert (Hp' : (p < k_nextConn k)%nat) by (apply Hfr, list_elem_of_here).
  assert (Hopen : k_open (swapped now c id w dk k) = {[c; p]}).
  { cbn. rewrite H8. destruct (ks_conn (k_lameDuck k)) as [d|]; cbn.
    - apply NoDup_cons in H5 as [Hpd H5]. cbn in *. apply NoDup_cons in H5 as [Hdc _].
      assert (Hpd' : p <> d) by (intros ->; by apply Hpd, list_elem_of_here).
      assert (Hdc' : d <> c) by congruence. clear -Hpd' Hdc'. set_solver.
    - clear. set_solver. }
  assert (Hidr : id = nextKeyID (ks_keyID (k_primary k))) by (rewrite Hid; apply H4; by exists c).
  constructor; rewrite ?Hopen, ?Eo'; try done; cbn.
  - rewrite Hidr. by apply nextKeyID_range.
  - rewrite Ep. destruct H2 as [? Hw]. split; [done|]. split; [done|]. split; [done|by exists (now + transitionWindow)].
  - by intros [? ?].
  - apply NoDup_cons. split; [|apply NoDup_singleton]. intros E%list_elem_of_singleton. by symmetry in E.
  - split_and!; [done|done|]. intros d [->|[->|E%elem_of_nil]%elem_of_cons]%elem_of_cons; [lia|lia|done].
  - clear. set_solver.
  - intros _. clear. set_solver.
  - intros d id' [Hne Hd]%lookup_delete_Some. destruct (H9 d id' Hd) as (? & ? & ? & ? & ?).
    split_and!; try done; try congruence; lia.
Qed.

Lemma finish_inv (cfg : settings) (now : Z) (s : Session) (fl : gmap nat Z) (c : nat) (id : Z) (res : reneg_result) :
  session_inv (s, fl) -> fl !! c = Some id ->
  match res with RenegKeys dk => zlen (k2_raw dk) = 256 | _ => True end ->
  exists s' acts, finishRenegotiation cfg now s c id res = Ok (s', acts) /\
    session_inv (s', delete c fl) /\ spawned acts (delete c fl) = delete c fl.
Proof.
  intros Hi Hfl Hres. unfold finishRenegotiation. destruct (abandon_inv s fl c id Hi Hfl) as [Ha Ha'].
  destruct res as [| |dk]; [by eexists _, _; rewrite <- surjective_pairing| |].
  { destruct (abandon c s) as [s1 a1]. cbn [fst snd] in *.
    destruct (closeWithReason_inv cfg CloseReasonAuthFailed s1 (delete c fl) Ha) as [Hc Hc'].
    destruct (teardown _ _ s1) as [s2 a2]. cbn [fst snd] in *. eexists _, _. split_and!; [done|done|].
    unfold spawned in *. by rewrite foldl_app, Ha'. }
  pose proof (si_keys _ Hi) as Hk. cbn [fst snd] in Hk. destruct (ki_flight _ _ _ _ Hk c id Hfl) as (Hlt & Hp & Hlm & _ & Hest).
  unfold swapKeys. case_bool_decide as Ep.
  2:{ rewrite orb_true_r. eexists _, _. split_and!; [done| |done].
      replace (closeConn c s) with ((abandon c s).1); [done|]. unfold abandon, clearPending. by rewrite bool_decide_eq_false_2. }
  destruct (closing s) eqn:Ecl; cbn [orb negb].
  { eexists _, _. split_and!; [done| |done]. apply (with_keys_inv s _ fl); [done|done|].
    rewrite closing_eq in Ecl. rewrite Ecl in *. apply flight_delete; [|done]. by apply stray_keys_inv; [|lia|]. }
  rewrite closing_eq in Ecl. apply (si_lease _ Hi) in Hest. apply (si_cipher _ Hi), Cipher.cipherKeyLen_cases in Hest.
  destruct dk as [raw]. cbn [k2_raw] in Hres. cbn [fst] in Hest.
  destruct (Cipher.server_wrapper_ok (W := W) raw _ (PeerID s) id Hres Hest) as (keys & w & -> & Hw & _). rewrite Hw.
  assert (Hk' : keys_inv (swapped now c id w (mkKey2 raw) (s_keys s)) (l_stopping (s_life s)) (l_torn (s_life s)) (delete c fl)).
  { rewrite Ecl in *. apply swapped_inv; try done. intros Et. pose proof (si_torn _ Hi Et) as E. cbn in E. congruence. }
  destruct Hi as [_ Ht Hl Hc Hr Hq]. cbn [fst snd] in *.
  assert (Hset : session_inv (set_keys (swapped now c id w (mkKey2 raw) (s_keys s)) s, delete c fl)).
  { constructor; try done. cbn. split; [by eexists|]. intros _. apply Hl.
    destruct (ki_flight _ _ _ _ Hk c id Hfl) as (_ & _ & _ & _ & ?). done. }
  eexists _, _. split; [apply f_equal, surjective_pairing|]. unfold swapped in Hset.
  by destruct (ks_conn (k_lameDuck (s_keys s))).
Qed.

Lemma reap_inv (cfg : settings) (now : Z) (s : Session) (fl : gmap nat Z) :
  session_inv (s, fl) ->
  session_inv ((runReap cfg now s).1.1, fl) /\ spawned (runReap cfg now s).1.2 fl = fl.
Proof.
  intros Hi. unfold runReap. destruct (_ <=? _); [|done].
  destruct (closeWithReason_inv cfg CloseReasonIdleReap s fl Hi) as [Hc Hc'].
  by destruct (teardown cfg CloseReasonIdleReap s).
Qed.

Lemma reneg_inv (cfg : settings) (hasPC : bool) (now : Z) (s : Session) (fl : gmap nat Z) :
  session_inv (s, fl) ->
  session_inv ((runReneg cfg hasPC now s).1, spawned (runReneg cfg hasPC now s).2 fl).
Proof.
  intros Hi. unfold runReneg. destruct (sweep_inv now s fl Hi) as [Hs Hs'].
  destruct (sweepLameDuck now s) as [s1 a1]. cbn [fst snd] in *.
  pose proof (checkReneg_inv cfg hasPC now s1 fl Hs) as Hc. destruct (checkReneg cfg hasPC now s1) as [s2 a2].
  cbn [fst snd] in *. unfold spawned in *. by rewrite foldl_app, Hs'.
Qed.

(** ** Publication *)

Lemma publishKeys_inv (dk : Key2) (c : bytes) (ncp : bool) (s : Session) (fl : gmap nat Z) :
  session_inv (s, fl) -> Cipher.cipherKeyLen c <> 0 -> session_inv (publishKeys dk c ncp s, fl).
Proof.
  intros [Hk Ht Hl Hc Hr Hq] E. constructor; try done. cbn [fst snd] in *.
  destruct Hk as [H1 H2 H3 H4 H5 H6 H7 H7' H8 H9 H10]. constructor; try done.
Qed.

Lemma publishLease_inv (now : Z) (ip : bytes) (peerID queue : Z) (w : Wrapper W) (s s' : Session) (fl : gmap nat Z) :
  session_inv (s, fl) -> AssignedIP s = None -> Cipher.cipherKeyLen (Cipher s) <> 0 ->
  publishLease now ip peerID queue w s = Some s' -> session_inv (s', fl).
Proof.
  intros [Hk Ht Hl Hc Hr Hq] Ea Ec. unfold publishLease. destruct (closing s) eqn:Ecl; [done|]. intros [= <-].
  rewrite closing_eq in Ecl. cbn [fst snd] in *.
  destruct (ks_conn (k_primary (s_keys s))) as [c|] eqn:Ep; [destruct Hl as [_ [? ?]]; [by eexists|congruence]|].
  destruct Hk as [H1 H2 H3 H4 H5 (H6 & H6' & Hfr) H7 H7' H8 H9 H10].
  rewrite Ep in *. destruct H2 as (E1 & E2 & E3). rewrite Ecl in *. specialize (H8 eq_refl).
  set (k := s_keys s) in *. set (k' := set_slots (mkSlot 0 (Some (k_conn k)) (Some w) (Some now) None) (k_lameDuck k) k).
  assert (Eo : ownedConns k' = [k_conn k]) by (rewrite owned_eq; cbn; by rewrite E2, E3).
  constructor; cbn [fst snd s_life s_keys]; rewrite ?Ecl; try done.
  - constructor; rewrite ?Eo; try done.
    + cbn. by rewrite E2.
    + cbn. rewrite E3. by intros [? ?].
    + apply NoDup_singleton.
    + split_and!; [done|done|]. intros d ->%list_elem_of_singleton. cbn. lia.
    + cbn. rewrite H8. clear. set_solver.
    + intros _. cbn. rewrite H8. clear. set_solver.
    + intros d id Hd. destruct (H9 d id Hd) as (_ & _ & _ & _ & [? ?]). done.
  - intros cap q [= _ <-]. change (zlen (@nil bytes)) with 0. lia.
Qed.

Lemma newSession_inv : session_inv (newSession, ∅).
Proof.
  constructor; cbn; try done.
  - constructor; try done.
    + by intros [? ?].
    + apply NoDup_nil_2.
    + cbn. split_and!; [lia|done|]. intros c Hc. by apply elem_of_nil in Hc.
Qed.

(** Steps of the handshake only touch the life of the session. *)
Lemma life_inv (s : Session) (l : lifeState) (fl : gmap nat Z) :
  l_stopping l = l_stopping (s_life s) -> l_torn l = l_torn (s_life s) ->
  l_closeReason l = l_closeReason (s_life s) -> session_inv (s, fl) -> session_inv (set_life l s, fl).
Proof.
  intros E1 E2 E3 [Hk Ht Hl Hc Hr Hq].
  constructor; cbn [fst snd s_life set_life] in *; unfold getCloseReason in *; cbn; rewrite ?E1, ?E2, ?E3; done.
Qed.

Lemma outcome_inv (o : hs_outcome) (s : Session) (fl : gmap nat Z) :
  session_inv (s, fl) ->
  session_inv ((recordHandshakeOutcome o s).1, fl) /\ spawned (recordHandshakeOutcome o s).2 fl = fl.
Proof. intros Hi. unfold recordHandshakeOutcome. destruct (l_outcome _); [done|]. split; [by apply life_inv|done]. Qed.

Lemma outcome_close_inv (cfg : settings) (o : hs_outcome) (r : CloseReason) (f : Session -> Session) (s : Session)
    (fl : gmap nat Z) :
  (forall s, session_inv (s, fl) -> session_inv (f s, fl)) -> session_inv (s, fl) ->
  let res := (let '(s, a1) := recordHandshakeOutcome o s in
              let '(s, a2) := teardown cfg r (f s) in (s, a1 ++ a2)) in
  session_inv (res.1, fl) /\ spawned res.2 fl = fl.
Proof.
  intros Hf Hi. destruct (outcome_inv o s fl Hi) as [H1 H2]. destruct (recordHandshakeOutcome o s) as [s1 a1].
  destruct (closeWithReason_inv cfg r (f s1) fl) as [H3 H4]; [by apply Hf|].
  destruct (teardown cfg r (f s1)) as [s2 a2]. cbn [fst snd] in *. split; [done|].
  unfold spawned in *. by rewrite foldl_app, H2.
Qed.

Lemma closeDone_inv (s : Session) (fl : gmap nat Z) : session_inv (s, fl) -> session_inv (closeDone s, fl).
Proof. by apply life_inv. Qed.

Lemma handshakeDone_inv (cfg : settings) (s : Session) (fl : gmap nat Z) :
  session_inv (s, fl) ->
  session_inv ((handshakeDone cfg s).1, fl) /\ spawned (handshakeDone cfg s).2 fl = fl.
Proof.
  intros Hi. unfold handshakeDone. apply closeDone_inv in Hi. destruct (closing (closeDone s)).
  - by apply (outcome_close_inv cfg _ _ id).
  - destruct (outcome_inv HandshakesCompleted _ fl Hi) as [H1 H2]. destruct (recordHandshakeOutcome _ _) as [s1 a1].
    split; [by apply life_inv|done].
Qed.

(** The load changes nothing but the life of the session. *)
Lemma closeNotify_inv (cfg : settings) (s : Session) (fl : gmap nat Z) :
  session_inv (s, fl) ->
  session_inv ((closeNotify cfg s).1, fl) /\ spawned (closeNotify cfg s).2 fl = fl.
Proof.
  intros Hi. unfold closeNotify. destruct (l_ended (s_life s)); [done|]. split; [by apply life_inv|]. by destruct (_ && _).
Qed.

(** ** Every step *)

Lemma session_exec_ok (cfg : settings) (st : state) (e : event) :
  session_inv st -> event_ok st.1 e ->
  exists st' acts, exec cfg st e = Ok (st', acts) /\ session_inv st'.
Proof.
  destruct st as [s fl]. intros Hi He. cbn [fst] in He.
  assert (Hret : forall r : Session * list action, session_inv (r.1, spawned r.2 fl) ->
    exists st' acts, Ok (E := dc_error) ((r.1, spawned r.2 fl), r.2) = Ok (st', acts) /\ session_inv st')
    by (intros r Hr; by eexists _, _).
  assert (Hret' : forall r : Session * list action, session_inv (r.1, fl) /\ spawned r.2 fl = fl ->
    exists st' acts, Ok (E := dc_error) ((r.1, spawned r.2 fl), r.2) = Ok (st', acts) /\ session_inv st')
    by (intros r [Hr E]; apply Hret; by rewrite E).
  assert (Hmon : forall (o : outcome dc_error (Session * list action)) s' acts, o = Ok (s', acts) ->
    session_inv (s', fl) -> spawned acts fl = fl ->
    exists st' acts', (r ← o; Ok ((r.1, spawned r.2 fl), r.2)) = Ok (st', acts') /\ session_inv st').
  { intros o s' acts -> H1 H2. outcome_simpl. apply (Hret' (s', acts)). done. }
  destruct e; cbn [exec].
  - destruct (ks_conn _); apply Hret; [done|]. by apply publishKeys_inv; [|apply He].
  - destruct (AssignedIP s) eqn:Ea; [by apply Hret|]. destruct (publishLease _ _ _ _ _ s) eqn:Ep; apply Hret; [|done].
    by eapply publishLease_inv.
  - destruct (l_doneCh (s_life s)); [by apply Hret|]. apply Hret'.
    apply (outcome_close_inv cfg _ _ closeDone); [|done]. intros ?. apply closeDone_inv.
  - destruct (AssignedIP s), (l_doneCh (s_life s)); try by apply Hret. by apply Hret', handshakeDone_inv.
  - destruct (_ && _); [|by apply Hret]. unfold publishSession. destruct (hasOnSession cfg); [|by apply Hret].
    apply Hret. by apply life_inv.
  - unfold enforceHandshakeWindow. destruct (_ && _); [by apply Hret|]. apply Hret'.
    by apply (outcome_close_inv cfg _ _ id).
  - destruct (handleDataPacket_inv cfg now pick s fl packet Hi) as (s' & acts & E & H1 & H2). by eapply Hmon.
  - apply Hret. eapply quiet_inv; [apply Read_quiet|done].
  - destruct (Write_inv pcOK s p fl Hi) as (r & s' & acts & -> & Hr & H1 & H2). destruct r; try done; by apply (Hret' (s', acts)).
  - destruct (emitPing_inv hasPC s fl Hi) as (s' & acts & E & H1 & H2). by eapply Hmon.
  - by apply Hret', pump_inv.
  - by apply Hret, soft_inv.
  - by apply Hret, reneg_inv.
  - apply Hret'. by apply reap_inv.
  - destruct (fl !! conn) as [id|] eqn:E; [|by apply Hret].
    destruct (finish_inv cfg now s fl conn id res Hi E) as (s' & acts & -> & H1 & H2); [by destruct res|].
    outcome_simpl. eexists _, _. split; [done|]. cbn [fst snd]. by rewrite H2.
  - by apply Hret', window_inv.
  - apply Hret. by apply closeBegin_inv.
  - destruct (closing s) eqn:E; [|by apply Hret]. destruct (closeEnd_inv cfg s fl Hi E) as (H1 & _ & H2). by apply Hret'.
  - destruct (l_torn (s_life s)); [|by apply Hret]. by apply Hret', closeNotify_inv.
Qed.

Lemma session_reachable_inv (cfg : settings) (st : state) : reachable cfg st -> session_inv st.
Proof.
  induction 1 as [|st e st' acts _ IH He E]; [apply newSession_inv|].
  destruct (session_exec_ok cfg st e IH He) as (st1 & a1 & E1 & Hi). congruence.
Qed.

End renegotiation.
End operations.
End Session.
