(* ===== verification/SessionProps.v ===== *)
(** * SessionProps: what a session guarantees

    The theorems about the model of [Session]: the key slots and the routing of
    control packets, teardown, the rollover from one key to the next, the inbound
    queue, the idle reaper and the rate of renegotiations.  Theorems about runs
    quantify over every sequence of the steps of [Session.exec]. *)

From stdpp Require Import gmap sorting.
From S2P Require Import Prelude Wire Replay KeyDeriv DataChan Cipher Session.
Import DataChan Session.

Module SessionProps.
#[local] Arguments ownedConns : simpl never.

Section props.
Context {W : Type} `{!AntiReplay W} `{!AEAD} `{!AEADLaws}.
Notation Session := (Session W).

(** ** The key slots *)

(** The live slots: each key-id in use and its connection. *)
Definition slots (k : keyState W) : list (Z * nat) :=
  match ks_conn (k_primary k) with
  | None => [(0, k_conn k)]
  | Some c =>
      (ks_keyID (k_primary k), c) ::
      map (pair (ks_keyID (k_lameDuck k))) (option_list (ks_conn (k_lameDuck k))) ++
      map (pair (k_pendingRenegKeyID k)) (option_list (k_pendingReneg k))
  end.

Lemma nextKeyID_ne (k : Z) :
  0 <= k <= 7 -> nextKeyID k <> k /\ nextKeyID (nextKeyID k) <> k /\ 1 <= nextKeyID k.
Proof.
  intros Hk. pose proof (nextKeyID_range k Hk) as Hr. rewrite (nextKeyID_spec (nextKeyID k)), nextKeyID_spec by done.
  destruct (Z.eqb_spec k 7); [subst; cbn; lia|]. destruct (Z.eqb_spec (k + 1) 7); lia.
Qed.

Lemma slots_conns (k : keyState W) (stop torn : bool) (fl : gmap nat Z) :
  keys_inv k stop torn fl ->
  map snd (slots k) = match ks_conn (k_primary k) with None => [k_conn k] | Some _ => ownedConns k end.
Proof.
  intros Hk. unfold slots. rewrite owned_eq. destruct (ks_conn (k_primary k)) as [c|]; [|done].
  cbn. rewrite map_app, !map_map. cbn. by rewrite !map_id.
Qed.

(** The key-ids of the slots follow one another, so they are distinct. *)
Lemma slots_ids (k : keyState W) (stop torn : bool) (fl : gmap nat Z) :
  keys_inv k stop torn fl -> NoDup (map fst (slots k)).
Proof.
  intros Hk. pose proof (ki_id _ _ _ _ Hk) as H1. pose proof (ki_lame _ _ _ _ Hk) as H3.
  pose proof (ki_pending _ _ _ _ Hk) as H4. pose proof (nextKeyID_ne _ H1) as (N1 & N2 & _). unfold slots.
  destruct (ks_conn (k_primary k)) as [c|]; [|apply NoDup_singleton].
  destruct (ks_conn (k_lameDuck k)) as [d|], (k_pendingReneg k) as [e|]; cbn;
    rewrite ?NoDup_cons, ?not_elem_of_cons; try (specialize (H4 (ex_intro _ e eq_refl)); rewrite H4).
  - destruct H3 as (H3 & H3' & _). pose proof (nextKeyID_ne _ H3) as (L1 & L2 & _). rewrite H3' in *.
    split_and!; auto using not_elem_of_nil, NoDup_nil_2.
  - destruct H3 as (H3 & H3' & _). pose proof (nextKeyID_ne _ H3) as (L1 & L2 & _). rewrite H3' in *.
    split_and!; auto using not_elem_of_nil, NoDup_nil_2.
  - split_and!; auto using not_elem_of_nil, NoDup_nil_2.
  - split_and!; auto using not_elem_of_nil, NoDup_nil_2.
Qed.

Lemma route_slots (s : Session) (fl : gmap nat Z) (keyID : Z) (c : nat) :
  session_inv (s, fl) -> routeControlPacket s keyID = Some c <-> (keyID, c) ∈ slots (s_keys s).
Proof.
  intros Hi. pose proof (slots_ids _ _ _ _ (si_keys _ Hi)) as Hn. cbn [fst] in Hn. revert Hn.
  unfold routeControlPacket, slots. destruct (ks_conn (k_primary (s_keys s))) as [p|].
  2:{ intros _. rewrite list_elem_of_singleton. destruct (Z.eqb_spec keyID 0); split; congruence. }
  destruct (ks_conn (k_lameDuck (s_keys s))) as [d|], (k_pendingReneg (s_keys s)) as [e|]; cbn;
    rewrite ?NoDup_cons, ?elem_of_cons, ?elem_of_nil; intros Hn;
    repeat (match goal with |- context [keyID =? ?x] => destruct (Z.eqb_spec keyID x) end); intuition congruence.
Qed.

(** C20. The key slots of a session in every state it can reach.  No step panics.
    The key-ids of the primary, the lame-duck and the pending slot are distinct, so
    are their connections, and a control packet goes to the slot of its key-id or
    nowhere.  Until teardown begins the connections left open are exactly those of
    the slots; when it has ended there are none. *)
Theorem session_slots (cfg : settings) (st : state (W := W)) :
  reachable cfg st ->
  let s := st.1 in let k := s_keys s in
  (forall e, event_ok s e -> exists st' acts, exec cfg st e = Ok (st', acts)) /\
  NoDup (map fst (slots k)) /\ NoDup (map snd (slots k)) /\
  (forall keyID c, routeControlPacket s keyID = Some c <-> (keyID, c) ∈ slots k) /\
  (closing s = false -> k_open k = list_to_set (map snd (slots k))) /\
  (l_torn (s_life s) = true -> k_open k = ∅).
Proof.
  destruct st as [s fl]. intros Hi%session_reachable_inv. cbn [fst]. cbv zeta.
  pose proof (si_keys _ Hi) as Hk. cbn [fst snd] in Hk. split_and!.
  - intros e He. destruct (session_exec_ok cfg (s, fl) e Hi He) as (st' & acts & E & _). by exists st', acts.
  - by eapply slots_ids.
  - rewrite (slots_conns _ _ _ _ Hk). destruct (ks_conn _); [by apply (ki_nodup _ _ _ _ Hk)|apply NoDup_singleton].
  - intros keyID c. by apply (route_slots s fl).
  - intros Hc. rewrite (slots_conns _ _ _ _ Hk), (ki_live _ _ _ _ Hk Hc). destruct (ks_conn _); [done|].
    cbn. by rewrite (right_id_L ∅ (∪)).
  - apply (ki_torn _ _ _ _ Hk).
Qed.

(** ** Runs *)

Fixpoint run (cfg : settings) (st : state (W := W)) (es : list event)
    : outcome dc_error (state (W := W) * list action) :=
  match es with
  | [] => Ok (st, [])
  | e :: es => r ← exec cfg st e; r' ← run cfg r.1 es; Ok (r'.1, r.2 ++ r'.2)
  end.

Lemma run_cons (cfg : settings) (st st' : state) (e : event) (es : list event) (acts : list action) :
  run cfg st (e :: es) = Ok (st', acts) ->
  exists st1 a1 a2, exec cfg st e = Ok (st1, a1) /\ run cfg st1 es = Ok (st', a2) /\ acts = a1 ++ a2.
Proof.
  cbn [run]. destruct (exec cfg st e) as [[st1 a1]| |]; outcome_simpl; [|done..]. cbn [fst snd].
  destruct (run cfg st1 es) as [[st2 a2]| |] eqn:Er; outcome_simpl; [|done..]. cbn [fst snd]. intros E. injection E as <- <-. by exists st1, a1, a2.
Qed.

(** An invariant of single steps holds along runs. *)
Lemma run_ind (cfg : settings) (P : state (W := W) -> list action -> Prop) :
  (forall st A e st' acts, P st A -> exec cfg st e = Ok (st', acts) -> P st' (A ++ acts)) ->
  forall es st A st' acts, P st A -> run cfg st es = Ok (st', acts) -> P st' (A ++ acts).
Proof.
  intros Hstep es. induction es as [|e es IH]; intros st A st' acts HP Hr.
  - injection Hr as <- <-. by rewrite app_nil_r.
  - apply run_cons in Hr as (st1 & a1 & a2 & He & Hr & ->). rewrite (assoc_L (++)). eapply IH; [|done]. by eapply Hstep.
Qed.

(** ** Teardown *)

Definition is_remove (a : action) : bool := match a with RemoveSession => true | _ => false end.
Definition is_release (a : action) : bool := match a with ReleaseLease _ _ => true | _ => false end.
Definition is_closed (a : action) : bool := match a with CallOnSessionClosed _ => true | _ => false end.
Definition is_opened (a : action) : bool := match a with CallOnSession => true | _ => false end.
Definition is_outcome (a : action) : bool := match a with CountOutcome _ => true | _ => false end.
Definition is_ledger (a : action) : bool :=
  is_remove a || is_release a || is_closed a || is_opened a || is_outcome a.
Definition is_drop (a : action) : bool := match a with DropRoute _ => true | _ => false end.

(** What the session's state says the actions so far were. *)
Record ledger (s : Session) (A : list action) : Prop := {
  lg_torn : l_torn (s_life s) = true -> closing s = true;
  lg_removed : List.filter is_remove A = if l_torn (s_life s) then [RemoveSession] else [];
  lg_released : List.filter is_release A =
    if l_torn (s_life s) then match AssignedIP s with Some ip => [ReleaseLease ip (PeerID s)] | None => [] end else [];
  lg_opened : List.filter is_opened A = if l_published (s_life s) then [CallOnSession] else [];
  lg_outcome : (if l_outcome (s_life s) then exists o, List.filter is_outcome A = [CountOutcome o]
               else List.filter is_outcome A = []);
}.

(** The primary slot has its wrapper. *)
Definition keyed (s : Session) : Prop := is_Some (ks_wrapper (k_primary (s_keys s))).

(** A step that leaves the ledger alone. *)
Definition plain (s s' : Session) (acts : list action) : Prop :=
  s_life s' = s_life s /\ AssignedIP s' = AssignedIP s /\ PeerID s' = PeerID s /\
  (keyed s -> keyed s') /\
  Forall (fun a => is_ledger a = false) acts /\ Forall (fun a => is_drop a = false) acts.

Lemma filter_none (f : action -> bool) (acts : list action) :
  (forall a, f a = true -> is_ledger a = true) -> Forall (fun a => is_ledger a = false) acts ->
  List.filter f acts = [].
Proof.
  intros Hf. induction 1 as [|a acts Ha _ IH]; [done|]. cbn. destruct (f a) eqn:E; [|done].
  apply Hf in E. congruence.
Qed.

(** Appending actions none of which is of a kind. *)
Lemma filter_none_app (f : action -> bool) (A acts : list action) :
  (forall a, f a = true -> is_ledger a = true) -> Forall (fun a => is_ledger a = false) acts ->
  List.filter f (A ++ acts) = List.filter f A.
Proof. intros Hf Ha. by rewrite List.filter_app, (filter_none f acts), app_nil_r. Qed.

Ltac kinds := (let a := fresh "a" in intros a; by destruct a).

Lemma ledger_plain (s s' : Session) (A acts : list action) :
  ledger s A -> plain s s' acts -> ledger s' (A ++ acts).
Proof.
  intros [H1 H2 H3 H5 H6] (El & Ea & Ep & _ & Hf & _).
  constructor; unfold closing, getCloseReason in *; rewrite ?El, ?Ea, ?Ep, ?filter_none_app by (done || kinds); done.
Qed.

Lemma existsb_filter (f : action -> bool) (A : list action) :
  existsb f A = match List.filter f A with [] => false | _ => true end.
Proof. induction A as [|a A IH]; [done|]. cbn. by destruct (f a). Qed.

Lemma ledger_closeBegin (r : CloseReason) (s : Session) (A : list action) :
  ledger s A -> ledger (closeBegin r s) A.
Proof.
  intros [H1 H2 H3 H5 H6]. unfold closeBegin. destruct (l_stopping (s_life s)) eqn:E; [by constructor|].
  unfold closing in H1. destruct (l_torn (s_life s)) eqn:Et; [specialize (H1 eq_refl); congruence|].
  constructor; cbn; rewrite ?Et; done.
Qed.

Lemma closeConns_rest (cs : list nat) (s : Session) :
  s_life (closeConns cs s) = s_life s /\ s_lease (closeConns cs s) = s_lease s.
Proof. rewrite closeConns_eq. done. Qed.

(** The actions of the teardown: what it releases and the session's removal among
    actions on connections and routes. *)
Definition released (s : Session) : list action :=
  match AssignedIP s with Some ip => [ReleaseLease ip (PeerID s)] | None => [] end.
Definition notified (cfg : settings) (s : Session) : list action :=
  if hasOnSessionClosed cfg && l_published (s_life s) then [CallOnSessionClosed (getCloseReason s)] else [].

Lemma closeEnd_split (cfg : settings) (s : Session) :
  l_torn (s_life s) = false ->
  exists pre post, (closeEnd cfg s).2 = (pre ++ released s) ++ RemoveSession :: post /\
    Forall (fun a => is_ledger a = false) pre /\ Forall (fun a => is_ledger a = false) post.
Proof.
  intros Et. unfold closeEnd. rewrite Et, closeConns_eq. cbn [snd].
  eexists (match ks_wrapper (k_primary (s_keys s)) with Some _ => [DropRoute (PeerID s)] | None => [] end), _.
  split_and!.
  - rewrite <- !(assoc_L (++)). cbn [app]. reflexivity.
  - destruct (ks_wrapper _); by repeat constructor.
  - apply Forall_app. split; [apply Forall_map, Forall_true; done|by repeat constructor].
Qed.

Lemma closeEnd_filter (cfg : settings) (s : Session) (f : action -> bool) :
  l_torn (s_life s) = false -> (forall a, f a = true -> is_ledger a = true) ->
  List.filter f (closeEnd cfg s).2 = List.filter f (released s ++ [RemoveSession]).
Proof.
  intros Et Hf. destruct (closeEnd_split cfg s Et) as (pre & post & -> & Hpre & Hpost).
  change (RemoveSession :: ?l) with ([RemoveSession] ++ l).
  by rewrite !List.filter_app, (filter_none f pre), (filter_none f post), !app_nil_r by done.
Qed.

Lemma closeEnd_life (cfg : settings) (s : Session) :
  let s' := (closeEnd cfg s).1 in
  l_torn (s_life s') = true /\ closing s' = closing s /\ getCloseReason s' = getCloseReason s /\
  l_published (s_life s') = l_published (s_life s) /\ l_outcome (s_life s') = l_outcome (s_life s) /\
  s_lease s' = s_lease s /\ s_data s' = s_data s /\ l_ended (s_life s') = l_ended (s_life s).
Proof. unfold closeEnd. destruct (l_torn (s_life s)) eqn:Et; [|rewrite closeConns_eq]; done. Qed.

Lemma ledger_closeEnd (cfg : settings) (s : Session) (A : list action) :
  ledger s A -> closing s = true -> ledger (closeEnd cfg s).1 (A ++ (closeEnd cfg s).2).
Proof.
  intros HA Hc. destruct (l_torn (s_life s)) eqn:Et.
  { apply (ledger_plain s); [done|]. unfold closeEnd. rewrite Et. split_and!; try done; by repeat constructor. }
  destruct (closeEnd_life cfg s) as (L1 & L2 & L3 & L4 & L5 & L6 & _).
  destruct HA as [H1 H2 H3 H5 H6]. rewrite Et in *.
  constructor; rewrite ?L1, ?L2, ?L4, ?L5, ?List.filter_app, ?closeEnd_filter by (done || kinds); rewrite ?H2, ?H3, ?H5;
    unfold AssignedIP, PeerID in *; rewrite ?L6; unfold released, AssignedIP; try by destruct (a_assignedIP _).
  - done.
  - destruct (a_assignedIP _); cbn; by rewrite app_nil_r.
  - destruct (a_assignedIP _); cbn; by rewrite app_nil_r.
Qed.

(** The load of [published] leaves everything in its place. *)
Lemma closeNotify_life (cfg : settings) (s : Session) :
  let s' := (closeNotify cfg s).1 in
  s_keys s' = s_keys s /\ s_lease s' = s_lease s /\ s_data s' = s_data s /\
  l_torn (s_life s') = l_torn (s_life s) /\ closing s' = closing s /\ getCloseReason s' = getCloseReason s /\
  l_published (s_life s') = l_published (s_life s) /\ l_established (s_life s') = l_established (s_life s) /\
  l_outcome (s_life s') = l_outcome (s_life s) /\ l_doneCh (s_life s') = l_doneCh (s_life s) /\ l_ended (s_life s') = true.
Proof. unfold closeNotify. destruct (l_ended (s_life s)) eqn:E; by split_and!. Qed.

Lemma closeNotify_filter (cfg : settings) (s : Session) (f : action -> bool) :
  (forall r, f (CallOnSessionClosed r) = false) -> List.filter f (closeNotify cfg s).2 = [].
Proof. intros Hf. unfold closeNotify. destruct (l_ended _); [done|]. destruct (_ && _); [|done]. cbn. by rewrite Hf. Qed.

Lemma plain_refl (s : Session) : plain s s [].
Proof. by split_and!. Qed.

Lemma plain_trans (s1 s2 s3 : Session) (a1 a2 : list action) :
  plain s1 s2 a1 -> plain s2 s3 a2 -> plain s1 s3 (a1 ++ a2).
Proof. intros (E1 & E2 & E3 & K1 & H1 & G1) (F1 & F2 & F3 & K2 & H2 & G2). split_and!; try congruence; auto; by apply Forall_app. Qed.

Ltac solve_plain := repeat case_match; simplify_eq/=; split_and!; (done || by unfold keyed; cbn || by repeat constructor).

Lemma pump_plain (now : Z) (s : Session) (cp : ControlPacket) : plain s (pump now s cp).1 (pump now s cp).2.
Proof. unfold pump. solve_plain. Qed.

Lemma start_plain (cfg : settings) (now : Z) (want : option Z) (s : Session) :
  plain s (startRenegotiation cfg now want s).2 [].
Proof. unfold startRenegotiation. solve_plain. Qed.

Lemma soft_plain (cfg : settings) (now : Z) (s : Session) (cp : ControlPacket) :
  plain s (handleSoftReset cfg now s cp).1 (handleSoftReset cfg now s cp).2.
Proof.
  unfold handleSoftReset, beginRenegotiation. pose proof (start_plain cfg now (Some (cp_KeyID cp)) s) as Hs.
  destruct (routeControlPacket _ _); [solve_plain|]. destruct (startRenegotiation _ _ _ s) as [[[c id]|] s']; [|done].
  apply (plain_trans s s' s' [] _ Hs). by split_and!; repeat constructor.
Qed.

Lemma reneg_plain (cfg : settings) (hasPC : bool) (now : Z) (s : Session) :
  plain s (runReneg cfg hasPC now s).1 (runReneg cfg hasPC now s).2.
Proof.
  unfold runReneg. assert (Hs : plain s (sweepLameDuck now s).1 (sweepLameDuck now s).2)
    by (unfold sweepLameDuck; solve_plain).
  destruct (sweepLameDuck now s) as [s1 a1]. cbn [fst snd] in Hs.
  assert (Hc : plain s1 (checkReneg cfg hasPC now s1).1 (checkReneg cfg hasPC now s1).2).
  { unfold checkReneg. pose proof (start_plain cfg now None s1) as Hs1.
    destruct (ks_established _); [|apply plain_refl]. destruct (_ <? _); [apply plain_refl|].
    destruct hasPC; [|apply plain_refl]. cbn [negb]. destruct (startRenegotiation _ _ _ s1) as [[[c id]|] s']; [|done].
    apply (plain_trans s1 s' s' [] _ Hs1). by split_and!; repeat constructor. }
  destruct (checkReneg cfg hasPC now s1) as [s2 a2]. by eapply plain_trans.
Qed.

Lemma Read_plain (s : Session) (n : Z) (pick : bool) : plain s (Read s n pick).2 [].
Proof. unfold Read. solve_plain. Qed.

Lemma Write_plain (ok : option (bytes -> bool)) (s : Session) (p : bytes) :
  plain s (Write ok s p).1.2 (Write ok s p).2.
Proof. unfold Write. solve_plain. Qed.

Lemma emitPing_plain (hasPC : bool) (s s' : Session) (acts : list action) :
  emitPing hasPC s = Ok (s', acts) -> plain s s' acts.
Proof. unfold emitPing. intros H1. solve_plain. Qed.

Lemma abandon_plain (c : nat) (s : Session) : plain s (abandon c s).1 (abandon c s).2.
Proof. unfold abandon, clearPending. solve_plain. Qed.

Lemma swap_plain (now : Z) (s s' : Session) (c : nat) (id : Z) (dk : Key2) (acts : list action) :
  swapKeys now s c id dk = Ok (s', acts) -> plain s s' acts.
Proof.
  unfold swapKeys. pose proof (abandon_plain c s) as Ha. destruct (_ || _); [intros [= <- <-]; solve_plain|].
  destruct (ServerSlots _ _); [|done..]. destruct (NewWrapper _ _ _); [| |done].
  - intros H1. solve_plain.
  - intros E%(inj Ok). by rewrite E in Ha.
Qed.

(** ** The life of a session *)

(** Every step is made of these: what leaves the life of the session alone, the two
    halves of the teardown, the steps of the handshake and the lease. *)
Inductive lstep (cfg : settings) (publishes notifies : bool) : Session -> list action -> Session -> Prop :=
  | ls_plain s acts s' : plain s s' acts -> lstep cfg publishes notifies s acts s'
  | ls_begin r s : lstep cfg publishes notifies s [] (closeBegin r s)
  | ls_end s : closing s = true -> lstep cfg publishes notifies s (closeEnd cfg s).2 (closeEnd cfg s).1
  | ls_notify s : notifies = true -> l_torn (s_life s) = true -> l_ended (s_life s) = false ->
      lstep cfg publishes notifies s (closeNotify cfg s).2 (closeNotify cfg s).1
  | ls_outcome o s : lstep cfg publishes notifies s (recordHandshakeOutcome o s).2 (recordHandshakeOutcome o s).1
  | ls_done s : lstep cfg publishes notifies s [] (closeDone s)
  | ls_established s : is_Some (AssignedIP s) -> let l := s_life s in
      lstep cfg publishes notifies s [] (set_life (mkLife (l_stopping l) (l_torn l) (l_ended l) (l_closeReason l) (l_published l) true (l_doneCh l)
                                  (l_outcome l)) s)
  | ls_publish s : l_established (s_life s) = true -> l_published (s_life s) = false -> lstep cfg publishes notifies s (publishSession cfg s).2 (publishSession cfg s).1
  | ls_lease now ip peerID queue w s s' : publishes = true -> publishLease now ip peerID queue w s = Some s' -> lstep cfg publishes notifies s [] s'
  | ls_trans s1 s2 s3 a1 a2 : lstep cfg publishes notifies s1 a1 s2 -> lstep cfg publishes notifies s2 a2 s3 -> lstep cfg publishes notifies s1 (a1 ++ a2) s3.

Lemma lstep_refl (cfg : settings) (b n : bool) (s : Session) : lstep cfg b n s [] s.
Proof. apply ls_plain, plain_refl. Qed.

Lemma lstep_close (cfg : settings) (b n : bool) (r : CloseReason) (s : Session) :
  lstep cfg b n s (teardown cfg r s).2 (teardown cfg r s).1.
Proof.
  apply (ls_trans cfg b n s (closeBegin r s) _ []); [apply ls_begin|]. apply ls_end.
  unfold closing, closeBegin. by destruct (l_stopping (s_life s)) eqn:E.
Qed.

Lemma lstep_accept (cfg : settings) (b n : bool) (now : Z) (pick : bool) (p : bytes) (s0 s : Session) :
  plain s0 s [] -> lstep cfg b n s0 (acceptPlaintext cfg now pick p s).2 (acceptPlaintext cfg now pick p s).1.
Proof.
  intros Hp. unfold acceptPlaintext. apply (ls_trans cfg b n s0 (touchAuthTraffic now s) _ []); [by apply ls_plain|].
  destruct (isExitNotify p); [apply lstep_close|]. apply ls_plain. unfold deliverIP, countPacket. solve_plain.
Qed.

Lemma lstep_data (cfg : settings) (b n : bool) (now : Z) (pick : bool) (s s' : Session) (packet : bytes) (acts : list action) :
  handleDataPacket cfg now pick s packet = Ok (s', acts) -> lstep cfg b n s acts s'.
Proof.
  unfold handleDataPacket.
  assert (Hacc : forall p (s1 : Session), plain s s1 [] -> acceptPlaintext cfg now pick p s1 = (s', acts) ->
    lstep cfg b n s acts s').
  { intros p s1 Hs1 E. pose proof (lstep_accept cfg b n now pick p s s1 Hs1) as Hl. by rewrite E in Hl. }
  repeat case_match; intros E; simplify_eq/=;
    try (by apply ls_plain; unfold plain, keyed; cbn; split_and!); (eapply Hacc; [|exact E]; by unfold plain, keyed; cbn; split_and!).
Qed.

Lemma lstep_outcome_close (cfg : settings) (b n : bool) (o : hs_outcome) (r : CloseReason) (f : Session -> Session) (s : Session) :
  (forall s, lstep cfg b n s [] (f s)) ->
  let res := (let '(s, a1) := recordHandshakeOutcome o s in
              let '(s, a2) := teardown cfg r (f s) in (s, a1 ++ a2)) in
  lstep cfg b n s res.2 res.1.
Proof.
  intros Hf. pose proof (ls_outcome cfg b n o s) as H1. destruct (recordHandshakeOutcome o s) as [s1 a1].
  pose proof (lstep_close cfg b n r (f s1)) as H2. destruct (teardown cfg r (f s1)) as [s2 a2].
  cbn [fst snd] in *. apply (ls_trans cfg b n s s1); [done|]. by apply (ls_trans cfg b n s1 (f s1) s2 []).
Qed.

Lemma lstep_handshakeDone (cfg : settings) (b n : bool) (s : Session) :
  is_Some (AssignedIP s) -> lstep cfg b n s (handshakeDone cfg s).2 (handshakeDone cfg s).1.
Proof.
  intros Hip. apply (ls_trans cfg b n s (closeDone s) _ []); [apply ls_done|]. unfold handshakeDone. destruct (closing (closeDone s)).
  - apply (lstep_outcome_close cfg b n _ _ id). apply lstep_refl.
  - pose proof (ls_outcome cfg b n HandshakesCompleted (closeDone s)) as H1.
    assert (Hs1 : is_Some (AssignedIP (recordHandshakeOutcome HandshakesCompleted (closeDone s)).1))
      by (unfold recordHandshakeOutcome; by destruct (l_outcome _)).
    destruct (recordHandshakeOutcome _ _) as [s1 a1]. cbn [fst snd] in *. rewrite <- (app_nil_r a1).
    eapply ls_trans; [exact H1|apply ls_established].
    exact Hs1.
Qed.

Lemma lstep_finish (cfg : settings) (b n : bool) (now : Z) (s s' : Session) (c : nat) (id : Z) (res : reneg_result)
    (acts : list action) :
  finishRenegotiation cfg now s c id res = Ok (s', acts) -> lstep cfg b n s acts s'.
Proof.
  unfold finishRenegotiation. pose proof (abandon_plain c s) as Ha. destruct res as [| |dk].
  - intros E%(inj Ok). rewrite E in Ha. by apply ls_plain.
  - destruct (abandon c s) as [s1 a1]. pose proof (lstep_close cfg b n CloseReasonAuthFailed s1) as Hc.
    destruct (teardown _ _ s1) as [s2 a2]. intros [= <- <-]. by eapply ls_trans; [apply ls_plain|].
  - intros E. apply ls_plain. by eapply swap_plain.
Qed.

Definition publishes_lease (e : event (W := W)) : bool := match e with EPublishLease _ _ _ _ _ => true | _ => false end.

Definition is_notify (e : event (W := W)) : bool := match e with ECloseNotify => true | _ => false end.

Lemma exec_lstep (cfg : settings) (st : state) (e : event) (st' : state) (acts : list action) :
  exec cfg st e = Ok (st', acts) -> lstep cfg (publishes_lease e) (is_notify e) st.1 acts st'.1.
Proof.
  destruct st as [s fl]. cbn [fst]. set (b := publishes_lease e). set (n := is_notify e).
  assert (Hret : forall r : Session * list action, lstep cfg b n s r.2 r.1 ->
    Ok (E := dc_error) ((r.1, spawned r.2 fl), r.2) = Ok (st', acts) -> lstep cfg b n s acts st'.1)
    by (intros r Hr [= <- <-]; done).
  pose proof (lstep_refl cfg b n s) as Hid. destruct e; cbn [exec].
  - destruct (ks_conn _); apply Hret; by apply ls_plain.
  - destruct (AssignedIP s); [by apply Hret|]. destruct (publishLease _ _ _ _ _ s) eqn:E; apply Hret; [|done].
    by eapply ls_lease.
  - destruct (l_doneCh (s_life s)); apply Hret; [done|]. apply (lstep_outcome_close cfg b n _ _ closeDone), ls_done.
  - destruct (AssignedIP s) eqn:Hip, (l_doneCh (s_life s)); try by apply Hret. apply Hret, lstep_handshakeDone. rewrite Hip. by eexists.
  - destruct (_ && _) eqn:E; [|by apply Hret]. apply andb_true_iff in E as [E0 E%negb_true_iff].
    by apply Hret, ls_publish.
  - unfold enforceHandshakeWindow. destruct (_ && _); [by apply Hret|]. apply Hret.
    apply (lstep_outcome_close cfg b n _ _ id), lstep_refl.
  - destruct (handleDataPacket cfg now pick s packet) as [[s1 a1]| |] eqn:E; outcome_simpl; [|done..].
    apply (Hret (s1, a1)). by eapply lstep_data.
  - apply (Hret (_, [])), ls_plain, Read_plain.
  - pose proof (Write_plain pcOK s p) as H1. destruct (Write pcOK s p) as [[r s1] a1].
    destruct r; try done; by apply (Hret (s1, a1)), ls_plain.
  - destruct (emitPing hasPC s) as [[s1 a1]| |] eqn:E; outcome_simpl; [|done..].
    apply (Hret (s1, a1)), ls_plain. by eapply emitPing_plain.
  - by apply Hret, ls_plain, pump_plain.
  - by apply Hret, ls_plain, soft_plain.
  - by apply Hret, ls_plain, reneg_plain.
  - apply Hret. unfold runReap. destruct (_ <=? _); [|done].
    pose proof (lstep_close cfg b n CloseReasonIdleReap s). by destruct (teardown _ _ s).
  - destruct (fl !! conn); [|by apply Hret].
    destruct (finishRenegotiation _ _ _ _ _ _) as [[s1 a1]| |] eqn:E; outcome_simpl; [|done..]. intros [= <- <-].
    by eapply lstep_finish.
  - apply Hret, ls_plain. unfold enforceRenegotiationWindow. destruct (bool_decide _); [apply abandon_plain|apply plain_refl].
  - by apply Hret, ls_begin.
  - destruct (closing s) eqn:E; [|by apply Hret]. by apply Hret, ls_end.
  - destruct (l_torn (s_life s)) eqn:E; [|by apply Hret]. apply Hret. destruct (l_ended (s_life s)) eqn:Ed; [|by apply ls_notify].
    unfold closeNotify. by rewrite Ed.
Qed.

(** The ledger survives every step. *)
Lemma lstep_ledger (cfg : settings) (b n : bool) (s s' : Session) (acts : list action) :
  lstep cfg b n s acts s' -> forall A, ledger s A -> ledger s' (A ++ acts).
Proof.
  induction 1 as [s acts s' Hp|r s|s Hc|s Hn Ht Hnd|o s|s|s l|s Ees Ep|now ip peerID queue w s s' Eb E|s1 s2 s3 a1 a2 _ IH1 _ IH2];
    intros A HA; rewrite ?app_nil_r.
  - by apply (ledger_plain s).
  - by apply ledger_closeBegin.
  - by apply ledger_closeEnd.
  - destruct (closeNotify_life cfg s) as (_ & N2 & _ & N4 & N5 & _ & N7 & _ & N9 & _). destruct HA as [H1 H2 H3 H5 H6].
    constructor; unfold AssignedIP, PeerID in *; rewrite ?N2, ?N4, ?N5, ?N7, ?N9, ?List.filter_app, ?closeNotify_filter, ?app_nil_r by done; done.
  - unfold recordHandshakeOutcome. destruct (l_outcome (s_life s)) eqn:Eo; [by apply (ledger_plain s)|].
    destruct HA as [H1 H2 H3 H5 H6]. rewrite Eo in H6.
    constructor; cbn; rewrite ?List.filter_app; cbn; rewrite ?app_nil_r; try done.
    + exists o. by rewrite H6.
  - by destruct HA as [H1 H2 H3 H5 H6]; constructor.
  - by destruct HA as [H1 H2 H3 H5 H6]; constructor.
  - unfold publishSession. destruct (hasOnSession cfg); [|by apply (ledger_plain s)].
    destruct HA as [H1 H2 H3 H5 H6]. rewrite Ep in *.
    constructor; cbn; rewrite ?List.filter_app; cbn; rewrite ?app_nil_r; try done. by rewrite H5.
  - revert E. unfold publishLease. destruct HA as [H1 H2 H3 H5 H6].
    destruct (closing s) eqn:Ec; [done|]. intros [= <-].
    destruct (l_torn (s_life s)) eqn:Et; [by specialize (H1 eq_refl)|]. constructor; cbn; rewrite ?Et; done.
  - rewrite (assoc_L (++)). by apply IH2, IH1.
Qed.

(** So does what a stopping session keeps. *)
Lemma lstep_final (cfg : settings) (b n : bool) (s s' : Session) (acts : list action) :
  lstep cfg b n s acts s' -> closing s = true ->
  closing s' = true /\ getCloseReason s' = getCloseReason s /\ AssignedIP s' = AssignedIP s /\ PeerID s' = PeerID s.
Proof.
  induction 1 as [s acts s' (El & Ea & Ep & _)|r s|s Hc|s Hn Ht Hnd|o s|s|s l|s Ees Ep|now ip peerID queue w s s' Eb E|s1 s2 s3 a1 a2 _ IH1 _ IH2];
    intros Hcl.
  - unfold closing, getCloseReason in *. by rewrite El.
  - unfold closing, closeBegin in *. by rewrite Hcl.
  - destruct (closeEnd_life cfg s) as (_ & L2 & L3 & _ & _ & L6 & _). unfold AssignedIP, PeerID. by rewrite L2, L3, L6.
  - destruct (closeNotify_life cfg s) as (_ & N2 & _ & _ & N5 & N6 & _). unfold AssignedIP, PeerID. by rewrite N2, N5, N6.
  - unfold recordHandshakeOutcome. by destruct (l_outcome _).
  - done.
  - done.
  - unfold publishSession. by destruct (hasOnSession _).
  - unfold publishLease in E. by rewrite Hcl in E.
  - destruct (IH1 Hcl) as (C1 & C2 & C3 & C4). destruct (IH2 C1) as (D1 & D2 & D3 & D4). split_and!; congruence.
Qed.

(** A stopping session's lease is fixed, and so is any session's but for a publication. *)
Lemma lstep_lease (cfg : settings) (n : bool) (s s' : Session) (acts : list action) :
  lstep cfg false n s acts s' -> AssignedIP s' = AssignedIP s /\ PeerID s' = PeerID s.
Proof.
  induction 1 as [s acts s' (El & Ea & Ep & _)|r s|s Hc|s Hn Ht Hnd|o s|s|s l|s Ees Ep|now ip peerID queue w s s' Eb E|s1 s2 s3 a1 a2 _ IH1 _ IH2].
  - done.
  - unfold closeBegin. by destruct (l_stopping _).
  - destruct (closeEnd_life cfg s) as (_ & _ & _ & _ & _ & L6 & _). unfold AssignedIP, PeerID. by rewrite L6.
  - destruct (closeNotify_life cfg s) as (_ & N2 & _). unfold AssignedIP, PeerID. by rewrite N2.
  - unfold recordHandshakeOutcome. by destruct (l_outcome _).
  - done.
  - done.
  - unfold publishSession. by destruct (hasOnSession _).
  - done.
  - destruct IH1, IH2. split; congruence.
Qed.

(** An established session has its address. *)
Definition addressed (s : Session) : Prop := l_established (s_life s) = true -> is_Some (AssignedIP s).

Lemma lstep_addressed (cfg : settings) (b n : bool) (s s' : Session) (acts : list action) :
  lstep cfg b n s acts s' -> addressed s -> addressed s'.
Proof.
  unfold addressed.
  induction 1 as [s acts s' (El & Ea & _)|r s|s Hc|s Hn Ht Hnd|o s|s|s Hip|s Ees Ep|now ip peerID queue w s s' Eb E|s1 s2 s3 a1 a2 _ IH1 _ IH2];
    intros Ha; try done.
  - by rewrite El, Ea.
  - unfold closeBegin. by destruct (l_stopping _).
  - unfold closeEnd. destruct (l_torn _); [done|]. by rewrite closeConns_eq.
  - destruct (closeNotify_life cfg s) as (_ & N2 & _ & _ & _ & _ & _ & N8 & _). unfold AssignedIP in *. by rewrite N2, N8.
  - unfold recordHandshakeOutcome. by destruct (l_outcome _).
  - unfold publishSession. by destruct (hasOnSession _).
  - revert E. unfold publishLease. destruct (closing s); [done|]. intros [= <-] _. by eexists.
  - auto.
Qed.

(** A step counts the session when it sets the latch of the outcome, and only then. *)
Lemma lstep_outcome (cfg : settings) (b n : bool) (s s' : Session) (acts : list action) :
  lstep cfg b n s acts s' ->
  (l_outcome (s_life s') = l_outcome (s_life s) /\ List.filter is_outcome acts = []) \/
  (l_outcome (s_life s) = false /\ l_outcome (s_life s') = true /\ exists o, List.filter is_outcome acts = [CountOutcome o]).
Proof.
  induction 1 as [s acts s' (El & _ & _ & _ & Hf & _)|r s|s Hc|s Hn Ht Hnd|o s|s|s l|s Ees Ep|now ip peerID queue w s s' Eb E|s1 s2 s3 a1 a2 _ IH1 _ IH2].
  - left. rewrite El. split; [done|]. apply filter_none; [kinds|done].
  - left. unfold closeBegin. by destruct (l_stopping _).
  - left. destruct (closeEnd_life cfg s) as (_ & _ & _ & _ & L5 & _). split; [done|].
    destruct (l_torn (s_life s)) eqn:Et; [unfold closeEnd; by rewrite Et|].
    rewrite closeEnd_filter by (done || kinds). unfold released. by destruct (AssignedIP s).
  - left. destruct (closeNotify_life cfg s) as (_ & _ & _ & _ & _ & _ & _ & _ & N9 & _). split; [done|]. by apply closeNotify_filter.
  - unfold recordHandshakeOutcome. destruct (l_outcome (s_life s)) eqn:Eo; [by left|]. right. split_and!; try done. by exists o.
  - by left.
  - by left.
  - left. unfold publishSession. by destruct (hasOnSession _).
  - left. revert E. unfold publishLease. destruct (closing s); [done|]. by intros [= <-].
  - rewrite List.filter_app. destruct IH1 as [(E1 & ->)|(E1 & E1' & o & ->)], IH2 as [(E2 & ->)|(E2 & E2' & o' & ->)].
    + left. split; [congruence|done].
    + right. split_and!; [congruence|done|by exists o'].
    + right. split_and!; [done|congruence|by exists o].
    + congruence.
Qed.

(** A hand-over is the first one, and the session handed over has its address. *)
Lemma lstep_opened (cfg : settings) (n : bool) (s s' : Session) (acts : list action) :
  lstep cfg false n s acts s' -> addressed s ->
  (l_published (s_life s') = l_published (s_life s) /\ List.filter is_opened acts = []) \/
  (l_published (s_life s) = false /\ l_published (s_life s') = true /\ is_Some (AssignedIP s) /\
   List.filter is_opened acts = [CallOnSession]).
Proof.
  induction 1 as [s acts s' (El & _ & _ & _ & Hf & _)|r s|s Hc|s Hn Ht Hnd|o s|s|s l|s Ees Ep|now ip peerID queue w s s' Eb E|s1 s2 s3 a1 a2 L1 IH1 L2 IH2];
    intros Ha.
  - left. rewrite El. split; [done|]. apply filter_none; [kinds|done].
  - left. unfold closeBegin. by destruct (l_stopping _).
  - left. destruct (closeEnd_life cfg s) as (_ & _ & _ & L4 & _). split; [done|].
    destruct (l_torn (s_life s)) eqn:Et; [unfold closeEnd; by rewrite Et|].
    rewrite closeEnd_filter by (done || kinds). unfold released. by destruct (AssignedIP s).
  - left. destruct (closeNotify_life cfg s) as (_ & _ & _ & _ & _ & _ & N7 & _). split; [done|]. by apply closeNotify_filter.
  - left. unfold recordHandshakeOutcome. by destruct (l_outcome (s_life s)).
  - by left.
  - by left.
  - unfold publishSession. destruct (hasOnSession _); [|by left]. right. split_and!; try done. by apply Ha.
  - done.
  - rewrite List.filter_app. specialize (IH1 Ha). pose proof (lstep_addressed _ _ _ _ _ _ L1 Ha) as Ha2. specialize (IH2 Ha2).
    destruct (lstep_lease _ _ _ _ _ L1) as [F1 _]. destruct IH1 as [(E1 & ->)|(E1 & E1' & S1 & ->)], IH2 as [(E2 & ->)|(E2 & E2' & S2 & ->)].
    + left. split; [congruence|done].
    + right. split_and!; try (done || congruence || by rewrite F1 in S2).
    + right. split_and!; try (done || congruence).
    + congruence.
Qed.

(** The entries of the server's tables a session's steps touch. *)
Definition is_table (a : action) : bool := is_remove a || is_release a || is_drop a.

Lemma filter_tables_none (acts : list action) :
  Forall (fun a => is_ledger a = false) acts -> Forall (fun a => is_drop a = false) acts ->
  List.filter is_table acts = [].
Proof.
  induction 1 as [|a acts Ha _ IH]; [done|]. intros [Hd Hr]%Forall_cons. cbn [List.filter].
  destruct a; try done; by apply IH.
Qed.

Lemma closeEnd_tables (cfg : settings) (s : Session) :
  List.filter is_table (closeEnd cfg s).2 =
    if l_torn (s_life s) then [] else
    (match ks_wrapper (k_primary (s_keys s)) with Some _ => [DropRoute (PeerID s)] | None => [] end) ++
    released s ++ [RemoveSession].
Proof.
  unfold closeEnd. destruct (l_torn (s_life s)); [done|]. rewrite closeConns_eq. cbn [snd].
  assert (Hm : List.filter is_table (map CloseConn (ownedConns (s_keys s))) = []) by (by induction (ownedConns (s_keys s))).
  repeat change (AssignedIP (set_life ?l s)) with (AssignedIP s). repeat change (PeerID (set_life ?l s)) with (PeerID s).
  rewrite !List.filter_app, Hm. unfold released. by destruct (ks_wrapper _), (AssignedIP s).
Qed.

(** A step leaves the tables alone, or it is the teardown's. *)
Lemma lstep_tables (cfg : settings) (b n : bool) (s s' : Session) (acts : list action) :
  lstep cfg b n s acts s' ->
  (keyed s -> keyed s') /\
  ((l_torn (s_life s') = l_torn (s_life s) /\ List.filter is_table acts = []) \/
   (l_torn (s_life s) = false /\ l_torn (s_life s') = true /\ closing s' = true /\
    exists drop, List.filter is_table acts = drop ++ released s' ++ [RemoveSession] /\
      (drop = [] \/ drop = [DropRoute (PeerID s')]) /\ (keyed s -> drop = [DropRoute (PeerID s')]))).
Proof.
  induction 1 as [s acts s' (El & _ & _ & Ek & Hf & Hd)|r s|s Hc|s Hn Ht Hnd|o s|s|s l|s Ees Ep|now ip peerID queue w s s' Eb E
                 |s1 s2 s3 a1 a2 L1 [K1 IH1] L2 [K2 IH2]].
  - split; [done|]. left. rewrite El. split; [done|]. by apply filter_tables_none.
  - unfold closeBegin. destruct (l_stopping _); by (split; [|left]).
  - destruct (closeEnd_life cfg s) as (T1 & T2 & _ & _ & _ & L6 & _). split.
    { unfold closeEnd, keyed. destruct (l_torn (s_life s)); [done|]. by rewrite closeConns_eq. }
    rewrite closeEnd_tables. destruct (l_torn (s_life s)) eqn:Et; [left; by rewrite T1|]. right.
    split_and!; [done|done|congruence|]. unfold released, AssignedIP, PeerID. rewrite L6.
    exists (match ks_wrapper (k_primary (s_keys s)) with Some _ => [DropRoute (a_peerID (s_lease s))] | None => [] end).
    split_and!; [done|destruct (ks_wrapper _); auto|]. unfold keyed. destruct (ks_wrapper _); [done|by intros [? ?]].
  - destruct (closeNotify_life cfg s) as (N1 & _ & _ & N4 & _). unfold keyed. rewrite N1. split; [done|]. left. split; [done|].
    by apply closeNotify_filter.
  - unfold recordHandshakeOutcome. destruct (l_outcome _); by (split; [|left]).
  - by split; [|left].
  - by split; [|left].
  - unfold publishSession. destruct (hasOnSession _); by (split; [|left]).
  - revert E. unfold publishLease. destruct (closing s); [done|]. intros [= <-]. split; [by unfold keyed|by left].
  - split; [auto|]. rewrite List.filter_app.
    destruct IH1 as [(E1 & ->)|(E1 & E1' & C1 & drop & -> & D1 & D1')], IH2 as [(E2 & ->)|(E2 & E2' & C2 & drop' & -> & D2 & D2')].
    + left. split; [congruence|done].
    + right. split_and!; [congruence|done|done|]. exists drop'. split_and!; [done|done|auto].
    + right. destruct (lstep_final _ _ _ _ _ _ L2 C1) as (F1 & _ & F3 & F4). split_and!; [done|congruence|done|].
      exists drop. rewrite app_nil_r. unfold released, AssignedIP, PeerID in *. rewrite F3, F4. done.
    + congruence.
Qed.

(** No step but the load of [published] ends a teardown or notifies the embedder. *)
Lemma lstep_closed (cfg : settings) (b : bool) (s s' : Session) (acts : list action) :
  lstep cfg b false s acts s' -> l_ended (s_life s') = l_ended (s_life s) /\ List.filter is_closed acts = [].
Proof.
  induction 1 as [s acts s' (El & _ & _ & _ & Hf & _)|r s|s Hc|s Hn Ht Hnd|o s|s|s l|s Ees Ep|now ip peerID queue w s s' Eb E
                 |s1 s2 s3 a1 a2 _ IH1 _ IH2]; try done.
  - rewrite El. split; [done|]. apply filter_none; [kinds|done].
  - unfold closeBegin. by destruct (l_stopping _).
  - destruct (closeEnd_life cfg s) as (_ & _ & _ & _ & _ & _ & _ & L8). split; [done|].
    destruct (l_torn (s_life s)) eqn:Et; [unfold closeEnd; by rewrite Et|].
    rewrite closeEnd_filter by (done || kinds). unfold released. by destruct (AssignedIP s).
  - unfold recordHandshakeOutcome. by destruct (l_outcome _).
  - unfold publishSession. by destruct (hasOnSession _).
  - revert E. unfold publishLease. destruct (closing s); [done|]. by intros [= <-].
  - destruct IH1 as [E1 F1], IH2 as [E2 F2]. rewrite List.filter_app, F1, F2. split; [congruence|done].
Qed.

(** What a stopping session keeps, along a run. *)
Lemma run_final (cfg : settings) (es : list event) (s s' : Session) (fl fl' : gmap nat Z) (A : list action) :
  closing s = true -> run cfg (s, fl) es = Ok ((s', fl'), A) ->
  closing s' = true /\ getCloseReason s' = getCloseReason s /\ AssignedIP s' = AssignedIP s /\ PeerID s' = PeerID s.
Proof.
  intros Hc Hr.
  apply (run_ind cfg (fun st _ => closing st.1 = true /\ getCloseReason st.1 = getCloseReason s /\
    AssignedIP st.1 = AssignedIP s /\ PeerID st.1 = PeerID s)) with (A := []) (4 := Hr); [|done].
  intros st B e st' acts (H1 & H2 & H3 & H4) He%exec_lstep. apply lstep_final in He; [|done].
  destruct He as (F1 & F2 & F3 & F4). split_and!; congruence.
Qed.

Lemma run_ledger (cfg : settings) (es : list event) (s : Session) (fl : gmap nat Z) (A : list action) :
  run cfg (newSession, ∅) es = Ok ((s, fl), A) -> ledger s A.
Proof.
  intros Hr. change A with ([] ++ A).
  apply (run_ind cfg (fun st A => ledger st.1 A)) with (es := es) (st := (newSession, ∅)) (st' := (s, fl)); try done.
  intros st B e st' acts HB He. by eapply lstep_ledger, HB; apply exec_lstep in He.
Qed.

(** What one event adds to the notifications: the load's answer, or nothing. *)
Lemma exec_closed (cfg : settings) (s s' : Session) (fl fl' : gmap nat Z) (e : event) (acts : list action) :
  exec cfg (s, fl) e = Ok ((s', fl'), acts) ->
  (l_ended (s_life s') = l_ended (s_life s) /\ List.filter is_closed acts = []) \/
  (e = ECloseNotify /\ l_torn (s_life s) = true /\ l_ended (s_life s) = false /\ l_ended (s_life s') = true /\
   List.filter is_closed acts = notified cfg s).
Proof.
  intros He. destruct (is_notify e) eqn:En.
  - destruct e; try done. cbn [exec] in He. destruct (l_torn (s_life s)) eqn:Et; [|injection He as <- <- <-; by left].
    unfold closeNotify in He. destruct (l_ended (s_life s)) eqn:Ed; [injection He as <- <- <-; by left|].
    injection He as <- <- <-. right. split_and!; try done. unfold notified, getCloseReason. by destruct (_ && _).
  - apply exec_lstep in He. rewrite En in He. left. by apply lstep_closed in He.
Qed.

Lemma run_closed (cfg : settings) (es : list event) :
  forall (s s' : Session) (fl fl' : gmap nat Z) (A : list action),
  run cfg (s, fl) es = Ok ((s', fl'), A) ->
  (l_ended (s_life s') = l_ended (s_life s) /\ List.filter is_closed A = []) \/
  (l_ended (s_life s) = false /\ l_ended (s_life s') = true /\
   exists es1 es2 s1 fl1 A1 A2, es = es1 ++ ECloseNotify :: es2 /\ run cfg (s, fl) es1 = Ok ((s1, fl1), A1) /\
     run cfg (s1, fl1) (ECloseNotify :: es2) = Ok ((s', fl'), A2) /\ A = A1 ++ A2 /\
     l_torn (s_life s1) = true /\ List.filter is_closed A = notified cfg s1).
Proof.
  induction es as [|e es IH]; intros s s' fl fl' A Hr.
  - injection Hr as <- <- <-. by left.
  - pose proof Hr as Hr0. apply run_cons in Hr as ([s1 fl1] & a1 & a2 & He & Hr & ->).
    specialize (IH _ _ _ _ _ Hr). rewrite List.filter_app.
    destruct (exec_closed _ _ _ _ _ _ _ He) as [[E1 F1]|(-> & Et & Ed & E1 & F1)];
      destruct IH as [[E2 F2]|(E2 & E2' & es1 & es2 & s2 & fl2 & A1 & A2 & -> & R1 & R2 & -> & T2 & F2)]; try congruence.
    + left. rewrite F1, F2. split; [congruence|done].
    + right. rewrite F1, F2. split_and!; [congruence|done|]. exists (e :: es1), es2, s2, fl2, (a1 ++ A1), A2.
      split_and!; try done; [|by rewrite (assoc_L (++))]. cbn [run]. rewrite He. outcome_simpl. cbn [fst snd]. by rewrite R1.
    + right. split_and!; [done|congruence|]. exists [], es, s, fl, [], (a1 ++ a2). rewrite F1, F2, app_nil_r. by split_and!.
Qed.

(** C21. Teardown happens once.  Whatever a session goes through from its creation,
    and however its goroutines interleave: it is removed from the server's table once,
    by the teardown; the address and peer-id it was leased are released then, once,
    and never otherwise; it is counted under at most one of the handshake counters; it
    is handed to [OnSession] at most once.  The teardown then loads whether the
    session was handed over, once, under no lock: before that load [OnSessionClosed] is
    not called; from the load on it has been called exactly when the session had been
    handed to [OnSession] by the time of the load, be it after its removal, once, with
    the reason the session keeps. *)
Theorem teardown_once (cfg : settings) (es : list event) (s : Session) (fl : gmap nat Z) (A : list action) :
  run cfg (newSession, ∅) es = Ok ((s, fl), A) ->
  let torn := l_torn (s_life s) in
  List.filter is_remove A = (if torn then [RemoveSession] else []) /\
  List.filter is_release A =
    (if torn then match AssignedIP s with Some ip => [ReleaseLease ip (PeerID s)] | None => [] end else []) /\
  (length (List.filter is_outcome A) <= 1)%nat /\ (length (List.filter is_opened A) <= 1)%nat /\
  (l_ended (s_life s) = false -> List.filter is_closed A = []) /\
  (l_ended (s_life s) = true -> torn = true /\
     exists es1 es2 st1 A1 A2, es = es1 ++ ECloseNotify :: es2 /\
       run cfg (newSession, ∅) es1 = Ok (st1, A1) /\ A = A1 ++ A2 /\ List.filter is_remove A1 = [RemoveSession] /\
       List.filter is_closed A =
         if hasOnSessionClosed cfg && existsb is_opened A1 then [CallOnSessionClosed (getCloseReason s)] else []).
Proof.
  intros Hr. pose proof (run_ledger _ _ _ _ _ Hr) as [H1 H2 H3 H5 H6]. cbv zeta. split_and!; try done.
  - destruct (l_outcome (s_life s)); [destruct H6 as [o ->]|rewrite H6]; cbn; lia.
  - rewrite H5. destruct (l_published (s_life s)); cbn; lia.
  - intros Ed. by destruct (run_closed _ _ _ _ _ _ _ Hr) as [[_ HC]|(_ & HC & _)]; [|congruence].
  - intros Ed. destruct (run_closed _ _ _ _ _ _ _ Hr) as [[HC _]|(_ & _ & es1 & es2 & s1 & fl1 & A1 & A2 & -> & R1 & R2 & -> & T1 & HC)];
      [by rewrite Ed in HC|].
    pose proof (run_ledger _ _ _ _ _ R1) as [G1 G2 G3 G5 G6]. rewrite T1 in G2.
    destruct (run_final _ _ _ _ _ _ _ (G1 T1) R2) as (_ & Er & _). split.
    + rewrite List.filter_app, G2 in H2. destruct (l_torn (s_life s)); done.
    + exists es1, es2, (s1, fl1), A1, A2. split_and!; try done.
      rewrite HC, existsb_filter, G5, Er. unfold notified. by destruct (l_published (s_life s1)).
Qed.

(** The first close wins.  Once a session is stopping, whatever happens to it
    later keeps it stopping, with the reason first recorded and the lease it had:
    no later close changes the reason, no push exchange assigns an address, and
    [Write] returns [io.EOF] and sends nothing. *)
Theorem first_close_wins (cfg : settings) (es : list event) (s s' : Session) (fl fl' : gmap nat Z) (A : list action) :
  closing s = true -> run cfg (s, fl) es = Ok ((s', fl'), A) ->
  closing s' = true /\ getCloseReason s' = getCloseReason s /\
  AssignedIP s' = AssignedIP s /\ PeerID s' = PeerID s /\
  forall ok p, Write ok s' p = (Err EOF, s', []).
Proof.
  intros Hc Hr.
  pose proof (run_final _ _ _ _ _ _ _ Hc Hr) as HP.
  destruct HP as (H1 & H2 & H3 & H4). split_and!; try done. intros ok p. unfold Write. by rewrite H1.
Qed.

(** ** The inbound queue *)

(** The packets a reader has not yet received. *)
Definition unread (s : Session) : list bytes :=
  option_list (d_pendingRead (s_data s)) ++ match d_ipInbound (s_data s) with Some (_, q) => q | None => [] end.

(** An authenticated packet that arrives, or a [Read] with a buffer of [n] bytes. *)
Inductive io := Arrive (now : Z) (p : bytes) | Recv (n : Z).

(** The session after a sequence of these, the packets the queue took, and the packets
    the reads returned. *)
Fixpoint transfer (cfg : settings) (s : Session) (ops : list io) : Session * list bytes * list bytes :=
  match ops with
  | [] => (s, [], [])
  | Arrive now p :: ops =>
      let room := match d_ipInbound (s_data s) with Some (cap, q) => zlen q <? cap | None => false end in
      let '(s', taken, got) := transfer cfg (acceptPlaintext cfg now false p s).1 ops in
      (s', (if room then [p] else []) ++ taken, got)
  | Recv n :: ops =>
      let '(r, s1) := Read s n false in
      let '(s', taken, got) := transfer cfg s1 ops in
      (s', taken, match r with RdData p => [p] | _ => [] end ++ got)
  end.

Definition arrivals (ops : list io) : list bytes := omap (fun o => match o with Arrive _ p => Some p | _ => None end) ops.

Lemma u64_add (a b : Z) : u64 (u64 a + b) = u64 (a + b).
Proof. unfold u64. by rewrite Z.add_mod_idemp_l. Qed.

(** One arrival on a session that is not stopping. *)
Lemma accept_step (cfg : settings) (now : Z) (p : bytes) (s : Session) :
  closing s = false -> isExitNotify p = false ->
  let s' := (acceptPlaintext cfg now false p s).1 in
  let room := match d_ipInbound (s_data s) with Some (cap, q) => zlen q <? cap | None => false end in
  closing s' = false /\ unread s' = unread s ++ (if room then [p] else []) /\
  d_packetsIn (s_data s') = u64 (d_packetsIn (s_data s) + 1) /\
  d_inboundQueueDropped (s_data s') =
    (if room then d_inboundQueueDropped (s_data s) else u64 (d_inboundQueueDropped (s_data s) + 1)).
Proof.
  intros Hc He. unfold acceptPlaintext. rewrite He. unfold deliverIP, unread. cbn.
  change (closing (countPacket p (touchAuthTraffic now s))) with (closing s). rewrite Hc.
  destruct (d_ipInbound (s_data s)) as [[cap q]|] eqn:Eq; cbn; rewrite ?Eq.
  - destruct (zlen q <? cap); cbn; rewrite ?Eq, ?app_nil_r; split_and!; try done. by rewrite (assoc_L (++)).
  - by rewrite ?Eq, ?app_nil_r.
Qed.

(** One read. *)
Lemma read_step (s : Session) (n : Z) :
  closing s = false ->
  let '(r, s') := Read s n false in
  closing s' = false /\ d_packetsIn (s_data s') = d_packetsIn (s_data s) /\
  d_inboundQueueDropped (s_data s') = d_inboundQueueDropped (s_data s) /\
  match unread s with
  | [] => r = RdBlocks /\ unread s' = []
  | p :: rest => if n <? zlen p then r = RdErr ErrBufferTooSmall /\ unread s' = unread s
                 else r = RdData p /\ unread s' = rest
  end.
Proof.
  intros Hc. unfold Read, unread. rewrite Hc. cbn [andb].
  destruct (d_pendingRead (s_data s)) as [p|] eqn:Ep; cbn.
  - destruct (n <? zlen p) eqn:En; cbn; rewrite ?Ep; cbn; rewrite ?En; done.
  - destruct (d_ipInbound (s_data s)) as [[cap [|p q]]|] eqn:Eq; cbn; rewrite ?Ep, ?Eq; try done.
    destruct (n <? zlen p) eqn:En; done.
Qed.

(** The inbound queue is a bounded FIFO that never truncates.  Over any sequence
    of arrivals of authenticated packets and reads, the packets read followed by those
    still unread are the packets unread at first followed by those the queue took, in
    order and whole; every packet not taken is counted, once, as dropped.  The next
    read returns the first unread packet if the buffer holds it, and otherwise reports
    the short buffer and loses nothing. *)
Theorem inbound_fifo (cfg : settings) (ops : list io) (s s' : Session) (taken got : list bytes) :
  closing s = false -> Forall (fun p => isExitNotify p = false) (arrivals ops) ->
  0 <= d_packetsIn (s_data s) < 18446744073709551616 ->
  0 <= d_inboundQueueDropped (s_data s) < 18446744073709551616 ->
  transfer cfg s ops = (s', taken, got) ->
  unread s ++ taken = got ++ unread s' /\ taken `sublist_of` arrivals ops /\
  d_packetsIn (s_data s') = u64 (d_packetsIn (s_data s) + zlen (arrivals ops)) /\
  d_inboundQueueDropped (s_data s') =
    u64 (d_inboundQueueDropped (s_data s) + (zlen (arrivals ops) - zlen taken)) /\
  forall n, (Read s' n false).1 =
    match unread s' with
    | [] => RdBlocks
    | p :: _ => if n <? zlen p then RdErr ErrBufferTooSmall else RdData p
    end.
Proof.
  revert s taken got. induction ops as [|o ops IH]; intros s taken got Hc Hx Hp Hd.
  { intros [= <- <- <-]. cbn. rewrite app_nil_r. split; [done|]. split; [done|]. split; [rewrite ?Z.add_0_r; word_lia|].
    split; [rewrite Z.sub_diag, Z.add_0_r; word_lia|].
    intros n. pose proof (read_step s n Hc) as Hr. destruct (Read s n false) as [r s1].
    destruct Hr as (_ & _ & _ & Hr). destruct (unread s) as [|p rest]; [by destruct Hr|].
    by destruct (n <? zlen p); destruct Hr. }
  destruct o as [now p|n]; cbn [transfer].
  - change (arrivals (Arrive now p :: ops)) with (p :: arrivals ops) in *. apply Forall_cons in Hx as [Hxp Hx]. destruct (accept_step cfg now p s Hc Hxp) as (A1 & A2 & A3 & A4).
    set (room := match d_ipInbound (s_data s) with Some _ => _ | None => _ end) in *.
    destruct (transfer cfg _ ops) as [[s1 t1] g1] eqn:Et. intros [= <- <- <-].
    apply IH in Et as (I1 & I2 & I3 & I4 & I5); [|done|done|rewrite A3; word_lia|rewrite A4; destruct room; word_lia].
    rewrite A2 in I1. rewrite A3 in I3. rewrite A4 in I4. rewrite zlen_cons. split_and!.
    + by rewrite (assoc_L (++)).
    + destruct room; [by apply sublist_skip|by apply sublist_cons].
    + rewrite I3, u64_add. f_equal. lia.
    + rewrite I4. destruct room; cbn [app]; rewrite ?zlen_cons, ?u64_add; f_equal; lia.
    + done.
  - change (arrivals (Recv n :: ops)) with (arrivals ops) in *.
    pose proof (read_step s n Hc) as Hr. destruct (Read s n false) as [r s1].
    destruct Hr as (R1 & R2 & R3 & Hr). destruct (transfer cfg s1 ops) as [[s2 t2] g2] eqn:Et. intros [= <- <- <-].
    apply IH in Et as (I1 & I2 & I3 & I4 & I5); [|done|done|by rewrite R2|by rewrite R3].
    rewrite R2 in I3. rewrite R3 in I4. split_and!; try done. rewrite <- (assoc_L (++)), <- I1.
    destruct (unread s) as [|p rest]; [by destruct Hr as [-> ->]|].
    destruct (n <? zlen p); by destruct Hr as [-> ->].
Qed.

(** ** Data packets *)

(** A packet passes a key: long enough, authentic, and fresh for the replay window. *)
Definition authentic (w : Wrapper W) (packet : bytes) : bool :=
  (24 <=? zlen packet) && bool_decide (is_Some (opened w packet)) && (ar_accept (w_replay w) (seq_of packet)).1.

(** What the keys of the session make of a packet: the primary key's plaintext, or that
    of the lame-duck key before its time is up. *)
Definition verdict (s : Session) (now : Z) (packet : bytes) : option bytes :=
  match ks_wrapper (k_primary (s_keys s)) with
  | None => None
  | Some w =>
      if authentic w packet then opened w packet else
      match ks_wrapper (k_lameDuck (s_keys s)) with
      | None => None
      | Some lw =>
          if before now (ks_mustDie (k_lameDuck (s_keys s))) && authentic lw packet then opened lw packet else None
      end
  end.

Lemma Open_authentic (w : Wrapper W) (packet : bytes) :
  exists r, (Open w [] packet).2 = with_replay w r /\
  if authentic w packet
  then exists p, opened w packet = Some p /\
    (Open w [] packet).1 = if IsPing p then Err ErrPingAbsorbed else Ok p
  else exists e, (Open w [] packet).1 = Err e /\ e <> ErrPingAbsorbed.
Proof.
  assert (Hw : w = with_replay w (w_replay w)) by by destruct w.
  rewrite Open_result. unfold authentic. rewrite Z.leb_antisym.
  destruct (zlen packet <? 24); [exists (w_replay w); split; [done|by eexists]|].
  destruct (opened w packet) as [p|]; [|exists (w_replay w); split; [done|by eexists]].
  destruct (ar_accept (w_replay w) (seq_of packet)) as [[] r]; cbn; exists r; (split; [done|]); [|by eexists].
  exists p. split; [done|]. by destruct (IsPing p).
Qed.

(** The same session but for the replay windows of its keys. *)
Definition slot_windows (a b : keySlot W) : Prop :=
  ks_keyID b = ks_keyID a /\ ks_conn b = ks_conn a /\ ks_established b = ks_established a /\
  ks_mustDie b = ks_mustDie a /\
  match ks_wrapper a, ks_wrapper b with
  | Some w, Some w' => exists r, w' = with_replay w r
  | None, None => True
  | _, _ => False
  end.
Definition same_but_windows (s s' : Session) : Prop :=
  s_life s' = s_life s /\ s_lease s' = s_lease s /\ s_data s' = s_data s /\
  slot_windows (k_primary (s_keys s)) (k_primary (s_keys s')) /\
  slot_windows (k_lameDuck (s_keys s)) (k_lameDuck (s_keys s')) /\
  set_slots emptySlot emptySlot (s_keys s') = set_slots emptySlot emptySlot (s_keys s).

Lemma slot_windows_refl (a : keySlot W) : slot_windows a a.
Proof. split_and!; try done. destruct (ks_wrapper a) as [w|]; [|done]. exists (w_replay w). by destruct w. Qed.

Lemma slot_windows_set (a : keySlot W) (w : Wrapper W) (r : W) :
  ks_wrapper a = Some w -> slot_windows a (set_wrapper (with_replay w r) a).
Proof. intros E. split_and!; try done. cbn. rewrite E. by exists r. Qed.

Lemma handleDataPacket_eq (cfg : settings) (now : Z) (pick : bool) (s : Session) (packet : bytes) :
  exists s1, same_but_windows s s1 /\
    handleDataPacket cfg now pick s packet =
      Ok (match verdict s now packet with
          | None => (s1, [])
          | Some p => if IsPing p then (countKeepalive (touchAuthTraffic now s1), [])
                      else acceptPlaintext cfg now pick p s1
          end).
Proof.
  unfold handleDataPacket, verdict. destruct (ks_wrapper (k_primary (s_keys s))) as [w|] eqn:Ew.
  2:{ exists s. split; [|done]. split_and!; auto using slot_windows_refl. }
  destruct (Open_authentic w packet) as (r & Hw & Ho). destruct (Open w [] packet) as [res w'].
  cbn [fst snd] in *. subst w'.
  assert (H1 : same_but_windows s (set_primary_wrapper (with_replay w r) s)).
  { split_and!; auto using slot_windows_refl. by apply slot_windows_set. }
  destruct (authentic w packet).
  { destruct Ho as (p & -> & ->). eexists. split; [exact H1|]. by destruct (IsPing p). }
  destruct Ho as (e & -> & He). destruct (ks_wrapper (k_lameDuck (s_keys s))) as [lw|] eqn:El.
  2:{ eexists. split; [exact H1|]. by destruct e. }
  destruct (before now _); cbn [negb andb].
  2:{ eexists. split; [exact H1|]. by destruct e. }
  destruct (Open_authentic lw packet) as (r' & Hw & Ho). destruct (Open lw [] packet) as [res' lw'].
  cbn [fst snd] in *. subst lw'.
  assert (H2 : same_but_windows s (set_lame_wrapper (with_replay lw r') (set_primary_wrapper (with_replay w r) s)))
    by (split_and!; try done; by apply slot_windows_set).
  eexists. split; [exact H2|]. destruct (authentic lw packet).
  - destruct Ho as (p & -> & ->). destruct e, (IsPing p); done.
  - destruct Ho as (e' & -> & He'). by destruct e, e'.
Qed.

(** The data path decides by the keys alone.  A packet that neither the primary
    key nor a lame-duck key still in its transition window opens and finds fresh
    changes nothing of the session but replay windows and causes no action.  A packet
    that one of them passes is a keepalive, which is counted and absorbed, or goes on
    as its plaintext; the primary key is asked first.  Nothing panics. *)
Theorem data_packet_verdict (cfg : settings) (now : Z) (pick : bool) (s : Session) (packet : bytes) :
  exists s1, same_but_windows s s1 /\
    handleDataPacket cfg now pick s packet =
      Ok (match verdict s now packet with
          | None => (s1, [])
          | Some p => if IsPing p then (countKeepalive (touchAuthTraffic now s1), [])
                      else acceptPlaintext cfg now pick p s1
          end).
Proof. apply handleDataPacket_eq. Qed.

(** ** Rollover *)

(** A peer's wrapper that seals what [w] opens. *)
Definition seals_for (sender w : Wrapper W) : Prop :=
  w_encryptAEAD sender = w_decryptAEAD w /\ w_encryptIV sender = w_decryptIV w.

Lemma NewWrapper_fields (keys : DataKeys) (peerID keyID : Z) (w : Wrapper W) :
  NewWrapper keys peerID keyID = Ok w -> w_keyID w = keyID /\ w_replay w = ar_init.
Proof.
  unfold NewWrapper. destruct (_ && _); [done|]. destruct (slice (EncryptCipher keys) _ _); [|done..]. outcome_simpl.
  destruct (aesNewCipher _); [|done..]. outcome_simpl. destruct (slice (DecryptCipher keys) _ _); [|done..]. outcome_simpl.
  destruct (aesNewCipher _); [|done..]. outcome_simpl. by intros [= <-].
Qed.

(** The completed renegotiation, as a state. *)
Lemma swapKeys_ok (t : Z) (s : Session) (c : nat) (id : Z) (dk : Key2) :
  closing s = false -> k_pendingReneg (s_keys s) = Some c -> zlen (k2_raw dk) = 256 ->
  Cipher.cipherKeyLen (Session.Cipher s) <> 0 ->
  exists s1 acts keys nw, swapKeys t s c id dk = Ok (s1, acts) /\ ar_models (w_replay nw) [] /\ w_keyID nw = id /\
    ServerSlots dk (Cipher.cipherKeyLen (Session.Cipher s)) = Ok keys /\ NewWrapper keys (PeerID s) id = Ok nw /\
    k_primary (s_keys s1) = mkSlot id (Some c) (Some nw) (Some t) None /\
    k_lameDuck (s_keys s1) = (let p := k_primary (s_keys s) in
      mkSlot (ks_keyID p) (ks_conn p) (ks_wrapper p) (ks_established p) (Some (t + transitionWindow))) /\
    k_pendingReneg (s_keys s1) = None /\ RenegotiationCount s1 = u32 (RenegotiationCount s + 1) /\
    s_life s1 = s_life s /\ s_lease s1 = s_lease s /\ s_data s1 = s_data s.
Proof.
  intros Hc Hp Hl Hk%Cipher.cipherKeyLen_cases. unfold swapKeys. rewrite Hc, bool_decide_eq_true_2 by done. cbn [orb negb].
  destruct dk as [raw]. destruct (Cipher.server_wrapper_ok (W := W) raw _ (PeerID s) id Hl Hk) as (keys & nw & Es & Hw & _).
  rewrite Es, Hw. destruct (NewWrapper_fields _ _ _ _ Hw) as [Hi Hr].
  eexists _, _, keys, nw. split; [apply f_equal, surjective_pairing|]. rewrite Hr.
  split; [apply ar_init_models|]. split; [done|]. destruct (ks_conn (k_lameDuck (s_keys s))); by split_and!.
Qed.

(** A data packet on its way when the keys change: sealed under the old key or the new
    one, arriving at [fl_now]. *)
Record flight := mkFlight { fl_old : bool; fl_now : Z; fl_pick : bool; fl_seq : Z; fl_payload : bytes; fl_packet : bytes }.

Definition arrival (f : flight) : event (W := W) := EData (fl_now f) (fl_pick f) (fl_packet f).

(** It is a sealed IP packet, and the other key does not happen to open it. *)
Record sealed_for (w nw : Wrapper W) (f : flight) : Prop := {
  sf_seq : is_u32 (fl_seq f);
  sf_plain : IsPing (fl_payload f) = false /\ isExitNotify (fl_payload f) = false;
  sf_sealed : exists sender, seals_for sender (if fl_old f then w else nw) /\
    sealWithSeq sender [] (fl_seq f) (fl_payload f) = Ok (fl_packet f);
  sf_foreign : opened (if fl_old f then nw else w) (fl_packet f) = None;
}.

(** What should be delivered of it: each packet that is fresh for its key, of the old key
    only before [T]; [ho], [hn]: the numbers each key has accepted. *)
Fixpoint kept (T : Z) (ho hn : list Z) (fs : list flight) : list bytes :=
  match fs with
  | [] => []
  | f :: fs =>
      if fl_old f then
        if (fl_now f <? T) && window_accepts ho (fl_seq f)
        then fl_payload f :: kept T (fl_seq f :: ho) hn fs else kept T ho hn fs
      else if window_accepts hn (fl_seq f)
        then fl_payload f :: kept T ho (fl_seq f :: hn) fs else kept T ho hn fs
  end.

Lemma Open_sealed (sender w : Wrapper W) (r : W) (h : list Z) (seq : Z) (p packet : bytes) :
  seals_for sender w -> ar_models r h -> is_u32 seq -> IsPing p = false -> sealWithSeq sender [] seq p = Ok packet ->
  exists r', Open (with_replay w r) [] packet =
      (if window_accepts h seq then Ok p else Err ErrReplay, with_replay w r') /\
    ar_models r' (if window_accepts h seq then seq :: h else h).
Proof.
  intros [E1 E2] Hm Hs Hp Hse. destruct (sealed_packet sender w seq p packet E1 E2 Hs Hse) as (Hl & Hq & Ho).
  rewrite Open_result. rewrite (proj2 (Z.ltb_ge _ _)) by lia. change (opened (with_replay w r) packet) with (opened w packet).
  rewrite Ho, Hq. cbn [w_replay with_replay]. destruct (ar_accept r seq) as [ok r'] eqn:Ea.
  destruct (ar_accept_spec _ _ _ _ _ Hs Hm Ea) as (<- & Hm' & _). exists r'. split; [|done]. rewrite Hp. by destruct ok.
Qed.

Lemma Open_foreign (w : Wrapper W) (r : W) (packet : bytes) :
  opened w packet = None ->
  exists e, Open (with_replay w r) [] packet = (Err e, with_replay w r) /\ e <> ErrPingAbsorbed.
Proof.
  intros Ho. rewrite Open_result. change (opened (with_replay w r) packet) with (opened w packet). rewrite Ho.
  destruct (_ <? _); by eexists.
Qed.

(** A session with its two keys, and a queue of [k] places left. *)
Record rolled (T : Z) (w nw : Wrapper W) (ho hn : list Z) (k : Z) (s : Session) : Prop := {
  ro_new : exists r, ks_wrapper (k_primary (s_keys s)) = Some (with_replay nw r) /\ ar_models r hn;
  ro_old : exists r, ks_wrapper (k_lameDuck (s_keys s)) = Some (with_replay w r) /\ ar_models r ho;
  ro_deadline : ks_mustDie (k_lameDuck (s_keys s)) = Some T;
  ro_open : closing s = false;
  ro_queue : exists cap q, d_ipInbound (s_data s) = Some (cap, q) /\ zlen q + k <= cap;
}.

(** A payload is queued for the reader. *)
Lemma accept_rolled (cfg : settings) (now : Z) (pick : bool) (T : Z) (w nw : Wrapper W) (ho hn : list Z) (k : Z) (p : bytes)
    (s : Session) :
  rolled T w nw ho hn k s -> 0 < k -> isExitNotify p = false ->
  exists s', acceptPlaintext cfg now pick p s = (s', []) /\ rolled T w nw ho hn (k - 1) s' /\ unread s' = unread s ++ [p].
Proof.
  intros [H1 H2 H3 H4 (cap & q & H5 & H6)] Hk He. unfold acceptPlaintext. rewrite He. eexists. split; [done|].
  unfold deliverIP, unread.
  change (d_ipInbound (s_data (countPacket p (touchAuthTraffic now s)))) with (d_ipInbound (s_data s)). rewrite H5.
  change (closing (countPacket p (touchAuthTraffic now s))) with (closing s). rewrite H4.
  rewrite (proj2 (Z.ltb_lt _ _)) by lia. cbn [andb]. split; [|by cbn; rewrite (assoc_L (++))].
  constructor; try done. exists cap, (q ++ [p]). split; [done|]. rewrite zlen_app. change (zlen [p]) with 1. lia.
Qed.

Lemma rolled_less (T : Z) (w nw : Wrapper W) (ho hn : list Z) (k k' : Z) (s : Session) :
  rolled T w nw ho hn k s -> k' <= k -> rolled T w nw ho hn k' s.
Proof. intros [H1 H2 H3 H4 (cap & q & H5 & H6)] Hk. constructor; try done. exists cap, q. split; [done|lia]. Qed.

(** One packet on its way. *)
Lemma flight_step (cfg : settings) (T : Z) (w nw : Wrapper W) (ho hn : list Z) (k : Z) (f : flight) (s : Session) :
  rolled T w nw ho hn k s -> 0 < k -> sealed_for w nw f ->
  exists s', handleDataPacket cfg (fl_now f) (fl_pick f) s (fl_packet f) = Ok (s', []) /\
    let fresh := if fl_old f then (fl_now f <? T) && window_accepts ho (fl_seq f) else window_accepts hn (fl_seq f) in
    rolled T w nw (if fl_old f && fresh then fl_seq f :: ho else ho) (if negb (fl_old f) && fresh then fl_seq f :: hn else hn)
      (k - 1) s' /\
    unread s' = unread s ++ (if fresh then [fl_payload f] else []).
Proof.
  intros Hr Hk [F1 [F2 F2'] (sender & F3 & F4) F5]. pose proof Hr as [(r1 & N1 & N2) (r0 & O1 & O2) D Hc HQ].
  unfold handleDataPacket. rewrite N1, O1, D. cbn [before]. destruct (fl_old f); cbn [negb andb].
  - destruct (Open_foreign nw r1 _ F5) as (e & -> & He).
    set (s1 := set_primary_wrapper (with_replay nw r1) s).
    assert (Hr1 : rolled T w nw ho hn k s1) by (constructor; try done; [by exists r1|by exists r0]).
    destruct (fl_now f <? T) eqn:Et; cbn [negb andb].
    2:{ exists s1. split; [by destruct e|]. split; [apply (rolled_less _ _ _ _ _ k); [done|lia]|]. by rewrite app_nil_r. }
    destruct (Open_sealed sender w r0 ho _ _ _ F3 O2 F1 F2 F4) as (r' & -> & Hm).
    set (s2 := set_lame_wrapper (with_replay w r') s1).
    assert (Hr2 : rolled T w nw (if window_accepts ho (fl_seq f) then fl_seq f :: ho else ho) hn k s2)
      by (constructor; try done; [by exists r1|by exists r']).
    destruct (window_accepts ho (fl_seq f)).
    + destruct (accept_rolled cfg (fl_now f) (fl_pick f) _ _ _ _ _ _ (fl_payload f) s2 Hr2 Hk F2') as (s' & E & G1 & G2).
      exists s'. split; [destruct e; try done; by rewrite E|]. by split.
    + exists s2. split; [by destruct e|]. split; [apply (rolled_less _ _ _ _ _ k); [done|lia]|]. by rewrite app_nil_r.
  - destruct (Open_sealed sender nw r1 hn _ _ _ F3 N2 F1 F2 F4) as (r' & -> & Hm).
    set (s1 := set_primary_wrapper (with_replay nw r') s).
    assert (Hr1 : rolled T w nw ho (if window_accepts hn (fl_seq f) then fl_seq f :: hn else hn) k s1)
      by (constructor; try done; [by exists r'|by exists r0]).
    destruct (window_accepts hn (fl_seq f)); cbn iota beta.
    + destruct (accept_rolled cfg (fl_now f) (fl_pick f) _ _ _ _ _ _ (fl_payload f) s1 Hr1 Hk F2') as (s' & E & G1 & G2).
      exists s'. split; [by rewrite E|]. by split.
    + destruct (fl_now f <? T); cbn [negb].
      2:{ exists s1. split; [done|]. split; [apply (rolled_less _ _ _ _ _ k); [done|lia]|]. by rewrite app_nil_r. }
      destruct (Open_foreign w r0 _ F5) as (e & -> & He). exists (set_lame_wrapper (with_replay w r0) s1).
      split; [by destruct e|]. split; [|by rewrite app_nil_r].
      apply (rolled_less _ _ _ _ _ k); [|lia]. destruct Hr1 as [G1 G2 G3 G4 G5]. constructor; try done. by exists r0.
Qed.

Lemma flight_run (cfg : settings) (T : Z) (w nw : Wrapper W) (fs : list flight) (fl : gmap nat Z) :
  Forall (sealed_for w nw) fs -> forall (ho hn : list Z) (s : Session),
  rolled T w nw ho hn (zlen fs) s ->
  exists s', run cfg (s, fl) (map arrival fs) = Ok ((s', fl), []) /\ unread s' = unread s ++ kept T ho hn fs.
Proof.
  induction 1 as [|f fs Hf _ IH]; intros ho hn s Hr; [exists s; by rewrite app_nil_r|].
  rewrite zlen_cons in Hr. pose proof (zlen_nonneg fs) as Hn.
  destruct (flight_step cfg T w nw ho hn _ f s Hr ltac:(lia) Hf) as (s1 & E & Hr1 & Hu). cbv zeta in Hr1, Hu.
  replace (1 + zlen fs - 1) with (zlen fs) in Hr1 by lia.
  destruct (IH _ _ _ Hr1) as (s' & E' & Hu'). exists s'. split.
  - cbn [map run arrival exec]. rewrite E. outcome_simpl. cbn [spawned foldl fst snd]. rewrite E'. by outcome_simpl.
  - rewrite Hu', Hu, <- (assoc_L (++)). f_equal. cbn [kept].
    destruct (fl_old f); cbn [andb negb]; [destruct (_ && _)|destruct (window_accepts hn _)]; done.
Qed.

(** C23. A rollover loses nothing in flight.  When a renegotiation completes at time
    [t] the keys negotiated are cut for the session's cipher and peer-id, and their
    wrapper becomes primary, with the negotiated key-id and an empty replay window;
    the count of rollovers goes up by one.  Take then any IP packets the peer sealed
    under the old key or the new one, as they arrive, in any order and however often,
    none of which the other key happens to open, and let the queue have room for them:
    what [handleDataPacket] queues for the reader is exactly those that are fresh for
    their key, of the old key only up to and excluding [t] plus the transition window,
    in order.  The sweep forgets the old key at the end of the window and not before. *)
Theorem rollover (cfg : settings) (t : Z) (s : Session) (c : nat) (id : Z) (dk : Key2) (w : Wrapper W) (h : list Z)
    (cap : Z) (q : list bytes) :
  closing s = false -> k_pendingReneg (s_keys s) = Some c -> zlen (k2_raw dk) = 256 ->
  Cipher.cipherKeyLen (Session.Cipher s) <> 0 ->
  ks_wrapper (k_primary (s_keys s)) = Some w -> ar_models (w_replay w) h -> d_ipInbound (s_data s) = Some (cap, q) ->
  exists s1 acts keys nw, swapKeys t s c id dk = Ok (s1, acts) /\
    ServerSlots dk (Cipher.cipherKeyLen (Session.Cipher s)) = Ok keys /\ NewWrapper keys (PeerID s) id = Ok nw /\
    ks_wrapper (k_primary (s_keys s1)) = Some nw /\ ks_keyID (k_primary (s_keys s1)) = id /\ w_keyID nw = id /\
    RenegotiationCount s1 = u32 (RenegotiationCount s + 1) /\
    (forall fs fl, Forall (sealed_for w nw) fs -> zlen q + zlen fs <= cap ->
       exists s2, run cfg (s1, fl) (map arrival fs) = Ok ((s2, fl), []) /\
         unread s2 = unread s ++ kept (t + transitionWindow) h [] fs) /\
    (forall now, ks_wrapper (k_lameDuck (s_keys (sweepLameDuck now s1).1)) =
       if now <? t + transitionWindow then Some w else None).
Proof.
  intros Hc Hp Hl Hk Hw Hm Hq.
  destruct (swapKeys_ok t s c id dk Hc Hp Hl Hk) as (s1 & acts & keys & nw & E & Hi & Hid & Hks & Hnw & E1 & E2 & _ & E3 & E4 & _ & E5).
  exists s1, acts, keys, nw. rewrite E1. split_and!; try done.
  - intros fs fl Hfs Hroom.
    destruct (flight_run cfg (t + transitionWindow) w nw fs fl Hfs h [] s1) as (s2 & Hr & Hu).
    + constructor.
      * exists (w_replay nw). rewrite E1. split; [|done]. by destruct nw.
      * exists (w_replay w). rewrite E2. cbn. rewrite Hw. split; [|done]. by destruct w.
      * by rewrite E2.
      * unfold closing. by rewrite E4.
      * exists cap, q. by rewrite E5.
    + exists s2. split; [done|]. rewrite Hu. unfold unread. by rewrite E5.
  - intros now. unfold sweepLameDuck. rewrite E2. cbn. rewrite Hw, bool_decide_eq_true_2 by done. cbn.
    destruct (now <? t + transitionWindow); cbn; [by rewrite E2|]. by destruct (ks_conn (k_primary (s_keys s))).
Qed.

(** ** The idle reaper *)

(** The time at which a step hears authenticated traffic. *)
Definition heard (s : Session) (e : event (W := W)) : option Z :=
  match e with
  | EPublishLease now _ _ _ _ => if bool_decide (AssignedIP s = None) && negb (closing s) then Some now else None
  | EData now _ packet => if verdict s now packet is Some _ then Some now else None
  | EPump now cp => if negb (closing s) && bool_decide (is_Some (routeControlPacket s (cp_KeyID cp))) then Some now else None
  | ESoftReset now cp => if routeControlPacket s (cp_KeyID cp) is Some _ then Some now else None
  | _ => None
  end.

Definition lastAuth (s : Session) : option Z := a_lastAuthTraffic (s_lease s).

Fixpoint last_heard (cfg : settings) (st : state (W := W)) (es : list event) (t : option Z) : option Z :=
  match es with
  | [] => t
  | e :: es =>
      match exec cfg st e with
      | Ok (st', _) => last_heard cfg st' es (match heard st.1 e with Some now => Some now | None => t end)
      | _ => t
      end
  end.

Lemma close_lease (cfg : settings) (r : CloseReason) (s : Session) :
  s_lease (teardown cfg r s).1 = s_lease s.
Proof.
  unfold teardown. destruct (closeEnd_life cfg (closeBegin r s)) as (_ & _ & _ & _ & _ & -> & _).
  unfold closeBegin. by destruct (l_stopping _).
Qed.

Lemma outcome_close_lease (cfg : settings) (o : hs_outcome) (r : CloseReason) (f : Session -> Session) (s : Session) :
  (forall s, s_lease (f s) = s_lease s) ->
  let res := (let '(s, a1) := recordHandshakeOutcome o s in
              let '(s, a2) := teardown cfg r (f s) in (s, a1 ++ a2)) in
  s_lease res.1 = s_lease s.
Proof.
  intros Hf. assert (Ho : s_lease (recordHandshakeOutcome o s).1 = s_lease s)
    by (unfold recordHandshakeOutcome; by destruct (l_outcome _)).
  destruct (recordHandshakeOutcome o s) as [s1 a1]. pose proof (close_lease cfg r (f s1)) as Hc.
  destruct (teardown cfg r (f s1)) as [s2 a2]. cbn [fst] in *. by rewrite Hc, Hf.
Qed.

Lemma accept_lastAuth (cfg : settings) (now : Z) (pick : bool) (p : bytes) (s : Session) :
  lastAuth (acceptPlaintext cfg now pick p s).1 = Some now.
Proof.
  unfold lastAuth, acceptPlaintext. destruct (isExitNotify p); [by rewrite close_lease|].
  cbn [fst]. by destruct (deliverIP_rest pick p (countPacket p (touchAuthTraffic now s))) as (_ & -> & _).
Qed.

Lemma data_heard (cfg : settings) (now : Z) (pick : bool) (s s' : Session) (packet : bytes) (acts : list action) :
  handleDataPacket cfg now pick s packet = Ok (s', acts) ->
  lastAuth s' = if verdict s now packet is Some _ then Some now else lastAuth s.
Proof.
  destruct (handleDataPacket_eq cfg now pick s packet) as (s1 & (_ & Hl & _) & ->).
  destruct (verdict s now packet) as [p|]; [|intros [= <- <-]; unfold lastAuth; by rewrite Hl].
  destruct (IsPing p); [by intros [= <- <-]|]. intros E%(inj Ok).
  pose proof (accept_lastAuth cfg now pick p s1) as Ha. by rewrite E in Ha.
Qed.

Ltac solve_lease := repeat case_match; simplify_eq/=; done.

Lemma reneg_lease (cfg : settings) (hasPC : bool) (now : Z) (s : Session) : s_lease (runReneg cfg hasPC now s).1 = s_lease s.
Proof. unfold runReneg, sweepLameDuck, checkReneg, startRenegotiation. solve_lease. Qed.

Lemma swap_lease (now : Z) (s s' : Session) (c : nat) (id : Z) (dk : Key2) (acts : list action) :
  swapKeys now s c id dk = Ok (s', acts) -> s_lease s' = s_lease s.
Proof. unfold swapKeys, abandon, clearPending. intros E. solve_lease. Qed.

Lemma finish_lease (cfg : settings) (now : Z) (s s' : Session) (c : nat) (id : Z) (res : reneg_result)
    (acts : list action) :
  finishRenegotiation cfg now s c id res = Ok (s', acts) -> s_lease s' = s_lease s.
Proof.
  unfold finishRenegotiation. destruct res as [| |dk]; [| |apply swap_lease].
  - unfold abandon, clearPending. intros E. solve_lease.
  - assert (Ha : s_lease (abandon c s).1 = s_lease s) by (unfold abandon, clearPending; solve_lease).
    destruct (abandon c s) as [s1 a1]. pose proof (close_lease cfg CloseReasonAuthFailed s1) as Hc.
    destruct (teardown _ _ s1) as [s2 a2]. intros [= <- <-]. cbn [fst] in *. by rewrite Hc.
Qed.

(** ** The negotiated keys *)

Definition negotiated (s : Session) : bytes * option Key2 := (Session.Cipher s, k_dataKeys (s_keys s)).

(** Once there is a cipher it has a key length and there are keys to cut. *)
Definition well_keyed (s : Session) : Prop :=
  Session.Cipher s = [] \/
  (Cipher.cipherKeyLen (Session.Cipher s) <> 0 /\ exists dk, k_dataKeys (s_keys s) = Some dk /\ zlen (k2_raw dk) = 256).

Definition keyed_step (s s' : Session) : Prop :=
  (well_keyed s -> well_keyed s') /\ (Session.Cipher s' = [] -> Session.Cipher s = []).

Lemma negotiated_step (s s' : Session) : negotiated s' = negotiated s -> keyed_step s s'.
Proof. unfold negotiated, keyed_step, well_keyed. by intros [= -> ->]. Qed.

Lemma close_negotiated (cfg : settings) (r : CloseReason) (s : Session) :
  negotiated (teardown cfg r s).1 = negotiated s.
Proof.
  unfold negotiated, Session.Cipher. rewrite close_lease. f_equal. unfold teardown, closeEnd, closeBegin.
  destruct (l_stopping (s_life s)); cbn [s_life set_life l_torn]; destruct (l_torn (s_life s)); rewrite ?closeConns_eq; done.
Qed.

Lemma outcome_close_negotiated (cfg : settings) (o : hs_outcome) (r : CloseReason) (f : Session -> Session) (s : Session) :
  (forall s, negotiated (f s) = negotiated s) ->
  let res := (let '(s, a1) := recordHandshakeOutcome o s in
              let '(s, a2) := teardown cfg r (f s) in (s, a1 ++ a2)) in
  negotiated res.1 = negotiated s.
Proof.
  intros Hf. assert (Ho : negotiated (recordHandshakeOutcome o s).1 = negotiated s)
    by (unfold recordHandshakeOutcome; by destruct (l_outcome _)).
  destruct (recordHandshakeOutcome o s) as [s1 a1]. pose proof (close_negotiated cfg r (f s1)) as Hc.
  destruct (teardown cfg r (f s1)) as [s2 a2]. cbn [fst] in *. by rewrite Hc, Hf.
Qed.

Lemma accept_negotiated (cfg : settings) (now : Z) (pick : bool) (p : bytes) (s : Session) :
  negotiated (acceptPlaintext cfg now pick p s).1 = negotiated s.
Proof.
  unfold acceptPlaintext. destruct (isExitNotify p); [by rewrite close_negotiated|]. unfold deliverIP. by repeat case_match.
Qed.

Lemma data_negotiated (cfg : settings) (now : Z) (pick : bool) (s s' : Session) (packet : bytes) (acts : list action) :
  handleDataPacket cfg now pick s packet = Ok (s', acts) -> negotiated s' = negotiated s.
Proof.
  unfold handleDataPacket.
  assert (Hacc : forall p (s1 : Session), negotiated s1 = negotiated s -> acceptPlaintext cfg now pick p s1 = (s', acts) ->
    negotiated s' = negotiated s).
  { intros p s1 Hs1 E. pose proof (accept_negotiated cfg now pick p s1) as Hl. rewrite E in Hl. cbn in Hl. congruence. }
  repeat case_match; intros E; simplify_eq/=; try done; (eapply Hacc; [|exact E]; done).
Qed.

Ltac solve_negotiated := repeat case_match; simplify_eq/=; done.

Lemma finish_well_keyed (cfg : settings) (now : Z) (s s' : Session) (c : nat) (id : Z) (res : reneg_result)
    (acts : list action) :
  match res with RenegKeys dk => zlen (k2_raw dk) = 256 | _ => True end ->
  finishRenegotiation cfg now s c id res = Ok (s', acts) -> keyed_step s s'.
Proof.
  assert (Ha : negotiated (abandon c s).1 = negotiated s) by (unfold abandon, clearPending; solve_negotiated).
  pose proof (negotiated_step s) as Hn.
  unfold finishRenegotiation. destruct res as [| |dk]; intros Hr.
  - destruct (abandon c s) as [s1 a1]. intros [= <- <-]. by apply Hn.
  - destruct (abandon c s) as [s1 a1]. pose proof (close_negotiated cfg CloseReasonAuthFailed s1) as Hc.
    destruct (teardown _ _ s1) as [s2 a2]. intros [= <- <-]. apply Hn. cbn [fst] in *. congruence.
  - unfold swapKeys. destruct (_ || _); [intros [= <- <-]; by apply Hn|].
    destruct (ServerSlots _ _); [|done..]. destruct (NewWrapper _ _ _); [| |done].
    + assert (Hd : keyed_step s (set_keys (mkKeys (k_primary (s_keys s)) (k_lameDuck (s_keys s)) None 0 None 0 (Some dk) 0 ∅ 0) s)).
      { split; [|done]. intros [E|[E _]]; [by left|right]. split; [done|]. by exists dk. }
      intros E. repeat case_match; simplify_eq/=; done.
    + intros E%(inj Ok). rewrite E in Ha. by apply Hn.
Qed.

Lemma exec_well_keyed (cfg : settings) (st st' : state) (e : event) (acts : list action) :
  event_ok st.1 e -> exec cfg st e = Ok (st', acts) -> keyed_step st.1 st'.1.
Proof.
  destruct st as [s fl]. cbn [fst]. intros He.
  assert (Hret : forall r : Session * list action, negotiated r.1 = negotiated s ->
    Ok (E := dc_error) ((r.1, spawned r.2 fl), r.2) = Ok (st', acts) -> keyed_step s st'.1)
    by (intros r Hr [= <- <-]; by apply negotiated_step).
  destruct e; cbn [exec event_ok] in *.
  - destruct (ks_conn _); [by apply Hret|]. intros [= <- <-]. destruct He. split; [|by intros E; cbn in E; subst].
    right. split; [done|]. by exists dataKeys.
  - destruct (AssignedIP s) eqn:Ea; [by apply Hret|].
    unfold publishLease. destruct (closing s) eqn:Ec; by apply Hret.
  - destruct (l_doneCh (s_life s)); apply Hret; [done|]. by apply (outcome_close_negotiated cfg _ _ closeDone).
  - destruct (AssignedIP s), (l_doneCh (s_life s)); try by apply Hret. apply Hret. unfold handshakeDone.
    destruct (closing _); [by apply (outcome_close_negotiated cfg _ _ id (closeDone s))|].
    unfold recordHandshakeOutcome. by destruct (l_outcome _).
  - destruct (_ && _); [|by apply Hret]. apply Hret. unfold publishSession. by destruct (hasOnSession _).
  - apply Hret. unfold enforceHandshakeWindow. destruct (_ && _); [done|].
    by apply (outcome_close_negotiated cfg _ _ id).
  - destruct (handleDataPacket cfg now pick s packet) as [[s1 a1]| |] eqn:E; outcome_simpl; [|done..].
    apply data_negotiated in E. by apply (Hret (s1, a1)).
  - apply (Hret (_, [])). cbn [fst]. unfold Read. solve_negotiated.
  - assert (Hw : negotiated (Write pcOK s p).1.2 = negotiated s) by (unfold Write; solve_negotiated).
    destruct (Write pcOK s p) as [[r s1] a1]. destruct r; try done; by apply (Hret (s1, a1)).
  - destruct (emitPing hasPC s) as [[s1 a1]| |] eqn:E; outcome_simpl; [|done..].
    apply (Hret (s1, a1)). unfold emitPing in E. solve_negotiated.
  - apply Hret. unfold pump. destruct (closing s); [done|]. by destruct (routeControlPacket _ _).
  - apply Hret. unfold handleSoftReset, beginRenegotiation, startRenegotiation. solve_negotiated.
  - apply Hret. unfold runReneg, sweepLameDuck, checkReneg, startRenegotiation. solve_negotiated.
  - apply Hret. unfold runReap. destruct (_ <=? _); [|done]. pose proof (close_negotiated cfg CloseReasonIdleReap s) as Hc.
    by destruct (teardown _ _ s).
  - destruct (fl !! conn); [|by apply Hret].
    destruct (finishRenegotiation _ _ _ _ _ _) as [[s1 a1]| |] eqn:E; outcome_simpl; [|done..]. intros [= <- <-].
    eapply finish_well_keyed; [|exact E]. by destruct res.
  - apply Hret. unfold enforceRenegotiationWindow, abandon, clearPending. solve_negotiated.
  - apply Hret. unfold closeBegin. by destruct (l_stopping _).
  - destruct (closing s); [|by apply Hret]. apply Hret. unfold closeEnd, negotiated, Session.Cipher.
    destruct (l_torn (s_life s)); rewrite ?closeConns_eq; done.
  - destruct (l_torn (s_life s)); [|by apply Hret]. apply Hret. destruct (closeNotify_life cfg s) as (N1 & N2 & _).
    unfold negotiated, Session.Cipher. by rewrite N1, N2.
Qed.

(** Every step moves the time of the last authenticated traffic as [heard] says. *)
Lemma exec_heard (cfg : settings) (st st' : state) (e : event) (acts : list action) :
  exec cfg st e = Ok (st', acts) ->
  lastAuth st'.1 = match heard st.1 e with Some now => Some now | None => lastAuth st.1 end.
Proof.
  destruct st as [s fl]. cbn [fst].
  assert (Hret : forall (r : Session * list action) (t : option Z), lastAuth r.1 = t ->
    Ok (E := dc_error) ((r.1, spawned r.2 fl), r.2) = Ok (st', acts) -> lastAuth st'.1 = t)
    by (intros r t Hr [= <- <-]; done).
  assert (Hlease : forall s', s_lease s' = s_lease s -> lastAuth s' = lastAuth s)
    by (intros s' E; unfold lastAuth; by rewrite E).
  destruct e; cbn [exec heard].
  - destruct (ks_conn _); by apply Hret.
  - destruct (AssignedIP s) eqn:Ea; [by apply Hret|]. rewrite bool_decide_eq_true_2 by done.
    unfold publishLease. destruct (closing s) eqn:Ec; by apply Hret.
  - destruct (l_doneCh (s_life s)); apply Hret; [done|]. by apply Hlease, (outcome_close_lease cfg _ _ closeDone).
  - destruct (AssignedIP s), (l_doneCh (s_life s)); try by apply Hret. apply Hret, Hlease. unfold handshakeDone.
    destruct (closing _); [by apply (outcome_close_lease cfg _ _ id (closeDone s))|].
    unfold recordHandshakeOutcome. by destruct (l_outcome _).
  - destruct (_ && _); [|by apply Hret]. apply Hret, Hlease. unfold publishSession. by destruct (hasOnSession _).
  - apply Hret, Hlease. unfold enforceHandshakeWindow. destruct (_ && _); [done|].
    by apply (outcome_close_lease cfg _ _ id).
  - destruct (handleDataPacket cfg now pick s packet) as [[s1 a1]| |] eqn:E; outcome_simpl; [|done..].
    apply data_heard in E. apply (Hret (s1, a1)). by destruct (verdict s now packet).
  - apply (Hret (_, [])), Hlease. cbn [fst]. unfold Read. solve_lease.
  - assert (Hw : s_lease (Write pcOK s p).1.2 = s_lease s) by (unfold Write; solve_lease).
    destruct (Write pcOK s p) as [[r s1] a1]. destruct r; try done; by apply (Hret (s1, a1)), Hlease.
  - destruct (emitPing hasPC s) as [[s1 a1]| |] eqn:E; outcome_simpl; [|done..].
    apply (Hret (s1, a1)), Hlease. unfold emitPing in E. solve_lease.
  - apply Hret. unfold pump. destruct (closing s); [done|]. by destruct (routeControlPacket _ _).
  - apply Hret. unfold handleSoftReset. destruct (routeControlPacket _ _); [done|].
    apply Hlease. unfold beginRenegotiation, startRenegotiation. solve_lease.
  - apply Hret, Hlease, reneg_lease.
  - apply Hret. unfold runReap. destruct (_ <=? _); [|done]. pose proof (close_lease cfg CloseReasonIdleReap s) as Hc.
    destruct (teardown _ _ s). by apply Hlease.
  - destruct (fl !! conn); [|by apply Hret].
    destruct (finishRenegotiation _ _ _ _ _ _) as [[s1 a1]| |] eqn:E; outcome_simpl; [|done..]. intros [= <- <-].
    apply finish_lease in E. by apply Hlease.
  - apply Hret, Hlease. unfold enforceRenegotiationWindow, abandon, clearPending. solve_lease.
  - apply Hret, Hlease. unfold closeBegin. by destruct (l_stopping _).
  - destruct (closing s); [|by apply Hret]. apply Hret, Hlease. by destruct (closeEnd_life cfg s) as (_ & _ & _ & _ & _ & ? & _).
  - destruct (l_torn (s_life s)); [|by apply Hret]. apply Hret, Hlease. by destruct (closeNotify_life cfg s) as (_ & ? & _).
Qed.

Lemma run_heard (cfg : settings) (es : list event) (st st' : state) (acts : list action) :
  run cfg st es = Ok (st', acts) -> lastAuth st'.1 = last_heard cfg st es (lastAuth st.1).
Proof.
  revert st acts. induction es as [|e es IH]; intros st acts Hr.
  - cbn in Hr. by injection Hr as <- <-.
  - apply run_cons in Hr as (st1 & a1 & a2 & He & Hr & ->). cbn [last_heard]. rewrite He.
    apply exec_heard in He. rewrite <- He. by eapply IH.
Qed.

(** The idle reaper.  However a session got where it is, the time it measures
    idleness from is that of the last step that heard authenticated traffic: a data
    packet one of its keys passed, a control packet one of its slots took, or the
    bring-up; nothing else moves it.  A tick of the reaper tears the session down, and
    is its last, exactly when at least the reap window has passed since; it gives the
    idle reason unless the session was already stopping.  An earlier tick does nothing. *)
Theorem idle_reap (cfg : settings) (es : list event) (s : Session) (fl : gmap nat Z) (A : list action) (now : Z) :
  run cfg (newSession, ∅) es = Ok ((s, fl), A) ->
  let t := last_heard cfg (newSession, ∅) es None in
  lastAuth s = t /\
  if reapWindow cfg <=? elapsed now t
  then exists s' acts, runReap cfg now s = (s', acts, false) /\ closing s' = true /\ l_torn (s_life s') = true /\
         getCloseReason s' = (if closing s then getCloseReason s else CloseReasonIdleReap)
  else runReap cfg now s = (s, [], true).
Proof.
  intros Hr%run_heard. cbn [fst] in Hr. change (lastAuth newSession) with (@None Z) in Hr. cbv zeta. split; [done|].
  rewrite <- Hr. unfold runReap, lastAuth. destruct (_ <=? _); [|done].
  unfold teardown. destruct (closeEnd_life cfg (closeBegin CloseReasonIdleReap s)) as (L1 & L2 & L3 & _).
  destruct (closeEnd cfg _) as [s' acts]. cbn [fst] in *. eexists s', acts. rewrite L1, L2, L3.
  unfold closing, getCloseReason, closeBegin. by destruct (l_stopping (s_life s)) eqn:E.
Qed.

(** ** The rate of renegotiations *)

Definition stamp (s : Session) : option Z := k_lastRenegAccepted (s_keys s).

(** A step that starts no renegotiation, or one started at [now]. *)
Definition no_start (s s' : Session) (acts : list action) : Prop :=
  stamp s' = stamp s /\ List.filter starts acts = [].
Definition one_start (cfg : settings) (now : Z) (s s' : Session) (acts : list action) : Prop :=
  stamp s' = Some now /\ length (List.filter starts acts) = 1%nat /\
  (stamp s = None \/ renegMinInterval cfg <= elapsed now (stamp s)).

Lemma filter_starts_none (acts : list action) :
  Forall (fun a => starts a = false) acts -> List.filter starts acts = [].
Proof. induction 1 as [|a acts Ha _ IH]; [done|]. cbn. by rewrite Ha. Qed.

Lemma closeEnd_no_start (cfg : settings) (s : Session) : no_start s (closeEnd cfg s).1 (closeEnd cfg s).2.
Proof.
  unfold closeEnd. destruct (l_torn (s_life s)); [done|]. rewrite closeConns_eq. split; [done|].
  apply filter_starts_none.
  repeat first [apply Forall_app; split | apply Forall_cons; split; [reflexivity|] | apply Forall_nil; exact I
               | apply Forall_map, Forall_true; reflexivity | case_match].
Qed.

Lemma close_no_start (cfg : settings) (r : CloseReason) (s : Session) :
  no_start s (teardown cfg r s).1 (teardown cfg r s).2.
Proof.
  destruct (closeEnd_no_start cfg (closeBegin r s)) as [H1 H2]. split; [|done].
  unfold teardown, stamp in *. rewrite H1. unfold closeBegin. by destruct (l_stopping _).
Qed.

Lemma no_start_trans (s1 s2 s3 : Session) (a1 a2 : list action) :
  no_start s1 s2 a1 -> no_start s2 s3 a2 -> no_start s1 s3 (a1 ++ a2).
Proof. intros [E1 F1] [E2 F2]. split; [congruence|]. by rewrite List.filter_app, F1, F2. Qed.

Lemma outcome_close_no_start (cfg : settings) (o : hs_outcome) (r : CloseReason) (f : Session -> Session) (s : Session) :
  (forall s, stamp (f s) = stamp s) ->
  let res := (let '(s, a1) := recordHandshakeOutcome o s in
              let '(s, a2) := teardown cfg r (f s) in (s, a1 ++ a2)) in
  no_start s res.1 res.2.
Proof.
  intros Hf. assert (Ho : no_start s (recordHandshakeOutcome o s).1 (recordHandshakeOutcome o s).2)
    by (unfold recordHandshakeOutcome; by destruct (l_outcome _)).
  destruct (recordHandshakeOutcome o s) as [s1 a1]. pose proof (close_no_start cfg r (f s1)) as Hc.
  destruct (teardown cfg r (f s1)) as [s2 a2]. cbn [fst snd] in *.
  eapply no_start_trans; [exact Ho|]. destruct Hc as [H1 H2]. split; [by rewrite H1|done].
Qed.

Lemma accept_no_start (cfg : settings) (now : Z) (pick : bool) (p : bytes) (s : Session) :
  no_start s (acceptPlaintext cfg now pick p s).1 (acceptPlaintext cfg now pick p s).2.
Proof.
  unfold acceptPlaintext. destruct (isExitNotify p); [apply (close_no_start cfg _ (touchAuthTraffic now s))|].
  split; [|done]. unfold stamp. cbn [fst].
  by destruct (deliverIP_rest pick p (countPacket p (touchAuthTraffic now s))) as (_ & _ & ->).
Qed.

Lemma data_no_start (cfg : settings) (now : Z) (pick : bool) (s s' : Session) (packet : bytes) (acts : list action) :
  handleDataPacket cfg now pick s packet = Ok (s', acts) -> no_start s s' acts.
Proof.
  destruct (handleDataPacket_eq cfg now pick s packet) as (s1 & (_ & _ & _ & _ & _ & Hk) & ->).
  assert (Hs : stamp s1 = stamp s) by exact (f_equal k_lastRenegAccepted Hk).
  destruct (verdict s now packet) as [p|]; [|by intros [= <- <-]].
  destruct (IsPing p); [by intros [= <- <-]|]. intros E%(inj Ok).
  destruct (accept_no_start cfg now pick p s1) as [H1 H2]. rewrite E in *. split; [by rewrite <- Hs|done].
Qed.

(** The gate of [startRenegotiation]. *)
Lemma start_stamp (cfg : settings) (now : Z) (want : option Z) (s : Session) :
  match startRenegotiation cfg now want s with
  | (None, s') => stamp s' = stamp s
  | (Some _, s') => stamp s' = Some now /\ (stamp s = None \/ renegMinInterval cfg <= elapsed now (stamp s))
  end.
Proof.
  unfold startRenegotiation, stamp. destruct (closing s); [done|]. destruct (_ || _); [done|].
  destruct (bool_decide (is_Some (k_pendingReneg _))); [done|].
  destruct (bool_decide (is_Some (k_lastRenegAccepted _))) eqn:E; cbn [andb].
  - destruct (Z.ltb_spec (elapsed now (k_lastRenegAccepted (s_keys s))) (renegMinInterval cfg)); [done|].
    destruct (match want with Some _ => _ | None => false end); [done|]. auto.
  - apply bool_decide_eq_false, eq_None_not_Some in E. destruct (match want with Some _ => _ | None => false end); [done|]. auto.
Qed.

Lemma finish_no_start (cfg : settings) (now : Z) (s s' : Session) (c : nat) (id : Z) (res : reneg_result)
    (acts : list action) :
  finishRenegotiation cfg now s c id res = Ok (s', acts) -> no_start s s' acts.
Proof.
  unfold finishRenegotiation.
  assert (Ha : no_start s (abandon c s).1 (abandon c s).2) by (unfold abandon, clearPending; by case_match).
  destruct res as [| |dk].
  - intros E%(inj Ok). by rewrite E in Ha.
  - destruct (abandon c s) as [s1 a1]. pose proof (close_no_start cfg CloseReasonAuthFailed s1) as Hc.
    destruct (teardown _ _ s1) as [s2 a2]. intros [= <- <-]. by eapply no_start_trans.
  - unfold swapKeys. destruct (_ || _); [by intros [= <- <-]|].
    destruct (ServerSlots _ _); [|done..]. destruct (NewWrapper _ _ _); [| |done].
    + intros E. repeat case_match; by simplify_eq/=.
    + intros E%(inj Ok). by rewrite E in Ha.
Qed.

Lemma reneg_start (cfg : settings) (hasPC : bool) (now : Z) (s : Session) :
  let r := runReneg cfg hasPC now s in no_start s r.1 r.2 \/ one_start cfg now s r.1 r.2.
Proof.
  unfold runReneg. assert (Hs : no_start s (sweepLameDuck now s).1 (sweepLameDuck now s).2)
    by (unfold sweepLameDuck; repeat case_match; by simplify_eq/=).
  destruct (sweepLameDuck now s) as [s1 a1]. unfold checkReneg. pose proof (start_stamp cfg now None s1) as Hst.
  destruct (ks_established _); [|by left; apply (no_start_trans s s1 s1)].
  destruct (_ <? _); [by left; apply (no_start_trans s s1 s1)|].
  destruct hasPC; [|by left; apply (no_start_trans s s1 s1)]. cbn [negb].
  destruct (startRenegotiation _ _ _ s1) as [[[c id]|] s2]; [right|by left; apply (no_start_trans s s1 s2)].
  destruct Hs as [E F], Hst as [E1 E2]. cbn [fst snd] in *. split_and!; [done| |by rewrite <- E].
  by rewrite List.filter_app, F.
Qed.

Lemma soft_start (cfg : settings) (now : Z) (s : Session) (cp : ControlPacket) :
  let r := handleSoftReset cfg now s cp in no_start s r.1 r.2 \/ one_start cfg now s r.1 r.2.
Proof.
  unfold handleSoftReset. destruct (routeControlPacket _ _); [by left|]. unfold beginRenegotiation.
  pose proof (start_stamp cfg now (Some (cp_KeyID cp)) s) as Hst.
  destruct (startRenegotiation _ _ _ s) as [[[c id]|] s2]; [right|by left].
  destruct Hst as [E1 E2]. by split_and!.
Qed.

(** The clock of the steps that can start a renegotiation. *)
Definition reneg_time (e : event (W := W)) : option Z :=
  match e with ESoftReset now _ | ETickReneg _ now => Some now | _ => None end.

Lemma exec_start (cfg : settings) (st st' : state) (e : event) (acts : list action) :
  exec cfg st e = Ok (st', acts) ->
  no_start st.1 st'.1 acts \/ exists now, reneg_time e = Some now /\ one_start cfg now st.1 st'.1 acts.
Proof.
  destruct st as [s fl]. cbn [fst].
  assert (Hret : forall r : Session * list action, no_start s r.1 r.2 ->
    Ok (E := dc_error) ((r.1, spawned r.2 fl), r.2) = Ok (st', acts) ->
    no_start s st'.1 acts \/ exists now, reneg_time e = Some now /\ one_start cfg now s st'.1 acts)
    by (intros r Hr [= <- <-]; by left).
  destruct e; cbn [exec].
  - destruct (ks_conn _); by apply Hret.
  - destruct (AssignedIP s); [by apply Hret|]. unfold publishLease. destruct (closing s); by apply Hret.
  - destruct (l_doneCh (s_life s)); apply Hret; [done|]. by apply (outcome_close_no_start cfg _ _ closeDone).
  - destruct (AssignedIP s), (l_doneCh (s_life s)); try by apply Hret. apply Hret. unfold handshakeDone.
    destruct (closing _); [by apply (outcome_close_no_start cfg _ _ id (closeDone s))|].
    unfold recordHandshakeOutcome. by destruct (l_outcome _).
  - destruct (_ && _); [|by apply Hret]. apply Hret. unfold publishSession. by destruct (hasOnSession _).
  - apply Hret. unfold enforceHandshakeWindow. destruct (_ && _); [done|].
    by apply (outcome_close_no_start cfg _ _ id).
  - destruct (handleDataPacket cfg now pick s packet) as [[s1 a1]| |] eqn:E; outcome_simpl; [|done..].
    apply (Hret (s1, a1)). by eapply data_no_start.
  - apply (Hret (_, [])). unfold Read. repeat case_match; by simplify_eq/=.
  - assert (Hw : no_start s (Write pcOK s p).1.2 (Write pcOK s p).2) by (unfold Write; repeat case_match; by simplify_eq/=).
    destruct (Write pcOK s p) as [[r s1] a1]. destruct r; try done; by apply (Hret (s1, a1)).
  - destruct (emitPing hasPC s) as [[s1 a1]| |] eqn:E; outcome_simpl; [|done..].
    apply (Hret (s1, a1)). unfold emitPing in E. repeat case_match; by simplify_eq/=.
  - apply Hret. unfold pump. destruct (closing s); [done|]. by destruct (routeControlPacket _ _).
  - intros [= <- <-]. destruct (soft_start cfg now s cp) as [H1|H1]; [by left|right]. by exists now.
  - intros [= <- <-]. destruct (reneg_start cfg hasPC now s) as [H1|H1]; [by left|right]. by exists now.
  - apply Hret. unfold runReap. destruct (_ <=? _); [|done]. pose proof (close_no_start cfg CloseReasonIdleReap s) as Hc.
    by destruct (teardown _ _ s).
  - destruct (fl !! conn); [|by apply Hret].
    destruct (finishRenegotiation _ _ _ _ _ _) as [[s1 a1]| |] eqn:E; outcome_simpl; [|done..]. intros [= <- <-].
    left. by eapply finish_no_start.
  - apply Hret. unfold enforceRenegotiationWindow, abandon, clearPending. by repeat case_match.
  - apply Hret. split; [|done]. unfold closeBegin. by destruct (l_stopping _).
  - destruct (closing s); [|by apply Hret]. apply Hret, closeEnd_no_start.
  - destruct (l_torn (s_life s)); [|by apply Hret]. apply Hret. destruct (closeNotify_life cfg s) as (N1 & _). split.
    + unfold stamp. by rewrite N1.
    + by apply closeNotify_filter.
Qed.

(** Renegotiations are rationed, whoever asks for them.  Over any run of a
    session whose soft resets and renegotiation ticks read clocks between [t0] and
    [t1], in whatever order, all renegotiations started but one account for a full
    minimum interval each: there are at most [(t1 - t0) / renegMinInterval + 1]. *)
Theorem renegotiation_rate (cfg : settings) (es : list event) (st : state) (A : list action) (t0 t1 : Z) :
  0 <= renegMinInterval cfg <= maxDuration -> t0 <= t1 ->
  Forall (fun e => match reneg_time e with Some now => t0 <= now <= t1 | None => True end) es ->
  run cfg (newSession, ∅) es = Ok (st, A) ->
  (zlen (List.filter starts A) - 1) * renegMinInterval cfg <= t1 - t0.
Proof.
  intros Hi Ht.
  set (P := fun (s : Session) (A : list action) => let n := zlen (List.filter starts A) in
    match stamp s with None => n = 0 | Some l => t0 <= l <= t1 /\ 1 <= n /\ (n - 1) * renegMinInterval cfg <= l - t0 end).
  assert (Hrun : forall es st B st' acts, P st.1 B ->
    Forall (fun e => match reneg_time e with Some now => t0 <= now <= t1 | None => True end) es ->
    run cfg st es = Ok (st', acts) -> P st'.1 (B ++ acts)).
  { clear es st A. induction es as [|e es IH]; intros st B st' acts HP Hes Hr.
    { cbn in Hr. injection Hr as <- <-. by rewrite app_nil_r. }
    apply run_cons in Hr as (s1 & a1 & a2 & He & Hr & ->). apply Forall_cons in Hes as [Hb Hes].
    rewrite (assoc_L (++)). apply (IH s1); [|done|done]. unfold P in *. rewrite List.filter_app, zlen_app.
    apply exec_start in He as [[-> ->]|(now & En & -> & Hn & Hg)].
    - change (zlen (@nil action)) with 0. by rewrite Z.add_0_r.
    - rewrite En in Hb. replace (zlen (List.filter starts a1)) with 1 by (unfold zlen; lia).
      pose proof (zlen_nonneg (List.filter starts B)).
      destruct (stamp st.1) as [l|].
      + destruct Hg as [?|Hg]; [done|]. unfold elapsed, maxDuration in *. split_and!; nia.
      + rewrite HP. split_and!; lia. }
  intros Hes Hr. specialize (Hrun es (newSession, ∅) [] st A eq_refl Hes Hr). unfold P in Hrun. cbn [app] in Hrun.
  destruct (stamp st.1) as [l|]; [destruct Hrun as (? & ? & ?); lia|rewrite Hrun; lia].
Qed.

(** A run whose callers keep their word reaches a reachable state. *)
Fixpoint events_ok (cfg : settings) (st : state (W := W)) (es : list event) : Prop :=
  match es with
  | [] => True
  | e :: es => event_ok st.1 e /\ match exec cfg st e with Ok (st', _) => events_ok cfg st' es | _ => True end
  end.

Lemma run_reachable (cfg : settings) (es : list event) (st st' : state) (A : list action) :
  reachable cfg st -> events_ok cfg st es -> run cfg st es = Ok (st', A) -> reachable cfg st'.
Proof.
  revert st A. induction es as [|e es IH]; intros st A Hr Ho E.
  - cbn in E. by injection E as <- <-.
  - apply run_cons in E as (st1 & a1 & a2 & He & E & ->). destruct Ho as [Ho Hs]. rewrite He in Hs.
    eapply IH; [|done..]. by eapply reach_step.
Qed.

End props.

(** ** Examples and witnesses *)

Module Toy.
Import DataChan.Toy.

Definition cfg : settings := mkSettings (3600 * second) second (120 * second) true true.
Definition oldKey : Key2 := mkKey2 (replicate 256 7).
Definition newKey : Key2 := mkKey2 (replicate 256 9).
Definition toyWrapper (k : Z) (id : Z) : Wrapper replayWindow :=
  mkWrapper 5 id (replicate 32 k) (replicate 8 k) (replicate 32 k) (replicate 8 k) 0 zeroReplayWindow.
Definition packet (k seq : Z) (p : bytes) : bytes :=
  match sealWithSeq (toyWrapper k 0) [] seq p with Ok x => x | _ => [] end.
Definition hello : bytes := [69; 1; 2; 3].

Definition up : list (event (W := replayWindow)) :=
  [EPublishKeys oldKey Cipher.AES256 true; EPublishLease 0 [10; 8; 0; 2] 5 2 (toyWrapper 7 0);
   EHandshakeDone; EPublish].
Definition renewed : list (event (W := replayWindow)) :=
  up ++ [ETickReneg true (3600 * second); EFinish (3601 * second) 1 (RenegKeys newKey)].

Definition final (es : list (event (W := replayWindow))) : state (W := replayWindow) :=
  match run cfg (newSession, ∅) es with Ok (st, _) => st | _ => (newSession, ∅) end.
Definition trace (es : list (event (W := replayWindow))) : list action :=
  match run cfg (newSession, ∅) es with Ok (_, A) => A | _ => [] end.

(** The old key and the new one, each with its packet, after the rollover. *)
Example both_keys_deliver :
  unread (final (renewed ++ [EData (3602 * second) false (packet 7 1 hello);
                             EData (3603 * second) false (packet 9 1 hello);
                             EData (3604 * second) false (packet 8 1 hello)])).1 = [hello; hello].
Proof. vm_compute. reflexivity. Qed.

(** A close whose last load runs between the last check of the handshake and the publication:
    the session is handed to [OnSession] after its teardown, and [OnSessionClosed] is
    never called for it, whatever happens later. *)
Definition late : list (event (W := replayWindow)) :=
  [EPublishKeys oldKey Cipher.AES256 true; EPublishLease 0 [10; 8; 0; 2] 5 2 (toyWrapper 7 0);
   EHandshakeDone; ECloseBegin CloseReasonServerClose; ECloseEnd; ECloseNotify; EPublish].
Example handed_over_dead :
  trace late = [CountOutcome HandshakesCompleted; DropRoute 5; ReleaseLease [10; 8; 0; 2] 5; RemoveSession;
                CloseConn 0; CloseConn 0; CallOnSession] /\
  existsb is_closed (trace (late ++ [ECloseBegin CloseReasonEmbedder; ECloseEnd; ECloseNotify])) = false.
Proof. split; vm_compute; reflexivity. Qed.

(** A hand-over between the session's removal and that load: the embedder is handed a
    session that is gone, and is then told that it closed. *)
Example handed_over_removed :
  trace [EPublishKeys oldKey Cipher.AES256 true; EPublishLease 0 [10; 8; 0; 2] 5 2 (toyWrapper 7 0);
         EHandshakeDone; ECloseBegin CloseReasonServerClose; ECloseEnd; EPublish; ECloseNotify] =
  [CountOutcome HandshakesCompleted; DropRoute 5; ReleaseLease [10; 8; 0; 2] 5; RemoveSession;
   CloseConn 0; CloseConn 0; CallOnSession; CallOnSessionClosed CloseReasonServerClose].
Proof. vm_compute. reflexivity. Qed.
End Toy.

Import DataChan.Toy Toy.

Lemma session_slots_witness :
  reachable cfg (final renewed) /\
  slots (s_keys (final renewed).1) = [(1, 1%nat); (0, 0%nat)] /\
  k_open (s_keys (final renewed).1) = {[0%nat; 1%nat]} /\
  routeControlPacket (final renewed).1 1 = Some 1%nat.
Proof.
  assert (Hr : reachable cfg (final renewed)).
  { apply (run_reachable cfg renewed (newSession, ∅) _ (trace renewed)); [apply reach_new| |by vm_compute].
    vm_compute. repeat split; done. }
  destruct (session_slots cfg (final renewed) Hr) as (_ & _ & _ & Hroute & Hopen & _).
  assert (Hs : slots (s_keys (final renewed).1) = [(1, 1%nat); (0, 0%nat)]) by by vm_compute.
  split; [exact Hr|]. split; [exact Hs|]. split.
  - rewrite (Hopen eq_refl), Hs. by vm_compute.
  - apply Hroute. rewrite Hs. apply list_elem_of_here.
Defined.

Lemma teardown_once_witness :
  let es := up ++ [ETickReap (120 * second); ECloseBegin CloseReasonEmbedder; ECloseEnd; ECloseNotify] in
  List.filter is_release (trace es) = [ReleaseLease [10; 8; 0; 2] 5] /\
  List.filter is_closed (trace es) = [CallOnSessionClosed CloseReasonIdleReap].
Proof.
  intros es. assert (E : run cfg (newSession, ∅) es = Ok (final es, trace es)) by by vm_compute.
  destruct (final es) as [s fl] eqn:Ef.
  destruct (teardown_once cfg es s fl (trace es) E) as (_ & H2 & _ & _ & _ & H6).
  replace s with (final es).1 in * by by rewrite Ef. split; [exact H2|].
  destruct (H6 eq_refl) as (_ & es1 & es2 & st1 & A1 & A2 & _ & _ & EA & _). clear -EA. by vm_compute.
Defined.

Lemma first_close_wins_witness :
  let es := up ++ [ECloseBegin CloseReasonIdleReap] in
  let later := [ECloseBegin CloseReasonEmbedder; ECloseEnd] in
  closing (final es).1 = true /\ getCloseReason (final (es ++ later)).1 = CloseReasonIdleReap.
Proof.
  intros es later. split; [by vm_compute|].
  destruct (final es) as [s fl] eqn:Ef. destruct (final (es ++ later)) as [s' fl'] eqn:Ef'.
  destruct (first_close_wins cfg later s s' fl fl' (drop (length (trace es)) (trace (es ++ later)))) as (_ & H2 & _).
  - change s with (s, fl).1. rewrite <- Ef. by vm_compute.
  - rewrite <- Ef, <- Ef'. by vm_compute.
  - cbn [fst]. rewrite H2. change s with (s, fl).1. rewrite <- Ef. by vm_compute.
Defined.

Lemma inbound_fifo_witness :
  let s := (final up).1 in
  let ops := [Arrive 1 hello; Arrive 2 [1]; Arrive 3 [2]; Recv 2; Recv 9; Arrive 4 [3]; Recv 9] in
  exists s' taken got, transfer cfg s ops = (s', taken, got) /\
    got = [hello; [1]] /\ taken = [hello; [1]; [3]] /\ unread s' = [[3]] /\
    d_inboundQueueDropped (s_data s') = 1.
Proof.
  intros s ops. destruct (transfer cfg s ops) as [[s' taken] got] eqn:E.
  destruct (inbound_fifo cfg ops s s' taken got) as (H1 & _ & _ & H4 & _);
    [by vm_compute|by repeat constructor|by vm_compute|by vm_compute|done|].
  assert (Eg : got = [hello; [1]] /\ taken = [hello; [1]; [3]]).
  { change got with (s', taken, got).2. change taken with (s', taken, got).1.2 at 2. rewrite <- E. by vm_compute. }
  destruct Eg as [-> ->]. exists s', [hello; [1]; [3]], [hello; [1]]. split; [done|]. split; [done|]. split; [done|].
  split; [|rewrite H4; by vm_compute].
  apply (app_inv_head [hello; [1]]). rewrite <- H1. by vm_compute.
Defined.

Lemma rollover_witness :
  let s := (final [EPublishKeys oldKey Cipher.AES256 true; EPublishLease 0 [10; 8; 0; 2] 5 8 (toyWrapper 7 0);
                   EHandshakeDone; EPublish; ETickReneg true (3600 * second)]).1 in
  let old now seq := mkFlight true now false seq [69; seq] (packet 7 seq [69; seq]) in
  let new now seq := mkFlight false now false seq [70; seq] (packet 9 seq [70; seq]) in
  let fs := [new (3602 * second) 1; old (3603 * second) 3; old (7200 * second) 2; old (7200 * second) 3;
             old (7201 * second) 4; new (7202 * second) 2; new (7203 * second) 1] in
  exists s1 acts s2, swapKeys (3601 * second) s 1 1 newKey = Ok (s1, acts) /\
    run cfg (s1, ∅) (map arrival fs) = Ok ((s2, ∅), []) /\ unread s2 = [[70; 1]; [69; 3]; [69; 2]; [70; 2]].
Proof.
  intros s old new fs.
  destruct (rollover cfg (3601 * second) s 1 1 newKey (toyWrapper 7 0) [] 8 []) as (s1 & acts & keys & nw & E & _ & _ & Hw & _ & _ & _ & Hrun & _);
    [by vm_compute|by vm_compute|by vm_compute|by vm_compute|by vm_compute|exact (ar_init_models (W := replayWindow))|by vm_compute|].
  assert (Hn : w_decryptAEAD nw = replicate 32 9 /\ w_decryptIV nw = replicate 8 9).
  { assert (Er : (match swapKeys (3601 * second) s 1 1 newKey with Ok (s1, _) => ks_wrapper (k_primary (s_keys s1)) | _ => None end)
      = Some nw) by (rewrite E; exact Hw). clear -Er. vm_compute in Er. injection Er as <-. split; reflexivity. }
  assert (Hold : forall now seq, 2 <= seq <= 4 -> sealed_for (toyWrapper 7 0) nw (old now seq)).
  { intros now seq Hs. assert (Hc : seq = 2 \/ seq = 3 \/ seq = 4) by lia.
    constructor; [unfold is_u32; cbn; lia|by destruct Hc as [->|[->| ->]]|exists (toyWrapper 7 0)|].
    - split; [done|]. by destruct Hc as [->|[->| ->]]; vm_compute.
    - unfold opened. cbn [fl_old old]. destruct Hn as [-> ->]. by destruct Hc as [->|[->| ->]]; vm_compute. }
  assert (Hnew : forall now seq, 1 <= seq <= 2 -> sealed_for (toyWrapper 7 0) nw (new now seq)).
  { intros now seq Hs. assert (Hc : seq = 1 \/ seq = 2) by lia.
    constructor; [unfold is_u32; cbn; lia|by destruct Hc as [->| ->]|exists (toyWrapper 9 0)|].
    - split; [unfold seals_for; cbn [fl_old new]; by destruct Hn as [-> ->]|]. by destruct Hc as [->| ->]; vm_compute.
    - by destruct Hc as [->| ->]; vm_compute. }
  destruct (Hrun fs ∅) as (s2 & Hr & Hu).
  - repeat (constructor; [first [apply Hnew; lia|apply Hold; lia]|]). constructor.
  - vm_compute. discriminate.
  - exists s1, acts, s2. split; [exact E|]. split; [exact Hr|]. rewrite Hu. vm_compute. reflexivity.
Defined.

Lemma idle_reap_witness :
  let es := up ++ [EData (50 * second) false (packet 7 1 hello); EData (100 * second) false (packet 8 2 hello)] in
  lastAuth (final es).1 = Some (50 * second) /\
  runReap cfg (169 * second) (final es).1 = ((final es).1, [], true) /\
  (runReap cfg (170 * second) (final es).1).2 = false.
Proof.
  intros es. assert (E : run cfg (newSession, ∅) es = Ok (((final es).1, (final es).2), trace es)) by by vm_compute.
  assert (Et : last_heard cfg (newSession, ∅) es None = Some (50 * second)) by by vm_compute.
  destruct (idle_reap cfg es _ _ _ (169 * second) E) as [H1 H2].
  destruct (idle_reap cfg es _ _ _ (170 * second) E) as [_ H3]. rewrite Et in *.
  split; [exact H1|]. split; [exact H2|]. by destruct H3 as (s' & acts & -> & _).
Defined.

Lemma renegotiation_rate_witness :
  let es := up ++ [ETickReneg true (3600 * second); EWindow 1; ETickReneg true (3600 * second);
                   ETickReneg true (3601 * second)] in
  exists st, run cfg (newSession, ∅) es = Ok (st, trace es) /\ length (List.filter starts (trace es)) = 2%nat /\
    (zlen (List.filter starts (trace es)) - 1) * renegMinInterval cfg <= 3601 * second - 3600 * second.
Proof.
  intros es. assert (E : run cfg (newSession, ∅) es = Ok (final es, trace es)) by by vm_compute.
  exists (final es). split; [exact E|]. split; [by vm_compute|].
  apply (renegotiation_rate cfg es (final es) (trace es) (3600 * second) (3601 * second));
    [split; vm_compute; discriminate|vm_compute; discriminate| |exact E].
  unfold es, up. cbn [app]. repeat (apply Forall_cons; split; [cbn [reneg_time]; exact I || (unfold second; lia)|]).
  by apply Forall_nil.
Defined.

End SessionProps.
