(* ===== verification/Auth.v ===== *)
(** * Auth: credentials, the key exchange over TLS, and its rejections

    Model of the part of [ovpn.go] that runs over an established TLS connection
    before the configuration is pushed: extraction and checking of the client's
    credentials, the Key Method 2 exchange with cipher selection between its read
    and its write, the same exchange in a renegotiation, and the AUTH_FAILED
    control string.

    The TLS stream is the bytes it will still yield; what [rand.Read] returns and
    whether the write succeeds are arguments.  [Config.AuthUserPass] is a
    parameter: it accepts, panics, or returns an error, which may offer a reason
    for the client through a method that can panic itself. *)

From stdpp Require Import gmap.
From S2P Require Import Prelude GoText Replay KeyDeriv Cipher Push Session.
Import Cipher.

Module Auth.

Definition userPassLen : Z := 128.
Definition maxAuthClientReasonLen : nat := 128.
Definition authFailedLiteral : bytes := of_string "AUTH_FAILED".
Definition tooLongReason : bytes :=
  of_string "Username or password is too long. Maximum length is 128 bytes".

(** ** Credentials *)

Fixpoint IndexByte (s : bytes) (c : Z) : option nat :=
  match s with
  | [] => None
  | b :: s => if b =? c then Some 0%nat else S <$> IndexByte s c
  end.

(** [None]: the field is too long. *)
Definition km2Credential (field : bytes) : option bytes :=
  if userPassLen <? zlen field then None else
  Some (match IndexByte field 0 with Some cut => take cut field | None => field end).

Inductive authFailureKind := authFailureCredential | authFailureCipherNegotiation.

(** The client's reason and the kind; the error kept for the server's log is not. *)
Record authFailure := mkAuthFailure { af_clientReason : bytes; af_kind : authFailureKind }.

#[export] Instance authFailureKind_eq_dec : EqDecision authFailureKind.
Proof. solve_decision. Defined.
#[export] Instance authFailure_eq_dec : EqDecision authFailure.
Proof. solve_decision. Defined.

(** What a call of [Config.AuthUserPass] does; an error without a [ClientReason]
    method is [HookReject None], one whose method panics [HookReject (Some None)]. *)
Inductive hook_result := HookAccept | HookReject (reason : option (option bytes)) | HookPanic.

(** The error of the call, if any. *)
Definition callAuthUserPass (f : bytes -> bytes -> hook_result) (username password : bytes)
    : option (option (option bytes)) :=
  match f username password with
  | HookAccept => None
  | HookReject reason => Some reason
  | HookPanic => Some None
  end.

Definition verifyUserPass (hook : option (bytes -> bytes -> hook_result)) (opts : option ClientOptions)
    : outcome authFailure unit :=
  match hook with
  | None => Ok tt
  | Some f =>
      match opts with
      | None => Err (mkAuthFailure [] authFailureCredential)
      | Some opts =>
          match km2Credential (Username opts), km2Credential (Password opts) with
          | Some username, Some password =>
              if bool_decide (username = []) || bool_decide (password = [])
              then Err (mkAuthFailure [] authFailureCredential) else
              match callAuthUserPass f username password with
              | None => Ok tt
              | Some None => Err (mkAuthFailure [] authFailureCredential)
              | Some (Some None) => Panic
              | Some (Some (Some reason)) => Err (mkAuthFailure reason authFailureCredential)
              end
          | _, _ => Err (mkAuthFailure tooLongReason authFailureCredential)
          end
      end
  end.

(** ** The rejection *)

Definition sanitizeAuthClientReason (reason : bytes) : bytes :=
  take maxAuthClientReasonLen (List.filter (fun c => negb ((c <? 32) || (c =? 127))) reason).

Definition buildAuthFailed (clientReason : bytes) : bytes :=
  let reason := sanitizeAuthClientReason clientReason in
  if bool_decide (reason = []) then authFailedLiteral else authFailedLiteral ++ [comma] ++ reason.

(** What is written; delivery is then waited for. *)
Definition sendAuthFailed (clientReason : bytes) : bytes :=
  Push.writeControlString (buildAuthFailed clientReason).

(** The PUSH_REQUEST is read off the TLS stream, whatever it turns out to be, and
    the rejection written. *)
Definition rejectAuthAfterPushRequest (r : bytes) (clientReason : bytes) : bytes * bytes :=
  (match Push.readControlString r (Z.to_nat Push.maxControlStringLen) with Ok (_, r) => r | _ => [] end,
   sendAuthFailed clientReason).

(** ** The key exchange *)

Inductive km2_error :=
  | KM2Read (e : kd_error) | KM2Write (e : option kd_error) | KM2Derive (e : kd_error) | KM2Auth (af : authFailure).

Section exchange.
Context `{!PRFHashes}.

(** What is written, and the keys with the server's key source; [None] when the loops
    of the PRF run out of fuel.  [rand1], [rand2]: what [rand.Read] returns. *)
Definition writeServerKeyMethod2AndDeriveKeys (rand1 rand2 : option bytes) (writeOK : bool) (clientKM : KeySource)
    (opts clientSID serverSID : bytes) : bytes * option (outcome km2_error (Key2 * KeySource)) :=
  match WriteServerKeyMethod2 rand1 rand2 opts with
  | Panic => ([], Some Panic)
  | Err e => ([], Some (Err (KM2Write (Some e))))
  | Ok (serverKM, buf) =>
      if negb writeOK then ([], Some (Err (KM2Write None))) else
      (buf, match DeriveKeys (mkKeySource2 clientKM serverKM) clientSID serverSID with
            | None => None
            | Some Panic => Some Panic
            | Some (Err e) => Some (Err (KM2Derive e))
            | Some (Ok dataKeys) => Some (Ok (dataKeys, serverKM))
            end)
  end.

(** The effects of an exchange: the reader it leaves in the session, the bytes it
    writes, the keys, cipher and NCP flag it publishes, and its result. *)
Record exchange := mkExchange {
  x_tlsReader : option bytes;
  x_written : bytes;
  x_published : option (Key2 * bytes * bool);
  x_result : option (outcome km2_error unit);
}.

(** The client's fallback cipher, void when it sent a cipher list. *)
Definition occCipherOf (o : ClientOptions) : bytes :=
  match peerInfoValue (PeerInfo o) IV_CIPHERS with Some _ => [] | None => parseOCCCipher (Options o) end.

Definition lift_auth (v : outcome authFailure unit) : outcome km2_error unit :=
  match v with Ok u => Ok u | Err af => Err (KM2Auth af) | Panic => Panic end.

Definition performKeyMethod2Exchange (dataCiphers : list bytes) (hook : option (bytes -> bytes -> hook_result))
    (rand1 rand2 : option bytes) (writeOK : bool) (clientSID serverSID r : bytes) : exchange :=
  match ReadClientKeyMethod2 r with
  | Panic => mkExchange None [] None (Some Panic)
  | Err e => mkExchange None [] None (Some (Err (KM2Read e)))
  | Ok (clientKM, clientOpts, r) =>
      match selectCipher dataCiphers (peerCipherList (PeerInfo clientOpts)) (occCipherOf clientOpts) with
      | Panic => mkExchange (Some r) [] None (Some Panic)
      | Err _ => mkExchange (Some r) [] None
          (Some (Err (KM2Auth (mkAuthFailure cipherNegotiationFailedReason authFailureCipherNegotiation))))
      | Ok selected =>
          let '(buf, res) := writeServerKeyMethod2AndDeriveKeys rand1 rand2 writeOK clientKM
                               (serverKM2Options selected) clientSID serverSID in
          match res with
          | None => mkExchange (Some r) buf None None
          | Some Panic => mkExchange (Some r) buf None (Some Panic)
          | Some (Err e) => mkExchange (Some r) buf None (Some (Err e))
          | Some (Ok (dataKeys, _)) =>
              mkExchange (Some r) buf (Some (dataKeys, selected, peerSupportsNCP (PeerInfo clientOpts)))
                (Some (lift_auth (verifyUserPass hook (Some clientOpts))))
          end
      end
  end.

(** How [runHandshake] treats a failed exchange. *)
Definition exchange_failure (e : km2_error) : Session.hs_failure * option bytes :=
  match e with
  | KM2Auth af =>
      (match af_kind af with authFailureCredential => Session.FailAuth | authFailureCipherNegotiation => Session.FailCipher end,
       Some (af_clientReason af))
  | _ => (Session.FailKeyMethod2, None)
  end.

(** The exchange of [runRenegotiation], with the session's cipher: the bytes written
    and what it came to. *)
Definition renegotiationExchange (cipher : bytes) (hook : option (bytes -> bytes -> hook_result))
    (rand1 rand2 : option bytes) (writeOK : bool) (clientSID serverSID r : bytes)
    : bytes * option (outcome km2_error Session.reneg_result) :=
  match ReadClientKeyMethod2 r with
  | Panic => ([], Some Panic)
  | Err _ => ([], Some (Ok Session.RenegFailed))
  | Ok (clientKM, clientOpts, _) =>
      let '(buf, res) := writeServerKeyMethod2AndDeriveKeys rand1 rand2 writeOK clientKM
                           (serverKM2Options cipher) clientSID serverSID in
      match res with
      | None => (buf, None)
      | Some Panic => (buf, Some Panic)
      | Some (Err _) => (buf, Some (Ok Session.RenegFailed))
      | Some (Ok (dataKeys, _)) =>
          match verifyUserPass hook (Some clientOpts) with
          | Panic => (buf, Some Panic)
          | Err af => (buf ++ sendAuthFailed (af_clientReason af), Some (Ok Session.RenegAuthRejected))
          | Ok _ => (buf, Some (Ok (Session.RenegKeys dataKeys)))
          end
      end
  end.
End exchange.

(** ** Facts *)

Lemma IndexByte_spec (s : bytes) (c : Z) :
  match IndexByte s c with
  | Some n => exists a b, s = a ++ c :: b /\ length a = n /\ c ∉ a
  | None => c ∉ s
  end.
Proof.
  induction s as [|x s IH]; [apply not_elem_of_nil|]. cbn. destruct (Z.eqb_spec x c) as [->|Hne].
  { exists [], s. split_and!; [done|done|apply not_elem_of_nil]. }
  destruct (IndexByte s c) as [n|]; cbn.
  - destruct IH as (a & b & -> & <- & Ha). exists (x :: a), b. split_and!; [done|done|].
    apply not_elem_of_cons. split; congruence.
  - apply not_elem_of_cons. split; congruence.
Qed.

(** A credential is the field up to its first NUL. *)
Lemma km2Credential_spec (field s : bytes) :
  km2Credential field = Some s <->
  zlen field <= 128 /\ 0 ∉ s /\ (field = s \/ exists rest, field = s ++ 0 :: rest).
Proof.
  unfold km2Credential, userPassLen. pose proof (IndexByte_spec field 0) as Hi.
  destruct (Z.ltb_spec 128 (zlen field)); [split; [done|intros [? _]; lia]|].
  destruct (IndexByte field 0) as [n|].
  - destruct Hi as (a & b & -> & <- & Ha). rewrite take_app_length. split.
    + intros [= <-]. split_and!; [done|done|right; by exists b].
    + intros (_ & Hs & [<-|[rest E]]).
      * exfalso. apply Hs, elem_of_app. right. apply list_elem_of_here.
      * f_equal. revert s Hs E. induction a as [|x a IH]; intros [|y s] Hs E; cbn in E; try done.
        -- injection E as <- _. exfalso. apply Hs, list_elem_of_here.
        -- injection E as -> _. exfalso. apply Ha, list_elem_of_here.
        -- injection E as <- E. apply not_elem_of_cons in Hs as [_ Hs], Ha as [_ Ha]. f_equal. apply IH; try done.
           unfold zlen in *. cbn in H. lia.
  - split; [intros [= <-]; split_and!; [done|done|by left]|]. intros (_ & Hs & [->|[rest ->]]); [done|].
    exfalso. apply Hi, elem_of_app. right. apply list_elem_of_here.
Qed.

(** ** The decision *)

(** What the wire field [field] says: the text before its first NUL. *)
Definition credential (field s : bytes) : Prop :=
  zlen field <= 128 /\ 0 ∉ s /\ (field = s \/ exists rest, field = s ++ 0 :: rest).

(** C37. Authentication fails closed.  With a hook configured a client is accepted
    exactly when both its fields are at most 128 bytes on the wire, the text before
    the first NUL of neither is empty, and the hook accepts these two texts; a hook
    that panics rejects.  A rejection carries the hook's reason, or the fixed text
    for a field that is too long, and never the cipher kind.  The only panic left is
    that of the hook's own error while it is asked for its reason. *)
Theorem verifyUserPass_fail_closed (f : bytes -> bytes -> hook_result) (o : ClientOptions) :
  let asked r := exists u p, credential (Username o) u /\ credential (Password o) p /\ u <> [] /\ p <> [] /\ f u p = r in
  (verifyUserPass (Some f) (Some o) = Ok tt <-> asked HookAccept) /\
  (verifyUserPass (Some f) (Some o) = Panic <-> asked (HookReject (Some None))) /\
  (forall af, verifyUserPass (Some f) (Some o) = Err af ->
     af_kind af = authFailureCredential /\
     (af_clientReason af = [] \/ asked (HookReject (Some (Some (af_clientReason af)))) \/
      (af_clientReason af = tooLongReason /\ (128 < zlen (Username o) \/ 128 < zlen (Password o))))) /\
  (asked HookPanic -> verifyUserPass (Some f) (Some o) = Err (mkAuthFailure [] authFailureCredential)).
Proof.
  intros asked. assert (Hu := km2Credential_spec (Username o)). assert (Hp := km2Credential_spec (Password o)).
  unfold verifyUserPass, callAuthUserPass.
  destruct (km2Credential (Username o)) as [u|] eqn:Eu; [destruct (km2Credential (Password o)) as [p|] eqn:Ep|].
  - assert (Hask : forall r, asked r <-> u <> [] /\ p <> [] /\ f u p = r).
    { intros r. split.
      - intros (u' & p' & C1 & C2 & N1 & N2 & E). apply Hu in C1. apply Hp in C2. by simplify_eq.
      - intros (N1 & N2 & E). exists u, p. split_and!; try done; [by apply Hu|by apply Hp]. }
    setoid_rewrite Hask. case_bool_decide as Nu; [subst; naive_solver|]. case_bool_decide as Np; [subst; naive_solver|].
    cbn [orb]. destruct (f u p) as [|[[reason|]|]|]; naive_solver.
  - assert (Hno : forall r, ~ asked r) by (intros r (u' & p' & _ & C2 & _); by apply Hp in C2).
    split_and!; [by split; [|intros ?%Hno]|by split; [|intros ?%Hno]| |by intros ?%Hno].
    intros af [= <-]. split; [done|]. right. right. split; [done|]. right.
    destruct (Z.lt_ge_cases 128 (zlen (Password o))); [done|]. unfold km2Credential in Ep.
    by rewrite (proj2 (Z.ltb_ge userPassLen (zlen (Password o)))) in Ep by done.
  - assert (Hno : forall r, ~ asked r) by (intros r (u' & p' & C1 & _); by apply Hu in C1).
    split_and!; [by split; [|intros ?%Hno]|by split; [|intros ?%Hno]| |by intros ?%Hno].
    intros af [= <-]. split; [done|]. right. right. split; [done|]. left.
    destruct (Z.lt_ge_cases 128 (zlen (Username o))); [done|]. unfold km2Credential in Eu.
    by rewrite (proj2 (Z.ltb_ge userPassLen (zlen (Username o)))) in Eu by done.
Qed.

(** ** The AUTH_FAILED string *)

Lemma sanitize_printable (reason : bytes) :
  Forall (fun c => 32 <= c /\ c <> 127) (sanitizeAuthClientReason reason).
Proof.
  unfold sanitizeAuthClientReason. apply Forall_take, List.Forall_forall. intros c Hc.
  apply List.filter_In in Hc as [_ Hc]. lia.
Qed.

(** What a rejected client reads.  Whatever reason the embedder gives, the
    client's reader of control strings finds one string and nothing left over from
    it: AUTH_FAILED, followed by a comma and the reason when the reason has a
    printable byte; of the reason every control byte is gone and at most 128 bytes
    are kept, a reason of that form unchanged. *)
Theorem auth_failed_roundtrip (reason rest : bytes) :
  Push.readControlString (sendAuthFailed reason ++ rest) (Z.to_nat Push.maxControlStringLen) =
    Ok (buildAuthFailed reason, rest) /\
  exists shown, buildAuthFailed reason = (if bool_decide (shown = []) then authFailedLiteral
                                          else authFailedLiteral ++ [comma] ++ shown) /\
    zlen shown <= 128 /\ Forall (fun c => 32 <= c /\ c <> 127) shown /\
    shown `prefix_of` List.filter (fun c => negb ((c <? 32) || (c =? 127))) reason /\
    (zlen reason <= 128 -> Forall (fun c => 32 <= c /\ c <> 127) reason -> shown = reason).
Proof.
  pose proof (sanitize_printable reason) as Hp.
  assert (Hl : zlen (sanitizeAuthClientReason reason) <= 128).
  { unfold sanitizeAuthClientReason, maxAuthClientReasonLen, zlen. rewrite length_take. lia. }
  split.
  - unfold sendAuthFailed, Push.writeControlString, Push.readControlString. rewrite <- (assoc_L (++)), Push.readLoop_spec.
    + replace (_ <? _)%nat with true; [done|]. symmetry. apply Nat.ltb_lt. unfold buildAuthFailed.
      assert (length authFailedLiteral = 11%nat) by done. unfold zlen in Hl. change (Z.to_nat Push.maxControlStringLen) with 1024%nat.
      case_bool_decide; rewrite ?length_app; cbn [length]; lia.
    + unfold buildAuthFailed. assert (H0 : 0 ∉ authFailedLiteral) by decide_now.
      case_bool_decide; [done|]. rewrite !not_elem_of_app. split_and!; [done|by intros ?%list_elem_of_singleton|].
      intros Hin. rewrite Forall_forall in Hp. specialize (Hp 0 Hin). lia.
  - exists (sanitizeAuthClientReason reason). split_and!; [done|done|done| |].
    + unfold sanitizeAuthClientReason. apply prefix_take.
    + intros Hr Hpr. unfold sanitizeAuthClientReason. rewrite (List.forallb_filter_id).
      * apply take_ge. unfold zlen, maxAuthClientReasonLen in *. lia.
      * apply List.forallb_forall. rewrite <- List.Forall_forall. eapply Forall_impl; [exact Hpr|]. cbn. intros c. lia.
Qed.

(** ** The exchange *)

(** A client's view of the server's message: its two randoms and its options. *)
Definition client_reads (r : bytes) : outcome kd_error (bytes * bytes * bytes) :=
  '(_, r) ← readFull 4 r;
  '(_, r) ← readFull 1 r;
  '(random1, r) ← readFull 32 r;
  '(random2, r) ← readFull 32 r;
  '(options, r) ← readLengthPrefixedString r;
  Ok (random1, random2, options).

Section exchange_facts.
Context `{!PRFHashes, !PRFHashLaws}.

Lemma DeriveKeys_ok (src : KeySource2) (csid ssid : bytes) :
  exists raw, DeriveKeys src csid ssid = Some (Ok (mkKey2 raw)) /\ zlen raw = 256.
Proof.
  unfold DeriveKeys. rewrite openvpnPRF_nosid, bind_some, openvpnPRF_sid, bind_some.
  rewrite NewKey2_ok by apply PRF_rfc2246_length. eexists. split; [done|]. unfold zlen.
  by rewrite PRF_rfc2246_length.
Qed.

Lemma serverKM2Options_names (c : bytes) :
  cipherKeyLen c = 16 \/ cipherKeyLen c = 32 ->
  parseOCCCipher (serverKM2Options c) = c /\ zlen (serverKM2Options c) < 512 /\ bytes_ok (serverKM2Options c).
Proof.
  intros Hc. assert (c = AES256 \/ c = AES128) as [-> | ->].
  { unfold cipherKeyLen in Hc. repeat case_bool_decide; auto. by destruct Hc. }
  all: split_and!; [by vm_compute|by vm_compute|decide_now].
Qed.

(** The server's pre-master secret plays no part. *)
Lemma DeriveKeys_premaster (km : KeySource) (p p' r1 r2 csid ssid : bytes) :
  DeriveKeys (mkKeySource2 km (mkKeySource p r1 r2)) csid ssid =
  DeriveKeys (mkKeySource2 km (mkKeySource p' r1 r2)) csid ssid.
Proof. unfold DeriveKeys. cbn [Server Client Random1 Random2]. reflexivity. Qed.

#[local] Opaque DeriveKeys.

(** The write half, with both randoms at hand. *)
Lemma write_derive_ok (r1 r2 : bytes) (km : KeySource) (c csid ssid : bytes) :
  zlen r1 = 32 -> zlen r2 = 32 -> cipherKeyLen c = 16 \/ cipherKeyLen c = 32 ->
  exists buf raw skm, writeServerKeyMethod2AndDeriveKeys (Some r1) (Some r2) true km (serverKM2Options c) csid ssid =
      (buf, Some (Ok (mkKey2 raw, skm))) /\ zlen raw = 256 /\
    client_reads buf = Ok (r1, r2, serverKM2Options c ++ [0]) /\
    DeriveKeys (mkKeySource2 km (mkKeySource [] r1 r2)) csid ssid = Some (Ok (mkKey2 raw)).
Proof.
  intros H1 H2 Hc. unfold writeServerKeyMethod2AndDeriveKeys, WriteServerKeyMethod2. cbn [negb].
  destruct (DeriveKeys_ok (mkKeySource2 km (mkKeySource (replicate 48 0) r1 r2)) csid ssid) as (raw & Hd & Hl).
  rewrite Hd. eexists _, raw, _. split; [reflexivity|]. split; [done|]. split; [|by rewrite (DeriveKeys_premaster km [] (replicate 48 0)), Hd].
  destruct (serverKM2Options_names c Hc) as (_ & Hol & _).
  unfold client_reads. rewrite <- !(assoc_L (++)).
  rewrite (readFull_app 4 [0; 0; 0; 0]) by done. outcome_simpl.
  rewrite (readFull_app 1 [keyMethod2]) by done. outcome_simpl.
  rewrite (readFull_app 32 r1) by done. outcome_simpl. rewrite (readFull_app 32 r2) by done. outcome_simpl.
  assert (Hz : zlen (serverKM2Options c ++ [0]) = zlen (serverKM2Options c) + 1) by (by rewrite zlen_app).
  pose proof (zlen_nonneg (serverKM2Options c)).
  replace (u16 (zlen (serverKM2Options c ++ [0]))) with (zlen (serverKM2Options c ++ [0])) by word_lia.
  change (serverKM2Options c ++ [0] ++ [0; 0; 0; 0; 0; 0]) with (serverKM2Options c ++ [0; 0; 0; 0; 0; 0; 0]).
  replace (be16 (zlen (serverKM2Options c ++ [0])) ++ serverKM2Options c ++ [0; 0; 0; 0; 0; 0; 0])
    with (lp_string (serverKM2Options c ++ [0]) ++ [0; 0; 0; 0; 0; 0])
    by (unfold lp_string; by rewrite <- !(assoc_L (++))).
  rewrite readString_app by (unfold short_string, maxOptionsStringLen; lia). by outcome_simpl.
Qed.

(** A client's message of the wire format, and a cipher it shares with the server. *)
Lemma exchange_computes (dataCiphers : list bytes) (cipher : bytes) (allow : list bytes)
    (hook : option (bytes -> bytes -> hook_result)) (reserved : bytes) (method : Z) (km : KeySource)
    (o : ClientOptions) (rest r1 r2 csid ssid c : bytes) :
  resolveDataCiphers dataCiphers cipher = Ok allow -> client_message_wf reserved method km o ->
  bytes_ok (client_message reserved method km o ++ rest) -> zlen r1 = 32 -> zlen r2 = 32 ->
  selectCipher allow (peerCipherList (PeerInfo o)) (occCipherOf o) = Ok c ->
  (cipherKeyLen c = 16 \/ cipherKeyLen c = 32) /\ c ∈ allow /\
  exists buf raw, zlen raw = 256 /\ client_reads buf = Ok (r1, r2, serverKM2Options c ++ [0]) /\
    DeriveKeys (mkKeySource2 km (mkKeySource [] r1 r2)) csid ssid = Some (Ok (mkKey2 raw)) /\
    performKeyMethod2Exchange allow hook (Some r1) (Some r2) true csid ssid (client_message reserved method km o ++ rest) =
      mkExchange (Some rest) buf (Some (mkKey2 raw, c, peerSupportsNCP (PeerInfo o)))
        (Some (lift_auth (verifyUserPass hook (Some o)))).
Proof.
  intros Hres Hwf Hok H1 H2 Hsel. unfold performKeyMethod2Exchange.
  rewrite (proj2 (ReadClientKeyMethod2_exact _ km o rest Hok)) by (by exists reserved, method).
  pose proof (selectCipher_cases allow (peerCipherList (PeerInfo o)) (occCipherOf o)) as HC.
  rewrite Hsel in *. destruct HC as (l1 & l2 & -> & _ & _). apply resolved_supported in Hres as (_ & _ & Hall).
  apply Forall_app in Hall as [_ Hall]. apply Forall_cons in Hall as [Hc _]. apply cipherKeyLen_supported in Hc.
  split; [done|]. split; [apply elem_of_app; right; apply list_elem_of_here|].
  destruct (write_derive_ok r1 r2 km c csid ssid H1 H2 Hc) as (buf & raw & skm & -> & Hl & Hcr & Hd).
  by exists buf, raw.
Qed.

(** The hook is asked about the credentials the client sent, and its error panics. *)
Definition hook_panics (hook : option (bytes -> bytes -> hook_result)) (r : bytes) : Prop :=
  exists f km o rest u p, hook = Some f /\ ReadClientKeyMethod2 r = Ok (km, o, rest) /\
    km2Credential (Username o) = Some u /\ km2Credential (Password o) = Some p /\ f u p = HookReject (Some None).

(** Whatever arrives, the exchange comes to a result, a panic only if the hook's error
    panics; it succeeds only after it has published keys and a cipher that fit, and
    then leaves the reader behind the client's message. *)
Lemma exchange_total (allow : list bytes) (hook : option (bytes -> bytes -> hook_result)) (rand1 rand2 : option bytes)
    (writeOK : bool) (csid ssid r : bytes) :
  Forall (fun c => c ∈ supportedDataCiphers) allow ->
  let x := performKeyMethod2Exchange allow hook rand1 rand2 writeOK csid ssid r in
  match x_published x with
  | Some (dk, c, _) => zlen (k2_raw dk) = 256 /\ cipherKeyLen c <> 0 /\
      (exists res, x_result x = Some res /\ (res = Panic -> hook_panics hook r)) /\
      exists rest, x_tlsReader x = Some rest /\ rest `suffix_of` r
  | None => exists e, x_result x = Some (Err e)
  end.
Proof.
  intros Hall. cbv zeta. unfold performKeyMethod2Exchange. pose proof (ReadClientKeyMethod2_no_panic r) as Hr.
  destruct (ReadClientKeyMethod2 r) as [[[km o] rest]|e|] eqn:Er; [|by eexists|done].
  pose proof (selectCipher_cases allow (peerCipherList (PeerInfo o)) (occCipherOf o)) as HC.
  destruct (selectCipher _ _ _) as [c|e|]; [|by eexists|done]. destruct HC as (l1 & l2 & -> & _ & _).
  apply Forall_app in Hall as [_ Hall]. apply Forall_cons in Hall as [Hc _]. apply cipherKeyLen_supported in Hc.
  unfold writeServerKeyMethod2AndDeriveKeys, WriteServerKeyMethod2.
  destruct rand1 as [r1|], rand2 as [r2|]; try by eexists. destruct writeOK; [|by eexists]. cbn [negb].
  destruct (DeriveKeys_ok (mkKeySource2 km (mkKeySource (replicate 48 0) r1 r2)) csid ssid) as (raw & -> & Hl).
  cbn. split; [done|]. split; [lia|]. split; [|exists rest; split; [done|by eapply ReadClientKeyMethod2_rest]].
  eexists. split; [done|]. unfold verifyUserPass, callAuthUserPass.
  destruct hook as [f|]; [|done]. destruct (km2Credential (Username o)) as [u|] eqn:Eu; [|done].
  destruct (km2Credential (Password o)) as [p|] eqn:Epw; [|done]. destruct (_ || _); [done|].
  destruct (f u p) as [|[[reason|]|]|] eqn:Ef; try done. intros _. by exists f, km, o, rest, u, p.
Qed.

(** C38. Both sides of the key exchange end with the same keys.  For a resolved cipher
    list and a client message of the wire format the exchange selects a cipher from
    what the client offers, and if there is one: the message written parses, at the
    client, to the two fresh randoms and an options string that names the selected
    cipher; the keys published are those the client derives from its own key source
    and what it read; they have the length the key slots need and the cipher has a
    key length; and the result is the verdict on the credentials.  If there is none,
    nothing is written or published and the result is the cipher rejection.  Either
    way the reader is left just behind the client's message. *)
Theorem key_exchange_agreement (dataCiphers : list bytes) (cipher : bytes) (allow : list bytes)
    (hook : option (bytes -> bytes -> hook_result)) (reserved : bytes) (method : Z) (km : KeySource)
    (o : ClientOptions) (rest r1 r2 csid ssid : bytes) :
  resolveDataCiphers dataCiphers cipher = Ok allow -> client_message_wf reserved method km o ->
  bytes_ok (client_message reserved method km o ++ rest) -> zlen r1 = 32 -> zlen r2 = 32 ->
  let x := performKeyMethod2Exchange allow hook (Some r1) (Some r2) true csid ssid
             (client_message reserved method km o ++ rest) in
  x_tlsReader x = Some rest /\
  match selectCipher allow (peerCipherList (PeerInfo o)) (occCipherOf o) with
  | Ok c => exists raw options s1 s2,
      client_reads (x_written x) = Ok (s1, s2, options ++ [0]) /\ parseOCCCipher options = c /\
      DeriveKeys (mkKeySource2 km (mkKeySource [] s1 s2)) csid ssid = Some (Ok (mkKey2 raw)) /\
      x_published x = Some (mkKey2 raw, c, peerSupportsNCP (PeerInfo o)) /\ zlen raw = 256 /\
      cipherKeyLen c <> 0 /\ c ∈ allow /\
      x_result x = Some (lift_auth (verifyUserPass hook (Some o)))
  | _ => x_written x = [] /\ x_published x = None /\
      x_result x = Some (Err (KM2Auth (mkAuthFailure cipherNegotiationFailedReason authFailureCipherNegotiation)))
  end.
Proof.
  intros Hres Hwf Hok H1 H2. cbv zeta.
  pose proof (selectCipher_cases allow (peerCipherList (PeerInfo o)) (occCipherOf o)) as HC.
  destruct (selectCipher _ _ _) as [c|e|] eqn:Es; [|clear HC|done].
  - destruct (exchange_computes _ _ _ hook _ _ _ _ rest _ _ csid ssid _ Hres Hwf Hok H1 H2 Es)
      as (Hc & Hin & buf & raw & Hl & Hcr & Hd & ->).
    split; [done|]. exists raw, (serverKM2Options c), r1, r2. destruct (serverKM2Options_names c Hc) as (Hn & _).
    split_and!; try done. cbn. lia.
  - unfold performKeyMethod2Exchange.
    rewrite (proj2 (ReadClientKeyMethod2_exact _ km o rest Hok)) by (by exists reserved, method). by rewrite Es.
Qed.

(** A renegotiation checks the client again and keeps the cipher.  It ends with
    keys exactly when the client's message parses, the randoms are there, the write
    succeeds and the credentials pass again; the options it writes name the session's
    cipher whatever the client now offers.  Rejected credentials end the session,
    after an AUTH_FAILED behind the server's message; anything else abandons the
    attempt. *)
Theorem renegotiation_reauthenticates (cipher : bytes) (f : bytes -> bytes -> hook_result) (reserved : bytes) (method : Z)
    (km : KeySource) (o : ClientOptions) (rest r1 r2 csid ssid : bytes) :
  cipherKeyLen cipher <> 0 -> client_message_wf reserved method km o ->
  bytes_ok (client_message reserved method km o ++ rest) -> zlen r1 = 32 -> zlen r2 = 32 ->
  exists buf raw,
    client_reads buf = Ok (r1, r2, serverKM2Options cipher ++ [0]) /\ zlen raw = 256 /\
    DeriveKeys (mkKeySource2 km (mkKeySource [] r1 r2)) csid ssid = Some (Ok (mkKey2 raw)) /\
    renegotiationExchange cipher (Some f) (Some r1) (Some r2) true csid ssid (client_message reserved method km o ++ rest) =
      match verifyUserPass (Some f) (Some o) with
      | Ok _ => (buf, Some (Ok (Session.RenegKeys (mkKey2 raw))))
      | Err af => (buf ++ sendAuthFailed (af_clientReason af), Some (Ok Session.RenegAuthRejected))
      | Panic => (buf, Some Panic)
      end.
Proof.
  intros Hc%cipherKeyLen_cases Hwf Hok H1 H2.
  destruct (write_derive_ok r1 r2 km cipher csid ssid H1 H2 Hc) as (buf & raw & skm & Hw & Hl & Hcr & Hd).
  exists buf, raw. split_and!; try done. unfold renegotiationExchange.
  rewrite (proj2 (ReadClientKeyMethod2_exact _ km o rest Hok)) by (by exists reserved, method).
  rewrite Hw. by destruct (verifyUserPass (Some f) (Some o)).
Qed.

End exchange_facts.

(** ** Examples and witnesses *)

Module Toy.
Definition hook : bytes -> bytes -> hook_result := fun u p =>
  if bool_decide (u = of_string "eve") then HookReject (Some None)
  else if bool_decide (p = of_string "pw") then HookAccept else HookReject (Some (Some (of_string "bad"))).
Definition client (u p : String.string) : ClientOptions :=
  mkClientOptions [] (of_string u ++ [0]) (of_string p ++ [0]) (of_string "IV_CIPHERS=AES-128-GCM").

(** The error's own method panics outside the recovery of [callAuthUserPass]. *)
Example client_reason_panics : verifyUserPass (Some hook) (Some (client "eve" "x")) = Panic.
Proof. vm_compute. reflexivity. Qed.
End Toy.

#[local] Existing Instances ToyPRF.hashes ToyPRF.laws.
Import Toy.

Lemma key_exchange_agreement_witness :
  exists raw,
    x_published (performKeyMethod2Exchange [AES256; AES128] (Some hook) (Some (replicate 32 1)) (Some (replicate 32 2))
      true (replicate 8 1) (replicate 8 2) (client_message [0; 0; 0; 0] 2 ToyKM2.src (client "bob" "pw") ++ [9])) =
      Some (mkKey2 raw, AES128, true) /\ zlen raw = 256.
Proof.
  destruct (key_exchange_agreement [] [] [AES256; AES128] (Some hook) [0; 0; 0; 0] 2 ToyKM2.src (client "bob" "pw") [9]
    (replicate 32 1) (replicate 32 2) (replicate 8 1) (replicate 8 2)) as [_ H].
  - by vm_compute.
  - constructor; vm_compute; first [reflexivity|discriminate].
  - decide_now.
  - done.
  - done.
  - assert (Hs : selectCipher [AES256; AES128] (peerCipherList (PeerInfo (client "bob" "pw")))
      (occCipherOf (client "bob" "pw")) = Ok AES128) by by vm_compute.
    assert (Hn : peerSupportsNCP (PeerInfo (client "bob" "pw")) = true) by by vm_compute.
    rewrite Hs, Hn in H. destruct H as (raw & _ & _ & _ & _ & _ & _ & Hp & Hl & _).
    exists raw. split; [exact Hp|exact Hl].
Defined.

Lemma renegotiation_reauthenticates_witness :
  (renegotiationExchange AES256 (Some hook) (Some (replicate 32 1)) (Some (replicate 32 2))
    true (replicate 8 1) (replicate 8 2) (client_message [0; 0; 0; 0] 2 ToyKM2.src (client "bob" "no") ++ [9])).2 =
  Some (Ok Session.RenegAuthRejected).
Proof.
  destruct (renegotiation_reauthenticates AES256 hook [0; 0; 0; 0] 2 ToyKM2.src (client "bob" "no") [9]
    (replicate 32 1) (replicate 32 2) (replicate 8 1) (replicate 8 2)) as (buf & raw & _ & _ & _ & E).
  - by vm_compute.
  - constructor; vm_compute; first [reflexivity|discriminate].
  - decide_now.
  - done.
  - done.
  - assert (Hv : verifyUserPass (Some hook) (Some (client "bob" "no")) =
      Err (mkAuthFailure (of_string "bad") authFailureCredential)) by by vm_compute.
    by rewrite E, Hv.
Defined.
End Auth.
