(* ===== verification/Serve.v ===== *)
(** * Serve: configuration, startup, the read loop and the callback counter

    Model of the parts of [ovpn.go] around the sessions: what [NewServer] and
    [Serve] make of a configuration, the loop that hands received datagrams on,
    and the counter by which [Close] waits for callbacks.

    [Config] keeps what is decided on; of the TLS configuration that is its
    [ClientAuth] value, of a hook whether it is set.  Durations and the queue
    length are 64-bit integers. *)

From stdpp Require Import gmap.
From S2P Require Import Prelude Wire TlsCrypt IpPool Cipher Session.

Module Serve.

Definition second : Z := 1000000000.
Definition HandshakeWindow : Z := 60 * second.
Definition pingInterval : Z := 10 * second.
Definition defaultReapWindow : Z := 6 * pingInterval.
Definition defaultRenegSec : Z := 3600 * second.
Definition renegMinIntervalDivisor : Z := 60.
Definition ipInboundQueueSize : Z := 32.
Definition maxDatagramSize : Z := 2048.

(** The values of [tls.ClientAuthType]. *)
Definition RequireAnyClientCert : Z := 2.
Definition RequireAndVerifyClientCert : Z := 4.

Record Config := mkConfig {
  c_TLSConfig : option Z;
  c_TLSCryptKey : bytes;
  c_Network : option IpPool.IPNet;
  c_Cipher : bytes;
  c_DataCiphers : list bytes;
  c_OnSession : bool;
  c_RenegSec : Z;
  c_OnSessionClosed : bool;
  c_PingInterval : Z;
  c_ReapWindow : Z;
  c_SessionInboundQueue : Z;
  c_AuthUserPass : bool;
}.

Inductive serve_error :=
  | ErrServeKey (e : tc_error)
  | ErrServeTLSConfig | ErrServeUnauthenticated
  | ErrServePing | ErrServeReap | ErrServeQueue
  | ErrServeReapPing (reap ping : Z)
  | ErrServeCipher (e : Cipher.cipher_error)
  | ErrServeNetwork (e : IpPool.pool_error)
  | ErrClosed.

(** The fields of [Server] that hold resolved settings. *)
Record resolved := mkResolved {
  handshakeWindow : Z;
  reapWindow : Z;
  pingEvery : Z;
  sessionInboundQueue : Z;
  pool : option IpPool.ipPool;
  renegSec : Z;
  renegMinInterval : Z;
  dataCiphers : list bytes;
}.

(** [if v == 0 { v = default }]. *)
Definition or_default (v default : Z) : Z := if v =? 0 then default else v.

Definition NewServer (cfg : Config) : resolved :=
  mkResolved HandshakeWindow (or_default (c_ReapWindow cfg) defaultReapWindow)
    (or_default (c_PingInterval cfg) pingInterval)
    (or_default (c_SessionInboundQueue cfg) ipInboundQueueSize) None 0 0 [].

Definition set_reneg (sec : Z) (s : resolved) : resolved :=
  mkResolved (handshakeWindow s) (reapWindow s) (pingEvery s) (sessionInboundQueue s) (pool s)
    sec (Z.quot sec renegMinIntervalDivisor) (dataCiphers s).
Definition set_ciphers (l : list bytes) (s : resolved) : resolved :=
  mkResolved (handshakeWindow s) (reapWindow s) (pingEvery s) (sessionInboundQueue s) (pool s)
    (renegSec s) (renegMinInterval s) l.
Definition set_pool (p : IpPool.ipPool) (s : resolved) : resolved :=
  mkResolved (handshakeWindow s) (reapWindow s) (pingEvery s) (sessionInboundQueue s) (Some p)
    (renegSec s) (renegMinInterval s) (dataCiphers s).

(** A client certificate is mandatory. *)
Definition certRequired (clientAuth : Z) : bool :=
  (clientAuth =? RequireAnyClientCert) || (clientAuth =? RequireAndVerifyClientCert).

(** The checks of [Serve] that read the configuration only. *)
Definition validate (cfg : Config) : outcome serve_error unit :=
  match NewWrapper (c_TLSCryptKey cfg) true with
  | Panic => Panic
  | Err e => Err (ErrServeKey e)
  | Ok _ =>
      match c_TLSConfig cfg with
      | None => Err ErrServeTLSConfig
      | Some clientAuth =>
          if negb (certRequired clientAuth) && negb (c_AuthUserPass cfg) then Err ErrServeUnauthenticated else
          if c_PingInterval cfg <? 0 then Err ErrServePing else
          if c_ReapWindow cfg <? 0 then Err ErrServeReap else
          if c_SessionInboundQueue cfg <? 0 then Err ErrServeQueue else
          let resolvedPing := or_default (c_PingInterval cfg) pingInterval in
          let resolvedReap := or_default (c_ReapWindow cfg) defaultReapWindow in
          if resolvedReap <? i64 (2 * resolvedPing) then Err (ErrServeReapPing resolvedReap resolvedPing)
          else Ok tt
      end
  end.

(** [Serve] up to its read loop; the settings keep what was resolved before an
    error.  [closed]: [Close] has been called. *)
Definition start (cfg : Config) (closed : bool) (s : resolved) : outcome serve_error unit * resolved :=
  match validate cfg with
  | Panic => (Panic, s)
  | Err e => (Err e, s)
  | Ok _ =>
      let s := set_reneg (or_default (c_RenegSec cfg) defaultRenegSec) s in
      match Cipher.resolveDataCiphers (c_DataCiphers cfg) (c_Cipher cfg) with
      | Panic => (Panic, s)
      | Err e => (Err (ErrServeCipher e), s)
      | Ok dataCiphers =>
          let s := set_ciphers dataCiphers s in
          let listen s := (if closed then Err ErrClosed else Ok tt, s) in
          match c_Network cfg with
          | None => listen s
          | Some network =>
              match IpPool.newIPPool (Some network) with
              | Panic => (Panic, s)
              | Err e => (Err (ErrServeNetwork e), s)
              | Ok p => listen (set_pool p s)
              end
          end
      end
  end.

(** The settings the sessions of a server read. *)
Definition session_settings (cfg : Config) (s : resolved) : Session.settings :=
  Session.mkSettings (renegSec s) (renegMinInterval s) (reapWindow s) (c_OnSession cfg) (c_OnSessionClosed cfg).

(** ** The read loop *)

(** What [pc.ReadFrom] returns; an error comes with whether it is [net.ErrClosed]
    and the value of [s.closed] then. *)
Inductive rx := RxDatagram (addr data : bytes) | RxError (errClosed closed : bool).

(** What the loop does with a datagram: call [handleDataDatagram], or start a
    goroutine with [handleDatagram]. *)
Inductive job := Inline (opcode : Z) (packet : bytes) | Spawned (addr packet : bytes).

(** A datagram longer than the buffer arrives cut to it. *)
Definition received (data : bytes) : bytes := take (Z.to_nat (maxDatagramSize + 1)) data.

Definition is_data_opcode (opcode : Z) : bool := (opcode =? OpDataV1) || (opcode =? OpDataV2).

Definition dispatch (addr data : bytes) : job :=
  let packet := received data in
  match packet with
  | b :: _ =>
      if (zlen packet <=? maxDatagramSize) && is_data_opcode (ParseHeaderByte b).1
      then Inline (ParseHeaderByte b).1 packet else Spawned addr packet
  | [] => Spawned addr packet
  end.

(** The jobs of a run of the loop, and what [Serve] returns: [Some true] is nil,
    [Some false] the error. *)
Fixpoint readLoop (reads : list rx) : list job * option bool :=
  match reads with
  | [] => ([], None)
  | RxDatagram addr data :: reads => let '(jobs, r) := readLoop reads in (dispatch addr data :: jobs, r)
  | RxError errClosed closed :: _ => ([], Some (closed || errClosed))
  end.

(** ** Waiting for callbacks *)

(** The channels made so far are numbered; [cb_closed] are the closed ones. *)
Record callbacks := mkCallbacks {
  cbCount : Z;
  cbDone : option nat;
  cb_closed : gset nat;
  cb_next : nat;
}.

Definition noCallbacks : callbacks := mkCallbacks 0 None ∅ 0.

Definition cbBegin (c : callbacks) : callbacks :=
  mkCallbacks (cbCount c + 1) (cbDone c) (cb_closed c) (cb_next c).

Definition cbEnd (c : callbacks) : callbacks :=
  let n := cbCount c - 1 in
  match cbDone c with
  | Some ch => if n =? 0 then mkCallbacks n None ({[ch]} ∪ cb_closed c) (cb_next c)
               else mkCallbacks n (Some ch) (cb_closed c) (cb_next c)
  | None => mkCallbacks n None (cb_closed c) (cb_next c)
  end.

(** The channel the caller then receives from; [None] when it returns at once. *)
Definition cbWait (c : callbacks) : option nat * callbacks :=
  if cbCount c =? 0 then (None, c)
  else (Some (cb_next c), mkCallbacks (cbCount c) (Some (cb_next c)) (cb_closed c) (S (cb_next c))).

Inductive cb_op := CbBegin | CbEnd | CbWait.

Definition cb_step (c : callbacks) (o : cb_op) : callbacks :=
  match o with CbBegin => cbBegin c | CbEnd => cbEnd c | CbWait => (cbWait c).2 end.

(** ** What a configuration has to be *)

(** The interval and the window in force. *)
Definition ping_of (cfg : Config) : Z := or_default (c_PingInterval cfg) pingInterval.
Definition reap_of (cfg : Config) : Z := or_default (c_ReapWindow cfg) defaultReapWindow.

Record sound (cfg : Config) : Prop := {
  so_key : zlen (c_TLSCryptKey cfg) = 256;
  so_auth : exists clientAuth, c_TLSConfig cfg = Some clientAuth /\
    (clientAuth = RequireAnyClientCert \/ clientAuth = RequireAndVerifyClientCert \/ c_AuthUserPass cfg = true);
  so_ping : 0 <= c_PingInterval cfg;
  so_reap : 0 <= c_ReapWindow cfg;
  so_queue : 0 <= c_SessionInboundQueue cfg;
  so_windows : i64 (2 * ping_of cfg) <= reap_of cfg;
}.

Lemma validate_iff (cfg : Config) : validate cfg = Ok tt <-> sound cfg.
Proof.
  unfold validate, TlsCrypt.NewWrapper, certRequired, ping_of, reap_of. split.
  - destruct (Z.eqb_spec (zlen (c_TLSCryptKey cfg)) 256); [|done]. cbn [negb].
    destruct (c_TLSConfig cfg) as [ca|] eqn:Eca; [|done].
    destruct (_ && _) eqn:Ea; [done|]. repeat (case_match; [done|]). intros _. constructor; unfold ping_of, reap_of; try lia.
    exists ca. split; [done|]. destruct (c_AuthUserPass cfg); [auto|]. lia.
  - intros [Hk (ca & -> & Ha) Hp Hr Hq Hw]. rewrite Hk. cbn. unfold ping_of, reap_of in Hw.
    rewrite (proj2 (Z.ltb_ge _ _) Hp), (proj2 (Z.ltb_ge _ _) Hr), (proj2 (Z.ltb_ge _ _) Hq), (proj2 (Z.ltb_ge _ _) Hw).
    replace (_ && _) with false; [done|]. destruct Ha as [->|[->| ->]]; cbn; by rewrite ?andb_false_r.
Qed.

Lemma validate_no_panic (cfg : Config) : validate cfg <> Panic.
Proof.
  unfold validate, TlsCrypt.NewWrapper. destruct (_ =? 256); cbn [negb]; [|done].
  destruct (c_TLSConfig cfg); [|done]. by repeat case_match.
Qed.

Lemma resolveEntries_no_panic (l seen : list bytes) : Cipher.resolveEntries seen l <> Panic.
Proof.
  revert seen. induction l as [|x l IH]; intros seen; cbn; [done|].
  destruct (Cipher.canonicalCipherName x) as [c|]; [|done]. case_bool_decide; [done|].
  specialize (IH (c :: seen)). by destruct (Cipher.resolveEntries (c :: seen) l).
Qed.

Lemma resolve_no_panic (l : list bytes) (c : bytes) : Cipher.resolveDataCiphers l c <> Panic.
Proof.
  unfold Cipher.resolveDataCiphers. destruct l as [|n l]; [by repeat case_match|]. apply resolveEntries_no_panic.
Qed.

Lemma newIPPool_no_panic (n : option IpPool.IPNet) : IpPool.newIPPool n <> Panic.
Proof.
  unfold IpPool.newIPPool. destruct n as [n|]; [|done]. destruct (IpPool.to4 (IpPool.net_IP n)) as [ip4|] eqn:E; [|done].
  destruct (negb _); [done|]. destruct (IpPool.mask_Size _). destruct (negb _); [done|]. destruct (_ <? 4); [done|].
  destruct (get_u32_total (E := IpPool.pool_error) ip4) as [v ->]; [|done]. unfold IpPool.to4 in E. unfold zlen.
  destruct (Nat.eqb_spec (length (IpPool.net_IP n)) 4) as [El|]; [injection E as <-; lia|].
  destruct (Nat.eqb_spec (length (IpPool.net_IP n)) 16) as [El|]; cbn in E; [|done].
  destruct (bool_decide _); [|done]. injection E as <-. rewrite length_drop. lia.
Qed.

Lemma or_default_pos (v d : Z) : 0 <= v -> 0 < d -> 0 < or_default v d.
Proof. unfold or_default. destruct (Z.eqb_spec v 0); lia. Qed.

(** A start that fails for a reason that is among the conditions. *)
Lemma refused (P Q : Prop) (e : serve_error) :
  ~ P -> Err e <> Panic (E := serve_error) (A := unit) /\ (Err e = Ok tt <-> P) /\ (Err e = Ok tt -> Q).
Proof. intros HP. split; [done|]. split; [|done]. by split; [|intros ?%HP]. Qed.

(** C40. What [Serve] starts with.  It never panics, and it starts exactly when the
    static key has its length, there is a TLS configuration, some authentication is
    mandatory (a client certificate, or the hook), ping interval, reap window and queue
    size are not negative, the reap window is at least twice the ping interval as 64-bit
    numbers, the cipher names resolve, the network (if any) makes a pool, and [Close] has
    not been called.  The interval of the renegotiation is not looked at: it may be
    negative, and the sessions then read it as it is.  Every session finds a positive ping
    interval and a positive reap window that is at least twice the ping interval when that
    is below 2^62 ns, so that doubling it does not overflow, a queue with room, a
    non-empty list of supported ciphers without repetition, and a pool in which nothing is
    leased. *)
Theorem serve_starts (cfg : Config) (closed : bool) :
  (forall n, c_Network cfg = Some n -> bytes_ok (IpPool.net_IP n)) ->
  let '(r, s) := start cfg closed (NewServer cfg) in
  r <> Panic /\
  (r = Ok tt <-> sound cfg /\ closed = false /\
     is_ok (Cipher.resolveDataCiphers (c_DataCiphers cfg) (c_Cipher cfg)) = true /\
     (is_Some (c_Network cfg) -> is_ok (IpPool.newIPPool (c_Network cfg)) = true)) /\
  (r = Ok tt ->
     pingEvery s = ping_of cfg /\ reapWindow s = reap_of cfg /\ 0 < pingEvery s /\ 0 < reapWindow s /\
     (pingEvery s < 2 ^ 62 -> 2 * pingEvery s <= reapWindow s) /\ 0 < sessionInboundQueue s /\
     renegSec s = or_default (c_RenegSec cfg) defaultRenegSec /\ renegMinInterval s = Z.quot (renegSec s) 60 /\
     dataCiphers s <> [] /\ NoDup (dataCiphers s) /\ Forall (fun c => c ∈ Cipher.supportedDataCiphers) (dataCiphers s) /\
     match pool s with Some p => IpPool.lease_inv p [] | None => c_Network cfg = None end).
Proof.
  intros Hn. pose proof (validate_iff cfg) as Hv. pose proof (validate_no_panic cfg) as Hvp. unfold start.
  destruct (validate cfg) as [[]|e|]; [|apply refused; by intros (?%Hv & _)|done].
  assert (Hs : sound cfg) by by apply Hv.
  pose proof (resolve_no_panic (c_DataCiphers cfg) (c_Cipher cfg)) as Hrp.
  destruct (Cipher.resolveDataCiphers _ _) as [l|e|] eqn:Er; [|apply refused; by intros (_ & _ & ? & _)|done].
  apply Cipher.resolved_supported in Er as (L1 & L2 & L3).
  assert (Hw : 0 < ping_of cfg /\ 0 < reap_of cfg /\ (ping_of cfg < 2 ^ 62 -> 2 * ping_of cfg <= reap_of cfg) /\
      0 < or_default (c_SessionInboundQueue cfg) ipInboundQueueSize).
  { destruct Hs as [_ _ Hp Hr Hq Hw]. assert (Hp0 : 0 < ping_of cfg) by by apply or_default_pos. split_and!.
    - done.
    - by apply or_default_pos.
    - intros Hb. change (2 ^ 62) with 4611686018427387904 in Hb. clear -Hw Hb Hp0. unfold i64, u64 in Hw.
      rewrite Z.mod_small in Hw by lia. rewrite (proj2 (Z.ltb_lt _ _)) in Hw by lia. done.
    - by apply or_default_pos. }
  destruct Hw as (W1 & W2 & W3 & W4).
  destruct (c_Network cfg) as [n|] eqn:En.
  - pose proof (newIPPool_no_panic (Some n)) as Hpp.
    destruct (IpPool.newIPPool (Some n)) as [p|e|] eqn:Ep; [| |done].
    + apply IpPool.newIPPool_inv in Ep; [|by apply Hn].
      destruct closed; [apply refused; by intros (_ & ? & _)|]. split; [done|]. split; [split; [|done]; intros _; by split_and!|].
      intros _. by split_and!.
    + apply refused. intros (_ & _ & _ & Hx). by specialize (Hx ltac:(by eexists)).
  - destruct closed; [apply refused; by intros (_ & ? & _)|]. split; [done|].
    split; [split; [|done]; intros _; split_and!; try done; by intros [? ?]|]. intros _. by split_and!.
Qed.

(** ** The read loop *)

(** The data packets handled on the loop's own goroutine. *)
Definition inline_packets (jobs : list job) : list bytes :=
  omap (fun j => match j with Inline _ p => Some p | _ => None end) jobs.
Definition spawned_packets (jobs : list job) : list (bytes * bytes) :=
  omap (fun j => match j with Spawned a p => Some (a, p) | _ => None end) jobs.

(** A datagram of the data channel, whole. *)
Definition data_datagram (data : bytes) : bool :=
  match data with
  | b :: _ => (zlen data <=? maxDatagramSize) && is_data_opcode (ParseHeaderByte b).1
  | [] => false
  end.

Lemma dispatch_spec (addr data : bytes) :
  dispatch addr data = if data_datagram data then
      Inline (ParseHeaderByte (hd 0 data)).1 data else Spawned addr (received data).
Proof.
  unfold dispatch, data_datagram, received, maxDatagramSize. cbv zeta. change (Z.to_nat (2048 + 1)) with 2049%nat.
  destruct data as [|b data]; [done|]. change (take 2049 (b :: data)) with (b :: take 2048 data).
  destruct (is_data_opcode (ParseHeaderByte b).1) eqn:Ed; cbn [hd]; rewrite Ed, ?andb_true_r, ?andb_false_r; [|done].
  assert (Hl : zlen (b :: take 2048 data) = 1 + Z.min 2048 (zlen data)).
  { unfold zlen. cbn [length]. rewrite length_take. lia. }
  rewrite Hl. replace (zlen (b :: data)) with (1 + zlen data) by (unfold zlen; cbn [length]; lia).
  destruct (Z.leb_spec (1 + zlen data) 2048).
  - rewrite (proj2 (Z.leb_le _ _)) by lia. rewrite take_ge by (unfold zlen in *; lia). done.
  - rewrite (proj2 (Z.leb_gt _ _)) by lia. done.
Qed.

(** Data packets keep the order of the socket.  As long as reads succeed the loop
    hands on one job per datagram and does not stop: the data datagrams of at most
    2048 bytes, and no others, are handled in line, whole and in the order received;
    every other datagram gets a goroutine, with at most 2049 of its bytes.  The first
    failed read stops the loop, without an error exactly when the connection or the
    server was closed. *)
Theorem read_loop_order (ds : list (bytes * bytes)) (rest : list rx) :
  let jobs := (readLoop (map (fun d => RxDatagram d.1 d.2) ds)).1 in
  length jobs = length ds /\
  inline_packets jobs = List.filter data_datagram (map snd ds) /\
  spawned_packets jobs = map (fun d => (d.1, received d.2)) (List.filter (fun d => negb (data_datagram d.2)) ds) /\
  Forall (fun j => match j with Inline op p => op = (ParseHeaderByte (hd 0 p)).1 | Spawned _ p => zlen p <= 2049 end) jobs /\
  (forall errClosed closed,
     readLoop (map (fun d => RxDatagram d.1 d.2) ds ++ RxError errClosed closed :: rest) = (jobs, Some (closed || errClosed))).
Proof.
  cbv zeta. induction ds as [|[a d] ds (I1 & I2 & I3 & I4 & I5)]; [by split_and!|]. cbn [map app readLoop fst snd].
  destruct (readLoop (map _ ds)) as [jobs r]. cbn [fst] in *.
  assert (Hr : zlen (received d) <= 2049).
  { unfold received, zlen. rewrite length_take. change (Z.to_nat (maxDatagramSize + 1)) with 2049%nat. lia. }
  rewrite !dispatch_spec. cbn [List.filter snd]. split_and!.
  - cbn. by rewrite I1.
  - destruct (data_datagram d); cbn; by rewrite <- I2.
  - destruct (data_datagram d); cbn; by rewrite <- I3.
  - constructor; [|done]. by destruct (data_datagram d).
  - intros ec cl. by rewrite I5.
Qed.

(** ** Waiting for callbacks *)

(** Nobody waits while somebody waits, and only callbacks that began end. *)
Definition cb_ok (c : callbacks) (o : cb_op) : Prop :=
  match o with CbBegin => True | CbEnd => 0 < cbCount c | CbWait => cbDone c = None end.

Inductive cb_reachable : callbacks -> Prop :=
  | cb_init : cb_reachable noCallbacks
  | cb_next_step c o : cb_reachable c -> cb_ok c o -> cb_reachable (cb_step c o).

Record cb_inv (c : callbacks) : Prop := {
  cbi_count : 0 <= cbCount c;
  cbi_done : forall ch, cbDone c = Some ch -> 0 < cbCount c /\ (ch < cb_next c)%nat /\ ch ∉ cb_closed c;
  cbi_fresh : forall ch, ch ∈ cb_closed c -> (ch < cb_next c)%nat;
  cbi_wait : forall ch, (ch < cb_next c)%nat -> ch ∈ cb_closed c \/ cbDone c = Some ch;
}.

Lemma cb_reachable_inv (c : callbacks) : cb_reachable c -> cb_inv c.
Proof.
  induction 1 as [|c o _ [I1 I2 I4 I3] Ho]; [by constructor; cbn; [lia|done|set_solver|lia]|]. destruct o; cbn [cb_step cb_ok] in *.
  - unfold cbBegin. constructor; cbn; [lia| |done|done]. intros ch E. destruct (I2 ch E). split; [lia|done].
  - unfold cbEnd. destruct (cbDone c) as [ch0|] eqn:Ed; [destruct (Z.eqb_spec (cbCount c - 1) 0)|].
    + constructor; cbn; [lia|done| |].
      { intros ch [->%elem_of_singleton|?]%elem_of_union; [by apply (I2 ch0)|by apply I4]. }
      intros ch Hc. left. destruct (I3 ch Hc) as [?|[= ->]]; set_solver.
    + constructor; cbn; [lia| |done|done]. intros ch [= <-]. destruct (I2 ch0 eq_refl). split; [lia|done].
    + constructor; cbn; [lia|done|done|done].
  - unfold cbWait. destruct (Z.eqb_spec (cbCount c) 0); [by constructor|]. constructor; cbn; [lia| | |].
    + intros ch [= <-]. split_and!; [lia|lia|]. intros Hin%I4. lia.
    + intros ch Hin%I4. lia.
    + intros ch Hc. destruct (decide (ch = cb_next c)) as [->|]; [by right|].
      left. destruct (I3 ch ltac:(lia)) as [?|?]; [done|congruence].
Qed.

(** With one waiter at a time nobody waits in vain: when no callback is in flight a
    wait returns at once and every channel a waiter was given is closed; and no
    channel is closed while a callback is in flight. *)
Theorem callbacks_waited_for (c : callbacks) :
  cb_reachable c ->
  (cbCount c = 0 -> cbWait c = (None, c) /\ forall ch, (ch < cb_next c)%nat -> ch ∈ cb_closed c) /\
  (forall o ch, cb_ok c o -> (ch < cb_next c)%nat -> ch ∉ cb_closed c -> ch ∈ cb_closed (cb_step c o) ->
     cbCount (cb_step c o) = 0).
Proof.
  intros [I1 I2 I4 I3]%cb_reachable_inv. split.
  - intros E. split; [unfold cbWait; by rewrite E|]. intros ch Hc. destruct (I3 ch Hc) as [?|Ed]; [done|].
    destruct (I2 ch Ed). lia.
  - intros o ch Ho Hc Hn Hin. destruct o; cbn [cb_step] in *; [done| |].
    + unfold cbEnd in *. destruct (cbDone c); [|done]. by destruct (Z.eqb_spec (cbCount c - 1) 0).
    + unfold cbWait in *. by destruct (cbCount c =? 0).
Qed.

(** ** Examples and witnesses *)

Module Toy.
Definition cfg : Config :=
  mkConfig (Some RequireAnyClientCert) (replicate 256 1)
    (Some (IpPool.mkIPNet [10; 8; 0; 0] [255; 255; 255; 0])) [] [] true 0 true 0 0 0 false.
Definition with_times (reneg ping reap : Z) : Config :=
  mkConfig (c_TLSConfig cfg) (c_TLSCryptKey cfg) (c_Network cfg) [] [] true reneg true ping reap 0 false.
Definition started (c : Config) : resolved := (start c false (NewServer c)).2.

(** A negative renegotiation interval is accepted, and disables the rate limit
    along with the schedule. *)
Example negative_reneg :
  let c := with_times (-60) 0 0 in
  (start c false (NewServer c)).1 = Ok tt /\ (renegSec (started c), renegMinInterval (started c)) = (-60, -1).
Proof. by vm_compute. Qed.

(** Doubling the ping interval can overflow; the window is then anything. *)
Example doubled_ping_overflows :
  let c := with_times 0 (2 ^ 62) 1 in
  (start c false (NewServer c)).1 = Ok tt /\ pingEvery (started c) = 2 ^ 62 /\ reapWindow (started c) = 1.
Proof. by vm_compute. Qed.

(** Two callers of [Close] at a time: the first is never woken. *)
Example second_waiter_strands_first :
  let c := foldl cb_step noCallbacks [CbBegin; CbWait; CbWait; CbEnd] in
  cbCount c = 0 /\ 0%nat ∉ cb_closed c /\ 1%nat ∈ cb_closed c.
Proof. split_and!; [done|decide_now|decide_now]. Qed.
End Toy.

Lemma serve_starts_witness :
  let '(r, s) := start Toy.cfg false (NewServer Toy.cfg) in
  r = Ok tt /\ (reapWindow s, pingEvery s, renegSec s, renegMinInterval s) =
    (60 * second, 10 * second, 3600 * second, 60 * second) /\ 2 * pingEvery s <= reapWindow s.
Proof.
  assert (Hn : forall n, c_Network Toy.cfg = Some n -> bytes_ok (IpPool.net_IP n))
    by (intros n [= <-]; decide_now).
  pose proof (serve_starts Toy.cfg false Hn) as H.
  assert (E : (start Toy.cfg false (NewServer Toy.cfg)).1 = Ok tt) by (vm_compute; reflexivity).
  assert (Es : (reapWindow (Toy.started Toy.cfg), pingEvery (Toy.started Toy.cfg), renegSec (Toy.started Toy.cfg),
     renegMinInterval (Toy.started Toy.cfg)) = (60 * second, 10 * second, 3600 * second, 60 * second))
    by (vm_compute; reflexivity).
  unfold Toy.started in Es. destruct (start Toy.cfg false (NewServer Toy.cfg)) as [r s]. cbn [fst snd] in E, Es. split; [done|]. split; [done|].
  destruct H as (_ & _ & H). destruct (H E) as (_ & _ & _ & _ & Hw & _). apply Hw. by injection Es as _ -> _ _.
Defined.
End Serve.
