(* ===== verification/Server.v ===== *)
(** * Server: the session tables, datagram routing and tunnel addresses

    Model of the part of [ovpn.go] that all sessions share: the table of sessions
    by client address and session id, the routes of data packets by peer-id, the
    address pool, the counters, and the handlers that run between the socket and
    the sessions.

    Sessions are objects of a heap, since a session that has left the tables still
    has goroutines.  A step is what one goroutine does between two points at which
    others can see the shared state: [handleDatagram] is a lookup, the
    authentication, and the delivery or the insertion, with a [job] in between; an
    address is assigned by a first reservation, the search for its holder, a second
    reservation, and the publication; what a teardown does to the pool and the table
    of sessions is carried out later, one entry of [e_todo] at a time, and when all of it
    is done the session looks whether it has been handed over and calls OnSessionClosed
    if so ([in_order]).  The bodies of
    the source's functions, run without interference, are compositions of the steps.

    Of a session's tls-crypt wrapper the receiving side matters here; [rand.Read] is
    an argument. *)

From stdpp Require Import gmap sorting.
From S2P Require Import Prelude Wire TlsCrypt Replay KeyDeriv DataChan Cipher IpPool Session SessionProps Serve.
Import IpPool Session.

Module Server.

(** ** Counters *)

Record serverStats := mkStats {
  handshakesStarted : Z;
  handshakesCompleted : Z;
  handshakesFailed : Z;
  handshakesTimedOut : Z;
  authFailed : Z;
  assignIPRejected : Z;
  poolExhausted : Z;
  datagramsRejected : Z;
  cipherNegotiationFailed : Z;
}.

Definition zeroStats : serverStats := mkStats 0 0 0 0 0 0 0 0 0.

Definition addStarted (s : serverStats) : serverStats :=
  mkStats (u64 (handshakesStarted s + 1)) (handshakesCompleted s) (handshakesFailed s) (handshakesTimedOut s)
    (authFailed s) (assignIPRejected s) (poolExhausted s) (datagramsRejected s) (cipherNegotiationFailed s).
Definition addRejected (s : serverStats) : serverStats :=
  mkStats (handshakesStarted s) (handshakesCompleted s) (handshakesFailed s) (handshakesTimedOut s)
    (authFailed s) (assignIPRejected s) (poolExhausted s) (u64 (datagramsRejected s + 1)) (cipherNegotiationFailed s).
Definition addAssignRejected (s : serverStats) : serverStats :=
  mkStats (handshakesStarted s) (handshakesCompleted s) (handshakesFailed s) (handshakesTimedOut s)
    (authFailed s) (u64 (assignIPRejected s + 1)) (poolExhausted s) (datagramsRejected s) (cipherNegotiationFailed s).
Definition addExhausted (s : serverStats) : serverStats :=
  mkStats (handshakesStarted s) (handshakesCompleted s) (handshakesFailed s) (handshakesTimedOut s)
    (authFailed s) (assignIPRejected s) (u64 (poolExhausted s + 1)) (datagramsRejected s) (cipherNegotiationFailed s).
Definition addOutcome (o : hs_outcome) (s : serverStats) : serverStats :=
  let up w v := if bool_decide (o = w) then u64 (v + 1) else v in
  mkStats (handshakesStarted s) (up HandshakesCompleted (handshakesCompleted s)) (up HandshakesFailed (handshakesFailed s))
    (up HandshakesTimedOut (handshakesTimedOut s)) (up AuthFailed (authFailed s)) (assignIPRejected s) (poolExhausted s)
    (datagramsRejected s) (up CipherNegotiationFailed (cipherNegotiationFailed s)).

(** ** Data *)

Definition inboundQueueSize : Z := 32.
Definition minDatagramSize : Z := OffCT.

(** The client's address, as a string, and its session id. *)
Definition sessionKey : Type := bytes * bytes.

(** How far the assignment of a tunnel address to a session has come: not begun; the
    address is taken and its holder is to be found; waiting for the teardown of the
    holder, if there is one; leased but not published; finished. *)
Inductive assignment :=
  | Unassigned | Looking (want : bytes) | Waiting (want : bytes) (old : option nat) | Leased (l : IpPool.lease) | Settled.

(** A call of [Config.AssignIP]; [AssignIP None]: no address. *)
Inductive assign_result := AssignIP (ip : option bytes) | AssignError | AssignPanic.

(** The error of [callAssignIP], or its address. *)
Definition callAssignIP (r : assign_result) : option (option bytes) :=
  match r with AssignIP ip => Some ip | AssignError | AssignPanic => None end.

(** What an assignment comes to. *)
Inductive assigned := Got (l : IpPool.lease) | InUse (want : bytes) | Refused.

(** Equality of [net.IP]. *)
Definition ip_Equal (a b : bytes) : bool :=
  match IpPool.to4 a, IpPool.to4 b with
  | Some a, Some b => bool_decide (a = b)
  | None, None => bool_decide (a = b)
  | _, _ => false
  end.

Section server.
Context {W : Type} `{!AntiReplay W} `{!DataChan.AEAD} `{!TLSCryptPrims}.

Record entry := mkEntry {
  e_key : sessionKey;
  e_SessionID : bytes;
  e_wrapper : TlsCrypt.Wrapper;
  e_inbound : list ControlPacket;
  e_state : Session.state (W := W);
  e_assign : assignment;
  e_todo : list action;
}.

(** A datagram in the hands of [handleDatagram]: looked up, for a known session or an
    unknown pair; authenticated, for a session or for a candidate for one. *)
Inductive job :=
  | Known (id : nat) (hdr : Header) (packet : bytes)
  | Fresh (addr : bytes) (hdr : Header) (packet : bytes)
  | Ready (id : nat) (cp : ControlPacket)
  | Candidate (e : entry) (cp : ControlPacket).

Record server := mkServer {
  sv_pool : option IpPool.ipPool;
  sv_heap : gmap nat entry;
  sv_next : nat;
  sv_sessions : gmap sessionKey nat;
  sv_dataSessions : gmap Z nat;
  sv_closed : bool;
  sv_stats : serverStats;
  sv_jobs : list job;
}.

Definition newServer (pool : option IpPool.ipPool) : server := mkServer pool ∅ 0 ∅ ∅ false zeroStats [].

Definition with_pool (p : option IpPool.ipPool) (v : server) : server :=
  mkServer p (sv_heap v) (sv_next v) (sv_sessions v) (sv_dataSessions v) (sv_closed v) (sv_stats v) (sv_jobs v).
Definition with_heap (h : gmap nat entry) (v : server) : server :=
  mkServer (sv_pool v) h (sv_next v) (sv_sessions v) (sv_dataSessions v) (sv_closed v) (sv_stats v) (sv_jobs v).
Definition with_sessions (m : gmap sessionKey nat) (v : server) : server :=
  mkServer (sv_pool v) (sv_heap v) (sv_next v) m (sv_dataSessions v) (sv_closed v) (sv_stats v) (sv_jobs v).
Definition with_routes (m : gmap Z nat) (v : server) : server :=
  mkServer (sv_pool v) (sv_heap v) (sv_next v) (sv_sessions v) m (sv_closed v) (sv_stats v) (sv_jobs v).
Definition with_jobs (j : list job) (v : server) : server :=
  mkServer (sv_pool v) (sv_heap v) (sv_next v) (sv_sessions v) (sv_dataSessions v) (sv_closed v) (sv_stats v) j.
Definition count (f : serverStats -> serverStats) (v : server) : server :=
  mkServer (sv_pool v) (sv_heap v) (sv_next v) (sv_sessions v) (sv_dataSessions v) (sv_closed v) (f (sv_stats v)) (sv_jobs v).

Definition put (id : nat) (e : entry) (v : server) : server := with_heap (<[id := e]> (sv_heap v)) v.

Definition e_sess (e : entry) : Session W := (e_state e).1.
Definition set_state (st : Session.state (W := W)) (e : entry) : entry :=
  mkEntry (e_key e) (e_SessionID e) (e_wrapper e) (e_inbound e) st (e_assign e) (e_todo e).
Definition set_tls (w : TlsCrypt.Wrapper) (e : entry) : entry :=
  mkEntry (e_key e) (e_SessionID e) w (e_inbound e) (e_state e) (e_assign e) (e_todo e).
Definition set_inbound (q : list ControlPacket) (e : entry) : entry :=
  mkEntry (e_key e) (e_SessionID e) (e_wrapper e) q (e_state e) (e_assign e) (e_todo e).
Definition set_assign (a : assignment) (e : entry) : entry :=
  mkEntry (e_key e) (e_SessionID e) (e_wrapper e) (e_inbound e) (e_state e) a (e_todo e).
Definition set_todo (l : list action) (e : entry) : entry :=
  mkEntry (e_key e) (e_SessionID e) (e_wrapper e) (e_inbound e) (e_state e) (e_assign e) l.

(** ** Carrying out what a session asks for *)

(** What the teardown leaves for later. *)
Definition later (a : action) : bool := match a with ReleaseLease _ _ | RemoveSession => true | _ => false end.

(** What happens along with the session's step: the route is dropped inside the
    session's critical section, a counter goes up. *)
Definition at_once (id : nat) (a : action) (v : server) : server :=
  match a with
  | DropRoute p =>
      if bool_decide (sv_dataSessions v !! p = Some id) then with_routes (delete p (sv_dataSessions v)) v else v
  | CountOutcome o => count (addOutcome o) v
  | _ => v
  end.

(** One step of session [id]; the actions that concern neither tables nor counters
    are the network's, the connections' and the embedder's. *)
Definition session_event (cfg : settings) (id : nat) (ev : event (W := W)) (v : server)
    : outcome DataChan.dc_error (server * list action) :=
  match sv_heap v !! id with
  | None => Ok (v, [])
  | Some e =>
      '(st, acts) ← exec cfg (e_state e) ev;
      Ok (foldl (fun v a => at_once id a v)
            (put id (set_todo (e_todo e ++ List.filter later acts) (set_state st e)) v) acts, acts)
  end.

(** [removeSession]. *)
Definition removeSession (id : nat) (key : sessionKey) (v : server) : server :=
  if bool_decide (sv_sessions v !! key = Some id) then with_sessions (delete key (sv_sessions v)) v else v.

(** The next thing the teardown of session [id] has left to do. *)
Definition do_next (id : nat) (v : server) : server :=
  match sv_heap v !! id with
  | None => v
  | Some e =>
      match e_todo e with
      | [] => v
      | a :: rest =>
          let v := put id (set_todo rest e) v in
          match a with
          | ReleaseLease ip peerID => with_pool ((fun p => IpPool.release p ip peerID) <$> sv_pool v) v
          | RemoveSession => removeSession id (e_key e) v
          | _ => v
          end
      end
  end.

(** [closeWithReason] to its end: its halves, what they leave, and the load of
    [published]. *)
Definition closeSession (cfg : settings) (r : CloseReason) (id : nat) (v : server) : outcome DataChan.dc_error (server * list action) :=
  '(v, a1) ← session_event cfg id (ECloseBegin r) v;
  '(v, a2) ← session_event cfg id ECloseEnd v;
  let n := match sv_heap v !! id with Some e => length (e_todo e) | None => 0%nat end in
  '(v, a3) ← session_event cfg id ECloseNotify (Nat.iter n (do_next id) v);
  Ok (v, a1 ++ a2 ++ a3).

(** ** Datagrams *)

(** The peer-id of a data packet. *)
Definition packetPeerID (packet : bytes) : outcome DataChan.dc_error Z :=
  b1 ← index packet 1; b2 ← index packet 2; b3 ← index packet 3;
  Ok (Z.lor (Z.lor (u32 (Z.shiftl b1 16)) (u32 (Z.shiftl b2 8))) b3).

Definition handleDataDatagram (cfg : settings) (now : Z) (pick : bool) (opcode : Z) (packet : bytes) (v : server)
    : outcome DataChan.dc_error (server * list (nat * action)) :=
  if negb (opcode =? OpDataV2) then Ok (count addRejected v, []) else
  if zlen packet <? 4 then Ok (count addRejected v, []) else
  peerID ← packetPeerID packet;
  match sv_dataSessions v !! peerID with
  | None => Ok (count addRejected v, [])
  | Some id => '(v, acts) ← session_event cfg id (EData now pick packet) v; Ok (v, map (pair id) acts)
  end.

(** [handleDatagram] up to its lookup; [None]: the datagram is dropped. *)
Definition lookup_datagram (addr packet : bytes) (v : server) : option job :=
  match packet with
  | [] => None
  | b :: _ =>
      if Serve.maxDatagramSize <? zlen packet then None else
      let '(opcode, keyID) := ParseHeaderByte b in
      if negb (ValidOpcode opcode) then None else
      if zlen packet <? minDatagramSize then None else
      let sid := take 8 (drop 1 packet) in
      let hdr := mkHeader opcode keyID sid in
      match sv_sessions v !! (addr, sid) with
      | Some id => Some (Known id hdr packet)
      | None =>
          if negb (opcode =? OpControlHardResetClientV2) || negb (keyID =? 0) then None
          else Some (Fresh addr hdr packet)
      end
  end.

(** [Unwrap] and [ParseControlPacket]: the packet, and the wrapper left behind. *)
Definition authenticate_control (w : TlsCrypt.Wrapper) (hdr : Header) (packet : bytes)
    : outcome wire_error (option ControlPacket) * TlsCrypt.Wrapper :=
  match Unwrap w [] packet with
  | (Panic, w) => (Panic, w)
  | (Err _, w) => (Ok None, w)
  | (Ok (_, plaintext), w) =>
      (match ParseControlPacket plaintext hdr with
       | Ok cp => Ok (Some cp)
       | Err _ => Ok None
       | Panic => Panic
       end, w)
  end.

(** The session built for an unknown pair. *)
Definition newEntry (key : sessionKey) (serverSID : bytes) (w : TlsCrypt.Wrapper) : entry :=
  mkEntry key serverSID w [] (newSession, ∅) Unassigned [].

(** The authentication; [None]: the datagram is dropped and counted. *)
Definition authenticate_job (tlsKey : bytes) (serverSID : option bytes) (j : job) (v : server)
    : outcome wire_error (server * option job) :=
  let drop v := (count addRejected v, None) in
  match j with
  | Known id hdr packet =>
      match sv_heap v !! id with
      | None => Ok (v, None)
      | Some e =>
          let '(r, w) := authenticate_control (e_wrapper e) hdr packet in
          let v := put id (set_tls w e) v in
          cp ← r; Ok (match cp with Some cp => (v, Some (Ready id cp)) | None => drop v end)
      end
  | Fresh addr hdr packet =>
      match NewWrapper tlsKey true, serverSID with
      | Ok w, Some serverSID =>
          let '(r, w) := authenticate_control w hdr packet in
          cp ← r;
          Ok (match cp with
              | Some cp => (v, Some (Candidate (newEntry (addr, hdr_SessionID hdr) serverSID w) cp))
              | None => drop v
              end)
      | _, _ => Ok (v, None)
      end
  | Ready _ _ | Candidate _ _ => Ok (v, Some j)
  end.

(** The [select] on the control queue; [pick] chooses [stopCh] where both are ready. *)
Definition enqueue (pick : bool) (id : nat) (cp : ControlPacket) (v : server) : server :=
  match sv_heap v !! id with
  | None => v
  | Some e =>
      let room := zlen (e_inbound e) <? inboundQueueSize in
      if room && negb (closing (e_sess e) && pick) then put id (set_inbound (e_inbound e ++ [cp]) e) v
      else count addRejected v
  end.

(** The delivery of an authenticated packet of session [id]. *)
Definition deliver_control (cfg : settings) (now : Z) (pick : bool) (id : nat) (cp : ControlPacket) (v : server)
    : outcome DataChan.dc_error (server * list (nat * action)) :=
  if cp_Opcode cp =? OpControlSoftResetV1
  then '(v, acts) ← session_event cfg id (ESoftReset now cp) v; Ok (v, map (pair id) acts)
  else Ok (enqueue pick id cp v, []).

(** The insertion of a candidate, or its packet's delivery to the session that won. *)
Definition insert_candidate (cfg : settings) (now : Z) (pick : bool) (e : entry) (cp : ControlPacket) (v : server)
    : outcome DataChan.dc_error (server * list (nat * action)) :=
  match sv_sessions v !! e_key e with
  | Some id => deliver_control cfg now pick id cp v
  | None =>
      let id := sv_next v in
      Ok (count addStarted
            (mkServer (sv_pool v) (<[id := e]> (sv_heap v)) (S id) (<[e_key e := id]> (sv_sessions v))
               (sv_dataSessions v) (sv_closed v) (sv_stats v) (sv_jobs v)),
          [(id, RespondOn 0 cp OpControlHardResetServerV2)])
  end.

Definition finish_job (cfg : settings) (now : Z) (pick : bool) (j : job) (v : server)
    : outcome DataChan.dc_error (server * list (nat * action)) :=
  match j with
  | Ready id cp => deliver_control cfg now pick id cp v
  | Candidate e cp => insert_candidate cfg now pick e cp v
  | Known _ _ _ | Fresh _ _ _ => Ok (v, [])
  end.

Definition as_dc {A : Type} (o : outcome wire_error A) : outcome DataChan.dc_error A :=
  match o with Ok a => Ok a | _ => Panic end.

(** A datagram of either channel as [handleDatagram] takes it, up to its lookup. *)
Definition arrive (cfg : settings) (now : Z) (pick : bool) (addr packet : bytes) (v : server)
    : outcome DataChan.dc_error (server * option job * list (nat * action)) :=
  match packet with
  | b :: _ =>
      if (zlen packet <=? Serve.maxDatagramSize) && Serve.is_data_opcode (ParseHeaderByte b).1
      then '(v, acts) ← handleDataDatagram cfg now pick (ParseHeaderByte b).1 packet v; Ok (v, None, acts)
      else match lookup_datagram addr packet v with
           | Some j => Ok (v, Some j, [])
           | None => Ok (count addRejected v, None, [])
           end
  | [] => Ok (count addRejected v, None, [])
  end.

(** [handleDatagram] without interference. *)
Definition handleDatagram (cfg : settings) (tlsKey : bytes) (serverSID : option bytes) (now : Z) (pick : bool)
    (addr packet : bytes) (v : server) : outcome DataChan.dc_error (server * list (nat * action)) :=
  '(v, j, acts) ← arrive cfg now pick addr packet v;
  match j with
  | None => Ok (v, acts)
  | Some j =>
      '(v, j) ← as_dc (authenticate_job tlsKey serverSID j v);
      match j with None => Ok (v, acts) | Some j => finish_job cfg now pick j v end
  end.

(** ** Tunnel addresses *)

Definition allocateFromPool (v : server) : assigned * server :=
  match sv_pool v with
  | None => (Refused, v)
  | Some p =>
      match IpPool.allocate p with
      | (Ok (ip, peerID), p) => (Got (IpPool.mkLease ip peerID), with_pool (Some p) v)
      | (_, p) => (Refused, count addExhausted (with_pool (Some p) v))
      end
  end.

(** [s.pool.reserve(want)] with the address as it is then used. *)
Definition reserve_want (want : bytes) (v : server) : outcome IpPool.pool_error IpPool.lease * server :=
  match sv_pool v with
  | None => (Panic, v)
  | Some p =>
      let '(r, p) := IpPool.reserve p want in
      (match r with
       | Ok peerID => Ok (IpPool.mkLease (default [] (IpPool.to4 want)) peerID)
       | Err e => Err e
       | Panic => Panic
       end, with_pool (Some p) v)
  end.

Definition count_refusal (e : IpPool.pool_error) (v : server) : server :=
  let v := count addAssignRejected v in
  if bool_decide (e = IpPool.ErrPoolExhausted) then count addExhausted v else v.

(** [assignTunnelIP] up to the first reservation; [hook]: [Config.AssignIP], if set,
    with what it does. *)
Definition assign_first (hook : option assign_result) (v : server) : assigned * server :=
  match hook with
  | None => allocateFromPool v
  | Some r =>
      match callAssignIP r with
      | None => (Refused, count addAssignRejected v)
      | Some None => allocateFromPool v
      | Some (Some want) =>
          match reserve_want want v with
          | (Ok l, v) => (Got l, v)
          | (Err e, v) => if bool_decide (e = IpPool.errAssignIPInUse) then (InUse want, v) else (Refused, count_refusal e v)
          | (Panic, v) => (Refused, v)
          end
      end
  end.

(** The second reservation. *)
Definition assign_retry (want : bytes) (v : server) : assigned * server :=
  match reserve_want want v with
  | (Ok l, v) => (Got l, v)
  | (Err e, v) => (Refused, count_refusal e v)
  | (Panic, v) => (Refused, v)
  end.

(** [order]: the order in which the sessions of the table are looked at. *)
Definition sessionByIP (order : list nat) (ip : bytes) (v : server) : option nat :=
  List.find (fun id =>
    match sv_heap v !! id with
    | Some e => match AssignedIP (e_sess e) with Some have => ip_Equal have ip | None => false end
    | None => false
    end) order.

Definition table_ids (v : server) : list nat := map snd (map_to_list (sv_sessions v)).

(** The session that has to go. *)
Definition holder (id : nat) (order : list nat) (want : bytes) (v : server) : option nat :=
  match sessionByIP order want v with
  | Some old => if bool_decide (old = id) then None else Some old
  | None => None
  end.

(** [assignTunnelIP] without interference. *)
Definition assignTunnelIP (cfg : settings) (hook : option assign_result) (order : list nat) (id : nat) (v : server)
    : outcome DataChan.dc_error (assigned * server * list (nat * action)) :=
  match assign_first hook v with
  | (InUse want, v) =>
      match holder id order want v with
      | Some old =>
          '(v, acts) ← closeSession cfg CloseReasonReplaced old v;
          Ok (assign_retry want v, map (pair old) acts)
      | None => Ok (assign_retry want v, [])
      end
  | r => Ok (r, [])
  end.

(** ** Publication *)

Definition giveUp (id : nat) (e : entry) (l : IpPool.lease) (v : server) : server :=
  with_pool ((fun p => IpPool.release p (IpPool.l_ip l) (IpPool.l_peerID l)) <$> sv_pool v)
    (put id (set_assign Settled e) v).

(** The part of [performPushExchange] behind the assignment: the data-channel wrapper
    and the publication of the lease, with the route of the peer-id, or its return. *)
Definition publish (cfg : settings) (now queue : Z) (id : nat) (v : server) : outcome DataChan.dc_error server :=
  match sv_heap v !! id with
  | None => Ok v
  | Some e =>
      match e_assign e with
      | Leased l =>
          match k_dataKeys (s_keys (e_sess e)) with
          | None => Panic
          | Some dataKeys =>
              match ServerSlots dataKeys (Cipher.cipherKeyLen (Session.Cipher (e_sess e))) with
              | Ok keys =>
                  match DataChan.NewWrapper keys (IpPool.l_peerID l) 0 with
                  | Panic => Panic
                  | Err _ => Ok (giveUp id e l v)
                  | Ok w =>
                      if closing (e_sess e) then Ok (giveUp id e l v) else
                      '(v, _) ← session_event cfg id
                                  (EPublishLease now (IpPool.l_ip l) (IpPool.l_peerID l) queue w)
                                  (put id (set_assign Settled e) v);
                      Ok (with_routes (<[IpPool.l_peerID l := id]> (sv_dataSessions v)) v)
                  end
              | _ => Panic
              end
          end
      | _ => Ok v
      end
  end.

(** ** What the embedder sees *)

(** A call of one of the embedder's callbacks: it returns, or it panics. *)
Inductive callback_result := Returned | Panicked.

(** [callOnSession], [callOnSessionClosed]: a panic is recovered and handed to
    [Config.OnSessionPanic], if set, with what that call does. *)
Definition callOnSession (f : callback_result) (onPanic : option callback_result) : outcome DataChan.dc_error unit :=
  match f, onPanic with Panicked, Some Panicked => Panic | _, _ => Ok tt end.

(** The token logged for a refused address. *)
Definition assignIPRejectReason (e : IpPool.pool_error) : bytes :=
  match e with
  | IpPool.errAssignIPNotIPv4 => of_string "not-ipv4"
  | IpPool.errAssignIPOutsideNetwork => of_string "outside-network"
  | IpPool.errAssignIPReserved => of_string "reserved-address"
  | IpPool.errAssignIPInUse => of_string "in-use"
  | IpPool.ErrPoolExhausted => of_string "pool-exhausted"
  | _ => of_string "unknown"
  end.

(** The order of the listing: by address alone. *)
Definition addr_le (a b : bytes * nat) : Prop := bytes_ordered a.1 b.1.

#[export] Instance addr_le_dec : RelDecision addr_le.
Proof. intros a b. unfold addr_le. apply _. Defined.

(** A session of the table as it is listed. *)
Definition listing (v : server) (id : nat) : option (bytes * nat) :=
  match sv_heap v !! id with
  | Some e =>
      if l_established (s_life (e_sess e)) && negb (closing (e_sess e))
      then Some (default [] (AssignedIP (e_sess e)), id) else None
  | None => None
  end.

Definition Sessions (order : list nat) (v : server) : list nat :=
  map snd (merge_sort addr_le (omap (listing v) order)).

(** The counters with the one gauge. *)
Definition Stats (order : list nat) (v : server) : Z * serverStats := (zlen (Sessions order v), sv_stats v).

(** ** Shutdown *)

(** [Close] up to its loop: the sessions it goes on to close. *)
Definition shutdown (v : server) : server * list nat :=
  (mkServer (sv_pool v) (sv_heap v) (sv_next v) (sv_sessions v) (sv_dataSessions v) true (sv_stats v) (sv_jobs v),
   table_ids v).

Fixpoint closeAll (cfg : settings) (ids : list nat) (v : server) : outcome DataChan.dc_error (server * list (nat * action)) :=
  match ids with
  | [] => Ok (v, [])
  | id :: ids =>
      '(v, a1) ← closeSession cfg CloseReasonServerClose id v;
      '(v, a2) ← closeAll cfg ids v;
      Ok (v, map (pair id) a1 ++ a2)
  end.

(** [Close] without interference; waiting for callbacks is [Serve]'s. *)
Definition Close (cfg : settings) (v : server) : outcome DataChan.dc_error (server * list (nat * action)) :=
  let '(v, ids) := shutdown v in closeAll cfg ids v.

(** ** The steps of the server *)

(** The steps of a session that are its own: the others come through the server. *)
Definition own_event (ev : event (W := W)) : bool :=
  match ev with
  | EData _ _ _ | ESoftReset _ _ | EPump _ _ | EPublishLease _ _ _ _ _ => false
  | _ => true
  end.

(** The load of [published] comes after what the teardown had left to do. *)
Definition in_order (id : nat) (ev : event (W := W)) (v : server) : bool :=
  match ev with
  | ECloseNotify => match sv_heap v !! id with Some e => bool_decide (e_todo e = []) | None => true end
  | _ => true
  end.

Inductive sevent :=
  | SArrive (now : Z) (pick : bool) (addr packet : bytes)
  | SAuth (j : nat) (serverSID : option bytes)
  | SFinish (now : Z) (pick : bool) (j : nat)
  | SPump (now : Z) (id : nat)
  | SSession (id : nat) (ev : event (W := W))
  | SLater (id : nat)
  | SAssign (id : nat) (hook : option assign_result)
  | SFind (id : nat) (order : list nat)
  | SRetry (id : nat)
  | SPublish (now : Z) (id : nat)
  | SClose.

(** What the assignment left behind. *)
Definition record_assigned (id : nat) (e : entry) (r : assigned * server) : server :=
  put id (set_assign (match r.1 with Got l => Leased l | InUse want => Looking want | Refused => Settled end) e) r.2.

(** The teardown of [old] has come to its end. *)
Definition gone (old : option nat) (v : server) : bool :=
  match old with
  | None => true
  | Some old =>
      match sv_heap v !! old with
      | Some o => l_ended (s_life (e_sess o)) && bool_decide (e_todo o = [])
      | None => true
      end
  end.

(** A step that is not enabled does nothing. *)
Definition sexec (cfg : settings) (tlsKey : bytes) (queue : Z) (v : server) (ev : sevent)
    : outcome DataChan.dc_error (server * list (nat * action)) :=
  match ev with
  | SArrive now pick addr packet =>
      '(v, j, acts) ← arrive cfg now pick addr packet v;
      Ok (with_jobs (sv_jobs v ++ option_list j) v, acts)
  | SAuth j serverSID =>
      match sv_jobs v !! j with
      | Some jb =>
          '(v, jb) ← as_dc (authenticate_job tlsKey serverSID jb v);
          Ok (with_jobs (delete j (sv_jobs v) ++ option_list jb) v, [])
      | None => Ok (v, [])
      end
  | SFinish now pick j =>
      match sv_jobs v !! j with
      | Some (Ready _ _ as jb) | Some (Candidate _ _ as jb) =>
          finish_job cfg now pick jb (with_jobs (delete j (sv_jobs v)) v)
      | _ => Ok (v, [])
      end
  | SPump now id =>
      match sv_heap v !! id with
      | Some e =>
          match e_inbound e with
          | cp :: rest =>
              '(v, acts) ← session_event cfg id (EPump now cp) (put id (set_inbound rest e) v);
              Ok (v, map (pair id) acts)
          | [] => Ok (v, [])
          end
      | None => Ok (v, [])
      end
  | SSession id ev =>
      if own_event ev && in_order id ev v then '(v, acts) ← session_event cfg id ev v; Ok (v, map (pair id) acts) else Ok (v, [])
  | SLater id => Ok (do_next id v, [])
  | SAssign id hook =>
      match sv_heap v !! id with
      | Some e =>
          match e_assign e, sv_pool v with
          | Unassigned, Some _ =>
              if bool_decide (Session.Cipher (e_sess e) = []) then Ok (v, [])
              else Ok (record_assigned id e (assign_first hook v), [])
          | _, _ => Ok (v, [])
          end
      | None => Ok (v, [])
      end
  | SFind id order =>
      match sv_heap v !! id with
      | Some e =>
          match e_assign e with
          | Looking want =>
              if negb (bool_decide (list_to_set (C := gset nat) order = list_to_set (table_ids v))) then Ok (v, []) else
              let old := holder id order want v in
              let v := put id (set_assign (Waiting want old) e) v in
              match old with
              | Some old => '(v, acts) ← session_event cfg old (ECloseBegin CloseReasonReplaced) v; Ok (v, map (pair old) acts)
              | None => Ok (v, [])
              end
          | _ => Ok (v, [])
          end
      | None => Ok (v, [])
      end
  | SRetry id =>
      match sv_heap v !! id with
      | Some e =>
          match e_assign e with
          | Waiting want old => if gone old v then Ok (record_assigned id e (assign_retry want v), []) else Ok (v, [])
          | _ => Ok (v, [])
          end
      | None => Ok (v, [])
      end
  | SPublish now id => v ← publish cfg now queue id v; Ok (v, [])
  | SClose => Ok ((shutdown v).1, [])
  end.

(** What callers guarantee: a session's own steps as in [Session], and addresses of
    bytes from the embedder. *)
Definition sevent_ok (v : server) (ev : sevent) : Prop :=
  match ev with
  | SSession id ev => forall e, sv_heap v !! id = Some e -> event_ok (e_sess e) ev
  | SAssign _ (Some (AssignIP (Some want))) => bytes_ok want
  | _ => True
  end.

Inductive sreachable (cfg : settings) (tlsKey : bytes) (queue : Z) (pool : option IpPool.ipPool) : server -> Prop :=
  | sreach_new : sreachable cfg tlsKey queue pool (newServer pool)
  | sreach_step v ev v' acts : sreachable cfg tlsKey queue pool v -> sevent_ok v ev ->
      sexec cfg tlsKey queue v ev = Ok (v', acts) -> sreachable cfg tlsKey queue pool v'.
End server.
End Server.
