(* ===== verification/ServerInv.v ===== *)
(** * ServerInv: the tables of the server are exact

    The invariant of [Server]: which sessions the tables list, which routes exist and
    who holds which lease, at every point between two steps; and that every step of
    every goroutine preserves it. *)

From stdpp Require Import gmap.
From S2P Require Import Prelude Wire TlsCrypt Replay KeyDeriv DataChan Cipher IpPool Session SessionProps Serve Server.
Import IpPool Session SessionProps Server.

Module ServerInv.

Section invariant.
Context {W : Type} `{!AntiReplay W} `{!DataChan.AEAD} `{!DataChan.AEADLaws} `{!TLSCryptPrims}.
Notation entry := (entry (W := W)).
Notation server := (server (W := W)).
Notation job := (job (W := W)).

(** ** The state of a session as the tables see it *)

Definition torn (e : entry) : bool := l_torn (s_life (e_sess e)).
Definition peer_of (e : entry) : Z := PeerID (e_sess e).

(** The table of sessions lists it: its removal is not behind it. *)
Definition listed (e : entry) : bool := negb (torn e) || negb (bool_decide (e_todo e = [])).

(** Data packets are routed to it. *)
Definition routed (e : entry) : bool := bool_decide (is_Some (AssignedIP (e_sess e))) && negb (torn e).

(** The lease it holds: reserved for it, or published and not yet given back. *)
Definition lease_of (e : entry) : option IpPool.lease :=
  match e_assign e with
  | Leased l => Some l
  | _ =>
      match AssignedIP (e_sess e) with
      | Some ip => if torn e && negb (existsb is_release (e_todo e)) then None else Some (IpPool.mkLease ip (peer_of e))
      | None => None
      end
  end.

(** It has been counted under an outcome. *)
Definition counted (e : entry) : bool := l_outcome (s_life (e_sess e)).

Record entry_ok (e : entry) : Prop := {
  eo_session : session_inv (e_state e);
  eo_keys : well_keyed (e_sess e);
  eo_todo : if torn e then e_todo e `suffix_of` released (e_sess e) ++ [RemoveSession] else e_todo e = [];
  eo_settled : is_Some (AssignedIP (e_sess e)) -> e_assign e = Settled;
  eo_begun : match e_assign e with
    | Unassigned | Settled => True
    | Looking want | Waiting want _ => Session.Cipher (e_sess e) <> [] /\ bytes_ok want
    | Leased _ => Session.Cipher (e_sess e) <> []
    end;
  eo_listed : addressed (e_sess e);
}.

(** ** Folding over the heap *)

Definition heap_bind {A : Type} (f : entry -> list A) (h : gmap nat entry) : list A :=
  map_to_list h ≫= (fun ie => f ie.2).

Lemma heap_bind_out {A : Type} (f : entry -> list A) (h : gmap nat entry) (id : nat) (e : entry) :
  h !! id = Some e -> heap_bind f h ≡ₚ f e ++ heap_bind f (delete id h).
Proof. intros He. unfold heap_bind. by rewrite <- (map_to_list_delete h id e) by done. Qed.

Lemma heap_bind_in {A : Type} (f : entry -> list A) (h : gmap nat entry) (id : nat) (e : entry) :
  heap_bind f (<[id := e]> h) ≡ₚ f e ++ heap_bind f (delete id h).
Proof.
  rewrite (heap_bind_out f _ id e) by apply lookup_insert_eq. by rewrite delete_insert_eq.
Qed.

Lemma elem_of_heap_bind {A : Type} (f : entry -> list A) (h : gmap nat entry) (a : A) :
  a ∈ heap_bind f h <-> exists id e, h !! id = Some e /\ a ∈ f e.
Proof.
  unfold heap_bind. rewrite list_elem_of_bind. split.
  - intros ([id e] & Ha & He%elem_of_map_to_list). by exists id, e.
  - intros (id & e & He & Ha). exists (id, e). split; [done|]. by apply elem_of_map_to_list.
Qed.

Definition leases (h : gmap nat entry) : list IpPool.lease := heap_bind (fun e => option_list (lease_of e)) h.
Definition settled (h : gmap nat entry) : Z := zlen (heap_bind (fun e => if counted e then [tt] else []) h).

(** ** The invariant *)

Definition pool_ok (p : option IpPool.ipPool) (ls : list IpPool.lease) : Prop :=
  match p with Some p => IpPool.lease_inv p ls | None => ls = [] end.

Definition outcomes (s : serverStats) : Z :=
  handshakesCompleted s + handshakesFailed s + handshakesTimedOut s + authFailed s + cipherNegotiationFailed s.

Definition fresh_entry (e : entry) : Prop := e_state e = (newSession, ∅) /\ e_assign e = Unassigned /\ e_todo e = [].

Record server_inv (v : server) : Prop := {
  vi_entry : forall id e, sv_heap v !! id = Some e -> entry_ok e;
  vi_fresh : forall id e, sv_heap v !! id = Some e -> (id < sv_next v)%nat;
  vi_table : forall k id, sv_sessions v !! k = Some id <->
    exists e, sv_heap v !! id = Some e /\ e_key e = k /\ listed e = true;
  vi_routes : forall p id, sv_dataSessions v !! p = Some id <->
    exists e, sv_heap v !! id = Some e /\ peer_of e = p /\ routed e = true;
  vi_pool : pool_ok (sv_pool v) (leases (sv_heap v));
  vi_jobs : Forall (fun j => match j with Candidate e _ => fresh_entry e | _ => True end) (sv_jobs v);
  vi_started : handshakesStarted (sv_stats v) = u64 (Z.of_nat (size (sv_heap v)));
  vi_outcomes : u64 (outcomes (sv_stats v)) = u64 (settled (sv_heap v));
}.

Lemma pool_ok_perm (p : option IpPool.ipPool) (ls ls' : list IpPool.lease) : ls ≡ₚ ls' -> pool_ok p ls -> pool_ok p ls'.
Proof.
  intros HP. destruct p as [p|]; cbn; [by apply IpPool.lease_inv_perm|]. intros ->. by apply Permutation_nil_l in HP.
Qed.

(** The lease of a routed session. *)
Lemma routed_lease (e : entry) :
  entry_ok e -> routed e = true -> exists ip, AssignedIP (e_sess e) = Some ip /\ lease_of e = Some (IpPool.mkLease ip (peer_of e)).
Proof.
  intros [_ _ _ Hs _ _] [Ha%bool_decide_eq_true Ht%negb_true_iff]%andb_true_iff. unfold lease_of. rewrite (Hs Ha), Ht.
  destruct Ha as [ip E]. exists ip. by rewrite E.
Qed.

(** Peer-ids of leases are distinct, so no other session is routed by that of [l]. *)
Lemma lease_route_free (v : server) (id id' : nat) (p : option IpPool.ipPool) (l : IpPool.lease) (e' : entry) :
  server_inv v -> pool_ok p (l :: leases (delete id (sv_heap v))) -> id' <> id -> sv_heap v !! id' = Some e' ->
  routed e' = true -> peer_of e' <> IpPool.l_peerID l.
Proof.
  intros Hv Hp Hne He Hr E. destruct (routed_lease e' (vi_entry v Hv _ _ He) Hr) as (ip & _ & Hl).
  destruct p as [p|]; [|done]. destruct (IpPool.li_peers _ _ Hp) as (Hnd & _). cbn in Hnd.
  apply NoDup_cons in Hnd as [Hnd _]. apply Hnd. rewrite <- E. apply list_elem_of_fmap.
  exists (IpPool.mkLease ip (peer_of e')). split; [done|]. apply elem_of_heap_bind. exists id', e'.
  rewrite lookup_delete_ne by done. split; [done|]. rewrite Hl. apply list_elem_of_here.
Qed.

Definition one_if (b : bool) : Z := if b then 1 else 0.

Lemma settled_update (h : gmap nat entry) (id : nat) (e e' : entry) :
  h !! id = Some e -> settled (<[id := e']> h) = settled h + one_if (counted e') - one_if (counted e).
Proof.
  intros He. unfold settled, zlen.
  rewrite (Permutation_length (heap_bind_in _ h id e')), (Permutation_length (heap_bind_out _ h id e He)), !length_app.
  destruct (counted e), (counted e'); cbn [length one_if]; lia.
Qed.

(** A step changes one session, and the tables along with it. *)
Record table_change (v v' : server) (id : nat) (e e' : entry) : Prop := {
  tc_heap : sv_heap v' = <[id := e']> (sv_heap v);
  tc_next : sv_next v' = sv_next v;
  tc_key : e_key e' = e_key e;
  tc_table : (listed e' = listed e /\ sv_sessions v' = sv_sessions v) \/
    (listed e = true /\ listed e' = false /\ sv_sessions v' = delete (e_key e) (sv_sessions v));
  tc_routes : (routed e' = routed e /\ peer_of e' = peer_of e /\ sv_dataSessions v' = sv_dataSessions v) \/
    (routed e = true /\ routed e' = false /\ sv_dataSessions v' = delete (peer_of e) (sv_dataSessions v)) \/
    (routed e = false /\ routed e' = true /\ sv_dataSessions v' = <[peer_of e' := id]> (sv_dataSessions v));
  tc_pool : pool_ok (sv_pool v') (option_list (lease_of e') ++ leases (delete id (sv_heap v)));
  tc_jobs : Forall (fun j => match j with Candidate e _ => fresh_entry e | _ => True end) (sv_jobs v');
  tc_started : handshakesStarted (sv_stats v') = handshakesStarted (sv_stats v);
  tc_outcomes : u64 (outcomes (sv_stats v')) =
    u64 (outcomes (sv_stats v) + one_if (counted e') - one_if (counted e));
}.

Lemma change_table (v v' : server) (id : nat) (e e' : entry) :
  server_inv v -> sv_heap v !! id = Some e -> table_change v v' id e e' ->
  forall k i, sv_sessions v' !! k = Some i <-> exists e, sv_heap v' !! i = Some e /\ e_key e = k /\ listed e = true.
Proof.
  intros Hv He C k i. pose proof (vi_table v Hv) as HT. rewrite (tc_heap _ _ _ _ _ C).
  assert (Hself : listed e = true -> sv_sessions v !! e_key e = Some id) by (intros Hl; apply HT; by exists e).
  destruct (decide (i = id)) as [->|Hne].
  - rewrite lookup_insert_eq. destruct (tc_table _ _ _ _ _ C) as [(Hl & ->)|(Hl & Hl' & ->)].
    + rewrite HT, He. pose proof (tc_key _ _ _ _ _ C). split; intros (x & [= <-] & Hk & Hx); eexists; split_and!; try done; congruence.
    + split; [|intros (x & [= <-] & _ & Hx); congruence]. intros [Hk HS]%lookup_delete_Some. apply HT in HS as (x & Hx & Hkx & _).
      rewrite He in Hx. by injection Hx as <-.
  - rewrite lookup_insert_ne by done. destruct (tc_table _ _ _ _ _ C) as [(Hl & ->)|(Hl & Hl' & ->)]; [apply HT|].
    rewrite lookup_delete_Some, HT. split; [tauto|]. intros Hx. split; [|done]. intros <-.
    apply HT in Hx. rewrite (Hself Hl) in Hx. congruence.
Qed.

Lemma change_routes (v v' : server) (id : nat) (e e' : entry) :
  server_inv v -> entry_ok e' -> sv_heap v !! id = Some e -> table_change v v' id e e' ->
  forall p i, sv_dataSessions v' !! p = Some i <-> exists e, sv_heap v' !! i = Some e /\ peer_of e = p /\ routed e = true.
Proof.
  intros Hv Hok He C p i. pose proof (vi_routes v Hv) as HR. rewrite (tc_heap _ _ _ _ _ C).
  destruct (tc_routes _ _ _ _ _ C) as [(R1 & R2 & ->)|[(R1 & R2 & ->)|(R1 & R2 & ->)]].
  - destruct (decide (i = id)) as [->|Hne]; [|by rewrite lookup_insert_ne, HR].
    rewrite lookup_insert_eq, HR, He. split; intros (x & [= <-] & Hk & Hx); eexists; split_and!; try done; congruence.
  - rewrite lookup_delete_Some. destruct (decide (i = id)) as [->|Hne].
    + rewrite lookup_insert_eq. split; [|intros (x & [= <-] & _ & Hx); congruence].
      intros [Hk HS]. apply HR in HS as (x & Hx & Hkx & _). rewrite He in Hx. by injection Hx as <-.
    + rewrite lookup_insert_ne, HR by done. split; [tauto|]. intros Hx. split; [|done]. intros <-.
      assert (Hs : sv_dataSessions v !! peer_of e = Some id) by (apply HR; by exists e).
      apply HR in Hx. congruence.
  - destruct (routed_lease e' Hok R2) as (ip & _ & Hl).
    assert (Hfree : forall i' x, i' <> id -> sv_heap v !! i' = Some x -> routed x = true -> peer_of x <> peer_of e').
    { intros i' x Hne Hx Hrx. pose proof (tc_pool _ _ _ _ _ C) as HP. rewrite Hl in HP.
      by apply (lease_route_free v id i' _ _ x Hv HP). }
    rewrite lookup_insert_Some. destruct (decide (i = id)) as [->|Hne].
    + rewrite lookup_insert_eq. split; [|intros (x & [= <-] & <- & _); by left].
      intros [(<- & _)|(_ & HS)]; [by exists e'|]. apply HR in HS as (x & Hx & _ & Hrx). rewrite He in Hx. injection Hx as <-. congruence.
    + rewrite lookup_insert_ne by done. split.
      * intros [(_ & ?)|(_ & HS)]; [done|]. by apply HR.
      * intros (x & Hx & <- & Hrx). right. split; [apply not_eq_sym; by apply (Hfree i)|]. apply HR. by exists x.
Qed.

Lemma change_inv (v v' : server) (id : nat) (e e' : entry) :
  server_inv v -> sv_heap v !! id = Some e -> entry_ok e' -> table_change v v' id e e' -> server_inv v'.
Proof.
  intros Hv He Hok C. constructor.
  - intros i x. rewrite (tc_heap _ _ _ _ _ C), lookup_insert_Some. intros [(_ & <-)|(_ & Hx)]; [done|]. by apply (vi_entry v Hv i).
  - intros i x. rewrite (tc_heap _ _ _ _ _ C), (tc_next _ _ _ _ _ C), lookup_insert_Some.
    intros [(<- & _)|(_ & Hx)]; by eapply (vi_fresh v Hv).
  - by eapply change_table.
  - by eapply change_routes.
  - rewrite (tc_heap _ _ _ _ _ C). eapply pool_ok_perm; [|apply (tc_pool _ _ _ _ _ C)].
    symmetry. apply (heap_bind_in (fun e => option_list (lease_of e))).
  - apply (tc_jobs _ _ _ _ _ C).
  - rewrite (tc_heap _ _ _ _ _ C), map_size_insert_Some, (tc_started _ _ _ _ _ C) by done. apply (vi_started v Hv).
  - rewrite (tc_heap _ _ _ _ _ C), (tc_outcomes _ _ _ _ _ C), (settled_update _ _ e) by done.
    pose proof (vi_outcomes v Hv) as HO. unfold u64 in *. rewrite Zminus_mod, Zplus_mod, HO, <- Zplus_mod, <- Zminus_mod. done.
Qed.

(** ** A session's step *)

Lemma filter_sub (f g : action -> bool) (l : list action) :
  (forall a, g a = true -> f a = true) -> List.filter g (List.filter f l) = List.filter g l.
Proof.
  intros Hfg. induction l as [|a l IH]; [done|]. cbn [List.filter]. destruct (f a) eqn:Ef; cbn [List.filter]; rewrite IH; [done|].
  destruct (g a) eqn:Eg; [|done]. rewrite (Hfg a Eg) in Ef. done.
Qed.

(** What the actions carried out at once come to. *)
Definition drop_route (id : nat) (m : gmap Z nat) (a : action) : gmap Z nat :=
  match a with DropRoute p => if bool_decide (m !! p = Some id) then delete p m else m | _ => m end.
Definition add_outcome (s : serverStats) (a : action) : serverStats :=
  match a with CountOutcome o => addOutcome o s | _ => s end.

Lemma at_once_all (id : nat) (acts : list action) (v : server) :
  foldl (fun v a => at_once id a v) v acts =
  mkServer (sv_pool v) (sv_heap v) (sv_next v) (sv_sessions v)
    (foldl (drop_route id) (sv_dataSessions v) (List.filter is_drop acts)) (sv_closed v)
    (foldl add_outcome (sv_stats v) (List.filter is_outcome acts)) (sv_jobs v).
Proof.
  revert v. induction acts as [|a acts IH]; intros v; [by destruct v|]. cbn [foldl List.filter]. rewrite IH.
  destruct a; try done. cbn. by destruct (bool_decide _).
Qed.

Lemma outcomes_add (o : hs_outcome) (s : serverStats) : u64 (outcomes (addOutcome o s)) = u64 (outcomes s + 1).
Proof. unfold outcomes, addOutcome, u64. destruct o; cbn; repeat (case_bool_decide; try done); Z.div_mod_to_equations; lia. Qed.

(** A step other than a publication, as the tables see it. *)
Lemma step_tables (cfg : settings) (e : entry) (ev : event (W := W)) (st : Session.state) (acts : list action) :
  entry_ok e -> publishes_lease ev = false -> event_ok (e_sess e) ev -> exec cfg (e_state e) ev = Ok (st, acts) ->
  let e' := set_todo (e_todo e ++ List.filter later acts) (set_state st e) in
  entry_ok e' /\ listed e' = listed e /\ peer_of e' = peer_of e /\ lease_of e' = lease_of e /\
  ((routed e' = routed e /\ (List.filter is_drop acts = [] \/ (routed e = false /\ List.filter is_drop acts = [DropRoute (peer_of e)]))) \/
   (routed e = true /\ routed e' = false /\ List.filter is_drop acts = [DropRoute (peer_of e)])) /\
  ((counted e' = counted e /\ List.filter is_outcome acts = []) \/
   (counted e = false /\ counted e' = true /\ exists o, List.filter is_outcome acts = [CountOutcome o])).
Proof.
  intros Hok Hp Hev Hx e'. destruct Hok as [Hs Hk Ht Ha Hb Hl0].
  assert (Hs' : session_inv st).
  { destruct (session_exec_ok cfg (e_state e) ev Hs Hev) as (st1 & a1 & E1 & G1). congruence. }
  destruct (exec_well_keyed cfg _ _ _ _ Hev Hx) as [Hk' Hc'].
  pose proof (exec_lstep cfg _ _ _ _ Hx) as Hl. rewrite Hp in Hl.
  pose proof (lstep_lease _ _ _ _ _ Hl) as [Hla Hlp]. pose proof (lstep_outcome _ _ _ _ _ _ Hl) as Ho.
  pose proof (lstep_tables _ _ _ _ _ _ Hl) as [_ Htab]. pose proof (lstep_addressed _ _ _ _ _ _ Hl Hl0) as Hl1.
  assert (Hdrop : List.filter is_drop (List.filter is_table acts) = List.filter is_drop acts)
    by (apply filter_sub; intros a; by destruct a).
  assert (Hlater : List.filter later (List.filter is_table acts) = List.filter later acts)
    by (apply filter_sub; intros a; by destruct a).
  assert (Hrel : released st.1 = released (e_sess e)) by (unfold released; by rewrite Hla, Hlp).
  unfold e', listed, lease_of, peer_of, routed, counted, torn, e_sess in *. cbn [set_todo set_state e_state e_todo e_assign fst].
  destruct Htab as [(Et & Ef)|(Et & Et' & Ec & drop & Ef & Hd & Hd')]; rewrite Ef in Hdrop, Hlater.
  - cbn in Hdrop, Hlater. rewrite <- Hdrop, <- Hlater, app_nil_r, Hla, Hlp, Et.
    split; [|split_and!; try done; by left; split; [|left]].
    + constructor; unfold torn, e_sess; cbn [set_todo set_state e_state e_todo e_assign]; try by auto.
      * rewrite Et. destruct (l_torn _); [|done]. by rewrite Hrel.
      * rewrite Hla. apply Ha.
      * destruct (e_assign e); naive_solver.
  - rewrite Et in Ht. rewrite Ht, Hla, Hlp, Et, Et'. cbn [app].
    assert (Hlat : List.filter later acts = released (e_state e).1 ++ [RemoveSession]).
    { rewrite <- Hlater, !List.filter_app, Hrel. unfold released. destruct Hd as [->| ->]; by destruct (AssignedIP (e_state e).1). }
    assert (Hdr : List.filter is_drop acts = drop).
    { rewrite <- Hdrop, !List.filter_app. unfold released. destruct Hd as [->| ->]; by destruct (AssignedIP st.1). }
    rewrite Hlat, Hdr. split; [|split_and!].
    + constructor; unfold torn, e_sess; cbn [set_todo set_state e_state e_todo e_assign]; try by auto.
      * rewrite Et'. unfold released, e_sess in *. cbn [fst set_state e_state]. by rewrite Hrel.
      * rewrite Hla. apply Ha.
      * destruct (e_assign e); naive_solver.
    + rewrite bool_decide_eq_false_2; [done|]. by destruct (released (e_state e).1).
    + done.
    + destruct (e_assign e); try done; destruct (AssignedIP (e_state e).1) as [ip|] eqn:Eip; try done;
        rewrite existsb_filter, List.filter_app; unfold released; by rewrite Eip.
    + rewrite !andb_false_r, !andb_true_r. destruct (AssignedIP (e_state e).1) as [ip|] eqn:Eip.
      * right. assert (Hw : keyed (e_state e).1).
        { pose proof (proj1 (si_lease _ Hs)) as G1. rewrite Eip in G1. specialize (G1 ltac:(by eexists)).
          pose proof (ki_primary _ _ _ _ (si_keys _ Hs)) as G2. destruct (ks_conn _); [by destruct G2|by destruct G1]. }
        rewrite (Hd' Hw), Hlp. by split_and!.
      * left. rewrite bool_decide_eq_false_2 by (by intros [? ?]). split; [done|]. rewrite <- Hlp. destruct Hd as [->| ->]; auto.
    + destruct Ho as [(? & ?)|(? & ? & ?)]; [by left|by right].
Qed.

Lemma vi_outcome_step (s : serverStats) (acts : list action) (c c' : bool) :
  (c' = c /\ List.filter is_outcome acts = []) \/
    (c = false /\ c' = true /\ exists o, List.filter is_outcome acts = [CountOutcome o]) ->
  let s' := foldl add_outcome s (List.filter is_outcome acts) in
  handshakesStarted s' = handshakesStarted s /\ u64 (outcomes s') = u64 (outcomes s + one_if c' - one_if c).
Proof.
  intros [(-> & ->)|(-> & -> & o & ->)]; cbn [foldl add_outcome one_if].
  - split; [done|]. f_equal. lia.
  - split; [done|]. rewrite outcomes_add. f_equal. lia.
Qed.

Lemma session_event_inv (cfg : settings) (id : nat) (ev : event (W := W)) (v v' : server) (acts : list action) :
  server_inv v -> publishes_lease ev = false -> (forall e, sv_heap v !! id = Some e -> event_ok (e_sess e) ev) ->
  session_event cfg id ev v = Ok (v', acts) -> server_inv v'.
Proof.
  intros Hv Hp Hev. unfold session_event. destruct (sv_heap v !! id) as [e|] eqn:He; [|by intros [= <- <-]].
  destruct (exec cfg (e_state e) ev) as [[st a]| |] eqn:Ex; outcome_simpl; [|done..]. intros [= <- <-].
  pose proof (vi_entry v Hv id e He) as Hok.
  destruct (step_tables cfg e ev st a Hok Hp (Hev e eq_refl) Ex) as (Hok' & Hl & Hpe & Hle & Hr & Ho).
  rewrite at_once_all. apply (change_inv v _ id e _ Hv He Hok').
  destruct (vi_outcome_step (sv_stats v) a _ _ Ho) as [Hst Hou]. pose proof (vi_routes v Hv) as HR.
  constructor; cbn; try done; [by left| | |apply (vi_jobs v Hv)].
  - destruct Hr as [(Hr & [->|(Hf & ->)])|(Hr & Hr' & ->)]; cbn; [by left| |].
    + left. split_and!; [done|done|]. rewrite bool_decide_eq_false_2; [done|]. intros HS%HR.
      destruct HS as (x & Hx & _ & Hrx). rewrite He in Hx. injection Hx as <-. congruence.
    + right. left. split_and!; [done|done|]. rewrite bool_decide_eq_true_2; [done|]. apply HR. by exists e.
  - rewrite Hle. eapply pool_ok_perm; [|apply (vi_pool v Hv)]. apply (heap_bind_out (fun e => option_list (lease_of e)) _ id e He).
Qed.

(** What does not concern the tables. *)
Lemma put_inv (v : server) (id : nat) (e e' : entry) :
  server_inv v -> sv_heap v !! id = Some e -> e_state e' = e_state e -> e_assign e' = e_assign e -> e_todo e' = e_todo e ->
  e_key e' = e_key e -> server_inv (put id e' v).
Proof.
  intros Hv He Es Ea Et Ek. pose proof (vi_entry v Hv id e He) as [O1 O2 O3 O4 O5 O6].
  assert (Hl : listed e' = listed e /\ routed e' = routed e /\ peer_of e' = peer_of e /\ lease_of e' = lease_of e /\ counted e' = counted e)
    by (unfold listed, routed, lease_of, peer_of, counted, torn, e_sess; by rewrite Es, Ea, Et).
  destruct Hl as (L1 & L2 & L3 & L4 & L5). apply (change_inv v _ id e e' Hv He).
  - constructor; unfold torn, e_sess in *; by rewrite ?Es, ?Ea, ?Et.
  - constructor; cbn; try done; [by left|by left| |apply (vi_jobs v Hv)|rewrite L5; f_equal; lia].
    rewrite L4. eapply pool_ok_perm; [|apply (vi_pool v Hv)]. apply (heap_bind_out (fun e => option_list (lease_of e)) _ id e He).
Qed.

(** Counters of no handshake. *)
Lemma count_inv (f : serverStats -> serverStats) (v : server) :
  (forall s, handshakesStarted (f s) = handshakesStarted s /\ outcomes (f s) = outcomes s) ->
  server_inv v -> server_inv (count f v).
Proof.
  intros Hf [G1 G2 G3 G4 G5 G6 G7 G8]. destruct (Hf (sv_stats v)) as [F1 F2]. by constructor; cbn; rewrite ?F1, ?F2.
Qed.

Lemma jobs_inv (v : server) (js : list job) :
  Forall (fun j => match j with Candidate e _ => fresh_entry e | _ => True end) js -> server_inv v -> server_inv (with_jobs js v).
Proof. intros Hj [G1 G2 G3 G4 G5 G6 G7 G8]. by constructor. Qed.

(** ** What a teardown leaves for later *)

Lemma suffix_cases (s : Session W) (l : list action) :
  l `suffix_of` released s ++ [RemoveSession] ->
  l = [] \/ l = [RemoveSession] \/ (exists ip, AssignedIP s = Some ip /\ l = [ReleaseLease ip (PeerID s); RemoveSession]).
Proof.
  unfold released. intros [k E]. destruct (AssignedIP s) as [ip|]; cbn in E.
  - destruct k as [|a [|b [|c k]]]; cbn in E.
    + right. right. by exists ip.
    + injection E as <- <-. by right; left.
    + injection E as <- <- <-. by left.
    + injection E as <- <- E. by destruct k.
  - destruct k as [|a [|b k]]; cbn in E.
    + by right; left.
    + injection E as <- <-. by left.
    + injection E as <- E. by destruct k.
Qed.

Lemma counted_set_todo (l : list action) (e : entry) : counted (set_todo l e) = counted e.
Proof. done. Qed.

Lemma do_next_inv (v : server) (id : nat) : server_inv v -> server_inv (do_next id v).
Proof.
  intros Hv. unfold do_next. destruct (sv_heap v !! id) as [e|] eqn:He; [|done].
  pose proof (vi_entry v Hv id e He) as [O1 O2 O3 O4 O5 O6]. pose proof (vi_table v Hv) as HT.
  destruct (torn e) eqn:Et; [|by rewrite O3].
  assert (Hr : forall l, routed (set_todo l e) = routed e) by done.
  assert (Hnr : routed e = false) by (unfold routed; rewrite Et; by rewrite andb_false_r).
  destruct (suffix_cases _ _ O3) as [E|[E|(ip & Eip & E)]]; rewrite E; [done| |].
  - apply (change_inv v _ id e (set_todo [] e) Hv He).
    + constructor; try done. unfold torn, e_sess in *. cbn. rewrite Et. by exists (released (e_state e).1 ++ [RemoveSession]); rewrite app_nil_r.
    + assert (Hin : sv_sessions v !! e_key e = Some id).
      { apply HT. exists e. split_and!; [done|done|]. unfold listed. by rewrite E, Et. }
      unfold removeSession. cbn [put with_heap sv_sessions]. rewrite bool_decide_eq_true_2 by done.
      constructor; cbn; try done.
      * right. split_and!; [unfold listed; by rewrite E, Et| |done]. unfold listed. change (torn (set_todo [] e)) with (torn e). by rewrite Et.
      * by left.
      * assert (Hle : lease_of (set_todo [] e) = lease_of e).
        { unfold lease_of. change (torn (set_todo [] e)) with (torn e). by rewrite E, Et. }
        rewrite Hle. eapply pool_ok_perm; [|apply (vi_pool v Hv)]. apply (heap_bind_out (fun e => option_list (lease_of e)) _ id e He).
      * apply (vi_jobs v Hv).
      * rewrite counted_set_todo. f_equal. lia.
  - apply (change_inv v _ id e (set_todo [RemoveSession] e) Hv He).
    + constructor; try done. unfold torn, e_sess in *. cbn. rewrite Et. unfold released. rewrite Eip. by exists [ReleaseLease ip (PeerID (e_state e).1)].
    + constructor; cbn; try done.
      * left. split; [|done]. unfold listed. change (torn (set_todo [RemoveSession] e)) with (torn e). by rewrite E, Et.
      * by left.
      * assert (Ea : e_assign e = Settled) by (apply O4; by eexists).
        assert (Hle : lease_of e = Some (IpPool.mkLease ip (peer_of e))).
        { unfold lease_of. rewrite Ea, Eip, Et, E. done. }
        assert (Hle' : lease_of (set_todo [RemoveSession] e) = None).
        { unfold lease_of. change (torn (set_todo [RemoveSession] e)) with (torn e). change (e_assign (set_todo [RemoveSession] e)) with (e_assign e).
          change (e_sess (set_todo [RemoveSession] e)) with (e_sess e). by rewrite Ea, Eip, Et. }
        rewrite Hle'. pose proof (vi_pool v Hv) as HP. unfold leases in HP.
        eapply pool_ok_perm in HP; [|apply (heap_bind_out _ _ id e He)]. cbv beta in HP. rewrite Hle in HP.
        destruct (sv_pool v) as [p|]; [|done]. cbn in HP |- *. by apply (IpPool.lease_inv_release p []) in HP.
      * apply (vi_jobs v Hv).
      * rewrite counted_set_todo. f_equal. lia.
Qed.

(** ** Assignment *)

(** Only the pool and the counters of the assignment change. *)
Record pool_change (v v' : server) (l l' : list IpPool.lease) : Prop := {
  pc_heap : sv_heap v' = sv_heap v;
  pc_next : sv_next v' = sv_next v;
  pc_sessions : sv_sessions v' = sv_sessions v;
  pc_routes : sv_dataSessions v' = sv_dataSessions v;
  pc_jobs : sv_jobs v' = sv_jobs v;
  pc_started : handshakesStarted (sv_stats v') = handshakesStarted (sv_stats v);
  pc_outcomes : outcomes (sv_stats v') = outcomes (sv_stats v);
  pc_closed : sv_closed v' = sv_closed v;
  pc_pool : pool_ok (sv_pool v) l -> pool_ok (sv_pool v') l';
}.

(** The lease a result carries. *)
Definition got (r : assigned) : list IpPool.lease := match r with Got l => [l] | _ => [] end.

Lemma allocateFromPool_change (v : server) (l : list IpPool.lease) :
  pool_ok (sv_pool v) l ->
  let r := allocateFromPool v in pool_change v r.2 l (got r.1 ++ l) /\ forall w, r.1 <> InUse w.
Proof.
  intros Hp. unfold allocateFromPool. destruct (sv_pool v) as [p|] eqn:Ep; [|by split; [constructor|]].
  destruct (IpPool.allocate p) as [[[ip id]|e|] p'] eqn:Ea; cbn [fst snd].
  - split; [|done]. constructor; try done. intros _. cbn in *.
    by apply (IpPool.pool_step_inv _ _ (IpPool.step_allocate p l ip id p' Ea)).
  - split; [|done]. constructor; try done. cbn in *. intros _.
    by apply (IpPool.pool_step_inv _ _ (IpPool.step_allocate_fail p l e p' Ea)).
  - cbn in Hp. pose proof (IpPool.allocate_cases p (IpPool.li_wf _ _ Hp)) as HC. by rewrite Ea in HC.
Qed.

Lemma reserve_want_change (want : bytes) (v : server) (l : list IpPool.lease) :
  bytes_ok want -> pool_ok (sv_pool v) l -> sv_pool v <> None ->
  match reserve_want want v with
  | (Ok le, v') => pool_change v v' l (le :: l)
  | (Err e, v') => pool_change v v' l l
  | (Panic, _) => False
  end.
Proof.
  intros Hb Hp Hn. unfold reserve_want. destruct (sv_pool v) as [p|] eqn:Ep; [|done]. cbn in Hp.
  pose proof (IpPool.reserve_cases p want (IpPool.li_wf _ _ Hp) Hb) as HC.
  destruct (IpPool.reserve p want) as [[id|e|] p'] eqn:Er; [| |done].
  - constructor; try done. intros _. cbn.
    by apply IpPool.lease_inv_to4, (IpPool.pool_step_inv _ _ (IpPool.step_reserve p l want id p' Hb Er)).
  - constructor; try done. cbn. intros _. by subst p'.
Qed.

Lemma count_refusal_change (e : IpPool.pool_error) (v v' : server) (l l' : list IpPool.lease) :
  pool_change v v' l l' -> pool_change v (count_refusal e v') l l'.
Proof. intros [G1 G2 G3 G4 G5 G6 G7 G8 G9]. unfold count_refusal. case_bool_decide; by constructor. Qed.

Lemma assign_retry_change (want : bytes) (v : server) (l : list IpPool.lease) :
  bytes_ok want -> pool_ok (sv_pool v) l -> sv_pool v <> None ->
  let r := assign_retry want v in pool_change v r.2 l (got r.1 ++ l) /\ forall w, r.1 <> InUse w.
Proof.
  intros Hb Hp Hn. pose proof (reserve_want_change want v l Hb Hp Hn) as Hr. unfold assign_retry.
  destruct (reserve_want want v) as [[le|e|] v']; [by split|split; [by apply count_refusal_change|done]|done].
Qed.

Lemma assign_first_change (hook : option assign_result) (v : server) (l : list IpPool.lease) :
  match hook with Some (AssignIP (Some want)) => bytes_ok want | _ => True end ->
  pool_ok (sv_pool v) l -> sv_pool v <> None ->
  let r := assign_first hook v in
  pool_change v r.2 l (got r.1 ++ l) /\ forall w, r.1 = InUse w -> bytes_ok w.
Proof.
  intros Hb Hp Hn. pose proof (allocateFromPool_change v l Hp) as [HA HA'].
  assert (Hal : pool_change v (allocateFromPool v).2 l (got (allocateFromPool v).1 ++ l) /\
    forall w, (allocateFromPool v).1 = InUse w -> bytes_ok w) by (split; [done|]; by intros w ?%HA').
  destruct hook as [[[want|]| |]|]; cbn [assign_first callAssignIP]; try done.
  - pose proof (reserve_want_change want v l Hb Hp Hn) as Hr.
    destruct (reserve_want want v) as [[le|e|] v']; [done| |done].
    case_bool_decide; cbn [fst snd got app]; [by split; [|intros w [= <-]]|]. split; [by apply count_refusal_change|done].
Qed.

(** The result of an assignment recorded with a session that holds no lease. *)
Lemma record_assigned_inv (v : server) (id : nat) (e : entry) (r : assigned * server) :
  server_inv v -> sv_heap v !! id = Some e -> e_assign e <> Settled -> (forall l, e_assign e <> Leased l) ->
  Session.Cipher (e_sess e) <> [] -> pool_change v r.2 (leases (sv_heap v)) (got r.1 ++ leases (sv_heap v)) ->
  (forall w, r.1 = InUse w -> bytes_ok w) -> server_inv (record_assigned id e r).
Proof.
  intros Hv He Hns Hnl Hc Hpc Hw. pose proof (vi_entry v Hv id e He) as [O1 O2 O3 O4 O5 O6].
  assert (Ea : AssignedIP (e_sess e) = None).
  { destruct (AssignedIP (e_sess e)); [|done]. destruct Hns. apply O4. by eexists. }
  assert (Hle : lease_of e = None) by (unfold lease_of; rewrite Ea; destruct (e_assign e); naive_solver).
  unfold record_assigned. destruct r as [a v2]. cbn [fst snd] in *. destruct Hpc as [G1 G2 G3 G4 G5 G6 G7 G8 G9].
  set (e' := set_assign _ e).
  assert (Hl' : option_list (lease_of e') = got a) by (unfold lease_of; change (e_sess e') with (e_sess e); rewrite Ea; unfold e'; by destruct a).
  apply (change_inv v _ id e e' Hv He).
  - constructor; try done.
    + intros Hs. change (AssignedIP (e_sess e')) with (AssignedIP (e_sess e)) in Hs. rewrite Ea in Hs. by destruct Hs.
    + unfold e'. destruct a; cbn; auto.
  - constructor; cbn; rewrite ?G1, ?G2, ?G3, ?G4, ?G5, ?G6, ?G7; try done; [by left|by left| |apply (vi_jobs v Hv)|].
    + rewrite Hl'. eapply pool_ok_perm; [|apply G9, (vi_pool v Hv)]. apply Permutation_app_head.
      etransitivity; [apply (heap_bind_out (fun e => option_list (lease_of e)) _ id e He)|]. cbv beta. by rewrite Hle.
    + change (counted e') with (counted e). f_equal. lia.
Qed.

(** ** Publication *)

Lemma publish_inv (cfg : settings) (now queue : Z) (id : nat) (v : server) :
  server_inv v -> exists v', publish cfg now queue id v = Ok v' /\ server_inv v'.
Proof.
  intros Hv. unfold publish. destruct (sv_heap v !! id) as [e|] eqn:He; [|by exists v].
  destruct (e_assign e) as [|w|w o|l|] eqn:Eas; try (by exists v).
  pose proof (vi_entry v Hv id e He) as [O1 O2 O3 O4 O5 O6]. rewrite Eas in O4, O5.
  assert (Ea : AssignedIP (e_sess e) = None) by (destruct (AssignedIP (e_sess e)); [by specialize (O4 ltac:(by eexists))|done]).
  pose proof O2 as [?|(Hk & dk & Edk & Hdk)]; [done|]. rewrite Edk.
  destruct (Cipher.server_wrapper_ok (W := W) (k2_raw dk) _ (IpPool.l_peerID l) 0 Hdk (Cipher.cipherKeyLen_cases _ Hk))
    as (keys & w & Es & En & _).
  destruct dk as [raw]. cbn [k2_raw] in *. rewrite Es, En.
  assert (Hle : option_list (lease_of e) = [l]) by (unfold lease_of; by rewrite Eas).
  pose proof (vi_pool v Hv) as HP. unfold leases in HP. eapply pool_ok_perm in HP; [|apply (heap_bind_out _ _ id e He)].
  cbv beta in HP. rewrite Hle in HP.
  destruct (closing (e_sess e)) eqn:Ec.
  - eexists. split; [done|]. apply (change_inv v _ id e (set_assign Settled e) Hv He).
    + by constructor.
    + constructor; cbn; try done; [by left|by left| |apply (vi_jobs v Hv)|change (counted (set_assign Settled e)) with (counted e); f_equal; lia].
      change (e_sess (set_assign Settled e)) with (e_sess e). rewrite Ea.
      destruct (sv_pool v) as [p|]; [|done]. cbn in HP |- *. by apply (IpPool.lease_inv_release p []) in HP.
  - assert (Ht : torn e = false).
    { destruct (torn e) eqn:Et; [|done]. apply (si_torn _ O1) in Et. unfold closing, e_sess in Ec. congruence. }
    destruct (session_exec_ok cfg (e_state e) (EPublishLease now (IpPool.l_ip l) (IpPool.l_peerID l) queue w) O1 Hk)
      as (st & a & Hx & Hs').
    unfold session_event. cbn [put with_heap sv_heap]. rewrite lookup_insert_eq.
    change (e_state (set_assign Settled e)) with (e_state e). rewrite Hx. outcome_simpl. eexists. split; [done|].
    destruct (e_state e) as [s fl] eqn:Est. unfold e_sess in *. rewrite Est in *. cbn [fst] in *. revert Hx. cbn [exec].
    unfold publishLease. rewrite Ea, Ec. intros Hx%(inj Ok). injection Hx as <- <-. cbn [foldl].
    set (e' := set_todo _ _). rewrite Ht in O3.
    assert (Hts : l_torn (s_life s) = false) by (unfold torn, e_sess in Ht; by rewrite Est in Ht).
    assert (Ht' : torn e' = false) by exact Hts.
    assert (Htd : e_todo e' = []) by (unfold e'; cbn; by rewrite O3).
    assert (Ho : counted e' = counted e) by (unfold counted, e_sess; by rewrite Est).
    assert (Hr : routed e = false) by (unfold routed, e_sess; rewrite Est; cbn [fst]; by rewrite Ea).
    assert (Hr' : routed e' = true) by (unfold routed; by rewrite Ht').
    assert (Hl' : lease_of e' = Some l) by (unfold lease_of; rewrite Ht'; by destruct l).
    apply (change_inv v _ id e e' Hv He).
    + constructor; try done; [by rewrite Ht'|]. intros _. by eexists.
    + constructor; cbn [sv_heap sv_next sv_sessions sv_dataSessions sv_pool sv_jobs sv_stats with_routes put with_heap]; try done.
      * by rewrite insert_insert_eq.
      * left. split; [|done]. unfold listed. by rewrite Ht, Ht'.
      * by right; right.
      * by rewrite Hl'.
      * apply (vi_jobs v Hv).
      * rewrite Ho. f_equal. lia.
Qed.

(** ** Datagrams *)

Lemma session_event_ok (cfg : settings) (id : nat) (ev : event (W := W)) (v : server) :
  server_inv v -> publishes_lease ev = false -> (forall e, sv_heap v !! id = Some e -> event_ok (e_sess e) ev) ->
  exists v' acts, session_event cfg id ev v = Ok (v', acts) /\ server_inv v' /\ sv_jobs v' = sv_jobs v.
Proof.
  intros Hv Hp Hev. assert (Hx : exists v' acts, session_event cfg id ev v = Ok (v', acts) /\ sv_jobs v' = sv_jobs v).
  { unfold session_event. destruct (sv_heap v !! id) as [e|] eqn:He; [|by eexists _, _].
    destruct (session_exec_ok cfg (e_state e) ev (eo_session _ (vi_entry v Hv id e He)) (Hev e eq_refl)) as (st & a & -> & _).
    outcome_simpl. eexists _, _. split; [done|]. by rewrite at_once_all. }
  destruct Hx as (v' & acts & E & Ej). exists v', acts. split_and!; [done| |done]. by eapply session_event_inv.
Qed.

Lemma packetPeerID_ok (packet : bytes) : 4 <= zlen packet -> exists p, packetPeerID packet = Ok p.
Proof.
  intros Hl. unfold packetPeerID.
  destruct (index_ok (E := DataChan.dc_error) packet 1) as (b1 & _ & ->); [lia|].
  destruct (index_ok (E := DataChan.dc_error) packet 2) as (b2 & _ & ->); [lia|].
  destruct (index_ok (E := DataChan.dc_error) packet 3) as (b3 & _ & ->); [lia|]. by eexists.
Qed.

Lemma rejected_inv (v : server) : server_inv v -> server_inv (count addRejected v).
Proof. by apply count_inv. Qed.

Lemma handleDataDatagram_ok (cfg : settings) (now : Z) (pick : bool) (opcode : Z) (packet : bytes) (v : server) :
  server_inv v -> exists v' acts,
    handleDataDatagram cfg now pick opcode packet v = Ok (v', acts) /\ server_inv v' /\ sv_jobs v' = sv_jobs v.
Proof.
  intros Hv. pose proof (rejected_inv v Hv) as Hr. unfold handleDataDatagram.
  destruct (negb _); [by eexists _, _|]. destruct (Z.ltb_spec (zlen packet) 4) as [|Hl]; [by eexists _, _|].
  destruct (packetPeerID_ok packet Hl) as [p ->]. outcome_simpl. destruct (sv_dataSessions v !! p) as [id|]; [|by eexists _, _].
  destruct (session_event_ok cfg id (EData now pick packet) v Hv eq_refl ltac:(done)) as (v' & acts & -> & Hi & Hj).
  outcome_simpl. by eexists _, _.
Qed.

Definition job_ok (j : job) : Prop := match j with Candidate e _ => fresh_entry e | _ => True end.

Lemma lookup_datagram_job (addr packet : bytes) (v : server) (j : job) : lookup_datagram addr packet v = Some j -> job_ok j.
Proof. unfold lookup_datagram. destruct packet as [|b packet]; [done|]. intros Hj. repeat case_match; by simplify_eq. Qed.

Lemma arrive_ok (cfg : settings) (now : Z) (pick : bool) (addr packet : bytes) (v : server) :
  server_inv v -> exists v' j acts,
    arrive cfg now pick addr packet v = Ok (v', j, acts) /\ server_inv v' /\ sv_jobs v' = sv_jobs v /\
    Forall job_ok (option_list j).
Proof.
  intros Hv. pose proof (rejected_inv v Hv) as Hr. unfold arrive. destruct packet as [|b packet].
  { eexists _, _, _. split_and!; [done|done|done|constructor]. }
  destruct (_ && _).
  - destruct (handleDataDatagram_ok cfg now pick (ParseHeaderByte b).1 (b :: packet) v Hv) as (v' & acts & -> & Hi & Hj).
    outcome_simpl. eexists _, _, _. split_and!; [done|done|done|constructor].
  - destruct (lookup_datagram addr (b :: packet) v) as [j|] eqn:Ej; eexists _, _, _; split_and!; try done.
    + constructor; [|constructor]. by eapply lookup_datagram_job.
Qed.

Lemma authenticate_control_ok (w : TlsCrypt.Wrapper) (hdr : Header) (packet : bytes) :
  (authenticate_control w hdr packet).1 <> Panic /\ forall e, (authenticate_control w hdr packet).1 <> Err e.
Proof.
  unfold authenticate_control. rewrite Unwrap_result. unfold unwrap_verdict.
  destruct (zlen packet <? 49); [done|]. destruct (negb _); [done|].
  match goal with |- context [if ?b then Ok _ else Err ErrReplay] => destruct b end; [|done].
  pose proof (ParseControlPacket_no_panic ([] ++ decrypted_of w packet) hdr) as Hn. cbn [is_ok fst].
  by destruct (ParseControlPacket _ hdr).
Qed.

Lemma authenticate_job_ok (tlsKey : bytes) (serverSID : option bytes) (j : job) (v : server) :
  server_inv v -> job_ok j -> exists v' j',
    as_dc (authenticate_job tlsKey serverSID j v) = Ok (v', j') /\ server_inv v' /\ sv_jobs v' = sv_jobs v /\
    Forall job_ok (option_list j').
Proof.
  intros Hv Hj. destruct j as [id hdr packet|addr hdr packet|id cp|e cp]; cbn [authenticate_job].
  - destruct (sv_heap v !! id) as [e|] eqn:He; [|eexists _, _; split_and!; [done|done|done|constructor]].
    pose proof (authenticate_control_ok (e_wrapper e) hdr packet) as [G1 G2].
    destruct (authenticate_control (e_wrapper e) hdr packet) as [[cp|er|] w]; [|by destruct (G2 er)|done]. outcome_simpl.
    assert (Hi : server_inv (put id (set_tls w e) v)) by by apply (put_inv v id e).
    destruct cp as [cp|]; eexists _, _; (split_and!; [done| |done|]); [done|by repeat constructor|by apply rejected_inv|constructor].
  - unfold NewWrapper. destruct (negb (zlen tlsKey =? 256)); [eexists _, _; split_and!; [done|done|done|constructor]|].
    destruct serverSID as [sid|]; [|eexists _, _; split_and!; [done|done|done|constructor]].
    match goal with |- context [authenticate_control ?w hdr packet] =>
      pose proof (authenticate_control_ok w hdr packet) as [G1 G2];
      destruct (authenticate_control w hdr packet) as [[cp|er|] w'] end; [|by destruct (G2 er)|done].
    outcome_simpl. destruct cp as [cp|]; eexists _, _; (split_and!; [done| |done|]); [done|by repeat constructor|by apply rejected_inv|constructor].
  - eexists _, _. split_and!; [done|done|done|]. by constructor.
  - eexists _, _. split_and!; [done|done|done|]. by constructor.
Qed.

Lemma enqueue_cp_inv (pick : bool) (id : nat) (cp : ControlPacket) (v : server) :
  server_inv v -> server_inv (enqueue pick id cp v) /\ sv_jobs (enqueue pick id cp v) = sv_jobs v.
Proof.
  intros Hv. unfold enqueue. destruct (sv_heap v !! id) as [e|] eqn:He; [|done]. cbv zeta.
  destruct (_ && _); split; try done; [by apply (put_inv v id e)|by apply rejected_inv].
Qed.

Lemma deliver_control_ok (cfg : settings) (now : Z) (pick : bool) (id : nat) (cp : ControlPacket) (v : server) :
  server_inv v -> exists v' acts, deliver_control cfg now pick id cp v = Ok (v', acts) /\ server_inv v' /\ sv_jobs v' = sv_jobs v.
Proof.
  intros Hv. unfold deliver_control. destruct (_ =? _).
  - destruct (session_event_ok cfg id (ESoftReset now cp) v Hv eq_refl ltac:(done)) as (v' & acts & -> & Hi & Hj).
    outcome_simpl. by eexists _, _.
  - destruct (enqueue_cp_inv pick id cp v Hv). by eexists _, _.
Qed.

(** A new session, not in the heap before. *)
Lemma insert_inv (v : server) (e : entry) (v' : server) :
  server_inv v -> fresh_entry e -> sv_sessions v !! e_key e = None ->
  sv_heap v' = <[sv_next v := e]> (sv_heap v) -> sv_next v' = S (sv_next v) ->
  sv_sessions v' = <[e_key e := sv_next v]> (sv_sessions v) -> sv_dataSessions v' = sv_dataSessions v ->
  sv_pool v' = sv_pool v -> sv_jobs v' = sv_jobs v -> sv_stats v' = addStarted (sv_stats v) -> server_inv v'.
Proof.
  intros Hv (Es & Ea & Et) Hk Ehp En Ess Ed Ep Ej Est.
  assert (Hn : sv_heap v !! sv_next v = None).
  { destruct (sv_heap v !! sv_next v) as [x|] eqn:Hx; [|done]. apply (vi_fresh v Hv) in Hx. lia. }
  assert (Hf : forall i x, sv_heap v !! i = Some x -> i <> sv_next v) by (intros i x Hx ->; congruence).
  assert (Hd : delete (sv_next v) (sv_heap v) = sv_heap v) by by apply delete_id.
  assert (Hl : lease_of e = None /\ routed e = false /\ listed e = true /\ counted e = false /\ torn e = false).
  { unfold lease_of, routed, listed, counted, torn, e_sess. rewrite Es, Ea. done. }
  destruct Hl as (L1 & L2 & L3 & L4 & L5).
  constructor; rewrite ?Ehp, ?En, ?Ess, ?Ed, ?Ep, ?Ej, ?Est.
  - intros i x. rewrite lookup_insert_Some. intros [(_ & <-)|(_ & Hx)]; [|by apply (vi_entry v Hv i)].
    constructor; rewrite ?L5, ?Ea; unfold e_sess; rewrite ?Es; try done; [|by left|by intros [? ?]].
    apply (session_reachable_inv (Session.mkSettings 0 0 0 false false)), reach_new.
  - intros i x. rewrite lookup_insert_Some. intros [(<- & _)|(_ & Hx)]; [lia|]. apply (vi_fresh v Hv) in Hx. lia.
  - intros k i. rewrite lookup_insert_Some, (vi_table v Hv). destruct (decide (i = sv_next v)) as [->|Hne].
    + rewrite lookup_insert_eq, Hn. split; [intros [(<- & _)|(_ & x & ? & _)]; [by exists e|done]|].
      intros (x & [= <-] & <- & _). by left.
    + rewrite lookup_insert_ne by done. split; [intros [(_ & ?)|(_ & Hx)]; [congruence|done]|].
      intros Hx. right. split; [|done]. intros <-. destruct Hx as (x & Hx & Hkx & Hlx).
      assert (Hs : sv_sessions v !! e_key e = Some i) by (apply (vi_table v Hv); by exists x). congruence.
  - intros p i. rewrite (vi_routes v Hv). destruct (decide (i = sv_next v)) as [->|Hne].
    + rewrite lookup_insert_eq, Hn. split; [by intros (x & ? & _)|]. intros (x & [= <-] & _ & Hx). congruence.
    + by rewrite lookup_insert_ne.
  - eapply pool_ok_perm; [|apply (vi_pool v Hv)]. unfold leases. symmetry.
    etransitivity; [apply (heap_bind_in (fun e => option_list (lease_of e)))|]. cbv beta. by rewrite L1, Hd.
  - apply (vi_jobs v Hv).
  - rewrite map_size_insert_None by done. cbn. rewrite (vi_started v Hv). unfold u64. rewrite Zplus_mod_idemp_l. f_equal. lia.
  - change (outcomes (addStarted (sv_stats v))) with (outcomes (sv_stats v)). rewrite (vi_outcomes v Hv). f_equal.
    unfold settled, zlen. rewrite (Permutation_length (heap_bind_in (fun e => if counted e then [tt] else []) _ _ e)). cbv beta. by rewrite L4, Hd.
Qed.

Lemma finish_job_ok (cfg : settings) (now : Z) (pick : bool) (j : job) (v : server) :
  server_inv v -> job_ok j -> exists v' acts, finish_job cfg now pick j v = Ok (v', acts) /\ server_inv v' /\ sv_jobs v' = sv_jobs v.
Proof.
  intros Hv Hj. destruct j as [id hdr packet|addr hdr packet|id cp|e cp]; cbn [finish_job]; [by eexists _, _|by eexists _, _| |].
  - by apply deliver_control_ok.
  - unfold insert_candidate. destruct (sv_sessions v !! e_key e) as [id|] eqn:Ek; [by apply deliver_control_ok|].
    eexists _, _. split_and!; [done| |done]. by apply (insert_inv v e).
Qed.

(** ** The steps *)

Lemma fresh_jobs (v : server) : server_inv v -> Forall job_ok (sv_jobs v).
Proof. apply vi_jobs. Qed.

Lemma own_not_publish (ev : event (W := W)) : own_event ev = true -> publishes_lease ev = false.
Proof. by destruct ev. Qed.

Lemma sexec_ok (cfg : settings) (tlsKey : bytes) (queue : Z) (v : server) (ev : sevent (W := W)) :
  server_inv v -> sevent_ok v ev ->
  exists v' acts, sexec cfg tlsKey queue v ev = Ok (v', acts) /\ server_inv v'.
Proof.
  intros Hv Hev. assert (Hid : exists v' acts, Ok (E := DataChan.dc_error) (v, @nil (nat * action)) = Ok (v', acts) /\ server_inv v')
    by (by eexists _, _).
  destruct ev as [now pick addr packet|j sid|now pick j|now id|id ev|id|id hook|id order|id|now id|]; cbn [sexec sevent_ok] in *.
  - destruct (arrive_ok cfg now pick addr packet v Hv) as (v' & j & acts & -> & Hi & Hj & Hf). outcome_simpl.
    eexists _, _. split; [done|]. apply jobs_inv; [|done]. apply Forall_app. split; [|done]. by apply fresh_jobs.
  - destruct (sv_jobs v !! j) as [jb|] eqn:Ej; [|done]. pose proof (fresh_jobs v Hv) as Hf.
    assert (Hjb : job_ok jb) by (rewrite Forall_lookup in Hf; by eapply Hf).
    destruct (authenticate_job_ok tlsKey sid jb v Hv Hjb) as (v' & j' & -> & Hi & Hj & Hf'). outcome_simpl.
    eexists _, _. split; [done|]. apply jobs_inv; [|done]. apply Forall_app. split; [|done]. rewrite Hj. by apply Forall_delete.
  - destruct (sv_jobs v !! j) as [jb|] eqn:Ej; [|done]. pose proof (fresh_jobs v Hv) as Hf.
    assert (Hjb : job_ok jb) by (rewrite Forall_lookup in Hf; by eapply Hf).
    assert (Hi : server_inv (with_jobs (delete j (sv_jobs v)) v)) by (apply jobs_inv; [by apply Forall_delete|done]).
    destruct (finish_job_ok cfg now pick jb _ Hi Hjb) as (v' & acts & E & Hi' & _). destruct jb; try done; by exists v', acts.
  - destruct (sv_heap v !! id) as [e|] eqn:He; [|done]. destruct (e_inbound e) as [|cp rest]; [done|].
    assert (Hi : server_inv (put id (set_inbound rest e) v)) by by apply (put_inv v id e).
    destruct (session_event_ok cfg id (EPump now cp) _ Hi eq_refl ltac:(done)) as (v' & acts & -> & Hi' & _). outcome_simpl.
    by eexists _, _.
  - destruct (own_event ev && in_order id ev v) eqn:Eo; [|done]. apply andb_true_iff in Eo as [Eo _].
    destruct (session_event_ok cfg id ev v Hv (own_not_publish ev Eo) Hev) as (v' & acts & -> & Hi' & _). outcome_simpl. by eexists _, _.
  - eexists _, _. split; [done|]. by apply do_next_inv.
  - destruct (sv_heap v !! id) as [e|] eqn:He; [|done]. destruct (e_assign e) eqn:Ea; try done.
    destruct (sv_pool v) as [p|] eqn:Ep; [|done]. case_bool_decide as Hc; [done|]. eexists _, _. split; [done|].
    destruct (assign_first_change hook v (leases (sv_heap v)) Hev (vi_pool v Hv)) as [G1 G2]; [by rewrite Ep|].
    apply (record_assigned_inv v); try done; by rewrite Ea.
  - destruct (sv_heap v !! id) as [e|] eqn:He; [|done]. destruct (e_assign e) as [|want|want o|l|] eqn:Ea; try done.
    destruct (negb _); [done|]. pose proof (vi_entry v Hv id e He) as Hok.
    set (old := holder id order want v).
    assert (Hi : server_inv (put id (set_assign (Waiting want old) e) v)).
    { destruct Hok as [O1 O2 O3 O4 O5 O6]. rewrite Ea in O4, O5. apply (change_inv v _ id e (set_assign (Waiting want old) e) Hv He).
      - constructor; try done. intros Hs. by specialize (O4 Hs).
      - constructor; cbn; try done; [by left|by left| |apply (vi_jobs v Hv)|].
        + assert (Hle : lease_of (set_assign (Waiting want old) e) = lease_of e) by (unfold lease_of; rewrite Ea; done).
          change (pool_ok (sv_pool v) (option_list (lease_of (set_assign (Waiting want old) e)) ++ leases (delete id (sv_heap v)))).
          rewrite Hle. eapply pool_ok_perm; [|apply (vi_pool v Hv)].
          apply (heap_bind_out (fun e => option_list (lease_of e)) _ id e He).
        + change (counted (set_assign (Waiting want old) e)) with (counted e). f_equal. lia. }
    destruct old as [old|]; [|by eexists _, _].
    destruct (session_event_ok cfg old (ECloseBegin CloseReasonReplaced) _ Hi eq_refl ltac:(done)) as (v' & acts & -> & Hi' & _).
    outcome_simpl. by eexists _, _.
  - destruct (sv_heap v !! id) as [e|] eqn:He; [|done]. destruct (e_assign e) as [|want|want o|l|] eqn:Ea; try done.
    destruct (gone o v); [|done]. eexists _, _. split; [done|]. pose proof (eo_begun _ (vi_entry v Hv id e He)) as Hb. rewrite Ea in Hb.
    destruct Hb as [Hc Hb]. destruct (sv_pool v) as [p|] eqn:Ep.
    + destruct (assign_retry_change want v (leases (sv_heap v)) Hb (vi_pool v Hv)) as [G1 G2]; [by rewrite Ep|].
      apply (record_assigned_inv v); try done; by (rewrite Ea || intros w ?%G2).
    + unfold assign_retry, reserve_want. rewrite Ep. apply (record_assigned_inv v); try done; try (by rewrite Ea); by constructor.
  - destruct (publish_inv cfg now queue id v Hv) as (v' & -> & Hi). outcome_simpl. by eexists _, _.
  - eexists _, _. split; [done|]. by destruct Hv; constructor.
Qed.
End invariant.
End ServerInv.
