(* ===== verification/ServerProps.v ===== *)
(** * ServerProps: what the server guarantees to its clients

    The theorems about [Server], over every interleaving of its steps, and about the
    bodies of its functions run without interference: the tables and the counters are
    exact, leases are neither shared nor lost, forged datagrams change nothing, a
    client that asks for an address it already holds gets it, and shutdown leaves the
    tables empty. *)

From stdpp Require Import gmap sorting.
From S2P Require Import Prelude Wire TlsCrypt Replay KeyDeriv DataChan Cipher IpPool Session SessionProps Serve Server ServerInv.
Import IpPool Session SessionProps Server ServerInv.

Module ServerProps.

Section props.
Context {W : Type} `{!AntiReplay W} `{!DataChan.AEAD} `{!DataChan.AEADLaws} `{!TLSCryptPrims}.
Notation entry := (entry (W := W)).
Notation server := (server (W := W)).

(** ** Reachable states *)

Lemma leases_empty : leases (∅ : gmap nat entry) = [].
Proof. done. Qed.

Lemma newServer_inv (pool : option IpPool.ipPool) : pool_ok pool [] -> server_inv (newServer (W := W) pool).
Proof.
  intros Hp. constructor; cbn; try done.
  - intros k id. rewrite lookup_empty. by split; [|intros (e & ? & _)].
  - intros p id. rewrite lookup_empty. by split; [|intros (e & ? & _)].
Qed.

Lemma sreachable_inv (cfg : settings) (tlsKey : bytes) (queue : Z) (pool : option IpPool.ipPool) (v : server) :
  pool_ok pool [] -> sreachable cfg tlsKey queue pool v -> server_inv v.
Proof.
  intros Hp. induction 1 as [|v ev v' acts _ IH Hev Hx]; [by apply newServer_inv|].
  destruct (sexec_ok cfg tlsKey queue v ev IH Hev) as (v1 & a1 & E & Hi). congruence.
Qed.

(** C17. The tables are exact.  Whatever the server has gone through, no step of it
    panics; the table of sessions leads from a client's address and session id to
    exactly the session that has this key and has not finished its teardown, and
    data packets with a peer-id are routed to exactly the session that was published
    with it and whose teardown has not begun to take it down. *)
Theorem server_tables (cfg : settings) (tlsKey : bytes) (queue : Z) (pool : option IpPool.ipPool) (v : server) :
  pool_ok pool [] -> sreachable cfg tlsKey queue pool v ->
  (forall ev, sevent_ok v ev -> exists v' acts, sexec cfg tlsKey queue v ev = Ok (v', acts)) /\
  (forall key id, sv_sessions v !! key = Some id <->
     exists e, sv_heap v !! id = Some e /\ e_key e = key /\ ~ (l_torn (s_life (e_sess e)) = true /\ e_todo e = [])) /\
  (forall peerID id, sv_dataSessions v !! peerID = Some id <->
     exists e, sv_heap v !! id = Some e /\ PeerID (e_sess e) = peerID /\ is_Some (AssignedIP (e_sess e)) /\
       l_torn (s_life (e_sess e)) = false).
Proof.
  intros Hp Hr. pose proof (sreachable_inv _ _ _ _ _ Hp Hr) as Hv. split_and!.
  - intros ev Hev. destruct (sexec_ok cfg tlsKey queue v ev Hv Hev) as (v' & acts & E & _). by exists v', acts.
  - intros key id. rewrite (vi_table v Hv). apply exist_proper. intros e. unfold listed, torn.
    case_bool_decide; destruct (l_torn _); cbn; naive_solver.
  - intros p id. rewrite (vi_routes v Hv). apply exist_proper. intros e. unfold routed, torn, peer_of.
    rewrite andb_true_iff, bool_decide_eq_true, negb_true_iff. naive_solver.
Qed.

(** ** Leases *)

(** A session's claim on the pool. *)
Definition holds (v : server) (id : nat) (l : IpPool.lease) : Prop :=
  exists e, sv_heap v !! id = Some e /\ lease_of e = Some l.

Lemma holds_leases (v : server) (l : IpPool.lease) : (exists id, holds v id l) <-> l ∈ leases (sv_heap v).
Proof.
  unfold leases, holds. rewrite elem_of_heap_bind. split.
  - intros (id & e & He & Hl). exists id, e. split; [done|]. rewrite Hl. apply list_elem_of_here.
  - intros (id & e & He & Hl). exists id, e. split; [done|]. cbv beta in Hl. destruct (lease_of e) as [l'|]; cbn [option_list] in Hl; [|by apply not_elem_of_nil in Hl].
    by apply list_elem_of_singleton in Hl as ->.
Qed.

(** A published session holds its address and peer-id until its teardown. *)
Lemma published_holds (v : server) (id : nat) (e : entry) (ip : bytes) :
  server_inv v -> sv_heap v !! id = Some e -> AssignedIP (e_sess e) = Some ip -> l_torn (s_life (e_sess e)) = false ->
  holds v id (IpPool.mkLease ip (PeerID (e_sess e))).
Proof.
  intros Hv He Ea Et. exists e. split; [done|]. pose proof (eo_settled _ (vi_entry v Hv id e He) ltac:(by eexists)) as Es.
  unfold lease_of, torn, peer_of. by rewrite Es, Ea, Et.
Qed.

(** Two sessions' leases side by side. *)
Lemma two_leases (v : server) (i j : nat) (l l' : IpPool.lease) :
  i <> j -> holds v i l -> holds v j l' -> exists rest, leases (sv_heap v) ≡ₚ l :: l' :: rest.
Proof.
  intros Hne (e & He & Hl) (e' & He' & Hl'). exists (leases (delete j (delete i (sv_heap v)))). unfold leases.
  etransitivity; [apply (heap_bind_out _ _ i e He)|]. cbv beta. rewrite Hl. cbn [option_list app]. constructor.
  etransitivity; [apply (heap_bind_out _ _ j e'); by rewrite lookup_delete_ne|]. cbv beta. by rewrite Hl'.
Qed.

(** The offsets of a pool's leases, as a function. *)
Lemma lease_offset (p : IpPool.ipPool) (ls : list IpPool.lease) (o : Z) :
  IpPool.lease_inv p ls ->
  o ∈ p_usedIPs p <-> exists l, l ∈ ls /\ IpPool.offset_of (p_base p) l = Some o.
Proof.
  intros [_ (offs & Hall & _ & <- & _) _]. rewrite elem_of_list_to_set. split.
  - intros Ho. apply list_elem_of_lookup in Ho as [i Hi]. destruct (Forall2_lookup_r _ _ _ _ _ Hall Hi) as (l & Hl & E).
    exists l. split; [|done]. by eapply list_elem_of_lookup_2.
  - intros (l & Hl & E). apply list_elem_of_lookup in Hl as [i Hi]. destruct (Forall2_lookup_l _ _ _ _ _ Hall Hi) as (o' & Ho & E').
    rewrite E in E'. injection E' as <-. by eapply list_elem_of_lookup_2.
Qed.

(** C18. No lease is shared and none is lost.  In every state of a server the addresses
    and peer-ids its pool counts as used are exactly those the sessions hold: leased
    and about to be published, or published and not yet given back by a teardown.
    No two sessions hold the same peer-id or two forms of the same address, whatever
    the embedder asks for and however assignments, publications and teardowns
    interleave. *)
Theorem tunnel_leases (cfg : settings) (tlsKey : bytes) (queue : Z) (p0 p : IpPool.ipPool) (v : server) :
  IpPool.lease_inv p0 [] -> sreachable cfg tlsKey queue (Some p0) v -> sv_pool v = Some p ->
  (forall o, o ∈ p_usedIPs p <-> exists id l, holds v id l /\ IpPool.offset_of (p_base p) l = Some o) /\
  (forall peerID, peerID ∈ p_usedPeerIDs p <-> exists id l, holds v id l /\ IpPool.l_peerID l = peerID) /\
  (forall i j l l', i <> j -> holds v i l -> holds v j l' ->
     IpPool.l_peerID l <> IpPool.l_peerID l' /\
     IpPool.offset_of (p_base p) l <> IpPool.offset_of (p_base p) l') /\
  (forall id e ip, sv_heap v !! id = Some e -> AssignedIP (e_sess e) = Some ip ->
     l_torn (s_life (e_sess e)) = false -> holds v id (IpPool.mkLease ip (PeerID (e_sess e)))).
Proof.
  intros Hp0 Hr Ep. pose proof (sreachable_inv _ _ _ _ _ (Hp0 : pool_ok (Some p0) []) Hr) as Hv.
  pose proof (vi_pool v Hv) as HP. rewrite Ep in HP. cbn in HP. split_and!.
  - intros o. rewrite (lease_offset p _ o HP). split.
    + intros (l & Hl & E). apply holds_leases in Hl as [id Hid]. by exists id, l.
    + intros (id & l & Hh & E). exists l. split; [|done]. apply holds_leases. by exists id.
  - intros peerID. destruct (IpPool.li_peers _ _ HP) as (_ & Hset & _). rewrite <- Hset, elem_of_list_to_set, list_elem_of_fmap. split.
    + intros (l & -> & Hl). apply holds_leases in Hl as [id Hid]. by exists id, l.
    + intros (id & l & Hh & <-). exists l. split; [done|]. apply holds_leases. by exists id.
  - intros i j l l' Hne Hi Hj. destruct (two_leases v i j l l' Hne Hi Hj) as [rest HR].
    apply (IpPool.lease_inv_perm _ _ _ HR) in HP as [_ (offs & Hall & Hnd & _) (Hnp & _)]. split.
    + cbn in Hnp. apply NoDup_cons in Hnp as [Hn _]. intros E. apply Hn. rewrite E. apply list_elem_of_here.
    + apply Forall2_cons_inv_l in Hall as (o & offs1 & Ho & Hall & ->). apply Forall2_cons_inv_l in Hall as (o' & offs2 & Ho' & _ & ->).
      rewrite Ho, Ho'. intros [= ->]. apply NoDup_cons in Hnd as [Hn _]. apply Hn, list_elem_of_here.
  - intros id e ip. by apply published_holds.
Qed.

(** ** The listing *)

Lemma published_alone (v : server) (i j : nat) (e e' : entry) (ip : bytes) :
  server_inv v -> sv_heap v !! i = Some e -> sv_heap v !! j = Some e' ->
  AssignedIP (e_sess e) = Some ip -> AssignedIP (e_sess e') = Some ip ->
  l_torn (s_life (e_sess e)) = false -> l_torn (s_life (e_sess e')) = false -> i = j.
Proof.
  intros Hv He He' Ea Ea' Et Et'. destruct (decide (i = j)) as [|Hne]; [done|]. exfalso.
  destruct (two_leases v i j _ _ Hne (published_holds v i e ip Hv He Ea Et) (published_holds v j e' ip Hv He' Ea' Et')) as [rest HR].
  pose proof (vi_pool v Hv) as HP. eapply pool_ok_perm in HP; [|exact HR]. destruct (sv_pool v) as [p|]; [|done].
  destruct HP as [_ (offs & Hall & Hnd & _) _].
  apply Forall2_cons_inv_l in Hall as (o & offs1 & Ho & Hall & ->). apply Forall2_cons_inv_l in Hall as (o' & offs2 & Ho' & _ & ->).
  unfold IpPool.offset_of in *. cbn [IpPool.l_ip] in *. rewrite Ho in Ho'. injection Ho' as <-.
  apply NoDup_cons in Hnd as [Hn _]. apply Hn, list_elem_of_here.
Qed.

#[export] Instance addr_le_total : Total addr_le.
Proof. intros a b. apply (total bytes_ordered). Qed.

#[export] Instance addr_le_trans : Transitive addr_le.
Proof. intros a b c. apply (transitivity (R := bytes_ordered)). Qed.

(** A session that the listing has, with its address. *)
Definition live (v : server) (id : nat) (ip : bytes) : Prop :=
  exists e, sv_heap v !! id = Some e /\ AssignedIP (e_sess e) = Some ip /\
    l_established (s_life (e_sess e)) = true /\ closing (e_sess e) = false.

Lemma live_listed (v : server) (order : list nat) (ip : bytes) (id : nat) :
  server_inv v -> order ≡ₚ table_ids v -> (ip, id) ∈ omap (listing v) order <-> live v id ip.
Proof.
  intros Hv HO. rewrite list_elem_of_omap. unfold listing, live. split.
  - intros (i & _ & E). destruct (sv_heap v !! i) as [e|] eqn:He; [|done].
    destruct (l_established _) eqn:Ee, (closing (e_sess e)) eqn:Ec; try done. injection E as E ->.
    destruct (eo_listed _ (vi_entry v Hv id e He) Ee) as [ip' Ea]. exists e. rewrite Ea in E |- *. cbn in E. by subst.
  - intros (e & He & Ea & Ee & Ec). exists id. rewrite He, Ea, Ee, Ec. split; [|done]. rewrite HO. unfold table_ids.
    apply list_elem_of_fmap. exists (e_key e, id). split; [done|]. apply elem_of_map_to_list, (vi_table v Hv). exists e.
    split_and!; [done|done|]. unfold listed. pose proof (si_torn _ (eo_session _ (vi_entry v Hv id e He))) as Ht.
    unfold closing, e_sess, torn in *. destruct (l_torn _); [|done]. rewrite Ht in Ec by done. done.
Qed.

Lemma live_inj (v : server) (i j : nat) (ip : bytes) : server_inv v -> live v i ip -> live v j ip -> i = j.
Proof.
  intros Hv (e & He & Ea & _ & Ec) (e' & He' & Ea' & _ & Ec').
  apply (published_alone v i j e e' ip Hv He He' Ea Ea'); apply not_true_iff_false; intros Ht.
  - apply (si_torn _ (eo_session _ (vi_entry v Hv i e He))) in Ht. unfold closing, e_sess in *. congruence.
  - apply (si_torn _ (eo_session _ (vi_entry v Hv j e' He'))) in Ht. unfold closing, e_sess in *. congruence.
Qed.

(** An address [Sessions] reads. *)
Definition address (v : server) (id : nat) : bytes := default [] (sv_heap v !! id ≫= fun e => AssignedIP (e_sess e)).

Lemma live_address (v : server) (id : nat) (ip : bytes) : live v id ip -> address v id = ip.
Proof. intros (e & He & Ea & _). unfold address. rewrite He. cbn. by rewrite Ea. Qed.

Lemma NoDup_listing (v : server) (order : list nat) : NoDup order -> NoDup (omap (listing v) order).*2.
Proof.
  assert (Hsnd : forall id p, listing v id = Some p -> p.2 = id).
  { intros id p. unfold listing. repeat case_match; by intros; simplify_eq. }
  induction 1 as [|id order Hn Hnd IH]; [constructor|]. cbn. destruct (listing v id) as [p|] eqn:E; [|done].
  cbn. rewrite (Hsnd _ _ E). constructor; [|done]. intros (q & -> & Hq)%list_elem_of_fmap.
  apply list_elem_of_omap in Hq as (j & Hj & Eq). by rewrite (Hsnd _ _ Eq) in Hn.
Qed.

Lemma NoDup_table_ids (v : server) : server_inv v -> NoDup (table_ids v).
Proof.
  intros Hv. apply NoDup_fmap_2_strong; [|apply NoDup_map_to_list]. intros [k id] [k' id'] Hk Hk' E. cbn in E. subst.
  apply elem_of_map_to_list, (vi_table v Hv) in Hk as (e & He & <- & _).
  apply elem_of_map_to_list, (vi_table v Hv) in Hk' as (e' & He' & <- & _). congruence.
Qed.

(** The listing is the live sessions, each once, in the order of their addresses,
    which are distinct; so it does not depend on the order in which Go iterates over
    the table, and the gauge of [Stats] counts the live sessions. *)
Theorem sessions_listed (v : server) (order : list nat) :
  server_inv v -> order ≡ₚ table_ids v ->
  (forall id, id ∈ Sessions order v <-> exists ip, live v id ip) /\ NoDup (Sessions order v) /\
  StronglySorted bytes_ordered (map (address v) (Sessions order v)) /\
  NoDup (map (address v) (Sessions order v)) /\
  (forall order', order' ≡ₚ table_ids v -> Sessions order' v = Sessions order v) /\
  (Stats order v).1 = zlen (Sessions order v).
Proof.
  intros Hv HO. assert (Hnd : NoDup order) by (rewrite HO; by apply NoDup_table_ids).
  assert (Hmem : forall o p, o ≡ₚ table_ids v -> p ∈ merge_sort addr_le (omap (listing v) o) <-> live v p.2 p.1).
  { intros o [ip id] Ho. rewrite merge_sort_Permutation. by apply live_listed. }
  assert (Hadr : forall o, o ≡ₚ table_ids v -> map (address v) (Sessions o v) = map fst (merge_sort addr_le (omap (listing v) o))).
  { intros o Ho. unfold Sessions. rewrite map_map. apply map_ext_in. intros [ip id] Hp%list_elem_of_In.
    apply Hmem in Hp; [|done]. by apply live_address. }
  assert (Hn : NoDup (Sessions order v)).
  { unfold Sessions. rewrite merge_sort_Permutation. by apply NoDup_listing. }
  split_and!; [|done| | | |done].
  - intros id. unfold Sessions. rewrite list_elem_of_fmap. split.
    + intros ([ip i] & -> & Hp). exists ip. by apply (Hmem order _ HO) in Hp.
    + intros [ip Hl]. exists (ip, id). split; [done|]. by apply Hmem.
  - rewrite (Hadr _ HO). pose proof (StronglySorted_merge_sort addr_le (omap (listing v) order)) as Hs.
    induction Hs as [|p l _ IH Hall]; cbn; constructor; [done|]. by apply Forall_map.
  - rewrite (Hadr _ HO). apply NoDup_fmap_2_strong; [|by apply (NoDup_fmap_1 snd)]. intros [ip i] [ip' j] Hi Hj E. cbn in E. subst.
    apply (Hmem order _ HO) in Hi, Hj. f_equal. by apply (live_inj v i j ip').
  - intros order' HO'. unfold Sessions. f_equal. apply (StronglySorted_unique_strong addr_le); [|apply StronglySorted_merge_sort; apply _..|].
    + intros [ip i] [ip' j] Hi Hj E E'. pose proof (bytes_le_antisym _ _ E E') as Eip. cbn in Eip. subst.
      apply (Hmem _ _ HO') in Hi. apply (Hmem _ _ HO) in Hj. f_equal. by apply (live_inj v i j ip').
    + by rewrite !merge_sort_Permutation, HO, HO'.
Qed.

(** ** Counters *)

(** The sessions ever created that no outcome has been counted for. *)
Definition unsettled (v : server) : Z :=
  zlen (heap_bind (fun e => if l_outcome (s_life (e_sess e)) then [] else [tt]) (sv_heap v)).

Lemma count_split (h : gmap nat entry) :
  settled h + zlen (heap_bind (fun e => if l_outcome (s_life (e_sess e)) then [] else [tt]) h) = Z.of_nat (size h).
Proof.
  unfold settled, heap_bind, counted, zlen. rewrite <- (length_map_to_list h).
  induction (map_to_list h) as [|[i e] l IH]; [done|]. rewrite !bind_cons, !length_app. cbn [length snd].
  destruct (l_outcome _); cbn [length]; lia.
Qed.

(** The handshake counters partition.  In every state the handshakes started are
    those completed, failed, timed out, refused for their credentials and refused for
    their ciphers, and the sessions not counted yet: none is counted twice or lost
    (the counters are 64-bit numbers). *)
Theorem handshake_counters (cfg : settings) (tlsKey : bytes) (queue : Z) (pool : option IpPool.ipPool) (v : server) :
  pool_ok pool [] -> sreachable cfg tlsKey queue pool v ->
  let s := sv_stats v in
  handshakesStarted s = u64 (handshakesCompleted s + handshakesFailed s + handshakesTimedOut s + authFailed s +
                             cipherNegotiationFailed s + unsettled v).
Proof.
  intros Hp Hr. pose proof (sreachable_inv _ _ _ _ _ Hp Hr) as Hv. cbv zeta.
  rewrite (vi_started v Hv). rewrite <- (count_split (sv_heap v)). fold (unsettled v).
  pose proof (vi_outcomes v Hv) as HO. unfold outcomes in HO. unfold u64 in *. rewrite Zplus_mod, <- HO, <- Zplus_mod. done.
Qed.

(** ** Closing a session from begin to end *)

(** The pool is another state of the same pool. *)
Definition same_pool (v v' : server) : Prop :=
  match sv_pool v, sv_pool v' with
  | Some p, Some p' => p_base p' = p_base p /\ p_size p' = p_size p
  | None, None => True
  | _, _ => False
  end.

Lemma same_pool_refl (v v' : server) : sv_pool v' = sv_pool v -> same_pool v v'.
Proof. unfold same_pool. intros ->. by destruct (sv_pool v). Qed.

Lemma same_pool_trans (v1 v2 v3 : server) : same_pool v1 v2 -> same_pool v2 v3 -> same_pool v1 v3.
Proof.
  unfold same_pool. destruct (sv_pool v1), (sv_pool v2), (sv_pool v3); try done. intros [E1 E2] [F1 F2]. split; congruence.
Qed.

Lemma do_next_heap (v : server) (id : nat) (e : entry) (a : action) (rest : list action) :
  sv_heap v !! id = Some e -> e_todo e = a :: rest ->
  sv_heap (do_next id v) = <[id := set_todo rest e]> (sv_heap v) /\ sv_next (do_next id v) = sv_next v /\
  sv_jobs (do_next id v) = sv_jobs v /\ sv_stats (do_next id v) = sv_stats v /\ same_pool v (do_next id v).
Proof.
  intros He Et. unfold do_next. rewrite He, Et.
  destruct a; try (split_and!; try done; by apply same_pool_refl).
  - split_and!; try done. unfold same_pool. cbn. by destruct (sv_pool v).
  - unfold removeSession. destruct (bool_decide _); split_and!; try done; by apply same_pool_refl.
Qed.

Lemma drain (l : list action) (v : server) (id : nat) (e : entry) :
  server_inv v -> sv_heap v !! id = Some e -> e_todo e = l ->
  let v' := Nat.iter (length l) (do_next id) v in
  server_inv v' /\ sv_heap v' = <[id := set_todo [] e]> (sv_heap v) /\ sv_next v' = sv_next v /\
  sv_jobs v' = sv_jobs v /\ sv_stats v' = sv_stats v /\ same_pool v v'.
Proof.
  revert v e. induction l as [|a l IH]; intros v e Hv He Et v'.
  - split_and!; [done| |done|done|done|by apply same_pool_refl]. cbn in v'. subst v'. rewrite insert_id; [done|].
    rewrite He. f_equal. destruct e. cbn in *. by subst.
  - subst v'. cbn [length]. rewrite Nat.iter_succ_r.
    destruct (do_next_heap v id e a l He Et) as (E1 & E2 & E3 & E3' & E4).
    destruct (IH (do_next id v) (set_todo l e)) as (I1 & I2 & I3 & I4 & I4' & I5); [by apply do_next_inv|by rewrite E1, lookup_insert_eq|done|].
    split_and!; [done| |congruence|congruence|congruence|by eapply same_pool_trans]. by rewrite I2, E1, insert_insert_eq.
Qed.

Lemma rejected_kept (s : serverStats) (acts : list action) :
  assignIPRejected (foldl add_outcome s acts) = assignIPRejected s.
Proof. revert s. induction acts as [|a acts IH]; intros s; [done|]. cbn. rewrite IH. by destruct a. Qed.

Lemma session_event_heap (cfg : settings) (id : nat) (ev : event (W := W)) (v : server) (e : entry)
    (st : Session.state) (a : list action) :
  sv_heap v !! id = Some e -> exec cfg (e_state e) ev = Ok (st, a) ->
  exists v', session_event cfg id ev v = Ok (v', a) /\
    sv_heap v' = <[id := set_todo (e_todo e ++ List.filter later a) (set_state st e)]> (sv_heap v) /\
    sv_next v' = sv_next v /\ sv_jobs v' = sv_jobs v /\ sv_pool v' = sv_pool v /\
    assignIPRejected (sv_stats v') = assignIPRejected (sv_stats v).
Proof.
  intros He Hx. unfold session_event. rewrite He, Hx. outcome_simpl. eexists. split; [done|]. rewrite at_once_all. cbn.
  split_and!; try done. by rewrite rejected_kept.
Qed.

(** The reason a session keeps when it is now closed for [r]. *)
Definition reason_after (r : CloseReason) (e : entry) : CloseReason :=
  if closing (e_sess e) then getCloseReason (e_sess e) else r.

(** The load of [published] ends the teardown and changes nothing the server keeps. *)
Lemma notify_spec (cfg : settings) (id : nat) (v : server) (e : entry) :
  server_inv v -> sv_heap v !! id = Some e -> torn e = true -> e_todo e = [] ->
  exists v' acts e', session_event cfg id ECloseNotify v = Ok (v', acts) /\ server_inv v' /\
    sv_heap v' = <[id := e']> (sv_heap v) /\ torn e' = true /\ e_todo e' = [] /\ l_ended (s_life (e_sess e')) = true /\
    closing (e_sess e') = closing (e_sess e) /\ e_key e' = e_key e /\ e_assign e' = e_assign e /\
    AssignedIP (e_sess e') = AssignedIP (e_sess e) /\ getCloseReason (e_sess e') = getCloseReason (e_sess e) /\
    sv_next v' = sv_next v /\ sv_jobs v' = sv_jobs v /\
    assignIPRejected (sv_stats v') = assignIPRejected (sv_stats v) /\ sv_pool v' = sv_pool v.
Proof.
  intros Hv He Ht Hd.
  assert (Hx : exec cfg (e_state e) ECloseNotify =
    Ok (((closeNotify cfg (e_sess e)).1, spawned (closeNotify cfg (e_sess e)).2 (e_state e).2), (closeNotify cfg (e_sess e)).2)).
  { revert Ht. unfold torn, e_sess. destruct (e_state e) as [s fl]. cbn [fst snd exec]. by intros ->. }
  destruct (session_event_heap cfg id _ v e _ _ He Hx) as (v' & E & A1 & A2 & A3 & A4 & A5).
  destruct (session_event_ok cfg id ECloseNotify v Hv eq_refl ltac:(done)) as (v2 & a2 & E2 & Hv2 & _).
  rewrite E in E2. injection E2 as <- <-. rewrite Hd, (closeNotify_filter cfg (e_sess e) later ltac:(done)) in A1.
  destruct (closeNotify_life cfg (e_sess e)) as (_ & N2 & _ & N4 & N5 & N6 & _ & _ & _ & _ & N11).
  eexists _, _, _. split; [exact E|]. split_and!; try done.
  - by rewrite <- Ht.
  - unfold AssignedIP. cbn. by rewrite N2.
Qed.

Lemma closeSession_spec (cfg : settings) (r : CloseReason) (id : nat) (v : server) (e : entry) :
  server_inv v -> sv_heap v !! id = Some e ->
  exists v' acts e', closeSession cfg r id v = Ok (v', acts) /\ server_inv v' /\
    sv_heap v' = <[id := e']> (sv_heap v) /\ torn e' = true /\ e_todo e' = [] /\ closing (e_sess e') = true /\
    e_key e' = e_key e /\ e_assign e' = e_assign e /\ AssignedIP (e_sess e') = AssignedIP (e_sess e) /\
    getCloseReason (e_sess e') = reason_after r e /\
    sv_next v' = sv_next v /\ sv_jobs v' = sv_jobs v /\
    assignIPRejected (sv_stats v') = assignIPRejected (sv_stats v) /\ same_pool v v' /\ l_ended (s_life (e_sess e')) = true.
Proof.
  intros Hv He. unfold closeSession.
  assert (Hb : exec cfg (e_state e) (ECloseBegin r) = Ok ((closeBegin r (e_sess e), (e_state e).2), []))
    by (unfold e_sess; by destruct (e_state e)).
  destruct (session_event_heap cfg id _ v e _ _ He Hb) as (v1 & E1 & A1 & A2 & A3 & A4 & A5).
  destruct (session_event_ok cfg id (ECloseBegin r) v Hv eq_refl ltac:(done)) as (v1' & a1' & E1' & Hv1 & _).
  rewrite E1 in E1'. injection E1' as <- <-. rewrite E1. outcome_simpl.
  set (e1 := set_todo _ _) in A1. assert (He1 : sv_heap v1 !! id = Some e1) by (by rewrite A1, lookup_insert_eq).
  assert (Hc : closing (e_sess e1) = true).
  { unfold closing, closeBegin. cbn. unfold closeBegin. by destruct (l_stopping (s_life (e_sess e))) eqn:E. }
  assert (Hend : exec cfg (e_state e1) ECloseEnd =
    Ok (((closeEnd cfg (e_sess e1)).1, spawned (closeEnd cfg (e_sess e1)).2 (e_state e1).2), (closeEnd cfg (e_sess e1)).2)).
  { revert Hc. unfold e_sess. destruct (e_state e1) as [s fl]. cbn [fst snd exec]. by intros ->. }
  destruct (session_event_heap cfg id _ v1 e1 _ _ He1 Hend) as (v2 & E2 & B1 & B2 & B3 & B4 & B5).
  destruct (session_event_ok cfg id ECloseEnd v1 Hv1 eq_refl ltac:(done)) as (v2' & a2' & E2' & Hv2 & _).
  rewrite E2 in E2'. injection E2' as <- <-. rewrite E2. outcome_simpl.
  set (e2 := set_todo (e_todo e1 ++ _) _) in B1. assert (He2 : sv_heap v2 !! id = Some e2) by (by rewrite B1, lookup_insert_eq).
  rewrite He2. destruct (drain (e_todo e2) v2 id e2 Hv2 He2 eq_refl) as (D1 & D2 & D3 & D4 & D4' & D5).
  destruct (closeEnd_life cfg (e_sess e1)) as (L1 & L2 & L3 & _ & _ & L6 & _).
  set (v3 := Nat.iter _ _ _) in *. set (e3 := set_todo [] e2).
  assert (He3 : sv_heap v3 !! id = Some e3) by (by rewrite D2, lookup_insert_eq).
  destruct (notify_spec cfg id v3 e3 D1 He3 L1 eq_refl)
    as (v4 & a4 & e4 & E4 & F0 & F1 & F2 & F3 & F4 & F5 & F6 & F7 & F8 & F9 & F10 & F11 & F12 & F13).
  rewrite E4. outcome_simpl. eexists _, _, e4. split; [done|]. split_and!; try done; try congruence.
  - rewrite F1, D2, insert_insert_eq, B1, insert_insert_eq, A1, insert_insert_eq. done.
  - rewrite F5, <- Hc, <- L2. done.
  - rewrite F8. assert (E : s_lease (e_sess e3) = s_lease (e_sess e1)) by exact L6. unfold AssignedIP.
    rewrite E. cbn. unfold closeBegin. by destruct (l_stopping _).
  - rewrite F9. change (e_sess e3) with ((closeEnd cfg (e_sess e1)).1). rewrite L3. unfold reason_after, closing, getCloseReason.
    cbn. unfold closeBegin. by destruct (l_stopping _) eqn:E.
  - apply (same_pool_trans v v3); [|by apply same_pool_refl]. eapply same_pool_trans; [apply same_pool_refl|exact D5]. congruence.
Qed.

(** ** Shutdown *)

(** What closing for [r] makes of a session. *)
Record closed_from (r : CloseReason) (e e' : entry) : Prop := {
  cf_torn : torn e' = true;
  cf_todo : e_todo e' = [];
  cf_closing : closing (e_sess e') = true;
  cf_key : e_key e' = e_key e;
  cf_assign : e_assign e' = e_assign e;
  cf_ip : AssignedIP (e_sess e') = AssignedIP (e_sess e);
  cf_reason : getCloseReason (e_sess e') = reason_after r e;
}.

Lemma closed_again (r : CloseReason) (e e1 e2 : entry) : closed_from r e e1 -> closed_from r e1 e2 -> closed_from r e e2.
Proof.
  intros [T1 T2 T3 T4 T5 T6 T7] [S1 S2 S3 S4 S5 S6 S7]. constructor; try done; try congruence.
  rewrite S7. unfold reason_after at 1. by rewrite T3.
Qed.

Lemma closeAll_spec (cfg : settings) (ids : list nat) (v : server) :
  server_inv v -> exists v' acts, closeAll cfg ids v = Ok (v', acts) /\ server_inv v' /\
    dom (sv_heap v') = dom (sv_heap v) /\
    forall id e', sv_heap v' !! id = Some e' -> exists e, sv_heap v !! id = Some e /\
      ((id ∈ ids /\ closed_from CloseReasonServerClose e e') \/ (id ∉ ids /\ e' = e)).
Proof.
  revert v. induction ids as [|i ids IH]; intros v Hv.
  { eexists _, _. split_and!; [done|done|done|]. intros id e' He. exists e'. split; [done|]. right. split; [apply not_elem_of_nil|done]. }
  cbn [closeAll]. destruct (sv_heap v !! i) as [e|] eqn:He.
  - destruct (closeSession_spec cfg CloseReasonServerClose i v e Hv He)
      as (v1 & a1 & e1 & -> & Hv1 & A1 & T1 & T2 & T3 & T4 & T5 & T6 & T7 & _). outcome_simpl.
    destruct (IH v1 Hv1) as (v2 & a2 & -> & Hv2 & Hdom & Hall). outcome_simpl. eexists _, _. split_and!; [done|done| |].
    { rewrite Hdom, A1. by apply dom_insert_lookup_L. }
    intros id e' He'. destruct (Hall id e' He') as (x & Hx & Hc). rewrite A1 in Hx.
    assert (Hcf : closed_from CloseReasonServerClose e e1) by by constructor.
    apply lookup_insert_Some in Hx as [(<- & <-)|(Hne & Hx)].
    + exists e. split; [done|]. left. split; [apply list_elem_of_here|]. destruct Hc as [(_ & Hc)|(_ & ->)]; [|done].
      by eapply closed_again.
    + exists x. split; [done|]. destruct Hc as [(Hin & Hc)|(Hn & ->)]; [left|right]; (split; [|done]).
      * by apply list_elem_of_further.
      * by apply not_elem_of_cons.
  - assert (Hsk : closeSession cfg CloseReasonServerClose i v = Ok (v, [])).
    { unfold closeSession, session_event. rewrite He. outcome_simpl. rewrite He. outcome_simpl. rewrite He. cbn [Nat.iter nat_rect]. rewrite He. by outcome_simpl. }
    rewrite Hsk. outcome_simpl. destruct (IH v Hv) as (v2 & a2 & -> & Hv2 & Hdom & Hall). outcome_simpl.
    eexists _, _. split_and!; [done|done|done|]. intros id e' He'. destruct (Hall id e' He') as (x & Hx & Hc).
    exists x. split; [done|]. destruct Hc as [(Hin & Hc)|(Hn & ->)]; [left|right]; (split; [|done]).
    + by apply list_elem_of_further.
    + apply not_elem_of_cons. split; [congruence|done].
Qed.

Lemma table_ids_listed (v : server) (id : nat) :
  server_inv v -> id ∈ table_ids v <-> exists e, sv_heap v !! id = Some e /\ listed e = true.
Proof.
  intros Hv. unfold table_ids. rewrite list_elem_of_fmap. split.
  - intros ([k i] & -> & Hin%elem_of_map_to_list%(vi_table v Hv)). destruct Hin as (e & He & _ & Hl). by exists e.
  - intros (e & He & Hl). exists (e_key e, id). split; [done|]. apply elem_of_map_to_list, (vi_table v Hv). by exists e.
Qed.

(** A session that has been torn down does not keep a lease past its publication. *)
Lemma publish_torn (cfg : settings) (now queue : Z) (id : nat) (v v2 : server) (l : IpPool.lease) :
  server_inv v -> (forall e, sv_heap v !! id = Some e -> torn e = true /\ e_todo e = []) ->
  publish cfg now queue id v = Ok v2 -> ~ holds v2 id l.
Proof.
  intros Hv Ht. unfold publish. destruct (sv_heap v !! id) as [e|] eqn:He.
  2:{ intros [= <-] (e & He' & _). congruence. }
  destruct (Ht e eq_refl) as [T1 T2]. pose proof (vi_entry v Hv id e He) as [O1 _ _ O4 _ _].
  assert (Hcl : closing (e_sess e) = true) by (apply (si_torn _ O1), T1).
  assert (Hsame : forall x, lease_of x = None -> sv_heap v2 !! id = Some x -> ~ holds v2 id l)
    by (intros x Hx Hh (y & Hy & Hl); congruence).
  assert (Hrest : e_assign e <> Settled -> AssignedIP (e_sess e) = None).
  { intros Hne. destruct (AssignedIP (e_sess e)); [|done]. destruct Hne. apply O4. by eexists. }
  destruct (e_assign e) as [|w|w o|l'|] eqn:Ea; try (intros [= <-]; apply (Hsame e); [|done];
    unfold lease_of; rewrite Ea, T1, T2; by destruct (AssignedIP (e_sess e))).
  assert (Hg : v2 = giveUp id e l' v -> ~ holds v2 id l).
  { intros ->. apply (Hsame (set_assign Settled e)); [|apply lookup_insert_eq]. unfold lease_of.
    change (e_sess (set_assign Settled e)) with (e_sess e). by rewrite Hrest. }
  rewrite Hcl. intros Hx. repeat case_match; try done; apply Hg; congruence.
Qed.

(** C39. Shutdown.  From any reachable state [Close], run to its end without
    interference, leaves both tables empty; every session it found has been torn down,
    for the reason of the shutdown unless it was closing for another one; and the only
    leases left are those handshakes have just obtained, which give them back when
    they come to publish them. *)
Theorem close_empties (cfg : settings) (tlsKey : bytes) (queue : Z) (pool : option IpPool.ipPool) (v : server) :
  pool_ok pool [] -> sreachable cfg tlsKey queue pool v ->
  exists v' acts, Close cfg v = Ok (v', acts) /\ sv_sessions v' = ∅ /\ sv_dataSessions v' = ∅ /\
    (forall key id e, sv_sessions v !! key = Some id -> sv_heap v !! id = Some e ->
       exists e', sv_heap v' !! id = Some e' /\ closing (e_sess e') = true /\
         getCloseReason (e_sess e') = if closing (e_sess e) then getCloseReason (e_sess e) else CloseReasonServerClose) /\
    (forall id l, holds v' id l -> exists e, sv_heap v' !! id = Some e /\ e_assign e = Leased l) /\
    (forall id now, exists v2, publish cfg now queue id v' = Ok v2 /\ forall l, ~ holds v2 id l).
Proof.
  intros Hp Hr. pose proof (sreachable_inv _ _ _ _ _ Hp Hr) as Hv. unfold Close.
  assert (Hs : server_inv (shutdown v).1) by (by destruct Hv; constructor).
  destruct (closeAll_spec cfg (table_ids v) (shutdown v).1 Hs) as (v' & acts & E & Hv' & Hdom & Hall). cbn [shutdown fst] in *.
  assert (Hgone : forall id e', sv_heap v' !! id = Some e' -> torn e' = true /\ e_todo e' = []).
  { intros id e' He'. destruct (Hall id e' He') as (e & He & [(_ & C)|(Hn & ->)]); [by destruct C|].
    assert (Hl : listed e = false).
    { destruct (listed e) eqn:El; [|done]. destruct Hn. apply (table_ids_listed v id Hv). by exists e. }
    unfold listed in Hl. apply orb_false_iff in Hl as [Ht%negb_false_iff Hd%negb_false_iff%bool_decide_eq_true]. done. }
  exists v', acts. split_and!; [done| | | | |].
  - apply map_empty. intros k. destruct (sv_sessions v' !! k) as [id|] eqn:Ek; [|done].
    apply (vi_table v' Hv') in Ek as (e & He & _ & Hl). destruct (Hgone id e He) as [G1 G2]. unfold listed in Hl. by rewrite G1, G2 in Hl.
  - apply map_empty. intros p. destruct (sv_dataSessions v' !! p) as [id|] eqn:Ek; [|done].
    apply (vi_routes v' Hv') in Ek as (e & He & _ & Hl). destruct (Hgone id e He) as [G1 _]. unfold routed in Hl.
    by rewrite G1, andb_false_r in Hl.
  - intros key id e Hk He. assert (Hin : is_Some (sv_heap v' !! id)).
    { apply elem_of_dom. rewrite Hdom. apply elem_of_dom. by exists e. }
    destruct Hin as [e' He']. exists e'. split; [done|]. destruct (Hall id e' He') as (x & Hx & Hc). cbn in Hx.
    rewrite He in Hx. injection Hx as <-. destruct Hc as [(_ & [C1 C2 C3 C4 C5 C6 C7])|(Hn & _)]; [by split|].
    destruct Hn. apply (table_ids_listed v id Hv). exists e. split; [done|].
    apply (vi_table v Hv) in Hk as (x & Hx & _ & Hl). congruence.
  - intros id l (e & He & Hl). exists e. split; [done|]. destruct (Hgone id e He) as [G1 G2]. unfold lease_of in Hl. rewrite G1, G2 in Hl.
    cbn in Hl. destruct (e_assign e); try by destruct (AssignedIP (e_sess e)). by injection Hl as ->.
  - intros id now. destruct (publish_inv cfg now queue id v' Hv') as (v2 & E2 & _). exists v2. split; [done|].
    intros l. apply (publish_torn cfg now queue id v' v2 l Hv'); [|done]. intros e He. by destruct (Hgone id e He).
Qed.

(** ** Reconnection *)

Lemma ip_Equal_addr (a b : bytes) (v : Z) :
  ip_Equal a b = true -> IpPool.addr_of a = Some v -> IpPool.addr_of b = Some v.
Proof.
  unfold ip_Equal, IpPool.addr_of. destruct (IpPool.to4 a), (IpPool.to4 b); try done. by intros ->%bool_decide_eq_true.
Qed.

(** A lease that has gone back leaves its address and its peer-id free. *)
Lemma lease_gone (p p' : IpPool.ipPool) (l : IpPool.lease) (rest : list IpPool.lease) (o : Z) :
  IpPool.lease_inv p (l :: rest) -> IpPool.lease_inv p' rest -> p_base p' = p_base p ->
  IpPool.offset_of (p_base p) l = Some o ->
  o ∉ p_usedIPs p' /\ IpPool.l_peerID l ∉ p_usedPeerIDs p' /\ 0 <= IpPool.l_peerID l <= IpPool.maxPeerID.
Proof.
  intros [_ (offs & Hall & Hnd & _) (Hnp & _ & Hb)] HP' Eb Ho.
  apply Forall2_cons_inv_l in Hall as (o' & offs' & Ho' & Hall & ->). rewrite Ho in Ho'. injection Ho' as <-.
  apply NoDup_cons in Hnd as [Hn _]. cbn in Hnp, Hb. apply NoDup_cons in Hnp as [Hn' _]. split_and!.
  - rewrite (lease_offset p' rest o HP'), Eb. intros (x & Hx & Ex). apply Hn.
    apply list_elem_of_lookup in Hx as [i Hi]. destruct (Forall2_lookup_l _ _ _ _ _ Hall Hi) as (o2 & Ho2 & E2).
    rewrite Ex in E2. injection E2 as <-. by eapply list_elem_of_lookup_2.
  - destruct (IpPool.li_peers _ _ HP') as (_ & <- & _). by rewrite elem_of_list_to_set.
  - apply Forall_cons in Hb as [Hb _]. lia.
  - apply Forall_cons in Hb as [Hb _]. lia.
Qed.

(** No session of the table is half torn down. *)
Definition calm (v : server) : Prop :=
  forall id e, sv_heap v !! id = Some e -> torn e = true -> e_todo e = [].

(** The live session that holds an address is the one found, whatever the order. *)
Lemma sessionByIP_found (v : server) (order : list nat) (old : nat) (e : entry) (ip want : bytes) (p : IpPool.ipPool) :
  server_inv v -> sv_pool v = Some p -> calm v -> list_to_set (C := gset nat) order = list_to_set (table_ids v) ->
  sv_heap v !! old = Some e -> torn e = false -> AssignedIP (e_sess e) = Some ip -> ip_Equal ip want = true ->
  sessionByIP order want v = Some old.
Proof.
  intros Hv Ep Hcalm Hord He Ht Ea Heq. pose proof (vi_pool v Hv) as HP. rewrite Ep in HP. cbn in HP.
  assert (Hin : forall i, i ∈ order <-> i ∈ table_ids v)
    by (intros i; rewrite <- (elem_of_list_to_set (C := gset nat) i order), Hord; apply elem_of_list_to_set).
  assert (Hheld : forall i x a, sv_heap v !! i = Some x -> torn x = false -> AssignedIP (e_sess x) = Some a ->
    holds v i (IpPool.mkLease a (peer_of x))).
  { intros i x a Hx Htx Ha. exists x. split; [done|]. pose proof (eo_settled _ (vi_entry v Hv i x Hx) ltac:(by eexists)) as Es.
    unfold lease_of. by rewrite Es, Ha, Htx. }
  unfold sessionByIP. set (f := fun id => _).
  assert (Hf : f old = true) by (unfold f; by rewrite He, Ea).
  destruct (List.find f order) as [i|] eqn:Ef.
  - apply List.find_some in Ef as [Hi Hfi]. apply list_elem_of_In, Hin in Hi.
    apply (table_ids_listed v i Hv) in Hi as (x & Hx & Hl). f_equal. destruct (decide (i = old)) as [|Hne]; [done|].
    unfold f in Hfi. rewrite Hx in Hfi. destruct (AssignedIP (e_sess x)) as [a|] eqn:Ex; [|done].
    assert (Htx : torn x = false).
    { destruct (torn x) eqn:Etx; [|done]. unfold listed in Hl. by rewrite Etx, (Hcalm i x Hx Etx) in Hl. }
    destruct (two_leases v i old _ _ Hne (Hheld i x a Hx Htx Ex) (Hheld old e ip He Ht Ea)) as [rest HR].
    apply (IpPool.lease_inv_perm _ _ _ HR) in HP as [_ (offs & Hall & Hnd & _) _].
    apply Forall2_cons_inv_l in Hall as (o & offs1 & Ho & Hall & ->). apply Forall2_cons_inv_l in Hall as (o' & offs2 & Ho' & _ & ->).
    exfalso. apply NoDup_cons in Hnd as [Hn _]. apply Hn. replace o with o'; [apply list_elem_of_here|].
    unfold IpPool.offset_of in Ho, Ho'. cbn [IpPool.l_ip] in *.
    destruct (IpPool.addr_of a) as [va|] eqn:Eva; [|done]. destruct (IpPool.addr_of ip) as [vi|] eqn:Evi; [|done].
    apply (ip_Equal_addr _ _ _ Heq) in Evi. apply (ip_Equal_addr _ _ _ Hfi) in Eva. cbn in Ho, Ho'. congruence.
  - exfalso. assert (Hno : f old = false); [|congruence]. apply (List.find_none _ _ Ef).
    apply list_elem_of_In, Hin, (table_ids_listed v old Hv). exists e. split; [done|]. unfold listed. by rewrite Ht.
Qed.

(** C22. A client that comes back gets its address.  Let a live session hold the address
    [Config.AssignIP] returns for a new one, on a network that does not run past the
    last IPv4 address and while no other session is half torn down.  Then the
    assignment succeeds: the older session, and no other, is torn down, for the reason
    [CloseReasonReplaced] unless it was already closing, and is out of both tables; the
    new session gets the address in its four-byte form; and nothing is counted as a
    rejection. *)
Theorem reconnect_replaces (cfg : settings) (tlsKey : bytes) (queue : Z) (p0 p : IpPool.ipPool) (v : server)
    (order : list nat) (id old : nat) (e : entry) (ip want : bytes) :
  IpPool.lease_inv p0 [] -> sreachable cfg tlsKey queue (Some p0) v -> sv_pool v = Some p ->
  p_base p + p_size p <= 2 ^ 32 -> calm v -> bytes_ok want ->
  list_to_set (C := gset nat) order = list_to_set (table_ids v) ->
  old <> id -> sv_heap v !! old = Some e -> l_torn (s_life (e_sess e)) = false ->
  AssignedIP (e_sess e) = Some ip -> ip_Equal ip want = true ->
  exists v' acts peerID ip4 e', assignTunnelIP cfg (Some (AssignIP (Some want))) order id v =
      Ok (Got (IpPool.mkLease ip4 peerID), v', acts) /\ IpPool.to4 want = Some ip4 /\
    sv_heap v' = <[old := e']> (sv_heap v) /\ l_torn (s_life (e_sess e')) = true /\ e_todo e' = [] /\
    getCloseReason (e_sess e') = (if closing (e_sess e) then getCloseReason (e_sess e) else CloseReasonReplaced) /\
    sv_sessions v' !! e_key e = None /\ sv_dataSessions v' !! PeerID (e_sess e) = None /\
    assignIPRejected (sv_stats v') = assignIPRejected (sv_stats v).
Proof.
  intros Hp0 Hr Ep Hwrap Hcalm Hb Hord Hne He Ht Ea Heq.
  pose proof (sreachable_inv _ _ _ _ _ (Hp0 : pool_ok (Some p0) []) Hr) as Hv.
  pose proof (vi_pool v Hv) as HP. rewrite Ep in HP. cbn in HP.
  pose proof (eo_settled _ (vi_entry v Hv old e He) ltac:(by eexists)) as Es.
  assert (Hle : lease_of e = Some (IpPool.mkLease ip (peer_of e))) by (unfold lease_of, torn; by rewrite Es, Ea, Ht).
  assert (HPs : IpPool.lease_inv p (IpPool.mkLease ip (peer_of e) :: leases (delete old (sv_heap v)))).
  { eapply IpPool.lease_inv_perm; [|exact HP]. etransitivity; [apply (heap_bind_out _ _ old e He)|]. cbv beta. by rewrite Hle. }
  pose proof HPs as [Hwf (offs & Hall & _ & Hset & Hrng) _].
  apply Forall2_cons_inv_l in Hall as (o & offs' & Ho & _ & ->). apply Forall_cons in Hrng as [Hrng _].
  assert (Hod : IpPool.offset_of (p_base p) (IpPool.mkLease ip (peer_of e)) = Some o) by done.
  unfold IpPool.offset_of in Ho. cbn [IpPool.l_ip] in Ho. destruct (IpPool.addr_of ip) as [va|] eqn:Eva; [|done].
  pose proof (ip_Equal_addr _ _ _ Heq Eva) as Evw. cbn in Ho. injection Ho as Ho.
  assert (Hva : is_u32 va).
  { unfold IpPool.addr_of in Evw. destruct (IpPool.to4 want) as [w4|] eqn:E4; [|done]. cbn in Evw.
    destruct (IpPool.to4_ok want w4 Hb E4) as [Hl4 Hok4]. destruct (get_u32 w4) as [x| |] eqn:Ex; [|done..]. injection Evw as <-.
    by destruct (get_u32_inv (E := IpPool.pool_error) w4 x Hok4 ltac:(unfold zlen; lia) Ex). }
  destruct (IpPool.pw_base _ Hwf) as [Hb1 Hb2]. destruct (IpPool.pw_size _ Hwf) as [Hs1 Hs2].
  assert (Hge : p_base p <= va /\ o = va - p_base p).
  { change (2 ^ 32) with 4294967296 in Hwrap. clear -Ho Hva Hb1 Hb2 Hwrap Hrng. unfold is_u32, u32 in *.
    Z.div_mod_to_equations. lia. }
  destruct Hge as [Hge ->].
  destruct (IpPool.reserve_verdict p want va Hwf Hb Evw Hge Hrng) as [Huse _].
  assert (Hin : va - p_base p ∈ p_usedIPs p) by (rewrite <- Hset; set_solver).
  unfold assignTunnelIP, assign_first, callAssignIP, reserve_want. rewrite Ep, (Huse Hin). cbn [bool_decide].
  rewrite bool_decide_eq_true_2 by done.
  assert (Hsame : with_pool (Some p) v = v) by (destruct v; cbn in *; by subst). rewrite Hsame.
  unfold holder. rewrite (sessionByIP_found v order old e ip want p) by done. rewrite bool_decide_eq_false_2 by done.
  destruct (closeSession_spec cfg CloseReasonReplaced old v e Hv He)
    as (v1 & acts & e' & -> & Hv1 & A1 & T1 & T2 & T3 & T4 & T5 & T6 & T7 & _ & _ & T8 & Hsp & _). outcome_simpl.
  unfold same_pool in Hsp. rewrite Ep in Hsp. destruct (sv_pool v1) as [p1|] eqn:Ep1; [|done]. destruct Hsp as [Hbase Hsize].
  pose proof (vi_pool v1 Hv1) as HP1. rewrite Ep1, A1 in HP1.
  assert (HPr : IpPool.lease_inv p1 (leases (delete old (sv_heap v)))).
  { eapply IpPool.lease_inv_perm; [|exact HP1]. etransitivity; [apply (heap_bind_in (fun e => option_list (lease_of e)))|]. cbv beta.
    assert (Hn : lease_of e' = None) by (unfold lease_of; by rewrite T5, Es, T6, Ea, T1, T2). by rewrite Hn. }
  destruct (lease_gone p p1 _ _ _ HPs HPr Hbase Hod) as (Hfree & Hpfree & Hprng). rewrite <- Hbase in Hge, Hfree, Hrng. rewrite <- Hsize in Hrng.
  destruct (IpPool.reserve_verdict p1 want va (IpPool.li_wf _ _ HPr) Hb Evw Hge Hrng) as [_ Hok].
  destruct (Hok Hfree _ Hprng Hpfree) as [peerID Hres].
  unfold assign_retry, reserve_want. rewrite Ep1, Hres.
  destruct (IpPool.to4 want) as [w4|] eqn:E4; [|unfold IpPool.addr_of in Evw; by rewrite E4 in Evw].
  eexists _, _, peerID, w4, e'. split; [done|]. split_and!; try done.
  - cbn. destruct (sv_sessions v1 !! e_key e) as [i|] eqn:Ei; [|done]. exfalso.
    apply (vi_table v1 Hv1) in Ei as (x & Hx & Hk & Hl). rewrite A1 in Hx. apply lookup_insert_Some in Hx as [(<- & <-)|(Hni & Hx)].
    + unfold listed in Hl. by rewrite T1, T2 in Hl.
    + assert (S1 : sv_sessions v !! e_key e = Some i) by (apply (vi_table v Hv); by exists x).
      assert (S2 : sv_sessions v !! e_key e = Some old); [|congruence].
      apply (vi_table v Hv). exists e. split_and!; [done|done|]. unfold listed, torn. by rewrite Ht.
  - cbn. destruct (sv_dataSessions v1 !! PeerID (e_sess e)) as [i|] eqn:Ei; [|done]. exfalso.
    apply (vi_routes v1 Hv1) in Ei as (x & Hx & Hk & Hl). rewrite A1 in Hx. apply lookup_insert_Some in Hx as [(<- & <-)|(Hni & Hx)].
    + unfold routed in Hl. by rewrite T1, andb_false_r in Hl.
    + assert (S1 : sv_dataSessions v !! PeerID (e_sess e) = Some i) by (apply (vi_routes v Hv); by exists x).
      assert (S2 : sv_dataSessions v !! PeerID (e_sess e) = Some old); [|congruence].
      apply (vi_routes v Hv). exists e. split_and!; [done|done|]. unfold routed, torn. by rewrite Ea, Ht.
Qed.

(** ** Datagrams nobody vouches for *)

(** The wrapper a control datagram is unwrapped with. *)
Definition control_wrapper (tlsKey : bytes) (v : server) (key : sessionKey) : option TlsCrypt.Wrapper :=
  match sv_sessions v !! key with
  | Some id => e_wrapper <$> sv_heap v !! id
  | None => match NewWrapper tlsKey true with Ok w => Some w | _ => None end
  end.

(** Whether a key the receiver has authenticates the datagram and finds it fresh. *)
Definition genuine (tlsKey : bytes) (v : server) (now : Z) (addr packet : bytes) : bool :=
  match packet with
  | [] => false
  | b :: _ =>
      if Serve.is_data_opcode (ParseHeaderByte b).1 then
        match packetPeerID packet with
        | Ok peerID =>
            match sv_dataSessions v !! peerID ≫= fun id => sv_heap v !! id with
            | Some e => bool_decide (is_Some (verdict (e_sess e) now packet))
            | None => false
            end
        | _ => false
        end
      else
        match control_wrapper tlsKey v (addr, take 8 (drop 1 packet)) with
        | Some w => is_ok (unwrap_verdict w [] packet)
        | None => false
        end
  end.

(** The same server but for replay windows of data keys and the counter of rejected
    datagrams. *)
Record inert (v v' : server) : Prop := {
  in_tables : sv_sessions v' = sv_sessions v /\ sv_dataSessions v' = sv_dataSessions v /\ sv_pool v' = sv_pool v /\
    sv_jobs v' = sv_jobs v /\ sv_next v' = sv_next v /\ sv_closed v' = sv_closed v;
  in_stats : sv_stats v' = sv_stats v \/ sv_stats v' = addRejected (sv_stats v);
  in_heap : forall id e', sv_heap v' !! id = Some e' -> exists e, sv_heap v !! id = Some e /\
    e_key e' = e_key e /\ e_SessionID e' = e_SessionID e /\ e_wrapper e' = e_wrapper e /\ e_inbound e' = e_inbound e /\
    e_assign e' = e_assign e /\ e_todo e' = e_todo e /\ (e_state e').2 = (e_state e).2 /\
    same_but_windows (e_sess e) (e_sess e');
}.

Lemma same_windows_refl (s : Session W) : same_but_windows s s.
Proof. split_and!; auto using slot_windows_refl. Qed.

Lemma inert_refl (v : server) : inert v v.
Proof. constructor; [done|by left|]. intros id e He. exists e. split_and!; auto using same_windows_refl. Qed.

Lemma inert_rejected (v : server) : inert v (count addRejected v).
Proof. constructor; [done|by right|]. intros id e He. exists e. split_and!; auto using same_windows_refl. Qed.

Lemma forged_control (tlsKey : bytes) (serverSID : option bytes) (addr packet : bytes) (v : server) (j : job) :
  server_inv v -> zlen tlsKey = 256 -> lookup_datagram addr packet v = Some j ->
  (forall w, control_wrapper tlsKey v (addr, take 8 (drop 1 packet)) = Some w -> is_ok (unwrap_verdict w [] packet) = false) ->
  exists v', authenticate_job tlsKey serverSID j v = Ok (v', None) /\ inert v v'.
Proof.
  intros Hv Hk Hj Hw. unfold lookup_datagram in Hj. destruct packet as [|b packet]; [done|].
  destruct (_ <? zlen _); [done|]. destruct (ParseHeaderByte b) as [opcode keyID]. destruct (negb _); [done|].
  destruct (_ <? minDatagramSize); [done|]. cbv zeta in Hj. unfold control_wrapper in Hw.
  assert (Hau : forall w hdr, is_ok (unwrap_verdict w [] (b :: packet)) = false ->
    authenticate_control w hdr (b :: packet) = (Ok None, w)).
  { intros w hdr Hu. unfold authenticate_control. rewrite Unwrap_result, Hu.
    pose proof (unwrap_verdict_ok w [] (b :: packet)). by destruct (unwrap_verdict w [] (b :: packet)) as [[]|e|]. }
  destruct (sv_sessions v !! _) as [id|] eqn:Es.
  - injection Hj as <-. destruct (proj1 (vi_table v Hv _ _) Es) as (e & He & _). rewrite He in Hw. cbn in Hw.
    cbn [authenticate_job]. rewrite He, Hau by by apply Hw. outcome_simpl.
    eexists. split; [done|]. unfold put. replace (set_tls (e_wrapper e) e) with e by by destruct e.
    rewrite insert_id by done. replace (with_heap (sv_heap v) v) with v by by destruct v. apply inert_rejected.
  - destruct (_ || _); [done|]. injection Hj as <-. unfold NewWrapper in Hw. cbn [authenticate_job]. unfold NewWrapper.
    rewrite Hk in *. cbn [Z.eqb Pos.eqb negb] in *. destruct serverSID; [|eexists; split; [done|apply inert_refl]].
    rewrite Hau by by apply Hw. outcome_simpl. eexists. split; [done|apply inert_rejected].
Qed.

Lemma forged_data (cfg : settings) (now : Z) (pick : bool) (opcode : Z) (packet : bytes) (v : server) :
  server_inv v ->
  (forall peerID id e, packetPeerID packet = Ok peerID -> sv_dataSessions v !! peerID = Some id ->
     sv_heap v !! id = Some e -> verdict (e_sess e) now packet = None) ->
  exists v', handleDataDatagram cfg now pick opcode packet v = Ok (v', []) /\ inert v v'.
Proof.
  intros Hv Hg. unfold handleDataDatagram.
  destruct (negb _); [eexists; split; [done|apply inert_rejected]|].
  destruct (Z.ltb_spec (zlen packet) 4); [eexists; split; [done|apply inert_rejected]|].
  destruct (packetPeerID_ok packet) as [p Ep]; [done|]. rewrite Ep. outcome_simpl.
  destruct (sv_dataSessions v !! p) as [id|] eqn:Er; [|eexists; split; [done|apply inert_rejected]].
  destruct (proj1 (vi_routes v Hv _ _) Er) as (e & He & _). specialize (Hg p id e Ep Er He).
  destruct (handleDataPacket_eq cfg now pick (e_sess e) packet) as (s1 & Hs & Hx). rewrite Hg in Hx.
  assert (E : exec cfg (e_state e) (EData now pick packet) = Ok ((s1, (e_state e).2), [])).
  { unfold e_sess in Hx. destruct (e_state e) as [s op]. cbn in *. by rewrite Hx. }
  destruct (session_event_heap cfg id (EData now pick packet) v e _ _ He E) as (v' & E' & _).
  rewrite E'. outcome_simpl. exists v'. split; [done|]. unfold session_event in E'. rewrite He, E in E'. cbn in E'.
  injection E' as <-. constructor; cbn; [done|by left|]. intros i x Hi.
  apply lookup_insert_Some in Hi as [(<- & <-)|(Hne & Hi)].
  - exists e. rewrite app_nil_r. by split_and!.
  - exists x. split_and!; auto using same_windows_refl.
Qed.

(** C19. What no key vouches for changes nothing.  Let no key the server has for the
    sender authenticate a datagram as fresh: for a data packet the keys of the session
    that its peer-id is routed to, for a control packet the tls-crypt key with the
    replay window of the session of its address and session id, or a new one for an
    unknown pair.  Then, whatever its length and content, the handler neither panics
    nor answers it; no session is created, no table, queue, counter or key changes
    but the replay windows of data keys, and the count of rejected datagrams. *)
Theorem forged_datagram_inert (cfg : settings) (tlsKey : bytes) (serverSID : option bytes) (queue : Z)
    (pool : option IpPool.ipPool) (v : server) (now : Z) (pick : bool) (addr packet : bytes) :
  pool_ok pool [] -> sreachable cfg tlsKey queue pool v -> zlen tlsKey = 256 ->
  genuine tlsKey v now addr packet = false ->
  exists v', handleDatagram cfg tlsKey serverSID now pick addr packet v = Ok (v', []) /\ inert v v'.
Proof.
  intros Hp Hr Hk Hg. pose proof (sreachable_inv _ _ _ _ _ Hp Hr) as Hv. unfold handleDatagram, arrive.
  destruct packet as [|b rest]; [eexists; split; [done|apply inert_rejected]|].
  unfold genuine in Hg. set (packet := b :: rest) in *.
  destruct (Serve.is_data_opcode _) eqn:Ed.
  - rewrite andb_true_r. destruct (Z.leb_spec (zlen packet) Serve.maxDatagramSize) as [Hl|Hl].
    + destruct (forged_data cfg now pick (ParseHeaderByte b).1 packet v Hv) as (v' & -> & Hi).
      { intros p id e Ep Er He. rewrite Ep, Er in Hg. cbn in Hg. rewrite He in Hg.
        apply bool_decide_eq_false in Hg. by apply eq_None_not_Some. }
      outcome_simpl. by exists v'.
    + assert (lookup_datagram addr packet v = None) as ->.
      { unfold lookup_datagram, packet. fold packet. by rewrite (proj2 (Z.ltb_lt _ _) Hl). }
      eexists; split; [done|apply inert_rejected].
  - rewrite andb_false_r. destruct (lookup_datagram addr packet v) as [j|] eqn:Ej.
    2:{ eexists; split; [done|apply inert_rejected]. }
    outcome_simpl. destruct (forged_control tlsKey serverSID addr packet v j Hv Hk Ej) as (v' & -> & Hi).
    { intros w Hw. by rewrite Hw in Hg. }
    outcome_simpl. by exists v'.
Qed.

(** ** Opening a session *)

(** A hard reset that authenticates: what a wrapper with nothing received makes of it. *)
Record hard_reset (tlsKey packet : bytes) (w : TlsCrypt.Wrapper) (cp : ControlPacket) : Prop := {
  hr_len : zlen packet <= Serve.maxDatagramSize;
  hr_bytes : bytes_ok packet;
  hr_first : exists b rest, packet = b :: rest /\ ParseHeaderByte b = (OpControlHardResetClientV2, 0);
  hr_wrapper : NewWrapper tlsKey true = Ok w;
  hr_payload : exists prefix plaintext, unwrap_verdict w [] packet = Ok (prefix, plaintext) /\
    ParseControlPacket plaintext (mkHeader OpControlHardResetClientV2 0 (take 8 (drop 1 packet))) = Ok cp;
}.

Lemma unwrap_twice (w : TlsCrypt.Wrapper) (packet : bytes) :
  bytes_ok packet -> w_replay w = zeroReplayWindow ->
  is_ok (unwrap_verdict (Unwrap w [] packet).2 [] packet) = false.
Proof.
  intros Hb Hz. rewrite Unwrap_result. cbn [snd]. destruct (is_ok (unwrap_verdict w [] packet)) eqn:Eu; [|done].
  unfold unwrap_verdict in *. unfold TlsCrypt.accept in *. destruct (Z.ltb_spec (zlen packet) 49) as [Hl|Hl]; [done|].
  rewrite Hz in *. set (w' := with_replay w _). change (tag_verifies w' packet) with (tag_verifies w packet).
  destruct (tag_verifies w packet); [|done]. cbn [negb]. change (w_replay w') with (accept zeroReplayWindow (seq_of packet)).2. clearbody w'.
  assert (Hs : is_u32 (seq_of packet)).
  { unfold seq_of. destruct (get_u32_total (E := tc_error) (take 4 (drop 9 packet))) as [x Hx].
    - unfold zlen in *. rewrite length_take, length_drop. lia.
    - rewrite Hx. refine (proj1 (get_u32_inv (E := tc_error) _ x _ _ Hx)); [by auto with word|].
      unfold zlen in *. rewrite length_take, length_drop. lia. }
  destruct (accept zeroReplayWindow (seq_of packet)) as [ok r] eqn:E1.
  destruct (accept_refines _ _ _ _ _ Hs zero_models E1) as (-> & Hm & _). cbn [fst snd window_accepts] in *.
  destruct (accept r (seq_of packet)) as [ok2 r2] eqn:E2.
  destruct (accept_refines _ _ _ _ _ Hs Hm E2) as (-> & _). cbn [fst].
  destruct (window_accepts _ _) eqn:Ew; [|done]. apply window_accepts_fresh in Ew. destruct Ew. apply list_elem_of_here.
Qed.

Lemma NewWrapper_zero (tlsKey : bytes) (w : TlsCrypt.Wrapper) : NewWrapper tlsKey true = Ok w -> w_replay w = zeroReplayWindow.
Proof. unfold NewWrapper. destruct (negb _); [done|]. by intros [= <-]. Qed.

(** A session for a client, once.  A hard reset that authenticates under the
    tls-crypt key, from an address and session id without a session, opens exactly
    one: under that key in the table, with the next identity, nothing established and
    no address, answered by the server's own hard reset on the new control channel and
    counted as one handshake.  No other session, table or counter changes.  The same
    datagram arriving once more, at any time, is a replay to the session it opened:
    no key vouches for it. *)
Theorem hard_reset_once (cfg : settings) (tlsKey serverSID : bytes) (queue : Z)
    (pool : option IpPool.ipPool) (v : server) (now : Z) (pick : bool) (addr packet : bytes)
    (w : TlsCrypt.Wrapper) (cp : ControlPacket) :
  pool_ok pool [] -> sreachable cfg tlsKey queue pool v -> hard_reset tlsKey packet w cp ->
  let key : sessionKey := (addr, take 8 (drop 1 packet)) in
  sv_sessions v !! key = None ->
  exists v', handleDatagram cfg tlsKey (Some serverSID) now pick addr packet v =
      Ok (v', [(sv_next v, RespondOn 0 cp OpControlHardResetServerV2)]) /\
    sv_sessions v' = <[key := sv_next v]> (sv_sessions v) /\
    sv_heap v !! sv_next v = None /\
    sv_heap v' = <[sv_next v := newEntry key serverSID (Unwrap w [] packet).2]> (sv_heap v) /\
    sv_dataSessions v' = sv_dataSessions v /\ sv_pool v' = sv_pool v /\ sv_stats v' = addStarted (sv_stats v) /\
    forall now', genuine tlsKey v' now' addr packet = false.
Proof.
  intros Hp Hr [Hlen Hb (b & rest & -> & Eh) Hw (pre & pt & Hu & Hc)] key Hn.
  pose proof (sreachable_inv _ _ _ _ _ Hp Hr) as Hv. unfold handleDatagram, arrive. rewrite Eh. cbn [fst].
  assert (Serve.is_data_opcode OpControlHardResetClientV2 = false) as Hd by done. rewrite Hd, andb_false_r.
  set (packet := b :: rest) in *.
  assert (Hmin : 49 <= zlen packet).
  { unfold unwrap_verdict in Hu. by destruct (Z.ltb_spec (zlen packet) 49). }
  assert (Hl : lookup_datagram addr packet v =
    Some (Fresh addr (mkHeader OpControlHardResetClientV2 0 (take 8 (drop 1 packet))) packet)).
  { unfold lookup_datagram, packet. fold packet. rewrite (proj2 (Z.ltb_ge _ _)) by done. rewrite Eh.
    change (negb (ValidOpcode OpControlHardResetClientV2)) with false.
    rewrite (proj2 (Z.ltb_ge _ _)) by done. cbv zeta. by replace (sv_sessions v !! _) with (@None nat) by (symmetry; exact Hn). }
  rewrite Hl. outcome_simpl. cbn [authenticate_job]. rewrite Hw.
  unfold authenticate_control. pose proof (Unwrap_result w [] packet) as HU. rewrite Hu in HU.
  pose proof (unwrap_twice w packet Hb (NewWrapper_zero _ _ Hw)) as Htw.
  destruct (Unwrap w [] packet) as [r w'] eqn:EU. injection HU as -> HU. cbn [snd] in *. rewrite Hc. outcome_simpl.
  unfold as_dc, mbind, outcome_bind. cbv beta iota. cbn [finish_job]. unfold insert_candidate.
  cbn [newEntry e_key hdr_SessionID]. fold key.
  replace (sv_sessions v !! _) with (@None nat) by (symmetry; exact Hn). eexists. split; [done|]. split_and!; try done.
  - cbn. destruct (sv_heap v !! sv_next v) eqn:E; [|done]. apply (vi_fresh v Hv) in E. lia.
  - intros now'. unfold genuine, packet. fold packet. rewrite Eh. cbn [fst]. rewrite Hd. fold key.
    unfold control_wrapper. cbn [count sv_sessions sv_heap]. by rewrite !lookup_insert_eq.
Qed.

(** ** Runs *)

(** The callers' obligations as a check. *)
Definition event_okb (s : Session W) (ev : event (W := W)) : bool :=
  match ev with
  | EPublishKeys dk c _ => (zlen (k2_raw dk) =? 256) && negb (Cipher.cipherKeyLen c =? 0)
  | EPublishLease _ _ _ _ _ => negb (Cipher.cipherKeyLen (Session.Cipher s) =? 0)
  | EFinish _ _ (RenegKeys dk) => zlen (k2_raw dk) =? 256
  | _ => true
  end.

Definition sevent_okb (v : server) (ev : sevent (W := W)) : bool :=
  match ev with
  | SSession id ev => match sv_heap v !! id with Some e => event_okb (e_sess e) ev | None => true end
  | SAssign _ (Some (AssignIP (Some want))) => bool_decide (bytes_ok want)
  | _ => true
  end.

Lemma sevent_okb_ok (v : server) (ev : sevent (W := W)) : sevent_okb v ev = true -> sevent_ok v ev.
Proof.
  destruct ev as [| | | |id ev| |id hook| | | |]; cbn; try done.
  - intros Hb e He. rewrite He in Hb. destruct ev as [dk c ncp|? ? ? ? w| | | | | | | | | | | | |? ? [| |dk]| | | |]; cbn in *; try done.
    + apply andb_true_iff in Hb as [->%Z.eqb_eq Hc]. split; [done|]. by apply Z.eqb_neq, negb_true_iff.
    + by apply Z.eqb_neq, negb_true_iff.
    + by apply Z.eqb_eq.
  - destruct hook as [[[want|]| |]|]; try done. by intros ?%bool_decide_eq_true.
Qed.

(** A run of the server; [None]: a step panicked or its caller broke its word. *)
Fixpoint srun (cfg : settings) (tlsKey : bytes) (queue : Z) (v : server) (evs : list sevent)
    : option (server * list (nat * action)) :=
  match evs with
  | [] => Some (v, [])
  | ev :: evs =>
      if sevent_okb v ev then
        match sexec cfg tlsKey queue v ev with
        | Ok (v, a1) => '(v, a2) ← srun cfg tlsKey queue v evs; Some (v, a1 ++ a2)
        | _ => None
        end
      else None
  end.

Lemma srun_reachable (cfg : settings) (tlsKey : bytes) (queue : Z) (pool : option IpPool.ipPool) (evs : list sevent)
    (v v' : server) (A : list (nat * action)) :
  sreachable cfg tlsKey queue pool v -> srun cfg tlsKey queue v evs = Some (v', A) -> sreachable cfg tlsKey queue pool v'.
Proof.
  revert v A. induction evs as [|ev evs IH]; intros v A Hr; cbn; [by intros [= <- <-]|].
  destruct (sevent_okb v ev) eqn:Eo; [|done]. destruct (sexec _ _ _ _ _) as [[v1 a1]| |] eqn:Ex; try done.
  destruct (srun _ _ _ v1 evs) as [[v2 a2]|] eqn:Er; [|done]. cbn. intros [= <- <-].
  eapply IH; [|exact Er]. eapply sreach_step; [done|by apply sevent_okb_ok|done].
Qed.
End props.

(** ** Examples and witnesses *)

Module Toy.
Import SessionProps.Toy.
#[export] Existing Instances DataChan.Toy.aead DataChan.Toy.laws TlsCrypt.Toy.prims TlsCrypt.Toy.laws.

Definition tlsKey : bytes := TlsCrypt.Toy.key.
Definition pool : IpPool.ipPool := IpPool.ToyPool.pool0.
Definition addr (i : Z) : bytes := of_string "10.0.0." ++ [48 + i] ++ of_string ":1194".
Definition sid (i : Z) : bytes := replicate 8 i.

(** A client's first datagram. *)
Definition reset (i : Z) : bytes :=
  let header := 56 :: sid i in
  match NewWrapper tlsKey false with
  | Ok w => wrapWithPID w [] header (be32 1 ++ be32 100)
              (AppendPlaintext (mkControlPacket OpControlHardResetClientV2 0 (sid i) [] zeroSessionID 0 []) [])
  | _ => []
  end.

Notation sevent := (sevent (W := replayWindow)).
Notation server := (server (W := replayWindow)).

(** A client knocks and becomes session [id]. *)
Definition knock (i : Z) : list sevent :=
  [SArrive 0 false (addr i) (reset i); SAuth 0 (Some (replicate 8 77)); SFinish 0 false 0].
(** Its handshake up to the negotiated keys. *)
Definition keys (id : nat) : list sevent := [SSession id (EPublishKeys oldKey Cipher.AES256 true)].
(** And on to its hand-over, at the address the embedder wants. *)
Definition up (id : nat) (want : bytes) : list sevent :=
  keys id ++ [SAssign id (Some (AssignIP (Some want))); SPublish 5 id; SSession id EHandshakeDone; SSession id EPublish].

Definition srun0 (evs : list sevent) : option (server * list (nat * action)) :=
  srun cfg tlsKey 8 (newServer (Some pool)) evs.
Definition final (evs : list sevent) : server := match srun0 evs with Some (v, _) => v | None => newServer None end.

Definition home : bytes := [10; 9; 0; 3].
(** One client is served; another has its keys. *)
Definition busy : list sevent := knock 1 ++ up 0 home ++ knock 2 ++ keys 1.

Lemma run_reaches (evs : list sevent) :
  is_Some (srun0 evs) -> sreachable cfg tlsKey 8 (Some pool) (final evs).
Proof.
  unfold final. intros [[v A] E]. rewrite E. eapply srun_reachable; [apply sreach_new|exact E].
Qed.

Lemma pool_fresh : IpPool.lease_inv pool [].
Proof. apply (IpPool.newIPPool_inv IpPool.ToyPool.net); [decide_now|vm_compute; reflexivity]. Qed.

(** A datagram in flight across [Close] opens a session in a closed server, after the
    sessions to be torn down have been collected: nothing will tear it down. *)
Definition leaked : server := final [SArrive 0 false (addr 1) (reset 1); SAuth 0 (Some (sid 9)); SClose; SFinish 0 false 0].
Example opened_after_close :
  sv_closed leaked = true /\ map_to_list (sv_sessions leaked) = [((addr 1, sid 1), 0%nat)].
Proof. split; vm_compute; reflexivity. Qed.

(** A session half torn down, its address given back and leased to another one, still
    stands in the table with that address: a third client that is to get the address
    may find it instead of the holder, and is refused. *)
Definition dying : list sevent :=
  knock 1 ++ up 0 home ++ [SSession 0 (ECloseBegin CloseReasonEmbedder); SSession 0 ECloseEnd; SLater 0] ++
  knock 2 ++ up 1 home ++ knock 3 ++ keys 2 ++
  [SAssign 2 (Some (AssignIP (Some home))); SFind 2 [0; 1; 2]%nat; SLater 0; SSession 0 ECloseNotify; SRetry 2].
Example dying_holder :
  assignIPRejected (sv_stats (final dying)) = 1 /\
  (e_assign <$> sv_heap (final dying) !! 2%nat) = Some Settled /\
  (AssignedIP ∘ e_sess <$> sv_heap (final dying) !! 2%nat) = Some None /\
  (AssignedIP ∘ e_sess <$> sv_heap (final dying) !! 1%nat) = Some (Some home).
Proof. split_and!; vm_compute; reflexivity. Qed.

(** A handshake in flight when the server closes is counted after all, as failed, once
    its connection has been closed under it. *)
Example closed_handshake_counted :
  handshakesFailed (sv_stats (final (knock 1 ++ [SClose; SSession 0 (ECloseBegin CloseReasonServerClose);
    SSession 0 ECloseEnd; SSession 0 (EHandshakeFailed FailTLS)]))) = 1.
Proof. vm_compute. reflexivity. Qed.

(** A session evicted between the publication of its address and its hand-over was
    never handed over, and its end is not reported. *)
Example evicted_unpublished :
  let evs := knock 1 ++ keys 0 ++ [SAssign 0 (Some (AssignIP (Some home))); SPublish 5 0] ++ knock 2 ++ keys 1 ++
    [SAssign 1 (Some (AssignIP (Some home))); SFind 1 [0; 1]%nat; SSession 0 ECloseEnd; SLater 0; SLater 0;
     SSession 0 ECloseNotify; SRetry 1; SSession 0 EHandshakeDone; SSession 0 EPublish] in
  (getCloseReason ∘ e_sess <$> sv_heap (final evs) !! 0%nat) = Some CloseReasonReplaced /\
  match srun0 evs with
  | Some (_, acts) => existsb (fun x => match x.2 with CallOnSessionClosed _ | CallOnSession => true | _ => false end) acts = false
  | None => False
  end.
Proof. split; vm_compute; reflexivity. Qed.

(** The handshake window closes a session that has just been established when both
    cases of its [select] are ready. *)
Example window_closes_established :
  let evs := knock 1 ++ up 0 home ++ [SSession 0 (EHandshakeWindow false)] in
  handshakesCompleted (sv_stats (final evs)) = 1 /\ handshakesTimedOut (sv_stats (final evs)) = 0 /\
  (closing ∘ e_sess <$> sv_heap (final evs) !! 0%nat) = Some true.
Proof. split_and!; vm_compute; reflexivity. Qed.
End Toy.

Import SessionProps.Toy Toy.

Lemma server_tables_witness :
  (exists v' acts, sexec cfg tlsKey 8 (final busy) SClose = Ok (v', acts)) /\
  sv_sessions (final busy) !! (addr 2, sid 2) = Some 1%nat /\
  (forall peerID id, sv_dataSessions (final busy) !! peerID = Some id ->
     exists e, sv_heap (final busy) !! id = Some e /\ PeerID (e_sess e) = peerID).
Proof.
  destruct (server_tables cfg tlsKey 8 (Some pool) (final busy) pool_fresh) as (Hok & Htab & Hroute).
  - apply run_reaches. vm_compute. by eexists.
  - split_and!.
    + apply Hok. exact I.
    + apply Htab. exists (default (newEntry (addr 0, []) [] (TlsCrypt.mkWrapper (TlsCrypt.mkKeySlot [] []) (TlsCrypt.mkKeySlot [] []) 0 0 0 zeroReplayWindow))
        (sv_heap (final busy) !! 1%nat)).
      split; [vm_compute; reflexivity|]. split; [vm_compute; reflexivity|]. intros [Hx _]. vm_compute in Hx. discriminate Hx.
    + intros p id Hp. apply Hroute in Hp as (e & He & Hpe & _). exists e. split; [exact He|exact Hpe].
Defined.

Lemma tunnel_leases_witness :
  exists p, sv_pool (final busy) = Some p /\
    (forall o, o ∈ p_usedIPs p <-> exists id l, holds (final busy) id l /\ IpPool.offset_of (p_base p) l = Some o).
Proof.
  destruct (sv_pool (final busy)) as [p|] eqn:Ep; [|vm_compute in Ep; discriminate Ep].
  exists p. split; [reflexivity|].
  destruct (tunnel_leases cfg tlsKey 8 pool p (final busy) pool_fresh) as [H _]; [|exact Ep|exact H].
  apply run_reaches. vm_compute. by eexists.
Defined.

Lemma handshake_counters_witness :
  let s := sv_stats (final busy) in
  handshakesStarted s = 2 /\ handshakesCompleted s = 1 /\
  handshakesStarted s = u64 (handshakesCompleted s + handshakesFailed s + handshakesTimedOut s + authFailed s +
                             cipherNegotiationFailed s + unsettled (final busy)).
Proof.
  split; [vm_compute; reflexivity|]. split; [vm_compute; reflexivity|].
  apply (handshake_counters cfg tlsKey 8 (Some pool) (final busy) pool_fresh).
  apply run_reaches. vm_compute. by eexists.
Defined.

Lemma close_empties_witness :
  exists v' acts, Close cfg (final busy) = Ok (v', acts) /\ sv_sessions v' = ∅ /\ sv_dataSessions v' = ∅.
Proof.
  destruct (close_empties cfg tlsKey 8 (Some pool) (final busy) pool_fresh) as (v' & acts & H1 & H2 & H3 & _).
  - apply run_reaches. vm_compute. by eexists.
  - exists v', acts. split; [exact H1|]. split; [exact H2|exact H3].
Defined.

Lemma reconnect_replaces_witness :
  exists v' acts peerID, assignTunnelIP cfg (Some (AssignIP (Some home))) [1; 0]%nat 1 (final busy) =
      Ok (Got (IpPool.mkLease home peerID), v', acts) /\ sv_sessions v' !! (addr 1, sid 1) = None.
Proof.
  destruct (sv_pool (final busy)) as [p|] eqn:Ep; [|vm_compute in Ep; discriminate Ep].
  destruct (sv_heap (final busy) !! 0%nat) as [e|] eqn:He; [|vm_compute in He; discriminate He].
  assert (Hbase : p_base p + p_size p <= 2 ^ 32).
  { vm_compute in Ep. injection Ep as <-. by vm_compute. }
  assert (Hk : e_key e = (addr 1, sid 1) /\ l_torn (s_life (e_sess e)) = false /\ AssignedIP (e_sess e) = Some home).
  { vm_compute in He. injection He as <-. split_and!; vm_compute; reflexivity. }
  destruct Hk as (Hk & Ht & Ha).
  assert (Hr : sreachable cfg tlsKey 8 (Some pool) (final busy)) by (apply run_reaches; vm_compute; by eexists).
  assert (Hc : calm (final busy)).
  { intros i x Hx. destruct i as [|[|i]].
    - rewrite He in Hx. injection Hx as <-. unfold torn. rewrite Ht. discriminate.
    - vm_compute in Hx. injection Hx as <-. vm_compute. discriminate.
    - pose proof (vi_fresh _ (sreachable_inv _ _ _ _ _ (pool_fresh : pool_ok (Some pool) []) Hr) _ _ Hx) as Hlt.
      assert (E : sv_next (final busy) = 2%nat) by (vm_compute; reflexivity). rewrite E in Hlt. lia. }
  destruct (reconnect_replaces cfg tlsKey 8 pool p (final busy) [1; 0]%nat 1 0 e home home pool_fresh Hr Ep Hbase Hc)
    as (v' & acts & peerID & ip4 & e' & H1 & H2 & _ & _ & _ & _ & H3 & _).
  - decide_now.
  - vm_compute. reflexivity.
  - discriminate.
  - exact He.
  - exact Ht.
  - exact Ha.
  - vm_compute. reflexivity.
  - exists v', acts, peerID. injection H2 as <-. rewrite Hk in H3. split; [exact H1|exact H3].
Defined.

Lemma forged_datagram_inert_witness :
  exists v', handleDatagram cfg tlsKey (Some (sid 9)) 7 false (addr 5) (56 :: sid 6 ++ drop 9 (reset 5)) (final busy) = Ok (v', []) /\
    sv_sessions v' = sv_sessions (final busy).
Proof.
  destruct (forged_datagram_inert cfg tlsKey (Some (sid 9)) 8 (Some pool) (final busy) 7 false (addr 5)
    (56 :: sid 6 ++ drop 9 (reset 5)) pool_fresh) as (v' & H1 & H2).
  - apply run_reaches. vm_compute. by eexists.
  - vm_compute. reflexivity.
  - vm_compute. reflexivity.
  - exists v'. split; [exact H1|]. apply (in_tables _ _ H2).
Defined.

Lemma hard_reset_once_witness :
  exists v' cp, handleDatagram cfg tlsKey (Some (sid 9)) 7 false (addr 5) (reset 5) (final busy) =
      Ok (v', [(2%nat, RespondOn 0 cp OpControlHardResetServerV2)]) /\
    genuine tlsKey v' 7 (addr 5) (reset 5) = false.
Proof.
  destruct (NewWrapper tlsKey true) as [w| |] eqn:Ew; [|vm_compute in Ew; discriminate Ew..].
  set (cp := mkControlPacket OpControlHardResetClientV2 0 (sid 5) [] zeroSessionID 0 []).
  assert (Hh : hard_reset tlsKey (reset 5) w cp).
  { vm_compute in Ew. injection Ew as <-. constructor.
    - vm_compute. discriminate.
    - decide_now.
    - eexists _, _. split; vm_compute; reflexivity.
    - vm_compute. reflexivity.
    - eexists _, _. split; vm_compute; reflexivity. }
  destruct (hard_reset_once cfg tlsKey (sid 9) 8 (Some pool) (final busy) 7 false (addr 5) (reset 5) w cp pool_fresh)
    as (v' & H1 & _ & _ & _ & _ & _ & _ & H2).
  - apply run_reaches. vm_compute. by eexists.
  - exact Hh.
  - vm_compute. reflexivity.
  - exists v', cp. split; [exact H1|apply H2].
Defined.
End ServerProps.
