(* ===== verification/Handshake.v ===== *)
(** * Handshake: a session from its first datagram to its hand-over

    Model of [runHandshake] and [performPushExchange] of [ovpn.go], composed of what
    [Auth], [Push], [Session] and [Server] model: the key exchange over TLS, the loop
    that answers push requests, the assignment and publication of the tunnel address
    on the first of them, and the ways a bring-up ends.

    Below the buffered reader of a session is the TLS connection: what its next reads
    return, after which they fail.  The TLS handshake, the hooks, the randoms and the
    success of writes are arguments.  The body runs without interference; it is a
    sequence of steps of the server. *)

From stdpp Require Import gmap.
From S2P Require Import Prelude GoText Wire TlsCrypt Replay KeyDeriv DataChan Cipher IpPool Push Session SessionProps Auth Serve Server ServerInv ServerProps.
Import IpPool Session SessionProps Server ServerInv ServerProps.

Module Handshake.

(** ** The buffered reader *)

(** What is buffered, and what the reads of the connection will return. *)
Record reader := mkReader { r_buf : bytes; r_reads : list bytes }.

(** A read into the empty buffer; a read of no bytes is repeated. *)
Fixpoint fill (reads : list bytes) : option (Z * reader) :=
  match reads with
  | [] => None
  | [] :: reads => fill reads
  | (b :: chunk) :: reads => Some (b, mkReader chunk reads)
  end.

Definition ReadByte (r : reader) : option (Z * reader) :=
  match r_buf r with b :: buf => Some (b, mkReader buf (r_reads r)) | [] => fill (r_reads r) end.

Definition Buffered (r : reader) : Z := zlen (r_buf r).

(** The loop of [readControlString] over it. *)
Fixpoint readLoop (quota : nat) (r : reader) (buf : bytes) : outcome Push.push_error (bytes * reader) :=
  match quota with
  | O => Err Push.ErrNoTerminator
  | S quota =>
      match ReadByte r with
      | None => Err Push.ErrReaderEOF
      | Some (b, r) => if b =? 0 then Ok (buf, r) else readLoop quota r (buf ++ [b])
      end
  end.

Definition readControlString (r : reader) : outcome Push.push_error (bytes * reader) :=
  readLoop (Z.to_nat Push.maxControlStringLen) r [].

(** The bytes still to come. *)
Definition flatten (r : reader) : bytes := r_buf r ++ concat (r_reads r).

(** The reader when [n] more bytes have been read. *)
Fixpoint skip (n : nat) (reads : list bytes) : reader :=
  match reads with
  | [] => mkReader [] []
  | chunk :: reads => if (n <=? length chunk)%nat then mkReader (drop n chunk) reads else skip (n - length chunk) reads
  end.

Definition advance (n : nat) (r : reader) : reader :=
  if (n <=? length (r_buf r))%nat then mkReader (drop n (r_buf r)) (r_reads r)
  else skip (n - length (r_buf r)) (r_reads r).

(** ** What a bring-up meets *)

Record world := mkWorld {
  w_tls : bool;                                     (* the TLS handshake succeeds *)
  w_auth : bytes -> bytes -> Auth.hook_result;      (* [Config.AuthUserPass], if set *)
  w_rand1 : option bytes;                           (* [rand.Read] *)
  w_rand2 : option bytes;
  w_keyWrite : bool;                                (* the write of the key message succeeds *)
  w_assign : option assign_result;                  (* [Config.AssignIP], if set *)
  w_order : list nat;                               (* the order of the session table *)
  w_replyWrite : nat -> bool;                       (* the write of the n-th push reply *)
  w_now : Z;
}.

Definition pushRequestLiteral : bytes := of_string "PUSH_REQUEST".

Inductive push_failure :=
  | NoNetwork | NoCipher | BadRequest (e : Push.push_error) | UnexpectedRequest (req : bytes)
  | NotAssigned | NotPublished | ReplyNotWritten | OutOfFuel.

(** The bytes of [n] push requests. *)
Definition requests (n : nat) : bytes := concat (replicate n (pushRequestLiteral ++ [0])).

Section handshake.
Context {W : Type} `{!AntiReplay W} `{!DataChan.AEAD} `{!TLSCryptPrims} `{!PRFHashes}.
Notation entry := (entry (W := W)).
Notation server := (server (W := W)).
Variables (C : Serve.Config) (R : Serve.resolved).

Definition settings_of : settings := Serve.session_settings C R.

(** [sess.assignedIP]. *)
Definition assignedIP (id : nat) (v : server) : option bytes :=
  sv_heap v !! id ≫= fun e => AssignedIP (e_sess e).

(** The reply to a push request; [None]: its text is not modelled. *)
Definition pushReply (id : nat) (v : server) : option bytes :=
  e ← sv_heap v !! id;
  ip ← AssignedIP (e_sess e);
  network ← Serve.c_Network C;
  Push.buildPushReply ip network (PeerID (e_sess e)) (Session.Cipher (e_sess e)) (a_peerSupportsNCP (s_lease (e_sess e)))
    (Push.durationToPushedSeconds (Serve.pingEvery R)) (Push.durationToPushedSeconds (Serve.reapWindow R)).

(** The body of [performPushExchange] under [sess.assignedIP == nil]. *)
Definition establish (w : world) (id : nat) (v : server)
    : outcome DataChan.dc_error (option push_failure * server * list (nat * action)) :=
  '(a, v, acts) ← assignTunnelIP settings_of (w_assign w) (w_order w) id v;
  match sv_heap v !! id with
  | None => Ok (Some NotAssigned, v, acts)
  | Some e =>
      let v := record_assigned id e (a, v) in
      match a with
      | Got _ =>
          v ← publish settings_of (w_now w) (Serve.sessionInboundQueue R) id v;
          Ok (if assignedIP id v is Some _ then None else Some NotPublished, v, acts)
      | _ => Ok (Some NotAssigned, v, acts)
      end
  end.

(** What an exchange comes to. *)
Record pushed := mkPushed {
  p_failure : option push_failure;
  p_reader : reader;
  p_replies : list (option bytes);
  p_actions : list (nat * action);
  p_server : server;
}.

Fixpoint pushLoop (fuel : nat) (w : world) (id : nat) (r : reader) (replies : list (option bytes))
    (acts : list (nat * action)) (v : server) : outcome DataChan.dc_error pushed :=
  match fuel with
  | O => Ok (mkPushed (Some OutOfFuel) r replies acts v)
  | S fuel =>
      match readControlString r with
      | Panic => Panic
      | Err e => Ok (mkPushed (Some (BadRequest e)) r replies acts v)
      | Ok (req, r) =>
          if negb (bool_decide (req = pushRequestLiteral))
          then Ok (mkPushed (Some (UnexpectedRequest req)) r replies acts v) else
          '(f, v, a) ← match assignedIP id v with Some _ => Ok (None, v, []) | None => establish w id v end;
          let acts := acts ++ a in
          match f with
          | Some f => Ok (mkPushed (Some f) r replies acts v)
          | None =>
              if negb (w_replyWrite w (length replies)) then Ok (mkPushed (Some ReplyNotWritten) r replies acts v) else
              let replies := replies ++ [pushReply id v] in
              if Buffered r =? 0 then Ok (mkPushed None r replies acts v)
              else pushLoop fuel w id r replies acts v
          end
      end
  end.

Definition performPushExchange (w : world) (id : nat) (r : reader) (v : server) : outcome DataChan.dc_error pushed :=
  match sv_pool v, sv_heap v !! id with
  | Some _, Some e =>
      if bool_decide (Session.Cipher (e_sess e) = []) then Ok (mkPushed (Some NoCipher) r [] [] v)
      else pushLoop (S (length (flatten r))) w id r [] [] v
  | _, _ => Ok (mkPushed (Some NoNetwork) r [] [] v)
  end.

(** A step of the session with what it leaves for later. *)
Definition finishTodo (id : nat) (v : server) : server :=
  Nat.iter (match sv_heap v !! id with Some e => length (e_todo e) | None => 0%nat end) (do_next id) v.

Definition settle (id : nat) (ev : event (W := W)) (v : server) : outcome DataChan.dc_error (server * list (nat * action)) :=
  '(v, acts) ← session_event settings_of id ev v; Ok (finishTodo id v, map (pair id) acts).

(** A bring-up that fails: its teardown runs to the load of [published]. *)
Definition settleFailed (id : nat) (f : hs_failure) (v : server) : outcome DataChan.dc_error (server * list (nat * action)) :=
  '(v, a1) ← settle id (EHandshakeFailed f) v;
  '(v, a2) ← settle id ECloseNotify v;
  Ok (v, a1 ++ a2).

(** How a bring-up ends: the stage that failed, if any; the key message, the push
    replies and the rejection written; the actions; the server left behind. *)
Record handshake := mkHandshake {
  h_failure : option (hs_failure * option push_failure);
  h_keyMessage : bytes;
  h_replies : list (option bytes);
  h_rejection : option bytes;
  h_actions : list (nat * action);
  h_server : server;
}.

Definition authHook (w : world) : option (bytes -> bytes -> Auth.hook_result) :=
  if Serve.c_AuthUserPass C then Some (w_auth w) else None.

Definition exchange_of (w : world) (e : entry) (stream : bytes) : Auth.exchange :=
  Auth.performKeyMethod2Exchange (Serve.dataCiphers R) (authHook w)
    (w_rand1 w) (w_rand2 w) (w_keyWrite w) (e_key e).2 (e_SessionID e) stream.

Definition runHandshake (w : world) (id : nat) (r : reader) (v : server) : outcome DataChan.dc_error handshake :=
  match sv_heap v !! id with
  | None => Ok (mkHandshake None [] [] None [] v)
  | Some e =>
      if negb (w_tls w) then
        '(v, a) ← settleFailed id FailTLS v;
        Ok (mkHandshake (Some (FailTLS, None)) [] [] None a v)
      else
        let x := exchange_of w e (flatten r) in
        match Auth.x_result x with
        | None | Some Panic => Panic
        | Some res =>
            let r := match Auth.x_tlsReader x with
                     | Some rest => advance (length (flatten r) - length rest) r
                     | None => r
                     end in
            '(v, _) ← match Auth.x_published x with
                      | Some (dataKeys, cipher, ncp) => session_event settings_of id (EPublishKeys dataKeys cipher ncp) v
                      | None => Ok (v, [])
                      end;
            match res with
            | Panic => Panic
            | Err err =>
                let '(f, reason) := Auth.exchange_failure err in
                '(v, a) ← settleFailed id f v;
                Ok (mkHandshake (Some (f, None)) (Auth.x_written x) []
                      ((fun reason => (Auth.rejectAuthAfterPushRequest (flatten r) reason).2) <$> reason) a v)
            | Ok _ =>
                p ← performPushExchange w id r v;
                match p_failure p with
                | Some f =>
                    '(v, a) ← settleFailed id FailPush (p_server p);
                    Ok (mkHandshake (Some (FailPush, Some f)) (Auth.x_written x) (p_replies p) None (p_actions p ++ a) v)
                | None =>
                    '(v, a1) ← settle id EHandshakeDone (p_server p);
                    '(v, a2) ← settle id EPublish v;
                    Ok (mkHandshake None (Auth.x_written x) (p_replies p) None (p_actions p ++ a1 ++ a2) v)
                end
            end
        end
  end.
End handshake.
(** ** The reader yields the stream *)

Lemma fill_flat (reads : list bytes) :
  match fill reads with Some (b, r) => concat reads = b :: flatten r | None => concat reads = [] end.
Proof. induction reads as [|[|b c] reads IH]; [done|exact IH|done]. Qed.

Lemma ReadByte_flat (r : reader) :
  match ReadByte r with Some (b, r') => flatten r = b :: flatten r' | None => flatten r = [] end.
Proof. unfold ReadByte, flatten. destruct (r_buf r); [apply fill_flat|done]. Qed.

(** How the bytes arrive does not matter to what is read, only to what is buffered. *)
Lemma readLoop_flat (quota : nat) (r : reader) (buf : bytes) :
  match readLoop quota r buf with
  | Ok (s, r') => Push.readLoop quota (flatten r) buf = Ok (s, flatten r') /\ (length (flatten r') < length (flatten r))%nat
  | Err e => Push.readLoop quota (flatten r) buf = Err e
  | Panic => False
  end.
Proof.
  revert r buf. induction quota as [|quota IH]; intros r buf; [done|]. cbn [readLoop Push.readLoop].
  pose proof (ReadByte_flat r) as Hb. destruct (ReadByte r) as [[b r']|]; rewrite Hb; [|done].
  destruct (b =? 0); [split; [done|cbn; lia]|]. specialize (IH r' (buf ++ [b])).
  destruct (readLoop quota r' _) as [[s r2]|e|]; [|done..]. destruct IH as [IH1 IH2]. split; [done|cbn; lia].
Qed.

Lemma readControlString_flat (r : reader) :
  match readControlString r with
  | Ok (s, r') => Push.readControlString (flatten r) (Z.to_nat Push.maxControlStringLen) = Ok (s, flatten r') /\
      (length (flatten r') < length (flatten r))%nat
  | Err e => Push.readControlString (flatten r) (Z.to_nat Push.maxControlStringLen) = Err e
  | Panic => False
  end.
Proof. apply readLoop_flat. Qed.

(** What is read comes off the front, and whole reads stay whole. *)
Lemma fill_reads (reads : list bytes) (b : Z) (r : reader) : fill reads = Some (b, r) -> r_reads r `suffix_of` reads.
Proof.
  induction reads as [|[|x c] reads IH]; cbn; [done| |by intros [= _ <-]; apply suffix_cons_r].
  intros E. by apply suffix_cons_r, IH.
Qed.

Lemma readLoop_reads (quota : nat) (r r' : reader) (buf s : bytes) :
  readLoop quota r buf = Ok (s, r') ->
  r_reads r' `suffix_of` r_reads r /\ exists t, s = buf ++ t /\ flatten r = t ++ [0] ++ flatten r'.
Proof.
  revert r buf. induction quota as [|quota IH]; intros r buf; [done|]. cbn [readLoop].
  pose proof (ReadByte_flat r) as Hb. destruct (ReadByte r) as [[b r1]|] eqn:E; [|done].
  assert (Hs : r_reads r1 `suffix_of` r_reads r).
  { unfold ReadByte in E. destruct (r_buf r); [by apply fill_reads in E|]. injection E as _ <-. done. }
  destruct (Z.eqb_spec b 0) as [->|].
  - intros [= <- <-]. split; [done|]. exists []. by rewrite app_nil_r, Hb.
  - intros (Hr & t & -> & Ht)%IH. split; [by etransitivity|]. exists (b :: t). rewrite <- (assoc_L (++)), Hb, Ht. done.
Qed.

Lemma skip_reads (n : nat) (reads : list bytes) : r_reads (skip n reads) `suffix_of` reads.
Proof.
  revert n. induction reads as [|c reads IH]; intros n; [done|]. cbn. destruct (_ <=? _)%nat; [by apply suffix_cons_r|].
  apply suffix_cons_r, IH.
Qed.

Lemma advance_reads (n : nat) (r : reader) : r_reads (advance n r) `suffix_of` r_reads r.
Proof. unfold advance. destruct (_ <=? _)%nat; [done|apply skip_reads]. Qed.

Lemma skip_flat (n : nat) (reads : list bytes) : flatten (skip n reads) = drop n (concat reads).
Proof.
  revert n. induction reads as [|c reads IH]; intros n; [cbn; by rewrite drop_nil|]. cbn [skip concat].
  destruct (Nat.leb_spec n (length c)) as [Hn|Hn].
  - unfold flatten. cbn. by rewrite drop_app_le.
  - by rewrite IH, drop_app_ge by lia.
Qed.

Lemma advance_flat (n : nat) (r : reader) : flatten (advance n r) = drop n (flatten r).
Proof.
  unfold advance. destruct (Nat.leb_spec n (length (r_buf r))) as [Hn|Hn].
  - unfold flatten. cbn. by rewrite drop_app_le.
  - rewrite skip_flat. unfold flatten. by rewrite drop_app_ge by lia.
Qed.
Section steps.
Context {W : Type} `{!AntiReplay W} `{!DataChan.AEAD} `{!DataChan.AEADLaws} `{!TLSCryptPrims} `{!PRFHashes}.
Notation entry := (entry (W := W)).
Notation server := (server (W := W)).

(** ** Steps of the server *)

Definition step (cfg : settings) (tlsKey : bytes) (queue : Z) (v v' : server) : Prop :=
  exists ev acts, sevent_ok v ev /\ sexec cfg tlsKey queue v ev = Ok (v', acts).

Notation steps cfg tlsKey queue := (rtc (step cfg tlsKey queue)).

Lemma steps_reachable (cfg : settings) (tlsKey : bytes) (queue : Z) (pool : option IpPool.ipPool) (v v' : server) :
  sreachable cfg tlsKey queue pool v -> steps cfg tlsKey queue v v' -> sreachable cfg tlsKey queue pool v'.
Proof. intros Hr. induction 1 as [|v v1 v' (ev & acts & Ho & Hx) _ IH]; [done|]. apply IH. by eapply sreach_step. Qed.

Lemma steps_inv (cfg : settings) (tlsKey : bytes) (queue : Z) (v v' : server) :
  server_inv v -> steps cfg tlsKey queue v v' -> server_inv v'.
Proof.
  intros Hv. induction 1 as [|v v1 v' (ev & acts & Ho & Hx) _ IH]; [done|]. apply IH.
  destruct (sexec_ok cfg tlsKey queue v ev Hv Ho) as (v2 & a & E & Hi). congruence.
Qed.

Lemma step_session (cfg : settings) (tlsKey : bytes) (queue : Z) (id : nat) (ev : event (W := W)) (v v' : server)
    (acts : list action) :
  own_event ev = true -> in_order id ev v = true -> (forall e, sv_heap v !! id = Some e -> event_ok (e_sess e) ev) ->
  session_event cfg id ev v = Ok (v', acts) -> steps cfg tlsKey queue v v'.
Proof.
  intros Ho Hi Hok Hx. apply rtc_once. exists (SSession id ev), (map (pair id) acts). split; [done|]. cbn [sexec]. by rewrite Ho, Hi, Hx.
Qed.

Lemma steps_later (cfg : settings) (tlsKey : bytes) (queue : Z) (id n : nat) (v : server) :
  steps cfg tlsKey queue v (Nat.iter n (do_next id) v).
Proof.
  induction n as [|n IH]; [done|]. eapply rtc_r; [exact IH|]. by exists (SLater id), [].
Qed.

(** What a teardown has left to do is done in as many steps. *)
Lemma drained (id : nat) (v : server) (n : nat) :
  n = match sv_heap v !! id with Some e => length (e_todo e) | None => 0%nat end ->
  match sv_heap (Nat.iter n (do_next id) v) !! id with Some e => bool_decide (e_todo e = []) | None => true end = true.
Proof.
  revert v. induction n as [|n IH]; intros v Hn.
  - cbn. destruct (sv_heap v !! id) as [e|]; [|done]. apply bool_decide_eq_true. by destruct (e_todo e).
  - rewrite Nat.iter_succ_r. apply IH. destruct (sv_heap v !! id) as [e|] eqn:He; [|done].
    destruct (e_todo e) as [|a l] eqn:Et; [done|]. destruct (do_next_heap v id e a l He Et) as (-> & _). rewrite lookup_insert_eq.
    cbn. injection Hn as ->. done.
Qed.

(** ** A step of one session leaves room for another's *)

Lemma session_event_put (cfg : settings) (id i : nat) (x : entry) (ev : event (W := W)) (v v' : server) (acts : list action) :
  id <> i -> session_event cfg id ev v = Ok (v', acts) -> session_event cfg id ev (put i x v) = Ok (put i x v', acts).
Proof.
  intros Hne. unfold session_event, put. cbn [with_heap sv_heap]. rewrite lookup_insert_ne by done.
  destruct (sv_heap v !! id) as [e|]; [|by intros [= <- <-]].
  destruct (exec cfg (e_state e) ev) as [[st a]| |]; [|done..]. outcome_simpl. rewrite !at_once_all. cbn.
  intros [= <- <-]. do 2 f_equal. unfold with_heap. cbn. f_equal. by rewrite insert_insert_ne.
Qed.

Lemma do_next_put (id i : nat) (x : entry) (v : server) :
  id <> i -> do_next id (put i x v) = put i x (do_next id v).
Proof.
  intros Hne. unfold do_next, put. cbn [with_heap sv_heap]. rewrite lookup_insert_ne by done.
  destruct (sv_heap v !! id) as [e|]; [|done]. destruct (e_todo e) as [|a l]; [done|].
  unfold with_heap, removeSession. cbn.
  rewrite (insert_insert_ne _ id i) by done. destruct a; try done. cbn. by destruct (bool_decide _).
Qed.

Lemma iter_put (n id i : nat) (x : entry) (v : server) :
  id <> i -> Nat.iter n (do_next id) (put i x v) = put i x (Nat.iter n (do_next id) v).
Proof. intros Hne. induction n as [|n IH]; [done|]. by rewrite !Nat.iter_succ, IH, do_next_put. Qed.
(** ** The assignment, step by step *)

Lemma assign_retry_put (want : bytes) (i : nat) (x : entry) (v : server) :
  assign_retry want (put i x v) = ((assign_retry want v).1, put i x (assign_retry want v).2).
Proof.
  unfold assign_retry, reserve_want. cbn [put with_heap sv_pool]. destruct (sv_pool v) as [p|]; [|done].
  destruct (IpPool.reserve p want) as [[q|e|] p']; [done| |done]. unfold count_refusal. by case_bool_decide.
Qed.

Lemma sessionByIP_put (order : list nat) (want : bytes) (i : nat) (e x : entry) (v : server) :
  sv_heap v !! i = Some e -> AssignedIP (e_sess x) = AssignedIP (e_sess e) ->
  sessionByIP order want (put i x v) = sessionByIP order want v.
Proof.
  intros He Hx. unfold sessionByIP, put. cbn [with_heap sv_heap].
  induction order as [|j order IH]; [done|]. cbn. rewrite IH. destruct (decide (j = i)) as [->|Hne].
  - by rewrite lookup_insert_eq, He, Hx.
  - by rewrite lookup_insert_ne.
Qed.

Lemma holder_lives (id : nat) (order : list nat) (want : bytes) (v : server) (o : nat) :
  holder id order want v = Some o -> o <> id /\ is_Some (sv_heap v !! o).
Proof.
  unfold holder, sessionByIP. destruct (List.find _ order) as [i|] eqn:Ef; [|done].
  case_bool_decide; [done|]. intros [= <-]. split; [done|]. apply List.find_some in Ef as [_ Hf].
  by destruct (sv_heap v !! i).
Qed.

Lemma assign_in_use (hook : option assign_result) (want : bytes) (v v1 : server) :
  server_inv v -> match hook with Some (AssignIP (Some want)) => bytes_ok want | _ => True end ->
  assign_first hook v = (InUse want, v1) -> v1 = v.
Proof.
  intros Hv Hb. pose proof (vi_pool v Hv) as HP. unfold assign_first.
  assert (Hal : allocateFromPool v <> (InUse want, v1)).
  { intros E. apply (proj2 (allocateFromPool_change v _ HP) want). by rewrite E. }
  destruct hook as [[[w|]| |]|]; cbn [callAssignIP]; try done. unfold reserve_want. destruct (sv_pool v) as [p|] eqn:Ep; [|done].
  cbn in HP. pose proof (IpPool.reserve_cases p w (IpPool.li_wf _ _ HP) Hb) as HC.
  destruct (IpPool.reserve p w) as [[q|e|] p'] eqn:Er; [done| |done]. case_bool_decide; [|done]. intros [= -> <-].
  subst p'. destruct v. cbn in *. by subst.
Qed.

Lemma put_put (id : nat) (x y : entry) (v : server) : put id x (put id y v) = put id x v.
Proof. unfold put, with_heap. cbn. by rewrite insert_insert_eq. Qed.

Lemma assign_steps (cfg : settings) (tlsKey : bytes) (queue : Z) (hook : option assign_result) (order : list nat)
    (id : nat) (e : entry) (v : server) :
  server_inv v -> sv_heap v !! id = Some e -> e_assign e = Unassigned -> Session.Cipher (e_sess e) <> [] -> sv_pool v <> None ->
  match hook with Some (AssignIP (Some want)) => bytes_ok want | _ => True end ->
  list_to_set (C := gset nat) order = list_to_set (table_ids v) ->
  exists a v' acts, assignTunnelIP cfg hook order id v = Ok (a, v', acts) /\ sv_heap v' !! id = Some e /\
    (forall w, a <> InUse w) /\ steps cfg tlsKey queue v (record_assigned id e (a, v')).
Proof.
  intros Hv He Ha Hc Hp Hb Hord. destruct (assign_first_change hook v _ Hb (vi_pool v Hv) Hp) as [Hpc Hiu].
  assert (S1 : sexec cfg tlsKey queue v (SAssign id hook) = Ok (record_assigned id e (assign_first hook v), [])).
  { cbn. rewrite He, Ha. destruct (sv_pool v); [|done]. by rewrite bool_decide_eq_false_2. }
  assert (T1 : step cfg tlsKey queue v (record_assigned id e (assign_first hook v))).
  { eexists _, _. split; [|exact S1]. cbn. destruct hook as [[[w|]| |]|]; done. }
  unfold assignTunnelIP. destruct (assign_first hook v) as [a v1] eqn:Ef. cbn [fst snd] in Hpc, Hiu.
  destruct a as [l|want|]; [| |].
  1: eexists _, _, _; split_and!; [done|by rewrite (pc_heap _ _ _ _ Hpc)|done|by apply rtc_once].
  2: eexists _, _, _; split_and!; [done|by rewrite (pc_heap _ _ _ _ Hpc)|done|by apply rtc_once].
  apply assign_in_use in Ef as ->; [|done..]. set (e1 := set_assign (Looking want) e) in *.
  change (record_assigned id e (InUse want, v)) with (put id e1 v) in *.
  set (old := holder id order want v). set (e2 := set_assign (Waiting want old) e).
  assert (Hold : holder id order want (put id e1 v) = old) by (unfold old, holder; by rewrite (sessionByIP_put _ _ _ e)).
  assert (T2 : forall v2 acts, match old with
      | Some old => session_event cfg old (ECloseBegin CloseReasonReplaced) (put id e2 v) = Ok (v2, acts)
      | None => v2 = put id e2 v end -> step cfg tlsKey queue (put id e1 v) v2).
  { intros v2 acts Hx. exists (SFind id order), (match old with Some o => map (pair o) acts | None => [] end). split; [done|]. cbn [sexec]. cbn [put with_heap sv_heap]. rewrite lookup_insert_eq.
    cbn [e_assign e1 set_assign]. change (table_ids _) with (table_ids v). rewrite bool_decide_eq_true_2 by done. cbn [negb].
    change (with_heap (<[id:=e1]> (sv_heap v)) v) with (put id e1 v). rewrite Hold.
    change (set_assign (Waiting want old) e1) with e2. rewrite put_put. destruct old as [o|]; [by rewrite Hx|by rewrite Hx]. }
  assert (T3 : forall v3, server_inv v3 -> sv_pool v3 <> None -> sv_heap v3 !! id = Some e -> gone old (put id e2 v3) = true ->
    exists a v', assign_retry want v3 = (a, v') /\ sv_heap v' !! id = Some e /\ (forall w, a <> InUse w) /\
      step cfg tlsKey queue (put id e2 v3) (record_assigned id e (a, v'))).
  { intros v3 Hv3 Hp3 H3 Hg. destruct (assign_retry_change want v3 _ (Hiu want eq_refl) (vi_pool v3 Hv3) Hp3) as [Hpr Hnr].
    destruct (assign_retry want v3) as [a v'] eqn:Er. exists a, v'. cbn [fst snd] in *. split_and!; [done|by rewrite (pc_heap _ _ _ _ Hpr)|done|].
    exists (SRetry id), []. split; [done|]. cbn [sexec]. cbn [put with_heap sv_heap]. rewrite lookup_insert_eq.
    cbn [e_assign e2 set_assign]. change (with_heap _ v3) with (put id e2 v3). rewrite Hg, assign_retry_put, Er.
    unfold record_assigned. cbn [fst snd]. by rewrite put_put. }
  destruct old as [o|] eqn:Eo.
  - destruct (holder_lives id order want v o Eo) as [Hne [eo Heo]].
    destruct (closeSession_spec cfg CloseReasonReplaced o v eo Hv Heo)
      as (v' & acts & eo' & Ecl & Hv' & A1 & A2 & A3 & _ & _ & _ & _ & _ & _ & _ & _ & Hsp & A4).
    destruct (T3 v') as (a & v2 & Er & R1 & R2 & R3).
    { done. }
    { unfold same_pool in Hsp. destruct (sv_pool v), (sv_pool v'); done. }
    { by rewrite A1, lookup_insert_ne. }
    { cbn. rewrite lookup_insert_ne, A1, lookup_insert_eq by done. by rewrite A4, A3. }
    rewrite Ecl. outcome_simpl. exists a, v2, (map (pair o) acts). split; [by rewrite Er|]. split_and!; [done|done|].
    unfold closeSession in Ecl.
    destruct (session_event cfg o (ECloseBegin _) v) as [[w1 a1]| |] eqn:X1; [|done..]. outcome_simpl.
    destruct (session_event cfg o ECloseEnd w1) as [[w2 a2]| |] eqn:X2; [|done..]. outcome_simpl.
    set (n := match sv_heap w2 !! o with Some _ => _ | None => _ end) in Ecl.
    destruct (session_event cfg o ECloseNotify (Nat.iter n (do_next o) w2)) as [[w3 a3]| |] eqn:X3; [|done..]. outcome_simpl.
    injection Ecl as Ev _.
    pose proof (session_event_put cfg o id e2 _ _ _ _ Hne X1) as Y1. pose proof (session_event_put cfg o id e2 _ _ _ _ Hne X2) as Y2.
    eapply rtc_l; [exact T1|]. eapply rtc_l; [by eapply T2|]. etransitivity.
    { by apply (step_session cfg tlsKey queue o ECloseEnd _ _ a2). }
    etransitivity; [apply (steps_later _ _ _ o n)|]. rewrite iter_put by done.
    pose proof (session_event_put cfg o id e2 _ _ _ _ Hne X3) as Y3.
    etransitivity; [|by apply rtc_once]. rewrite <- Ev. apply (step_session cfg tlsKey queue o ECloseNotify _ _ a3); [done| |done|done].
    cbn [in_order put with_heap sv_heap]. rewrite lookup_insert_ne by done. by apply drained.
  - destruct (T3 v Hv Hp He eq_refl) as (a & v2 & Er & R1 & R2 & R3). eexists _, _, _. split; [by rewrite Er|]. split_and!; [done|done|].
    eapply rtc_l; [exact T1|]. eapply rtc_l; [by apply (T2 _ [])|]. by apply rtc_once.
Qed.
(** ** Addresses are in the four-byte form *)

Lemma allocate_ip (v : server) (l : IpPool.lease) : (allocateFromPool v).1 = Got l -> length (IpPool.l_ip l) = 4%nat.
Proof.
  unfold allocateFromPool, IpPool.allocate. destruct (sv_pool v) as [p|]; [|done].
  destruct (IpPool.nextFreeOffset p), (IpPool.nextFreePeerID p); try done. cbn. by intros [= <-].
Qed.

Lemma reserve_ip (want : bytes) (v v' : server) (l : IpPool.lease) :
  bytes_ok want -> reserve_want want v = (Ok l, v') -> length (IpPool.l_ip l) = 4%nat.
Proof.
  intros Hb. unfold reserve_want, IpPool.reserve. destruct (sv_pool v) as [p|]; [|done].
  destruct (IpPool.to4 want) as [w|] eqn:E; [|done]. apply IpPool.to4_ok in E as [Hl _]; [|done]. cbn.
  intros Hx. repeat case_match; simplify_eq; done.
Qed.

Lemma assigned_ip (cfg : settings) (hook : option assign_result) (order : list nat) (id : nat) (v v' : server)
    (l : IpPool.lease) (acts : list (nat * action)) :
  match hook with Some (AssignIP (Some want)) => bytes_ok want | _ => True end ->
  assignTunnelIP cfg hook order id v = Ok (Got l, v', acts) -> length (IpPool.l_ip l) = 4%nat.
Proof.
  intros Hb. unfold assignTunnelIP. destruct (assign_first hook v) as [a v1] eqn:Ef.
  assert (Hr : forall u, bytes_ok u -> forall (x y : server), assign_retry u x = (Got l, y) -> length (IpPool.l_ip l) = 4%nat).
  { intros u Hu x y. unfold assign_retry. destruct (reserve_want u x) as [[l'| |] x'] eqn:E; [|done..]. intros [= -> _].
    by eapply reserve_ip. }
  assert (Hf : a = Got l -> length (IpPool.l_ip l) = 4%nat).
  { intros ->. unfold assign_first in Ef. destruct hook as [[[w|]| |]|]; cbn [callAssignIP] in Ef; try done;
      try (apply (allocate_ip v); by rewrite Ef).
    destruct (reserve_want w v) as [[l'|e|] x'] eqn:E; [|by case_bool_decide|done]. injection Ef as -> _. by eapply reserve_ip. }
  destruct a as [l'|want|]; [intros [= -> _ _]; by apply Hf| |done].
  assert (Hw : bytes_ok want).
  { unfold assign_first in Ef. destruct hook as [[[w|]| |]|]; cbn [callAssignIP] in Ef; try done;
      try (unfold allocateFromPool in Ef; by repeat case_match).
    destruct (reserve_want w v) as [[l'|e|] x']; [done| |done]. case_bool_decide; [|done]. by injection Ef as <- _. }
  destruct (holder id order want v1) as [o|].
  - destruct (closeSession _ _ _ _) as [[v2 a2]| |]; [|done..]. outcome_simpl. intros Hx%(inj Ok).
    injection Hx as Hx _. destruct (assign_retry want v2) as [a y] eqn:E. injection Hx as -> _. by eapply Hr.
  - intros Hx%(inj Ok). injection Hx as Hx _. by eapply Hr.
Qed.
(** ** Establishing the session *)

(** What the assignment and the publication leave alone. *)
Record carried (e e' : entry) : Prop := {
  ca_key : e_key e' = e_key e;
  ca_life : s_life (e_sess e') = s_life (e_sess e);
  ca_cipher : Session.Cipher (e_sess e') = Session.Cipher (e_sess e);
  ca_ncp : a_peerSupportsNCP (s_lease (e_sess e')) = a_peerSupportsNCP (s_lease (e_sess e));
  ca_keys : k_dataKeys (s_keys (e_sess e')) = k_dataKeys (s_keys (e_sess e));
  ca_todo : e_todo e' = e_todo e;
  ca_pending : d_pendingRead (s_data (e_sess e')) = d_pendingRead (s_data (e_sess e));
}.

Lemma carried_refl (e : entry) : carried e e.
Proof. by constructor. Qed.

(** A data channel not used yet: the wrapper is built of these keys for the session's
    peer-id, no older key is left, and nothing has been received. *)
Record fresh_channel (queue : Z) (keys : DataKeys) (s : Session W) : Prop := {
  fc_wrapper : exists w, DataChan.NewWrapper keys (PeerID s) 0 = Ok w /\ ks_wrapper (k_primary (s_keys s)) = Some w;
  fc_old : ks_wrapper (k_lameDuck (s_keys s)) = None;
  fc_queue : d_ipInbound (s_data s) = Some (queue, []);
}.

(** A session whose client may start to send. *)
Record open_tunnel (queue : Z) (keys : DataKeys) (s : Session W) : Prop := {
  ot_channel : fresh_channel queue keys s;
  ot_closing : closing s = false;
  ot_pending : d_pendingRead (s_data s) = None;
}.

(** The keys of the channel are the session's, for its cipher. *)
Definition data_channel (queue : Z) (s : Session W) : Prop :=
  exists dk keys, k_dataKeys (s_keys s) = Some dk /\ ServerSlots dk (Cipher.cipherKeyLen (Session.Cipher s)) = Ok keys /\
    fresh_channel queue keys s.

Lemma publish_spec (cfg : settings) (now queue : Z) (id : nat) (v : server) (e : entry) (l : IpPool.lease) :
  server_inv v -> sv_heap v !! id = Some e -> e_assign e = Leased l -> closing (e_sess e) = false ->
  exists v' e', publish cfg now queue id v = Ok v' /\ sv_heap v' !! id = Some e' /\ carried e e' /\
    e_assign e' = Settled /\ AssignedIP (e_sess e') = Some (IpPool.l_ip l) /\ PeerID (e_sess e') = IpPool.l_peerID l /\
    data_channel queue (e_sess e').
Proof.
  intros Hv He Ea Hc. pose proof (vi_entry v Hv id e He) as [O1 O2 O3 O4 O5 O6]. unfold publish. rewrite He, Ea in *.
  assert (Eip : AssignedIP (e_sess e) = None) by (destruct (AssignedIP (e_sess e)); [by specialize (O4 ltac:(by eexists))|done]).
  pose proof O2 as [?|(Hk & dk & Edk & Hdk)]; [done|]. rewrite Edk.
  destruct (Cipher.server_wrapper_ok (W := W) (k2_raw dk) _ (IpPool.l_peerID l) 0 Hdk (Cipher.cipherKeyLen_cases _ Hk))
    as (keys & w & Es & En & _).
  destruct dk as [raw]. cbn [k2_raw] in *. rewrite Es, En, Hc.
  assert (Hx : exec cfg (e_state (set_assign Settled e)) (EPublishLease now (IpPool.l_ip l) (IpPool.l_peerID l) queue w) =
    Ok ((default (e_sess e) (publishLease now (IpPool.l_ip l) (IpPool.l_peerID l) queue w (e_sess e)), (e_state e).2), [])).
  { change (e_state (set_assign Settled e)) with (e_state e). unfold e_sess in *. destruct (e_state e) as [s fl]. cbn [fst snd exec] in *.
    rewrite Eip. unfold publishLease. by rewrite Hc. }
  destruct (session_event_heap cfg id _ (put id (set_assign Settled e) v) (set_assign Settled e) _ _
    ltac:(cbn; by rewrite lookup_insert_eq) Hx) as (v' & -> & Hh & _). outcome_simpl.
  eexists _, _. split; [done|]. cbn [with_routes sv_heap]. rewrite Hh, lookup_insert_eq. split; [done|].
  unfold publishLease in *. rewrite Hc. split; [constructor; try done; cbn; by rewrite app_nil_r|]. split_and!; try done.
  exists (mkKey2 raw), keys. split_and!; [done..|]. pose proof (si_lease _ O1) as HL. pose proof (ki_primary _ _ _ _ (si_keys _ O1)) as HP.
  unfold e_sess in *. rewrite Eip in HL. destruct (ks_conn (k_primary _)); [by destruct HL as [_ [? ?]]; [by eexists|]|].
  destruct HP as (_ & Hl & _). constructor; [by exists w| |done]. cbn. by rewrite Hl.
Qed.

Lemma establish_spec (C : Serve.Config) (R : Serve.resolved) (tlsKey : bytes) (w : world) (id : nat) (v : server) (e : entry) :
  server_inv v -> sv_heap v !! id = Some e -> e_assign e = Unassigned -> closing (e_sess e) = false ->
  AssignedIP (e_sess e) = None -> Session.Cipher (e_sess e) <> [] -> sv_pool v <> None ->
  match w_assign w with Some (AssignIP (Some want)) => bytes_ok want | _ => True end ->
  list_to_set (C := gset nat) (w_order w) = list_to_set (table_ids v) ->
  exists f v' acts e', establish C R w id v = Ok (f, v', acts) /\
    steps (settings_of C R) tlsKey (Serve.sessionInboundQueue R) v v' /\
    sv_heap v' !! id = Some e' /\ carried e e' /\ e_assign e' = Settled /\
    match f with
    | None => exists ip, AssignedIP (e_sess e') = Some ip /\ length ip = 4%nat
    | Some f => f = NotAssigned /\ AssignedIP (e_sess e') = None
    end.
Proof.
  intros Hv He Ha Hcl Eip Hc Hp Hb Hord. unfold establish.
  destruct (assign_steps (settings_of C R) tlsKey (Serve.sessionInboundQueue R) (w_assign w) (w_order w) id e v Hv He Ha Hc Hp Hb Hord)
    as (a & v1 & acts & E & He1 & Hiu & Hst). rewrite E. outcome_simpl. rewrite He1.
  assert (Hvr : server_inv (record_assigned id e (a, v1))) by by eapply steps_inv.
  assert (Hr : forall x, sv_heap (put id x v1) !! id = Some x) by (intros x; cbn; by rewrite lookup_insert_eq).
  destruct a as [l|want|]; [|by destruct (Hiu want)|].
  - destruct (publish_spec (settings_of C R) (w_now w) (Serve.sessionInboundQueue R) id _ (set_assign (Leased l) e) l Hvr (Hr _) eq_refl Hcl)
      as (v' & e' & Ep & Hh & Hca & Hse & Hip & _). rewrite Ep. outcome_simpl.
    eexists None, v', acts, e'. split_and!; try done.
    + unfold assignedIP. by rewrite Hh; cbn; rewrite Hip.
    + eapply rtc_r; [exact Hst|]. exists (SPublish (w_now w) id), []. split; [done|]. cbn [sexec]. by rewrite Ep.
    + destruct Hca as [G1 G2 G3 G4 G5 G6 G7]. by constructor.
    + exists (IpPool.l_ip l). split; [done|]. by eapply assigned_ip.
  - eexists (Some NotAssigned), _, acts, (set_assign Settled e).
    split; [done|]. split; [exact Hst|]. split; [apply Hr|]. split; [by constructor|]. by split_and!.
Qed.
(** ** The loop over push requests *)

(** A session the loop may work on, with or without its address. *)
Record underway (w : world) (id : nat) (v : server) (e : entry) : Prop := {
  uw_entry : sv_heap v !! id = Some e;
  uw_open : closing (e_sess e) = false;
  uw_cipher : Session.Cipher (e_sess e) <> [];
  uw_hook : match w_assign w with Some (AssignIP (Some want)) => bytes_ok want | _ => True end;
  uw_fresh : AssignedIP (e_sess e) = None -> e_assign e = Unassigned /\ sv_pool v <> None /\
    list_to_set (C := gset nat) (w_order w) = list_to_set (table_ids v);
  uw_ip : forall ip, AssignedIP (e_sess e) = Some ip -> length ip = 4%nat;
}.

Lemma pushLoop_spec (C : Serve.Config) (R : Serve.resolved) (tlsKey : bytes) (w : world) (id fuel : nat) (r : reader)
    (replies : list (option bytes)) (acts : list (nat * action)) (v : server) (e : entry) :
  server_inv v -> underway w id v e -> (length (flatten r) < fuel)%nat ->
  exists p e', pushLoop C R fuel w id r replies acts v = Ok p /\
    steps (settings_of C R) tlsKey (Serve.sessionInboundQueue R) v (p_server p) /\
    sv_heap (p_server p) !! id = Some e' /\ carried e e' /\ (forall l, e_assign e' <> Leased l) /\
    (AssignedIP (e_sess e) <> None -> p_server p = v) /\
    match p_failure p with
    | None => exists ip n, AssignedIP (e_sess e') = Some ip /\ length ip = 4%nat /\
        p_replies p = replies ++ replicate (S n) (pushReply C R id (p_server p)) /\
        flatten r = requests (S n) ++ concat (r_reads (p_reader p)) /\ r_reads (p_reader p) `suffix_of` r_reads r
    | Some f => f <> OutOfFuel
    end.
Proof.
  revert r replies acts v e. induction fuel as [|fuel IH]; intros r replies acts v e Hv [U1 U2 U3 U5 U6 U7] Hf; [lia|].
  cbn [pushLoop]. pose proof (readControlString_flat r) as Hr.
  assert (Hnl : forall l, e_assign e <> Leased l).
  { intros l El. destruct (AssignedIP (e_sess e)) as [ip|] eqn:Ea.
    - pose proof (eo_settled _ (vi_entry v Hv id e U1)) as Hs. rewrite Ea in Hs. by rewrite Hs in El by by eexists.
    - destruct (U6 eq_refl) as [Eu _]. congruence. }
  assert (Hstop : forall f (r0 : reader), f <> OutOfFuel -> exists p e', Ok (mkPushed (Some f) r0 replies acts v) = Ok (E := DataChan.dc_error) p /\
    steps (settings_of C R) tlsKey (Serve.sessionInboundQueue R) v (p_server p) /\ sv_heap (p_server p) !! id = Some e' /\
    carried e e' /\ (forall l, e_assign e' <> Leased l) /\
    (AssignedIP (e_sess e) <> None -> p_server p = v) /\
    match p_failure p with
    | None => exists ip n, AssignedIP (e_sess e') = Some ip /\ length ip = 4%nat /\
        p_replies p = replies ++ replicate (S n) (pushReply C R id (p_server p)) /\
        flatten r = requests (S n) ++ concat (r_reads (p_reader p)) /\ r_reads (p_reader p) `suffix_of` r_reads r
    | Some f => f <> OutOfFuel end).
  { intros f r1 Hne. eexists _, e. split; [done|]. cbn. by split_and!. }
  destruct (readControlString r) as [[req r']|er|] eqn:Erd; [|by apply Hstop|done].
  apply readLoop_reads in Erd as (Hrs & t & -> & Hfl). cbn [app] in *.
  case_bool_decide as Hreq; cbn [negb]; [|by apply Hstop].
  assert (He : exists f v1 a e1, match assignedIP id v with Some _ => Ok (None, v, []) | None => establish C R w id v end =
      Ok (E := DataChan.dc_error) (f, v1, a) /\
    steps (settings_of C R) tlsKey (Serve.sessionInboundQueue R) v v1 /\ sv_heap v1 !! id = Some e1 /\ carried e e1 /\
    e_assign e1 = Settled /\ (AssignedIP (e_sess e) <> None -> v1 = v) /\
    match f with None => exists ip, AssignedIP (e_sess e1) = Some ip /\ length ip = 4%nat
               | Some f => f = NotAssigned /\ AssignedIP (e_sess e1) = None end).
  { unfold assignedIP. rewrite U1. cbn. destruct (AssignedIP (e_sess e)) as [ip|] eqn:Ea.
    - eexists None, v, [], e. split_and!; try done.
      + apply (eo_settled _ (vi_entry v Hv id e U1)). by eexists.
      + exists ip. split; [done|by apply U7].
    - destruct (U6 eq_refl) as (Eu & Hp & Hord). 
      destruct (establish_spec C R tlsKey w id v e) as (f & v1 & a & e1 & E1 & E2 & E3 & E4 & E5 & E6); try done.
      exists f, v1, a, e1. by split_and!. }
  destruct He as (f & v1 & a & e1 & -> & Hst & He1 & Hca & Has & Hsame & Hcase). outcome_simpl.
  assert (Hv1 : server_inv v1) by by eapply steps_inv.
  destruct f as [f|].
  { destruct Hcase as [-> _]. eexists _, e1. split; [done|]. cbn. by rewrite Has. }
  destruct Hcase as (ip & Hip & Hlen).
  destruct (w_replyWrite w (length replies)); cbn [negb].
  2:{ eexists _, e1. split; [done|]. cbn. by rewrite Has. }
  destruct (Z.eqb_spec (Buffered r') 0) as [Hb|Hb].
  { eexists _, e1. split; [done|]. cbn. rewrite Has. split_and!; try done. exists ip, 0%nat. subst t. split_and!; try done.
    unfold Buffered, zlen in Hb. rewrite Hfl. unfold flatten at 1. destruct (r_buf r'); [|cbn in Hb; lia].
    reflexivity. }
  destruct (IH r' (replies ++ [pushReply C R id v1]) (acts ++ a) v1 e1) as (p & e' & E & P1 & P2 & P3 & P4 & P6 & P5).
  - done.
  - constructor; try done.
    + unfold closing. rewrite (ca_life _ _ Hca). apply U2.
    + by rewrite (ca_cipher _ _ Hca).
    + by rewrite Hip.
    + rewrite Hip. by intros ? [= <-].
  - lia.
  - exists p, e'. split; [done|]. split; [by etransitivity|]. split; [done|]. split.
    { destruct Hca, P3. constructor; congruence. }
    assert (Ps : p_server p = v1) by (apply P6; by rewrite Hip).
    split; [done|]. split; [intros Hn; by rewrite Ps, Hsame|]. destruct (p_failure p) as [f|]; [done|]. destruct P5 as (ip' & n & Q1 & Q2 & Q3 & Q4 & Q5).
    exists ip', (S n). split_and!; try done; [|by subst t; rewrite Hfl, Q4; unfold requests; cbn [replicate concat]; rewrite <- !(assoc_L (++))|by etransitivity].
    rewrite Q3, <- (assoc_L (++)), Ps. done.
Qed.
(** ** The end of a bring-up *)

Lemma handshakeFailed_life (cfg : settings) (f : hs_failure) (s : Session W) :
  closing s = false -> l_outcome (s_life s) = false ->
  let r := handshakeFailed cfg f s in
  l_torn (s_life r.1) = true /\ closing r.1 = true /\ getCloseReason r.1 = failure_reason f /\ s_lease r.1 = s_lease s /\
  exists acts, r.2 = CountOutcome (failure_outcome f) :: acts.
Proof.
  intros Hc Ho. unfold handshakeFailed, recordHandshakeOutcome. rewrite Ho.
  set (s1 := closeDone _). unfold teardown. set (s2 := closeBegin (failure_reason f) s1).
  destruct (closeEnd_life cfg s2) as (L1 & L2 & L3 & _ & _ & L6 & _).
  assert (E2 : closing s2 = true /\ getCloseReason s2 = failure_reason f /\ s_lease s2 = s_lease s).
  { unfold s2, closeBegin. change (l_stopping (s_life s1)) with (closing s). by rewrite Hc. }
  destruct E2 as (E2 & E3 & E4). destruct (closeEnd cfg s2) as [s3 a]. cbn [fst snd] in *.
  split_and!; try done; try congruence. by exists a.
Qed.

Lemma settle_steps (C : Serve.Config) (R : Serve.resolved) (tlsKey : bytes) (queue : Z) (id : nat) (ev : event (W := W))
    (v : server) (e : entry) (st : Session.state) (a : list action) :
  server_inv v -> sv_heap v !! id = Some e -> own_event ev = true -> in_order id ev v = true -> event_ok (e_sess e) ev ->
  exec (settings_of C R) (e_state e) ev = Ok (st, a) ->
  exists v', settle C R id ev v = Ok (v', map (pair id) a) /\ steps (settings_of C R) tlsKey queue v v' /\
    sv_heap v' !! id = Some (set_todo [] (set_state st e)).
Proof.
  intros Hv He Ho Hi Hok Hx. destruct (session_event_heap (settings_of C R) id ev v e st a He Hx) as (v1 & E1 & Hh & _).
  assert (Hs1 : steps (settings_of C R) tlsKey queue v v1).
  { apply (step_session _ _ _ id ev _ _ a); [done|done| |done]. intros x Hx'. by simplify_eq. }
  assert (Hv1 : server_inv v1) by by eapply steps_inv.
  unfold settle. rewrite E1. outcome_simpl. eexists. split; [done|].
  assert (He1 : sv_heap v1 !! id = Some (set_todo (e_todo e ++ List.filter later a) (set_state st e))) by (by rewrite Hh, lookup_insert_eq).
  unfold finishTodo. rewrite He1. split; [etransitivity; [exact Hs1|apply steps_later]|].
  destruct (ServerProps.drain _ v1 id _ Hv1 He1 eq_refl) as (_ & D & _). rewrite D, lookup_insert_eq. done.
Qed.

(** A session that has ended: torn down, out of the tables, without a lease. *)
Record ended (id : nat) (r : CloseReason) (v : server) (e : entry) : Prop := {
  en_torn : l_torn (s_life (e_sess e)) = true;
  en_done : e_todo e = [];
  en_reason : getCloseReason (e_sess e) = r;
  en_table : sv_sessions v !! e_key e <> Some id;
  en_route : sv_dataSessions v !! PeerID (e_sess e) <> Some id;
  en_lease : forall l, ~ holds v id l;
}.

Lemma ended_intro (id : nat) (v : server) (e : entry) :
  server_inv v -> sv_heap v !! id = Some e -> l_torn (s_life (e_sess e)) = true -> e_todo e = [] ->
  (forall l, e_assign e <> Leased l) -> ended id (getCloseReason (e_sess e)) v e.
Proof.
  intros Hv He Ht Hd Hl. constructor; try done.
  - intros (x & Hx & _ & Hli)%(vi_table v Hv). rewrite He in Hx. injection Hx as <-. unfold listed, torn in Hli. by rewrite Ht, Hd in Hli.
  - intros (x & Hx & _ & Hro)%(vi_routes v Hv). rewrite He in Hx. injection Hx as <-. unfold routed, torn in Hro. by rewrite Ht, andb_false_r in Hro.
  - intros l (x & Hx & Hle). rewrite He in Hx. injection Hx as <-. unfold lease_of, torn in Hle. rewrite Ht, Hd in Hle. cbn in Hle.
    destruct (e_assign e); try (by destruct (AssignedIP (e_sess e))). by destruct (Hl l0).
Qed.

Lemma settle_failed (C : Serve.Config) (R : Serve.resolved) (tlsKey : bytes) (queue : Z) (id : nat) (f : hs_failure)
    (v : server) (e : entry) :
  server_inv v -> sv_heap v !! id = Some e -> closing (e_sess e) = false -> l_outcome (s_life (e_sess e)) = false ->
  l_doneCh (s_life (e_sess e)) = false -> (forall l, e_assign e <> Leased l) ->
  exists v' a e', settleFailed C R id f v = Ok (v', a) /\ steps (settings_of C R) tlsKey queue v v' /\
    sv_heap v' !! id = Some e' /\ ended id (failure_reason f) v' e' /\ (id, CountOutcome (failure_outcome f)) ∈ a.
Proof.
  intros Hv He Hc Ho Hd Hl.
  destruct (handshakeFailed_life (settings_of C R) f (e_sess e) Hc Ho) as (L1 & L2 & L3 & L4 & acts & L5).
  assert (Hx : exec (settings_of C R) (e_state e) (EHandshakeFailed f) =
    Ok (((handshakeFailed (settings_of C R) f (e_sess e)).1, spawned (handshakeFailed (settings_of C R) f (e_sess e)).2 (e_state e).2),
        (handshakeFailed (settings_of C R) f (e_sess e)).2)).
  { unfold e_sess in *. destruct (e_state e) as [s fl]. cbn [fst snd exec] in *. by rewrite Hd. }
  destruct (settle_steps C R tlsKey queue id (EHandshakeFailed f) v e _ _ Hv He eq_refl eq_refl I Hx) as (v' & E & Hs & Hh).
  assert (Hv' : server_inv v') by by eapply steps_inv.
  set (e1 := set_todo [] _) in Hh.
  assert (Hx2 : exec (settings_of C R) (e_state e1) ECloseNotify =
    Ok (((closeNotify (settings_of C R) (e_sess e1)).1, spawned (closeNotify (settings_of C R) (e_sess e1)).2 (e_state e1).2),
        (closeNotify (settings_of C R) (e_sess e1)).2)).
  { cbn [exec e_state e1 set_todo set_state]. by rewrite L1. }
  assert (Hio : in_order id (ECloseNotify (W := W)) v' = true) by (cbn; by rewrite Hh).
  destruct (settle_steps C R tlsKey queue id ECloseNotify v' e1 _ _ Hv' Hh eq_refl Hio I Hx2) as (v2 & E2 & Hs2 & Hh2).
  assert (Hv2 : server_inv v2) by by eapply steps_inv.
  destruct (closeNotify_life (settings_of C R) (e_sess e1)) as (_ & _ & _ & N4 & _ & N6 & _).
  eexists v2, _, _. unfold settleFailed. rewrite E. outcome_simpl. rewrite E2. outcome_simpl.
  split; [reflexivity|]. split; [by etransitivity|]. split; [exact Hh2|]. split.
  - rewrite <- (eq_trans N6 L3). refine (ended_intro id v2 _ Hv2 Hh2 _ eq_refl Hl). exact (eq_trans N4 L1).
  - rewrite L5. apply list_elem_of_here.
Qed.
Lemma push_exchange_spec (C : Serve.Config) (R : Serve.resolved) (tlsKey : bytes) (w : world) (id : nat) (r : reader)
    (v : server) (e : entry) :
  server_inv v -> sv_heap v !! id = Some e -> closing (e_sess e) = false -> AssignedIP (e_sess e) = None ->
  e_assign e = Unassigned -> match w_assign w with Some (AssignIP (Some want)) => bytes_ok want | _ => True end ->
  list_to_set (C := gset nat) (w_order w) = list_to_set (table_ids v) ->
  exists p e', performPushExchange C R w id r v = Ok p /\
    steps (settings_of C R) tlsKey (Serve.sessionInboundQueue R) v (p_server p) /\
    sv_heap (p_server p) !! id = Some e' /\ carried e e' /\ (forall l, e_assign e' <> Leased l) /\
    match p_failure p with
    | None => exists ip n, AssignedIP (e_sess e') = Some ip /\ length ip = 4%nat /\
        p_replies p = replicate (S n) (pushReply C R id (p_server p)) /\
        flatten r = requests (S n) ++ concat (r_reads (p_reader p)) /\ r_reads (p_reader p) `suffix_of` r_reads r
    | Some f => f <> OutOfFuel
    end.
Proof.
  intros Hv He Hc Ha Hu Hb Hord. unfold performPushExchange. rewrite He.
  assert (Hnl : forall l, e_assign e <> Leased l) by (intros l; by rewrite Hu).
  destruct (sv_pool v) as [p0|] eqn:Ep.
  2:{ eexists _, e. split; [done|]. by split_and!. }
  case_bool_decide as Hci; [eexists _, e; split; [done|]; by split_and!|].
  destruct (pushLoop_spec C R tlsKey w id (S (length (flatten r))) r [] [] v e) as (p & e' & E & P1 & P2 & P3 & P4 & _ & P5).
  - done.
  - constructor; try done; [intros _; split_and!; [done|by rewrite Ep|done]|by rewrite Ha].
  - lia.
  - exists p, e'. by split_and!.
Qed.

(** The session is up. *)
Lemma settle_up (C : Serve.Config) (R : Serve.resolved) (tlsKey : bytes) (queue : Z) (id : nat) (v : server) (e : entry) (ip : bytes) :
  server_inv v -> sv_heap v !! id = Some e -> closing (e_sess e) = false -> l_outcome (s_life (e_sess e)) = false ->
  l_doneCh (s_life (e_sess e)) = false -> l_published (s_life (e_sess e)) = false -> AssignedIP (e_sess e) = Some ip ->
  exists v1 v2 a1 a2 e', settle C R id EHandshakeDone v = Ok (v1, a1) /\ settle C R id EPublish v1 = Ok (v2, a2) /\
    steps (settings_of C R) tlsKey queue v v2 /\ sv_heap v2 !! id = Some e' /\ e_key e' = e_key e /\
    closing (e_sess e') = false /\ l_established (s_life (e_sess e')) = true /\
    l_published (s_life (e_sess e')) = Serve.c_OnSession C /\ s_lease (e_sess e') = s_lease (e_sess e) /\
    s_keys (e_sess e') = s_keys (e_sess e) /\ s_data (e_sess e') = s_data (e_sess e) /\ a1 = [(id, CountOutcome HandshakesCompleted)] /\ a2 = (if Serve.c_OnSession C then [(id, CallOnSession)] else []).
Proof.
  intros Hv He Hc Ho Hd Hp Hip. set (cfg := settings_of C R).
  assert (Hx1 : exists st, exec cfg (e_state e) EHandshakeDone = Ok (st, [CountOutcome HandshakesCompleted]) /\
    closing st.1 = false /\ l_established (s_life st.1) = true /\ l_published (s_life st.1) = false /\ s_lease st.1 = s_lease (e_sess e) /\ s_keys st.1 = s_keys (e_sess e) /\ s_data st.1 = s_data (e_sess e)).
  { unfold e_sess in *. destruct (e_state e) as [s fl]. cbn [fst snd exec] in *. rewrite Hip, Hd. unfold handshakeDone.
    change (closing (closeDone s)) with (closing s). rewrite Hc. unfold recordHandshakeOutcome. cbn [closeDone set_life s_life l_outcome].
    rewrite Ho. eexists. split; [done|]. by split_and!. }
  destruct Hx1 as (st1 & Hx1 & C1 & C2 & C3 & C4 & C5 & C6).
  destruct (settle_steps C R tlsKey queue id EHandshakeDone v e _ _ Hv He eq_refl eq_refl I Hx1) as (v1 & E1 & S1 & Hh1).
  assert (Hv1 : server_inv v1) by by eapply steps_inv. set (e1 := set_todo [] (set_state st1 e)) in Hh1.
  assert (Hx2 : exists st a, exec cfg (e_state e1) EPublish = Ok (st, a) /\ a = (if Serve.c_OnSession C then [CallOnSession] else []) /\
    closing st.1 = false /\ l_established (s_life st.1) = true /\ l_published (s_life st.1) = Serve.c_OnSession C /\ s_lease st.1 = s_lease (e_sess e) /\
    s_keys st.1 = s_keys (e_sess e) /\ s_data st.1 = s_data (e_sess e)).
  { change (e_state e1) with st1. destruct st1 as [s fl]. cbn [fst snd exec] in *. rewrite C2, C3. cbn [andb negb].
    unfold publishSession. change (hasOnSession cfg) with (Serve.c_OnSession C).
    destruct (Serve.c_OnSession C); eexists _, _; (split; [done|]); by split_and!. }
  destruct Hx2 as (st2 & a & Hx2 & -> & D1 & D2 & D3 & D4 & D5 & D6).
  destruct (settle_steps C R tlsKey queue id EPublish v1 e1 _ _ Hv1 Hh1 eq_refl eq_refl I Hx2) as (v2 & E2 & S2 & Hh2).
  eexists v1, v2, _, _, _. split; [exact E1|]. split; [exact E2|]. split; [by etransitivity|]. split; [exact Hh2|].
  split_and!; try done. by destruct (Serve.c_OnSession C).
Qed.
(** The keys and the cipher of the exchange enter a fresh session. *)
Lemma keyed_entry (C : Serve.Config) (R : Serve.resolved) (tlsKey : bytes) (queue : Z) (id : nat) (v : server) (e : entry)
    (dk : Key2) (c : bytes) (ncp : bool) :
  sv_heap v !! id = Some e -> fresh_entry e -> zlen (k2_raw dk) = 256 -> Cipher.cipherKeyLen c <> 0 ->
  exists v' e', session_event (settings_of C R) id (EPublishKeys dk c ncp) v = Ok (v', []) /\
    steps (settings_of C R) tlsKey queue v v' /\ sv_heap v' !! id = Some e' /\ e_key e' = e_key e /\
    e_state e' = (publishKeys dk c ncp newSession, ∅) /\ e_assign e' = Unassigned /\ e_todo e' = [] /\
    table_ids v' = table_ids v /\ sv_pool v' = sv_pool v.
Proof.
  intros He (F1 & F2 & F3) Hd Hc.
  assert (Hx : exec (settings_of C R) (e_state e) (EPublishKeys dk c ncp) = Ok ((publishKeys dk c ncp newSession, ∅), [])) by by rewrite F1.
  assert (Hs : exists v', session_event (settings_of C R) id (EPublishKeys dk c ncp) v = Ok (v', []) /\
    sv_heap v' !! id = Some (set_todo (e_todo e ++ []) (set_state (publishKeys dk c ncp newSession, ∅) e)) /\
    table_ids v' = table_ids v /\ sv_pool v' = sv_pool v).
  { unfold session_event. rewrite He, Hx. outcome_simpl. eexists. split; [done|]. cbn. by rewrite lookup_insert_eq. }
  destruct Hs as (v' & E & Hh & Ht & Hp). eexists v', _. split; [exact E|]. split.
  { apply (step_session _ _ _ id (EPublishKeys dk c ncp) _ _ []); [done|done| |done]. done. }
  split; [exact Hh|]. split_and!; try done. by rewrite F3.
Qed.

(** The client's stream behind the key message is [n] push requests and then whole
    reads: when the last of the requests has been read nothing is buffered. *)
Definition asked (C : Serve.Config) (R : Serve.resolved) (w : world) (e : entry) (r : reader) (n : nat) : Prop :=
  exists rest, Auth.x_tlsReader (exchange_of C R w e (flatten r)) = Some (requests n ++ concat rest) /\
    rest `suffix_of` r_reads r.

(** How a bring-up has ended. *)
Definition outcome_of (C : Serve.Config) (R : Serve.resolved) (w : world) (id : nat) (e0 : entry) (r : reader)
    (h : handshake (W := W)) (e : entry) : Prop :=
  let v := h_server h in
  match h_failure h with
  | None =>
      closing (e_sess e) = false /\ l_established (s_life (e_sess e)) = true /\
      sv_sessions v !! e_key e = Some id /\ sv_dataSessions v !! PeerID (e_sess e) = Some id /\
      (exists ip n, AssignedIP (e_sess e) = Some ip /\ length ip = 4%nat /\ h_replies h = replicate (S n) (pushReply C R id v) /\
         asked C R w e0 r (S n)) /\
      l_published (s_life (e_sess e)) = Serve.c_OnSession C /\
      (Serve.c_OnSession C = true -> (id, CallOnSession) ∈ h_actions h) /\
      (id, CountOutcome HandshakesCompleted) ∈ h_actions h
  | Some (f, why) =>
      ended id (failure_reason f) v e /\ why <> Some OutOfFuel /\
      (h_rejection h <> None <-> f = FailAuth \/ f = FailCipher) /\
      (id, CountOutcome (failure_outcome f)) ∈ h_actions h
  end.

Lemma failed_outcome (C : Serve.Config) (R : Serve.resolved) (tlsKey : bytes) (queue : Z) (id : nat) (f : hs_failure)
    (why : option push_failure) (km : bytes) (replies : list (option bytes)) (rej : option bytes)
    (acts : list (nat * action)) (v : server) (e : entry) (w : world) (e0 : entry) (r : reader) :
  server_inv v -> sv_heap v !! id = Some e -> closing (e_sess e) = false -> l_outcome (s_life (e_sess e)) = false ->
  l_doneCh (s_life (e_sess e)) = false -> (forall l, e_assign e <> Leased l) -> why <> Some OutOfFuel ->
  (rej <> None <-> f = FailAuth \/ f = FailCipher) ->
  exists h e', ('(v, a) ← settleFailed C R id f v; Ok (mkHandshake (Some (f, why)) km replies rej (acts ++ a) v)) =
      Ok (E := DataChan.dc_error) h /\ steps (settings_of C R) tlsKey queue v (h_server h) /\
    sv_heap (h_server h) !! id = Some e' /\ outcome_of C R w id e0 r h e'.
Proof.
  intros Hv He Hc Ho Hd Hl Hw Hrej.
  destruct (settle_failed C R tlsKey queue id f v e Hv He Hc Ho Hd Hl) as (v' & a & e' & -> & Hs & Hh & Hen & Hin). outcome_simpl.
  eexists _, e'. split; [done|]. split; [exact Hs|]. split; [exact Hh|]. unfold outcome_of. cbn [h_failure].
  split; [exact Hen|]. split; [done|]. split; [exact Hrej|]. apply elem_of_app. by right.
Qed.

Lemma exchange_failure_rejection (err : Auth.km2_error) :
  let '(f, reason) := Auth.exchange_failure err in
  forall g : bytes -> bytes, g <$> reason <> None <-> f = FailAuth \/ f = FailCipher.
Proof. destruct err as [| | |[reason []]]; cbn; intros g; split; try done; first [by intros [?|?]|by left|by right]. Qed.

Context `{!PRFHashLaws}.

Lemma handshake_outcome (C : Serve.Config) (R : Serve.resolved) (tlsKey : bytes) (w : world) (id : nat) (r : reader)
    (v : server) (e : entry) :
  server_inv v -> sv_heap v !! id = Some e -> fresh_entry e ->
  Forall (fun c => c ∈ Cipher.supportedDataCiphers) (Serve.dataCiphers R) ->
  match w_assign w with Some (AssignIP (Some want)) => bytes_ok want | _ => True end ->
  list_to_set (C := gset nat) (w_order w) = list_to_set (table_ids v) ->
  (runHandshake C R w id r v = Panic /\ w_tls w = true /\ Auth.hook_panics (authHook C w) (flatten r)) \/
  exists h e', runHandshake C R w id r v = Ok h /\
    steps (settings_of C R) tlsKey (Serve.sessionInboundQueue R) v (h_server h) /\
    sv_heap (h_server h) !! id = Some e' /\ outcome_of C R w id e r h e'.
Proof.
  intros Hv He Hf Hall Hb Hord. unfold runHandshake. rewrite He.
  assert (Hnl : forall l, e_assign e <> Leased l) by (destruct Hf as (_ & -> & _); done).
  assert (Hst : e_sess e = newSession) by (destruct Hf as (E & _); unfold e_sess; by rewrite E).
  assert (Hfail : forall f km rej, (rej <> None <-> f = FailAuth \/ f = FailCipher) ->
    exists h e', ('(v, a) ← settleFailed C R id f v; Ok (mkHandshake (Some (f, None)) km [] rej a v)) =
        Ok (E := DataChan.dc_error) h /\ steps (settings_of C R) tlsKey (Serve.sessionInboundQueue R) v (h_server h) /\
      sv_heap (h_server h) !! id = Some e' /\ outcome_of C R w id e r h e').
  { intros f km rej Hrej. by apply (failed_outcome C R tlsKey _ id f None km [] rej [] v e w e r); rewrite ?Hst. }
  destruct (w_tls w); cbn [negb]; [|right; apply Hfail; by split; [|intros [?|?]]].
  pose proof (Auth.exchange_total (Serve.dataCiphers R) (authHook C w)
    (w_rand1 w) (w_rand2 w) (w_keyWrite w) (e_key e).2 (e_SessionID e) (flatten r) Hall) as Hx.
  fold (exchange_of C R w e (flatten r)) in Hx. cbv zeta in Hx |- *. set (x := exchange_of C R w e (flatten r)) in *.
  set (r' := match Auth.x_tlsReader x with Some rest => _ | None => r end).
  destruct (Auth.x_published x) as [[[dk c] ncp]|].
  2:{ destruct Hx as [err ->]. outcome_simpl. pose proof (exchange_failure_rejection err) as Hej.
      destruct (Auth.exchange_failure err) as [f reason]. right. apply Hfail, Hej. }
  destruct Hx as (Hd & Hc & (res & -> & Hres) & rest & Hrd & Hsuf).
  assert (Hr' : flatten r' = rest /\ r_reads r' `suffix_of` r_reads r).
  { unfold r'. rewrite Hrd. split; [|apply advance_reads]. rewrite advance_flat. destruct Hsuf as [pre ->].
    by rewrite length_app, Nat.add_sub, drop_app_length. }
  clearbody r'. destruct Hr' as [Hr1 Hr2].
  destruct (keyed_entry C R tlsKey (Serve.sessionInboundQueue R) id v e dk c ncp He Hf Hd Hc)
    as (v1 & e1 & -> & S1 & He1 & K1 & K2 & K3 & K4 & K5 & K6).
  assert (Hv1 : server_inv v1) by by eapply steps_inv.
  assert (Hse : e_sess e1 = publishKeys dk c ncp newSession) by (unfold e_sess; by rewrite K2).
  assert (Hnl1 : forall l, e_assign e1 <> Leased l) by (by rewrite K3).
  destruct res as [[]|err|]; [right|right|left; by split_and!; auto]; outcome_simpl.
  2:{ pose proof (exchange_failure_rejection err) as Hej. destruct (Auth.exchange_failure err) as [f reason].
      destruct (failed_outcome C R tlsKey (Serve.sessionInboundQueue R) id f None (Auth.x_written x) []
        ((fun reason => (Auth.rejectAuthAfterPushRequest (flatten r') reason).2) <$> reason) [] v1 e1 w e r)
        as (h & e' & E & S2 & Hh2 & Ho); rewrite ?Hse; try done; try by apply Hej.
      exists h, e'. split; [exact E|]. split; [by etransitivity|]. by split. }
  destruct (push_exchange_spec C R tlsKey w id r' v1 e1 Hv1 He1) as (p & e2 & -> & S2 & He2 & Hca & Hnl2 & Hp);
    [by rewrite Hse|by rewrite Hse|done|done|by rewrite K5|]. outcome_simpl.
  assert (Hv2 : server_inv (p_server p)) by by eapply steps_inv.
  assert (Hlife : s_life (e_sess e2) = s_life (newSession (W := W))) by (rewrite (ca_life _ _ Hca), Hse; done).
  assert (Hc2 : closing (e_sess e2) = false) by (unfold closing; by rewrite Hlife).
  destruct (p_failure p) as [f|].
  - destruct (failed_outcome C R tlsKey (Serve.sessionInboundQueue R) id FailPush (Some f) (Auth.x_written x) (p_replies p)
      None (p_actions p) (p_server p) e2 w e r) as (h & e' & E & S3 & Hh3 & Ho); rewrite ?Hlife; try done;
      [by intros [= ?]|by split; [|intros [?|?]]|].
    exists h, e'. split; [exact E|]. split; [by etransitivity; [|etransitivity]|]. by split.
  - destruct Hp as (ip & n & Hip & Hlen & Hrep & Hreq & Hreads).
    destruct (settle_up C R tlsKey (Serve.sessionInboundQueue R) id (p_server p) e2 ip Hv2 He2 Hc2)
      as (v3 & v4 & a1 & a2 & e' & E1 & E2 & S3 & Hh3 & L1 & L2 & L3 & L4 & L5 & _ & _ & L6 & L7); rewrite ?Hlife; try done.
    rewrite E1. outcome_simpl. rewrite E2. outcome_simpl. eexists _, e'. split; [done|].
    split; [by etransitivity; [|etransitivity]|]. split; [exact Hh3|]. unfold outcome_of. cbn [h_failure h_server h_replies h_actions].
    assert (Hv4 : server_inv v4) by by eapply steps_inv.
    assert (Ht' : torn e' = false).
    { destruct (torn e') eqn:Et; [|done]. apply (si_torn _ (eo_session _ (vi_entry v4 Hv4 id e' Hh3))) in Et.
      unfold closing, e_sess in L2. congruence. }
    assert (Hip' : AssignedIP (e_sess e') = Some ip) by (unfold AssignedIP; by rewrite L5).
    split_and!; try done.
    + apply (vi_table v4 Hv4). exists e'. split_and!; [done|done|]. unfold listed. by rewrite Ht'.
    + apply (vi_routes v4 Hv4). exists e'. split_and!; [done|done|]. unfold routed. by rewrite Ht', Hip'.
    + exists ip, n. split_and!; [done|done| |].
      2:{ exists (r_reads (p_reader p)). fold x. rewrite <- Hreq, Hr1. split; [exact Hrd|by etransitivity]. }
      rewrite Hrep. f_equal. unfold pushReply. rewrite He2, Hh3. cbn.
      unfold PeerID, Session.Cipher, AssignedIP. by rewrite L5.
    + intros Hon. subst a2. rewrite Hon. rewrite !elem_of_app. right. right. apply list_elem_of_here.
    + subst a1. rewrite !elem_of_app. right. left. apply list_elem_of_here.
Qed.

(** C4. A bring-up settles, but for one panic.  Started on a session just opened, in
    any state the server can reach, and whatever the client sends and however it
    arrives, whichever writes fail and whatever [AuthUserPass] and [AssignIP] do, the
    bring-up either panics, which takes an [AuthUserPass] that rejects the credentials
    the client sent with an error whose [ClientReason] panics, or comes to an end
    through steps of the server.  It then
    ends in one of two ways.  Either the session is established, counted as completed,
    in the session table under its key and in the routes under its peer-id, with a
    four-byte address, and handed over if a hook is set; the replies sent are as many
    as the push requests read behind the key message, all of the same text, and the
    reading has stopped with nothing buffered.  Or it is torn down, in neither table and
    without a lease, with the close reason and under the one counter its failure has,
    after a rejection exactly when its credentials or its ciphers were refused. *)
Theorem handshake_settles (C : Serve.Config) (R : Serve.resolved) (tlsKey : bytes) (pool : option IpPool.ipPool)
    (w : world) (id : nat) (r : reader) (v : server) (e : entry) :
  pool_ok pool [] -> sreachable (settings_of C R) tlsKey (Serve.sessionInboundQueue R) pool v ->
  sv_heap v !! id = Some e -> fresh_entry e ->
  Forall (fun c => c ∈ Cipher.supportedDataCiphers) (Serve.dataCiphers R) ->
  match w_assign w with Some (AssignIP (Some want)) => bytes_ok want | _ => True end ->
  list_to_set (C := gset nat) (w_order w) = list_to_set (table_ids v) ->
  (runHandshake C R w id r v = Panic /\ w_tls w = true /\ Auth.hook_panics (authHook C w) (flatten r)) \/
  exists h e', runHandshake C R w id r v = Ok h /\
    sreachable (settings_of C R) tlsKey (Serve.sessionInboundQueue R) pool (h_server h) /\
    sv_heap (h_server h) !! id = Some e' /\ outcome_of C R w id e r h e'.
Proof.
  intros Hp Hr He Hf Hall Hb Hord. pose proof (sreachable_inv _ _ _ _ _ Hp Hr) as Hv.
  destruct (handshake_outcome C R tlsKey w id r v e Hv He Hf Hall Hb Hord) as [E|(h & e' & E & S & Hh' & Ho)]; [by left|].
  right. exists h, e'. split_and!; [done|by eapply steps_reachable|done|done].
Qed.
(** ** A client that plays by the rules *)

Lemma readControlString_of (r : reader) (s rest : bytes) :
  0 ∉ s -> zlen s < Push.maxControlStringLen -> flatten r = s ++ [0] ++ rest ->
  exists r', readControlString r = Ok (s, r') /\ flatten r' = rest.
Proof.
  intros Hs Hl Hf. pose proof (readControlString_flat r) as Hr. rewrite Hf in Hr. unfold Push.readControlString in Hr.
  rewrite Push.readLoop_spec in Hr by done. unfold zlen in Hl.
  assert (Hlt : (length s <? Z.to_nat Push.maxControlStringLen)%nat = true) by (apply Nat.ltb_lt; unfold Push.maxControlStringLen in *; lia).
  rewrite Hlt in Hr. destruct (readControlString r) as [[s' r']|e|]; [|done..].
  destruct Hr as [Hr _]. injection Hr as <- Hrest. exists r'. by split.
Qed.

(** One push request, and an address at hand. *)
Lemma push_served (C : Serve.Config) (R : Serve.resolved) (w : world) (id : nat) (r : reader) (v : server) (e : entry)
    (l : IpPool.lease) :
  server_inv v -> sv_heap v !! id = Some e -> closing (e_sess e) = false -> AssignedIP (e_sess e) = None ->
  e_assign e = Unassigned -> Session.Cipher (e_sess e) <> [] -> sv_pool v <> None ->
  match w_assign w with Some (AssignIP (Some want)) => bytes_ok want | _ => True end ->
  (assign_first (w_assign w) v).1 = Got l -> w_replyWrite w 0 = true -> flatten r = pushRequestLiteral ++ [0] ->
  exists p e', performPushExchange C R w id r v = Ok p /\ p_failure p = None /\ p_actions p = [] /\
    p_replies p = [pushReply C R id (p_server p)] /\ sv_heap (p_server p) !! id = Some e' /\ carried e e' /\
    AssignedIP (e_sess e') = Some (IpPool.l_ip l) /\ PeerID (e_sess e') = IpPool.l_peerID l /\
    data_channel (Serve.sessionInboundQueue R) (e_sess e') /\ server_inv (p_server p).
Proof.
  intros Hv He Hc Ha Hu Hci Hp Hb Hg Hw Hf. unfold performPushExchange. rewrite He.
  destruct (sv_pool v) as [p0|] eqn:Ep; [|done]. rewrite bool_decide_eq_false_2 by done. cbn [pushLoop].
  destruct (readControlString_of r pushRequestLiteral []) as (r' & -> & Hr'); [decide_now|done|done|].
  rewrite bool_decide_eq_true_2 by done. cbn [negb]. unfold assignedIP at 1. rewrite He. cbn [mbind option_bind]. rewrite Ha.
  unfold establish, assignTunnelIP.
  destruct (assign_first_change (w_assign w) v _ Hb (vi_pool v Hv) ltac:(by rewrite Ep)) as [Hpc Hiu].
  destruct (assign_first (w_assign w) v) as [a v1]. cbn [fst snd] in *. subst a. outcome_simpl.
  assert (He1 : sv_heap v1 !! id = Some e) by (by rewrite (pc_heap _ _ _ _ Hpc)). rewrite He1.
  assert (Hvr : server_inv (record_assigned id e (Got l, v1))) by 
    by (apply (record_assigned_inv v id e (Got l, v1)); [done|done|by rewrite Hu|by rewrite Hu|done|exact Hpc|done]).
  destruct (publish_spec (settings_of C R) (w_now w) (Serve.sessionInboundQueue R) id (record_assigned id e (Got l, v1))
    (set_assign (Leased l) e) l Hvr) as (v' & e' & Epu & Hh & Hca & _ & Hip & Hpe & Hdw);
    [cbn; by rewrite lookup_insert_eq|done|done|].
  assert (Hv' : server_inv v').
  { destruct (publish_inv (settings_of C R) (w_now w) (Serve.sessionInboundQueue R) id _ Hvr) as (v2 & E2 & Hi). congruence. }
  rewrite Epu. outcome_simpl.
  unfold assignedIP. rewrite Hh. cbn [mbind option_bind]. rewrite Hip. outcome_simpl. cbn [length]. rewrite Hw. cbn [negb].
  assert (Hbuf : Buffered r' = 0).
  { unfold Buffered, flatten in *. apply app_eq_nil in Hr' as [-> _]. done. }
  rewrite Hbuf. cbn [Z.eqb]. eexists _, e'. split; [done|]. cbn. split_and!; try done.
  destruct Hca as [G1 G2 G3 G4 G5 G6 G7]. by constructor.
Qed.
Lemma assign_first_pool (hook : option assign_result) (v v' : server) :
  sv_pool v' = sv_pool v -> (assign_first hook v').1 = (assign_first hook v).1.
Proof.
  intros E. assert (Ha : (allocateFromPool v').1 = (allocateFromPool v).1).
  { unfold allocateFromPool. rewrite E. destruct (sv_pool v) as [p|]; [|done]. by destruct (IpPool.allocate p) as [[[]| |] ?]. }
  unfold assign_first. destruct hook as [[[want|]| |]|]; cbn [callAssignIP]; try done.
  unfold reserve_want. rewrite E. destruct (sv_pool v) as [p|]; [|done].
  destruct (IpPool.reserve p want) as [[|e|] ?]; try done. by case_bool_decide.
Qed.

Lemma assign_first_got (hook : option assign_result) (v : server) (l : IpPool.lease) :
  (assign_first hook v).1 = Got l -> sv_pool v <> None.
Proof.
  intros Hg E. unfold assign_first, allocateFromPool, reserve_want in Hg. rewrite E in Hg.
  by destruct hook as [[[want|]| |]|].
Qed.

(** C3. A client that plays by the rules is served.  Let a session have just been
    opened, in any state the server can reach, and let its client send a Key Method 2
    message of the wire format, sharing a cipher with the server and with credentials
    that are accepted, and one push request behind it, all of it cut in any way; let
    the first attempt at an address succeed and no write fail.  Then the bring-up
    succeeds: the session is established with that lease and the agreed cipher, and
    with the keys that the client derives from its own key source and the message it
    is sent; the data channel is open under these keys, for this peer-id, and nothing
    has gone through it; and the client is sent one push reply with this address,
    peer-id and cipher. *)
Theorem client_served (C : Serve.Config) (R : Serve.resolved) (tlsKey : bytes) (pool : option IpPool.ipPool)
    (w : world) (id : nat) (r : reader) (v : server) (e : entry) (network : IpPool.IPNet) (names : list bytes) (name : bytes)
    (reserved : bytes) (method : Z) (km : KeySource) (o : ClientOptions) (r1 r2 c : bytes) (l : IpPool.lease) :
  pool_ok pool [] -> sreachable (settings_of C R) tlsKey (Serve.sessionInboundQueue R) pool v ->
  sv_heap v !! id = Some e -> fresh_entry e -> Serve.c_Network C = Some network ->
  Cipher.resolveDataCiphers names name = Ok (Serve.dataCiphers R) ->
  client_message_wf reserved method km o -> bytes_ok (flatten r) ->
  flatten r = client_message reserved method km o ++ pushRequestLiteral ++ [0] ->
  Cipher.selectCipher (Serve.dataCiphers R) (Cipher.peerCipherList (PeerInfo o)) (Auth.occCipherOf o) = Ok c ->
  Auth.verifyUserPass (if Serve.c_AuthUserPass C then Some (w_auth w) else None) (Some o) = Ok tt ->
  w_tls w = true -> w_keyWrite w = true -> w_replyWrite w 0 = true ->
  w_rand1 w = Some r1 -> w_rand2 w = Some r2 -> zlen r1 = 32 -> zlen r2 = 32 ->
  match w_assign w with Some (AssignIP (Some want)) => bytes_ok want | _ => True end ->
  (assign_first (w_assign w) v).1 = Got l ->
  exists h e' raw keys options, runHandshake C R w id r v = Ok h /\ h_failure h = None /\
    sv_heap (h_server h) !! id = Some e' /\ l_established (s_life (e_sess e')) = true /\
    AssignedIP (e_sess e') = Some (IpPool.l_ip l) /\ PeerID (e_sess e') = IpPool.l_peerID l /\ Session.Cipher (e_sess e') = c /\
    Auth.client_reads (h_keyMessage h) = Ok (r1, r2, options ++ [0]) /\ Cipher.parseOCCCipher options = c /\
    DeriveKeys (mkKeySource2 km (mkKeySource [] r1 r2)) (e_key e).2 (e_SessionID e) = Some (Ok (mkKey2 raw)) /\
    ServerSlots (mkKey2 raw) (Cipher.cipherKeyLen c) = Ok keys /\
    open_tunnel (Serve.sessionInboundQueue R) keys (e_sess e') /\
    h_replies h = [Push.buildPushReply (IpPool.l_ip l) network (IpPool.l_peerID l) c (Cipher.peerSupportsNCP (PeerInfo o))
      (Push.durationToPushedSeconds (Serve.pingEvery R)) (Push.durationToPushedSeconds (Serve.reapWindow R))].
Proof.
  intros Hp Hr He Hf Hnet Hres Hwf Hok Hfl Hsel Hver Htls Hkw Hrw HR1 HR2 Hl1 Hl2 Hb Hg.
  pose proof (assign_first_got _ _ _ Hg) as Hpl.
  pose proof (sreachable_inv _ _ _ _ _ Hp Hr) as Hv.
  assert (Hok' : bytes_ok (client_message reserved method km o ++ pushRequestLiteral ++ [0])) by by rewrite <- Hfl.
  destruct (Auth.exchange_computes names name (Serve.dataCiphers R) (if Serve.c_AuthUserPass C then Some (w_auth w) else None)
    reserved method km o (pushRequestLiteral ++ [0]) r1 r2 (e_key e).2 (e_SessionID e) c Hres Hwf Hok' Hl1 Hl2 Hsel)
    as (Hc & _ & buf & raw & Hraw & Hcr & Hd & Hx).
  rewrite Hver in Hx. cbn [Auth.lift_auth] in Hx. rewrite <- Hfl in Hx.
  unfold runHandshake. rewrite He, Htls. cbn [negb]. unfold exchange_of, authHook. rewrite HR1, HR2, Hkw, Hx. cbv zeta. cbn [Auth.x_result Auth.x_tlsReader Auth.x_published Auth.x_written].
  set (r' := advance _ r). assert (Hr' : flatten r' = pushRequestLiteral ++ [0]).
  { unfold r'. rewrite advance_flat, Hfl, length_app, Nat.add_sub. apply drop_app_length. }
  destruct (keyed_entry C R tlsKey (Serve.sessionInboundQueue R) id v e (mkKey2 raw) c (Cipher.peerSupportsNCP (PeerInfo o)) He Hf Hraw ltac:(lia))
    as (v1 & e1 & -> & S1 & He1 & K1 & K2 & K3 & K4 & K5 & K6). outcome_simpl.
  assert (Hv1 : server_inv v1) by by eapply steps_inv.
  assert (Hse : e_sess e1 = publishKeys (mkKey2 raw) c (Cipher.peerSupportsNCP (PeerInfo o)) newSession) by (unfold e_sess; by rewrite K2).
  assert (Hg1 : (assign_first (w_assign w) v1).1 = Got l) by (rewrite <- Hg; by apply assign_first_pool).
  destruct (push_served C R w id r' v1 e1 l Hv1 He1) as (p & e2 & -> & Hpf & Hpa & Hpr & He2 & Hca & Hip & Hpe & Hdw & Hv2); rewrite ?Hse; try done.
  { cbn. intros ->. by destruct Hc. }
  { by rewrite K6. }
  outcome_simpl. rewrite Hpf.
  assert (Hlife : s_life (e_sess e2) = s_life (newSession (W := W))) by (rewrite (ca_life _ _ Hca), Hse; done).
  destruct (settle_up C R tlsKey (Serve.sessionInboundQueue R) id (p_server p) e2 (IpPool.l_ip l) Hv2 He2)
    as (v3 & v4 & a1 & a2 & e' & E1 & E2 & S3 & Hh3 & L1 & L2 & L3 & L4 & L5 & L6 & L7 & _);
    unfold closing; rewrite ?Hlife; try done.
  rewrite E1. outcome_simpl. rewrite E2. outcome_simpl.
  assert (Hk2 : k_dataKeys (s_keys (e_sess e2)) = Some (mkKey2 raw)) by (rewrite (ca_keys _ _ Hca), Hse; done).
  assert (Hc2 : Session.Cipher (e_sess e2) = c) by (rewrite (ca_cipher _ _ Hca), Hse; done).
  destruct Hdw as (dk & keys & W1 & W2 & W3). rewrite Hk2 in W1. injection W1 as <-. rewrite Hc2 in W2.
  eexists _, e', raw, keys, (Cipher.serverKM2Options c). split; [reflexivity|].
  assert (Hlease : AssignedIP (e_sess e') = AssignedIP (e_sess e2) /\ PeerID (e_sess e') = PeerID (e_sess e2) /\
    Session.Cipher (e_sess e') = Session.Cipher (e_sess e2)).
  { unfold AssignedIP, PeerID, Session.Cipher. by rewrite L5. }
  destruct Hlease as (Z1 & Z2 & Z3). cbn [h_failure h_server h_keyMessage h_replies].
  split; [done|]. split; [done|]. split; [done|]. split; [by rewrite Z1|]. split; [by rewrite Z2|]. split; [by rewrite Z3|].
  split; [done|]. split; [apply (Auth.serverKM2Options_names c Hc)|]. split; [done|]. split; [done|]. split.
  - constructor; [|done|rewrite L7, (ca_pending _ _ Hca), Hse; done].
    destruct W3 as [W3 W4 W5]. by constructor; rewrite ?L6, ?L7, ?Z2.
  - rewrite Hpr. f_equal. unfold pushReply. rewrite He2. cbn [mbind option_bind]. rewrite Hip. cbn [mbind option_bind].
    rewrite Hnet. cbn [mbind option_bind]. rewrite Hpe, Hc2, (ca_ncp _ _ Hca), Hse. done.
Qed.
End steps.

(** ** Examples and witnesses *)

Module Toy.
#[export] Existing Instances DataChan.Toy.aead DataChan.Toy.laws TlsCrypt.Toy.prims TlsCrypt.Toy.laws ToyPRF.hashes ToyPRF.laws.

(** A server that asks for credentials only. *)
Definition C : Serve.Config :=
  Serve.mkConfig (Some 0) TlsCrypt.Toy.key (Some IpPool.ToyPool.net) [] [] true 0 true 0 0 0 true.
Definition R : Serve.resolved := (Serve.start C false (Serve.NewServer C)).2.

Notation server := (server (W := replayWindow)).

Definition opened : server :=
  match srun (settings_of C R) TlsCrypt.Toy.key (Serve.sessionInboundQueue R) (newServer (Serve.pool R)) (ServerProps.Toy.knock 1) with
  | Some (v, _) => v
  | None => newServer None
  end.

Lemma opened_reachable : sreachable (settings_of C R) TlsCrypt.Toy.key (Serve.sessionInboundQueue R) (Serve.pool R) opened.
Proof.
  unfold opened. destruct (srun _ _ _ _ _) as [[v A]|] eqn:E; [|vm_compute in E; discriminate E].
  eapply srun_reachable; [apply sreach_new|exact E].
Qed.

Definition hook (u p : bytes) : Auth.hook_result :=
  if bool_decide (p = of_string "pw") then Auth.HookAccept else Auth.HookReject (Some (Some (of_string "bad"))).
Definition world : world :=
  mkWorld true hook (Some (replicate 32 1)) (Some (replicate 32 2)) true None [0%nat] (fun _ => true) 100.
Definition hello (pw : String.string) : bytes := client_message [0; 0; 0; 0] 2 ToyKM2.src (Auth.Toy.client "bob" pw).
(** A stream, cut behind its hundredth byte. *)
Definition cut (s : bytes) : reader := mkReader [] [take 100 s; drop 100 s].

Definition result (stream : bytes) : option (handshake (W := replayWindow)) :=
  match runHandshake C R world 0 (cut stream) opened with Ok h => Some h | _ => None end.

(** A second push request in the same record is answered like the first. *)
Example answered_twice :
  (length ∘ h_replies <$> result (hello "pw" ++ pushRequestLiteral ++ [0] ++ pushRequestLiteral ++ [0])) = Some 2%nat.
Proof. vm_compute. reflexivity. Qed.

(** Part of a second request behind an answered first one: the exchange waits for the
    rest, and when the connection ends instead, the bring-up has failed. *)
Example answered_but_failed :
  (fun h => (h_failure h, length (h_replies h))) <$> result (hello "pw" ++ pushRequestLiteral ++ [0; 80; 85]) =
  Some (Some (FailPush, Some (BadRequest Push.ErrReaderEOF)), 1%nat).
Proof. vm_compute. reflexivity. Qed.

Lemma resolved_pool_fresh : pool_ok (Serve.pool R) [].
Proof.
  destruct (Serve.pool R) as [p|] eqn:E; [|done]. apply (IpPool.newIPPool_inv IpPool.ToyPool.net); [decide_now|].
  rewrite <- (f_equal (fun o => match o with Some p => Ok p | None => Panic end) E). vm_compute. reflexivity.
Qed.
End Toy.

Import Toy.

Lemma handshake_settles_witness :
  exists h e', runHandshake C R world 0 (cut (hello "no" ++ pushRequestLiteral ++ [0])) opened = Ok h /\
    sv_heap (h_server h) !! 0%nat = Some e' /\ h_failure h = Some (FailAuth, None) /\ ended 0 CloseReasonAuthFailed (h_server h) e'.
Proof.
  destruct (sv_heap opened !! 0%nat) as [e|] eqn:He; [|vm_compute in He; discriminate He].
  assert (Hf : fresh_entry e) by (vm_compute in He; injection He as <-; split_and!; vm_compute; reflexivity).
  destruct (handshake_settles C R TlsCrypt.Toy.key (Serve.pool R) world 0 (cut (hello "no" ++ pushRequestLiteral ++ [0])) opened e
    resolved_pool_fresh opened_reachable He Hf) as [(E & _)|(h & e' & E & _ & Hh & Ho)].
  - vm_compute Serve.dataCiphers. decide_now.
  - exact I.
  - vm_compute. reflexivity.
  - exfalso. assert (Er : is_ok (runHandshake C R world 0 (cut (hello "no" ++ pushRequestLiteral ++ [0])) opened) = true) by (vm_compute; reflexivity).
    rewrite E in Er. discriminate Er.
  - exists h, e'. split; [exact E|]. split; [exact Hh|].
    assert (Ef : h_failure h = Some (FailAuth, None)).
    { assert (Er : h_failure <$> result (hello "no" ++ pushRequestLiteral ++ [0]) = Some (Some (FailAuth, None))) by (vm_compute; reflexivity).
      unfold result in Er. rewrite E in Er. cbn in Er. injection Er as Er. exact Er. }
    split; [exact Ef|]. unfold outcome_of in Ho. rewrite Ef in Ho. apply Ho.
Defined.

Lemma client_served_witness :
  exists h e', runHandshake C R world 0 (cut (hello "pw" ++ pushRequestLiteral ++ [0])) opened = Ok h /\
    sv_heap (h_server h) !! 0%nat = Some e' /\ AssignedIP (e_sess e') = Some [10; 9; 0; 2] /\ exists keys, open_tunnel 32 keys (e_sess e').
Proof.
  destruct (sv_heap opened !! 0%nat) as [e|] eqn:He; [|vm_compute in He; discriminate He].
  assert (Hf : fresh_entry e) by (vm_compute in He; injection He as <-; split_and!; vm_compute; reflexivity).
  destruct (client_served C R TlsCrypt.Toy.key (Serve.pool R) world 0 (cut (hello "pw" ++ pushRequestLiteral ++ [0])) opened e
    IpPool.ToyPool.net [] [] [0; 0; 0; 0] 2 ToyKM2.src (Auth.Toy.client "bob" "pw") (replicate 32 1) (replicate 32 2)
    Cipher.AES128 (IpPool.mkLease [10; 9; 0; 2] 0) resolved_pool_fresh opened_reachable He Hf)
    as (h & e' & raw & keys & options & E & _ & Hh & _ & Hip & _ & _ & _ & _ & _ & _ & Hdw & _).
  all: lazymatch goal with |- exists _, _ => idtac | _ => try (vm_compute; reflexivity) end.
  - constructor; vm_compute; first [reflexivity|discriminate].
  - decide_now.
  - exists h, e'. split; [exact E|]. split; [exact Hh|]. split; [exact Hip|]. exists keys.
    assert (Hq : Serve.sessionInboundQueue R = 32) by (vm_compute; reflexivity). rewrite <- Hq. exact Hdw.
Defined.
End Handshake.
