(* ===== verification/Tunnel.v ===== *)
(** * Tunnel: from one end to the other

    The components put together, seen from a client that holds the mirror image of
    the data channel's keys: what it seals arrives as datagrams ([handleDatagram]),
    finds its session by the peer-id, is opened and queued, and is read by the
    embedder; what the embedder writes is sealed and opens at the client.  On top of
    it the userspace stack reads the session and answers. *)

From stdpp Require Import gmap.
From S2P Require Import Prelude Wire TlsCrypt Replay KeyDeriv DataChan Cipher IpPool Frame IPv4 Reassembly Stack Session SessionProps Serve Server ServerInv ServerProps Handshake.
Import Frame IPv4 IpPool Session SessionProps Server ServerInv ServerProps Handshake.

Module Tunnel.

Section traffic.
Context {W : Type} `{!AntiReplay W} `{!DataChan.AEAD} `{!TLSCryptPrims}.
Notation entry := (entry (W := W)).
Notation server := (server (W := W)).

(** What happens to a session: the [i]-th packet of its client arrives, from any
    address; the embedder writes a packet; the embedder reads into [n] bytes. *)
Inductive traffic := Up (now : Z) (addr : bytes) (i : nat) | Down (p : bytes) | Recv (n : Z).

(** The server, the datagrams sent to the client, and what the embedder has read. *)
Record flow := mkFlow { f_server : server; f_sent : list bytes; f_got : list bytes }.

Definition sent (acts : list action) : list bytes :=
  omap (fun a => match a with SendData pkt => Some pkt | _ => None end) acts.

Definition recv (id : nat) (n : Z) (v : server) : read_result :=
  match sv_heap v !! id with Some e => (Read (e_sess e) n false).1 | None => RdBlocks end.

Variables (cfg : settings) (tlsKey : bytes) (serverSID : option bytes) (id : nat).

Definition flow_step (packets : list bytes) (op : traffic) (f : flow) : outcome DataChan.dc_error flow :=
  match op with
  | Up now addr i =>
      '(v, acts) ← handleDatagram cfg tlsKey serverSID now false addr (nth i packets []) (f_server f);
      Ok (mkFlow v (f_sent f ++ sent (map snd acts)) (f_got f))
  | Down p =>
      '(v, acts) ← session_event cfg id (EWrite (Some (fun _ => true)) p) (f_server f);
      Ok (mkFlow v (f_sent f ++ sent acts) (f_got f))
  | Recv n =>
      '(v, acts) ← session_event cfg id (ERead n false) (f_server f);
      Ok (mkFlow v (f_sent f ++ sent acts)
            (f_got f ++ match recv id n (f_server f) with RdData p => [p] | _ => [] end))
  end.

Fixpoint flow_run (packets : list bytes) (ops : list traffic) (f : flow) : outcome DataChan.dc_error flow :=
  match ops with
  | [] => Ok f
  | op :: ops => f ← flow_step packets op f; flow_run packets ops f
  end.

Definition ups (ops : list traffic) : list nat := omap (fun o => match o with Up _ _ i => Some i | _ => None end) ops.
Definition downs (ops : list traffic) : list bytes := omap (fun o => match o with Down p => Some p | _ => None end) ops.

(** The payloads a receiver takes that goes by the full history [h] of numbers seen. *)
Definition delivered (h : list Z) (plaintexts : list bytes) (idx : list nat) : list bytes :=
  omap (fun r => match r with Ok p => Some p | _ => None end)
    (zip_with (DataChan.delivery plaintexts) idx (reference_all h (map (fun i => 1 + Z.of_nat i) idx))).

(** ** A session in use *)

(** The session between two steps: the numbers opened so far, the last one sealed, and
    the two directions' keys. *)
Record in_use (queue : Z) (keys : DataKeys) (h : list Z) (n : Z) (s : Session W) : Prop := {
  iu_closing : closing s = false;
  iu_wrapper : exists w w0, ks_wrapper (k_primary (s_keys s)) = Some w /\ DataChan.NewWrapper keys (PeerID s) 0 = Ok w0 /\
    DataChan.w_encryptAEAD w = DataChan.w_encryptAEAD w0 /\ DataChan.w_encryptIV w = DataChan.w_encryptIV w0 /\
    DataChan.w_decryptAEAD w = DataChan.w_decryptAEAD w0 /\ DataChan.w_decryptIV w = DataChan.w_decryptIV w0 /\
    DataChan.w_sendSeq w = n /\ ar_models (DataChan.w_replay w) h;
  iu_old : ks_wrapper (k_lameDuck (s_keys s)) = None;
  iu_queue : exists q, d_ipInbound (s_data s) = Some (queue, q);
}.

Lemma open_in_use (queue : Z) (keys : DataKeys) (s : Session W) : open_tunnel queue keys s -> in_use queue keys [] 0 s.
Proof.
  intros [[(w & Hw & Hp) Ho Hq] Hc _]. destruct (DataChan.NewWrapper_start _ _ _ _ Hw) as (E1 & E2 & _ & _).
  constructor; [done| |done|by eexists]. exists w, w. rewrite E2. by pose proof ar_init_models.
Qed.

(** ** One step of each kind *)

Context `{!DataChan.AEADLaws}.

(** A wrapper of the other end. *)
Definition sealer (keys : DataKeys) (w0 : DataChan.Wrapper W) : Prop :=
  exists peer w, DataChan.NewWrapper keys peer 0 = Ok w /\
    DataChan.w_encryptAEAD w0 = DataChan.w_decryptAEAD w /\ DataChan.w_encryptIV w0 = DataChan.w_decryptIV w.

Lemma NewWrapper_peer (keys : DataKeys) (p1 p2 kid : Z) (w1 w2 : DataChan.Wrapper W) :
  DataChan.NewWrapper keys p1 kid = Ok w1 -> DataChan.NewWrapper keys p2 kid = Ok w2 ->
  DataChan.w_encryptAEAD w1 = DataChan.w_encryptAEAD w2 /\ DataChan.w_encryptIV w1 = DataChan.w_encryptIV w2 /\
  DataChan.w_decryptAEAD w1 = DataChan.w_decryptAEAD w2 /\ DataChan.w_decryptIV w1 = DataChan.w_decryptIV w2.
Proof.
  unfold DataChan.NewWrapper. destruct (_ && _); [done|]. destruct (slice (EncryptCipher keys) _ _); [|done..]. outcome_simpl.
  destruct (DataChan.aesNewCipher _); [|done..]. outcome_simpl. destruct (slice (DecryptCipher keys) _ _); [|done..]. outcome_simpl.
  destruct (DataChan.aesNewCipher _); [|done..]. outcome_simpl. by intros [= <-] [= <-].
Qed.

(** What a queue makes of the packets offered to it. *)
Definition took (queue : Z) (s s' : Session W) (offered taken : list bytes) : Prop :=
  unread s' = unread s ++ taken /\ taken `sublist_of` offered /\
  (zlen (unread s) + zlen offered <= queue -> taken = offered).

Lemma deliver_took (now : Z) (queue : Z) (p : bytes) (s : Session W) (q : list bytes) :
  closing s = false -> isExitNotify p = false -> d_ipInbound (s_data s) = Some (queue, q) ->
  exists s' taken, acceptPlaintext cfg now false p s = (s', []) /\ took queue s s' [p] taken /\
    s_keys s' = s_keys s /\ closing s' = false /\ PeerID s' = PeerID s /\ exists q', d_ipInbound (s_data s') = Some (queue, q').
Proof.
  intros Hc He Hq. pose proof (accept_step cfg now p s Hc He) as HA. unfold acceptPlaintext in *. rewrite He in *.
  cbn [fst] in HA. rewrite Hq in HA. destruct HA as (HA1 & HA2 & _).
  eexists _, _. split; [reflexivity|]. split; [split; [exact HA2|]|].
  - destruct (Z.ltb_spec (zlen q) queue) as [|Hz]; [done|]. split; [by apply sublist_nil_l|]. unfold unread. rewrite Hq.
    unfold zlen in *. rewrite length_app. cbn. lia.
  - unfold deliverIP. cbn. rewrite Hq. change (closing (countPacket p (touchAuthTraffic now s))) with (closing s). rewrite Hc. cbn.
    destruct (zlen q <? queue); split_and!; try done; by eexists.
Qed.

(** A packet of the client. *)
Lemma up_session (now : Z) (queue : Z) (keys : DataKeys) (h : list Z) (n seq : Z) (s : Session W) (w0 : DataChan.Wrapper W)
    (p packet : bytes) :
  in_use queue keys h n s -> sealer keys w0 -> is_u32 seq -> DataChan.sealWithSeq w0 [] seq p = Ok packet -> isExitNotify p = false ->
  let fresh := window_accepts h seq in
  exists s' taken, handleDataPacket cfg now false s packet = Ok (s', []) /\
    in_use queue keys (if fresh then seq :: h else h) n s' /\ PeerID s' = PeerID s /\
    took queue s s' (if fresh && negb (DataChan.IsPing p) then [p] else []) taken.
Proof.
  intros [U1 (w & w1 & Ew & Hw1 & K1 & K2 & K3 & K4 & K5 & Hm) U3 (q & U4)] (peer & w2 & Hw2 & S1 & S2) Hs Hp He fresh.
  destruct (NewWrapper_peer _ _ _ _ _ _ Hw1 Hw2) as (_ & _ & P3 & P4).
  destruct (DataChan.sealed_packet w0 w seq p packet) as (Hl & Hq & Ho); [congruence|congruence|done|done|].
  unfold handleDataPacket. rewrite Ew, DataChan.Open_result, (proj2 (Z.ltb_ge _ 24)), Ho, Hq by done.
  destruct (ar_accept (DataChan.w_replay w) seq) as [ok r] eqn:Ea.
  destruct (ar_accept_spec _ _ _ _ _ Hs Hm Ea) as (Hok & Hm' & _). fold fresh in Hok. rewrite <- Hok in *.
  set (s1 := set_primary_wrapper (DataChan.with_replay w r) s).
  assert (Huse : forall s', s_keys s' = s_keys s1 -> closing s' = false -> PeerID s' = PeerID s ->
    (exists q', d_ipInbound (s_data s') = Some (queue, q')) -> in_use queue keys (if ok then seq :: h else h) n s').
  { intros s' E1 E2 E3 E4. constructor; rewrite ?E1, ?E3; try done.
    exists (DataChan.with_replay w r), w1. by split_and!. }
  assert (Hnone : took queue s s1 [] []).
  { split; [by rewrite app_nil_r|done]. }
  destruct ok; cbn [negb andb]; [|rewrite U3; eexists s1, []; split_and!; [done|by apply Huse; try eexists|done|exact Hnone]].
  destruct (DataChan.IsPing p) eqn:Eping; cbn [negb andb].
  - eexists _, []. split; [reflexivity|]. split; [by apply Huse; try eexists|]. split; [done|]. exact Hnone.
  - cbn [app]. destruct (deliver_took now queue p s1 q U1 He U4) as (s' & taken & E & Ht & E1 & E2 & E3 & E4). rewrite E.
    exists s', taken. split; [done|]. split; [by apply Huse|]. by split.
Qed.

(** A packet of the embedder. *)
Lemma down_session (queue : Z) (keys : DataKeys) (h : list Z) (n : Z) (s : Session W) (p : bytes) :
  in_use queue keys h n s -> 0 <= n < 4294967295 ->
  exists s' (w0 w1 : DataChan.Wrapper W) packet, Write (Some (fun _ => true)) s p = (Ok (zlen p), s', [SendData packet]) /\
    DataChan.NewWrapper keys (PeerID s) 0 = Ok w1 /\
    DataChan.w_encryptAEAD w0 = DataChan.w_encryptAEAD w1 /\ DataChan.w_encryptIV w0 = DataChan.w_encryptIV w1 /\
    DataChan.sealWithSeq w0 [] (n + 1) p = Ok packet /\
    in_use queue keys h (n + 1) s' /\ PeerID s' = PeerID s /\ unread s' = unread s.
Proof.
  intros [U1 (w & w1 & Ew & Hw1 & K1 & K2 & K3 & K4 & K5 & Hm) U3 (q & U4)] Hn.
  unfold Write. rewrite U1, Ew. unfold DataChan.Seal, DataChan.nextPacketID. rewrite K5.
  destruct (Z.eqb_spec n 4294967295) as [|_]; [lia|]. rewrite (u32_id (n + 1)) by (unfold is_u32; lia). outcome_simpl.
  set (w2 := DataChan.with_sendSeq w (n + 1)).
  destruct (DataChan.sealWithSeq_ok w2 (n + 1) p) as (ct & tag & E & _). rewrite E.
  eexists _, w2, w1, _. split; [reflexivity|]. split_and!; try done.
  constructor; [done| |done|by exists q]. exists w2, w1. by split_and!.
Qed.

(** A read. *)
Lemma recv_session (queue : Z) (keys : DataKeys) (h : list Z) (n m : Z) (s : Session W) :
  in_use queue keys h n s ->
  in_use queue keys h n (Read s m false).2 /\ PeerID (Read s m false).2 = PeerID s /\
  unread s = match (Read s m false).1 with RdData p => [p] | _ => [] end ++ unread (Read s m false).2.
Proof.
  intros [U1 U2 U3 (q & U4)]. pose proof (read_step s m U1) as Hr.
  assert (Hk : s_keys (Read s m false).2 = s_keys s /\ PeerID (Read s m false).2 = PeerID s /\
    exists q', d_ipInbound (s_data (Read s m false).2) = Some (queue, q')).
  { unfold Read. rewrite U4, U1. cbn [andb]. destruct (d_pendingRead _) as [p|].
    - destruct (m <? zlen p); split_and!; try done; by exists q.
    - destruct q as [|p q]; [split_and!; try done; by exists []|]. destruct (m <? zlen p); split_and!; try done; by exists q. }
  destruct Hk as (E1 & E2 & E3). destruct (Read s m false) as [r s']. cbn [fst snd] in *. destruct Hr as (R1 & _ & _ & Hr).
  split; [by constructor; rewrite ?E1, ?E2|]. split; [done|]. destruct (unread s) as [|p rest].
  - destruct Hr as [-> ->]. done.
  - destruct (m <? zlen p); by destruct Hr as [-> ->].
Qed.

(** ** The steps in the server *)

(** The packets of a run of a wrapper, by their numbers. *)
Lemma seal_run (w : DataChan.Wrapper W) (ps : list bytes) :
  0 <= DataChan.w_sendSeq w -> DataChan.w_sendSeq w + zlen ps < 4294967296 ->
  exists packets, DataChan.seal_all w ps = map Ok packets /\
    forall i p, ps !! i = Some p -> exists packet,
      DataChan.sealWithSeq w [] (DataChan.w_sendSeq w + 1 + Z.of_nat i) p = Ok packet /\ packets !! i = Some packet.
Proof.
  revert w. induction ps as [|p ps IH]; intros w Hz Hn; [exists []; split; [done|]; intros i p; by rewrite lookup_nil|].
  rewrite zlen_cons in Hn. pose proof (zlen_nonneg ps). cbn [DataChan.seal_all]. unfold DataChan.Seal, DataChan.nextPacketID.
  rewrite (proj2 (Z.eqb_neq _ _)), (u32_id (DataChan.w_sendSeq w + 1)) by (try unfold is_u32; lia).
  set (w1 := DataChan.with_sendSeq w (DataChan.w_sendSeq w + 1)). outcome_simpl.
  destruct (IH w1) as (packets & -> & Hall); [cbn; lia|cbn; lia|].
  destruct (DataChan.sealWithSeq_ok w1 (DataChan.w_sendSeq w + 1) p) as (ct & tag & E & _). rewrite E.
  eexists (_ :: packets). split; [done|]. intros [|i] q Hi; cbn in Hi.
  - injection Hi as <-. eexists. split; [|done]. rewrite Z.add_0_r. exact E.
  - destruct (Hall i q Hi) as (packet & E' & Hl). exists packet. split; [|done]. rewrite <- E'. unfold w1. cbn.
    change (DataChan.sealWithSeq (DataChan.with_sendSeq w _)) with (DataChan.sealWithSeq w). f_equal. lia.
Qed.

Lemma arrive_handled (now : Z) (addr packet : bytes) (v v' : server) (acts : list (nat * action)) :
  arrive cfg now false addr packet v = Ok (v', None, acts) -> handleDatagram cfg tlsKey serverSID now false addr packet v = Ok (v', acts).
Proof. intros E. unfold handleDatagram. by rewrite E. Qed.

(** A data packet reaches the session that its peer-id routes to. *)
Lemma up_server (now : Z) (addr : bytes) (v : server) (e : entry) (s' : Session W) (w0 : DataChan.Wrapper W) (seq : Z) (p packet : bytes) :
  sv_dataSessions v !! DataChan.w_peerID w0 = Some id -> 0 <= DataChan.w_peerID w0 <= maxPeerID -> DataChan.w_keyID w0 = 0 ->
  DataChan.sealWithSeq w0 [] seq p = Ok packet -> zlen p <= Serve.maxDatagramSize - 24 ->
  handleDataPacket cfg now false (e_sess e) packet = Ok (s', []) ->
  exists e', arrive cfg now false addr packet (put id e v) = Ok (put id e' v, None, []) /\ e_sess e' = s'.
Proof.
  intros Hr Hpe Hk Hs Hl Hx. destruct (DataChan.sealWithSeq_ok w0 seq p) as (ct & tag & E & Ht & Hg). rewrite E in Hs.
  apply (inj Ok) in Hs. assert (Hlen : zlen packet = 24 + zlen p).
  { pose proof (DataChan.seal_length (DataChan.w_encryptAEAD w0) (DataChan.nonce (DataChan.w_encryptIV w0) seq) p (DataChan.header w0 seq)) as Hz.
    rewrite Hg in Hz. subst packet. unfold zlen, DataChan.TagSize in *. rewrite !length_app in *.
    change (length (DataChan.header w0 seq)) with 8%nat. lia. }
  assert (Hhd : exists tl, packet = 72 :: tl /\ packetPeerID packet = Ok (DataChan.w_peerID w0)).
  { subst packet. unfold DataChan.header. rewrite Hk. eexists. split; [reflexivity|].
    rewrite <- (DataChan.peer_bytes (DataChan.w_peerID w0) Hpe) at 4. reflexivity. }
  destruct Hhd as (tl & Hhd & Hpid). unfold arrive. pose proof (zlen_nonneg p).
  rewrite Hhd in *. change (ParseHeaderByte 72).1 with OpDataV2.
  rewrite (proj2 (Z.leb_le _ _)) by lia. change (Serve.is_data_opcode OpDataV2) with true. cbn [andb].
  unfold handleDataDatagram. change (OpDataV2 =? OpDataV2) with true. cbn [negb].
  rewrite (proj2 (Z.ltb_ge _ 4)), Hpid by lia. outcome_simpl. change (sv_dataSessions (put id e v)) with (sv_dataSessions v). rewrite Hr.
  unfold session_event. cbn [put with_heap sv_heap]. rewrite lookup_insert_eq.
  unfold e_sess in *. destruct (e_state e) as [s fl] eqn:Est. cbn [fst] in *. cbn [exec]. rewrite Hx. outcome_simpl. cbn [foldl map].
  eexists. rewrite put_put. split; [done|]. done.
Qed.

(** A step of the session itself. *)
Lemma own_server (ev : event (W := W)) (v : server) (e : entry) (st : Session.state) (acts : list action) :
  exec cfg (e_state e) ev = Ok (st, acts) -> Forall (fun a => exists p, a = SendData p) acts ->
  exists e', session_event cfg id ev (put id e v) = Ok (put id e' v, acts) /\ e_sess e' = st.1.
Proof.
  intros Hx Ha. unfold session_event. cbn [put with_heap sv_heap]. rewrite lookup_insert_eq, Hx. outcome_simpl.
  exists (set_todo (e_todo e ++ []) (set_state st e)). split; [|done]. do 2 f_equal.
  change (with_heap (<[id:=e]> (sv_heap v)) v) with (put id e v). rewrite put_put.
  assert (Hl : List.filter later acts = []) by (clear Hx; by induction Ha as [|a acts [p ->] _ IH]). rewrite Hl.
  generalize (put id (set_todo (e_todo e ++ []) (set_state st e)) v). clear Hx Hl.
  induction Ha as [|a acts [p ->] _ IH]; intros v'; [done|]. cbn [foldl at_once]. apply IH.
Qed.

(** ** A run *)

Lemma flip_flip (keys : DataKeys) : DataChan.flip_keys (DataChan.flip_keys keys) = keys.
Proof. by destruct keys. Qed.

Lemma client_sealer (keys : DataKeys) (p1 p2 : Z) (w cw : DataChan.Wrapper W) :
  DataChan.NewWrapper keys p1 0 = Ok w -> DataChan.NewWrapper (DataChan.flip_keys keys) p2 0 = Ok cw -> sealer keys cw.
Proof.
  intros Hw Hc. exists p1, w. rewrite <- (flip_flip keys) in Hw.
  destruct (DataChan.NewWrapper_flip _ _ _ _ _ _ _ Hc Hw) as (E1 & E2 & _). rewrite flip_flip in Hw. by split_and!.
Qed.

Lemma delivered_cons (h : list Z) (plaintexts : list bytes) (i : nat) (p : bytes) (idx : list nat) :
  plaintexts !! i = Some p ->
  let fresh := window_accepts h (1 + Z.of_nat i) in
  delivered h plaintexts (i :: idx) =
  (if fresh && negb (DataChan.IsPing p) then [p] else []) ++ delivered (if fresh then 1 + Z.of_nat i :: h else h) plaintexts idx.
Proof.
  intros Hi fresh. unfold delivered. cbn [map reference_all zip_with omap list_omap]. fold fresh. unfold DataChan.delivery at 1. rewrite Hi.
  by destruct fresh, (DataChan.IsPing p).
Qed.

(** The [i]-th packet sent opens to the [i]-th written, at the wrapper with these keys. *)
Definition sealed_as (w : DataChan.Wrapper W) (n : Z) (ps out : list bytes) : Prop :=
  length out = length ps /\
  forall i p, ps !! i = Some p -> exists (w0 : DataChan.Wrapper W) packet,
    DataChan.w_encryptAEAD w0 = DataChan.w_encryptAEAD w /\ DataChan.w_encryptIV w0 = DataChan.w_encryptIV w /\
    DataChan.sealWithSeq w0 [] (n + 1 + Z.of_nat i) p = Ok packet /\ out !! i = Some packet.

Section run.
Variables (queue peer : Z) (keys : DataKeys) (packets plaintexts : list bytes) (w cw : DataChan.Wrapper W) (v : server).
Hypothesis Hw : DataChan.NewWrapper keys peer 0 = Ok w.
Hypothesis Hcw : DataChan.NewWrapper (DataChan.flip_keys keys) peer 0 = Ok cw.
Hypothesis Hroute : sv_dataSessions v !! peer = Some id.
Hypothesis Hpeer : 0 <= peer <= maxPeerID.
Hypothesis Hpackets : forall i p, plaintexts !! i = Some p -> exists packet,
  DataChan.sealWithSeq cw [] (1 + Z.of_nat i) p = Ok packet /\ packets !! i = Some packet.
Hypothesis Hlen : zlen plaintexts < 4294967296.
Hypothesis Hplain : Forall (fun p => zlen p <= Serve.maxDatagramSize - 24 /\ isExitNotify p = false) plaintexts.

Lemma flow_up (now : Z) (addr : bytes) (i : nat) (f : flow) (e : entry) (h : list Z) (n : Z) (p : bytes) :
  f_server f = put id e v -> PeerID (e_sess e) = peer -> in_use queue keys h n (e_sess e) -> plaintexts !! i = Some p ->
  let fresh := window_accepts h (1 + Z.of_nat i) in
  exists e' taken, flow_step packets (Up now addr i) f = Ok (mkFlow (put id e' v) (f_sent f) (f_got f)) /\
    PeerID (e_sess e') = peer /\ in_use queue keys (if fresh then 1 + Z.of_nat i :: h else h) n (e_sess e') /\
    took queue (e_sess e) (e_sess e') (if fresh && negb (DataChan.IsPing p) then [p] else []) taken.
Proof.
  intros Ef Ep Hu Hi fresh. destruct (Hpackets i p Hi) as (packet & Hs & Hk).
  destruct (proj1 (Forall_lookup _ _) Hplain i p Hi) as [Hl Hx].
  destruct (DataChan.NewWrapper_start _ _ _ _ Hcw) as (_ & _ & Cp & Ck).
  assert (Hsq : is_u32 (1 + Z.of_nat i)) by (apply lookup_lt_Some in Hi; unfold is_u32, zlen in *; lia).
  destruct (up_session now queue keys h n (1 + Z.of_nat i) (e_sess e) cw p packet Hu (client_sealer _ _ _ _ _ Hw Hcw) Hsq Hs Hx)
    as (s' & taken & E & Hu' & Ep' & Ht).
  rewrite <- Cp in Hroute, Hpeer.
  destruct (up_server now addr v e s' cw (1 + Z.of_nat i) p packet Hroute Hpeer Ck Hs Hl E) as (e' & E'%arrive_handled & <-).
  exists e', taken. unfold flow_step. rewrite Ef, (nth_lookup_Some _ _ _ _ Hk), E'. outcome_simpl. cbn. rewrite app_nil_r.
  split_and!; [done|congruence|done|done].
Qed.

Lemma flow_all (ops : list traffic) (f : flow) (e : entry) (h : list Z) (n : Z) :
  f_server f = put id e v -> PeerID (e_sess e) = peer -> in_use queue keys h n (e_sess e) ->
  0 <= n -> n + zlen (downs ops) < 4294967296 -> Forall (fun i => (i < length plaintexts)%nat) (ups ops) ->
  exists f' e' taken out, flow_run packets ops f = Ok f' /\ f_server f' = put id e' v /\
    f_sent f' = f_sent f ++ out /\ sealed_as w n (downs ops) out /\
    f_got f' ++ unread (e_sess e') = f_got f ++ unread (e_sess e) ++ taken /\
    taken `sublist_of` delivered h plaintexts (ups ops) /\
    (zlen (unread (e_sess e)) + zlen (delivered h plaintexts (ups ops)) <= queue -> taken = delivered h plaintexts (ups ops)).
Proof.
  revert f e h n. induction ops as [|op ops IH]; intros f e h n Ef Ep Hu Hn Hd Hi.
  { exists f, e, [], []. rewrite !app_nil_r. by split_and!. }
  destruct op as [now addr i|p|m]; cbn [flow_run].
  - change (ups (Up now addr i :: ops)) with (i :: ups ops) in *. change (downs (Up now addr i :: ops)) with (downs ops) in *.
    apply Forall_cons in Hi as [Hi His]. destruct (lookup_lt_is_Some_2 plaintexts i Hi) as [p Hp].
    destruct (flow_up now addr i f e h n p Ef Ep Hu Hp) as (e1 & t1 & -> & Ep1 & Hu1 & T1 & T2 & T3). outcome_simpl.
    destruct (IH (mkFlow (put id e1 v) (f_sent f) (f_got f)) e1 _ n eq_refl Ep1 Hu1 Hn Hd His)
      as (f' & e' & t2 & out & E & F1 & F2 & F3 & F4 & F5 & F6).
    exists f', e', (t1 ++ t2), out. rewrite (delivered_cons h plaintexts i p (ups ops) Hp). split_and!; try done.
    + rewrite F4. cbn [f_got]. by rewrite T1, !(assoc_L (++)).
    + by apply sublist_app.
    + rewrite zlen_app. intros Hz. pose proof (zlen_nonneg (delivered (if window_accepts h (1 + Z.of_nat i) then 1 + Z.of_nat i :: h else h) plaintexts (ups ops))).
      rewrite T3 in * by lia. rewrite T1, zlen_app in F6. rewrite F6 by lia. done.
  - change (downs (Down p :: ops)) with (p :: downs ops) in *. change (ups (Down p :: ops)) with (ups ops) in *.
    rewrite zlen_cons in Hd. pose proof (zlen_nonneg (downs ops)).
    destruct (down_session queue keys h n (e_sess e) p Hu ltac:(lia)) as (s' & w0 & w1 & packet & E & Hw1 & K1 & K2 & Hs & Hu' & Ep' & Hun).
    assert (Hx : exec cfg (e_state e) (EWrite (Some (fun _ => true)) p) = Ok ((s', (e_state e).2), [SendData packet])).
    { unfold e_sess in *. destruct (e_state e) as [s fl]. cbn [fst snd exec] in *. by rewrite E. }
    destruct (own_server _ v e _ _ Hx) as (e1 & E1 & Es1); [constructor; [by eexists|constructor]|]. cbn [fst] in Es1.
    unfold flow_step. rewrite Ef, E1. outcome_simpl. cbn [sent omap list_omap].
    destruct (IH (mkFlow (put id e1 v) (f_sent f ++ [packet]) (f_got f)) e1 h (n + 1)) as (f' & e' & t2 & out & E' & F1 & F2 & F3 & F4 & F5 & F6);
      [done|congruence|by rewrite Es1|lia|lia|done|].
    rewrite Es1, Hun in F4, F6. exists f', e', t2, (packet :: out). split_and!; try done.
    + rewrite F2. cbn. by rewrite <- (assoc_L (++)).
    + destruct F3 as [F3 F3']. split; [cbn; by rewrite F3|]. rewrite Ep in Hw1. rewrite Hw in Hw1. apply (inj Ok) in Hw1 as <-.
      intros [|j] q Hq; cbn in Hq.
      * injection Hq as <-. exists w0, packet. rewrite Z.add_0_r. by split_and!.
      * destruct (F3' j q Hq) as (w2 & pk & G1 & G2 & G3 & G4). exists w2, pk. split_and!; try done. rewrite <- G3. f_equal. lia.
  - change (downs (Recv m :: ops)) with (downs ops) in *. change (ups (Recv m :: ops)) with (ups ops) in *.
    destruct (recv_session queue keys h n m (e_sess e) Hu) as (Hu' & Ep' & Hun).
    assert (Hx : exec cfg (e_state e) (ERead m false) = Ok (((Read (e_sess e) m false).2, (e_state e).2), [])).
    { unfold e_sess in *. by destruct (e_state e). }
    destruct (own_server _ v e _ _ Hx) as (e1 & E1 & Es1); [constructor|]. cbn [fst] in Es1.
    unfold flow_step, recv. rewrite Ef, E1. outcome_simpl. cbn [sent omap list_omap put with_heap sv_heap]. rewrite lookup_insert_eq, app_nil_r.
    set (got := match (Read (e_sess e) m false).1 with RdData p => [p] | _ => [] end) in *.
    destruct (IH (mkFlow (put id e1 v) (f_sent f) (f_got f ++ got)) e1 h n) as (f' & e' & t2 & out & E' & F1 & F2 & F3 & F4 & F5 & F6);
      [done|congruence|by rewrite Es1|lia|lia|done|].
    rewrite Es1 in F4, F6. exists f', e', t2, out. split_and!; try done.
    + rewrite F4. cbn. by rewrite Hun, <- !(assoc_L (++)).
    + intros Hz. apply F6. rewrite Hun, zlen_app in Hz. pose proof (zlen_nonneg got). lia.
Qed.
End run.

Lemma put_id (v : server) (e : entry) : sv_heap v !! id = Some e -> put id e v = v.
Proof. intros He. unfold put, with_heap. rewrite insert_id by done. by destruct v. Qed.

(** A live session is routed to by a peer-id of three bytes. *)
Lemma live_route (v : server) (e : entry) :
  server_inv v -> sv_heap v !! id = Some e -> is_Some (AssignedIP (e_sess e)) -> closing (e_sess e) = false ->
  sv_dataSessions v !! PeerID (e_sess e) = Some id /\ 0 <= PeerID (e_sess e) <= maxPeerID.
Proof.
  intros Hv He [ip Ha] Hc. assert (Ht : l_torn (s_life (e_sess e)) = false).
  { destruct (l_torn (s_life (e_sess e))) eqn:Et; [|done]. apply (si_torn _ (eo_session _ (vi_entry v Hv id e He))) in Et.
    unfold closing, e_sess in *. congruence. }
  split.
  - apply (vi_routes v Hv). exists e. split_and!; [done|done|]. unfold routed, torn. rewrite Ha, Ht. done.
  - destruct (published_holds v id e ip Hv He Ha Ht) as (e0 & He0 & Hl). pose proof (vi_pool v Hv) as HP.
    assert (Hin : IpPool.mkLease ip (PeerID (e_sess e)) ∈ leases (sv_heap v)) by (apply holds_leases; by exists id, e0).
    destruct (sv_pool v) as [p|]; cbn in HP; [|rewrite HP in Hin; by apply not_elem_of_nil in Hin].
    destruct (li_peers _ _ HP) as (_ & _ & Hr). apply (proj1 (Forall_forall _ _) Hr).
    apply list_elem_of_fmap. eexists. split; [|exact Hin]. done.
Qed.

(** C1. The tunnel carries packets faithfully in both directions at once.  In any state
    the server can reach, take a session whose channel is open, and its client with
    the mirrored keys.  The client seals a list of packets; they arrive lost,
    repeated and in any order, each from any address, while the embedder writes and
    reads.  Then every step succeeds and only this session changes.  What the embedder has read,
    with what it has still to read, is in order what the replay decision by the full
    history admits of the arrivals, keepalives aside, and all of it unless the queue
    was too small.  And each packet it wrote went out in one datagram; whichever of
    these reach the client, in any order, open to the packet written, or are refused
    as a replay exactly when the full history says so. *)
Theorem tunnel_delivery (pool : option IpPool.ipPool) (serverQueue queue : Z) (keys : DataKeys) (v : server) (e : entry)
    (cw : DataChan.Wrapper W) (plaintexts : list bytes) (ops : list traffic) :
  pool_ok pool [] -> sreachable cfg tlsKey serverQueue pool v -> sv_heap v !! id = Some e ->
  is_Some (AssignedIP (e_sess e)) -> open_tunnel queue keys (e_sess e) ->
  DataChan.NewWrapper (DataChan.flip_keys keys) (PeerID (e_sess e)) 0 = Ok cw ->
  zlen plaintexts < 4294967295 -> zlen (downs ops) < 4294967296 ->
  Forall (fun p => zlen p <= Serve.maxDatagramSize - 24 /\ isExitNotify p = false) plaintexts ->
  Forall (fun i => (i < length plaintexts)%nat) (ups ops) ->
  exists packets f e' taken, DataChan.seal_all cw plaintexts = map Ok packets /\
    flow_run packets ops (mkFlow v [] []) = Ok f /\ f_server f = put id e' v /\
    f_got f ++ unread (e_sess e') = taken /\ taken `sublist_of` delivered [] plaintexts (ups ops) /\
    (zlen (delivered [] plaintexts (ups ops)) <= queue -> taken = delivered [] plaintexts (ups ops)) /\
    length (f_sent f) = length (downs ops) /\
    forall idx, Forall (fun i => (i < length (downs ops))%nat) idx ->
      DataChan.open_all cw (map (fun i => nth i (f_sent f) []) idx) =
      zip_with (DataChan.delivery (downs ops)) idx (reference_all [] (map (fun i => 1 + Z.of_nat i) idx)).
Proof.
  intros Hp Hr He Ha Ho Hcw Hl1 Hl2 Hplain Hi. pose proof (sreachable_inv _ _ _ _ _ Hp Hr) as Hv.
  destruct (live_route v e Hv He Ha (ot_closing _ _ _ Ho)) as [Hroute Hpeer].
  destruct (DataChan.NewWrapper_start _ _ _ _ Hcw) as (C1 & C2 & _). destruct (fc_wrapper _ _ _ (ot_channel _ _ _ Ho)) as (w & Hw & _).
  destruct (seal_run cw plaintexts) as (packets & Hps & Hall); [lia|lia|]. rewrite C1 in Hall.
  destruct (flow_all queue (PeerID (e_sess e)) keys packets plaintexts w cw v Hw Hcw Hroute Hpeer Hall ltac:(lia) Hplain
    ops (mkFlow v [] []) e [] 0) as (f & e' & taken & out & E & F1 & F2 & [F3 F3'] & F4 & F5 & F6);
    [cbn; by rewrite put_id|done|by apply open_in_use|lia|lia|done|].
  assert (Hun : unread (e_sess e) = []) by (unfold unread; by rewrite (ot_pending _ _ _ Ho), (fc_queue _ _ _ (ot_channel _ _ _ Ho))).
  rewrite Hun in F4, F6. cbn [f_got f_sent app] in *. exists packets, f, e', taken. split_and!; try done; [by rewrite F2|].
  intros idx Hidx. destruct (DataChan.NewWrapper_flip _ _ _ _ _ _ _ Hw Hcw) as (K1 & K2 & _ & _). rewrite F2.
  eapply DataChan.open_all_delivery; [done| |done|done| |done].
  - intros i p Hip. destruct (F3' i p Hip) as (w0 & packet & G1 & G2 & G3 & G4). exists w0, packet. split_and!; [congruence|congruence| |done].
    rewrite <- G3. f_equal.
  - rewrite C2. apply ar_init_models.
Qed.

(** ** The stack on the session *)

(** What the stack writes, session by session write; [None]: a write fails. *)
Fixpoint perform (acts : list Stack.action) (v : server) : option (server * list bytes) :=
  match acts with
  | [] => Some (v, [])
  | Stack.Write _ pkt :: acts =>
      match sv_heap v !! id with
      | None => None
      | Some e =>
          match (Write (Some (fun _ => true)) (e_sess e) pkt).1.1, session_event cfg id (EWrite (Some (fun _ => true)) pkt) v with
          | Ok _, Ok (v, a) => '(v, out) ← perform acts v; Some (v, sent a ++ out)
          | _, _ => None
          end
      end
  | _ :: acts => perform acts v
  end.

(** A round of the stack's [readLoop] on the session, for attachment [a]: the size of the
    buffer for the next round and the datagrams sent.  A read that would block leaves all as
    it is; [None]: a panic, or a write that fails. *)
Definition readLoop (a : nat) (buf now : Z) (st : Stack.Stack) (v : server)
    : option (Stack.Stack * option Z * server * list bytes) :=
  if negb (Stack.mayRead st a) then Some (st, None, v, []) else
  match recv id buf v, session_event cfg id (ERead buf false) v with
  | RdBlocks, _ => Some (st, Some buf, v, [])
  | r, Ok (v, _) =>
      match Stack.afterRead (fun _ _ => true) st a buf (match r with RdData p => Some p | _ => None end) now with
      | Ok (st, next, acts) => '(v, out) ← perform acts v; Some (st, next, v, out)
      | _ => None
      end
  | _, _ => None
  end.

(** A packet of the stack is no message of the tunnel itself. *)
Lemma ipv4_not_special (src dst : bytes) (protocol : Z) (payload pkt : bytes) :
  is_addr src -> is_addr dst -> is_u8 protocol -> buildIPv4 [] src dst protocol payload = Ok pkt ->
  DataChan.IsPing pkt = false /\ isExitNotify pkt = false.
Proof.
  intros Hs Hd Hp Hb. destruct (BuildIPv4_shape (E := ip_error) src dst protocol payload Hs Hd Hp) as (ck & hdr & _ & -> & E & _).
  unfold buildIPv4 in Hb. rewrite E in Hb. apply (inj Ok) in Hb. subst pkt. cbn [app]. split.
  - unfold DataChan.IsPing. rewrite bool_decide_eq_false_2; [by rewrite andb_false_r|done].
  - unfold isExitNotify. rewrite (bool_decide_eq_false_2 (take 16 _ = _)); [by rewrite andb_false_r|done].
Qed.

(** A round of the read loop on an echo request that is next in the queue. *)
Lemma echo_round (queue : Z) (keys : DataKeys) (h : list Z) (v : server) (e : entry) (w : DataChan.Wrapper W)
    (st : Stack.Stack) (a : nat) (att : Stack.attachment) (icmpMsg pkt : bytes) (buf now : Z) :
  in_use queue keys h 0 (e_sess e) -> unread (e_sess e) = [pkt] -> zlen pkt <= buf ->
  DataChan.NewWrapper keys (PeerID (e_sess e)) 0 = Ok w ->
  Stack.stack_inv st -> Stack.s_atts st !! a = Some att -> Stack.at_stopped att = false ->
  bytes_ok icmpMsg -> MinICMPHeaderLen <= zlen icmpMsg <= Stack.s_mtu st - 20 -> hd 0 icmpMsg = ICMPTypeEchoRequest ->
  buildIPv4 [] (Stack.at_ip att) (Stack.s_serverIP st) ProtocolICMP icmpMsg = Ok pkt ->
  exists reply st' e' (w0 : DataChan.Wrapper W) out,
    buildIPv4 [] (Stack.s_serverIP st) (Stack.at_ip att) ProtocolICMP (Stack.echo_reply icmpMsg) = Ok reply /\
    readLoop a buf now st (put id e v) = Some (st', Some buf, put id e' v, [out]) /\
    DataChan.w_encryptAEAD w0 = DataChan.w_encryptAEAD w /\ DataChan.w_encryptIV w0 = DataChan.w_encryptIV w /\
    DataChan.sealWithSeq w0 [] 1 reply = Ok out /\
    Stack.s_stats st' Stack.icmpEchoReplies = u64 (Stack.s_stats st Stack.icmpEchoReplies + 1).
Proof.
  intros Hu Hun Hbuf Hw Hst Ha Hstop Hok Hl Hty Hb.
  destruct (Stack.echo_answered (fun _ _ => true) st a att now icmpMsg pkt Hst Ha Hok Hl Hty Hb ltac:(done)) as (reply & Hr & Hd).
  pose proof (read_step (e_sess e) buf (iu_closing _ _ _ _ _ Hu)) as Hrd.
  destruct (recv_session queue keys h 0 buf (e_sess e) Hu) as (Hu1 & Ep1 & _).
  assert (Hx : exec cfg (e_state e) (ERead buf false) = Ok (((Read (e_sess e) buf false).2, (e_state e).2), [])).
  { unfold e_sess in *. by destruct (e_state e). }
  destruct (own_server _ v e _ _ Hx) as (e1 & E1 & Es1); [constructor|]. cbn [fst] in Es1.
  assert (Hrecv : (Read (e_sess e) buf false).1 = RdData pkt).
  { destruct (Read (e_sess e) buf false) as [r s']. destruct Hrd as (_ & _ & _ & Hrd). rewrite Hun in Hrd.
    rewrite (proj2 (Z.ltb_ge _ _)) in Hrd by done. by destruct Hrd. }
  rewrite <- Es1 in Hu1, Ep1.
  destruct (down_session queue keys h 0 (e_sess e1) reply Hu1 ltac:(lia)) as (s' & w0 & w1 & out & E & Hw1 & K1 & K2 & Hs & _).
  assert (Hx2 : exec cfg (e_state e1) (EWrite (Some (fun _ => true)) reply) = Ok ((s', (e_state e1).2), [SendData out])).
  { unfold e_sess in *. destruct (e_state e1) as [s fl]. cbn [fst snd exec] in *. by rewrite E. }
  destruct (own_server _ v e1 _ _ Hx2) as (e2 & E2 & Es2); [constructor; [by eexists|constructor]|].
  exists reply, (Stack.count (Stack.count (Stack.count st Stack.packetsReceived) Stack.icmpEchoRequests) Stack.icmpEchoReplies), e2, w0, out.
  rewrite Ep1, Hw in Hw1. apply (inj Ok) in Hw1 as <-. split_and!; try done.
  unfold readLoop, Stack.mayRead. rewrite Ha, Hstop. cbn [negb]. unfold recv. cbn [put with_heap sv_heap]. rewrite lookup_insert_eq.
  rewrite Hrecv. change (with_heap _ v) with (put id e v). rewrite E1. unfold Stack.afterRead. rewrite Ha, Hstop, Hd. outcome_simpl.
  cbn [perform put with_heap sv_heap]. rewrite lookup_insert_eq, E. cbn [fst snd]. change (with_heap _ v) with (put id e1 v).
  rewrite E2. done.
Qed.

(** The first packet of a client. *)
Lemma first_up (queue : Z) (keys : DataKeys) (v : server) (e : entry) (cw : DataChan.Wrapper W) (pkt addr : bytes) (now : Z) :
  server_inv v -> sv_heap v !! id = Some e -> is_Some (AssignedIP (e_sess e)) -> open_tunnel queue keys (e_sess e) -> 0 < queue ->
  DataChan.NewWrapper (DataChan.flip_keys keys) (PeerID (e_sess e)) 0 = Ok cw ->
  zlen pkt <= 2024 -> DataChan.IsPing pkt = false -> isExitNotify pkt = false ->
  exists datagram e', (DataChan.Seal cw [] pkt).1 = Ok datagram /\
    arrive cfg now false addr datagram v = Ok (put id e' v, None, []) /\
    PeerID (e_sess e') = PeerID (e_sess e) /\ in_use queue keys [1] 0 (e_sess e') /\ unread (e_sess e') = [pkt].
Proof.
  intros Hv He Ha Ho Hq Hcw Hl Hping Hexit. destruct (live_route v e Hv He Ha (ot_closing _ _ _ Ho)) as [Hroute Hpeer].
  destruct (DataChan.NewWrapper_start _ _ _ _ Hcw) as (C1 & _ & C3 & C4). destruct (fc_wrapper _ _ _ (ot_channel _ _ _ Ho)) as (w & Hw & _).
  destruct (DataChan.sealWithSeq_ok cw 1 pkt) as (ct & tag & Hs & _). set (datagram := DataChan.header cw 1 ++ tag ++ ct) in *.
  destruct (up_session now queue keys [] 0 1 (e_sess e) cw pkt datagram (open_in_use _ _ _ Ho) (client_sealer _ _ _ _ _ Hw Hcw))
    as (s' & taken & E & Hu & Ep & T1 & _ & T3); [done|done|done|].
  rewrite <- C3 in Hroute, Hpeer.
  destruct (up_server now addr v e s' cw 1 pkt datagram Hroute Hpeer C4 Hs Hl E) as (e' & E' & <-).
  rewrite put_id in E' by done. exists datagram, e'. split_and!; try done.
  - unfold DataChan.Seal, DataChan.nextPacketID. by rewrite C1.
  - rewrite T1. assert (Hun : unread (e_sess e) = []) by (unfold unread; by rewrite (ot_pending _ _ _ Ho), (fc_queue _ _ _ (ot_channel _ _ _ Ho))).
    rewrite Hun in *. rewrite Hping in T3. change (window_accepts [] 1) with true in T3. cbn [negb andb] in T3.
    by rewrite T3 by (unfold zlen; cbn [length]; lia).
Qed.

(** C6. A client can ping the server through the tunnel.  Take a session whose channel
    is open, in any state the server can reach, attached with its address to a stack
    in any state that one can reach.  The client builds an ICMP echo request to the
    server, of any content that fits, seals it and sends it, from any address.  Then
    the server takes the datagram, one round of the stack's read loop reads the packet
    and sends one datagram, and the client opens that to an IPv4 packet from the
    server to itself that parses and verifies and carries the reply: the message with
    the type of a reply, a checksum that verifies, identifier, number and data its own. *)
Theorem tunnel_echo (pool : option IpPool.ipPool) (serverQueue queue : Z) (keys : DataKeys) (v : server) (e : entry)
    (cw : DataChan.Wrapper W) (writeOK : nat -> bytes -> bool) (st : Stack.Stack) (a : nat) (att : Stack.attachment)
    (addr icmpMsg pkt : bytes) (now now' : Z) :
  pool_ok pool [] -> sreachable cfg tlsKey serverQueue pool v -> sv_heap v !! id = Some e ->
  AssignedIP (e_sess e) = Some (Stack.at_ip att) -> open_tunnel queue keys (e_sess e) -> 0 < queue ->
  DataChan.NewWrapper (DataChan.flip_keys keys) (PeerID (e_sess e)) 0 = Ok cw ->
  Stack.reachable writeOK st -> Stack.s_atts st !! a = Some att -> Stack.at_stopped att = false ->
  bytes_ok icmpMsg -> MinICMPHeaderLen <= zlen icmpMsg <= Z.min (Stack.s_mtu st) 2024 - 20 ->
  hd 0 icmpMsg = ICMPTypeEchoRequest ->
  buildIPv4 [] (Stack.at_ip att) (Stack.s_serverIP st) ProtocolICMP icmpMsg = Ok pkt ->
  exists datagram v1 st' v2 out reply hdr,
    (DataChan.Seal cw [] pkt).1 = Ok datagram /\
    handleDatagram cfg tlsKey serverSID now false addr datagram v = Ok (v1, []) /\
    readLoop a Stack.readBufferSize now' st v1 = Some (st', Some Stack.readBufferSize, v2, [out]) /\
    (DataChan.Open cw [] out).1 = Ok reply /\ parseIPv4 reply = Ok hdr /\
    h_src hdr = Stack.s_serverIP st /\ h_dst hdr = Stack.at_ip att /\ h_protocol hdr = ProtocolICMP /\
    InternetChecksum (take 20 reply) = 0 /\ drop 20 reply = Stack.echo_reply icmpMsg /\
    InternetChecksum (drop 20 reply) = 0 /\ drop 4 (drop 20 reply) = drop 4 icmpMsg /\
    Stack.s_stats st' Stack.icmpEchoReplies = u64 (Stack.s_stats st Stack.icmpEchoReplies + 1).
Proof.
  intros Hp Hr He Ha Ho Hq Hcw Hst Hatt Hstop Hok Hl Hty Hb. pose proof (sreachable_inv _ _ _ _ _ Hp Hr) as Hv.
  pose proof (Stack.reachable_inv _ _ Hst) as Hi. pose proof (Stack.si_server _ Hi) as Hsrv.
  pose proof (Stack.ai_addr _ _ (Stack.si_atts _ Hi a att Hatt)) as Hip. pose proof (Stack.si_mtu _ Hi) as Hmtu.
  destruct (parse_built (Stack.at_ip att) (Stack.s_serverIP st) ProtocolICMP icmpMsg pkt Hip Hsrv ltac:(done) ltac:(lia) Hb) as (_ & _ & Hz & _).
  destruct (ipv4_not_special (Stack.at_ip att) (Stack.s_serverIP st) ProtocolICMP icmpMsg pkt Hip Hsrv ltac:(done) Hb) as [Hping Hexit].
  destruct (first_up queue keys v e cw pkt addr now Hv He ltac:(by rewrite Ha) Ho Hq Hcw ltac:(lia) Hping Hexit)
    as (datagram & e1 & Hseal & Hup%arrive_handled & Ep & Hu & Hun).
  destruct (fc_wrapper _ _ _ (ot_channel _ _ _ Ho)) as (w & Hw & _). destruct (DataChan.NewWrapper_start _ _ _ _ Hcw) as (_ & C2 & _).
  destruct (echo_round queue keys [1] v e1 w st a att icmpMsg pkt Stack.readBufferSize now' Hu Hun) as
    (reply & st' & e2 & w0 & out & Hrep & Hround & K1 & K2 & Hs & Hstat); try done; [unfold Stack.readBufferSize; lia|by rewrite Ep|lia|].
  destruct (Stack.echo_reply_facts icmpMsg Hok ltac:(lia)) as (Hrl & _ & Hck & Hdrop).
  destruct (parse_built (Stack.s_serverIP st) (Stack.at_ip att) ProtocolICMP (Stack.echo_reply icmpMsg) reply Hsrv Hip ltac:(done) ltac:(lia) Hrep) as (Hpr & Hdr & _ & Hhc).
  destruct (ipv4_not_special (Stack.s_serverIP st) (Stack.at_ip att) ProtocolICMP (Stack.echo_reply icmpMsg) reply Hsrv Hip ltac:(done) Hrep) as [Hping' _].
  destruct (DataChan.NewWrapper_flip _ _ _ _ _ _ _ Hw Hcw) as (D1 & D2 & _).
  destruct (DataChan.sealed_packet w0 cw 1 reply out ltac:(congruence) ltac:(congruence) ltac:(done) Hs) as (Hlo & Hsq & Hop).
  eexists datagram, _, st', _, out, reply, _. split_and!; try done; [|by rewrite Hdr|by rewrite Hdr].
  rewrite DataChan.Open_result, (proj2 (Z.ltb_ge _ 24)), Hop, Hsq by done.
  destruct (ar_accept (DataChan.w_replay cw) 1) as [ok r] eqn:Ea. rewrite C2 in Ea.
  destruct (ar_accept_spec ar_init [] 1 ok r ltac:(done) ar_init_models Ea) as (-> & _). cbn. by rewrite Hping'.
Qed.
End traffic.

(** ** Witnesses *)

Module Toy.
Import Handshake.Toy.

(** The client of the handshake's example, served. *)
Definition up : server :=
  match result (hello "pw" ++ pushRequestLiteral ++ [0]) with Some h => h_server h | None => newServer None end.

Lemma up_reachable : sreachable (settings_of C R) TlsCrypt.Toy.key (Serve.sessionInboundQueue R) (Serve.pool R) up.
Proof.
  destruct (sv_heap opened !! 0%nat) as [e|] eqn:He; [|vm_compute in He; discriminate He].
  assert (Hf : fresh_entry e) by (vm_compute in He; injection He as <-; split_and!; vm_compute; reflexivity).
  pose proof (sreachable_inv _ _ _ _ _ resolved_pool_fresh opened_reachable) as Hv.
  destruct (handshake_outcome C R TlsCrypt.Toy.key world 0 (cut (hello "pw" ++ pushRequestLiteral ++ [0])) opened e Hv He Hf)
    as [(_ & _ & f & km & o & rest & u & p & Eh & _ & _ & _ & Hp)|(h & e' & E & S & _)].
  - vm_compute Serve.dataCiphers. decide_now.
  - exact I.
  - vm_compute. reflexivity.
  - exfalso. cbn in Eh. injection Eh as <-. revert Hp. unfold hook. case_bool_decide; discriminate.
  - unfold up, result. rewrite E. eapply steps_reachable; [exact opened_reachable|exact S].
Qed.

Definition session : option (Session replayWindow) := e_sess <$> sv_heap up !! 0%nat.

Definition keys : DataKeys :=
  match session with
  | Some s => match k_dataKeys (s_keys s) with
              | Some dk => match ServerSlots dk 16 with Ok k => k | _ => mkDataKeys [] [] [] [] 0 end
              | None => mkDataKeys [] [] [] [] 0
              end
  | None => mkDataKeys [] [] [] [] 0
  end.

Lemma up_open (e : entry) : sv_heap up !! 0%nat = Some e -> open_tunnel 32 keys (e_sess e).
Proof.
  intros He. assert (Hs : session = Some (e_sess e)) by (unfold session; by rewrite He).
  assert (Hx : match session with
    | Some s => (exists w, DataChan.NewWrapper keys (PeerID s) 0 = Ok w /\ ks_wrapper (k_primary (s_keys s)) = Some w) /\
                ks_wrapper (k_lameDuck (s_keys s)) = None /\ d_ipInbound (s_data s) = Some (32, []) /\
                closing s = false /\ d_pendingRead (s_data s) = None
    | None => False
    end) by (vm_compute; split; [eexists; split; reflexivity|split_and!; reflexivity]).
  rewrite Hs in Hx. destruct Hx as (H1 & H2 & H3 & H4 & H5).
  constructor; [constructor; [exact H1|exact H2|exact H3]|exact H4|exact H5].
Qed.

Definition client : DataChan.Wrapper replayWindow :=
  match DataChan.NewWrapper (DataChan.flip_keys keys) 0 0 with Ok w => w | _ => DataChan.mkWrapper 0 0 [] [] [] [] 0 ar_init end.

Definition packets : list bytes := [[69; 1]; DataChan.pingMagic; [69; 2; 3]].

(** The third packet before the first, the first twice, and a keepalive. *)
Definition ops : list traffic :=
  [Up 200 [1] 2; Down [69; 7]; Up 201 [2] 0; Up 202 [3] 0; Up 203 [1] 1; Recv 2048; Recv 2; Down [69; 8; 9]].

(** The stack the session is attached to, with its address. *)
Definition stack : Stack.Stack :=
  match Stack.New (Some [10; 9; 0; 1]) [] with Ok s => (Stack.Attach s (Some 0%nat) (Some [10; 9; 0; 2])).2 | _ => Stack.ToyStack.s0 end.

Lemma stack_reachable : Stack.reachable Stack.ToyStack.always stack.
Proof.
  unfold stack. destruct (Stack.New (Some [10; 9; 0; 1]) []) as [s| |] eqn:E; [|vm_compute in E; discriminate E..].
  apply Stack.reach_attach; [|intros b Eb; apply (inj Some) in Eb; subst b; decide_now].
  apply (Stack.reach_new _ (Some [10; 9; 0; 1]) []); [|constructor|exact E].
  intros b Eb. apply (inj Some) in Eb. subst b. decide_now.
Qed.

Definition echo : bytes := [8; 0; 1; 2; 0; 1; 0; 1; 104; 105].
Definition ping : bytes := match buildIPv4 [] [10; 9; 0; 2] [10; 9; 0; 1] ProtocolICMP echo with Ok p => p | _ => [] end.
End Toy.

Import Handshake.Toy Toy.

Lemma tunnel_delivery_witness :
  exists packets f rest, DataChan.seal_all client Toy.packets = map Ok packets /\
    flow_run (settings_of Handshake.Toy.C Handshake.Toy.R) TlsCrypt.Toy.key None 0 packets ops (mkFlow up [] []) = Ok f /\
    f_got f ++ rest = [[69; 2; 3]; [69; 1]] /\
    DataChan.open_all client (map (fun i => nth i (f_sent f) []) [1%nat; 1%nat; 0%nat]) =
      [Ok [69; 8; 9]; Err DataChan.ErrReplay; Ok [69; 7]].
Proof.
  destruct (sv_heap up !! 0%nat) as [e|] eqn:He; [|vm_compute in He; discriminate He].
  assert (Hip : session = Some (e_sess e)) by (unfold session; by rewrite He).
  assert (Hs : match session with Some s => AssignedIP s = Some [10; 9; 0; 2] /\ PeerID s = 0 | None => False end)
    by (vm_compute; split; reflexivity).
  rewrite Hip in Hs. destruct Hs as [Ha Hp].
  destruct (tunnel_delivery (settings_of Handshake.Toy.C Handshake.Toy.R) TlsCrypt.Toy.key None 0 (Serve.pool Handshake.Toy.R)
    (Serve.sessionInboundQueue Handshake.Toy.R) 32 keys up e client Toy.packets ops
    Handshake.Toy.resolved_pool_fresh up_reachable He) as (packets & f & e' & taken & E1 & E2 & _ & E3 & _ & E4 & _ & E5).
  - rewrite Ha. by eexists.
  - apply up_open. exact He.
  - rewrite Hp. vm_compute. reflexivity.
  - vm_compute. reflexivity.
  - vm_compute. reflexivity.
  - decide_now.
  - decide_now.
  - exists packets, f, (unread (e_sess e')). split; [exact E1|]. split; [exact E2|]. split.
    + rewrite E3, E4 by (vm_compute; discriminate). vm_compute. reflexivity.
    + rewrite (E5 [1%nat; 1%nat; 0%nat]) by decide_now. vm_compute. reflexivity.
Defined.

Lemma tunnel_echo_witness :
  exists datagram v1 st' v2 out reply,
    (DataChan.Seal client [] ping).1 = Ok datagram /\
    handleDatagram (settings_of Handshake.Toy.C Handshake.Toy.R) TlsCrypt.Toy.key None 300 false [9] datagram up = Ok (v1, []) /\
    readLoop (settings_of Handshake.Toy.C Handshake.Toy.R) 0 0 Stack.readBufferSize 301 stack v1 = Some (st', Some 2048, v2, [out]) /\
    (DataChan.Open client [] out).1 = Ok reply /\ drop 24 reply = [0; 1; 0; 1; 104; 105].
Proof.
  destruct (sv_heap up !! 0%nat) as [e|] eqn:He; [|vm_compute in He; discriminate He].
  assert (Hip : session = Some (e_sess e)) by (unfold session; by rewrite He).
  assert (Hs : match session with Some s => AssignedIP s = Some [10; 9; 0; 2] /\ PeerID s = 0 | None => False end)
    by (vm_compute; split; reflexivity).
  rewrite Hip in Hs. destruct Hs as [Ha Hp].
  destruct (Stack.s_atts stack !! 0%nat) as [att|] eqn:Hatt; [|vm_compute in Hatt; discriminate Hatt].
  assert (Hat : Stack.at_ip att = [10; 9; 0; 2] /\ Stack.at_stopped att = false)
    by (vm_compute in Hatt; injection Hatt as <-; vm_compute; split; reflexivity).
  destruct Hat as [Hat1 Hat2].
  destruct (tunnel_echo (settings_of Handshake.Toy.C Handshake.Toy.R) TlsCrypt.Toy.key None 0 (Serve.pool Handshake.Toy.R)
    (Serve.sessionInboundQueue Handshake.Toy.R) 32 keys up e client Stack.ToyStack.always stack 0 att [9] echo ping 300 301
    Handshake.Toy.resolved_pool_fresh up_reachable He)
    as (datagram & v1 & st' & v2 & out & reply & hdr & E1 & E2 & E3 & E4 & _ & _ & _ & _ & _ & E5 & _ & E6 & _).
  - rewrite Ha, Hat1. reflexivity.
  - apply up_open. exact He.
  - reflexivity.
  - rewrite Hp. vm_compute. reflexivity.
  - exact stack_reachable.
  - exact Hatt.
  - exact Hat2.
  - decide_now.
  - vm_compute. split; discriminate.
  - reflexivity.
  - rewrite Hat1. vm_compute. reflexivity.
  - exists datagram, v1, st', v2, out, reply. split; [exact E1|]. split; [exact E2|]. split; [exact E3|]. split; [exact E4|].
    change 24%nat with (20 + 4)%nat. rewrite <- drop_drop. exact E6.
Defined.
End Tunnel.
