(* ===== verification/NetTest.v ===== *)
(** * NetTest: the netstack's test helpers

    Model of [netstack/netstacktest]: the builders of frames
    ([netstacktest.go]) and the in-memory session ([fakesession.go]).  Embedders
    test their use of the stack with them, so what matters is that they stand for
    the real thing: built frames are those the parsers accept and the fragmenter
    emits, and whatever a reader sees of a fake session a real one can show. *)

From stdpp Require Import gmap sets.
From S2P Require Import Prelude GoText Frame IPv4 IpPool Replay DataChan Session SessionProps Udp.
Import Frame IPv4 Session SessionProps.

Module NetTest.

(** ** Builders *)

Definition MustAddr {E : Type} (ip : bytes) : outcome E bytes :=
  match IpPool.to4 ip with None => Panic | Some ip4 => Ok ip4 end.

Section builders.
Context {E : Type}.

Definition BuildIPv4 (src dst : bytes) (proto : Z) (payload : bytes) : outcome E bytes :=
  Frame.BuildIPv4 [] src dst proto payload.

Definition BuildUDP (src dst : bytes) (srcPort dstPort : Z) (payload : bytes) : outcome E bytes :=
  segment ← Frame.BuildUDP [] src dst srcPort dstPort payload;
  Frame.BuildIPv4 [] src dst ProtocolUDP segment.

Definition BuildICMPEchoRequest (src dst : bytes) (id seq : Z) (payload : bytes) : outcome E bytes :=
  let icmp := replicate (Z.to_nat MinICMPHeaderLen) 0 ++ payload in
  let icmp := <[0%nat := ICMPTypeEchoRequest]> icmp in
  let icmp := <[1%nat := 0]> icmp in
  icmp ← put16 icmp 4 id;
  icmp ← put16 icmp 6 seq;
  icmp ← put16 icmp 2 (InternetChecksum icmp);
  Frame.BuildIPv4 [] src dst ProtocolICMP icmp.

(** [offsetBytes] is an [int]; the division truncates. *)
Definition BuildFragment (src dst : bytes) (proto id offsetBytes : Z) (mf : bool) (payload : bytes)
    : outcome E bytes :=
  pkt ← Frame.BuildIPv4 [] src dst proto payload;
  pkt ← put16 pkt 4 id;
  let flagsFragOffset := u16 (Z.quot offsetBytes 8) in
  let flagsFragOffset := if mf then Z.lor flagsFragOffset FlagMoreFragments else flagsFragOffset in
  pkt ← put16 pkt 6 flagsFragOffset;
  pkt ← put16 pkt 10 0;
  head ← slice pkt 0 MinIPv4HeaderLen;
  put16 pkt 10 (InternetChecksum head).

End builders.

(** ** The in-memory session *)

Inductive fake_error := ErrShortReadBuffer | EOF.

(** What [Read] does: it returns a packet, returns an error, or blocks. *)
Inductive fake_read := FData (pkt : bytes) | FErr (e : fake_error) | FBlocks.

(** The two channels, the state under the two mutexes.  [doneCh] is closed exactly
    when [closed] is set. *)
Record FakeSession := mkFake {
  inbound : list bytes;
  outbound : list bytes;
  pendingRead : option bytes;
  closed : bool;
  readActive : bool;
  readOverlapped : bool;
  readerIDs : gset Z;
}.

(** The capacity of both channels. *)
Definition depth : Z := 16.

Definition NewFakeSession : FakeSession := mkFake [] [] None false false false ∅.

Definition set_queue (inb outb : list bytes) (pending : option bytes) (f : FakeSession) : FakeSession :=
  mkFake inb outb pending (closed f) (readActive f) (readOverlapped f) (readerIDs f).

(** [doRead] with a buffer of [n] bytes; with a packet waiting and [doneCh] closed
    [pick] chooses. *)
Definition doRead (f : FakeSession) (n : Z) (pick : bool) : fake_read * FakeSession :=
  match pendingRead f with
  | Some pkt =>
      if n <? zlen pkt then (FErr ErrShortReadBuffer, f)
      else (FData pkt, set_queue (inbound f) (outbound f) None f)
  | None =>
      match inbound f with
      | pkt :: q =>
          if closed f && pick then (FErr EOF, f) else
          if n <? zlen pkt then (FErr ErrShortReadBuffer, set_queue q (outbound f) (Some pkt) f)
          else (FData pkt, set_queue q (outbound f) None f)
      | [] => if closed f then (FErr EOF, f) else (FBlocks, f)
      end
  end.

Definition markReadEnter (gid : Z) (f : FakeSession) : FakeSession :=
  mkFake (inbound f) (outbound f) (pendingRead f) (closed f) true
    (readOverlapped f || readActive f) ({[gid]} ∪ readerIDs f).

Definition markReadExit (f : FakeSession) : FakeSession :=
  mkFake (inbound f) (outbound f) (pendingRead f) (closed f) false (readOverlapped f) (readerIDs f).

(** The words of [runtime.Stack]'s first line, which is ASCII. *)
Definition Fields (buf : bytes) : list bytes :=
  filter (fun w => w <> []) (split_on 32 (map (fun c => if (9 <=? c) && (c <=? 13) then 32 else c) buf)).

Definition goroutineID (buf : bytes) : Z :=
  match Fields buf with
  | _ :: w :: _ => match atoi w with Some id => id | None => -1 end
  | _ => -1
  end.

(** [Write]; with room in the channel and [doneCh] closed [pick] chooses.  [None]: it
    blocks. *)
Definition Write (f : FakeSession) (p : bytes) (pick : bool) : option (outcome fake_error Z * FakeSession) :=
  if zlen (outbound f) <? depth then
    if closed f && pick then Some (Err EOF, f)
    else Some (Ok (zlen p), set_queue (inbound f) (outbound f ++ [p]) (pendingRead f) f)
  else if closed f then Some (Err EOF, f) else None.

Definition Close (f : FakeSession) : FakeSession :=
  if closed f then f else
  mkFake (inbound f) (outbound f) (pendingRead f) true (readActive f) (readOverlapped f) (readerIDs f).

(** [Inject]: a plain send, [None] when it blocks. *)
Definition Inject (f : FakeSession) (frame : bytes) : option FakeSession :=
  if zlen (inbound f) <? depth then Some (set_queue (inbound f ++ [frame]) (outbound f) (pendingRead f) f) else None.

(** A receive from [Outbound()]; [None] when it blocks. *)
Definition Outbound (f : FakeSession) : option (bytes * FakeSession) :=
  match outbound f with p :: q => Some (p, set_queue (inbound f) q (pendingRead f) f) | [] => None end.

(** The count of distinct readers and whether two calls overlapped. *)
Definition ReadObservations (f : FakeSession) : Z * bool := (Z.of_nat (size (readerIDs f)), readOverlapped f).

(** ** Built frames *)

(** The outcome does not depend on the type of errors: there are none. *)
Lemma BuildIPv4_any {E F : Type} (src dst : bytes) (proto : Z) (payload pkt : bytes) :
  BuildIPv4 (E := E) src dst proto payload = Ok pkt -> BuildIPv4 (E := F) src dst proto payload = Ok pkt.
Proof. unfold BuildIPv4, Frame.BuildIPv4, put16. destruct (_ <=? _)%nat; [|done]. by intros [= <-]. Qed.

Lemma put16_any {E F : Type} (b x : bytes) (i : nat) (v : Z) : put16 (E := E) b i v = Ok x -> put16 (E := F) b i v = Ok x.
Proof. unfold put16. destruct (_ <=? _)%nat; [|done]. by intros [= <-]. Qed.

Lemma Frame_BuildUDP_any {E F : Type} (src dst : bytes) (sp dp : Z) (payload seg : bytes) :
  Frame.BuildUDP (E := E) [] src dst sp dp payload = Ok seg -> Frame.BuildUDP (E := F) [] src dst sp dp payload = Ok seg.
Proof.
  unfold Frame.BuildUDP. cbv zeta. destruct (put16 (E := E) _ _ _) as [x| |] eqn:Ep; [|done..].
  rewrite (put16_any (E := E) _ x) by exact Ep. outcome_simpl. intros H. apply (inj Ok) in H. by rewrite H.
Qed.

(** A packet of [BuildIPv4]: what the parser makes of it. *)
Lemma built_packet {E : Type} (src dst : bytes) (proto : Z) (payload : bytes) :
  is_addr src -> is_addr dst -> is_u8 proto -> zlen payload <= 65515 ->
  exists pkt, BuildIPv4 (E := E) src dst proto payload = Ok pkt /\
    parseIPv4 pkt = Ok (mkIPv4Header 20 (20 + zlen payload) proto src dst 20 0 false 0) /\
    drop 20 pkt = payload /\ zlen pkt = 20 + zlen payload /\ InternetChecksum (take 20 pkt) = 0.
Proof.
  intros Hs Hd Hp Hl. destruct (BuildIPv4_shape (E := E) src dst proto payload Hs Hd Hp) as (ck & hdr & _ & _ & E1 & _).
  exists (hdr ++ payload). split; [exact E1|]. apply parse_built; try done. by apply (BuildIPv4_any (E := E)).
Qed.

(** The ICMP message of an echo request. *)
Definition echo_message (id seq : Z) (payload : bytes) : bytes :=
  let rest := be16 id ++ be16 seq ++ payload in
  [ICMPTypeEchoRequest; 0] ++ be16 (InternetChecksum ([ICMPTypeEchoRequest; 0] ++ [0; 0] ++ rest)) ++ rest.

Lemma BuildICMPEchoRequest_message {E : Type} (src dst : bytes) (id seq : Z) (payload : bytes) :
  BuildICMPEchoRequest (E := E) src dst id seq payload = BuildIPv4 src dst ProtocolICMP (echo_message id seq payload).
Proof. done. Qed.

Lemma echo_message_facts (id seq : Z) (payload : bytes) :
  bytes_ok payload -> zlen payload <= 65507 ->
  zlen (echo_message id seq payload) = 8 + zlen payload /\ bytes_ok (echo_message id seq payload) /\
  InternetChecksum (echo_message id seq payload) = 0 /\
  get_u16 (E := ip_error) (take 2 (drop 4 (echo_message id seq payload))) = Ok (u16 id) /\
  get_u16 (E := ip_error) (take 2 (drop 6 (echo_message id seq payload))) = Ok (u16 seq) /\
  drop 8 (echo_message id seq payload) = payload.
Proof.
  intros Hok Hl. set (rest := be16 id ++ be16 seq ++ payload).
  assert (Hr : bytes_ok rest) by (unfold rest; repeat (apply bytes_ok_app; split); auto with word).
  assert (Hn : zlen rest = 4 + zlen payload) by (unfold rest; rewrite !zlen_app, !be16_length; lia).
  assert (Ha : bytes_ok [ICMPTypeEchoRequest; 0]) by decide_now.
  split_and!; try done; try (cbn; unfold u16, u8; f_equal; word_lia).
  - unfold echo_message. fold rest. rewrite !zlen_app, be16_length, Hn. change (zlen [_; _]) with 2. lia.
  - unfold echo_message. fold rest. apply bytes_ok_app. split; [done|]. apply bytes_ok_app. split; [apply be16_bytes|done].
  - pose proof (wsum_bounds _ Hr) as B. assert ((zlen rest + 1) / 2 <= 32758) by (apply Z.div_le_upper_bound; lia).
    apply (checksum_fills 0 [ICMPTypeEchoRequest; 0] rest); try done; [by exists 1%nat|].
    change (wsum [ICMPTypeEchoRequest; 0]) with 2048. lia.
Qed.

(** ** Fragments *)

(** The helper's fragment and the one the stack cuts out of a built datagram are one. *)
Lemma BuildFragment_cut (src dst : bytes) (proto : Z) (payload pkt chunk : bytes) (hdr : ipv4Header) (off id : Z) (more : bool) :
  is_addr src -> is_addr dst -> is_u8 proto -> zlen payload <= 65515 -> 0 <= off ->
  BuildIPv4 (E := ip_error) src dst proto payload = Ok pkt -> parseIPv4 pkt = Ok hdr ->
  BuildFragment src dst proto id off more chunk = oneFragment hdr pkt chunk off more id.
Proof.
  intros Hs Hd Hp Hl Ho HB HP.
  destruct (parse_built _ _ _ _ _ Hs Hd Hp Hl HB) as (HP' & _ & Hz & _). rewrite HP in HP'. apply (inj Ok) in HP'. subst hdr.
  destruct (BuildIPv4_shape (E := ip_error) src dst proto payload Hs Hd Hp) as (ck & hd & _ & Hh & E1 & Hn & _).
  unfold BuildIPv4 in HB. rewrite E1 in HB. apply (inj Ok) in HB. subst pkt.
  destruct (BuildIPv4_shape (E := ip_error) src dst proto chunk Hs Hd Hp) as (ck' & hd' & _ & Hh' & E2 & Hn' & _).
  unfold BuildFragment, oneFragment. rewrite E2. outcome_simpl. cbn [h_ihl]. pose proof (zlen_nonneg payload). pose proof (zlen_nonneg chunk).
  rewrite slice_ok by lia. outcome_simpl. rewrite drop_0, take_app_length' by done.
  destruct Hs as [Hs _], Hd as [Hd _].
  destruct src as [|s0 [|s1 [|s2 [|s3 [|? ?]]]]]; try (cbn in Hs; lia).
  destruct dst as [|d0 [|d1 [|d2 [|d3 [|? ?]]]]]; try (cbn in Hd; lia). subst hd hd'.
  rewrite Z.quot_div_nonneg by lia. change MinIPv4HeaderLen with 20. reflexivity.
Qed.

(** The rounds of the fragmentation loop. *)
Lemma fragLoop_nth (fuel : nat) (hdr : ipv4Header) (pkt payload : bytes) (m id off : Z) (frags : list bytes) :
  0 < m -> 0 <= off -> fragLoop fuel hdr pkt payload m id off = Ok frags ->
  forall i f, frags !! i = Some f ->
    let o := off + Z.of_nat i * m in
    o < zlen payload /\
    oneFragment hdr pkt (take (Z.to_nat m) (drop (Z.to_nat o) payload)) o (o + m <? zlen payload) id = Ok f.
Proof.
  intros Hm. revert off frags. induction fuel as [|fuel IH]; intros off frags Ho; cbn [fragLoop].
  { destruct (negb _); [|done]. intros [= <-] i f. by rewrite lookup_nil. }
  destruct (Z.ltb_spec off (zlen payload)) as [Hlt|]; cbn [negb]; [|intros [= <-] i f; by rewrite lookup_nil].
  set (last := if zlen payload <? off + m then zlen payload else off + m).
  rewrite (slice_ok payload off last) by (unfold last; destruct (Z.ltb_spec (zlen payload) (off + m)); lia). outcome_simpl.
  assert (Ec : take (Z.to_nat (last - off)) (drop (Z.to_nat off) payload) = take (Z.to_nat m) (drop (Z.to_nat off) payload)).
  { unfold last. destruct (Z.ltb_spec (zlen payload) (off + m)); [|f_equal; lia].
    rewrite !take_ge by (rewrite length_drop; unfold zlen in *; lia). done. }
  assert (El : (last <? zlen payload) = (off + m <? zlen payload)).
  { unfold last. destruct (Z.ltb_spec (zlen payload) (off + m)), (Z.ltb_spec (off + m) (zlen payload)); lia. }
  rewrite Ec, El. destruct (oneFragment _ _ _ _ _ _) as [f0| |] eqn:Ef; try done. outcome_simpl.
  destruct (fragLoop fuel _ _ _ _ _ _) as [fs| |] eqn:El'; try done. outcome_simpl. intros [= <-] [|i] f Hi; cbn in Hi.
  - injection Hi as <-. replace (off + Z.of_nat 0 * m) with off by lia. done.
  - destruct (IH (off + m) fs ltac:(lia) El' i f Hi) as [I1 I2].
    replace (off + Z.of_nat (S i) * m) with (off + m + Z.of_nat i * m) by lia. done.
Qed.

(** C30. The test helper's fragments are the stack's: of every IPv4 packet that
    [BuildIPv4] builds, each fragment that the stack's fragmenter emits for any MTU is,
    byte for byte, what [BuildFragment] builds from the corresponding part of the
    payload, its byte offset and whether more follow; and a fragment built at any
    offset on the 8-byte grid that the parser can represent parses to that offset, flag
    and identification. *)
Theorem BuildFragment_equivalent (src dst : bytes) (proto : Z) (payload pkt : bytes) (hdr : ipv4Header) (mtu id : Z) (frags : list bytes) :
  is_addr src -> is_addr dst -> is_u8 proto -> zlen payload <= 65515 ->
  BuildIPv4 (E := ip_error) src dst proto payload = Ok pkt -> parseIPv4 pkt = Ok hdr ->
  fragmentIPv4 hdr pkt mtu id = Ok frags ->
  (forall i f, frags !! i = Some f ->
    let m := Z.ldiff (mtu - 20) 7 in
    let o := Z.of_nat i * m in
    BuildFragment (E := ip_error) src dst proto id o (o + m <? zlen payload) (take (Z.to_nat m) (drop (Z.to_nat o) payload)) = Ok f) /\
  (forall chunk off more, is_u16 id -> bytes_ok chunk -> 0 < zlen chunk -> 0 <= off -> off mod 8 = 0 -> off + zlen chunk <= 65535 ->
    zlen chunk <= 65515 -> (more = true -> zlen chunk mod 8 = 0) ->
    exists f, BuildFragment (E := ip_error) src dst proto id off more chunk = Ok f /\
      parseIPv4 f = Ok (mkIPv4Header 20 (20 + zlen chunk) proto src dst 20 id more off) /\
      drop 20 f = chunk /\ InternetChecksum (take 20 f) = 0).
Proof.
  intros Hs Hd Hp Hl HB HP HF. pose proof HB as HB'. unfold BuildIPv4 in HB'.
  destruct (parse_built _ _ _ _ _ Hs Hd Hp Hl HB') as (HP' & Hdr & Hz & _). pose proof (zlen_nonneg payload).
  rewrite HP in HP'. apply (inj Ok) in HP'. split.
  - intros i f Hi m o. unfold fragmentIPv4 in HF. rewrite HP' in HF. cbn [h_ihl h_payloadOff h_totalLen] in HF. fold m in HF.
    destruct (Z.leb_spec m 0) as [|Hm]; [apply (inj Ok) in HF; subst frags; by rewrite lookup_nil in Hi|].
    rewrite slice_ok in HF by lia. outcome_simpl. change (Z.to_nat 20) with 20%nat in HF. rewrite Hdr in HF.
    replace (take _ payload) with payload in HF by (rewrite take_ge; [done|unfold zlen; lia]).
    rewrite <- HP' in HF. destruct (fragLoop_nth _ _ _ _ _ _ _ _ Hm (Z.le_refl 0) HF i f Hi) as [_ E1]. rewrite Z.add_0_l in E1. fold o in E1.
    rewrite <- E1. eapply BuildFragment_cut; try done. unfold o. lia.
  - intros chunk off more Hid Hck Hn Ho Hom Hot Hit Hmore.
    assert (Hok0 : exists pkt0, BuildIPv4 (E := ip_error) src dst proto [] = Ok pkt0 /\ bytes_ok pkt0 /\
      parseIPv4 pkt0 = Ok (mkIPv4Header 20 20 proto src dst 20 0 false 0)).
    { destruct (BuildIPv4_shape (E := ip_error) src dst proto [] Hs Hd Hp) as (ck & hd & _ & _ & E1 & _ & Hb & _).
      exists (hd ++ []). split; [exact E1|]. split; [by rewrite app_nil_r|].
      by destruct (parse_built src dst proto [] (hd ++ []) Hs Hd Hp) as [E2 _]. }
    destruct Hok0 as (pkt0 & E0 & Hok & HP0).
    destruct (oneFragment_spec _ pkt0 chunk off id more Hok HP0) as (f & E1 & _ & _ & E2 & E3 & E4); try done; [cbn; lia|].
    exists f. split_and!; try done. rewrite <- E1. by apply (BuildFragment_cut src dst proto [] pkt0).
Qed.

Lemma BuildFragment_equivalent_witness :
  exists pkt hdr frags, BuildIPv4 (E := ip_error) [10; 8; 0; 2] [10; 8; 0; 1] ProtocolUDP (replicate 50 7) = Ok pkt /\
    parseIPv4 pkt = Ok hdr /\ fragmentIPv4 hdr pkt 44 9 = Ok frags /\ length frags = 3%nat /\
    BuildFragment (E := ip_error) [10; 8; 0; 2] [10; 8; 0; 1] ProtocolUDP 9 48 false [7; 7] = Ok (nth 2 frags []).
Proof.
  eexists _, _, _. split; [vm_compute; reflexivity|]. split; [vm_compute; reflexivity|].
  split; [vm_compute; reflexivity|]. split; [reflexivity|].
  refine (proj1 (BuildFragment_equivalent [10; 8; 0; 2] [10; 8; 0; 1] ProtocolUDP (replicate 50 7) _ _ 44 9 _ _ _ _ _ _ _ _) 2%nat _ _);
    [decide_now|decide_now|decide_now|vm_compute; discriminate|vm_compute; reflexivity|vm_compute; reflexivity|vm_compute; reflexivity|reflexivity].
Defined.

(** ** Built datagrams *)

(** A datagram of [BuildUDP] is accepted at both layers, its checksum included. *)
Lemma built_udp (m : Udp.udpDatagram) (dst : bytes) (port : Z) :
  Udp.msg_ok m -> is_addr dst -> is_u16 port ->
  exists pkt seg, BuildUDP (E := ip_error) (Udp.dg_ip m) dst (Udp.dg_port m) port (Udp.dg_data m) = Ok pkt /\
    BuildIPv4 (E := ip_error) (Udp.dg_ip m) dst ProtocolUDP seg = Ok pkt /\
    parseIPv4 pkt = Ok (mkIPv4Header 20 (28 + zlen (Udp.dg_data m)) ProtocolUDP (Udp.dg_ip m) dst 20 0 false 0) /\
    drop 20 pkt = seg /\ zlen seg = 8 + zlen (Udp.dg_data m) /\ bytes_ok seg /\
    forall s d, Udp.handlePacket s d (Udp.dg_ip m) dst seg = Ok (s, Udp.deliver d port m).
Proof.
  intros Hm Hd Hp. destruct (Udp.built_accepted m dst port Hm Hd Hp) as (seg & E1 & Hok & Hz & _ & _ & HH).
  destruct Hm as (Hs & _ & _ & Hl). change Udp.maxUDPPayload with 65507 in Hl.
  destruct (built_packet (E := ip_error) (Udp.dg_ip m) dst ProtocolUDP seg Hs Hd) as (pkt & E2 & E3 & E4 & _); [done|lia|].
  exists pkt, seg. split_and!; try done.
  - unfold BuildUDP. by rewrite (Frame_BuildUDP_any (E := Udp.udp_error) _ _ _ _ _ seg).
  - rewrite E3, Hz. f_equal. f_equal. lia.
Qed.

(** And an echo request by the ICMP handler. *)
Lemma built_echo (src dst : bytes) (id seq : Z) (payload : bytes) :
  is_addr src -> is_addr dst -> bytes_ok payload -> zlen payload <= 65507 ->
  exists pkt, BuildICMPEchoRequest (E := ip_error) src dst id seq payload = Ok pkt /\
    parseIPv4 pkt = Ok (mkIPv4Header 20 (28 + zlen payload) ProtocolICMP src dst 20 0 false 0) /\
    drop 20 pkt = echo_message id seq payload.
Proof.
  intros Hs Hd Hok Hl. destruct (echo_message_facts id seq payload Hok Hl) as (Hz & _).
  destruct (built_packet (E := ip_error) src dst ProtocolICMP (echo_message id seq payload) Hs Hd) as (pkt & E1 & E2 & E3 & _); [done|lia|].
  exists pkt. rewrite BuildICMPEchoRequest_message. split_and!; [done| |done]. rewrite E2, Hz. f_equal. f_equal. lia.
Qed.

(** ** Who reads *)

Inductive reader_step := Enter (gid : Z) | Exit.

Definition observe (t : list reader_step) (f : FakeSession) : FakeSession :=
  foldl (fun f a => match a with Enter g => markReadEnter g f | Exit => markReadExit f end) f t.

(** With [n] calls in flight: no more exits than calls. *)
Fixpoint calls (n : nat) (t : list reader_step) : bool :=
  match t with
  | [] => true
  | Enter _ :: t => calls (S n) t
  | Exit :: t => match n with O => false | S n => calls n t end
  end.

(** A call starts while another is in flight. *)
Fixpoint overlapping (n : nat) (t : list reader_step) : bool :=
  match t with
  | [] => false
  | Enter _ :: t => (0 <? n)%nat || overlapping (S n) t
  | Exit :: t => overlapping (pred n) t
  end.

Definition readers (t : list reader_step) : list Z := omap (fun a => match a with Enter g => Some g | Exit => None end) t.

Lemma observe_ids (t : list reader_step) (f : FakeSession) :
  readerIDs (observe t f) = list_to_set (readers t) ∪ readerIDs f.
Proof.
  unfold observe. revert f. induction t as [|[g|] t IH]; intros f; cbn [foldl]; [set_solver|..]; rewrite IH; cbn; set_solver.
Qed.

Lemma observe_kept (t : list reader_step) (f : FakeSession) : readOverlapped f = true -> readOverlapped (observe t f) = true.
Proof. unfold observe. revert f. induction t as [|[g|] t IH]; intros f Hf; [done|..]; apply IH; cbn; by rewrite ?Hf. Qed.

Lemma observe_overlap (t : list reader_step) (n : nat) (f : FakeSession) :
  (n <= 1)%nat -> calls n t = true -> readActive f = (0 <? n)%nat -> readOverlapped f = false ->
  readOverlapped (observe t f) = overlapping n t.
Proof.
  revert n f. induction t as [|[g|] t IH]; intros n f Hn Hc Ha Ho; [done|..]; cbn in Hc.
  - change (observe (Enter g :: t) f) with (observe t (markReadEnter g f)). destruct n as [|[|n]]; [| |lia].
    + cbn [overlapping Nat.ltb Nat.leb orb]. apply (IH 1%nat); try done. cbn. by rewrite Ha, Ho.
    + cbn. apply observe_kept. cbn. by rewrite Ho, Ha.
  - change (observe (Exit :: t) f) with (observe t (markReadExit f)). destruct n as [|[|n]]; [done| |lia]. apply (IH 0%nat); try done. lia.
Qed.

(** [ReadObservations] is exact: of any history of calls of [Read], whatever else
    happens in between, it reports how many goroutines called and whether two calls
    were ever in flight at once. *)
Lemma observations_exact (t : list reader_step) :
  calls 0 t = true ->
  ReadObservations (observe t NewFakeSession) =
    (Z.of_nat (size (list_to_set (readers t) : gset Z)), overlapping 0 t).
Proof.
  intros Hc. unfold ReadObservations. rewrite observe_ids. change (readerIDs NewFakeSession) with (∅ : gset Z). rewrite union_empty_r_L. f_equal. apply observe_overlap; try done. lia.
Qed.

(** ** A fake session is a session *)

Section mirror.
Context {W : Type} `{!AntiReplay W} `{!DataChan.AEAD}.
Variable (cfg : settings).

(** A packet arrives, the reader reads into [n] bytes, the session is closed. *)
Inductive op := Arrives (now : Z) (p : bytes) | Reads (n : Z) (pick : bool) | Closes.

(** What the caller sees. *)
Inductive seen := Nothing | Got (pkt : bytes) | TooSmall | Ended | Waits.

(** [None]: the sender of the packet blocks. *)
Definition fake_step (o : op) (f : FakeSession) : option (seen * FakeSession) :=
  match o with
  | Arrives _ p => f ← Inject f p; Some (Nothing, f)
  | Reads n pick =>
      let '(r, f) := doRead f n pick in
      Some (match r with FData p => Got p | FErr ErrShortReadBuffer => TooSmall | FErr EOF => Ended | FBlocks => Waits end, f)
  | Closes => Some (Nothing, Close f)
  end.

Definition session_step (o : op) (s : Session W) : seen * Session W :=
  match o with
  | Arrives now p => (Nothing, (acceptPlaintext cfg now false p s).1)
  | Reads n pick =>
      let '(r, s) := Read s n pick in
      (match r with RdData p => Got p | RdErr ErrBufferTooSmall => TooSmall | RdErr _ => Ended | RdBlocks => Waits end, s)
  | Closes => (Nothing, (Session.Close cfg s).1)
  end.

Fixpoint fake_run (ops : list op) (f : FakeSession) : option (list seen * FakeSession) :=
  match ops with
  | [] => Some ([], f)
  | o :: ops => '(x, f) ← fake_step o f; '(xs, f) ← fake_run ops f; Some (x :: xs, f)
  end.

Fixpoint session_run (ops : list op) (s : Session W) : list seen * Session W :=
  match ops with
  | [] => ([], s)
  | o :: ops => let '(x, s) := session_step o s in let '(xs, s) := session_run ops s in (x :: xs, s)
  end.

Record mirrors (f : FakeSession) (s : Session W) : Prop := {
  mi_queue : exists cap, depth <= cap /\ d_ipInbound (s_data s) = Some (cap, inbound f);
  mi_pending : d_pendingRead (s_data s) = pendingRead f;
  mi_closed : closing s = closed f;
}.

Lemma mirrors_read (f : FakeSession) (s : Session W) (n : Z) (pick : bool) :
  mirrors f s ->
  exists f', fake_step (Reads n pick) f = Some ((session_step (Reads n pick) s).1, f') /\
    mirrors f' (session_step (Reads n pick) s).2.
Proof.
  intros [(cap & Hd & Hq) Hp Hc]. unfold fake_step, session_step, doRead, Read. rewrite Hp, Hq, Hc.
  assert (Hf : mirrors f s) by (by constructor; [exists cap|..]).
  assert (Hs : forall q pend, mirrors (set_queue q (outbound f) pend f) (set_data (Session.set_queue (Some (cap, q)) pend (s_data s)) s))
    by (intros; by constructor; [exists cap|..]).
  destruct (pendingRead f) as [p|].
  - destruct (n <? zlen p); eexists; by split.
  - destruct (inbound f) as [|p q] eqn:Ei; [destruct (closed f); eexists; by split|].
    destruct (closed f && pick); [eexists; by split|]. destruct (n <? zlen p); eexists; by split.
Qed.

(** One step of each, from mirror images to mirror images. *)
Lemma mirrors_step (f f' : FakeSession) (s : Session W) (o : op) (x : seen) :
  mirrors f s -> match o with Arrives _ p => isExitNotify p = false | _ => True end -> fake_step o f = Some (x, f') ->
  (session_step o s).1 = x /\ mirrors f' (session_step o s).2.
Proof.
  intros Hm He Hf. destruct o as [now p|n pick|].
  - destruct Hm as [(cap & Hd & Hq) Hp Hc]. unfold fake_step, Inject in Hf. destruct (Z.ltb_spec (zlen (inbound f)) depth); [|done].
    cbn in Hf. injection Hf as <- <-. split; [done|]. unfold session_step, acceptPlaintext. rewrite He. cbn [snd fst].
    unfold deliverIP.
    change (d_ipInbound (s_data (countPacket p (touchAuthTraffic now s)))) with (d_ipInbound (s_data s)). rewrite Hq.
    rewrite (proj2 (Z.ltb_lt (zlen (inbound f)) cap)), andb_false_r by lia. constructor; cbn; [by exists cap|done|done].
  - destruct (mirrors_read f s n pick Hm) as (f1 & E1 & E2). rewrite E1 in Hf. injection Hf as <- <-. done.
  - destruct Hm as [(cap & Hd & Hq) Hp Hc]. injection Hf as <- <-. split; [done|]. unfold session_step, Session.Close, closeWithReason, teardown. cbn [snd].
    destruct (closeEnd_life cfg (closeBegin CloseReasonEmbedder s)) as (_ & C2 & _ & _ & _ & _ & C3 & _).
    destruct (closeEnd cfg _) as [s1 a1]. destruct (closeNotify_life cfg s1) as (_ & _ & N3 & _ & N5 & _).
    destruct (closeNotify cfg s1) as [s2 a2]. cbn [fst snd] in *.
    assert (Hb : s_data (closeBegin CloseReasonEmbedder s) = s_data s /\ closing (closeBegin CloseReasonEmbedder s) = true).
    { unfold closeBegin, closing. by destruct (l_stopping (s_life s)) eqn:E. }
    destruct Hb as [B1 B2]. constructor; rewrite ?N3, ?N5, ?C2, ?C3, ?B1, ?B2; unfold Close; destruct (closed f) eqn:Ec; try done; by exists cap.
Qed.

(** What a test sees of a [FakeSession] a program can see of a [Session]: from
    mirror images of each other, every sequence of arrivals, reads of any buffer sizes
    and closes that the fake session goes through shows its reader packet for packet,
    error for error what the session shows for the same choices of the runtime, and
    leaves mirror images; in particular short buffers keep the packet and a closed one
    ends alike. *)
Theorem fake_session_refines (ops : list op) (f f' : FakeSession) (s : Session W) (xs : list seen) :
  mirrors f s -> Forall (fun o => match o with Arrives _ p => isExitNotify p = false | _ => True end) ops ->
  fake_run ops f = Some (xs, f') ->
  (session_run ops s).1 = xs /\ mirrors f' (session_run ops s).2.
Proof.
  revert f s xs. induction ops as [|o ops IH]; intros f s xs Hm Ho Hf; cbn [fake_run session_run] in *; [by injection Hf as <- <-|].
  apply Forall_cons in Ho as [Ho1 Ho2].
  destruct (fake_step o f) as [[x f1]|] eqn:E1; [|done]. cbn [mbind option_bind] in Hf.
  destruct (fake_run ops f1) as [[xs1 f2]|] eqn:E2; [|done]. cbn [mbind option_bind] in Hf. injection Hf as <- <-.
  destruct (mirrors_step f f1 s o x Hm Ho1 E1) as [M1 M2]. destruct (session_step o s) as [y s1]. cbn [fst snd] in *.
  destruct (IH f1 s1 xs1 M2 Ho2 E2) as [I1 I2]. destruct (session_run ops s1) as [ys s2]. cbn [fst snd] in *. by subst.
Qed.

End mirror.

Module Toy.
Import DataChan.Toy.
Definition cfg : settings := mkSettings 0 0 0 true true.

(** A session whose inbound queue has just been set up. *)
Definition s0 : Session replayWindow := set_data (Session.set_queue (Some (64, [])) None (s_data (newSession (W := replayWindow)))) newSession.
Definition ops : list op := [Arrives 1 [69; 1]; Arrives 2 [69; 2]; Reads 1 false; Reads 2 false; Closes; Reads 2 false; Reads 2 false].

Example goroutine_number : goroutineID (of_string "goroutine 42 [running]:" ++ [10]) = 42 /\ goroutineID (of_string "goroutine") = -1.
Proof. split; vm_compute; reflexivity. Qed.

(** [Write] on a closed fake session whose channel has room may succeed; [Session.Write]
    on a closed session never does. *)
Example closed_fake_takes_a_write :
  Write (Close NewFakeSession) [69] false = Some (Ok 1, mkFake [] [[69]] None true false false ∅) /\
  (Session.Write (Some (fun _ => true)) (Session.Close cfg s0).1 [69]).1.1 = Err Session.EOF.
Proof. split; vm_compute; reflexivity. Qed.

(** A byte offset of 65536 or more runs into the flags. *)
Example offset_overflows :
  exists f h, BuildFragment (E := ip_error) [10; 8; 0; 2] [10; 8; 0; 1] ProtocolUDP 9 65536 false [1; 2; 3; 4; 5; 6; 7; 8] = Ok f /\
    parseIPv4 f = Ok h /\ h_moreFragments h = true /\ h_fragOffset h = 0.
Proof. eexists _, _. split; [vm_compute; reflexivity|]. split; [vm_compute; reflexivity|]. done. Qed.
End Toy.

Lemma fake_session_refines_witness :
  (session_run Toy.cfg Toy.ops Toy.s0).1 = [Nothing; Nothing; TooSmall; Got [69; 1]; Nothing; Got [69; 2]; Ended].
Proof.
  refine (proj1 (fake_session_refines Toy.cfg Toy.ops NewFakeSession _ Toy.s0 _ _ _ _)).
  - constructor; [exists 64; by split|done|done].
  - repeat constructor; vm_compute; reflexivity.
  - vm_compute. reflexivity.
Defined.

End NetTest.
