(* ===== verification/TestPki.v ===== *)
(** * TestPki: the generator of test certificates and keys

    Model of [cmd/gentestpki/main.go]: the certificate templates of the two
    profiles, the key and certificate files, the static key file with its
    self-check, the credentials file and the client configuration.

    A command is a function of a [world], the number of times the random source and
    the clock have been used and the files of the output directory, and gives a
    result or an error with the world it leaves.  Key generation, x509 and hashing
    are the operations of class [Crypto]; what the code relies on of them is
    [CryptoLaws].  Whether the operating system's calls succeed is an argument. *)

From stdpp Require Import gmap.
From S2P Require Import Prelude GoText TlsCrypt.

Module TestPki.

(** ** Constants *)

Definition staticKeyHead : bytes := of_string "-----BEGIN OpenVPN Static key V1-----".
Definition staticKeyFoot : bytes := of_string "-----END OpenVPN Static key V1-----".
Definition serverAlias : bytes := of_string "govpn-interop-server".
Definition serverPort : Z := 1194.
Definition pkiMountPoint : bytes := of_string "/pki".
Definition second : Z := 1000000000.
Definition hour : Z := 3600 * second.
Definition certValidity : Z := 24 * hour.
Definition profileSmall : bytes := of_string "small".
Definition profileLarge : bytes := of_string "large".
Definition largePadding : bytes :=
  of_string "large-certificate-profile-generated-for-govpn-interop-multi-packet-tls-fragmentation-verification-01-04-plan-task-1".
Definition rsaKeyBits : Z := 4096.

(** ** PEM *)

Definition base64_alphabet : bytes := of_string "ABCDEFGHIJKLMNOPQRSTUVWXYZabcdefghijklmnopqrstuvwxyz0123456789+/".
Definition base64_char (v : Z) : Z := nth (Z.to_nat v) base64_alphabet 61.

(** The standard encoding with padding. *)
Fixpoint base64 (b : bytes) : bytes :=
  match b with
  | x :: y :: z :: rest =>
      [base64_char (x / 4); base64_char (x mod 4 * 16 + y / 16); base64_char (y mod 16 * 4 + z / 64);
       base64_char (z mod 64)] ++ base64 rest
  | [x; y] => [base64_char (x / 4); base64_char (x mod 4 * 16 + y / 16); base64_char (y mod 16 * 4); 61]
  | [x] => [base64_char (x / 4); base64_char (x mod 4 * 16); 61; 61]
  | [] => []
  end.

(** Lines of [n] characters, each ended; the length is enough fuel. *)
Fixpoint wrap_lines (fuel n : nat) (s : bytes) : bytes :=
  match fuel, s with
  | O, _ | _, [] => []
  | S fuel, _ => take n s ++ [10] ++ wrap_lines fuel n (drop n s)
  end.

(** [pem.EncodeToMemory] of a block without headers. *)
Definition pem_encode (ty der : bytes) : bytes :=
  of_string "-----BEGIN " ++ ty ++ of_string "-----" ++ [10] ++
  wrap_lines (length (base64 der)) 64 (base64 der) ++
  of_string "-----END " ++ ty ++ of_string "-----" ++ [10].

(** ** Certificates *)

Record Name := mkName {
  CommonName : bytes;
  Organization : list bytes;
  OrganizationalUnit : list bytes;
  Country : list bytes;
  Locality : list bytes;
  Province : list bytes;
}.

#[export] Instance Name_eq_dec : EqDecision Name.
Proof. solve_decision. Defined.

Definition KeyUsageDigitalSignature : Z := 1.
Definition KeyUsageKeyEncipherment : Z := 4.
Definition KeyUsageCertSign : Z := 32.
Definition KeyUsageCRLSign : Z := 64.

Inductive ExtKeyUsage := ExtKeyUsageServerAuth | ExtKeyUsageClientAuth.

#[export] Instance ExtKeyUsage_eq_dec : EqDecision ExtKeyUsage.
Proof. solve_decision. Defined.

(** [x509.Certificate], as a template (whose issuer and public key are not set) and as
    what parsing gives.  An unset [MaxPathLen] of a parsed certificate is -1. *)
Record Certificate (pubkey : Type) := mkCertificate {
  SerialNumber : Z;
  Subject : Name;
  Issuer : option Name;
  PublicKey : option pubkey;
  NotBefore : Z;
  NotAfter : Z;
  KeyUsage : Z;
  ExtKeyUsages : list ExtKeyUsage;
  BasicConstraintsValid : bool;
  IsCA : bool;
  MaxPathLen : Z;
  MaxPathLenZero : bool;
  SubjectKeyId : bytes;
  AuthorityKeyId : bytes;
  DNSNames : list bytes;
}.
Arguments mkCertificate {pubkey}.
Arguments SerialNumber {pubkey}.
Arguments Subject {pubkey}.
Arguments Issuer {pubkey}.
Arguments PublicKey {pubkey}.
Arguments NotBefore {pubkey}.
Arguments NotAfter {pubkey}.
Arguments KeyUsage {pubkey}.
Arguments ExtKeyUsages {pubkey}.
Arguments BasicConstraintsValid {pubkey}.
Arguments IsCA {pubkey}.
Arguments MaxPathLen {pubkey}.
Arguments MaxPathLenZero {pubkey}.
Arguments SubjectKeyId {pubkey}.
Arguments AuthorityKeyId {pubkey}.
Arguments DNSNames {pubkey}.

(** The dynamic type of a [crypto.Signer]. *)
Inductive Signer (eckey rsakey : Type) := SignECDSA (k : eckey) | SignRSA (k : rsakey) | SignOther.
Arguments SignECDSA {eckey rsakey}.
Arguments SignRSA {eckey rsakey}.
Arguments SignOther {eckey rsakey}.

(** The n-th use of the random source or of the clock is an argument. *)
Class Crypto := {
  eckey : Type;
  rsakey : Type;
  pubkey : Type;
  ec_public : eckey -> pubkey;
  rsa_public : rsakey -> pubkey;
  ecdsa_GenerateKey : nat -> option eckey;
  rsa_GenerateKey : nat -> Z -> option rsakey;
  rand_Int : nat -> Z -> option Z;
  rand_Read : nat -> Z -> option bytes;
  time_Now : nat -> Z;
  MarshalPKIXPublicKey : pubkey -> option bytes;
  sha1_Sum : bytes -> bytes;
  MarshalECPrivateKey : eckey -> option bytes;
  MarshalPKCS1PrivateKey : rsakey -> bytes;
  (** [x509.CreateCertificate(rand, template, parent, pub, priv)]. *)
  CreateCertificate : nat -> Certificate pubkey -> Certificate pubkey -> pubkey -> Signer eckey rsakey -> option bytes;
  ParseCertificate : bytes -> option (Certificate pubkey);
}.

(** ** Commands *)

Inductive stage := CA | ServerCert | RootCA | IntermediateCA | ClientCert.

Inductive pki_error :=
  | ErrProfile (profile : bytes) | ErrMkdir
  | ErrCrypto | ErrGenerate (s : stage)
  | ErrMarshalKey | ErrKeyType
  | ErrWrite (name : bytes)
  | ErrTLSCryptKey | ErrKeyLength
  | ErrRead | ErrParseBack (e : tc_error) | ErrLengthMismatch | ErrByteMismatch (i : nat)
  | ErrCredentials.

Record world := mkWorld { w_uses : nat; w_files : gmap bytes bytes }.

(** [os.WriteFile] fails before it has opened the file, or with part of the data
    written. *)
Inductive write_fault := NotOpened | CutAt (n : nat).

Record disk := mkDisk {
  d_mkdir : bool;
  d_write : bytes -> option write_fault;
  d_read : bytes -> bool;
  d_remove : bool;
}.

Definition cmd (A : Type) : Type := world -> outcome pki_error A * world.

#[export] Instance cmd_ret : MRet cmd := fun _ a w => (Ok a, w).
#[export] Instance cmd_bind : MBind cmd := fun _ _ f m w =>
  match m w with
  | (Ok a, w) => f a w
  | (Err e, w) => (Err e, w)
  | (Panic, w) => (Panic, w)
  end.

Definition fail {A : Type} (e : pki_error) : cmd A := fun w => (Err e, w).

(** [fmt.Errorf] around the error of a call. *)
Definition wrapped {A : Type} (e : pki_error) (m : cmd A) : cmd A := fun w =>
  match m w with (Err _, w) => (Err e, w) | r => r end.

Definition of_option {A : Type} (e : pki_error) (o : option A) : cmd A :=
  match o with Some a => mret a | None => fail e end.

(** One use of the random source or the clock. *)
Definition use {A : Type} (f : nat -> option A) : cmd A := fun w =>
  match f (w_uses w) with
  | Some a => (Ok a, mkWorld (S (w_uses w)) (w_files w))
  | None => (Err ErrCrypto, mkWorld (S (w_uses w)) (w_files w))
  end.

Section generator.
Context `{!Crypto} (dsk : disk).
Notation Certificate := (Certificate pubkey).
Notation Signer := (Signer eckey rsakey).

Definition Public (k : Signer) : option pubkey :=
  match k with SignECDSA k => Some (ec_public k) | SignRSA k => Some (rsa_public k) | SignOther => None end.

(** [os.WriteFile(filepath.Join(outDir, name), data, 0o644)]. *)
Definition WriteFile (name data : bytes) : cmd unit := fun w =>
  match d_write dsk name with
  | None => (Ok tt, mkWorld (w_uses w) (<[name := data]> (w_files w)))
  | Some NotOpened => (Err (ErrWrite name), w)
  | Some (CutAt n) => (Err (ErrWrite name), mkWorld (w_uses w) (<[name := take n data]> (w_files w)))
  end.

Definition ReadFile (name : bytes) : cmd bytes := fun w =>
  if d_read dsk name then
    match w_files w !! name with Some data => (Ok data, w) | None => (Err ErrRead, w) end
  else (Err ErrRead, w).

(** [os.Remove]; its error is dropped. *)
Definition Remove (name : bytes) : cmd unit := fun w =>
  (Ok tt, if d_remove dsk then mkWorld (w_uses w) (delete name (w_files w)) else w).

(** ** Certificates of the two profiles *)

Definition keyID (pub : pubkey) : bytes :=
  match MarshalPKIXPublicKey pub with None => [] | Some der => sha1_Sum der end.

Definition randomSerial : cmd Z := use (fun t => rand_Int t (Z.shiftl 1 128)).

(** [time.Now().Add(d)]. *)
Definition fromNow (d : Z) : cmd Z := use (fun t => Some (time_Now t + d)).

Definition generateECDSACA (cn : bytes) : cmd (eckey * Certificate * bytes) :=
  key ← use ecdsa_GenerateKey;
  serial ← randomSerial;
  notBefore ← fromNow (- hour);
  notAfter ← fromNow certValidity;
  let tmpl := {|
    SerialNumber := serial;
    Subject := mkName cn [] [] [] [] [];
    Issuer := None;
    PublicKey := None;
    NotBefore := notBefore;
    NotAfter := notAfter;
    KeyUsage := Z.lor (Z.lor KeyUsageCertSign KeyUsageCRLSign) KeyUsageDigitalSignature;
    ExtKeyUsages := [];
    BasicConstraintsValid := true;
    IsCA := true;
    MaxPathLen := 0;
    MaxPathLenZero := false;
    SubjectKeyId := keyID (ec_public key);
    AuthorityKeyId := keyID (ec_public key);
    DNSNames := [];
  |} in
  der ← use (fun t => CreateCertificate t tmpl tmpl (ec_public key) (SignECDSA key));
  cert ← of_option ErrCrypto (ParseCertificate der);
  mret (key, cert, der).

Definition generateECDSALeaf (cn : bytes) (ca : Certificate) (caKey : eckey) (eku : ExtKeyUsage)
    : cmd (eckey * bytes) :=
  key ← use ecdsa_GenerateKey;
  serial ← randomSerial;
  notBefore ← fromNow (- hour);
  notAfter ← fromNow certValidity;
  let tmpl := {|
    SerialNumber := serial;
    Subject := mkName cn [] [] [] [] [];
    Issuer := None;
    PublicKey := None;
    NotBefore := notBefore;
    NotAfter := notAfter;
    KeyUsage := KeyUsageDigitalSignature;
    ExtKeyUsages := [eku];
    BasicConstraintsValid := true;
    IsCA := false;
    MaxPathLen := 0;
    MaxPathLenZero := false;
    SubjectKeyId := keyID (ec_public key);
    AuthorityKeyId := SubjectKeyId ca;
    DNSNames := [];
  |} in
  der ← use (fun t => CreateCertificate t tmpl ca (ec_public key) (SignECDSA caKey));
  mret (key, der).

Definition organization : list bytes := [of_string "govpn interop testing harness"].

Definition generateRSACA (cn : bytes) : cmd (rsakey * Certificate * bytes) :=
  key ← use (fun t => rsa_GenerateKey t rsaKeyBits);
  serial ← randomSerial;
  notBefore ← fromNow (- hour);
  notAfter ← fromNow certValidity;
  let tmpl := {|
    SerialNumber := serial;
    Subject := mkName cn organization [largePadding] [of_string "US"] [] [];
    Issuer := None;
    PublicKey := None;
    NotBefore := notBefore;
    NotAfter := notAfter;
    KeyUsage := Z.lor (Z.lor KeyUsageCertSign KeyUsageCRLSign) KeyUsageDigitalSignature;
    ExtKeyUsages := [];
    BasicConstraintsValid := true;
    IsCA := true;
    MaxPathLen := 1;
    MaxPathLenZero := false;
    SubjectKeyId := keyID (rsa_public key);
    AuthorityKeyId := keyID (rsa_public key);
    DNSNames := [];
  |} in
  der ← use (fun t => CreateCertificate t tmpl tmpl (rsa_public key) (SignRSA key));
  cert ← of_option ErrCrypto (ParseCertificate der);
  mret (key, cert, der).

Definition generateRSAIntermediate (cn : bytes) (root : Certificate) (rootKey : rsakey)
    : cmd (rsakey * Certificate * bytes) :=
  key ← use (fun t => rsa_GenerateKey t rsaKeyBits);
  serial ← randomSerial;
  notBefore ← fromNow (- hour);
  notAfter ← fromNow certValidity;
  let tmpl := {|
    SerialNumber := serial;
    Subject := mkName cn organization [largePadding] [of_string "US"] [of_string "Testville"] [of_string "Testland"];
    Issuer := None;
    PublicKey := None;
    NotBefore := notBefore;
    NotAfter := notAfter;
    KeyUsage := Z.lor (Z.lor KeyUsageCertSign KeyUsageCRLSign) KeyUsageDigitalSignature;
    ExtKeyUsages := [];
    BasicConstraintsValid := true;
    IsCA := true;
    MaxPathLen := 0;
    MaxPathLenZero := true;
    SubjectKeyId := keyID (rsa_public key);
    AuthorityKeyId := SubjectKeyId root;
    DNSNames := [];
  |} in
  der ← use (fun t => CreateCertificate t tmpl root (rsa_public key) (SignRSA rootKey));
  cert ← of_option ErrCrypto (ParseCertificate der);
  mret (key, cert, der).

Definition generateRSALeaf (cn : bytes) (parent : Certificate) (parentKey : rsakey) (eku : ExtKeyUsage)
    : cmd (rsakey * bytes) :=
  key ← use (fun t => rsa_GenerateKey t rsaKeyBits);
  serial ← randomSerial;
  notBefore ← fromNow (- hour);
  notAfter ← fromNow certValidity;
  let tmpl := {|
    SerialNumber := serial;
    Subject := mkName cn organization [largePadding] [of_string "US"] [of_string "Testville"] [of_string "Testland"];
    Issuer := None;
    PublicKey := None;
    NotBefore := notBefore;
    NotAfter := notAfter;
    KeyUsage := Z.lor KeyUsageDigitalSignature KeyUsageKeyEncipherment;
    ExtKeyUsages := [eku];
    BasicConstraintsValid := true;
    IsCA := false;
    MaxPathLen := 0;
    MaxPathLenZero := false;
    SubjectKeyId := keyID (rsa_public key);
    AuthorityKeyId := SubjectKeyId parent;
    DNSNames := [serverAlias; of_string "govpn-interop-server.interop"; of_string "localhost"];
  |} in
  der ← use (fun t => CreateCertificate t tmpl parent (rsa_public key) (SignRSA parentKey));
  mret (key, der).

(** ** Files *)

Definition file (name : string) : bytes := of_string name.

Definition writeCert (name der : bytes) : cmd unit := WriteFile name (pem_encode (of_string "CERTIFICATE") der).

Definition writeKey (name : bytes) (key : Signer) : cmd unit :=
  match key with
  | SignECDSA k =>
      der ← of_option ErrMarshalKey (MarshalECPrivateKey k);
      WriteFile name (pem_encode (of_string "EC PRIVATE KEY") der)
  | SignRSA k => WriteFile name (pem_encode (of_string "RSA PRIVATE KEY") (MarshalPKCS1PrivateKey k))
  | SignOther => fail ErrKeyType
  end.

(** The text of a static key file; [hex.EncodeToString] is [hexEncode]. *)
Definition staticKeyText (raw : bytes) : bytes :=
  let hexBody := hexEncode raw in
  staticKeyHead ++ [10] ++ wrap_lines (length hexBody) 32 hexBody ++ staticKeyFoot ++ [10].

Definition writeStaticKeyV1 (name raw : bytes) : cmd unit :=
  if negb (zlen raw =? 256) then fail ErrKeyLength else WriteFile name (staticKeyText raw).

(** The first index at which [got] differs from [want], of the same length. *)
Fixpoint first_difference (i : nat) (got want : bytes) : option nat :=
  match got, want with
  | g :: got, x :: want => if negb (g =? x) then Some i else first_difference (S i) got want
  | _, _ => None
  end.

Definition verifyStaticKeyV1RoundTrip (name want : bytes) : cmd unit :=
  data ← ReadFile name;
  match ParseStaticKeyV1 data with
  | Panic => fun w => (Panic, w)
  | Err e => fail (ErrParseBack e)
  | Ok got =>
      if negb (zlen got =? zlen want) then fail ErrLengthMismatch else
      match first_difference 0 got want with Some i => fail (ErrByteMismatch i) | None => mret tt end
  end.

(** The lines of [client.conf]. *)
Definition client_conf (extraDirectives : list bytes) (includeClientCert : bool) (credentialsFile : bytes) : list bytes :=
  map of_string ["client"; "dev tun"; "proto udp"]%string ++
  [of_string "remote " ++ serverAlias ++ [32] ++ itoa serverPort] ++
  map of_string ["resolv-retry infinite"; "nobind"; "persist-key"; "persist-tun"; "remote-cert-tls server"]%string ++
  [of_string "ca " ++ pkiMountPoint ++ of_string "/ca.crt"] ++
  (if includeClientCert
   then [of_string "cert " ++ pkiMountPoint ++ of_string "/client.crt"; of_string "key " ++ pkiMountPoint ++ of_string "/client.key"]
   else []) ++
  [of_string "tls-crypt " ++ pkiMountPoint ++ of_string "/tls-crypt.key"] ++
  map of_string ["topology subnet"; "cipher AES-256-GCM"; "verb 4"]%string ++
  (if negb (bool_decide (credentialsFile = [])) then [of_string "auth-user-pass " ++ credentialsFile] else []) ++
  extraDirectives.

Definition ended_lines (ls : list bytes) : bytes := concat (map (fun l => l ++ [10]) ls).

Definition writeClientConf (name : bytes) (extraDirectives : list bytes) (includeClientCert : bool) (credentialsFile : bytes) : cmd unit :=
  WriteFile name (ended_lines (client_conf extraDirectives includeClientCert credentialsFile)).

(** [strings.IndexByte]. *)
Fixpoint IndexByte (s : bytes) (c : Z) : option nat :=
  match s with
  | [] => None
  | x :: s => if x =? c then Some O else S <$> IndexByte s c
  end.

(** ** The command *)

(** The [switch] over the profiles: the server's certificate, its key, and the
    client's. *)
Definition issueSmall : cmd (bytes * Signer * (bytes * Signer)) :=
  '(caKey, caCert, caDER) ← wrapped (ErrGenerate CA) (generateECDSACA (of_string "govpn-interop-CA"));
  writeCert (file "ca.crt") caDER;;
  '(serverKey, serverDER) ← wrapped (ErrGenerate ServerCert)
     (generateECDSALeaf (of_string "govpn-interop-server") caCert caKey ExtKeyUsageServerAuth);
  '(clientKey, clientDER) ← wrapped (ErrGenerate ClientCert)
     (generateECDSALeaf (of_string "govpn-interop-client") caCert caKey ExtKeyUsageClientAuth);
  mret (serverDER, SignECDSA serverKey, (clientDER, SignECDSA clientKey)).

Definition issueLarge : cmd (bytes * Signer * (bytes * Signer)) :=
  '(rootKey, caCert, caDER) ← wrapped (ErrGenerate RootCA) (generateRSACA (of_string "govpn-interop-root-ca"));
  writeCert (file "ca.crt") caDER;;
  '(intKey, intCert, intDER) ← wrapped (ErrGenerate IntermediateCA)
     (generateRSAIntermediate (of_string "govpn-interop-intermediate-ca") caCert rootKey);
  writeCert (file "intermediate.crt") intDER;;
  '(serverKey, serverDER) ← wrapped (ErrGenerate ServerCert)
     (generateRSALeaf (of_string "govpn-interop-server") intCert intKey ExtKeyUsageServerAuth);
  '(clientKey, clientDER) ← wrapped (ErrGenerate ClientCert)
     (generateRSALeaf (of_string "govpn-interop-client") caCert rootKey ExtKeyUsageClientAuth);
  mret (serverDER, SignRSA serverKey, (clientDER, SignRSA clientKey)).

(** The tls-crypt key and its self-check. *)
Definition writeTLSCryptKey : cmd unit :=
  tlsCryptKey ← wrapped ErrTLSCryptKey (use (fun t => rand_Read t 256));
  writeStaticKeyV1 (file "tls-crypt.key") tlsCryptKey;;
  verifyStaticKeyV1RoundTrip (file "tls-crypt.key") tlsCryptKey.

(** The name the client is to find the credentials at; empty without any. *)
Definition writeCredentials (credentials : bytes) : cmd bytes :=
  if bool_decide (credentials = []) then mret [] else
  match IndexByte credentials 58 with
  | None => fail ErrCredentials
  | Some idx =>
      let username := take idx credentials in
      let password := drop (S idx) credentials in
      WriteFile (file "credentials") (username ++ [10] ++ password ++ [10]);;
      mret (pkiMountPoint ++ of_string "/credentials")
  end.

Definition run (profile : bytes) (clientDirectives : list bytes) (noClientCert : bool) (credentials : bytes) : cmd unit :=
  if negb (bool_decide (profile = profileSmall)) && negb (bool_decide (profile = profileLarge)) then fail (ErrProfile profile) else
  if negb (d_mkdir dsk) then fail ErrMkdir else
  '(serverDER, serverKey, (clientDER, clientKey)) ← (if bool_decide (profile = profileSmall) then issueSmall else issueLarge);
  writeCert (file "server.crt") serverDER;;
  writeKey (file "server.key") serverKey;;
  writeCert (file "client.crt") clientDER;;
  writeKey (file "client.key") clientKey;;
  (if bool_decide (profile = profileSmall) then Remove (file "intermediate.crt") else mret tt);;
  writeTLSCryptKey;;
  credentialsFile ← writeCredentials credentials;
  writeClientConf (file "client.conf") clientDirectives (negb noClientCert) credentialsFile.

(** [main]'s exit status after the flags are parsed. *)
Definition main (profile : bytes) (directives : list bytes) (noClientCert : bool) (credentials : bytes) (w : world) : Z * world :=
  match run profile directives noClientCert credentials w with
  | (Ok _, w) => (0, w)
  | (Err _, w) => (1, w)
  | (Panic, w) => (2, w)
  end.

(** The repeatable flag. *)
Definition clientDirectiveFlag : Type := list bytes.
Definition Set_ (f : clientDirectiveFlag) (v : bytes) : clientDirectiveFlag := f ++ [v].
Definition String_ (f : option clientDirectiveFlag) : bytes :=
  match f with None => [] | Some f => join 44 f end.

End generator.
(** ** Reasoning about commands *)

(** Whenever the command returns, it returns such a value in such a world. *)
Definition returns {A : Type} (m : cmd A) (w : world) (Q : A -> world -> Prop) : Prop :=
  forall a w', m w = (Ok a, w') -> Q a w'.

Lemma returns_ret {A : Type} (a : A) (w : world) (Q : A -> world -> Prop) : Q a w -> returns (mret a) w Q.
Proof. by intros H ? ? [= <- <-]. Qed.

Lemma returns_bind {A B : Type} (m : cmd A) (f : A -> cmd B) (w : world) (Q : B -> world -> Prop) :
  returns m w (fun a w1 => returns (f a) w1 Q) -> returns (m ≫= f) w Q.
Proof.
  intros H b w'. unfold mbind, cmd_bind. destruct (m w) as [[a|e|] w1] eqn:E; [|done..]. by apply H.
Qed.

Lemma returns_mono {A : Type} (m : cmd A) (w : world) (Q Q' : A -> world -> Prop) :
  returns m w Q -> (forall a w', Q a w' -> Q' a w') -> returns m w Q'.
Proof. intros H HQ a w' E. by apply HQ, H. Qed.

Lemma returns_fail {A : Type} (e : pki_error) (w : world) (Q : A -> world -> Prop) : returns (fail e) w Q.
Proof. by intros a w'. Qed.

Lemma returns_wrapped {A : Type} (e : pki_error) (m : cmd A) (w : world) (Q : A -> world -> Prop) :
  returns m w Q -> returns (wrapped e m) w Q.
Proof. intros H a w'. unfold wrapped. destruct (m w) as [[] ?] eqn:E; [|done..]. intros [= <- <-]. by apply H. Qed.

Lemma returns_option {A : Type} (e : pki_error) (o : option A) (w : world) (Q : A -> world -> Prop) :
  (forall a, o = Some a -> Q a w) -> returns (of_option e o) w Q.
Proof. intros H. destruct o; [by apply returns_ret, H|apply returns_fail]. Qed.

Lemma returns_use {A : Type} (f : nat -> option A) (w : world) (Q : A -> world -> Prop) :
  (forall n a w', f n = Some a -> w_files w' = w_files w -> Q a w') -> returns (use f) w Q.
Proof. intros H a w'. unfold use. destruct (f (w_uses w)) as [x|] eqn:E; [|done]. intros [= <- <-]. by apply (H (w_uses w)). Qed.

Lemma returns_write (dsk : disk) (name data : bytes) (w : world) (Q : unit -> world -> Prop) :
  Q tt (mkWorld (w_uses w) (<[name := data]> (w_files w))) -> returns (WriteFile dsk name data) w Q.
Proof. intros H [] w'. unfold WriteFile. destruct (d_write dsk name) as [[|n]|]; [done..|]. by intros [= <-]. Qed.

Lemma returns_read (dsk : disk) (name : bytes) (w : world) (Q : bytes -> world -> Prop) :
  (forall data, w_files w !! name = Some data -> Q data w) -> returns (ReadFile dsk name) w Q.
Proof.
  intros H a w'. unfold ReadFile. destruct (d_read dsk name); [|done]. destruct (w_files w !! name) eqn:E; [|done].
  intros [= <- <-]. by apply H.
Qed.

Lemma returns_remove (dsk : disk) (name : bytes) (w : world) (Q : unit -> world -> Prop) :
  Q tt (if d_remove dsk then mkWorld (w_uses w) (delete name (w_files w)) else w) -> returns (Remove dsk name) w Q.
Proof. by intros H [] w' [= <-]. Qed.

Create HintDb command.
#[local] Hint Resolve returns_ret returns_fail : command.

(** One command of a sequence after the other. *)
Ltac step_cmd :=
  first [ apply returns_bind | apply returns_wrapped | apply returns_use; intros ? ? ? ? ? | apply returns_option; intros ? ?
        | apply returns_read; intros ? ? | apply returns_write | apply returns_remove | apply returns_ret ].

(** ** What x509 does with a template *)

(** The documented fields of a certificate created from [tmpl] under [parent]; times
    are kept to the second. *)
Record from_template {pk : Type} (tmpl parent : Certificate pk) (pub : pk) (cert : Certificate pk) : Prop := {
  ft_subject : Subject cert = Subject tmpl;
  ft_issuer : Issuer cert = Some (Subject parent);
  ft_key : PublicKey cert = Some pub;
  ft_before : NotBefore cert = NotBefore tmpl / second * second;
  ft_after : NotAfter cert = NotAfter tmpl / second * second;
  ft_usage : KeyUsage cert = KeyUsage tmpl;
  ft_extended : ExtKeyUsages cert = ExtKeyUsages tmpl;
  ft_basic : BasicConstraintsValid cert = BasicConstraintsValid tmpl;
  ft_ca : IsCA cert = IsCA tmpl;
  ft_path : MaxPathLen cert = if (MaxPathLen tmpl =? 0) && negb (MaxPathLenZero tmpl) then -1 else MaxPathLen tmpl;
  ft_ski : SubjectKeyId tmpl <> [] -> SubjectKeyId cert = SubjectKeyId tmpl;
  ft_aki : AuthorityKeyId cert =
    if bool_decide (Subject tmpl = Subject parent) || bool_decide (SubjectKeyId parent = []) then AuthorityKeyId tmpl
    else SubjectKeyId parent;
  ft_names : DNSNames cert = DNSNames tmpl;
}.

(** [signed der pk]: the signature of the certificate verifies under [pk]. *)
Class CryptoLaws `{!Crypto} := {
  signed : bytes -> pubkey -> Prop;
  CreateCertificate_parses : forall t tmpl parent pub priv der,
    CreateCertificate t tmpl parent pub priv = Some der ->
    exists cert, ParseCertificate der = Some cert /\ from_template tmpl parent pub cert;
  CreateCertificate_signs : forall t tmpl parent pub priv der pk,
    CreateCertificate t tmpl parent pub priv = Some der -> Public priv = Some pk -> signed der pk;
  rand_Read_fills : forall t n b, rand_Read t n = Some b -> zlen b = n /\ bytes_ok b;
}.

(** ** Certificate paths *)

Section paths.
Context `{!Crypto} `{!CryptoLaws}.
Notation Certificate := (Certificate pubkey).
Notation Signer := (Signer eckey rsakey).

(** RFC 5280: [cert], with DER form [der], is one that [parent] may issue and has signed;
    [depth] is the number of CA certificates between it and the end entity. *)
Record issued_by (depth : Z) (parent cert : Certificate) (der : bytes) : Prop := {
  ib_name : Issuer cert = Some (Subject parent);
  ib_signature : exists pk, PublicKey parent = Some pk /\ signed der pk;
  ib_ca : BasicConstraintsValid parent = true /\ IsCA parent = true;
  ib_usage : Z.land (KeyUsage parent) KeyUsageCertSign <> 0;
  ib_depth : MaxPathLen parent = -1 \/ depth <= MaxPathLen parent;
  ib_keyid : AuthorityKeyId cert = SubjectKeyId parent;
}.

(** A path from an end entity up to a self-signed root. *)
Fixpoint path_valid (depth : Z) (path : list (bytes * Certificate)) : Prop :=
  match path with
  | [] => False
  | (der, c) :: rest =>
      ParseCertificate der = Some c /\
      match rest with
      | [] => Issuer c = Some (Subject c) /\ exists pk, PublicKey c = Some pk /\ signed der pk
      | (_, parent) :: _ => issued_by depth parent c der /\ path_valid (depth + 1) rest
      end
  end.

(** Valid whenever the clock readings of the run lie between a day (but for a second)
    before and an hour after [now]. *)
Definition fresh (c : Certificate) : Prop :=
  forall now, (forall t, now - certValidity + second <= time_Now t <= now + hour) -> NotBefore c <= now <= NotAfter c.

Definition end_entity (eku : ExtKeyUsage) (c : Certificate) : Prop :=
  IsCA c = false /\ ExtKeyUsages c = [eku] /\ Z.land (KeyUsage c) KeyUsageDigitalSignature <> 0.

(** A certificate authority and its key. *)
Record authority (c : Certificate) (key : Signer) : Prop := {
  au_key : exists pk, Public key = Some pk /\ PublicKey c = Some pk;
  au_ca : BasicConstraintsValid c = true /\ IsCA c = true;
  au_usage : Z.land (KeyUsage c) KeyUsageCertSign <> 0;
}.

Lemma fresh_template (tmpl parent : Certificate) (pub : pubkey) (cert : Certificate) (t1 t2 : nat) :
  from_template tmpl parent pub cert -> NotBefore tmpl = time_Now t1 + - hour -> NotAfter tmpl = time_Now t2 + certValidity -> fresh cert.
Proof.
  intros F E1 E2 now Hnow. rewrite (ft_before _ _ _ _ F), (ft_after _ _ _ _ F), E1, E2.
  pose proof (Hnow t1). pose proof (Hnow t2). change second with 1000000000 in *. Z.to_euclidean_division_equations. lia.
Qed.

(** What an authority creates it has issued. *)
Lemma create_issued (t : nat) (tmpl parent : Certificate) (pub : pubkey) (priv : Signer) (der : bytes) (depth : Z) :
  CreateCertificate t tmpl parent pub priv = Some der -> AuthorityKeyId tmpl = SubjectKeyId parent -> authority parent priv ->
  MaxPathLen parent = -1 \/ depth <= MaxPathLen parent ->
  exists cert, ParseCertificate der = Some cert /\ from_template tmpl parent pub cert /\ issued_by depth parent cert der.
Proof.
  intros HC Ha [(pk & K1 & K2) A2 A3] Hd. destruct (CreateCertificate_parses _ _ _ _ _ _ HC) as (cert & Hp & F).
  exists cert. split; [done|]. split; [done|]. constructor; try done; [apply (ft_issuer _ _ _ _ F)|exists pk; split; [done|]; by eapply CreateCertificate_signs|].
  rewrite (ft_aki _ _ _ _ F), Ha. by destruct (_ || _).
Qed.

(** A self-signed root. *)
Lemma create_root (t : nat) (tmpl : Certificate) (pub : pubkey) (priv : Signer) (der : bytes) (cert : Certificate) :
  CreateCertificate t tmpl tmpl pub priv = Some der -> ParseCertificate der = Some cert -> Public priv = Some pub ->
  BasicConstraintsValid tmpl = true -> IsCA tmpl = true -> Z.land (KeyUsage tmpl) KeyUsageCertSign <> 0 ->
  from_template tmpl tmpl pub cert /\ authority cert priv /\ path_valid 0 [(der, cert)] /\ forall d, path_valid d [(der, cert)].
Proof.
  intros HC Hp Hk Hb Hca Hu. destruct (CreateCertificate_parses _ _ _ _ _ _ HC) as (cert' & Hp' & F).
  rewrite Hp in Hp'. injection Hp' as <-.
  assert (Hr : forall d, path_valid d [(der, cert)]).
  { intros d. split; [done|]. split; [rewrite (ft_issuer _ _ _ _ F), (ft_subject _ _ _ _ F); done|].
    exists pub. split; [apply (ft_key _ _ _ _ F)|]. by eapply CreateCertificate_signs. }
  split; [done|]. split; [|by split]. constructor.
  - exists pub. split; [done|]. apply (ft_key _ _ _ _ F).
  - by rewrite (ft_basic _ _ _ _ F), (ft_ca _ _ _ _ F).
  - by rewrite (ft_usage _ _ _ _ F).
Qed.

(** ** The five kinds of certificates *)

(** A root and its key; [maxLen] is its path length constraint. *)
Definition root_of (maxLen : Z) (key : Signer) (cert : Certificate) (der : bytes) : Prop :=
  authority cert key /\ MaxPathLen cert = maxLen /\ fresh cert /\ forall d, path_valid d [(der, cert)].

Definition leaf_of (parent : Certificate) (eku : ExtKeyUsage) (key : Signer) (der : bytes) : Prop :=
  exists cert, ParseCertificate der = Some cert /\ issued_by 0 parent cert der /\ end_entity eku cert /\ fresh cert /\
    PublicKey cert = Public key.

(** What an authority creates from a template of an end entity. *)
Lemma create_leaf (t t1 t2 : nat) (tmpl parent : Certificate) (pub : pubkey) (priv key : Signer) (der : bytes) (eku : ExtKeyUsage) :
  CreateCertificate t tmpl parent pub priv = Some der -> AuthorityKeyId tmpl = SubjectKeyId parent -> authority parent priv ->
  MaxPathLen parent = -1 \/ 0 <= MaxPathLen parent -> end_entity eku tmpl ->
  NotBefore tmpl = time_Now t1 + - hour -> NotAfter tmpl = time_Now t2 + certValidity -> Public key = Some pub ->
  leaf_of parent eku key der.
Proof.
  intros HC Ha Hp Hd (E1 & E2 & E3) Hb Hn Hk. destruct (create_issued _ _ _ _ _ _ 0 HC Ha Hp Hd) as (cert & HP & F & Hi).
  exists cert. split; [done|]. split; [done|]. split; [|split; [by apply (fresh_template _ _ _ _ _ _ F Hb Hn)|by rewrite Hk, (ft_key _ _ _ _ F)]].
  unfold end_entity. by rewrite (ft_ca _ _ _ _ F), (ft_extended _ _ _ _ F), (ft_usage _ _ _ _ F).
Qed.

(** A condition on a template that is written out. *)
Ltac by_template := first [assumption | reflexivity | vm_compute; discriminate | split_and!; [reflexivity|reflexivity|vm_compute; discriminate]].

Ltac generator := unfold randomSerial, fromNow; repeat (step_cmd; cbn beta zeta).

Lemma generateECDSACA_spec (cn : bytes) (w : world) :
  returns (generateECDSACA cn) w (fun '(key, cert, der) w' => w_files w' = w_files w /\ root_of (-1) (SignECDSA key) cert der).
Proof.
  unfold generateECDSACA. generator. split; [congruence|].
  match goal with HC : CreateCertificate _ ?tmpl _ _ _ = Some _, HP : ParseCertificate _ = Some _ |- _ =>
    destruct (create_root _ _ _ _ _ _ HC HP) as (F & Hauth & _ & Hr); try done end.
  split; [done|]. split; [apply (ft_path _ _ _ _ F)|]. split; [|done].
  repeat match goal with H : Some _ = Some _ |- _ => injection H as <- end. by eapply (fresh_template _ _ _ _ _ _ F).
Qed.

Lemma generateRSACA_spec (cn : bytes) (w : world) :
  returns (generateRSACA cn) w (fun '(key, cert, der) w' => w_files w' = w_files w /\ root_of 1 (SignRSA key) cert der).
Proof.
  unfold generateRSACA. generator. split; [congruence|].
  match goal with HC : CreateCertificate _ ?tmpl _ _ _ = Some _, HP : ParseCertificate _ = Some _ |- _ =>
    destruct (create_root _ _ _ _ _ _ HC HP) as (F & Hauth & _ & Hr); try done end.
  split; [done|]. split; [apply (ft_path _ _ _ _ F)|]. split; [|done].
  repeat match goal with H : Some _ = Some _ |- _ => injection H as <- end. by eapply (fresh_template _ _ _ _ _ _ F).
Qed.

Lemma generateECDSALeaf_spec (cn : bytes) (ca : Certificate) (caKey : eckey) (eku : ExtKeyUsage) (w : world) :
  authority ca (SignECDSA caKey) -> MaxPathLen ca = -1 \/ 0 <= MaxPathLen ca ->
  returns (generateECDSALeaf cn ca caKey eku) w (fun '(key, der) w' => w_files w' = w_files w /\ leaf_of ca eku (SignECDSA key) der).
Proof.
  intros Ha Hd. unfold generateECDSALeaf. generator. split; [congruence|].
  repeat match goal with H : Some _ = Some _ |- _ => injection H as <- end.
  match goal with HC : CreateCertificate _ _ _ _ _ = Some _ |- _ => eapply create_leaf; [exact HC|..]; by_template end.
Qed.

Lemma generateRSALeaf_spec (cn : bytes) (parent : Certificate) (parentKey : rsakey) (eku : ExtKeyUsage) (w : world) :
  authority parent (SignRSA parentKey) -> MaxPathLen parent = -1 \/ 0 <= MaxPathLen parent ->
  returns (generateRSALeaf cn parent parentKey eku) w (fun '(key, der) w' => w_files w' = w_files w /\ leaf_of parent eku (SignRSA key) der).
Proof.
  intros Ha Hd. unfold generateRSALeaf. generator. split; [congruence|].
  repeat match goal with H : Some _ = Some _ |- _ => injection H as <- end.
  match goal with HC : CreateCertificate _ _ _ _ _ = Some _ |- _ => eapply create_leaf; [exact HC|..]; by_template end.
Qed.

Lemma generateRSAIntermediate_spec (cn : bytes) (root : Certificate) (rootKey : rsakey) (w : world) :
  authority root (SignRSA rootKey) -> MaxPathLen root = 1 ->
  returns (generateRSAIntermediate cn root rootKey) w (fun '(key, cert, der) w' =>
    w_files w' = w_files w /\ authority cert (SignRSA key) /\ MaxPathLen cert = 0 /\ fresh cert /\
    ParseCertificate der = Some cert /\ issued_by 1 root cert der).
Proof.
  intros Ha Hd. unfold generateRSAIntermediate. generator. split; [congruence|].
  match goal with HC : CreateCertificate _ ?tmpl _ _ _ = Some _, HP : ParseCertificate _ = Some ?c |- _ =>
    destruct (create_issued _ _ _ _ _ _ 1 HC) as (cert & Hp & F & Hi); try done; [right; lia|];
    rewrite HP in Hp; injection Hp as <- end.
  split_and!; try done.
  - constructor.
    + eexists. split; [done|]. apply (ft_key _ _ _ _ F).
    + by rewrite (ft_basic _ _ _ _ F), (ft_ca _ _ _ _ F).
    + by rewrite (ft_usage _ _ _ _ F).
  - apply (ft_path _ _ _ _ F).
  - repeat match goal with H : Some _ = Some _ |- _ => injection H as <- end. by eapply (fresh_template _ _ _ _ _ _ F).
Qed.

End paths.

(** ** The static key file *)

Lemma wrap_lines_forall (P : Z -> Prop) (fuel n : nat) (s : bytes) : P 10 -> Forall P s -> Forall P (wrap_lines fuel n s).
Proof.
  intros Hn. revert s. induction fuel as [|fuel IH]; intros s Hs; [by constructor|]. cbn [wrap_lines]. destruct s as [|c s]; [by constructor|].
  repeat (apply Forall_app; split); [by apply Forall_take|by repeat constructor|by apply IH, Forall_drop].
Qed.

(** Dropping the line ends gives the text back. *)
Lemma wrap_lines_filter (f : Z -> bool) (fuel n : nat) (s : bytes) :
  f 10 = false -> Forall (fun c => f c = true) s -> (0 < n)%nat -> (length s <= fuel)%nat ->
  List.filter f (wrap_lines fuel n s) = s.
Proof.
  intros Hf. revert s. induction fuel as [|fuel IH]; intros s Hs Hn Hl; [by destruct s; [|cbn in Hl; lia]|].
  destruct (decide (s = [])) as [->|Hne]; [done|].
  replace (wrap_lines (S fuel) n s) with (take n s ++ [10] ++ wrap_lines fuel n (drop n s)) by (by destruct s).
  rewrite !List.filter_app, IH; try done.
  - cbn [List.filter]. rewrite Hf. cbn [app].
    assert (Hid : forall l, Forall (fun c => f c = true) l -> List.filter f l = l).
    { intros l. induction 1 as [|x l Hx _ IHl]; [done|]. cbn. by rewrite Hx, IHl. }
    rewrite Hid by (by apply Forall_take). apply take_drop.
  - by apply Forall_drop.
  - rewrite length_drop. lia.
Qed.

Lemma hexEncode_digits (raw : bytes) : bytes_ok raw -> Forall (fun c => isHexDigit c = true) (hexEncode raw).
Proof.
  assert (Hd : forall v, 0 <= v < 16 -> isHexDigit (hexDigit v) = true).
  { intros v Hv. unfold hexDigit, isHexDigit. destruct (Z.ltb_spec v 10); lia. }
  induction 1 as [|b raw Hb _ IH]; [constructor|]. change (hexEncode (b :: raw)) with (hexDigit (b / 16) :: hexDigit (b mod 16) :: hexEncode raw).
  repeat (apply Forall_cons; split); [apply Hd; word_lia|apply Hd; word_lia|done].
Qed.

(** The parser of the library reads the file that the generator writes. *)
Lemma staticKeyText_parses (raw : bytes) :
  bytes_ok raw -> zlen raw = 256 -> ParseStaticKeyV1 (staticKeyText raw) = Ok raw.
Proof.
  intros Hok Hl. set (body := wrap_lines (length (hexEncode raw)) 32 (hexEncode raw)).
  pose proof (hexEncode_digits raw Hok) as Hd.
  assert (Hb : Forall (fun c => isHexDigit c || isKeySpace c = true) body).
  { apply wrap_lines_forall; [done|]. eapply Forall_impl; [exact Hd|]. by intros c ->. }
  assert (Hf : List.filter isHexDigit body = hexEncode raw) by (apply wrap_lines_filter; done || lia).
  apply (ParseStaticKeyV1_layout [] ([10] ++ body) [10] raw Hok Hl); [apply not_elem_of_nil| |done].
  by apply Forall_cons.
Qed.

Lemma first_difference_refl (i : nat) (l : bytes) : first_difference i l l = None.
Proof. revert i. induction l as [|x l IH]; intros i; [done|]. cbn. rewrite Z.eqb_refl. apply IH. Qed.

Section outputs.
Context `{!Crypto} (dsk : disk).
Notation Certificate := (Certificate pubkey).
Notation Signer := (Signer eckey rsakey).

Lemma verify_ok (name raw : bytes) (w : world) :
  bytes_ok raw -> zlen raw = 256 -> d_read dsk name = true -> w_files w !! name = Some (staticKeyText raw) ->
  verifyStaticKeyV1RoundTrip dsk name raw w = (Ok tt, w).
Proof.
  intros Hok Hl Hr Hf. unfold verifyStaticKeyV1RoundTrip, mbind, cmd_bind, ReadFile. rewrite Hr, Hf, staticKeyText_parses by done.
  by rewrite Z.eqb_refl, first_difference_refl.
Qed.

(** The static key file: a key of 256 bytes is written in a form that the library's
    own parser reads back to the same bytes, so the generator's self-check passes
    whenever the file system lets it write and read the file; a key of any other
    length is refused and nothing is written. *)
Theorem static_key_file (name raw : bytes) (w : world) :
  bytes_ok raw -> d_write dsk name = None -> d_read dsk name = true ->
  (writeStaticKeyV1 dsk name raw ;; verifyStaticKeyV1RoundTrip dsk name raw) w =
    (if zlen raw =? 256 then (Ok tt, mkWorld (w_uses w) (<[name := staticKeyText raw]> (w_files w))) else (Err ErrKeyLength, w)) /\
  (zlen raw = 256 -> ParseStaticKeyV1 (staticKeyText raw) = Ok raw).
Proof.
  intros Hok Hw Hr. split; [|by intros; apply staticKeyText_parses]. unfold writeStaticKeyV1, mbind, cmd_bind at 1.
  destruct (Z.eqb_spec (zlen raw) 256) as [Hl|]; [|done]. cbn [negb]. unfold WriteFile. rewrite Hw.
  apply verify_ok; try done. cbn. apply lookup_insert_eq.
Qed.
(** ** What a run leaves behind *)

Definition cert_pem (der : bytes) : bytes := pem_encode (of_string "CERTIFICATE") der.

Definition key_pem (key : Signer) : option bytes :=
  match key with
  | SignECDSA k => pem_encode (of_string "EC PRIVATE KEY") <$> MarshalECPrivateKey k
  | SignRSA k => Some (pem_encode (of_string "RSA PRIVATE KEY") (MarshalPKCS1PrivateKey k))
  | SignOther => None
  end.

(** The file of the output directory that a line of the configuration refers to. *)
Definition reference (line : bytes) : option bytes :=
  match split_on 32 line with
  | [directive; path] =>
      if bool_decide (directive ∈ map of_string ["ca"; "cert"; "key"; "tls-crypt"; "auth-user-pass"]%string)
      then cut_prefix (pkiMountPoint ++ of_string "/") path else None
  | _ => None
  end.

(** The names a run may write. *)
Definition names : list bytes :=
  map file ["ca.crt"; "intermediate.crt"; "server.crt"; "server.key"; "client.crt"; "client.key"; "tls-crypt.key";
            "credentials"; "client.conf"]%string.

Context `{!CryptoLaws}.

(** The certificates of a run: the root, the intermediate if there is one, and the two
    end entities with their keys. *)
Record issued := mkIssued {
  i_root : bytes * Certificate;
  i_inter : option (bytes * Certificate);
  i_server : bytes * Certificate;
  i_serverKey : Signer;
  i_client : bytes * Certificate;
  i_clientKey : Signer;
}.

Definition server_path (i : issued) : list (bytes * Certificate) := i_server i :: option_list (i_inter i) ++ [i_root i].
Definition client_path (i : issued) : list (bytes * Certificate) := [i_client i; i_root i].

Record issued_ok (i : issued) : Prop := {
  io_server_path : path_valid 0 (server_path i);
  io_client_path : path_valid 0 (client_path i);
  io_server : end_entity ExtKeyUsageServerAuth (i_server i).2;
  io_client : end_entity ExtKeyUsageClientAuth (i_client i).2;
  io_fresh : Forall (fun c => fresh c.2) (i_client i :: server_path i);
  io_serverKey : PublicKey (i_server i).2 = Public (i_serverKey i);
  io_clientKey : PublicKey (i_client i).2 = Public (i_clientKey i);
}.

Lemma issueSmall_spec (w : world) :
  returns (issueSmall dsk) w (fun '(serverDER, serverKey, (clientDER, clientKey)) w' =>
    exists i, issued_ok i /\ i_inter i = None /\ (i_server i).1 = serverDER /\ i_serverKey i = serverKey /\
      (i_client i).1 = clientDER /\ i_clientKey i = clientKey /\
      w_files w' = <[file "ca.crt" := cert_pem (i_root i).1]> (w_files w)).
Proof.
  unfold issueSmall, writeCert. step_cmd. step_cmd. eapply returns_mono; [apply generateECDSACA_spec|].
  intros [[caKey ca] caDER] w1 (Hw1 & Hauth & Hmax & Hfr & Hroot). step_cmd. step_cmd.
  step_cmd. step_cmd. eapply returns_mono; [apply generateECDSALeaf_spec; [done|by left]|].
  intros [serverKey serverDER] w2 (Hw2 & sc & S1 & S2 & S3 & S4 & S5).
  step_cmd. step_cmd. eapply returns_mono; [apply generateECDSALeaf_spec; [done|by left]|].
  intros [clientKey clientDER] w3 (Hw3 & cc & C1 & C2 & C3 & C4 & C5). apply returns_ret.
  exists (mkIssued (caDER, ca) None (serverDER, sc) (SignECDSA serverKey) (clientDER, cc) (SignECDSA clientKey)).
  split; [|split_and!; try done; cbn in *; congruence].
  constructor; try done. by repeat (apply Forall_cons; split).
Qed.

Lemma issueLarge_spec (w : world) :
  returns (issueLarge dsk) w (fun '(serverDER, serverKey, (clientDER, clientKey)) w' =>
    exists i intDER, issued_ok i /\ fst <$> i_inter i = Some intDER /\ (i_server i).1 = serverDER /\ i_serverKey i = serverKey /\
      (i_client i).1 = clientDER /\ i_clientKey i = clientKey /\
      w_files w' = <[file "intermediate.crt" := cert_pem intDER]> (<[file "ca.crt" := cert_pem (i_root i).1]> (w_files w))).
Proof.
  unfold issueLarge, writeCert. step_cmd. step_cmd. eapply returns_mono; [apply generateRSACA_spec|].
  intros [[caKey ca] caDER] w1 (Hw1 & Hauth & Hmax & Hfr & Hroot). step_cmd. step_cmd.
  step_cmd. step_cmd. eapply returns_mono; [by apply generateRSAIntermediate_spec|].
  intros [[intKey ic] intDER] w2 (Hw2 & I1 & I2 & I3 & I4 & I5). step_cmd. step_cmd.
  step_cmd. step_cmd. eapply returns_mono; [apply generateRSALeaf_spec; [done|right; lia]|].
  intros [serverKey serverDER] w3 (Hw3 & sc & S1 & S2 & S3 & S4 & S5).
  step_cmd. step_cmd. eapply returns_mono; [apply generateRSALeaf_spec; [done|right; lia]|].
  intros [clientKey clientDER] w4 (Hw4 & cc & C1 & C2 & C3 & C4 & C5). apply returns_ret.
  exists (mkIssued (caDER, ca) (Some (intDER, ic)) (serverDER, sc) (SignRSA serverKey) (clientDER, cc) (SignRSA clientKey)), intDER.
  split; [|split_and!; try done; cbn in *; congruence].
  constructor; try done. by repeat (apply Forall_cons; split).
Qed.

Lemma writeKey_spec (name : bytes) (key : Signer) (w : world) :
  returns (writeKey dsk name key) w (fun _ w' => exists data, key_pem key = Some data /\ w_files w' = <[name := data]> (w_files w)).
Proof.
  destruct key as [k|k|]; cbn [writeKey]; [|step_cmd; by eexists|apply returns_fail].
  step_cmd. apply returns_option. intros der Hd. step_cmd. eexists. split; [|done]. cbn. by rewrite Hd.
Qed.

Lemma writeTLSCryptKey_spec (w : world) :
  returns (writeTLSCryptKey dsk) w (fun _ w' => exists raw, zlen raw = 256 /\ bytes_ok raw /\
    w_files w' = <[file "tls-crypt.key" := staticKeyText raw]> (w_files w)).
Proof.
  unfold writeTLSCryptKey. step_cmd. step_cmd. apply returns_use. intros n raw w1 Hr Hw1. destruct (rand_Read_fills _ _ _ Hr) as [Hl Hok].
  step_cmd. unfold writeStaticKeyV1. rewrite Hl. step_cmd. unfold verifyStaticKeyV1RoundTrip. step_cmd.
  apply returns_read. intros data Hd. cbn [w_files] in Hd. rewrite lookup_insert_eq in Hd. apply (inj Some) in Hd. subst data.
  rewrite staticKeyText_parses, Z.eqb_refl, first_difference_refl by done. step_cmd. exists raw. by rewrite <- Hw1.
Qed.

Lemma IndexByte_cut (s : bytes) (c : Z) (i : nat) :
  IndexByte s c = Some i -> s = take i s ++ [c] ++ drop (S i) s /\ c ∉ take i s.
Proof.
  revert i. induction s as [|x s IH]; intros i; cbn; [done|]. destruct (Z.eqb_spec x c) as [->|Hne].
  - intros [= <-]. split; [done|apply not_elem_of_nil].
  - destruct (IndexByte s c) as [j|]; [|done]. intros [= <-]. destruct (IH j eq_refl) as [I1 I2]. split.
    + cbn. f_equal. exact I1.
    + cbn. apply not_elem_of_cons. split; [congruence|done].
Qed.

(** Where the credentials go. *)
Definition credentials_file (credentials : bytes) : bytes :=
  if bool_decide (credentials = []) then [] else pkiMountPoint ++ of_string "/credentials".

Lemma writeCredentials_spec (credentials : bytes) (w : world) :
  returns (writeCredentials dsk credentials) w (fun f w' => f = credentials_file credentials /\
    (credentials = [] /\ w' = w \/
     exists user pass, credentials = user ++ [58] ++ pass /\ 58 ∉ user /\
       w_files w' = <[file "credentials" := user ++ [10] ++ pass ++ [10]]> (w_files w))).
Proof.
  unfold writeCredentials, credentials_file. case_bool_decide as Hc; [by step_cmd; auto|].
  destruct (IndexByte credentials 58) as [i|] eqn:Ei; [|apply returns_fail]. destruct (IndexByte_cut _ _ _ Ei) as [E1 E2].
  step_cmd. step_cmd. step_cmd. split; [done|]. right. by exists (take i credentials), (drop (S i) credentials).
Qed.

(** The files of a run with certificates [i] and static key [raw]. *)
Record output (dirs : list bytes) (noClientCert : bool) (credentials : bytes) (i : issued) (raw : bytes) (fs fs' : gmap bytes bytes) : Prop := {
  o_ca : fs' !! file "ca.crt" = Some (cert_pem (i_root i).1);
  o_server : fs' !! file "server.crt" = Some (cert_pem (i_server i).1);
  o_serverKey : exists data, key_pem (i_serverKey i) = Some data /\ fs' !! file "server.key" = Some data;
  o_client : fs' !! file "client.crt" = Some (cert_pem (i_client i).1);
  o_clientKey : exists data, key_pem (i_clientKey i) = Some data /\ fs' !! file "client.key" = Some data;
  o_inter : match i_inter i with
            | Some c => fs' !! file "intermediate.crt" = Some (cert_pem c.1)
            | None => fs' !! file "intermediate.crt" = if d_remove dsk then None else fs !! file "intermediate.crt"
            end;
  o_key : fs' !! file "tls-crypt.key" = Some (staticKeyText raw) /\ ParseStaticKeyV1 (staticKeyText raw) = Ok raw /\ zlen raw = 256;
  o_credentials : credentials = [] /\ fs' !! file "credentials" = fs !! file "credentials" \/ exists user pass, credentials = user ++ [58] ++ pass /\ 58 ∉ user /\
    fs' !! file "credentials" = Some (user ++ [10] ++ pass ++ [10]);
  o_conf : fs' !! file "client.conf" =
    Some (ended_lines (client_conf [] (negb noClientCert) (credentials_file credentials) ++ dirs));
  o_references : Forall (fun line => forall name, reference line = Some name -> is_Some (fs' !! name))
    (client_conf [] (negb noClientCert) (credentials_file credentials));
  o_others : forall name, name ∉ names -> fs' !! name = fs !! name;
}.

Lemma client_conf_app (dirs : list bytes) (b : bool) (c : bytes) : client_conf dirs b c = client_conf [] b c ++ dirs.
Proof. unfold client_conf. by rewrite <- !(assoc_L (++)), app_nil_l. Qed.

Lemma references_all (P : bytes -> Prop) (conf : list bytes) :
  Forall P (omap reference conf) -> Forall (fun line => forall name, reference line = Some name -> P name) conf.
Proof.
  induction conf as [|l conf IH]; [done|]. cbn. destruct (reference l) as [n|] eqn:E.
  - intros [Hn Hr]%Forall_cons. apply Forall_cons. split; [intros name; rewrite E; by intros [= <-]|by apply IH].
  - intros Hr. apply Forall_cons. split; [intros name; by rewrite E|by apply IH].
Qed.

(** The files that the configuration refers to. *)
Lemma conf_references (cert : bool) (credentials : bytes) :
  omap reference (client_conf [] cert (credentials_file credentials)) =
    [file "ca.crt"] ++ (if cert then [file "client.crt"; file "client.key"] else []) ++ [file "tls-crypt.key"] ++
    (if bool_decide (credentials = []) then [] else [file "credentials"]).
Proof. unfold credentials_file. by case_bool_decide; destruct cert; vm_compute. Qed.

(** Looking up one of the names in a map with other names inserted. *)
Ltac find_file :=
  repeat first [ apply lookup_insert_eq | rewrite lookup_insert_ne by (vm_compute; discriminate) | rewrite lookup_delete_ne by (vm_compute; discriminate) ];
  try done.

(** What the certificates' files and the credentials' file come to. *)
Lemma output_files (dirs : list bytes) (noClientCert : bool) (credentials : bytes) (i : issued) (raw : bytes) (ks kc : bytes)
    (fs fs1 fs2 fs3 fs4 : gmap bytes bytes) :
  match i_inter i with
  | Some c => fs1 = <[file "intermediate.crt" := cert_pem c.1]> (<[file "ca.crt" := cert_pem (i_root i).1]> fs)
  | None => fs1 = <[file "ca.crt" := cert_pem (i_root i).1]> fs
  end ->
  key_pem (i_serverKey i) = Some ks -> key_pem (i_clientKey i) = Some kc ->
  fs2 = <[file "client.key" := kc]> (<[file "client.crt" := cert_pem (i_client i).1]>
         (<[file "server.key" := ks]> (<[file "server.crt" := cert_pem (i_server i).1]> fs1))) ->
  match i_inter i with
  | Some _ => fs3 = fs2
  | None => fs3 = if d_remove dsk then delete (file "intermediate.crt") fs2 else fs2
  end ->
  zlen raw = 256 -> bytes_ok raw ->
  (credentials = [] /\ fs4 = <[file "tls-crypt.key" := staticKeyText raw]> fs3 \/
   exists user pass, credentials = user ++ [58] ++ pass /\ 58 ∉ user /\
     fs4 = <[file "credentials" := user ++ [10] ++ pass ++ [10]]> (<[file "tls-crypt.key" := staticKeyText raw]> fs3)) ->
  output dirs noClientCert credentials i raw fs
    (<[file "client.conf" := ended_lines (client_conf dirs (negb noClientCert) (credentials_file credentials))]> fs4).
Proof.
  intros H1 Hks Hkc -> H3 Hl Hok H4.
  assert (Hlook : forall name, name <> file "client.conf" -> name <> file "tls-crypt.key" -> name <> file "credentials" ->
    fs4 !! name = fs3 !! name).
  { intros name N1 N2 N3. destruct H4 as [[_ ->]|(user & pass & _ & _ & ->)]; by rewrite ?lookup_insert_ne. }
  set (fs2 := <[file "client.key" := kc]> _) in *.
  assert (Hlook3 : forall name, name <> file "intermediate.crt" -> fs3 !! name = fs2 !! name).
  { intros name N. destruct (i_inter i); subst fs3; [done|]. destruct (d_remove dsk); [by rewrite lookup_delete_ne|done]. }
  assert (Hca : fs1 !! file "ca.crt" = Some (cert_pem (i_root i).1)) by (destruct (i_inter i); subst fs1; find_file).
  assert (Hkey : fs4 !! file "tls-crypt.key" = Some (staticKeyText raw)).
  { destruct H4 as [[_ ->]|(user & pass & _ & _ & ->)]; find_file. }
  constructor.
  - find_file. rewrite Hlook, Hlook3 by (vm_compute; discriminate). unfold fs2. find_file.
  - find_file. rewrite Hlook, Hlook3 by (vm_compute; discriminate). unfold fs2. find_file.
  - exists ks. split; [done|]. find_file. rewrite Hlook, Hlook3 by (vm_compute; discriminate). unfold fs2. find_file.
  - find_file. rewrite Hlook, Hlook3 by (vm_compute; discriminate). unfold fs2. find_file.
  - exists kc. split; [done|]. find_file. rewrite Hlook, Hlook3 by (vm_compute; discriminate). unfold fs2. find_file.
  - destruct (i_inter i) as [c|]; find_file; rewrite Hlook by (vm_compute; discriminate); subst fs3.
    + unfold fs2. subst fs1. find_file.
    + destruct (d_remove dsk); [apply lookup_delete_eq|]. unfold fs2. subst fs1. find_file.
  - split; [find_file|]. split; [by apply staticKeyText_parses|done].
  - destruct H4 as [[-> ->]|(user & pass & -> & Hu & ->)].
    + left. split; [done|]. find_file. rewrite Hlook3 by (vm_compute; discriminate). unfold fs2. destruct (i_inter i); subst fs1; find_file.
    + right. exists user, pass. split_and!; try done. find_file.
  - rewrite <- client_conf_app. find_file.
  - apply references_all. rewrite conf_references. repeat (apply Forall_app; split).
    + apply Forall_singleton. eexists. find_file. rewrite Hlook, Hlook3 by (vm_compute; discriminate). unfold fs2. find_file.
    + destruct (negb noClientCert); repeat (apply Forall_cons; split); try apply Forall_nil_2; eexists; find_file;
        rewrite Hlook, Hlook3 by (vm_compute; discriminate); unfold fs2; find_file.
    + apply Forall_singleton. eexists. find_file.
    + case_bool_decide; [constructor|]. destruct H4 as [[? _]|(user & pass & _ & _ & ->)]; [done|].
      apply Forall_singleton. eexists. find_file.
  - intros name Hn. assert (Hne : forall n, n ∈ names -> name <> n) by (intros n Hin ->; by apply Hn).
    rewrite lookup_insert_ne by (apply not_eq_sym, Hne; decide_now). rewrite Hlook, Hlook3 by (apply Hne; decide_now).
    unfold fs2. rewrite !lookup_insert_ne by (apply not_eq_sym, Hne; decide_now).
    destruct (i_inter i); subst fs1; by rewrite !lookup_insert_ne by (apply not_eq_sym, Hne; decide_now).
Qed.

(** The issuing of the certificates and what a run leaves behind. *)
Lemma run_output (profile : bytes) (dirs : list bytes) (noClientCert : bool) (credentials : bytes) (w : world) :
  returns (run dsk profile dirs noClientCert credentials) w (fun _ w' => exists i raw,
    issued_ok i /\ output dirs noClientCert credentials i raw (w_files w) (w_files w') /\
    (profile = profileSmall /\ i_inter i = None \/ profile = profileLarge /\ is_Some (i_inter i))).
Proof.
  unfold run. destruct (negb (bool_decide (profile = profileSmall)) && _) eqn:Ep; [apply returns_fail|].
  destruct (negb (d_mkdir dsk)); [apply returns_fail|]. step_cmd.
  apply (returns_mono _ _ (fun '(serverDER, serverKey, (clientDER, clientKey)) w1 => exists i,
    issued_ok i /\ (i_server i).1 = serverDER /\ i_serverKey i = serverKey /\ (i_client i).1 = clientDER /\ i_clientKey i = clientKey /\
    match i_inter i with
    | Some c => w_files w1 = <[file "intermediate.crt" := cert_pem c.1]> (<[file "ca.crt" := cert_pem (i_root i).1]> (w_files w))
    | None => w_files w1 = <[file "ca.crt" := cert_pem (i_root i).1]> (w_files w)
    end /\ (profile = profileSmall /\ i_inter i = None \/ profile = profileLarge /\ is_Some (i_inter i)))).
  { case_bool_decide as Hs; cbn [negb andb] in Ep.
    - eapply returns_mono; [apply issueSmall_spec|]. intros [[sd sk] [cd ck]] w1 (i & H1 & H2 & H3 & H4 & H5 & H6 & H7).
      exists i. rewrite H2. split_and!; try done. by left.
    - case_bool_decide as Hl; [|done]. eapply returns_mono; [apply issueLarge_spec|].
      intros [[sd sk] [cd ck]] w1 (i & der & H1 & H2 & H3 & H4 & H5 & H6 & H7). exists i.
      destruct (i_inter i) as [c|]; [|done]. injection H2 as <-. split_and!; try done. right. split; [done|by eexists]. }
  intros [[sd sk] [cd ck]] w1 (i & Hi & <- & <- & <- & <- & Hinter & Hprof). unfold writeCert.
  step_cmd. step_cmd. step_cmd. eapply returns_mono; [apply writeKey_spec|]. intros _ w2 (ks & Hks & Hw2).
  step_cmd. step_cmd. step_cmd. eapply returns_mono; [apply writeKey_spec|]. intros _ w3 (kc & Hkc & Hw3). step_cmd.
  apply (returns_mono _ _ (fun _ w4 => match i_inter i with
    | Some _ => w_files w4 = w_files w3
    | None => w_files w4 = if d_remove dsk then delete (file "intermediate.crt") (w_files w3) else w_files w3 end)).
  { destruct Hprof as [[-> ->]|[-> [c ->]]]; [|by step_cmd]. change (bool_decide (profileSmall = profileSmall)) with true.
    step_cmd. by destruct (d_remove dsk). }
  intros _ w4 Hw4. step_cmd. eapply returns_mono; [apply writeTLSCryptKey_spec|]. intros _ w5 (raw & Hl & Hok & Hw5).
  step_cmd. eapply returns_mono; [apply writeCredentials_spec|]. intros f w6 (-> & Hw6). step_cmd.
  exists i, raw. split; [done|]. split; [|done]. cbn [w_files] in *. rewrite Hw2 in Hw3.
  apply (output_files dirs noClientCert credentials i raw ks kc (w_files w) (w_files w1) (w_files w3) (w_files w4)); try done.
  - destruct Hw6 as [[? ->]|(user & pass & E1 & E2 & ->)]; [left|right; exists user, pass]; by rewrite Hw5.
Qed.

(** C28. What a successful run leaves in the output directory, whatever was there before
    and whatever the profile: the server's certificate chains up to the root in
    [ca.crt] by names, signatures, key identifiers, CA flags, key usages and path
    lengths (through the intermediate with the large profile), the client's directly;
    each end entity has just the extended usage its role needs, and its key file holds
    the key that the certificate names; all are valid from now on for a day; the static
    key file parses; the credentials file has user name and password on a line each; the
    client configuration is the documented lines with the extra directives behind them
    and every file it refers to is there.  The directory is not made anew: a file under
    any other name stays as it was, and so does a credentials file when no credentials are
    asked for; with the small profile an intermediate certificate of an earlier run is
    gone when its removal succeeds and stays as it was when it fails, since the error of
    the removal is dropped. *)
Theorem generated_pki (profile : bytes) (dirs : list bytes) (noClientCert : bool) (credentials : bytes) (w w' : world) :
  run dsk profile dirs noClientCert credentials w = (Ok tt, w') ->
  exists i raw, issued_ok i /\ output dirs noClientCert credentials i raw (w_files w) (w_files w') /\
    (profile = profileSmall /\ i_inter i = None \/ profile = profileLarge /\ is_Some (i_inter i)).
Proof. intros E. by apply (run_output profile dirs noClientCert credentials w tt). Qed.
End outputs.

(** ** Witnesses: a concrete x509

    A certificate is the sequence of its fields' numbers, each in binary digits with an
    end mark, with the public key of its signer behind it. *)

Module Toy.

(** Printers and parsers of sequences of numbers that invert each other. *)
Record codec (A : Type) := mkCodec {
  enc : A -> list Z;
  dec : list Z -> option (A * list Z);
  dec_enc : forall a rest, dec (enc a ++ rest) = Some (a, rest);
}.
Arguments mkCodec {A}.
Arguments enc {A}.
Arguments dec {A}.
Arguments dec_enc {A}.

Program Definition number : codec Z :=
  mkCodec (fun z => [z]) (fun l => match l with z :: rest => Some (z, rest) | [] => None end) _.
Next Obligation. done. Qed.

Program Definition pair_of {A B : Type} (a : codec A) (b : codec B) : codec (A * B) :=
  mkCodec (fun x => enc a x.1 ++ enc b x.2)
    (fun l => match dec a l with Some (x, l) => match dec b l with Some (y, l) => Some (x, y, l) | None => None end | None => None end) _.
Next Obligation. intros A B a b [x y] rest. cbn. by rewrite <- (assoc_L (++)), dec_enc, dec_enc. Qed.

Program Definition as_ {A B : Type} (f : B -> A) (g : A -> B) (gf : forall b, g (f b) = b) (a : codec A) : codec B :=
  mkCodec (fun x => enc a (f x)) (fun l => match dec a l with Some (x, l) => Some (g x, l) | None => None end) _.
Next Obligation. intros A B f g gf a x rest. cbn. by rewrite dec_enc, gf. Qed.

Fixpoint dec_n {A : Type} (a : codec A) (n : nat) (l : list Z) : option (list A * list Z) :=
  match n with
  | O => Some ([], l)
  | S n => match dec a l with
           | Some (x, l) => match dec_n a n l with Some (xs, l) => Some (x :: xs, l) | None => None end
           | None => None
           end
  end.

Program Definition list_of {A : Type} (a : codec A) : codec (list A) :=
  mkCodec (fun l => Z.of_nat (length l) :: concat (map (enc a) l))
    (fun l => match l with n :: l => dec_n a (Z.to_nat n) l | [] => None end) _.
Next Obligation.
  intros A a l rest. cbn. rewrite Nat2Z.id. induction l as [|x l IH]; [done|]. cbn. by rewrite <- (assoc_L (++)), dec_enc, IH.
Qed.

Definition boolean : codec bool := as_ Z.b2z (fun z => negb (z =? 0)) (fun b => match b with true => eq_refl | false => eq_refl end) number.
Definition text : codec bytes := list_of number.
Definition option_of {A : Type} (a : codec A) : codec (option A) :=
  as_ option_list (fun l => head l) (fun o => match o with Some _ => eq_refl | None => eq_refl end) (list_of a).
Definition name : codec Name :=
  as_ (fun n => (CommonName n, Organization n, OrganizationalUnit n, Country n, Locality n, Province n))
    (fun '(a, b, c, d, e, f) => mkName a b c d e f) (fun n => match n with mkName _ _ _ _ _ _ => eq_refl end)
    (pair_of (pair_of (pair_of (pair_of (pair_of text (list_of text)) (list_of text)) (list_of text)) (list_of text)) (list_of text)).
Definition eku : codec ExtKeyUsage :=
  as_ (fun e => match e with ExtKeyUsageServerAuth => true | ExtKeyUsageClientAuth => false end)
    (fun b : bool => if b then ExtKeyUsageServerAuth else ExtKeyUsageClientAuth)
    (fun e => match e with ExtKeyUsageServerAuth => eq_refl | ExtKeyUsageClientAuth => eq_refl end) boolean.
Definition key : codec (bool * Z) := pair_of boolean number.

Notation cert := (Certificate (bool * Z)).
Definition certificate : codec cert :=
  as_ (fun c => (SerialNumber c, Subject c, Issuer c, PublicKey c, NotBefore c, NotAfter c, KeyUsage c, ExtKeyUsages c,
                 BasicConstraintsValid c, IsCA c, MaxPathLen c, MaxPathLenZero c, SubjectKeyId c, AuthorityKeyId c, DNSNames c))
    (fun '(a, b, c, d, e, f, g, h, i, j, k, l, m, n, o) => mkCertificate a b c d e f g h i j k l m n o)
    (fun c => match c with mkCertificate _ _ _ _ _ _ _ _ _ _ _ _ _ _ _ => eq_refl end)
    (pair_of (pair_of (pair_of (pair_of (pair_of (pair_of (pair_of (pair_of (pair_of (pair_of (pair_of (pair_of (pair_of (pair_of
       number name) (option_of name)) (option_of key)) number) number) number) (list_of eku)) boolean) boolean) number) boolean)
       text) text) (list_of text)).
Definition signed_certificate : codec (cert * (bool * Z)) := pair_of certificate key.

(** Numbers as digits. *)
Fixpoint digits (p : positive) : bytes :=
  match p with xH => [2] | xO p => 0 :: digits p | xI p => 1 :: digits p end.
Fixpoint numbers (b : bytes) : option (list positive) :=
  match b with
  | [] => Some []
  | d :: b =>
      match numbers b with
      | Some l => if d =? 2 then Some (1%positive :: l) else
                  match l with
                  | p :: l => if d =? 0 then Some (xO p :: l) else if d =? 1 then Some (xI p :: l) else None
                  | [] => None
                  end
      | None => None
      end
  end.
Definition to_bytes (l : list Z) : bytes := concat (map (fun z => digits (encode z)) l).
Definition of_bytes (b : bytes) : option (list Z) :=
  match numbers b with Some l => mapM (fun p => decode p) l | None => None end.

Lemma of_to_bytes (l : list Z) : of_bytes (to_bytes l) = Some l.
Proof.
  assert (Hd : forall p b ps, numbers b = Some ps -> numbers (digits p ++ b) = Some (p :: ps)).
  { induction p as [p IH|p IH|]; intros b ps Hb; cbn; [by rewrite (IH b ps Hb)..|by rewrite Hb]. }
  assert (Hn : numbers (to_bytes l) = Some (map encode l)) by (induction l as [|z l IH]; [done|by apply Hd]).
  unfold of_bytes. rewrite Hn. clear Hn. induction l as [|z l IH]; [done|]. cbn. rewrite decode_encode. cbn in *. by rewrite IH.
Qed.

Definition read (der : bytes) : option (cert * (bool * Z)) :=
  match of_bytes der with
  | Some l => match dec signed_certificate l with Some (x, []) => Some x | _ => None end
  | None => None
  end.

(** The certificate created from a template. *)
Definition created (tmpl parent : cert) (pub : bool * Z) : cert :=
  mkCertificate (SerialNumber tmpl) (Subject tmpl) (Some (Subject parent)) (Some pub)
    (NotBefore tmpl / second * second) (NotAfter tmpl / second * second) (KeyUsage tmpl) (ExtKeyUsages tmpl)
    (BasicConstraintsValid tmpl) (IsCA tmpl)
    (if (MaxPathLen tmpl =? 0) && negb (MaxPathLenZero tmpl) then -1 else MaxPathLen tmpl) (MaxPathLen tmpl =? 0)
    (SubjectKeyId tmpl)
    (if bool_decide (Subject tmpl = Subject parent) || bool_decide (SubjectKeyId parent = []) then AuthorityKeyId tmpl
     else SubjectKeyId parent) (DNSNames tmpl).

#[export] Instance crypto : Crypto := {|
  eckey := Z;
  rsakey := Z;
  pubkey := bool * Z;
  ec_public k := (true, k);
  rsa_public k := (false, k);
  ecdsa_GenerateKey n := Some (Z.of_nat n);
  rsa_GenerateKey n bits := Some (Z.of_nat n);
  rand_Int n limit := Some (Z.of_nat n);
  rand_Read n len := if 0 <=? len then Some (replicate (Z.to_nat len) (u8 (Z.of_nat n))) else None;
  time_Now n := 1700000000 * second + Z.of_nat n;
  MarshalPKIXPublicKey pub := Some [u8 pub.2];
  sha1_Sum b := b;
  MarshalECPrivateKey k := Some [u8 k];
  MarshalPKCS1PrivateKey k := [u8 k];
  CreateCertificate n tmpl parent pub priv :=
    (fun pk => to_bytes (enc signed_certificate (created tmpl parent pub, pk))) <$>
    match priv with SignECDSA k => Some (true, k) | SignRSA k => Some (false, k) | SignOther => None end;
  ParseCertificate der := fst <$> read der;
|}.

Lemma read_created (c : cert) (pk : bool * Z) : read (to_bytes (enc signed_certificate (c, pk))) = Some (c, pk).
Proof.
  unfold read. rewrite of_to_bytes. pose proof (dec_enc signed_certificate (c, pk) []) as H. rewrite app_nil_r in H. by rewrite H.
Qed.

#[export] Instance laws : CryptoLaws.
Proof.
  refine {| signed := fun der pk => exists c, read der = Some (c, pk) |}.
  - intros t tmpl parent pub priv der HC. unfold CreateCertificate, crypto in HC. apply fmap_Some in HC as (pk & _ & ->).
    exists (created tmpl parent pub). split; [|by constructor]. exact (f_equal (fmap fst) (read_created (created tmpl parent pub) pk)).
  - intros t tmpl parent pub priv der pk HC Hk. unfold CreateCertificate, crypto in HC. apply fmap_Some in HC as (pk' & Hp & ->).
    exists (created tmpl parent pub). assert (pk' = pk) as -> by (clear -Hp Hk; destruct priv; cbn in *; congruence). exact (read_created _ pk).
  - intros t n b. cbn. destruct (Z.leb_spec 0 n); [|done]. intros [= <-]. split; [unfold zlen; rewrite length_replicate; lia|].
    apply Forall_replicate, u8_range.
Defined.

Definition works : disk := mkDisk true (fun _ => None) (fun _ => true) true.
Definition empty : world := mkWorld 0 ∅.

(** A run without credentials leaves the credentials of an earlier run. *)
Example stale_credentials :
  let '(r1, w1) := run works profileSmall [] false (of_string "user:pass") empty in
  let '(r2, w2) := run works profileSmall [] false [] w1 in
  r1 = Ok tt /\ r2 = Ok tt /\ w_files w2 !! file "credentials" = Some (of_string "user" ++ [10] ++ of_string "pass" ++ [10]).
Proof. vm_compute. auto. Qed.

(** A removal that fails leaves the intermediate certificate of an earlier run, and the
    run succeeds. *)
Example stale_intermediate :
  let '(r1, w1) := run works profileLarge [] false [] empty in
  let '(r2, w2) := run (mkDisk true (fun _ => None) (fun _ => true) false) profileSmall [] false [] w1 in
  r1 = Ok tt /\ r2 = Ok tt /\ is_Some (w_files w2 !! file "intermediate.crt").
Proof. vm_compute. split_and!; eauto. Qed.
End Toy.

Import Toy.

Definition large : outcome pki_error unit * world := run works profileLarge [of_string "verb 4"] false (of_string "user:pass") empty.

Lemma generated_pki_witness :
  large.1 = Ok tt /\ is_Some (w_files large.2 !! file "intermediate.crt") /\
  w_files large.2 !! file "credentials" = Some (of_string "user" ++ [10] ++ of_string "pass" ++ [10]).
Proof.
  split; [vm_compute; reflexivity|].
  destruct (generated_pki works profileLarge [of_string "verb 4"] false (of_string "user:pass") empty large.2) as (i & raw & _ & Ho & Hp).
  - vm_compute. reflexivity.
  - split; [|vm_compute; reflexivity]. pose proof (o_inter _ _ _ _ _ _ _ _ Ho) as Hi. destruct Hp as [[H _]|[_ [c Hc]]].
    + vm_compute in H. discriminate H.
    + rewrite Hc in Hi. rewrite Hi. eexists. reflexivity.
Defined.

Lemma static_key_file_witness :
  ParseStaticKeyV1 (staticKeyText (replicate 256 171)) = Ok (replicate 256 171) /\
  (writeStaticKeyV1 works (of_string "k") [1; 2] ;; verifyStaticKeyV1RoundTrip works (of_string "k") [1; 2]) empty = (Err ErrKeyLength, empty).
Proof.
  split.
  - apply (static_key_file works (of_string "k") (replicate 256 171) empty); [decide_now|reflexivity|reflexivity|reflexivity].
  - apply (static_key_file works (of_string "k") [1; 2] empty); [decide_now|reflexivity|reflexivity].
Defined.

End TestPki.
