(* ===== verification/Site.v ===== *)
(** * Site: the web pages of the example

    Model of [examples/tunnelweb/site]: routing, the pages as html/template renders
    them, the echo form with its limits, the header listing and the status page.  The
    parts of the standard library the handlers lean on are written out: the cleaning and
    matching of paths in [http.ServeMux], [http.MaxBytesReader], the parsing of form
    bodies, [net.SplitHostPort] and the escaping of html/template.

    A template's text is a string in which a backquote stands for the double quote; a
    Go raw string cannot contain one. *)

From stdpp Require Import gmap sorting.
From S2P Require Import Prelude GoText TlsCrypt.

Module Site.

(** ** Requests and responses *)

(** What [mime.ParseMediaType] makes of the content type. *)
Inductive media := UrlEncoded | Multipart | OtherMedia.

Record request := mkRequest {
  r_method : bytes;
  r_uri : bytes;                     (* [RequestURI], the target of the request line *)
  r_proto : Z * Z;                   (* [ProtoMajor] and [ProtoMinor] *)
  r_escaped : bytes;                 (* [URL.EscapedPath()] *)
  r_path : bytes;                    (* [URL.Path] *)
  r_query : bytes;                   (* [URL.RawQuery] *)
  r_host : bytes;
  r_header : gmap bytes (list bytes);
  r_media : media * bool;            (* and whether it fails *)
  r_body : bytes * bool;             (* and whether reading on fails *)
  r_remoteAddr : bytes;
  r_localAddr : option bytes;        (* the text of the address under [LocalAddrContextKey] *)
}.

(** [Redirect]: to a URL with this path.  [PlainNotFound] is the standard library's own
    404; [BadRequest] has no body, and says whether the connection is to be closed. *)
Inductive response :=
  | Page (status : Z) (contentType body : bytes)
  | Redirect (path : bytes)
  | PlainNotFound
  | BadRequest (close : bool).

Definition html (s : string) : bytes := map (fun c => if c =? 96 then 34 else c) (of_string s).

Definition textHtml : bytes := of_string "text/html; charset=utf-8".

(** ** html/template *)

(** The escaping of a value in text: byte by byte, since the bytes of other runes are
    never among these. *)
Definition escape_byte (c : Z) : bytes :=
  if c =? 0 then [239; 191; 189]
  else if c =? 34 then of_string "&#34;"
  else if c =? 38 then of_string "&amp;"
  else if c =? 39 then of_string "&#39;"
  else if c =? 43 then of_string "&#43;"
  else if c =? 60 then of_string "&lt;"
  else if c =? 62 then of_string "&gt;"
  else [c].
Definition escape (s : bytes) : bytes := concat (map escape_byte s).

(** A template is what executing it on its data writes. *)
Definition layoutTmpl (title content : bytes) : bytes :=
  html "<!doctype html>
<html lang=`en`>
<head>
<meta charset=`utf-8`>
<meta name=`viewport` content=`width=device-width, initial-scale=1`>
<title>" ++ escape title ++ html " - govpn tunnelweb</title>
<link rel=`stylesheet` href=`/style.css`>
</head>
<body>
<header>
<a href=`/` class=`brand`>govpn tunnelweb</a>
<nav>
<ul>
<li><a href=`/status`>Status</a><span class=`nav-desc`>Live facts about your tunnel session</span></li>
<li><a href=`/about`>About</a><span class=`nav-desc`>What this demo proves and how</span></li>
<li><a href=`/echo`>Echo test</a><span class=`nav-desc`>Send a message through the tunnel and get it back</span></li>
<li><a href=`/headers`>Headers</a><span class=`nav-desc`>See the raw HTTP headers this server received from you</span></li>
</ul>
</nav>
</header>
<main>
" ++ content ++ html "
</main>
<footer>served via govpn</footer>
</body>
</html>
".

(** [content]: the output of executing the page's own template, if it succeeds. *)
Definition renderPage (status : Z) (content : option bytes) (title : bytes) : response :=
  match content with
  | None => Page 500 (of_string "text/plain; charset=utf-8") (of_string "internal error" ++ [10])
  | Some body => Page status textHtml (layoutTmpl title body)
  end.

(** ** Pages without data *)

Definition landingTmpl : option bytes := Some (html "<h1>govpn tunnelweb</h1>
<p>This page is served entirely inside the OpenVPN tunnel you just connected through — no TUN device, no CAP_NET_ADMIN, no process outside this one Go binary.</p>
").

Definition aboutTmpl : option bytes := Some (html "<h2>About this demo</h2>
<p>govpn is a pure-Go implementation of the server side of the OpenVPN protocol. This page — like every page on this site — is served entirely inside the OpenVPN tunnel you connected through.</p>
<p>There is no TUN device and no CAP_NET_ADMIN capability anywhere in this process. Decrypted IP packets from your session are handed instead to a small userspace network stack that speaks just enough IPv4, TCP, and ICMP to terminate an HTTP connection and answer a ping — without ever touching the host kernel's own network stack.</p>
<p>That means this whole demo runs as an ordinary, unprivileged process in any container. Nothing on the host or container network is listening for HTTP at all: the only way to reach this page is through the tunnel itself.</p>
").

Definition notFoundTmpl : option bytes := Some (html "<h2>Page not found</h2>
<p>There's no page at this address. Use the navigation above, or head back to the <a href=`/`>landing page</a>.</p>
").

Definition handleNotFound : response := renderPage 404 notFoundTmpl (of_string "Not Found").

Definition handleLanding (r : request) : response :=
  if negb (bool_decide (r_path r = of_string "/")) then handleNotFound
  else renderPage 200 landingTmpl (of_string "govpn tunnelweb").

Definition handleAbout : response := renderPage 200 aboutTmpl (of_string "About").

(** ** Status *)

Definition emDash : bytes := of_string "—".

Record statusPageData := mkStatus {
  AssignedIP : bytes;
  ServerIP : bytes;
  Cipher : bytes;
  SourcePort : bytes;
  RequestedAt : bytes;
  Uptime : bytes;
}.

Definition statusTmpl (d : statusPageData) : option bytes := Some (
  html "<h2>Status</h2>
<table>
<tbody>
<tr><th scope=`row`>Assigned tunnel IP</th><td class=`mono`>" ++ escape (AssignedIP d) ++ html "</td></tr>
<tr><th scope=`row`>Server tunnel IP</th><td class=`mono`>" ++ escape (ServerIP d) ++ html "</td></tr>
<tr><th scope=`row`>Cipher</th><td>" ++ escape (Cipher d) ++ html "</td></tr>
<tr><th scope=`row`>Session</th><td class=`status-active`>tunnel: active</td></tr>
<tr><th scope=`row`>Client source port</th><td class=`mono`>" ++ escape (SourcePort d) ++ html "</td></tr>
<tr><th scope=`row`>Request time</th><td>" ++ escape (RequestedAt d) ++ html "</td></tr>
<tr><th scope=`row`>Server uptime</th><td>" ++ escape (Uptime d) ++ html "</td></tr>
</tbody>
</table>
").

Fixpoint IndexByte (s : bytes) (c : Z) : option nat :=
  match s with
  | [] => None
  | x :: s => if x =? c then Some O else S <$> IndexByte s c
  end.

Fixpoint LastIndexByte (s : bytes) (c : Z) : option nat :=
  match s with
  | [] => None
  | x :: s => match LastIndexByte s c with
              | Some i => Some (S i)
              | None => if x =? c then Some O else None
              end
  end.

(** [net.SplitHostPort]; [None] is an error. *)
Definition SplitHostPort (hostport : bytes) : option (bytes * bytes) :=
  match LastIndexByte hostport 58 with
  | None => None
  | Some i =>
      let parts :=
        if bool_decide (head hostport = Some 91) then
          match IndexByte hostport 93 with
          | None => None
          | Some e => if (e + 1 =? i)%nat then Some (take (e - 1) (drop 1 hostport), 1%nat, S e) else None
          end
        else if bool_decide (58 ∈ take i hostport) then None else Some (take i hostport, O, O) in
      match parts with
      | None => None
      | Some (host, j, k) =>
          if bool_decide (91 ∈ drop j hostport) then None else
          if bool_decide (93 ∈ drop k hostport) then None else
          Some (host, drop (S i) hostport)
      end
  end.

Definition splitHostPortOrEmDash (hostport : bytes) : bytes * bytes :=
  match SplitHostPort hostport with None => (emDash, emDash) | Some hp => hp end.

(** [cipher]: [Options.Cipher]; the two times come as their texts. *)
Definition handleStatus (cipher requestedAt uptime : bytes) (r : request) : response :=
  let cipher := if bool_decide (cipher = []) then emDash else cipher in
  let '(assignedIP, sourcePort) := splitHostPortOrEmDash (r_remoteAddr r) in
  let serverIP :=
    match r_localAddr r with
    | Some addr => let '(ip, _) := splitHostPortOrEmDash addr in if negb (bool_decide (ip = emDash)) then ip else emDash
    | None => emDash
    end in
  renderPage 200 (statusTmpl (mkStatus assignedIP serverIP cipher sourcePort requestedAt uptime)) (of_string "Status").

(** ** Headers *)

Record headerRow := mkRow { Name : bytes; Value : bytes }.

Record headersPageData := mkHeaders {
  Method : bytes;
  Path : bytes;
  Host : bytes;
  Count : Z;
  Rows : list headerRow;
}.

Definition rowTmpl (row : headerRow) : bytes :=
  html "<tr><td>" ++ escape (Name row) ++ html "</td><td class=`wrap`>" ++ escape (Value row) ++ html "</td></tr>
".

Definition headersTmpl (d : headersPageData) : option bytes := Some (
  html "<p>" ++ escape (Method d) ++ html " " ++ escape (Path d) ++ html " via Host: " ++ escape (Host d) ++ html "</p>
<h2>" ++ escape (itoa (Count d)) ++ html " headers received</h2>
" ++ (if negb (bool_decide (length (Rows d) = 0%nat)) then html "
<table>
<thead><tr><th scope=`col`>Header</th><th scope=`col`>Value</th></tr></thead>
<tbody>
" ++ concat (map rowTmpl (Rows d)) ++ html "</tbody>
</table>
" else html "
<p>No headers received</p>
") ++ html "
").

(** [strings.Join(l, sep)]. *)
Fixpoint Join (l : list bytes) (sep : bytes) : bytes :=
  match l with
  | [] => []
  | [s] => s
  | s :: l => s ++ sep ++ Join l sep
  end.

(** [order]: the order in which the runtime walks over the map. *)
Definition headerRows (header : gmap bytes (list bytes)) (order : list bytes) : list headerRow :=
  let names := merge_sort bytes_ordered order in
  map (fun name => mkRow name (Join (default [] (header !! name)) (of_string ", "))) names.

Definition handleHeaders (order : list bytes) (r : request) : response :=
  let rows := headerRows (r_header r) order in
  renderPage 200 (headersTmpl (mkHeaders (r_method r) (r_path r) (r_host r) (zlen rows) rows)) (of_string "Headers").

(** ** Echo *)

Definition echoEmptyBodyCopy : bytes :=
  of_string "Type a message above and submit — it travels through the tunnel to this server and back before the page reloads with the result.".
Definition echoErrorCopy : bytes :=
  of_string "Echo failed — the message was empty or too large. Type something under 4KB and try again.".
Definition echoPlaceholder : bytes := of_string "Type something to echo through the tunnel…".
Definition maxEchoMsgBytes : Z := 4096.
Definition maxEchoBodyBytesLimit : Z := maxEchoMsgBytes * 2.

Record echoPageData := mkEcho { State : bytes; EchoValue : bytes; EmptyBody : bytes; ErrorMsg : bytes }.

(** html/template leaves out the comment in front of the form. *)
Definition echoTmpl (d : echoPageData) : option bytes := Some (
  (if bool_decide (State d = of_string "empty") then html "<h2>Nothing to echo yet</h2>
<p>" ++ escape (EmptyBody d) ++ html "</p>
" else if bool_decide (State d = of_string "error") then html "<h2>Echo test</h2>
<p class=`echo-error`>" ++ escape (ErrorMsg d) ++ html "</p>
" else html "<h2>Echo test</h2>
<p class=`echo-result`>You sent: " ++ escape (EchoValue d) ++ html "</p>
") ++ html "

<form method=`post` action=`/echo`>
<label for=`msg`>Message to echo</label>
<textarea id=`msg` name=`msg` placeholder=`" ++ echoPlaceholder ++ html "`></textarea>
<button type=`submit`>Send echo</button>
</form>
").

(** The decoding of percent escapes, and of a plus in a query; [None] is an error. *)
Fixpoint unescape (query : bool) (s : bytes) : option bytes :=
  match s with
  | [] => Some []
  | c :: s =>
      if c =? 37 then
        match s with
        | a :: b :: s =>
            match hexValue a, hexValue b, unescape query s with
            | Some x, Some y, Some rest => Some (x * 16 + y :: rest)
            | _, _, _ => None
            end
        | _ => None
        end
      else cons (if query && (c =? 43) then 32 else c) <$> unescape query s
  end.

(** [url.QueryUnescape]. *)
Definition QueryUnescape (s : bytes) : option bytes := unescape true s.

(** [strings.Cut] without its last result. *)
Definition Cut (s : bytes) (sep : Z) : bytes * bytes :=
  match IndexByte s sep with Some i => (take i s, drop (S i) s) | None => (s, []) end.

(** One part of a query between ampersands: whether it is in error, and its pair. *)
Definition parsePair (part : bytes) : bool * list (bytes * bytes) :=
  if bool_decide (59 ∈ part) then (true, []) else
  if bool_decide (part = []) then (false, []) else
  let '(key, value) := Cut part 61 in
  match QueryUnescape key, QueryUnescape value with
  | Some key, Some value => (false, [(key, value)])
  | _, _ => (true, [])
  end.

(** [url.ParseQuery]: whether it returns an error, and the pairs in order. *)
Definition ParseQuery (query : bytes) : bool * list (bytes * bytes) :=
  let parts := map parsePair (split_on 38 query) in
  (existsb fst parts, concat (map snd parts)).

(** Reading the body through [http.MaxBytesReader]; [None] is an error. *)
Definition readLimited (limit : Z) (body : bytes * bool) : option bytes :=
  if limit <? zlen body.1 then None else if body.2 then None else Some body.1.

(** [Request.ParseForm] of a POST whose body is limited: the pairs of the body come
    before those of the URL. *)
Definition ParseForm (limit : Z) (r : request) : bool * list (bytes * bytes) :=
  let '(mediaType, mediaErr) := r_media r in
  let '(err, post) :=
    match mediaType with
    | UrlEncoded => match readLimited limit (r_body r) with
                    | None => (true, [])
                    | Some b => let '(e, vs) := ParseQuery b in (mediaErr || e, vs)
                    end
    | _ => (mediaErr, [])
    end in
  let '(e, vs) := ParseQuery (r_query r) in
  (err || e, post ++ vs).

(** [Request.FormValue] after that. *)
Definition FormValue (form : list (bytes * bytes)) (key : bytes) : bytes :=
  match find (fun kv => bool_decide (kv.1 = key)) form with Some kv => kv.2 | None => [] end.

Definition echoPage (d : echoPageData) : response := renderPage 200 (echoTmpl d) (of_string "Echo test").

Definition renderEchoError : response := echoPage (mkEcho (of_string "error") [] [] echoErrorCopy).

Definition handleEchoPost (r : request) : response :=
  let '(err, form) := ParseForm maxEchoBodyBytesLimit r in
  if err then renderEchoError else
  let msg := FormValue form (of_string "msg") in
  if bool_decide (trim_space msg = []) || (maxEchoMsgBytes <? zlen msg) then renderEchoError
  else echoPage (mkEcho (of_string "populated") msg [] []).

Definition handleEcho (r : request) : response :=
  if negb (bool_decide (r_method r = of_string "POST"))
  then echoPage (mkEcho (of_string "empty") [] echoEmptyBodyCopy [])
  else handleEchoPost r.

(** ** Routing *)

(** [path.Clean] of a rooted path, on its segments. *)
Fixpoint clean_segments (stack : list bytes) (segs : list bytes) : list bytes :=
  match segs with
  | [] => rev stack
  | s :: segs =>
      if bool_decide (s = []) || bool_decide (s = of_string ".") then clean_segments stack segs
      else if bool_decide (s = of_string "..") then clean_segments (tail stack) segs
      else clean_segments (s :: stack) segs
  end.
Definition path_Clean (p : bytes) : bytes := 47 :: join 47 (clean_segments [] (split_on 47 p)).

(** The mux's [cleanPath]. *)
Definition cleanPath (p : bytes) : bytes :=
  match p with
  | [] => of_string "/"
  | c :: _ =>
      let p := if c =? 47 then p else 47 :: p in
      let np := path_Clean p in
      if bool_decide (last p = Some 47) && negb (bool_decide (np = of_string "/")) then np ++ [47] else np
  end.

(** [url.PathUnescape]. *)
Definition pathUnescape (s : bytes) : option bytes := unescape false s.

Inductive route := Landing | Status | About | Echo | Headers | Style.

(** The pattern a cleaned path matches: one of the names, or the catch-all.  A segment
    is compared unescaped, or as it is when that fails. *)
Definition match_path (path : bytes) : option route :=
  match path with
  | [] => None
  | _ :: seg =>
      if bool_decide (47 ∈ seg) then Some Landing else
      let seg := default seg (pathUnescape seg) in
      Some (if bool_decide (seg = of_string "status") then Status
            else if bool_decide (seg = of_string "about") then About
            else if bool_decide (seg = of_string "echo") then Echo
            else if bool_decide (seg = of_string "headers") then Headers
            else if bool_decide (seg = of_string "style.css") then Style
            else Landing)
  end.

Section site.
(** [styleCSS]: the embedded stylesheet; [cipher]: [Options.Cipher]. *)
Variables (styleCSS cipher : bytes).

Definition handleStyle : response := Page 200 (of_string "text/css; charset=utf-8") styleCSS.

Definition handle (requestedAt uptime : bytes) (order : list bytes) (r : request) (rt : route) : response :=
  match rt with
  | Landing => handleLanding r
  | Status => handleStatus cipher requestedAt uptime r
  | About => handleAbout
  | Echo => handleEcho r
  | Headers => handleHeaders order r
  | Style => handleStyle
  end.

(** [Request.ProtoAtLeast]. *)
Definition ProtoAtLeast (major minor : Z) (r : request) : bool :=
  (major <? (r_proto r).1) || ((r_proto r).1 =? major) && (minor <=? (r_proto r).2).

(** [Handler]: the mux with its six patterns.  A request for the target [*] is refused
    before any routing.  The path of a CONNECT request is matched as it is; any other is
    cleaned, and redirected to when that changes it. *)
Definition Handler (requestedAt uptime : bytes) (order : list bytes) (r : request) : response :=
  if bool_decide (r_uri r = of_string "*") then BadRequest (ProtoAtLeast 1 1 r) else
  if bool_decide (r_method r = of_string "CONNECT") then
    match match_path (r_escaped r) with Some rt => handle requestedAt uptime order r rt | None => PlainNotFound end
  else
    let path := cleanPath (r_escaped r) in
    if negb (bool_decide (path = r_escaped r)) then Redirect path else
    match match_path path with Some rt => handle requestedAt uptime order r rt | None => PlainNotFound end.

End site.

(** ** What the client sends does not become markup *)

(** The bytes of a page inside its tags, and whether it ends inside one. *)
Fixpoint tags (inside : bool) (s : bytes) : bytes * bool :=
  match s with
  | [] => ([], inside)
  | c :: s =>
      if inside then let '(m, e) := tags (negb (c =? 62)) s in (c :: m, e)
      else if c =? 60 then let '(m, e) := tags true s in (c :: m, e)
      else tags false s
  end.
Definition markup (s : bytes) : bytes := (tags false s).1.

Lemma tags_app (inside : bool) (s t : bytes) :
  tags inside (s ++ t) = let '(m, e) := tags inside s in let '(m', e') := tags e t in (m ++ m', e').
Proof.
  revert inside. induction s as [|c s IH]; intros inside; cbn; [by destruct (tags inside t)|].
  destruct inside; [|destruct (c =? 60)]; rewrite IH; destruct (tags _ s) as [m e]; by destruct (tags e t).
Qed.

(** Text outside tags. *)
Definition plain (s : bytes) : Prop := tags false s = ([], false).

Lemma escape_byte_cases (c : Z) : Forall (fun x => x <> 60 /\ x <> 62 /\ x <> 34 /\ x <> 39) (escape_byte c).
Proof. unfold escape_byte. repeat case_match; try decide_now. apply Forall_singleton. lia. Qed.

(** No byte of an escaped value is a quote or an angle bracket. *)
Lemma escape_inert (s : bytes) : Forall (fun x => x <> 60 /\ x <> 62 /\ x <> 34 /\ x <> 39) (escape s).
Proof. induction s as [|c s IH]; [constructor|]. apply Forall_app. split; [apply escape_byte_cases|exact IH]. Qed.

Lemma plain_forall (s : bytes) : Forall (fun x => x <> 60) s -> plain s.
Proof. unfold plain. induction 1 as [|c s Hc _ IH]; [done|]. cbn. by rewrite (proj2 (Z.eqb_neq c 60)). Qed.

Lemma plain_escape (s : bytes) : plain (escape s).
Proof. apply plain_forall. eapply Forall_impl; [apply escape_inert|]. by intros x []. Qed.

Lemma tags_plain (s t : bytes) : plain s -> tags false (s ++ t) = tags false t.
Proof. intros Hs. rewrite tags_app, Hs. by destruct (tags false t). Qed.

(** Replacing an escaped value by another. *)
Lemma tags_value (a v v' t t' : bytes) :
  (tags false a).2 = false -> tags false t = tags false t' -> tags false (a ++ escape v ++ t) = tags false (a ++ escape v' ++ t').
Proof.
  intros Ha Ht. rewrite !(tags_app false a). destruct (tags false a) as [m e]. cbn in Ha. subst e.
  by rewrite !tags_plain by apply plain_escape; rewrite Ht.
Qed.

Lemma tags_inside (a c c' d : bytes) :
  (tags false a).2 = false -> tags false c = tags false c' -> tags false (a ++ c ++ d) = tags false (a ++ c' ++ d).
Proof.
  intros Ha Hc. rewrite !(tags_app false a). destruct (tags false a) as [m e]. cbn in Ha. subst e. by rewrite !(tags_app false _ d), Hc.
Qed.

Lemma tags_prefix (a t t' : bytes) : (tags false a).2 = false -> tags false t = tags false t' -> tags false (a ++ t) = tags false (a ++ t').
Proof. intros Ha Ht. rewrite !(tags_app false a). destruct (tags false a) as [m e]. cbn in Ha. subst e. by rewrite Ht. Qed.

Ltac closed_text := vm_compute; reflexivity.

Lemma tags_layout (title c c' : bytes) : tags false c = tags false c' -> tags false (layoutTmpl title c) = tags false (layoutTmpl title c').
Proof. intros Hc. unfold layoutTmpl. apply tags_value; [closed_text|]. apply tags_inside; [closed_text|done]. Qed.

(** The pages by what they consist of. *)
Inductive kind := KLanding | KNotFound | KAbout | KStatus | KHeaders (rows : nat) | KEcho (state : bytes).

(** The page with every value in it empty. *)
Definition blank (k : kind) : bytes :=
  let page title (c : option bytes) := layoutTmpl (of_string title) (default [] c) in
  match k with
  | KLanding => page "govpn tunnelweb" landingTmpl
  | KNotFound => page "Not Found" notFoundTmpl
  | KAbout => page "About" aboutTmpl
  | KStatus => page "Status" (statusTmpl (mkStatus [] [] [] [] [] []))
  | KHeaders n => page "Headers" (headersTmpl (mkHeaders [] [] [] 0 (replicate n (mkRow [] []))))
  | KEcho state => page "Echo test" (echoTmpl (mkEcho state [] [] []))
  end%string.

Lemma tags_status (d : statusPageData) :
  tags false (default [] (statusTmpl d)) = tags false (default [] (statusTmpl (mkStatus [] [] [] [] [] []))).
Proof. unfold statusTmpl, default. do 6 (apply tags_value; [closed_text|]). reflexivity. Qed.

Lemma tags_rows (rows : list headerRow) (t t' : bytes) :
  tags false t = tags false t' ->
  tags false (concat (map rowTmpl rows) ++ t) = tags false (concat (map rowTmpl (replicate (length rows) (mkRow [] []))) ++ t').
Proof.
  intros Ht. induction rows as [|row rows IH]; [done|]. cbn [length replicate map concat]. unfold rowTmpl at 1 3. rewrite <- !(assoc_L (++)).
  apply tags_value; [closed_text|]. apply tags_value; [closed_text|].
  apply tags_prefix; [closed_text|exact IH].
Qed.

Lemma tags_headers (m p h : bytes) (n : Z) (rows : list headerRow) :
  tags false (default [] (headersTmpl (mkHeaders m p h n rows))) =
  tags false (default [] (headersTmpl (mkHeaders [] [] [] 0 (replicate (length rows) (mkRow [] []))))).
Proof.
  unfold headersTmpl, default. cbn [Method Path Host Count Rows]. do 4 (apply tags_value; [closed_text|]).
  rewrite length_replicate. case_bool_decide; [reflexivity|]. cbn [negb]. rewrite <- !(assoc_L (++)).
  apply tags_prefix; [closed_text|]. apply tags_prefix; [closed_text|]. by apply tags_rows.
Qed.

Lemma tags_echo (state v e m : bytes) :
  tags false (default [] (echoTmpl (mkEcho state v e m))) = tags false (default [] (echoTmpl (mkEcho state [] [] []))).
Proof.
  unfold echoTmpl, default. cbn [State EchoValue EmptyBody ErrorMsg].
  repeat case_bool_decide; rewrite <- !(assoc_L (++)); (apply tags_value; [closed_text|reflexivity]).
Qed.


(** A page of the site is one of these, whatever the values in it. *)
Definition is_kind (k : kind) (status : Z) (body : bytes) : Prop :=
  tags false body = tags false (blank k) /\ status = match k with KNotFound => 404 | _ => 200 end.

Lemma echo_page (d : echoPageData) : exists body, echoPage d = Page 200 textHtml body /\ is_kind (KEcho (State d)) 200 body.
Proof.
  destruct d as [st v e m]. eexists. split; [reflexivity|]. split; [|done]. unfold blank. apply tags_layout. apply tags_echo.
Qed.

Lemma handleEcho_page (r : request) : exists d, handleEcho r = echoPage d.
Proof.
  unfold handleEcho, handleEchoPost, renderEchoError. case_match; [by eexists|]. destruct (ParseForm _ r) as [[|] form]; [by eexists|].
  case_match; by eexists.
Qed.

(** Every page of a handler is a page of the site, with the status that goes with it. *)
Lemma handle_page (styleCSS cipher requestedAt uptime : bytes) (order : list bytes) (r : request) (rt : route) :
  exists status ct body, handle styleCSS cipher requestedAt uptime order r rt = Page status ct body /\
    (rt = Style /\ status = 200 /\ body = styleCSS \/
     rt <> Style /\ ct = textHtml /\ exists k, is_kind k status body /\
       match rt with
       | Landing => k = (if bool_decide (r_path r = of_string "/") then KLanding else KNotFound)
       | Status => k = KStatus
       | About => k = KAbout
       | Echo => exists st, k = KEcho st
       | Headers => k = KHeaders (length order)
       | Style => False
       end).
Proof.
  destruct rt; cbn [handle].
  - unfold handleLanding, handleNotFound. case_bool_decide; do 3 eexists; (split; [reflexivity|]); right; do 2 (split; [done|]).
    + exists KLanding. by split; [split|].
    + exists KNotFound. by split; [split|].
  - unfold handleStatus. destruct (splitHostPortOrEmDash _) as [ip port]. do 3 eexists. split; [reflexivity|]. right. do 2 (split; [done|]).
    exists KStatus. split; [|done]. split; [|done]. apply tags_layout, tags_status.
  - do 3 eexists. split; [reflexivity|]. right. do 2 (split; [done|]). exists KAbout. by split; [split|].
  - destruct (handleEcho_page r) as [d ->]. destruct (echo_page d) as (body & -> & Hk). do 3 eexists. split; [reflexivity|]. right.
    do 2 (split; [done|]). eexists. split; [exact Hk|]. by eexists.
  - do 3 eexists. split; [reflexivity|]. right. do 2 (split; [done|]). exists (KHeaders (length order)). split; [|done]. split; [|done].
    unfold blank. apply tags_layout. etransitivity; [apply tags_headers|]. unfold headerRows. rewrite length_map.
    by rewrite (Permutation_length (merge_sort_Permutation bytes_ordered order)).
  - do 3 eexists. split; [reflexivity|]. left. done.
Qed.

(** ** Paths *)

(** A segment that cleaning keeps. *)
Definition kept_segment (s : bytes) : Prop := s <> [] /\ s <> of_string "." /\ s <> of_string ".." /\ 47 ∉ s.

Lemma clean_segments_kept (segs stack : list bytes) :
  Forall kept_segment stack -> Forall (fun s => 47 ∉ s) segs -> Forall kept_segment (clean_segments stack segs).
Proof.
  revert stack. induction segs as [|s segs IH]; intros stack Hs Hg; cbn [clean_segments]; [by apply Forall_rev|].
  apply Forall_cons in Hg as [Hg1 Hg2]. case_bool_decide; [by apply IH|]. case_bool_decide; [by apply IH|]. cbn [orb]. case_bool_decide.
  - apply IH; [|done]. destruct stack as [|x stack]; [done|]. by apply Forall_cons in Hs as [_ Hs].
  - apply IH; [|done]. by apply Forall_cons.
Qed.

Lemma clean_segments_id (segs stack : list bytes) :
  Forall kept_segment segs -> clean_segments stack (segs ++ [[]]) = rev stack ++ segs /\ clean_segments stack segs = rev stack ++ segs.
Proof.
  revert stack. induction segs as [|s segs IH]; intros stack Hs; [cbn; by rewrite app_nil_r|].
  apply Forall_cons in Hs as [(H1 & H2 & H3 & _) Hs]. cbn [app clean_segments]. rewrite !bool_decide_eq_false_2 by done. cbn [orb].
  destruct (IH (s :: stack) Hs) as [-> ->]. cbn [rev]. by rewrite <- !(assoc_L (++)).
Qed.

(** A cleaned path. *)
Definition of_segments (l : list bytes) : bytes := 47 :: join 47 l.

Lemma split_segments (l : list bytes) : l <> [] -> Forall kept_segment l -> split_on 47 (of_segments l) = [] :: l.
Proof.
  intros Hl Hk. unfold of_segments. cbn [split_on]. rewrite Z.eqb_refl, split_join; [done|done|].
  eapply Forall_impl; [exact Hk|]. by intros s (_ & _ & _ & ?).
Qed.

Lemma join_snoc (l : list bytes) : l <> [] -> join 47 (l ++ [[]]) = join 47 l ++ [47].
Proof.
  destruct l as [|w l]; [done|]. intros _. revert w. induction l as [|v l IH]; intros w; [done|].
  change (join 47 ((w :: v :: l) ++ [[]])) with (w ++ [47] ++ join 47 ((v :: l) ++ [[]])). rewrite IH.
  change (join 47 (w :: v :: l)) with (w ++ [47] ++ join 47 (v :: l)). by rewrite <- !(assoc_L (++)).
Qed.

Lemma last_segments (l : list bytes) : l <> [] -> Forall kept_segment l -> last (of_segments l) <> Some 47.
Proof.
  intros Hl Hk. assert (Hj : exists j x, join 47 l = j ++ [x] /\ x <> 47).
  { destruct l as [|w l]; [done|]. clear Hl. revert w Hk. induction l as [|v l IH]; intros w Hk.
    - apply Forall_cons in Hk as [(Hn & _ & _ & Hs) _]. cbn [join]. destruct (exists_last Hn) as (j & x & ->). exists j, x. split; [done|].
      intros ->. apply Hs. rewrite elem_of_app. right. by apply list_elem_of_singleton.
    - apply Forall_cons in Hk as [_ Hk]. destruct (IH v Hk) as (j & x & E & Hx). exists (w ++ [47] ++ j), x. split; [|done].
      change (join 47 (w :: v :: l)) with (w ++ [47] ++ join 47 (v :: l)). by rewrite E, <- !(assoc_L (++)). }
  destruct Hj as (j & x & E & Hx). unfold of_segments. rewrite E. rewrite app_comm_cons, last_snoc. by intros [= ->].
Qed.

Lemma path_Clean_segments (p : bytes) : exists l, Forall kept_segment l /\ path_Clean p = of_segments l.
Proof.
  exists (clean_segments [] (split_on 47 p)). split; [|done]. apply clean_segments_kept; [constructor|apply split_on_no_sep].
Qed.

(** Cleaning leads to a rooted path that it leaves alone: a redirect is never followed
    by another. *)
Lemma cleanPath_done (p : bytes) : cleanPath p <> [] /\ cleanPath (cleanPath p) = cleanPath p.
Proof.
  assert (Hone : forall l, Forall kept_segment l -> cleanPath (of_segments l) = of_segments l).
  { intros l Hk. destruct (decide (l = [])) as [->|Hl]; [done|]. unfold cleanPath. unfold of_segments at 1. rewrite Z.eqb_refl.
    fold (of_segments l). rewrite (bool_decide_eq_false_2 (last (of_segments l) = Some 47)) by (by apply last_segments). cbn [andb].
    unfold path_Clean. rewrite split_segments by done. cbn [clean_segments]. rewrite (bool_decide_eq_true_2 ([] = [])) by done. cbn [orb].
    by destruct (clean_segments_id l [] Hk) as [_ ->]. }
  assert (Htwo : forall l, l <> [] -> Forall kept_segment l -> cleanPath (of_segments l ++ [47]) = of_segments l ++ [47]).
  { intros l Hl Hk. unfold cleanPath. unfold of_segments at 1. cbn [app]. rewrite Z.eqb_refl. change (47 :: join 47 l ++ [47]) with (of_segments l ++ [47]).
    assert (E : path_Clean (of_segments l ++ [47]) = of_segments l).
    { unfold path_Clean, of_segments. rewrite <- app_comm_cons, <- join_snoc by done. cbn [split_on]. rewrite Z.eqb_refl.
      rewrite split_join; [|by destruct l|].
      - cbn [clean_segments]. rewrite (bool_decide_eq_true_2 ([] = [])) by done. cbn [orb]. by destruct (clean_segments_id l [] Hk) as [-> _].
      - apply Forall_app. split; [|repeat constructor; apply not_elem_of_nil]. eapply Forall_impl; [exact Hk|]. by intros s (_ & _ & _ & ?). }
    rewrite E, last_snoc, bool_decide_eq_true_2 by done. cbn [andb]. rewrite bool_decide_eq_false_2; [done|].
    intros Hx. apply (last_segments l Hl Hk). by rewrite Hx. }
  destruct p as [|c p]; [done|]. set (q := if c =? 47 then c :: p else 47 :: c :: p).
  destruct (path_Clean_segments q) as (l & Hk & E).
  assert (Ec : cleanPath (c :: p) = if bool_decide (last q = Some 47) && negb (bool_decide (of_segments l = of_string "/"))
    then of_segments l ++ [47] else of_segments l) by (unfold cleanPath; fold q; by rewrite E).
  rewrite Ec. destruct (_ && _) eqn:Eb; [|split; [done|by apply Hone]].
  split; [by destruct l|]. apply Htwo; [|done]. intros ->. by rewrite andb_comm in Eb.
Qed.

(** ** The echo form *)

(** The bytes a form encoder leaves as they are. *)
Definition unreserved (c : Z) : bool :=
  ((48 <=? c) && (c <=? 57)) || ((65 <=? c) && (c <=? 90)) || ((97 <=? c) && (c <=? 122)) ||
  (c =? 45) || (c =? 46) || (c =? 95) || (c =? 126).

Definition upperHex (v : Z) : Z := if v <? 10 then 48 + v else 55 + v.

(** [url.QueryEscape], which is what a browser does to a field of a form. *)
Definition QueryEscape (s : bytes) : bytes :=
  concat (map (fun c => if unreserved c then [c] else if c =? 32 then [43] else [37; upperHex (c / 16); upperHex (c mod 16)]) s).

Lemma hexValue_upper (v : Z) : 0 <= v < 16 -> hexValue (upperHex v) = Some v.
Proof. intros Hv. unfold hexValue, upperHex. destruct (Z.ltb_spec v 10); bool_cases; cbn; try lia; f_equal; lia. Qed.

Lemma QueryUnescape_escape (s : bytes) : bytes_ok s -> QueryUnescape (QueryEscape s) = Some s.
Proof.
  unfold QueryUnescape. induction 1 as [|c s Hc _ IH]; [done|]. unfold QueryEscape. cbn [map concat]. fold (QueryEscape s).
  destruct (unreserved c) eqn:Eu.
  - cbn [app unescape]. unfold unreserved in Eu. rewrite (proj2 (Z.eqb_neq c 37)), (proj2 (Z.eqb_neq c 43)), IH by lia. done.
  - destruct (Z.eqb_spec c 32) as [->|Hne]; cbn [app]; [cbn; by rewrite IH|]. unfold is_u8 in Hc.
    change (unescape true (37 :: ?a :: ?b :: ?l)) with
      (match hexValue a, hexValue b, unescape true l with Some x, Some y, Some rest => Some (x * 16 + y :: rest) | _, _, _ => None end).
    rewrite !hexValue_upper, IH by word_lia. do 2 f_equal. word_lia.
Qed.

(** Encoded text has none of the separators of a query. *)
Lemma QueryEscape_clean (s : bytes) : bytes_ok s -> Forall (fun c => c <> 38 /\ c <> 59 /\ c <> 61) (QueryEscape s).
Proof.
  assert (Hh : forall v, 0 <= v < 16 -> upperHex v <> 38 /\ upperHex v <> 59 /\ upperHex v <> 61) by (intros v Hv; unfold upperHex; destruct (Z.ltb_spec v 10); lia).
  induction 1 as [|c s Hc _ IH]; [constructor|]. unfold QueryEscape. cbn [map concat]. fold (QueryEscape s). apply Forall_app. split; [|exact IH].
  unfold is_u8 in Hc. destruct (unreserved c) eqn:Eu; [apply Forall_singleton; unfold unreserved in Eu; lia|].
  destruct (c =? 32); [decide_now|]. repeat (apply Forall_cons; split); [lia|apply Hh; word_lia|apply Hh; word_lia|constructor].
Qed.

(** The body a browser posts for a message. *)
Definition form_body (msg : bytes) : bytes := of_string "msg=" ++ QueryEscape msg.

Lemma ParseQuery_form (msg : bytes) : bytes_ok msg -> ParseQuery (form_body msg) = (false, [(of_string "msg", msg)]).
Proof.
  intros Hok. pose proof (QueryEscape_clean msg Hok) as Hq. unfold ParseQuery.
  assert (Hno : forall c, c = 38 \/ c = 59 -> c ∉ form_body msg).
  { intros c Hc Hin. apply elem_of_app in Hin as [Hin|Hin].
    { assert (H1 : 38 ∉ of_string "msg=") by decide_now. assert (H2 : 59 ∉ of_string "msg=") by decide_now. by destruct Hc as [-> | ->]. }
    rewrite Forall_forall in Hq. specialize (Hq c Hin). destruct Hc; lia. }
  rewrite split_on_word by (by apply Hno; left). cbn [map existsb concat]. unfold parsePair.
  rewrite bool_decide_eq_false_2 by (by apply Hno; right). rewrite bool_decide_eq_false_2 by done.
  change (Cut (form_body msg) 61) with (of_string "msg", QueryEscape msg). cbv iota beta. change (QueryUnescape (of_string "msg")) with (Some (of_string "msg")).
  by rewrite QueryUnescape_escape.
Qed.

Lemma around3 {A : Type} (x y z c w : list A) : x ++ y ++ z ++ c ++ w = (x ++ y ++ z) ++ c ++ w.
Proof. by rewrite <- !(assoc_L (++)). Qed.

Lemma around1 {A : Type} (x c y z : list A) : (x ++ c ++ y) ++ z = x ++ c ++ y ++ z.
Proof. by rewrite <- !(assoc_L (++)). Qed.
Lemma around2 {A : Type} (x1 x c y y1 : list A) : x1 ++ (x ++ c ++ y) ++ y1 = (x1 ++ x) ++ c ++ y ++ y1.
Proof. by rewrite <- !(assoc_L (++)). Qed.

Lemma layout_around (title : bytes) : exists before after, forall content, layoutTmpl title content = before ++ content ++ after.
Proof.
  unfold layoutTmpl. match goal with |- exists b a, forall c, ?x ++ ?y ++ ?z ++ _ ++ ?w = _ => exists (x ++ y ++ z), w end.
  intros content. apply around3.
Qed.

(** The page of an accepted message has the message, escaped, in a fixed place. *)
Lemma populated_page :
  exists before after, forall m, echoPage (mkEcho (of_string "populated") m [] []) = Page 200 textHtml (before ++ escape m ++ after).
Proof.
  destruct (layout_around (of_string "Echo test")) as (b1 & a1 & Hl).
  assert (Ht : exists b a, forall m, echoTmpl (mkEcho (of_string "populated") m [] []) = Some (b ++ escape m ++ a)).
  { unfold echoTmpl. cbn [State EchoValue]. change (bool_decide (of_string "populated" = of_string "empty")) with false.
    change (bool_decide (of_string "populated" = of_string "error")) with false. cbv iota.
    match goal with |- exists b a, forall m, Some ((?x ++ _ ++ ?y) ++ ?z) = _ => exists x, (y ++ z) end.
    intros m. f_equal. apply around1. }
  destruct Ht as (b & a & Ht). exists (b1 ++ b), (a ++ a1). intros m. unfold echoPage, renderPage. rewrite Ht, Hl.
  f_equal. apply around2.
Qed.

(** The echo form.  For whatever bytes a browser submits, the page answers with the
    message as it was typed, each byte in its escaped form, exactly when the encoded body
    fits the reader's limit of 8192 bytes, the message has at most 4096 bytes and is not
    blank; otherwise with the error page, which shows nothing of it; and always with
    status 200. *)
Theorem echo_round_trip (r : request) (msg : bytes) :
  bytes_ok msg -> r_method r = of_string "POST" -> r_media r = (UrlEncoded, false) -> r_body r = (form_body msg, false) -> r_query r = [] ->
  handleEcho r =
    (if (zlen (form_body msg) <=? maxEchoBodyBytesLimit) && (zlen msg <=? maxEchoMsgBytes) && negb (bool_decide (trim_space msg = []))
     then echoPage (mkEcho (of_string "populated") msg [] []) else renderEchoError) /\
  exists before after, forall m, echoPage (mkEcho (of_string "populated") m [] []) = Page 200 textHtml (before ++ escape m ++ after).
Proof.
  intros Hok Hm Hmedia Hbody Hquery. split.
  - unfold handleEcho, handleEchoPost, ParseForm, readLimited. rewrite Hm, Hmedia, Hbody, Hquery. change (negb (bool_decide (of_string "POST" = of_string "POST"))) with false.
    cbn [fst snd]. destruct (Z.ltb_spec maxEchoBodyBytesLimit (zlen (form_body msg))) as [|Hl]; [by rewrite (proj2 (Z.leb_gt _ _))|].
    rewrite (proj2 (Z.leb_le _ _) Hl), ParseQuery_form by done. cbn [andb orb app]. change (ParseQuery []) with (false, @nil (bytes * bytes)).
    cbv iota beta. change (FormValue [(of_string "msg", msg)] (of_string "msg")) with msg.
    case_bool_decide; cbn [orb negb]; [by rewrite andb_false_r|]. rewrite andb_true_r.
    destruct (Z.ltb_spec maxEchoMsgBytes (zlen msg)); [by rewrite (proj2 (Z.leb_gt _ _))|by rewrite (proj2 (Z.leb_le _ _))].
  - apply populated_page.
Qed.

(** ** Headers and addresses *)

(** The listing does not depend on the order in which the runtime walks over the map: one
    row per header, by name. *)
Lemma headerRows_order (header : gmap bytes (list bytes)) (o1 o2 : list bytes) :
  o1 ≡ₚ o2 -> headerRows header o1 = headerRows header o2.
Proof.
  intros HP. unfold headerRows. f_equal.
  apply (StronglySorted_unique bytes_ordered); [apply (StronglySorted_merge_sort bytes_ordered); apply _..|].
  by rewrite !merge_sort_Permutation.
Qed.

Lemma headerRows_complete (header : gmap bytes (list bytes)) (order : list bytes) :
  order ≡ₚ map fst (map_to_list header) ->
  StronglySorted bytes_ordered (map Name (headerRows header order)) /\ NoDup (map Name (headerRows header order)) /\
  forall row, row ∈ headerRows header order <->
    exists values, header !! Name row = Some values /\ Value row = Join values (of_string ", ").
Proof.
  intros HO. unfold headerRows. rewrite map_map. cbn [Name]. rewrite map_id.
  assert (HP : merge_sort bytes_ordered order ≡ₚ map fst (map_to_list header)) by (by rewrite merge_sort_Permutation).
  split; [apply (StronglySorted_merge_sort bytes_ordered); apply _|]. split; [rewrite HP; apply NoDup_fst_map_to_list|].
  assert (Hkeys : forall name, name ∈ merge_sort bytes_ordered order <-> is_Some (header !! name)).
  { intros name. rewrite HP, list_elem_of_fmap. split.
    - intros ([n v] & -> & Hin). apply elem_of_map_to_list in Hin. by eexists.
    - intros [v Hv]. exists (name, v). split; [done|]. by apply elem_of_map_to_list. }
  intros [name value]. cbn [Name Value]. rewrite list_elem_of_fmap. split.
  - intros (n & [= -> ->] & Hin). apply Hkeys in Hin as [v Hv]. exists v. by rewrite Hv.
  - intros (v & Hv & ->). exists name. rewrite Hv. split; [done|]. apply Hkeys. by eexists.
Qed.

(** [net.TCPAddr.String] for an IPv4 address. *)
Definition dotted (ip : bytes) : bytes := join 46 (map itoa ip).
Definition TCPAddr_String (ip : bytes) (port : Z) : bytes := dotted ip ++ [58] ++ itoa port.

Lemma dotted_avoids (ip : bytes) (c : Z) : bytes_ok ip -> is_digit c = false -> c <> 46 -> c ∉ dotted ip.
Proof.
  intros Hok Hc Hne. unfold dotted. induction Hok as [|b ip Hb Hok IH]; [apply not_elem_of_nil|]. unfold is_u8 in Hb.
  assert (Hd : c ∉ itoa b) by (apply digits_avoid; [done|apply itoa_digits; lia]).
  destruct ip as [|b' ip]; [done|]. change (join 46 (map itoa (b :: b' :: ip))) with (itoa b ++ [46] ++ join 46 (map itoa (b' :: ip))).
  rewrite !not_elem_of_app. split; [done|]. split; [|exact IH]. by intros ?%list_elem_of_singleton.
Qed.

Lemma LastIndexByte_app (a b : bytes) (c : Z) : c ∉ b -> LastIndexByte (a ++ c :: b) c = Some (length a).
Proof.
  intros Hb. assert (Hn : LastIndexByte b c = None).
  { clear a. induction b as [|x b IH]; [done|]. apply not_elem_of_cons in Hb as [Hx Hb]. cbn. rewrite IH by done. by rewrite (proj2 (Z.eqb_neq x c)). }
  induction a as [|x a IH]; cbn; [by rewrite Hn, Z.eqb_refl|by rewrite IH].
Qed.

(** The status page shows a tunnel client its own address and port. *)
Lemma SplitHostPort_peer (ip : bytes) (port : Z) :
  ip <> [] -> bytes_ok ip -> 0 <= port -> SplitHostPort (TCPAddr_String ip port) = Some (dotted ip, itoa port).
Proof.
  intros Hne Hok Hp. unfold SplitHostPort, TCPAddr_String. cbn [app].
  assert (Hport : forall c, is_digit c = false -> c ∉ itoa port) by (intros c Hc; apply digits_avoid; [done|by apply itoa_digits]).
  rewrite LastIndexByte_app by (by apply Hport).
  assert (Hin : forall c, is_digit c = false -> c <> 46 -> c <> 58 -> c ∉ dotted ip ++ 58 :: itoa port).
  { intros c H1 H2 H3. rewrite not_elem_of_app, not_elem_of_cons. split; [by apply dotted_avoids|]. split; [done|by apply Hport]. }
  rewrite bool_decide_eq_false_2.
  2:{ intros Hh. apply (Hin 91); [done..|]. destruct (dotted ip) as [|x l]; cbn in Hh; injection Hh as ->; apply list_elem_of_here. }
  rewrite take_app_length, bool_decide_eq_false_2 by (by apply dotted_avoids). cbv iota beta. rewrite !drop_0.
  rewrite !bool_decide_eq_false_2 by (by apply Hin).
  replace (drop (S (length (dotted ip))) _) with (itoa port); [done|].
  rewrite <- (Nat.add_1_r (length _)), <- drop_drop, drop_app_length. done.
Qed.

(** The path a request is matched by. *)
Definition matched (r : request) : bytes :=
  if bool_decide (r_method r = of_string "CONNECT") then r_escaped r else cleanPath (r_escaped r).

Lemma Handler_matched (styleCSS cipher requestedAt uptime : bytes) (order : list bytes) (r : request) : r_uri r <> of_string "*" ->
  Handler styleCSS cipher requestedAt uptime order r =
    if bool_decide (matched r = r_escaped r) then
      match match_path (matched r) with Some rt => handle styleCSS cipher requestedAt uptime order r rt | None => PlainNotFound end
    else Redirect (matched r).
Proof.
  intros Hu. unfold Handler, matched. rewrite (bool_decide_eq_false_2 (r_uri r = _)) by done.
  destruct (bool_decide (r_method r = _)); [by rewrite bool_decide_eq_true_2|]. by case_bool_decide.
Qed.

(** C29. What every request is answered with.  A request for the target [*] is refused
    with status 400, and from HTTP/1.1 on with the connection closed.  Any other is matched
    by its path, of a CONNECT request as it is and otherwise in its cleaned form; a path
    that is not in its cleaned form is redirected to that form, which is its own cleaned
    form.  A CONNECT request without a path is answered by the standard library's plain
    404, the one case in which that happens.  Every other request gets a page of the site
    whose markup is fixed: the page its path names, the landing page or the site's own
    not-found page (with status 404, and no other page has it); and the tags of the page,
    with all that is in them, are those of the same page with every value empty, whatever
    the method, the path, the host, the headers, the form and the addresses contain. *)
Theorem site_pages (styleCSS cipher requestedAt uptime : bytes) (order : list bytes) (r : request) :
  let response := Handler styleCSS cipher requestedAt uptime order r in
  let path := matched r in
  (r_uri r = of_string "*" -> response = BadRequest (ProtoAtLeast 1 1 r)) /\
  (r_uri r <> of_string "*" -> path <> r_escaped r ->
     response = Redirect path /\ cleanPath path = path /\ r_method r <> of_string "CONNECT") /\
  (r_uri r <> of_string "*" -> path = r_escaped r -> path = [] ->
     response = PlainNotFound /\ r_method r = of_string "CONNECT") /\
  (r_uri r <> of_string "*" -> path = r_escaped r -> path <> [] ->
     exists rt status ct body, match_path path = Some rt /\ response = Page status ct body /\
     (rt = Style /\ status = 200 /\ body = styleCSS \/
      rt <> Style /\ ct = textHtml /\ exists k, is_kind k status body /\
        match rt with
        | Landing => k = (if bool_decide (r_path r = of_string "/") then KLanding else KNotFound)
        | Status => k = KStatus
        | About => k = KAbout
        | Echo => exists st, k = KEcho st
        | Headers => k = KHeaders (length order)
        | Style => False
        end)).
Proof.
  cbv zeta. split; [intros Hu; unfold Handler; by rewrite bool_decide_eq_true_2|].
  pose proof (Handler_matched styleCSS cipher requestedAt uptime order r) as HH.
  destruct (cleanPath_done (r_escaped r)) as [D1 D2]. split_and!; intros Hu Hp; rewrite (HH Hu).
  - rewrite bool_decide_eq_false_2 by done. revert Hp. unfold matched. destruct (bool_decide_reflect (r_method r = of_string "CONNECT")); [done|]. done.
  - intros Hn. rewrite bool_decide_eq_true_2 by done. rewrite Hn. split; [done|]. revert Hn. unfold matched.
    destruct (bool_decide_reflect (r_method r = of_string "CONNECT")); [done|]. intros Hn. by rewrite Hn in D1.
  - intros Hn. rewrite bool_decide_eq_true_2 by done.
    assert (Hr : exists rt, match_path (matched r) = Some rt).
    { clear HH. destruct (matched r) as [|c p]; [done|]. cbn [match_path]. case_bool_decide; by eexists. }
    destruct Hr as [rt Hr]. rewrite Hr. destruct (handle_page styleCSS cipher requestedAt uptime order r rt) as (st & ct & body & E1 & E2).
    exists rt, st, ct, body. by split_and!.
Qed.

Module Toy.
Definition get (path : string) : request :=
  mkRequest (of_string "GET") (of_string path) (1, 1) (of_string path) (of_string path) [] (of_string "10.8.0.1:8080")
    {[ of_string "X" := [of_string "<b>"; of_string "2"] ]} (OtherMedia, false) ([], false) (of_string "10.8.0.2:40000") (Some (of_string "10.8.0.1:8080")).
Definition post (msg : bytes) : request :=
  mkRequest (of_string "POST") (of_string "/echo") (1, 1) (of_string "/echo") (of_string "/echo") [] (of_string "10.8.0.1:8080") ∅ (UrlEncoded, false)
    (form_body msg, false) (of_string "10.8.0.2:40000") None.

(** A CONNECT request for an authority, which has no path, and a request for [*]. *)
Definition connect : request :=
  mkRequest (of_string "CONNECT") (of_string "10.8.0.1:8080") (1, 1) [] [] [] (of_string "10.8.0.1:8080") ∅ (OtherMedia, false) ([], false)
    (of_string "10.8.0.2:40000") None.
Definition star : request :=
  mkRequest (of_string "GET") (of_string "*") (1, 1) (of_string "*") (of_string "*") [] (of_string "10.8.0.1:8080") ∅ (OtherMedia, false)
    ([], false) (of_string "10.8.0.2:40000") None.

Example plain_not_found : Handler [] [] [] [] [] connect = PlainNotFound.
Proof. vm_compute. reflexivity. Qed.

Example clean : map cleanPath (map of_string ["//status"; "/a/../status/"; ""; "/./"; "x"]%string) =
  map of_string ["/status"; "/status/"; "/"; "/"; "/x"]%string.
Proof. vm_compute. reflexivity. Qed.

(** A message of 2800 bytes, well below the limit of 4096, is refused because its encoded
    form is longer than 8192 bytes. *)
Example short_message_refused : zlen (replicate 2800 233) <=? maxEchoMsgBytes = true /\
  handleEcho (post (replicate 2800 233)) = renderEchoError.
Proof. split; vm_compute; reflexivity. Qed.

Example split_ipv6 : SplitHostPort (of_string "[::1]:80") = Some (of_string "::1", of_string "80") /\ SplitHostPort (of_string "::1:80") = None.
Proof. split; vm_compute; reflexivity. Qed.
End Toy.

Lemma echo_round_trip_witness :
  handleEcho (Toy.post (of_string "a <b> & +")) = echoPage (mkEcho (of_string "populated") (of_string "a <b> & +") [] []).
Proof.
  destruct (echo_round_trip (Toy.post (of_string "a <b> & +")) (of_string "a <b> & +")) as [H _];
    [decide_now|reflexivity|reflexivity|reflexivity|reflexivity|].
  rewrite H. vm_compute. reflexivity.
Defined.

Lemma site_pages_witness :
  (exists rt status ct body, match_path (of_string "/headers") = Some rt /\
     Handler [] [] [] [] [of_string "X"] (Toy.get "/headers") = Page status ct body /\ ct = textHtml) /\
  Handler [] [] [] [] [] (Toy.get "/a/../about") = Redirect (of_string "/about") /\
  Handler [] [] [] [] [] Toy.connect = PlainNotFound /\ Handler [] [] [] [] [] Toy.star = BadRequest true.
Proof.
  split; [|split; [|split]].
  - destruct (site_pages [] [] [] [] [of_string "X"] (Toy.get "/headers")) as (_ & _ & _ & H).
    destruct (H ltac:(vm_compute; discriminate) ltac:(vm_compute; reflexivity) ltac:(vm_compute; discriminate)) as (rt & st & ct & body & H1 & H2 & H3).
    exists rt, st, ct, body. split; [exact H1|]. split; [exact H2|]. destruct H3 as [[H3 _]|[_ [H3 _]]]; [|exact H3].
    rewrite H3 in H1. vm_compute in H1. discriminate H1.
  - destruct (site_pages [] [] [] [] [] (Toy.get "/a/../about")) as (_ & H & _). apply H; vm_compute; discriminate.
  - destruct (site_pages [] [] [] [] [] Toy.connect) as (_ & _ & H & _). apply H; vm_compute; [discriminate|reflexivity|reflexivity].
  - destruct (site_pages [] [] [] [] [] Toy.star) as (H & _). exact (H eq_refl).
Defined.
End Site.
