(* ===== verification/TcpConn.v ===== *)
(** * TcpConn: one TCP connection

    Model of [netstack/tcp_conn.go], [netstack/tcp_state.go] and
    [netstack/tcp_timer.go]: the send and receive sides of a connection, the
    inbound segment handler with its state machine, the retransmission, persist
    and TIME_WAIT timer, Read, Write, Close and CloseWrite, and teardown.

    The struct's fields are grouped as its comments group them: send side,
    receive side, timers.  Every method that holds the connection's mutex is one
    function of the record; what it does after releasing the mutex (segments to
    transmit, calls of the demultiplexer, counters) is the list of actions it
    returns, in the order of the code.  The notification channel is a number
    that [broadcastLocked] advances.  The retransmission timer is the duration it
    was last reset to, [None] once stopped or fired.  Read and Write are the
    passes of their loops between two waits. *)

From stdpp Require Import gmap.
From S2P Require Import Prelude TcpSegment Deadline.
Import TcpSegment.

Module TcpConn.

Definition defaultMSS : Z := 1460.
Definition defaultReceiveWindow : Z := 65535.
Definition maxInFlightBytes : Z := 65535.
Definition maxPersistProbes : Z := 20.
Definition maxReorderSegments : Z := 16.
Definition initialRTO : Z := 300 * 1000000.
Definition maxRTO : Z := 8 * 1000000000.
Definition maxRetransmits : Z := 6.
Definition timeWaitDuration : Z := 5 * 1000000000.

Inductive conn_error :=
  | ErrTCPConnReset | errTCPWriteAfterClose | errTCPConnClosed | errDeadlineExceeded | EOF.

#[export] Instance conn_error_eq_dec : EqDecision conn_error.
Proof. solve_decision. Defined.

Inductive tcpState :=
  | stateListen | stateSynRcvd | stateEstablished | stateFinWait1 | stateFinWait2
  | stateClosing | stateTimeWait | stateCloseWait | stateLastAck | stateClosed.

#[export] Instance tcpState_eq_dec : EqDecision tcpState.
Proof. solve_decision. Defined.

Record fourTuple := mkFourTuple { remoteIP : bytes; remotePort : Z; localPort : Z }.

#[export] Instance fourTuple_eq_dec : EqDecision fourTuple.
Proof. solve_decision. Defined.
#[export] Instance fourTuple_countable : Countable fourTuple.
Proof.
  by apply (inj_countable' (fun k => (remoteIP k, remotePort k, localPort k))
              (fun '(a, b, c) => mkFourTuple a b c)); intros [].
Defined.

(** Send side: [outBuf] holds every byte from [sndUna] on, the first [sentBytes]
    of them in flight. *)
Record sendSide := mkSend {
  sndUna : Z;
  sndWnd : Z;
  sndMSS : Z;
  outBuf : bytes;
  sentBytes : Z;
  finSent : bool;
  finAcked : bool;
  finSeq : Z;
}.

(** Receive side. *)
Record recvSide := mkRecv {
  rcvNxt : Z;
  recvBuf : bytes;
  reorder : gmap Z bytes;
  hasPendingFIN : bool;
  pendingFINSeq : Z;
  peerClosed : bool;
}.

Record timers := mkTimers {
  rtoTimer : option Z;
  timerArmed : bool;
  retransmitCount : Z;
  persistProbeCount : Z;
  rto : Z;
  inTimeWait : bool;
  stopTimersClosed : bool;
}.

Record tcpConn := mkConn {
  c_a : nat;             (* the attachment *)
  c_listener : nat;
  c_key : fourTuple;
  c_state : tcpState;
  c_snd : sendSide;
  c_rcv : recvSide;
  c_tmr : timers;
  c_notify : nat;        (* the generation of [notifyCh] *)
  halfOpenCounted : bool;
  halfOpenIP : bytes;
  liveCounted : bool;
  c_err : option conn_error;
  readDeadline : Deadline.deadlineTimer;
  writeDeadline : Deadline.deadlineTimer;
  closeWriteOnce : bool; (* [CloseWrite]'s body has run *)
}.

(** What a method does once it has released the mutex. *)
Inductive conn_action :=
  | Send (seg : tcpSegment)    (* [sendOne] *)
  | RemoveConn                 (* [demux.removeConn(c)] *)
  | ReleaseHalfOpen            (* [demux.releaseHalfOpen(c)] *)
  | Enqueue                    (* [listener.enqueue(c)] *)
  | CountRstSent | CountRstReceived | CountReorderDropped.

(** [sendSegments]. *)
Definition sends : list tcpSegment -> list conn_action := map Send.

(** ** Field updates *)

Definition set_state (st : tcpState) (c : tcpConn) : tcpConn :=
  mkConn (c_a c) (c_listener c) (c_key c) st (c_snd c) (c_rcv c) (c_tmr c) (c_notify c)
    (halfOpenCounted c) (halfOpenIP c) (liveCounted c) (c_err c) (readDeadline c) (writeDeadline c)
    (closeWriteOnce c).
Definition set_snd (s : sendSide) (c : tcpConn) : tcpConn :=
  mkConn (c_a c) (c_listener c) (c_key c) (c_state c) s (c_rcv c) (c_tmr c) (c_notify c)
    (halfOpenCounted c) (halfOpenIP c) (liveCounted c) (c_err c) (readDeadline c) (writeDeadline c)
    (closeWriteOnce c).
Definition set_rcv (r : recvSide) (c : tcpConn) : tcpConn :=
  mkConn (c_a c) (c_listener c) (c_key c) (c_state c) (c_snd c) r (c_tmr c) (c_notify c)
    (halfOpenCounted c) (halfOpenIP c) (liveCounted c) (c_err c) (readDeadline c) (writeDeadline c)
    (closeWriteOnce c).
Definition set_tmr (t : timers) (c : tcpConn) : tcpConn :=
  mkConn (c_a c) (c_listener c) (c_key c) (c_state c) (c_snd c) (c_rcv c) t (c_notify c)
    (halfOpenCounted c) (halfOpenIP c) (liveCounted c) (c_err c) (readDeadline c) (writeDeadline c)
    (closeWriteOnce c).
Definition set_err (e : conn_error) (c : tcpConn) : tcpConn :=
  mkConn (c_a c) (c_listener c) (c_key c) (c_state c) (c_snd c) (c_rcv c) (c_tmr c) (c_notify c)
    (halfOpenCounted c) (halfOpenIP c) (liveCounted c) (Some e) (readDeadline c) (writeDeadline c)
    (closeWriteOnce c).
Definition set_counted (half live : bool) (c : tcpConn) : tcpConn :=
  mkConn (c_a c) (c_listener c) (c_key c) (c_state c) (c_snd c) (c_rcv c) (c_tmr c) (c_notify c)
    half (halfOpenIP c) live (c_err c) (readDeadline c) (writeDeadline c) (closeWriteOnce c).
Definition set_halfOpenIP (ip : bytes) (c : tcpConn) : tcpConn :=
  mkConn (c_a c) (c_listener c) (c_key c) (c_state c) (c_snd c) (c_rcv c) (c_tmr c) (c_notify c)
    (halfOpenCounted c) ip (liveCounted c) (c_err c) (readDeadline c) (writeDeadline c)
    (closeWriteOnce c).
Definition set_deadlines (rd wd : Deadline.deadlineTimer) (c : tcpConn) : tcpConn :=
  mkConn (c_a c) (c_listener c) (c_key c) (c_state c) (c_snd c) (c_rcv c) (c_tmr c) (c_notify c)
    (halfOpenCounted c) (halfOpenIP c) (liveCounted c) (c_err c) rd wd (closeWriteOnce c).
Definition set_closeWriteOnce (c : tcpConn) : tcpConn :=
  mkConn (c_a c) (c_listener c) (c_key c) (c_state c) (c_snd c) (c_rcv c) (c_tmr c) (c_notify c)
    (halfOpenCounted c) (halfOpenIP c) (liveCounted c) (c_err c) (readDeadline c) (writeDeadline c) true.

Definition broadcastLocked (c : tcpConn) : tcpConn :=
  mkConn (c_a c) (c_listener c) (c_key c) (c_state c) (c_snd c) (c_rcv c) (c_tmr c) (S (c_notify c))
    (halfOpenCounted c) (halfOpenIP c) (liveCounted c) (c_err c) (readDeadline c) (writeDeadline c)
    (closeWriteOnce c).

Definition set_sentBytes (n : Z) (s : sendSide) : sendSide :=
  mkSend (sndUna s) (sndWnd s) (sndMSS s) (outBuf s) n (finSent s) (finAcked s) (finSeq s).
Definition set_outBuf (b : bytes) (s : sendSide) : sendSide :=
  mkSend (sndUna s) (sndWnd s) (sndMSS s) b (sentBytes s) (finSent s) (finAcked s) (finSeq s).
Definition set_sndWnd (w : Z) (s : sendSide) : sendSide :=
  mkSend (sndUna s) w (sndMSS s) (outBuf s) (sentBytes s) (finSent s) (finAcked s) (finSeq s).
Definition set_sndUna (u : Z) (s : sendSide) : sendSide :=
  mkSend u (sndWnd s) (sndMSS s) (outBuf s) (sentBytes s) (finSent s) (finAcked s) (finSeq s).
Definition set_finAcked (s : sendSide) : sendSide :=
  mkSend (sndUna s) (sndWnd s) (sndMSS s) (outBuf s) (sentBytes s) (finSent s) true (finSeq s).

(** [rtoTimer.Stop(); timerArmed = false]. *)
Definition disarm (t : timers) : timers :=
  mkTimers None false (retransmitCount t) (persistProbeCount t) (rto t) (inTimeWait t) (stopTimersClosed t).
(** [rtoTimer.Reset(d)]. *)
Definition reset (d : Z) (t : timers) : timers :=
  mkTimers (Some d) (timerArmed t) (retransmitCount t) (persistProbeCount t) (rto t) (inTimeWait t)
    (stopTimersClosed t).
(** [rto = r; retransmitCount = n; timerArmed = true; rtoTimer.Reset(rto)]. *)
Definition rearm (r n : Z) (t : timers) : timers :=
  mkTimers (Some r) true n (persistProbeCount t) r (inTimeWait t) (stopTimersClosed t).
Definition set_persist (n : Z) (t : timers) : timers :=
  mkTimers (rtoTimer t) (timerArmed t) (retransmitCount t) n (rto t) (inTimeWait t) (stopTimersClosed t).
Definition set_retransmits (n : Z) (t : timers) : timers :=
  mkTimers (rtoTimer t) (timerArmed t) n (persistProbeCount t) (rto t) (inTimeWait t) (stopTimersClosed t).
(** [rto = r; rtoTimer.Reset(rto)]. *)
Definition backoff (r : Z) (t : timers) : timers :=
  mkTimers (Some r) (timerArmed t) (retransmitCount t) (persistProbeCount t) r (inTimeWait t)
    (stopTimersClosed t).
(** [retransmitCount = 0; rto = initialRTO]. *)
Definition progress (t : timers) : timers :=
  mkTimers (rtoTimer t) (timerArmed t) 0 (persistProbeCount t) initialRTO (inTimeWait t) (stopTimersClosed t).
Definition set_armed (b : bool) (t : timers) : timers :=
  mkTimers (rtoTimer t) b (retransmitCount t) (persistProbeCount t) (rto t) (inTimeWait t) (stopTimersClosed t).
(** The timer has fired. *)
Definition fired (t : timers) : timers :=
  mkTimers None (timerArmed t) (retransmitCount t) (persistProbeCount t) (rto t) (inTimeWait t)
    (stopTimersClosed t).

(** ** Sequence numbers *)

Definition seqGT (a b : Z) : bool := 0 <? i32 (a -u32 b).
Definition seqGE (a b : Z) : bool := 0 <=? i32 (a -u32 b).

Definition buildRSTSegment (offending : tcpSegment) : tcpSegment :=
  if has_flag (flags offending) flagACK
  then mkTcpSegment (dstPort offending) (srcPort offending) (ack offending) 0 flagRST 0 false 0 []
  else mkTcpSegment (dstPort offending) (srcPort offending) 0 (seq offending +u32 segLen offending)
         (Z.lor flagRST flagACK) 0 false 0 [].

(** ** Windows *)

Definition recvWindowRemainingLocked (r : recvSide) : Z :=
  let used := map_fold (fun _ buf used => used +u32 u32 (zlen buf)) (u32 (zlen (recvBuf r))) (reorder r) in
  if defaultReceiveWindow <=? used then 0 else defaultReceiveWindow -u32 used.

Definition advertisedWindowLocked (r : recvSide) : Z := u16 (recvWindowRemainingLocked r).

Definition allowedInFlightLocked (s : sendSide) : Z :=
  if maxInFlightBytes <? sndWnd s then maxInFlightBytes else sndWnd s.

Definition rstInWindowLocked (c : tcpConn) (seg : tcpSegment) : bool :=
  let wnd := advertisedWindowLocked (c_rcv c) in
  let nxt := rcvNxt (c_rcv c) in
  if wnd =? 0 then seq seg =? nxt
  else seqGE (seq seg) nxt && seqGT (nxt +u32 wnd) (seq seg).

(** ** Segments *)

(** A segment of this connection with the given sequence number, flags and data. *)
Definition outSegment (c : tcpConn) (sq fl : Z) (data : bytes) : tcpSegment :=
  mkTcpSegment (localPort (c_key c)) (remotePort (c_key c)) sq (rcvNxt (c_rcv c)) fl
    (advertisedWindowLocked (c_rcv c)) false 0 data.

Definition buildACKLocked (c : tcpConn) : tcpSegment :=
  outSegment c (sndUna (c_snd c) +u32 sentBytes (c_snd c)) flagACK [].

(** The SYN-ACK, sent by [handleSYN] and again by the timer. *)
Definition synAckSegment (c : tcpConn) (ourMSS : Z) : tcpSegment :=
  mkTcpSegment (localPort (c_key c)) (remotePort (c_key c)) (sndUna (c_snd c)) (rcvNxt (c_rcv c))
    (Z.lor flagSYN flagACK) (advertisedWindowLocked (c_rcv c)) true ourMSS [].

(** The RST of [abort] and of a connection given up. *)
Definition abortRST (c : tcpConn) : tcpSegment :=
  mkTcpSegment (localPort (c_key c)) (remotePort (c_key c))
    (sndUna (c_snd c) +u32 sentBytes (c_snd c)) (rcvNxt (c_rcv c)) (Z.lor flagRST flagACK) 0 false 0 [].

(** ** Timers *)

Definition doubleRTO (d : Z) : Z :=
  let d := i64 (d * 2) in
  if maxRTO <? d then maxRTO else d.

Definition stopTimersLocked (c : tcpConn) : tcpConn :=
  let t := c_tmr c in
  set_tmr (mkTimers None (timerArmed t) (retransmitCount t) (persistProbeCount t) (rto t)
             (inTimeWait t) true) c.

Definition startTimeWaitLocked (c : tcpConn) : tcpConn :=
  let t := c_tmr c in
  set_state stateTimeWait
    (set_tmr (mkTimers (Some timeWaitDuration) true (retransmitCount t) (persistProbeCount t) (rto t)
                true (stopTimersClosed t)) c).

(** The loop of [sendPendingLocked]. *)
Fixpoint sendLoop (fuel : nat) (forceProbe : bool) (limit : Z) (c : tcpConn) (toSend : list tcpSegment)
    (sentAny : bool) : outcome tcp_error (tcpConn * list tcpSegment * bool) :=
  let s := c_snd c in
  if negb ((sentBytes s <? limit) && (sentBytes s <? u32 (zlen (outBuf s)))) then Ok (c, toSend, sentAny) else
  match fuel with
  | O => Err errFuel
  | S fuel =>
      let remainingWindow := limit -u32 sentBytes s in
      let remainingData := u32 (zlen (outBuf s)) -u32 sentBytes s in
      let chunk := if remainingData <? remainingWindow then remainingData else remainingWindow in
      let chunk := if sndMSS s <? chunk then sndMSS s else chunk in
      if chunk =? 0 then Ok (c, toSend, sentAny) else
      let sq := sndUna s +u32 sentBytes s in
      data ← slice (outBuf s) (sentBytes s) (sentBytes s +u32 chunk);
      let toSend := toSend ++ [outSegment c sq flagACK data] in
      let c := set_snd (set_sentBytes (sentBytes s +u32 chunk) s) c in
      if forceProbe then Ok (c, toSend, true) else sendLoop fuel forceProbe limit c toSend true
  end.

Definition sendPendingLocked (c : tcpConn) (toSend : list tcpSegment) (forceProbe : bool)
    : outcome tcp_error (tcpConn * list tcpSegment) :=
  let s := c_snd c in
  let limit := allowedInFlightLocked s in
  if (limit =? 0) && (negb forceProbe || (u32 (zlen (outBuf s)) <=? sentBytes s)) then
    let t := c_tmr c in
    if (sentBytes s <? u32 (zlen (outBuf s))) && negb (timerArmed t)
    then Ok (set_tmr (rearm initialRTO (retransmitCount t) t) c, toSend)
    else Ok (c, toSend)
  else
    let limit := if limit =? 0 then sentBytes s +u32 1 else limit in
    '(c, toSend, sentAny) ← sendLoop (length (outBuf s)) forceProbe limit c toSend false;
    if sentAny && negb forceProbe
    then Ok (set_tmr (rearm initialRTO 0 (c_tmr c)) c, toSend)
    else Ok (c, toSend).

(** ** Inbound segments *)

(** The part of [handleAckLocked] that retires acknowledged bytes. *)
Definition retireAcked (c : tcpConn) (ackNum : Z) : outcome tcp_error tcpConn :=
  let s := c_snd c in
  if negb (0 <? sentBytes s) then Ok c else
  let maxCovered := sndUna s +u32 sentBytes s in
  if negb (seqGT ackNum (sndUna s)) then Ok c else
  let covered := if seqGT ackNum maxCovered then maxCovered else ackNum in
  let amount := covered -u32 sndUna s in
  if negb (0 <? amount) then Ok c else
  outBuf ← slice_from (outBuf s) amount;
  let s := mkSend covered (sndWnd s) (sndMSS s) outBuf (sentBytes s -u32 amount)
             (finSent s) (finAcked s) (finSeq s) in
  let t := progress (c_tmr c) in
  let t := if sentBytes s =? 0 then disarm t else rearm (rto t) (retransmitCount t) t in
  Ok (broadcastLocked (set_tmr t (set_snd s c))).

Definition handleAckLocked (c : tcpConn) (seg : tcpSegment) (toSend : list tcpSegment)
    : outcome tcp_error (tcpConn * list tcpSegment) :=
  if negb (has_flag (flags seg) flagACK) then Ok (c, toSend) else
  let ackNum := ack seg in
  c ← retireAcked c ackNum;
  let s := c_snd c in
  let c := if finSent s && negb (finAcked s) && seqGE ackNum (finSeq s +u32 1)
           then let c := set_snd (set_finAcked s) c in
                if sentBytes s =? 0 then set_tmr (disarm (c_tmr c)) c else c
           else c in
  let c := if (sndWnd (c_snd c) =? 0) && (0 <? window seg)
           then set_tmr (set_persist 0 (c_tmr c)) c else c in
  let c := set_snd (set_sndWnd (window seg) (c_snd c)) c in
  sendPendingLocked c toSend false.

(** The loop that moves reordered segments into the buffer. *)
Fixpoint drainLoop (fuel : nat) (r : recvSide) : outcome tcp_error recvSide :=
  match reorder r !! rcvNxt r with
  | None => Ok r
  | Some data =>
      if recvWindowRemainingLocked r <? u32 (zlen data) then Ok r else
      match fuel with
      | O => Err errFuel
      | S fuel =>
          drainLoop fuel (mkRecv (rcvNxt r +u32 u32 (zlen data)) (recvBuf r ++ data)
            (delete (rcvNxt r) (reorder r)) (hasPendingFIN r) (pendingFINSeq r) (peerClosed r))
      end
  end.

(** The in-order case up to the drain: the bytes that fit, and whether all did. *)
Definition acceptData (r : recvSide) (seg : tcpSegment) : outcome tcp_error (recvSide * bool) :=
  let dataLen := u32 (zlen (payload seg)) in
  if negb (0 <? dataLen) then Ok (r, true) else
  let avail := recvWindowRemainingLocked r in
  let accept := if avail <? dataLen then avail else dataLen in
  r ← (if 0 <? accept then
         data ← slice (payload seg) 0 accept;
         Ok (mkRecv (rcvNxt r +u32 accept) (recvBuf r ++ data) (reorder r) (hasPendingFIN r)
               (pendingFINSeq r) (peerClosed r))
       else Ok r);
  Ok (r, accept =? dataLen).

(** The peer's FIN, consumed when everything before it has arrived. *)
Definition consumeFIN (r : recvSide) (seg : tcpSegment) : recvSide * bool :=
  let dataLen := u32 (zlen (payload seg)) in
  if has_flag (flags seg) flagFIN && (seq seg +u32 dataLen =? rcvNxt r)
  then (mkRecv (rcvNxt r +u32 1) (recvBuf r) (reorder r) (hasPendingFIN r) (pendingFINSeq r) true, true)
  else if hasPendingFIN r && (rcvNxt r =? pendingFINSeq r)
  then (mkRecv (rcvNxt r +u32 1) (recvBuf r) (reorder r) false (pendingFINSeq r) true, true)
  else (r, false).

(** The connection, the segments to send, whether the FIN was consumed, and what
    is counted. *)
Definition handleEstablishedDataLocked (c : tcpConn) (seg : tcpSegment) (toSend : list tcpSegment)
    : outcome tcp_error (tcpConn * list tcpSegment * bool * list conn_action) :=
  let r := c_rcv c in
  let dataLen := u32 (zlen (payload seg)) in
  if negb ((0 <? dataLen) || has_flag (flags seg) flagFIN) then Ok (c, toSend, false, []) else
  if seq seg =? rcvNxt r then
    '(r, fullyAccepted) ← acceptData r seg;
    '(r, fin) ← (if fullyAccepted : bool then
                   r ← drainLoop (size (reorder r)) r;
                   Ok (consumeFIN r seg)
                 else Ok (r, false));
    let c := set_rcv r c in
    Ok (broadcastLocked c, toSend ++ [buildACKLocked c], fin, [])
  else if seqGT (seq seg) (rcvNxt r) then
    match reorder r !! seq seg with
    | Some _ => Ok (c, toSend ++ [buildACKLocked c], false, [])
    | None =>
        if (maxReorderSegments <=? u32 (Z.of_nat (size (reorder r)))) || (recvWindowRemainingLocked r <? dataLen)
        then Ok (c, toSend ++ [buildACKLocked c], false, [CountReorderDropped])
        else
          let fin := has_flag (flags seg) flagFIN in
          let c := set_rcv (mkRecv (rcvNxt r) (recvBuf r) (<[seq seg := payload seg]> (reorder r))
                              (if fin then true else hasPendingFIN r)
                              (if fin then seq seg +u32 dataLen else pendingFINSeq r) (peerClosed r)) c in
          Ok (c, toSend ++ [buildACKLocked c], false, [])
    end
  else Ok (c, toSend ++ [buildACKLocked c], false, []).

(** The handler of an inbound segment. *)
Definition handleSegment (c : tcpConn) (seg : tcpSegment) : outcome tcp_error (tcpConn * list conn_action) :=
  if has_flag (flags seg) flagRST then
    if negb (rstInWindowLocked c seg) then Ok (c, []) else
    let c := set_state stateClosed (set_err ErrTCPConnReset c) in
    Ok (broadcastLocked (stopTimersLocked c), [CountRstReceived; RemoveConn])
  else
  match c_state c with
  | stateSynRcvd =>
      if negb (has_flag (flags seg) flagACK) || negb (ack seg =? sndUna (c_snd c) +u32 1) then
        let rst := buildRSTSegment seg in
        let c := stopTimersLocked (set_state stateClosed c) in
        Ok (broadcastLocked c, [RemoveConn; Send rst; CountRstSent])
      else
        let c := set_state stateEstablished (set_snd (set_sndUna (ack seg) (c_snd c)) c) in
        let c := set_tmr (disarm (c_tmr c)) c in
        '(c, toSend, _, acts) ← handleEstablishedDataLocked c seg [];
        Ok (broadcastLocked c, acts ++ [ReleaseHalfOpen; Enqueue] ++ (sends toSend))
  | stateEstablished =>
      '(c, toSend) ← handleAckLocked c seg [];
      '(c, toSend, fin, acts) ← handleEstablishedDataLocked c seg toSend;
      let c := if fin : bool then set_state stateCloseWait c else c in
      Ok (broadcastLocked c, acts ++ (sends toSend))
  | stateFinWait1 =>
      '(c, toSend) ← handleAckLocked c seg [];
      '(c, toSend, fin, acts) ← handleEstablishedDataLocked c seg toSend;
      let c := if fin && finAcked (c_snd c) then startTimeWaitLocked c
               else if fin : bool then set_state stateClosing c
               else if finAcked (c_snd c) then set_state stateFinWait2 c else c in
      Ok (broadcastLocked c, acts ++ (sends toSend))
  | stateFinWait2 =>
      '(c, toSend) ← handleAckLocked c seg [];
      '(c, toSend, fin, acts) ← handleEstablishedDataLocked c seg toSend;
      let c := if fin : bool then startTimeWaitLocked c else c in
      Ok (broadcastLocked c, acts ++ (sends toSend))
  | stateClosing =>
      '(c, toSend) ← handleAckLocked c seg [];
      let c := if finAcked (c_snd c) then startTimeWaitLocked c else c in
      Ok (broadcastLocked c, sends toSend)
  | stateCloseWait =>
      '(c, toSend) ← handleAckLocked c seg [];
      Ok (broadcastLocked c, sends toSend)
  | stateLastAck =>
      '(c, toSend) ← handleAckLocked c seg [];
      if finAcked (c_snd c)
      then Ok (broadcastLocked (stopTimersLocked (set_state stateClosed c)), RemoveConn :: (sends toSend))
      else Ok (broadcastLocked c, sends toSend)
  | stateTimeWait =>
      Ok (broadcastLocked c,
          if has_flag (flags seg) flagFIN then [Send (buildACKLocked c)] else [])
  | stateClosed | stateListen => Ok (broadcastLocked c, [])
  end.

(** ** Construction *)

Definition newTCPConn (l a : nat) (key : fourTuple) (isn clientISN clientWindow mss : Z) : tcpConn :=
  mkConn a l key stateSynRcvd
    (mkSend isn clientWindow mss [] 0 false false 0)
    (mkRecv (clientISN +u32 1) [] ∅ false 0 false)
    (mkTimers (Some initialRTO) true 0 0 initialRTO false false)
    0 false [] false None Deadline.newDeadlineTimer Deadline.newDeadlineTimer false.

(** ** The application's calls *)

(** One pass of [Read]'s loop with a buffer of [n] bytes. *)
Inductive read_result := RData (data : bytes) | RErr (e : conn_error) | RBlock.

Definition Read (c : tcpConn) (n : nat) : read_result * tcpConn :=
  if Deadline.passed (readDeadline c) then (RErr errDeadlineExceeded, c) else
  let r := c_rcv c in
  if 0 <? zlen (recvBuf r) then
    (RData (take n (recvBuf r)),
     set_rcv (mkRecv (rcvNxt r) (drop n (recvBuf r)) (reorder r) (hasPendingFIN r) (pendingFINSeq r)
                (peerClosed r)) c)
  else match c_err c with
  | Some e => (RErr e, c)
  | None => if peerClosed r then (RErr EOF, c) else (RBlock, c)
  end.

(** One pass of [Write]'s loop: the call returns [n] and an error, waits, or has
    queued and sent a piece and goes on from [total]. *)
Inductive write_result := WReturn (n : Z) (e : option conn_error) | WBlock | WMore (total : Z).

Definition writePass (c : tcpConn) (p : bytes) (total : Z)
    : outcome tcp_error (write_result * tcpConn * list conn_action) :=
  if negb (total <? zlen p) then Ok (WReturn total None, c, []) else
  if Deadline.passed (writeDeadline c) then Ok (WReturn total (Some errDeadlineExceeded), c, []) else
  match c_err c with
  | Some e => Ok (WReturn total (Some e), c, [])
  | None =>
      let s := c_snd c in
      if negb (u32 (zlen (outBuf s)) <? maxInFlightBytes) then Ok (WBlock, c, []) else
      let capacity := maxInFlightBytes - zlen (outBuf s) in
      let remaining := zlen p - total in
      let capacity := if remaining <? capacity then remaining else capacity in
      data ← slice p total (total + capacity);
      let c := set_snd (set_outBuf (outBuf s ++ data) s) c in
      '(c, toSend) ← sendPendingLocked c [] false;
      Ok (WMore (total + capacity), c, sends toSend)
  end.

Fixpoint writeLoop (fuel : nat) (c : tcpConn) (p : bytes) (total : Z)
    : outcome tcp_error (write_result * tcpConn * list conn_action) :=
  '(res, c, acts) ← writePass c p total;
  match res with
  | WMore total =>
      match fuel with
      | O => Err errFuel
      | S fuel => '(res, c, acts') ← writeLoop fuel c p total; Ok (res, c, acts ++ acts')
      end
  | _ => Ok (res, c, acts)
  end.

(** [Write] up to its return or its first wait, nothing else running in between. *)
Definition Write (c : tcpConn) (p : bytes) : outcome tcp_error (write_result * tcpConn * list conn_action) :=
  if Deadline.passed (writeDeadline c) then Ok (WReturn 0 (Some errDeadlineExceeded), c, []) else
  match c_err c with
  | Some e => Ok (WReturn 0 (Some e), c, [])
  | None =>
      if finSent (c_snd c) then Ok (WReturn 0 (Some errTCPWriteAfterClose), c, []) else
      writeLoop (length p) c p 0
  end.

Definition sendFINLocked (c : tcpConn) : tcpConn * list tcpSegment :=
  let s := c_snd c in
  let finSeq := sndUna s +u32 u32 (zlen (outBuf s)) in
  let c := set_snd (mkSend (sndUna s) (sndWnd s) (sndMSS s) (outBuf s) (sentBytes s) true (finAcked s) finSeq) c in
  let seg := outSegment c finSeq (Z.lor flagFIN flagACK) [] in
  (set_tmr (rearm initialRTO 0 (c_tmr c)) c, [seg]).

Definition CloseWrite (c : tcpConn) : tcpConn * list conn_action :=
  if closeWriteOnce c then (c, []) else
  let c := set_closeWriteOnce c in
  let '(c, toSend) :=
    match c_state c with
    | stateEstablished => let '(c, toSend) := sendFINLocked c in (set_state stateFinWait1 c, toSend)
    | stateCloseWait => let '(c, toSend) := sendFINLocked c in (set_state stateLastAck c, toSend)
    | _ => (c, [])
    end in
  (broadcastLocked c, sends toSend).

Definition Close (c : tcpConn) : tcpConn * list conn_action :=
  if bool_decide (c_state c = stateSynRcvd) then
    (broadcastLocked (stopTimersLocked (set_state stateClosed (set_err errTCPWriteAfterClose c))), [RemoveConn])
  else CloseWrite c.

Definition isClosed (c : tcpConn) : bool := bool_decide (c_state c = stateClosed).

Definition SetReadDeadline (c : tcpConn) (now : Z) (t : option Z) : outcome unit (option conn_error * tcpConn) :=
  if isClosed c then Ok (Some errTCPConnClosed, c) else
  rd ← Deadline.set (readDeadline c) now t;
  Ok (None, set_deadlines rd (writeDeadline c) c).

Definition SetWriteDeadline (c : tcpConn) (now : Z) (t : option Z) : outcome unit (option conn_error * tcpConn) :=
  if isClosed c then Ok (Some errTCPConnClosed, c) else
  wd ← Deadline.set (writeDeadline c) now t;
  Ok (None, set_deadlines (readDeadline c) wd c).

Definition SetDeadline (c : tcpConn) (now : Z) (t : option Z) : outcome unit (option conn_error * tcpConn) :=
  if isClosed c then Ok (Some errTCPConnClosed, c) else
  rd ← Deadline.set (readDeadline c) now t;
  wd ← Deadline.set (writeDeadline c) now t;
  Ok (None, set_deadlines rd wd c).

(** ** Timer events and teardown *)

(** Give up: an RST to the peer and the sticky error. *)
Definition resetConn (c : tcpConn) : tcpConn * list conn_action :=
  let rst := abortRST c in
  (broadcastLocked (stopTimersLocked (set_state stateClosed (set_err ErrTCPConnReset c))),
   [RemoveConn; Send rst; CountRstSent]).

(** The common head of the three retransmitting cases of [onRTOFired]: count,
    give up past the limit, otherwise back off and send [seg]. *)
Definition retransmit (c : tcpConn) (seg : outcome tcp_error tcpSegment)
    : outcome tcp_error (tcpConn * list conn_action) :=
  let n := retransmitCount (c_tmr c) + 1 in
  let c := set_tmr (set_retransmits n (c_tmr c)) c in
  if maxRetransmits <? n then Ok (resetConn c) else
  seg ← seg;
  Ok (set_tmr (backoff (doubleRTO (rto (c_tmr c))) (c_tmr c)) c, [Send seg]).

Definition onRTOFired (c : tcpConn) (ourMSS : Z) : outcome tcp_error (tcpConn * list conn_action) :=
  let s := c_snd c in
  let t := c_tmr c in
  if bool_decide (c_state c = stateClosed) then Ok (c, []) else
  if inTimeWait t then Ok (broadcastLocked (stopTimersLocked (set_state stateClosed c)), [RemoveConn]) else
  if bool_decide (c_state c = stateSynRcvd) then retransmit c (Ok (synAckSegment c ourMSS)) else
  if 0 <? sentBytes s then
    let chunk := if sndMSS s <? sentBytes s then sndMSS s else sentBytes s in
    retransmit c (data ← slice (outBuf s) 0 chunk; Ok (outSegment c (sndUna s) flagACK data)) else
  if finSent s && negb (finAcked s) then
    retransmit c (Ok (outSegment c (finSeq s) (Z.lor flagFIN flagACK) [])) else
  if (sndWnd s =? 0) && (sentBytes s <? u32 (zlen (outBuf s))) then
    let n := persistProbeCount t + 1 in
    let c := set_tmr (set_persist n t) c in
    if maxPersistProbes <? n then Ok (resetConn c) else
    '(c, toSend) ← sendPendingLocked c [] true;
    Ok (set_tmr (reset (rto (c_tmr c)) (c_tmr c)) c, sends toSend) else
  Ok (set_tmr (set_armed false t) c, []).

Definition onAttachmentDetached (c : tcpConn) : tcpConn * list conn_action :=
  if bool_decide (c_state c = stateClosed) then (c, []) else
  (broadcastLocked (stopTimersLocked (set_state stateClosed (set_err ErrTCPConnReset c))), [RemoveConn]).

(** What the timer goroutine waits for, and one round of it: the last component
    says whether it goes on. *)
Inductive timer_event := TimerC | StopCh | StopTimers.

Definition timerLoop (c : tcpConn) (ourMSS : Z) (ev : timer_event)
    : outcome tcp_error (tcpConn * list conn_action * bool) :=
  match ev with
  | TimerC => '(c, acts) ← onRTOFired (set_tmr (fired (c_tmr c)) c) ourMSS; Ok (c, acts, true)
  | StopCh => let '(c, acts) := onAttachmentDetached c in Ok (c, acts, false)
  | StopTimers => Ok (c, [], false)
  end.

Definition abort (c : tcpConn) : tcpConn * list conn_action :=
  if bool_decide (c_state c = stateClosed) then (c, []) else resetConn c.

(** ** Buffered bytes *)

Definition held (m : gmap Z bytes) : Z := map_fold (fun _ b acc => zlen b + acc) 0 m.

Lemma held_insert (m : gmap Z bytes) (k : Z) (b : bytes) :
  m !! k = None -> held (<[k := b]> m) = zlen b + held m.
Proof. intros Hk. unfold held. rewrite map_fold_insert_L; [done| |done]. intros. lia. Qed.

Lemma held_delete (m : gmap Z bytes) (k : Z) (b : bytes) :
  m !! k = Some b -> held m = zlen b + held (delete k m).
Proof.
  intros Hk. rewrite <- (held_insert (delete k m) k b) by apply lookup_delete_eq.
  by rewrite insert_delete_id.
Qed.

Lemma held_nonneg (m : gmap Z bytes) : 0 <= held m.
Proof.
  induction m as [|k b m Hk IH] using map_ind; [done|].
  rewrite held_insert by done. pose proof (zlen_nonneg b). lia.
Qed.

Lemma wrapped_sum (m : gmap Z bytes) (n : Z) :
  is_u32 n -> map_fold (fun _ buf used => used +u32 u32 (zlen buf)) n m = u32 (n + held m).
Proof.
  intros Hn. induction m as [|k b m Hk IH] using map_ind.
  { rewrite map_fold_empty. change (held ∅) with 0. by rewrite Z.add_0_r, u32_id. }
  rewrite map_fold_insert_L; [|intros; word_lia|done].
  rewrite IH, held_insert by done. unfold u32. rewrite <- Zplus_mod. f_equal. lia.
Qed.

(** ** The invariant of a connection *)

Record rcv_inv (r : recvSide) : Prop := {
  ri_nxt : is_u32 (rcvNxt r);
  ri_window : zlen (recvBuf r) + held (reorder r) <= defaultReceiveWindow;
  ri_reorder : Z.of_nat (size (reorder r)) <= maxReorderSegments;
  ri_keys : map_Forall (fun k _ => is_u32 k) (reorder r);
}.

Record snd_inv (s : sendSide) : Prop := {
  si_una : is_u32 (sndUna s);
  si_wnd : is_u16 (sndWnd s) /\ is_u16 (sndMSS s);
  si_sent : 0 <= sentBytes s <= zlen (outBuf s);
  si_cap : zlen (outBuf s) <= maxInFlightBytes;
  si_fin : finAcked s = true -> finSent s = true;
}.

Lemma remaining_eq (r : recvSide) :
  rcv_inv r -> recvWindowRemainingLocked r = defaultReceiveWindow - (zlen (recvBuf r) + held (reorder r)).
Proof.
  intros [_ Hw _ _]. pose proof (zlen_nonneg (recvBuf r)). pose proof (held_nonneg (reorder r)).
  unfold defaultReceiveWindow in *. unfold recvWindowRemainingLocked, defaultReceiveWindow.
  rewrite wrapped_sum by apply u32_range.
  rewrite (u32_id (zlen _)), (u32_id (_ + _)) by (unfold is_u32; lia).
  destruct (Z.leb_spec 65535 (zlen (recvBuf r) + held (reorder r))); [lia|].
  apply u32_id. unfold is_u32. lia.
Qed.

Lemma advertised_eq (r : recvSide) :
  rcv_inv r -> advertisedWindowLocked r = defaultReceiveWindow - (zlen (recvBuf r) + held (reorder r)).
Proof.
  intros Hr. unfold advertisedWindowLocked. rewrite remaining_eq by done. destruct Hr as [_ Hw _ _].
  pose proof (zlen_nonneg (recvBuf r)). pose proof (held_nonneg (reorder r)).
  unfold defaultReceiveWindow in *. apply u16_id. unfold is_u16. lia.
Qed.

(** ** The sending loop *)

(** [segs] are data segments that carry the buffered bytes from offset [n] up to
    [m], in order, none empty and none above the MSS. *)
Inductive data_run (c : tcpConn) : Z -> list tcpSegment -> Z -> Prop :=
  | run_nil (n : Z) : data_run c n [] n
  | run_cons (n k m : Z) (segs : list tcpSegment) :
      0 < k <= sndMSS (c_snd c) -> n + k <= zlen (outBuf (c_snd c)) -> data_run c (n + k) segs m ->
      data_run c n (outSegment c (sndUna (c_snd c) +u32 n) flagACK
                      (take (Z.to_nat k) (drop (Z.to_nat n) (outBuf (c_snd c)))) :: segs) m.

Lemma data_run_le (c : tcpConn) (n m : Z) (segs : list tcpSegment) : data_run c n segs m -> n <= m.
Proof. induction 1; lia. Qed.

(** The segments depend on the connection only through these fields. *)
Lemma data_run_ext (c c' : tcpConn) (n m : Z) (segs : list tcpSegment) :
  c_key c = c_key c' -> c_rcv c = c_rcv c' -> sndUna (c_snd c) = sndUna (c_snd c') ->
  sndMSS (c_snd c) = sndMSS (c_snd c') -> outBuf (c_snd c) = outBuf (c_snd c') ->
  data_run c n segs m -> data_run c' n segs m.
Proof.
  intros Ek Er Eu Em Eb. induction 1 as [n|n j m segs Hj Hb Hr IH]; [apply run_nil|].
  replace (outSegment c) with (outSegment c') by (unfold outSegment; by rewrite Ek, Er).
  rewrite Eu, Eb. apply run_cons; [by rewrite <- Em|by rewrite <- Eb|done].
Qed.

(** How far the loop gets. *)
Definition send_target (s : sendSide) (limit : Z) (forceProbe : bool) : Z :=
  if sndMSS s =? 0 then sentBytes s else
  let m := Z.max (sentBytes s) (Z.min limit (zlen (outBuf s))) in
  if forceProbe then Z.min m (sentBytes s + sndMSS s) else m.

Lemma send_target_done (s : sendSide) (limit : Z) (fp : bool) :
  snd_inv s -> limit <= sentBytes s \/ zlen (outBuf s) <= sentBytes s \/ sndMSS s = 0 ->
  send_target s limit fp = sentBytes s.
Proof.
  intros [_ [_ Hm] Hsent _ _] H. unfold send_target, is_u16 in *.
  destruct (Z.eqb_spec (sndMSS s) 0); [done|]. destruct fp; lia.
Qed.

Lemma send_target_more (s : sendSide) (limit : Z) :
  sndMSS s <> 0 -> sentBytes s < limit -> sentBytes s < zlen (outBuf s) ->
  forall n, sentBytes s <= n <= Z.min limit (zlen (outBuf s)) ->
  send_target (set_sentBytes n s) limit false = send_target s limit false.
Proof.
  intros Hm Hl Hb n Hn. unfold send_target. cbn. rewrite (proj2 (Z.eqb_neq _ 0)) by done. lia.
Qed.

Lemma set_sentBytes_id (c : tcpConn) : set_snd (set_sentBytes (sentBytes (c_snd c)) (c_snd c)) c = c.
Proof. by destruct c as [? ? ? ? [] ? ? ? ? ? ? ? ? ? ?]. Qed.

Lemma snd_inv_sent (s : sendSide) (n : Z) :
  snd_inv s -> 0 <= n <= zlen (outBuf s) -> snd_inv (set_sentBytes n s).
Proof. intros [? ? ? ? ?] ?. by constructor. Qed.

Lemma sendLoop_spec (fuel : nat) (fp : bool) (limit : Z) (c : tcpConn) (toSend : list tcpSegment) (any : bool) :
  snd_inv (c_snd c) -> 0 <= limit <= 65536 -> zlen (outBuf (c_snd c)) - sentBytes (c_snd c) <= Z.of_nat fuel ->
  exists segs, let m := send_target (c_snd c) limit fp in
    sendLoop fuel fp limit c toSend any =
      Ok (set_snd (set_sentBytes m (c_snd c)) c, toSend ++ segs, any || (sentBytes (c_snd c) <? m)) /\
    data_run c (sentBytes (c_snd c)) segs m.
Proof.
  revert c toSend any. induction fuel as [|fuel IH]; intros c toSend any Hs Hl Hf.
  all: pose proof Hs as [Hu [Hw Hm] Hsent Hcap _]; unfold maxInFlightBytes, is_u16 in *.
  all: cbn [sendLoop]; rewrite (u32_id (zlen _)) by (unfold is_u32; lia).
  all: assert (Hdone : send_target (c_snd c) limit fp = sentBytes (c_snd c) ->
    Ok (c, toSend, any) = Ok (E := tcp_error) (set_snd (set_sentBytes (send_target (c_snd c) limit fp) (c_snd c)) c,
      toSend ++ [], any || (sentBytes (c_snd c) <? send_target (c_snd c) limit fp)) /\
    data_run c (sentBytes (c_snd c)) [] (send_target (c_snd c) limit fp))
    by (intros ->; rewrite set_sentBytes_id, app_nil_r, Z.ltb_irrefl, orb_false_r; split; [done|constructor]).
  { rewrite (proj2 (andb_false_iff _ _)) by (right; lia). exists []. apply Hdone, send_target_done; [done|lia]. }
  destruct ((sentBytes (c_snd c) <? limit) && (sentBytes (c_snd c) <? zlen (outBuf (c_snd c)))) eqn:Eg; cbn [negb].
  2:{ exists []. apply Hdone, send_target_done; [done|lia]. }
  apply andb_true_iff in Eg as [Hlt1%Z.ltb_lt Hlt2%Z.ltb_lt].
  rewrite (u32_id (limit - _)), (u32_id (zlen _ - _)) by (unfold is_u32; lia).
  set (chunk := if sndMSS (c_snd c) <? _ then _ else _).
  assert (Hchunk : chunk = Z.min (sndMSS (c_snd c))
    (Z.min (limit - sentBytes (c_snd c)) (zlen (outBuf (c_snd c)) - sentBytes (c_snd c)))).
  { unfold chunk. clear. bool_cases; lia. }
  clearbody chunk. destruct (Z.eqb_spec chunk 0) as [E0|Hn0].
  { exists []. apply Hdone, send_target_done; [done|lia]. }
  rewrite (u32_id (sentBytes _ + chunk)) by (unfold is_u32; lia).
  rewrite slice_ok by lia. outcome_simpl. replace (sentBytes (c_snd c) + chunk - sentBytes (c_snd c)) with chunk by lia.
  set (n := sentBytes (c_snd c) + chunk) in *. set (c1 := set_snd (set_sentBytes n (c_snd c)) c).
  set (seg := outSegment c _ _ _).
  assert (Hcons : forall segs m, data_run c n segs m -> data_run c (sentBytes (c_snd c)) (seg :: segs) m).
  { intros segs m Hr. apply run_cons; [lia|lia|done]. }
  destruct fp.
  - assert (Ht : send_target (c_snd c) limit true = n).
    { unfold send_target. rewrite (proj2 (Z.eqb_neq _ 0)) by lia. lia. }
    exists [seg]. rewrite Ht, (proj2 (Z.ltb_lt _ n)), orb_true_r by lia. split; [done|]. apply Hcons. constructor.
  - assert (Hn : sentBytes (c_snd c) <= n <= Z.min limit (zlen (outBuf (c_snd c)))) by lia.
    pose proof (send_target_more (c_snd c) limit ltac:(lia) Hlt1 Hlt2 n Hn) as Ht.
    destruct (IH c1 (toSend ++ [seg]) true) as (segs & HL & HR).
    + apply snd_inv_sent; [done|lia].
    + done.
    + cbn. lia.
    + cbn [c1 c_snd set_snd] in HL, HR. rewrite Ht in HL, HR. apply (data_run_ext c1 c) in HR; [|done..].
      pose proof (data_run_le _ _ _ _ HR) as Hle. change (sentBytes (set_sentBytes n (c_snd c))) with n in Hle.
      exists (seg :: segs). split; [|by apply Hcons].
      rewrite HL, <- app_assoc, (proj2 (Z.ltb_lt (sentBytes (c_snd c)) _)), orb_true_r by lia. done.
Qed.

(** [sendPendingLocked] in closed form: how much is in flight after it, and what
    it does to the timer. *)
Definition pending_target (s : sendSide) (fp : bool) : Z :=
  send_target s (if (sndWnd s =? 0) && fp then sentBytes s + 1 else sndWnd s) fp.

Definition pending_timers (s : sendSide) (t : timers) (fp : bool) : timers :=
  if fp then t else
  if sentBytes s <? pending_target s false then rearm initialRTO 0 t else
  if (sndWnd s =? 0) && (sentBytes s <? zlen (outBuf s)) && negb (timerArmed t)
  then rearm initialRTO (retransmitCount t) t else t.

Lemma set_snd_tmr (s : sendSide) (c : tcpConn) : set_tmr (c_tmr c) (set_snd s c) = set_snd s c.
Proof. done. Qed.

Lemma sendPending_spec (c : tcpConn) (toSend : list tcpSegment) (fp : bool) :
  snd_inv (c_snd c) ->
  exists segs, let m := pending_target (c_snd c) fp in
    sendPendingLocked c toSend fp =
      Ok (set_tmr (pending_timers (c_snd c) (c_tmr c) fp) (set_snd (set_sentBytes m (c_snd c)) c), toSend ++ segs) /\
    data_run c (sentBytes (c_snd c)) segs m.
Proof.
  intros Hs. pose proof Hs as [Hu [Hw Hm] Hsent Hcap _]. unfold maxInFlightBytes, is_u16 in *.
  unfold sendPendingLocked, allowedInFlightLocked, maxInFlightBytes.
  rewrite (proj2 (Z.ltb_ge 65535 _)) by lia. rewrite (u32_id (zlen _)) by (unfold is_u32; lia).
  set (B := zlen (outBuf (c_snd c))) in *.
  destruct ((sndWnd (c_snd c) =? 0) && (negb fp || (B <=? sentBytes (c_snd c)))) eqn:E0.
  - apply andb_true_iff in E0 as [Ew Eb].
    assert (Hm' : pending_target (c_snd c) fp = sentBytes (c_snd c)).
    { unfold pending_target. rewrite Ew. apply send_target_done; [done|]. fold B.
      apply Z.eqb_eq in Ew. destruct fp; cbn in *; lia. }
    exists []. rewrite app_nil_r. cbn zeta. rewrite Hm', set_sentBytes_id. split; [|constructor].
    unfold pending_timers. fold B. rewrite Ew. destruct fp; cbn [andb negb orb] in *.
    + rewrite (proj2 (Z.ltb_ge _ B)) by lia. cbn [andb]. by destruct c.
    + rewrite Hm', Z.ltb_irrefl. destruct ((sentBytes (c_snd c) <? B) && negb (timerArmed (c_tmr c))); [done|].
      by destruct c.
  - set (limit := if sndWnd (c_snd c) =? 0 then _ else _).
    assert (Hlim : limit = (if (sndWnd (c_snd c) =? 0) && fp then sentBytes (c_snd c) + 1 else sndWnd (c_snd c)) /\
      0 <= limit <= 65536).
    { unfold limit. destruct (Z.eqb_spec (sndWnd (c_snd c)) 0) as [E|E]; cbn [andb] in *; [|lia].
      destruct fp; cbn in E0; [|done]. rewrite u32_id by (unfold is_u32; lia). lia. }
    clearbody limit. destruct Hlim as [Hlim Hr].
    destruct (sendLoop_spec (length (outBuf (c_snd c))) fp limit c toSend false Hs Hr ltac:(unfold B, zlen in *; lia))
      as (segs & HL & HR).
    rewrite HL. outcome_simpl. cbn [orb]. rewrite Hlim in HR |- *. fold (pending_target (c_snd c) fp) in HR |- *.
    exists segs. split; [|done]. unfold pending_timers. destruct fp; cbn [negb]; rewrite ?andb_false_r, ?andb_true_r; [done|].
    destruct (sentBytes (c_snd c) <? pending_target (c_snd c) false) eqn:Ep; [done|].
    by destruct (Z.eqb_spec (sndWnd (c_snd c)) 0).
Qed.

(** ** Acknowledgements *)

Lemma seqGT_spec (a b : Z) : seqGT a b = true <-> 0 < a -u32 b < 2147483648.
Proof. unfold seqGT. rewrite Z.ltb_lt. unfold i32. bool_cases; word_lia. Qed.

Lemma seqGE_spec (a b : Z) : seqGE a b = true <-> a -u32 b < 2147483648.
Proof. unfold seqGE. rewrite Z.leb_le. unfold i32. bool_cases; word_lia. Qed.

(** The bytes an acknowledgement number retires. *)
Definition acked (s : sendSide) (ackNum : Z) : Z :=
  if seqGT ackNum (sndUna s) then Z.min (ackNum -u32 sndUna s) (sentBytes s) else 0.

Definition retired (s : sendSide) (n : Z) : sendSide :=
  mkSend (sndUna s +u32 n) (sndWnd s) (sndMSS s) (drop (Z.to_nat n) (outBuf s)) (sentBytes s - n)
    (finSent s) (finAcked s) (finSeq s).

Definition retire_timers (s : sendSide) (n : Z) (t : timers) : timers :=
  if 0 <? n then
    if sentBytes s - n =? 0 then disarm (progress t) else rearm initialRTO 0 (progress t)
  else t.

(** The send side, the timers and the notification number replaced. *)
Definition upd (s : sendSide) (t : timers) (n : nat) (c : tcpConn) : tcpConn :=
  mkConn (c_a c) (c_listener c) (c_key c) (c_state c) s (c_rcv c) t n
    (halfOpenCounted c) (halfOpenIP c) (liveCounted c) (c_err c) (readDeadline c) (writeDeadline c)
    (closeWriteOnce c).

Lemma upd_id (c : tcpConn) : upd (c_snd c) (c_tmr c) (c_notify c) c = c.
Proof. by destruct c. Qed.

Lemma acked_range (s : sendSide) (ackNum : Z) : snd_inv s -> 0 <= acked s ackNum <= sentBytes s.
Proof.
  intros [_ _ Hsent _ _]. unfold acked. destruct (seqGT ackNum (sndUna s)) eqn:E; [|lia].
  apply seqGT_spec in E. lia.
Qed.

Lemma retired_0 (s : sendSide) : snd_inv s -> retired s 0 = s.
Proof.
  intros [Hu _ _ _ _]. unfold retired. rewrite Z.add_0_r, u32_id, Z.sub_0_r, drop_0 by done. by destruct s.
Qed.

Lemma retired_inv (s : sendSide) (n : Z) : snd_inv s -> 0 <= n <= sentBytes s -> snd_inv (retired s n).
Proof.
  intros [Hu Hw Hsent Hcap Hf] Hn. constructor; cbn; [apply u32_range|done| | |done].
  all: rewrite zlen_drop by lia; lia.
Qed.

Lemma retire_spec (c : tcpConn) (ackNum : Z) :
  snd_inv (c_snd c) -> is_u32 ackNum ->
  let n := acked (c_snd c) ackNum in
  retireAcked c ackNum =
    Ok (upd (retired (c_snd c) n) (retire_timers (c_snd c) n (c_tmr c))
          (if 0 <? n then S (c_notify c) else c_notify c) c).
Proof.
  intros Hs Ha n. pose proof (acked_range _ ackNum Hs) as Hn. fold n in Hn.
  pose proof Hs as [Hu _ Hsent Hcap _]. unfold maxInFlightBytes in *. unfold retireAcked.
  assert (H0 : n = 0 -> Ok c = Ok (E := tcp_error) (upd (retired (c_snd c) n) (retire_timers (c_snd c) n (c_tmr c))
          (if 0 <? n then S (c_notify c) else c_notify c) c)).
  { intros ->. rewrite retired_0 by done. unfold retire_timers. cbn [Z.ltb Z.compare]. by rewrite upd_id. }
  destruct (Z.ltb_spec 0 (sentBytes (c_snd c))) as [Hpos|Hz]; cbn [negb]; [|apply H0; lia].
  unfold n, acked in Hn, H0 |- *.
  destruct (seqGT ackNum (sndUna (c_snd c))) eqn:Eg; cbn [negb]; [|by apply H0].
  pose proof Eg as Eg'. apply seqGT_spec in Eg'. set (d := ackNum -u32 sndUna (c_snd c)) in *.
  set (covered := if seqGT ackNum (sndUna (c_snd c) +u32 sentBytes (c_snd c)) then _ else _).
  assert (Hc : covered = sndUna (c_snd c) +u32 Z.min d (sentBytes (c_snd c))).
  { clear Eg. unfold covered. destruct (seqGT ackNum (sndUna (c_snd c) +u32 _)) eqn:E2.
    - apply seqGT_spec in E2. rewrite Z.min_r; [done|]. unfold d in *. word_lia.
    - assert (d <= sentBytes (c_snd c)).
      { destruct (Z.le_gt_cases d (sentBytes (c_snd c))) as [|Hgt]; [done|].
        exfalso. apply not_true_iff_false in E2. apply E2, seqGT_spec. unfold d in *. word_lia. }
      rewrite Z.min_l by done. unfold d. word_lia. }
  clearbody covered. rewrite Hc.
  assert (Hamt : (sndUna (c_snd c) +u32 Z.min d (sentBytes (c_snd c))) -u32 sndUna (c_snd c) =
    Z.min d (sentBytes (c_snd c))) by (clear Hc; word_lia).
  rewrite Hamt. set (k := Z.min d (sentBytes (c_snd c))) in *.
  assert (0 < k) by lia. rewrite (proj2 (Z.ltb_lt 0 k)) by done. cbn [negb].
  rewrite slice_from_ok by lia. outcome_simpl. unfold retired, retire_timers.
  rewrite (u32_id (sentBytes _ - k)) by (unfold is_u32; lia). rewrite (proj2 (Z.ltb_lt 0 k)) by done.
  cbn [sentBytes]. done.
Qed.

(** The send side and the timers after an acknowledgement, before new data goes
    out. *)
Definition fin_covered (s : sendSide) (ackNum : Z) : bool :=
  finSent s && negb (finAcked s) && seqGE ackNum (finSeq s +u32 1).

Definition ack_snd (s : sendSide) (seg : tcpSegment) : sendSide :=
  let n := acked s (ack seg) in
  mkSend (sndUna s +u32 n) (window seg) (sndMSS s) (drop (Z.to_nat n) (outBuf s)) (sentBytes s - n)
    (finSent s) (finAcked s || fin_covered s (ack seg)) (finSeq s).

Definition ack_timers (s : sendSide) (seg : tcpSegment) (t : timers) : timers :=
  let n := acked s (ack seg) in
  let t := retire_timers s n t in
  let t := if fin_covered s (ack seg) && (sentBytes s - n =? 0) then disarm t else t in
  if (sndWnd s =? 0) && (0 <? window seg) then set_persist 0 t else t.

Lemma ack_snd_inv (s : sendSide) (seg : tcpSegment) :
  snd_inv s -> is_u16 (window seg) -> snd_inv (ack_snd s seg).
Proof.
  intros Hs Hw. pose proof (acked_range s (ack seg) Hs) as Hn.
  destruct (retired_inv s _ Hs Hn) as [Hu [_ Hm] Hsent Hcap Hf]. cbn in *.
  constructor; cbn; try done. unfold fin_covered. intros H.
  apply orb_true_iff in H as [H|H]; [by apply Hf|]. by destruct (finSent s).
Qed.

Lemma handleAck_spec (c : tcpConn) (seg : tcpSegment) (toSend : list tcpSegment) :
  snd_inv (c_snd c) -> seg_range seg -> has_flag (flags seg) flagACK = true ->
  let s := ack_snd (c_snd c) seg in
  exists segs n, (c_notify c <= n)%nat /\
    handleAckLocked c seg toSend =
      Ok (upd (set_sentBytes (pending_target s false) s)
            (pending_timers s (ack_timers (c_snd c) seg (c_tmr c)) false) n c, toSend ++ segs) /\
    data_run (set_snd s c) (sentBytes s) segs (pending_target s false) /\
    (0 < acked (c_snd c) (ack seg) -> (c_notify c < n)%nat).
Proof.
  intros Hs [_ [_ Ha] [_ Hw] _] Hf s. unfold handleAckLocked. rewrite Hf. cbn [negb].
  rewrite retire_spec by done. outcome_simpl. set (n := acked (c_snd c) (ack seg)).
  set (k := if 0 <? n then _ else _).
  set (c1 := upd _ _ k c).
  set (c2 := if finSent (c_snd c1) && _ && _ then _ else c1).
  set (c3 := if (sndWnd (c_snd c2) =? 0) && _ then _ else c2).
  assert (H4 : set_snd (set_sndWnd (window seg) (c_snd c3)) c3 = upd s (ack_timers (c_snd c) seg (c_tmr c)) k c).
  { unfold s, c3, c2, ack_snd, ack_timers, fin_covered. fold n. cbn [c1 upd c_snd finSent finAcked finSeq retired].
    destruct (finSent (c_snd c) && negb (finAcked (c_snd c)) && _) eqn:Ef; cbn [andb].
    - cbn [c1 c_snd upd retired sentBytes]. rewrite orb_true_r.
      destruct (sentBytes (c_snd c) - n =? 0); cbn [c_snd set_snd set_tmr upd sndWnd set_finAcked retired c1];
        by destruct ((sndWnd (c_snd c) =? 0) && (0 <? window seg)).
    - cbn [c1 c_snd upd retired sndWnd]. rewrite orb_false_r.
      by destruct ((sndWnd (c_snd c) =? 0) && (0 <? window seg)). }
  rewrite H4. clearbody c3. clear c1 c2.
  destruct (sendPending_spec (upd s (ack_timers (c_snd c) seg (c_tmr c)) k c) toSend false) as (segs & HE & HR).
  { by apply ack_snd_inv. }
  cbn [c_snd c_tmr upd] in HE, HR. exists segs, k. split_and!.
  - unfold k. destruct (0 <? n); lia.
  - exact HE.
  - by eapply data_run_ext; [..|exact HR].
  - intros Hp. unfold k. fold n in Hp. rewrite (proj2 (Z.ltb_lt 0 n)) by done. lia.
Qed.

(** ** Received data *)

Definition advance (r : recvSide) (data : bytes) : recvSide :=
  mkRecv (rcvNxt r +u32 zlen data) (recvBuf r ++ data) (reorder r) (hasPendingFIN r) (pendingFINSeq r) (peerClosed r).
Definition unstash (r : recvSide) : recvSide :=
  mkRecv (rcvNxt r) (recvBuf r) (delete (rcvNxt r) (reorder r)) (hasPendingFIN r) (pendingFINSeq r) (peerClosed r).

(** The rounds of the drain loop. *)
Inductive drains : recvSide -> recvSide -> Prop :=
  | drains_done (r : recvSide) :
      (forall data, reorder r !! rcvNxt r = Some data -> recvWindowRemainingLocked r < zlen data) -> drains r r
  | drains_step (r r' : recvSide) (data : bytes) :
      reorder r !! rcvNxt r = Some data -> zlen data <= recvWindowRemainingLocked r ->
      drains (advance (unstash r) data) r' -> drains r r'.

Lemma rcv_inv_drain (r : recvSide) (data : bytes) :
  rcv_inv r -> reorder r !! rcvNxt r = Some data -> rcv_inv (advance (unstash r) data).
Proof.
  intros [Hn Hw Hs Hk] Hd. constructor; cbn.
  - apply u32_range.
  - rewrite zlen_app. rewrite (held_delete _ _ _ Hd) in Hw. lia.
  - rewrite map_size_delete_Some by eauto. lia.
  - by apply map_Forall_delete.
Qed.

Lemma held_lookup_le (m : gmap Z bytes) (k : Z) (b : bytes) : m !! k = Some b -> zlen b <= held m.
Proof. intros Hk. rewrite (held_delete _ _ _ Hk). pose proof (held_nonneg (delete k m)). lia. Qed.

Lemma reorder_drain_spec (fuel : nat) (r : recvSide) :
  rcv_inv r -> (size (reorder r) <= fuel)%nat ->
  exists r', drainLoop fuel r = Ok r' /\ drains r r' /\ rcv_inv r'.
Proof.
  revert r. induction fuel as [|fuel IH]; intros r Hr Hf; cbn [drainLoop].
  all: destruct (reorder r !! rcvNxt r) as [data|] eqn:E; [|exists r; split_and!; [done|constructor; congruence|done]].
  - assert (Hz : size (reorder r) = 0%nat) by lia. apply map_size_empty_inv in Hz. by rewrite Hz, lookup_empty in E.
  - pose proof (held_lookup_le _ _ _ E) as Hl. pose proof Hr as [_ Hw _ _]. pose proof (zlen_nonneg data).
    pose proof (zlen_nonneg (recvBuf r)). unfold defaultReceiveWindow in Hw.
    rewrite (u32_id (zlen data)) by (unfold is_u32; lia).
    destruct (Z.ltb_spec (recvWindowRemainingLocked r) (zlen data)) as [Hlt|Hge].
    { exists r. split_and!; [done| |done]. constructor. intros d Hd. assert (d = data) as -> by congruence. done. }
    destruct (IH (advance (unstash r) data)) as (r' & HE & HD & HI).
    + by apply rcv_inv_drain.
    + cbn. rewrite map_size_delete_Some by eauto. lia.
    + exists r'. split_and!; [exact HE| |done]. by apply (drains_step r r' data).
Qed.

(** The segment occupies sequence numbers. *)
Definition consumes (seg : tcpSegment) : bool := (0 <? zlen (payload seg)) || has_flag (flags seg) flagFIN.

(** What a segment does to the receive side; the flag says whether the peer's FIN
    was consumed. *)
Inductive data_step (r : recvSide) (seg : tcpSegment) : recvSide -> bool -> Prop :=
  | ds_ignored : data_step r seg r false
  | ds_partial (n : Z) :
      seq seg = rcvNxt r -> 0 <= n < zlen (payload seg) -> n <= recvWindowRemainingLocked r ->
      data_step r seg (advance r (take (Z.to_nat n) (payload seg))) false
  | ds_full (r1 r' : recvSide) (fin : bool) :
      consumes seg = true -> seq seg = rcvNxt r -> zlen (payload seg) <= recvWindowRemainingLocked r ->
      drains (advance r (payload seg)) r1 -> consumeFIN r1 seg = (r', fin) -> data_step r seg r' fin
  | ds_stored :
      consumes seg = true -> seqGT (seq seg) (rcvNxt r) = true -> reorder r !! seq seg = None ->
      Z.of_nat (size (reorder r)) < maxReorderSegments -> zlen (payload seg) <= recvWindowRemainingLocked r ->
      data_step r seg
        (mkRecv (rcvNxt r) (recvBuf r) (<[seq seg := payload seg]> (reorder r))
           (if has_flag (flags seg) flagFIN then true else hasPendingFIN r)
           (if has_flag (flags seg) flagFIN then seq seg +u32 zlen (payload seg) else pendingFINSeq r)
           (peerClosed r)) false.

Lemma advance_inv (r : recvSide) (data : bytes) :
  rcv_inv r -> zlen data <= recvWindowRemainingLocked r -> rcv_inv (advance r data).
Proof.
  intros Hr Hl. rewrite remaining_eq in Hl by done. destruct Hr as [Hn Hw Hs Hk].
  constructor; cbn; [apply u32_range| |done|done]. rewrite zlen_app. lia.
Qed.

Lemma drains_inv (r r' : recvSide) : drains r r' -> rcv_inv r -> rcv_inv r'.
Proof. induction 1 as [|r r' data Hd Hl _ IH]; [done|]. intros Hr. by apply IH, rcv_inv_drain. Qed.

Lemma consumeFIN_inv (r r' : recvSide) (seg : tcpSegment) (fin : bool) :
  rcv_inv r -> consumeFIN r seg = (r', fin) -> rcv_inv r'.
Proof.
  intros [Hn Hw Hs Hk]. unfold consumeFIN. case_match; [|case_match]; intros [= <- <-].
  all: constructor; cbn; try done; apply u32_range.
Qed.

Lemma data_step_inv (r r' : recvSide) (seg : tcpSegment) (fin : bool) :
  rcv_inv r -> is_u32 (seq seg) -> data_step r seg r' fin -> rcv_inv r'.
Proof.
  intros Hr Hq [|n Hseq Hn Hl|r1 r2 f _ Hseq Hl Hd Hc|_ Hgt Hno Hsz Hl]; [done| | |].
  - apply advance_inv; [done|]. rewrite zlen_take by lia. lia.
  - by eapply consumeFIN_inv, Hc; eapply drains_inv, advance_inv.
  - rewrite remaining_eq in Hl by done. destruct Hr as [Hnx Hw Hs Hk]. constructor; cbn; try done.
    + rewrite held_insert by done. lia.
    + rewrite map_size_insert_None by done. lia.
    + by apply map_Forall_insert_2.
Qed.

(** A segment as [parseTCP] delivers it out of an IPv4 datagram. *)
Definition seg_ok (seg : tcpSegment) : Prop := seg_range seg /\ zlen (payload seg) <= 65535.

(** The receive side and the notification number replaced. *)
Definition updr (r : recvSide) (n : nat) (c : tcpConn) : tcpConn :=
  mkConn (c_a c) (c_listener c) (c_key c) (c_state c) (c_snd c) r (c_tmr c) n
    (halfOpenCounted c) (halfOpenIP c) (liveCounted c) (c_err c) (readDeadline c) (writeDeadline c)
    (closeWriteOnce c).

Lemma updr_id (c : tcpConn) : updr (c_rcv c) (c_notify c) c = c.
Proof. by destruct c. Qed.

Lemma acceptData_spec (r : recvSide) (seg : tcpSegment) :
  rcv_inv r -> seg_ok seg ->
  let n := Z.min (zlen (payload seg)) (recvWindowRemainingLocked r) in
  acceptData r seg = Ok (advance r (take (Z.to_nat n) (payload seg)), n =? zlen (payload seg)).
Proof.
  intros Hr [_ Hp] n. pose proof (zlen_nonneg (payload seg)) as Hnn. pose proof (remaining_eq r Hr) as Hrem.
  pose proof Hr as [Hnx Hw _ _]. assert (0 <= recvWindowRemainingLocked r) by lia.
  assert (Hz : advance r [] = r).
  { unfold advance. rewrite zlen_nil, Z.add_0_r, u32_id, app_nil_r by done. by destruct r. }
  unfold acceptData. rewrite (u32_id (zlen _)) by (unfold is_u32; lia).
  destruct (Z.ltb_spec 0 (zlen (payload seg))) as [Hpos|H0]; cbn [negb].
  2:{ assert (payload seg = []) as E by (apply zlen_0_nil; lia). unfold n. rewrite E, zlen_nil, Z.min_l by done.
      by rewrite take_0, Hz. }
  replace (if _ <? zlen (payload seg) then _ else _) with n by (unfold n; bool_cases; lia).
  destruct (Z.ltb_spec 0 n) as [Hn|Hn0].
  - rewrite slice_ok by lia. outcome_simpl. rewrite Z.sub_0_r, drop_0. unfold advance.
    by rewrite zlen_take, (Z.min_l n (zlen (payload seg))) by lia.
  - outcome_simpl. assert (n = 0) as -> by lia. by rewrite take_0, Hz.
Qed.

Lemma handleData_spec (c : tcpConn) (seg : tcpSegment) (toSend : list tcpSegment) :
  rcv_inv (c_rcv c) -> seg_ok seg ->
  exists r' fin acts n, (c_notify c <= n)%nat /\
    handleEstablishedDataLocked c seg toSend =
      Ok (updr r' n c,
          toSend ++ (if consumes seg then [buildACKLocked (updr r' n c)] else []), fin, acts) /\
    data_step (c_rcv c) seg r' fin /\ (acts = [] \/ acts = [CountReorderDropped]).
Proof.
  intros Hr Hseg. pose proof Hseg as [_ Hp]. pose proof (zlen_nonneg (payload seg)) as Hnn.
  unfold handleEstablishedDataLocked. rewrite (u32_id (zlen (payload seg))) by (unfold is_u32; lia).
  assert (Hsame : forall segs acts, acts = [] \/ acts = [CountReorderDropped] ->
    segs = (if consumes seg then [buildACKLocked c] else []) ->
    exists r' fin acts' n, (c_notify c <= n)%nat /\ Ok (E := tcp_error) (c, toSend ++ segs, false, acts) =
      Ok (updr r' n c, toSend ++ (if consumes seg then [buildACKLocked (updr r' n c)] else []), fin, acts') /\
    data_step (c_rcv c) seg r' fin /\ (acts' = [] \/ acts' = [CountReorderDropped])).
  { intros segs acts Ha ->. exists (c_rcv c), false, acts, (c_notify c). rewrite updr_id.
    split_and!; [lia|done|constructor|done]. }
  fold (consumes seg). destruct (consumes seg) eqn:Ec; cbn [negb].
  2:{ destruct (Hsame [] [] (or_introl eq_refl) eq_refl) as (r' & fin & acts & n & H). rewrite app_nil_r in H |- *.
      by exists r', fin, acts, n. }
  destruct (Z.eqb_spec (seq seg) (rcvNxt (c_rcv c))) as [Eq|Hne].
  - rewrite acceptData_spec by done. outcome_simpl.
    pose proof (remaining_eq _ Hr) as Hrem. pose proof Hr as [_ Hw _ _].
    set (n := Z.min _ _). destruct (Z.eqb_spec n (zlen (payload seg))) as [En|Hn].
    + rewrite take_ge by (unfold zlen in *; lia).
      destruct (reorder_drain_spec (size (reorder (c_rcv c))) (advance (c_rcv c) (payload seg))) as (r1 & HE & HD & HI);
        [apply advance_inv; [done|lia]|cbn; lia|].
      change (reorder (advance (c_rcv c) (payload seg))) with (reorder (c_rcv c)). rewrite HE. outcome_simpl.
      destruct (consumeFIN r1 seg) as [r' fin] eqn:EF.
      exists r', fin, [], (S (c_notify c)). split_and!; [lia|done| |by left].
      apply (ds_full _ _ r1); [done|done|lia|done|done].
    + outcome_simpl. eexists _, false, [], (S (c_notify c)). split_and!; [lia|done| |by left].
      apply ds_partial; [done|lia|lia].
  - destruct (seqGT (seq seg) (rcvNxt (c_rcv c))) eqn:Eg; [|apply Hsame; [by left|done]].
    destruct (reorder (c_rcv c) !! seq seg) as [d|] eqn:El; [apply Hsame; [by left|done]|].
    pose proof Hr as [_ _ Hs _]. unfold maxReorderSegments in *. rewrite (u32_id (Z.of_nat _)) by (unfold is_u32; lia).
    destruct ((16 <=? Z.of_nat (size (reorder (c_rcv c)))) || (recvWindowRemainingLocked (c_rcv c) <? zlen (payload seg)))
      eqn:Ed; [apply Hsame; [by right|done]|].
    apply orb_false_iff in Ed as [Ed1%Z.leb_gt Ed2%Z.ltb_ge].
    eexists _, false, [], (c_notify c). split_and!; [lia|reflexivity| |by left].
    by apply ds_stored.
Qed.

End TcpConn.
