(* ===== verification/TcpInvariant.v ===== *)
(** * TcpInvariant: what holds of a TCP connection at all times

    The operations of [TcpConn] as one transition function; its invariant
    (buffer bounds, window, timer ranges, what each state implies); the
    transitions of the state machine; the retransmission timer runs whenever
    something is [outstanding]; blocked calls are woken; retransmission gives up. *)

From stdpp Require Import gmap.
From S2P Require Import Prelude TcpSegment Deadline TcpConn.
Import TcpSegment TcpConn.

Module TcpInvariant.

(** ** Operations *)

Inductive conn_op :=
  | Segment (seg : tcpSegment)
  | TimerEvent (ev : timer_event)
  | ReadOp (n : nat)
  | WriteOp (p : bytes) (total : Z)   (* one pass, fresh or resumed *)
  | CloseWriteOp
  | CloseOp
  | AbortOp
  | Deadlines (rd wd : Deadline.deadlineTimer)
  | Counted (half live : bool) (ip : bytes).  (* the demultiplexer's accounting *)

Definition exec (ourMSS : Z) (c : tcpConn) (op : conn_op) : outcome tcp_error (tcpConn * list conn_action) :=
  match op with
  | Segment seg => handleSegment c seg
  | TimerEvent ev => '(c, acts, _) ← timerLoop c ourMSS ev; Ok (c, acts)
  | ReadOp n => Ok ((Read c n).2, [])
  | WriteOp p total => '(_, c, acts) ← writePass c p total; Ok (c, acts)
  | CloseWriteOp => Ok (CloseWrite c)
  | CloseOp => Ok (Close c)
  | AbortOp => Ok (abort c)
  | Deadlines rd wd => Ok (set_deadlines rd wd c, [])
  | Counted half live ip => Ok (set_counted half live (set_halfOpenIP ip c), [])
  end.

(** The application has the connection only once it is established. *)
Definition op_ok (c : tcpConn) (op : conn_op) : Prop :=
  match op with
  | Segment seg => seg_ok seg
  | ReadOp _ | CloseWriteOp => c_state c <> stateSynRcvd
  | WriteOp p total => c_state c <> stateSynRcvd /\ 0 <= total <= zlen p
  | TimerEvent _ | CloseOp | AbortOp | Deadlines _ _ | Counted _ _ _ => True
  end.

(** ** The invariant *)

Record tmr_ok (slack : Z) (t : timers) : Prop := {
  ti_rto : initialRTO <= rto t <= maxRTO;
  ti_count : 0 <= retransmitCount t <= maxRetransmits + slack;
  ti_persist : 0 <= persistProbeCount t <= maxPersistProbes + slack;
  ti_timer : forall d, rtoTimer t = Some d -> initialRTO <= d <= maxRTO;
}.

Definition fin_state (st : tcpState) : bool :=
  match st with
  | stateFinWait1 | stateFinWait2 | stateClosing | stateTimeWait | stateLastAck => true
  | _ => false
  end.
Definition peer_closed_state (st : tcpState) : bool :=
  match st with stateCloseWait | stateLastAck | stateClosing | stateTimeWait => true | _ => false end.
Definition fin_acked_state (st : tcpState) : bool :=
  match st with stateFinWait2 | stateTimeWait => true | _ => false end.

(** Nothing that the peer's window admits is left unsent. *)
Definition flushed (s : sendSide) : Prop :=
  0 < sndMSS s -> Z.min (sndWnd s) (zlen (outBuf s)) <= sentBytes s.

Record core_inv (c : tcpConn) : Prop := {
  ki_rcv : rcv_inv (c_rcv c);
  ki_snd : snd_inv (c_snd c);
  ki_flushed : flushed (c_snd c);
  ki_tmr : tmr_ok (if isClosed c then 1 else 0) (c_tmr c);
  ki_fin : c_state c <> stateClosed -> finSent (c_snd c) = fin_state (c_state c);
  ki_acked : fin_acked_state (c_state c) = true -> finAcked (c_snd c) = true;
  ki_peer : peer_closed_state (c_state c) = true -> peerClosed (c_rcv c) = true;
  ki_tw : c_state c <> stateClosed -> inTimeWait (c_tmr c) = bool_decide (c_state c = stateTimeWait);
  ki_syn : c_state c = stateSynRcvd -> outBuf (c_snd c) = [];
  ki_listen : c_state c <> stateListen;
  ki_err : c_err c <> Some EOF;
  ki_stop : stopTimersClosed (c_tmr c) = isClosed c;
}.

(** What keeps the timer running: the handshake, data in flight, data that waits
    under an MSS that is not zero, TIME_WAIT.  An unacknowledged FIN is not among it. *)
Definition outstanding (c : tcpConn) : Prop :=
  c_state c = stateSynRcvd \/ c_state c = stateTimeWait \/ 0 < sentBytes (c_snd c) \/
  (0 < sndMSS (c_snd c) /\ sentBytes (c_snd c) < zlen (outBuf (c_snd c))).

Record timer_inv (c : tcpConn) : Prop := {
  ti_armed : c_state c <> stateClosed -> timerArmed (c_tmr c) = true -> is_Some (rtoTimer (c_tmr c));
  ti_live : c_state c <> stateClosed -> outstanding c -> is_Some (rtoTimer (c_tmr c));
}.

Definition conn_inv (c : tcpConn) : Prop := core_inv c /\ timer_inv c.

(** ** Timers *)

Ltac tmr_solve :=
  repeat match goal with H : tmr_ok _ _ |- _ => destruct H end;
  constructor; cbn in *; unfold initialRTO, maxRTO, maxRetransmits, maxPersistProbes, timeWaitDuration in *;
  try lia; intros; simplify_eq; try lia; auto.

Lemma newTCPConn_inv (l a : nat) (key : fourTuple) (isn cisn cwnd m : Z) :
  is_u32 isn -> is_u16 cwnd -> is_u16 m -> conn_inv (newTCPConn l a key isn cisn cwnd m).
Proof.
  intros Hi Hw Hm. split; [|constructor; cbn; eauto]. constructor; cbn; try done.
  - constructor; cbn; [apply u32_range|by unfold zlen|done|apply map_Forall_empty].
  - intros Hm0. unfold zlen. cbn. unfold is_u16 in *. lia.
  - change (isClosed _) with false. tmr_solve.
Qed.

Lemma tmr_ok_disarm k t : tmr_ok k t -> tmr_ok k (disarm t).
Proof. intros. tmr_solve. Qed.
Lemma tmr_ok_progress k t : 0 <= k -> tmr_ok k t -> tmr_ok k (progress t).
Proof. intros. tmr_solve. Qed.
Lemma tmr_ok_rearm k n t : tmr_ok k t -> 0 <= n <= maxRetransmits + k -> tmr_ok k (rearm initialRTO n t).
Proof. intros. tmr_solve. Qed.
Lemma tmr_ok_persist k t : 0 <= k -> tmr_ok k t -> tmr_ok k (set_persist 0 t).
Proof. intros. tmr_solve. Qed.
Lemma tmr_ok_weaken k t : tmr_ok k t -> tmr_ok (k + 1) t.
Proof. intros. tmr_solve. Qed.

Create HintDb tcp.
#[local] Hint Resolve tmr_ok_disarm tmr_ok_progress tmr_ok_rearm tmr_ok_persist : tcp.

Lemma pending_timers_ok k s t fp : 0 <= k -> tmr_ok k t -> tmr_ok k (pending_timers s t fp).
Proof.
  intros Hk Ht. unfold pending_timers. pose proof (ti_count _ _ Ht).
  destruct fp; [done|]. case_match; [|case_match]; auto with tcp.
  apply tmr_ok_rearm; [done|]. unfold maxRetransmits. lia.
Qed.

Lemma ack_timers_ok k s seg t : 0 <= k -> tmr_ok k t -> tmr_ok k (ack_timers s seg t).
Proof.
  intros Hk Ht. unfold ack_timers, retire_timers.
  assert (tmr_ok k (rearm initialRTO 0 (progress t)))
    by (apply tmr_ok_rearm; [auto with tcp|unfold maxRetransmits; lia]).
  repeat case_match; auto with tcp.
Qed.

Definition armed_ok (t : timers) : Prop := timerArmed t = true -> is_Some (rtoTimer t).

Lemma pending_armed s t fp : armed_ok t -> armed_ok (pending_timers s t fp).
Proof. unfold armed_ok, pending_timers. repeat case_match; cbn; eauto. Qed.

Lemma ack_armed s seg t : armed_ok t -> armed_ok (ack_timers s seg t).
Proof. unfold armed_ok, ack_timers, retire_timers. repeat case_match; cbn; eauto; done. Qed.

Lemma ack_live s seg t :
  snd_inv s -> (0 < sentBytes s -> is_Some (rtoTimer t)) ->
  0 < sentBytes (ack_snd s seg) -> is_Some (rtoTimer (ack_timers s seg t)).
Proof.
  intros Hs Ht. pose proof (acked_range s (ack seg) Hs) as Hn. cbn. intros Hp.
  unfold ack_timers, retire_timers. rewrite (proj2 (Z.eqb_neq (sentBytes s - _) 0)) by lia.
  rewrite andb_false_r. case_match; cbn; case_match; cbn; eauto; apply Ht; lia.
Qed.

Lemma pending_live s t :
  snd_inv s -> armed_ok t -> (0 < sentBytes s -> is_Some (rtoTimer t)) ->
  0 < pending_target s false \/ (0 < sndMSS s /\ pending_target s false < zlen (outBuf s)) ->
  is_Some (rtoTimer (pending_timers s t false)).
Proof.
  intros Hs Ha Ht Hp. pose proof Hs as [_ [Hw Hm] Hsent _ _]. unfold is_u16 in *. unfold pending_timers.
  destruct (Z.ltb_spec (sentBytes s) (pending_target s false)) as [Hlt|Hge]; [cbn; eauto|].
  assert (Ht0 : pending_target s false = sentBytes s).
  { unfold pending_target, send_target in *. rewrite andb_false_r in *. destruct (sndMSS s =? 0); lia. }
  rewrite Ht0 in Hp. destruct (Z.ltb_spec 0 (sentBytes s)) as [Hpos|Hz].
  { specialize (Ht Hpos). case_match; [cbn; eauto|done]. }
  destruct Hp as [Hp|[Hm0 Hb]]; [lia|]. rewrite (proj2 (Z.ltb_lt _ _) Hb), andb_true_r.
  destruct (Z.eqb_spec (sndWnd s) 0) as [E0|E0]; cbn [andb].
  - destruct (timerArmed t) eqn:Ea; cbn; [by apply Ha|eauto].
  - exfalso. unfold pending_target, send_target in Ht0. rewrite (proj2 (Z.eqb_neq _ 0) E0) in Ht0. cbn [andb] in Ht0.
    rewrite (proj2 (Z.eqb_neq (sndMSS s) 0)) in Ht0 by lia. lia.
Qed.

Lemma pending_flags s t fp :
  inTimeWait (pending_timers s t fp) = inTimeWait t /\ stopTimersClosed (pending_timers s t fp) = stopTimersClosed t.
Proof. unfold pending_timers. by repeat case_match. Qed.

Lemma ack_flags s seg t :
  inTimeWait (ack_timers s seg t) = inTimeWait t /\ stopTimersClosed (ack_timers s seg t) = stopTimersClosed t.
Proof. unfold ack_timers, retire_timers. by repeat case_match. Qed.

Lemma slack_nonneg (c : tcpConn) : 0 <= (if isClosed c then 1 else 0).
Proof. by destruct (isClosed c). Qed.

Lemma pending_target_range s fp :
  snd_inv s -> sentBytes s <= pending_target s fp <= zlen (outBuf s).
Proof.
  intros [_ [_ Hm] Hsent _ _]. unfold pending_target, send_target, is_u16 in *.
  destruct (sndMSS s =? 0) eqn:E; [lia|]. apply Z.eqb_neq in E. destruct fp; lia.
Qed.

Lemma pending_flushed s : flushed (set_sentBytes (pending_target s false) s).
Proof.
  intros Hm. cbn in *. unfold pending_target, send_target.
  rewrite andb_false_r, (proj2 (Z.eqb_neq (sndMSS s) 0)) by lia. lia.
Qed.

(** ** The two handlers of an established connection keep the invariant *)

(** Replacing the send side and the timers keeps the invariant when they fit the
    state the connection is in. *)
Lemma upd_inv (c : tcpConn) (s : sendSide) (t : timers) (n : nat) :
  core_inv c -> snd_inv s -> flushed s -> tmr_ok (if isClosed c then 1 else 0) t ->
  finSent s = finSent (c_snd c) -> (finAcked (c_snd c) = true -> finAcked s = true) ->
  (c_state c = stateSynRcvd -> outBuf s = []) ->
  inTimeWait t = inTimeWait (c_tmr c) -> stopTimersClosed t = stopTimersClosed (c_tmr c) ->
  core_inv (upd s t n c).
Proof.
  intros [] Hs Hfl Ht Hf Hfa Hb Htw Hst. constructor; cbn; try done.
  - by rewrite Hf.
  - intros. auto.
  - by rewrite Htw.
  - by rewrite Hst.
Qed.

Lemma handleAck_ok (c : tcpConn) (seg : tcpSegment) (toSend : list tcpSegment) :
  conn_inv c -> seg_ok seg -> c_state c <> stateSynRcvd -> c_state c <> stateTimeWait ->
  exists s t n segs, handleAckLocked c seg toSend = Ok (upd s t n c, toSend ++ segs) /\
    conn_inv (upd s t n c) /\ finSent s = finSent (c_snd c) /\ (c_notify c <= n)%nat.
Proof.
  intros [Hc [Ha Hl]] [Hr _] Hst Htw. pose proof (ki_snd c Hc) as Hs.
  destruct (has_flag (flags seg) flagACK) eqn:Ef.
  2:{ exists (c_snd c), (c_tmr c), (c_notify c), []. unfold handleAckLocked. rewrite Ef, upd_id, app_nil_r. done. }
  destruct (handleAck_spec c seg toSend Hs Hr Ef) as (segs & n & Hn & HE & _).
  set (s := ack_snd (c_snd c) seg) in *. set (t := ack_timers (c_snd c) seg (c_tmr c)) in *.
  assert (Hs1 : snd_inv s) by (apply ack_snd_inv; [done|by destruct Hr as [_ _ [_ ?] _]]).
  pose proof (pending_target_range s false Hs1) as Hm. pose proof (si_sent _ Hs1) as Hsent.
  exists (set_sentBytes (pending_target s false) s), (pending_timers s t false), n, segs.
  split_and!; [done| |done|done]. split.
  - destruct (pending_flags s t false) as [E1 E2]. destruct (ack_flags (c_snd c) seg (c_tmr c)) as [E3 E4].
    fold t in E3, E4. apply upd_inv; try done; try congruence.
    + apply snd_inv_sent; [done|lia].
    + apply pending_flushed.
    + apply pending_timers_ok, ack_timers_ok, Hc; apply slack_nonneg.
    + cbn. by intros ->.
  - constructor; cbn [upd c_state c_tmr c_snd]; intros Hcl.
    + apply pending_armed, ack_armed. exact (Ha Hcl).
    + intros Ho. specialize (Ha Hcl).
      apply pending_live; [done|by apply ack_armed| |].
      * apply ack_live; [done|]. intros Hp. apply Hl; [done|]. right. right. by left.
      * destruct Ho as [Ho|[Ho|[Ho|Ho]]]; [done|done|by left|by right].
Qed.

Lemma data_step_peer (r r' : recvSide) (seg : tcpSegment) (fin : bool) :
  data_step r seg r' fin -> peerClosed r' = fin || peerClosed r.
Proof.
  intros [| |r1 r2 f _ _ _ HD HF|]; try done. revert HF.
  assert (Hp : forall a b, drains a b -> peerClosed b = peerClosed a) by (induction 1; done).
  apply Hp in HD. cbn in HD. unfold consumeFIN. case_match; [|case_match]; intros [= <- <-]; done.
Qed.

Lemma handleData_ok (c : tcpConn) (seg : tcpSegment) (toSend : list tcpSegment) :
  conn_inv c -> seg_ok seg ->
  exists r n segs fin acts, handleEstablishedDataLocked c seg toSend = Ok (updr r n c, toSend ++ segs, fin, acts) /\
    conn_inv (updr r n c) /\ peerClosed r = fin || peerClosed (c_rcv c) /\ (c_notify c <= n)%nat.
Proof.
  intros [Hc Ht] Hseg.
  destruct (handleData_spec c seg toSend (ki_rcv _ Hc) Hseg) as (r & fin & acts & n & Hn & HE & HD & _).
  pose proof (data_step_peer _ _ _ _ HD) as Hp.
  exists r, n, (if consumes seg then [buildACKLocked (updr r n c)] else []), fin, acts.
  split_and!; [done| |done|done]. split; [|by destruct Ht]. destruct Hc; constructor; cbn; try done.
  - apply (data_step_inv (c_rcv c) r seg fin); [done| |done]. by destruct Hseg as [[_ [? _] _ _] _].
  - intros Hs. rewrite Hp, ki_peer0, orb_true_r by done. done.
Qed.

(** ** The state machine *)

(** RFC 9293's diagram without the active open: the moves one operation makes. *)
Definition edge (a b : tcpState) : bool :=
  bool_decide (a = b) ||
  match a, b with
  | stateSynRcvd, (stateEstablished | stateClosed)
  | stateEstablished, (stateFinWait1 | stateCloseWait | stateClosed)
  | stateFinWait1, (stateFinWait2 | stateClosing | stateTimeWait | stateClosed)
  | stateFinWait2, (stateTimeWait | stateClosed)
  | stateClosing, (stateTimeWait | stateClosed)
  | stateTimeWait, stateClosed
  | stateCloseWait, (stateLastAck | stateClosed)
  | stateLastAck, stateClosed => true
  | _, _ => false
  end.

(** A change no blocked call has to hear of: a waiting Read and a waiting Write
    would go on waiting. *)
Record quiet (c c' : tcpConn) : Prop := {
  qu_recv : recvBuf (c_rcv c) = [] -> recvBuf (c_rcv c') = [];
  qu_peer : peerClosed (c_rcv c') = peerClosed (c_rcv c);
  qu_err : c_err c' = c_err c;
  qu_out : maxInFlightBytes <= zlen (outBuf (c_snd c)) -> maxInFlightBytes <= zlen (outBuf (c_snd c'));
}.

(** A closed connection tells its reader so. *)
Definition readable (c : tcpConn) : Prop :=
  c_state c = stateClosed -> is_Some (c_err c) \/ peerClosed (c_rcv c) = true.

(** What every operation guarantees. *)
Record step_ok (c c' : tcpConn) : Prop := {
  so_inv : conn_inv c';
  so_edge : edge (c_state c) (c_state c') = true;
  so_wake : (c_notify c < c_notify c')%nat \/ quiet c c';
  so_read : c_state c <> stateSynRcvd -> readable c -> readable c';
}.

Lemma edge_refl (st : tcpState) : edge st st = true.
Proof. unfold edge. by rewrite bool_decide_eq_true_2. Qed.

Lemma quiet_ok (c c' : tcpConn) :
  conn_inv c' -> c_state c' = c_state c -> quiet c c' -> step_ok c c'.
Proof.
  intros Hi Hs Hq. constructor; [done|rewrite Hs; apply edge_refl|by right|].
  intros _ Hr. unfold readable. rewrite Hs, (qu_peer _ _ Hq), (qu_err _ _ Hq). exact Hr.
Qed.

Lemma same_ok (c : tcpConn) : conn_inv c -> step_ok c c.
Proof. intros Hi. by apply quiet_ok. Qed.

Lemma broadcast_inv (c : tcpConn) : conn_inv c -> conn_inv (broadcastLocked c).
Proof. by intros [[] []]. Qed.

(** The ways into CLOSED share this shape. *)
Lemma closed_inv (c : tcpConn) (e : option conn_error) :
  rcv_inv (c_rcv c) -> snd_inv (c_snd c) -> flushed (c_snd c) -> tmr_ok 1 (c_tmr c) ->
  match e with Some e => Some e | None => c_err c end <> Some EOF ->
  conn_inv (broadcastLocked (stopTimersLocked (set_state stateClosed
    (match e with Some e => set_err e c | None => c end)))).
Proof.
  intros Hr Hs Hfl Ht Hne. set (c0 := match e with Some e => set_err e c | None => c end).
  assert (Hc0 : c_snd c0 = c_snd c /\ c_rcv c0 = c_rcv c /\ c_tmr c0 = c_tmr c) by (by destruct e).
  destruct Hc0 as (E1 & E2 & E3). split; [|by constructor].
  constructor; cbn; rewrite ?E1, ?E2, ?E3; try done.
  - change (isClosed _) with true. tmr_solve.
  - by destruct e.
Qed.

Lemma core_tmr_1 (c : tcpConn) : core_inv c -> tmr_ok 1 (c_tmr c).
Proof. intros []. destruct (isClosed c); [done|]. by apply (tmr_ok_weaken 0). Qed.

Lemma edge_closed (st : tcpState) : st <> stateListen -> edge st stateClosed = true.
Proof. by destruct st. Qed.

Lemma conn_close_ok (c : tcpConn) (e : option conn_error) :
  core_inv c -> e <> Some EOF -> c_state c = stateSynRcvd \/ is_Some e \/ peerClosed (c_rcv c) = true ->
  step_ok c (broadcastLocked (stopTimersLocked (set_state stateClosed
    (match e with Some e => set_err e c | None => c end)))).
Proof.
  intros Hc Hne He. constructor; [|apply edge_closed, Hc|left; by destruct e; cbn; lia|].
  - apply closed_inv; [apply Hc..|by apply core_tmr_1|]. destruct e; [done|apply Hc].
  - intros Hs _ _. destruct He as [?|[[x ->]|Hp]]; [done|left; cbn; eauto|right; by destruct e].
Qed.

Lemma isClosed_false (c : tcpConn) : c_state c <> stateClosed -> isClosed c = false.
Proof. intros. by apply bool_decide_eq_false_2. Qed.

(** A move inside the synchronised states. *)
Lemma move_inv (c : tcpConn) (st : tcpState) :
  conn_inv c -> c_state c <> stateClosed -> c_state c <> stateTimeWait ->
  st <> stateClosed -> st <> stateTimeWait -> st <> stateSynRcvd -> st <> stateListen ->
  finSent (c_snd c) = fin_state st -> (fin_acked_state st = true -> finAcked (c_snd c) = true) ->
  (peer_closed_state st = true -> peerClosed (c_rcv c) = true) ->
  conn_inv (set_state st c).
Proof.
  intros [[] []] Hc Htw. intros. rewrite isClosed_false in ki_tmr0, ki_stop0 by done. split.
  - constructor; cbn; rewrite ?(isClosed_false (set_state st c)) by done; try done.
    intros _. rewrite ki_tw0 by done. by rewrite !bool_decide_eq_false_2.
  - constructor; cbn; [auto|]. intros _ Ho. apply ti_live0; [done|].
    destruct Ho as [Ho|[Ho|Ho]]; [done|done|by right; right].
Qed.

Lemma timeWait_inv (c : tcpConn) :
  conn_inv c -> c_state c <> stateClosed -> finSent (c_snd c) = true -> finAcked (c_snd c) = true ->
  peerClosed (c_rcv c) = true -> conn_inv (startTimeWaitLocked c).
Proof.
  intros [[] []] Hc Hf Ha Hp. rewrite isClosed_false in ki_tmr0, ki_stop0 by done.
  split; [|constructor; cbn; eauto].
  constructor; cbn; try done. change (isClosed _) with false. tmr_solve.
Qed.

(** The handshake's last segment. *)
Lemma established_inv (c : tcpConn) (u : Z) :
  conn_inv c -> c_state c = stateSynRcvd -> is_u32 u ->
  let c1 := set_state stateEstablished (set_snd (set_sndUna u (c_snd c)) c) in
  conn_inv (set_tmr (disarm (c_tmr c1)) c1).
Proof.
  intros [[] []] Hst Hu. rewrite isClosed_false in ki_tmr0, ki_stop0 by congruence. rewrite Hst in *.
  cbn. split.
  - constructor; cbn; try done.
    + destruct ki_snd0. by constructor.
    + change (isClosed _) with false. by apply tmr_ok_disarm.
    + intros _. by rewrite ki_fin0.
    + intros _. by rewrite ki_tw0.
  - constructor; cbn; [done|]. unfold outstanding. cbn. rewrite ki_syn0 by done.
    destruct ki_snd0 as [_ _ Hsent _ _]. rewrite ki_syn0 in Hsent by done. change (zlen []) with 0 in *.
    intros _ [?|[?|[?|[_ ?]]]]; try done; lia.
Qed.

(** Acknowledgement and data processing, as three of the states compose them. *)
Lemma ackData_ok (c : tcpConn) (seg : tcpSegment) :
  conn_inv c -> seg_ok seg -> c_state c <> stateSynRcvd -> c_state c <> stateTimeWait ->
  exists c1 segs1 c2 segs fin acts, handleAckLocked c seg [] = Ok (c1, segs1) /\
    handleEstablishedDataLocked c1 seg segs1 = Ok (c2, segs, fin, acts) /\ conn_inv c2 /\
    c_state c2 = c_state c /\ finSent (c_snd c2) = finSent (c_snd c) /\
    (fin = true -> peerClosed (c_rcv c2) = true) /\ (c_notify c <= c_notify c2)%nat.
Proof.
  intros Hi Hseg Hs Ht.
  destruct (handleAck_ok c seg [] Hi Hseg Hs Ht) as (s & t & n & segs & HE & Hi1 & Hf & Hn).
  destruct (handleData_ok (upd s t n c) seg ([] ++ segs) Hi1 Hseg) as (r & n2 & segs2 & fin & acts & HE2 & Hi2 & Hp & Hn2).
  eexists _, _, _, _, _, _. split_and!; [exact HE|exact HE2|done|done|done| |].
  - intros ->. exact Hp.
  - cbn in *. lia.
Qed.

(** The end of the handler for a state that stays or moves on. *)
Lemma finish_ok (c c' : tcpConn) :
  conn_inv c' -> edge (c_state c) (c_state c') = true -> (c_notify c <= c_notify c')%nat ->
  c_state c' <> stateClosed -> step_ok c (broadcastLocked c').
Proof.
  intros Hi He Hn Hcl. constructor; [by apply broadcast_inv|done|left; cbn; lia|]. intros _ _ Hc. done.
Qed.

(** The states that take data: ESTABLISHED, FIN_WAIT_1, FIN_WAIT_2. *)
Lemma handleSegment_data_ok (c : tcpConn) (seg : tcpSegment) :
  conn_inv c -> seg_ok seg -> has_flag (flags seg) flagRST = false ->
  c_state c = stateEstablished \/ c_state c = stateFinWait1 \/ c_state c = stateFinWait2 ->
  exists c' acts, handleSegment c seg = Ok (c', acts) /\ step_ok c c'.
Proof.
  intros Hi Hseg Hrst Hst. pose proof Hi as [Hc _]. unfold handleSegment. rewrite Hrst.
  destruct (ackData_ok c seg Hi Hseg) as (c1 & segs1 & c2 & segs & fin & acts & HA & HE & Hi2 & Hs2 & Hf2 & Hp2 & Hn2);
    [by destruct Hst as [->|[->| ->]]..|].
  rewrite HA. pose proof (ki_fin c Hc) as Hfin. pose proof (ki_acked c2 (proj1 Hi2)) as Hack.
  destruct Hst as [Est|[Est|Est]]; rewrite Est in *; specialize (Hfin ltac:(done)); cbn in Hfin; rewrite Hfin in Hf2;
    outcome_simpl; rewrite HE; outcome_simpl; eexists _, _; (split; [done|]); apply finish_ok; rewrite ?Est.
  - destruct fin; [|done]. apply move_inv; try done; congruence.
  - destruct fin; [done|by rewrite Hs2].
  - by destruct fin.
  - destruct fin; cbn; congruence.
  - destruct fin, (finAcked (c_snd c2)) eqn:Ea; cbn [andb]; [apply timeWait_inv; auto; congruence|..|done];
      apply move_inv; try done; congruence.
  - destruct fin, (finAcked (c_snd c2)) eqn:Ea; cbn [andb]; try done. by rewrite Hs2.
  - by destruct fin, (finAcked (c_snd c2)).
  - destruct fin, (finAcked (c_snd c2)); cbn; congruence.
  - destruct fin; [|done]. rewrite Hs2 in Hack. apply timeWait_inv; auto. congruence.
  - destruct fin; [done|by rewrite Hs2].
  - by destruct fin.
  - destruct fin; cbn; congruence.
Qed.

Lemma handleSegment_ok (c : tcpConn) (seg : tcpSegment) :
  conn_inv c -> seg_ok seg -> exists c' acts, handleSegment c seg = Ok (c', acts) /\ step_ok c c'.
Proof.
  intros Hi Hseg. pose proof Hi as [Hc _]. destruct (has_flag (flags seg) flagRST) eqn:Er.
  { unfold handleSegment. rewrite Er.
    destruct (negb _); [exists c, []; split; [done|by apply same_ok]|].
    eexists _, _. split; [done|]. apply (conn_close_ok c (Some ErrTCPConnReset) Hc ltac:(done)). eauto. }
  pose proof (handleSegment_data_ok c seg Hi Hseg Er) as HD.
  pose proof (handleAck_ok c seg [] Hi Hseg) as HA. pose proof (ki_fin c Hc) as Hfin. pose proof (ki_peer c Hc) as Hpeer.
  unfold handleSegment in *. rewrite Er in *. destruct (c_state c) eqn:Est; try (apply HD; by auto);
    try specialize (Hfin ltac:(done)).
  - by destruct Hc.
  - destruct (negb _ || negb _).
    { eexists _, _. split; [done|]. apply (conn_close_ok c None Hc ltac:(done)). by left. }
    pose proof (established_inv c (ack seg) Hi Est ltac:(by destruct Hseg as [[_ [_ ?] _ _] _])) as Hi1.
    cbn zeta in Hi1. set (c1 := set_tmr _ _) in *.
    destruct (handleData_ok c1 seg [] Hi1 Hseg) as (r & n & segs & fin & acts & HE & Hi2 & _ & Hn).
    rewrite HE. outcome_simpl. eexists _, _. split; [done|]. apply finish_ok; [done|by rewrite Est|done|done].
  - destruct (HA ltac:(done) ltac:(done)) as (s & t & n & segs & -> & Hi1 & Hf & Hn). outcome_simpl.
    cbn [c_snd upd]. destruct (finAcked s) eqn:Ea; eexists _, _; (split; [done|]).
    + apply finish_ok; [|by rewrite Est|done|done].
      apply timeWait_inv; [done|cbn; congruence|cbn; by rewrite Hf, Hfin|done|by apply Hpeer].
    + apply finish_ok; [done|apply edge_refl|done|cbn; congruence].
  - eexists _, _. split; [done|]. apply finish_ok; [done|apply edge_refl|done|congruence].
  - destruct (HA ltac:(done) ltac:(done)) as (s & t & n & segs & -> & Hi1 & Hf & Hn). outcome_simpl.
    eexists _, _. split; [done|]. apply finish_ok; [done|apply edge_refl|done|cbn; congruence].
  - destruct (HA ltac:(done) ltac:(done)) as (s & t & n & segs & -> & Hi1 & Hf & Hn). outcome_simpl.
    destruct (finAcked (c_snd (upd s t n c))); eexists _, _; (split; [done|]).
    + destruct (conn_close_ok (upd s t n c) None (proj1 Hi1) ltac:(done)) as [H1 H2 H3 H4]; [by right; right; apply Hpeer|].
      constructor; [done|done|left; cbn; lia|done].
    + apply finish_ok; [done|apply edge_refl|done|cbn; congruence].
  - eexists _, _. split; [done|]. constructor; [by apply broadcast_inv|apply edge_refl|left; cbn; lia|done].
Qed.

(** ** The timer *)

Lemma doubleRTO_spec (d : Z) : initialRTO <= d <= maxRTO -> doubleRTO d = Z.min (2 * d) maxRTO.
Proof.
  unfold doubleRTO, initialRTO, maxRTO. intros Hd.
  assert (i64 (d * 2) = d * 2) as -> by (unfold i64, u64; rewrite Z.mod_small by lia; bool_cases; lia).
  bool_cases; lia.
Qed.

Lemma set_tmr_inv (c : tcpConn) (t : timers) :
  core_inv c -> tmr_ok (if isClosed c then 1 else 0) t -> inTimeWait t = inTimeWait (c_tmr c) ->
  stopTimersClosed t = stopTimersClosed (c_tmr c) -> core_inv (set_tmr t c).
Proof.
  intros Hc Ht H1 H2. apply (upd_inv c (c_snd c) t (c_notify c)); try done; apply Hc.
Qed.

(** A running timer is all the timer invariant asks for. *)
Lemma running_inv (c : tcpConn) : core_inv c -> is_Some (rtoTimer (c_tmr c)) -> conn_inv c.
Proof. intros Hc Hr. split; [done|]. by constructor. Qed.

Lemma resetConn_ok (c : tcpConn) (t : timers) :
  core_inv c -> tmr_ok 1 t -> step_ok c (resetConn (set_tmr t c)).1.
Proof.
  intros Hc Ht. constructor; [|apply edge_closed, Hc|left; cbn; lia|intros _ _ _; left; cbn; eauto].
  apply (closed_inv (set_tmr t c) (Some ErrTCPConnReset)); [apply Hc..|done|done].
Qed.

Lemma retransmit_ok (c : tcpConn) (seg : tcpSegment) :
  core_inv c -> c_state c <> stateClosed ->
  exists c' acts, retransmit c (Ok seg) = Ok (c', acts) /\ step_ok c c'.
Proof.
  intros Hc Hcl. pose proof (ki_tmr c Hc) as Ht. rewrite isClosed_false in Ht by done.
  unfold retransmit. cbn [c_tmr set_tmr].
  destruct (Z.ltb_spec maxRetransmits (retransmitCount (c_tmr c) + 1)) as [Hgt|Hle].
  - eexists _, _. split; [apply f_equal, surjective_pairing|]. apply resetConn_ok; [done|]. tmr_solve.
  - outcome_simpl. eexists _, _. split; [done|]. apply quiet_ok; [|done|done].
    apply running_inv; [|cbn; eauto]. apply (set_tmr_inv c); [done| |done|done].
    rewrite isClosed_false by done. pose proof (doubleRTO_spec _ (ti_rto _ _ Ht)) as Hd. tmr_solve.
Qed.

Lemma onRTOFired_ok (c : tcpConn) (ourMSS : Z) :
  core_inv c -> exists c' acts, onRTOFired c ourMSS = Ok (c', acts) /\ step_ok c c'.
Proof.
  intros Hc. pose proof (ki_snd c Hc) as Hs. pose proof Hs as [_ [Hw Hm] Hsent Hcap _].
  unfold onRTOFired, is_u16, maxInFlightBytes in *.
  case_bool_decide as Hcl.
  { eexists _, _. split; [done|]. apply same_ok. split; [done|]. by constructor. }
  pose proof (ki_tmr c Hc) as Ht. rewrite isClosed_false in Ht by done.
  destruct (inTimeWait (c_tmr c)) eqn:Etw.
  { eexists _, _. split; [done|]. apply (conn_close_ok c None Hc ltac:(done)). right. right. apply (ki_peer c Hc).
    pose proof (ki_tw c Hc Hcl) as Htw. rewrite Etw in Htw. symmetry in Htw. apply bool_decide_eq_true in Htw.
    by rewrite Htw. }
  pose proof (ki_tw c Hc Hcl) as Htw. rewrite Etw in Htw. symmetry in Htw. apply bool_decide_eq_false in Htw.
  case_bool_decide as Hsyn; [by apply retransmit_ok|].
  destruct (Z.ltb_spec 0 (sentBytes (c_snd c))) as [Hpos|Hz].
  { rewrite slice_ok; [outcome_simpl; by apply retransmit_ok|bool_cases; lia..]. }
  destruct (finSent (c_snd c) && negb (finAcked (c_snd c))); [by apply retransmit_ok|].
  rewrite (u32_id (zlen _)) by (unfold is_u32; lia).
  destruct ((sndWnd (c_snd c) =? 0) && (sentBytes (c_snd c) <? zlen (outBuf (c_snd c)))) eqn:Ep.
  - destruct (Z.ltb_spec maxPersistProbes (persistProbeCount (c_tmr c) + 1)) as [Hgt|Hle].
    { eexists _, _. split; [apply f_equal, surjective_pairing|]. apply resetConn_ok; [done|]. tmr_solve. }
    set (t := set_persist _ _). assert (Ht1 : tmr_ok 0 t) by tmr_solve.
    destruct (sendPending_spec (set_tmr t c) [] true Hs) as (segs & HE & _). rewrite HE. outcome_simpl.
    eexists _, _. split; [done|]. apply quiet_ok; [|done|done].
    apply running_inv; [|cbn; eauto].
    pose proof (pending_target_range (c_snd c) true Hs).
    apply (upd_inv c (set_sentBytes (pending_target (c_snd c) true) (c_snd c)) (reset (rto t) t) (c_notify c));
      try done; [apply snd_inv_sent; [done|lia]| |rewrite isClosed_false by done; tmr_solve].
    unfold flushed. cbn. lia.
  - eexists _, _. split; [done|]. apply quiet_ok; [|done|done]. split; [|constructor; cbn; [done|]].
    + apply set_tmr_inv; [done|rewrite isClosed_false by done; tmr_solve|done|done].
    + intros _ [?|[?|[?|[Hm0 Hb]]]]; [done|done|cbn in *; lia|]. exfalso. cbn in Hm0, Hb.
      pose proof (ki_flushed c Hc Hm0) as Hfl. apply andb_false_iff in Ep as [Ep%Z.eqb_neq|Ep%Z.ltb_ge]; lia.
Qed.

(** ** The application's calls *)

(** A pass of [Write] in closed form: the connection after queueing [data] and
    sending what the window admits. *)
Definition queued (c : tcpConn) (data : bytes) : sendSide := set_outBuf (outBuf (c_snd c) ++ data) (c_snd c).

Lemma writePass_spec (c : tcpConn) (p : bytes) (total : Z) :
  snd_inv (c_snd c) -> 0 <= total <= zlen p ->
  (exists res, writePass c p total = Ok (res, c, []) /\ forall n, res <> WMore n) \/
  exists k segs, 0 < k /\ total + k <= zlen p /\
    let s := queued c (take (Z.to_nat k) (drop (Z.to_nat total) p)) in
    snd_inv s /\ c_err c = None /\
    writePass c p total = Ok (WMore (total + k),
      upd (set_sentBytes (pending_target s false) s) (pending_timers s (c_tmr c) false) (c_notify c) c, sends segs) /\
    data_run (set_snd s c) (sentBytes s) segs (pending_target s false).
Proof.
  intros Hs Ht. pose proof Hs as [Hu Hw Hsent Hcap Hf]. unfold maxInFlightBytes in *. unfold writePass.
  destruct (Z.ltb_spec total (zlen p)) as [Hlt|Hge]; cbn [negb]; [|left; eexists; by split].
  destruct (Deadline.passed (writeDeadline c)); [left; eexists; by split|].
  destruct (c_err c) as [e|]; [left; eexists; by split|].
  rewrite (u32_id (zlen (outBuf _))) by (unfold is_u32; lia). unfold maxInFlightBytes.
  destruct (Z.ltb_spec (zlen (outBuf (c_snd c))) 65535) as [Hl|Hfull]; cbn [negb]; [|left; eexists; by split].
  right. set (k := if _ <? _ then _ else _).
  assert (Hk : k = Z.min (zlen p - total) (65535 - zlen (outBuf (c_snd c)))) by (unfold k; bool_cases; lia).
  clearbody k. rewrite slice_ok by lia. outcome_simpl. replace (total + k - total) with k by lia.
  set (data := take (Z.to_nat k) (drop (Z.to_nat total) p)).
  assert (Hzd : zlen data = k).
  { unfold data. rewrite zlen_take, zlen_drop by lia. lia. }
  change (set_outBuf (outBuf (c_snd c) ++ data) (c_snd c)) with (queued c data).
  assert (Hq : snd_inv (queued c data)).
  { constructor; cbn; try done; rewrite zlen_app, Hzd; unfold maxInFlightBytes; lia. }
  destruct (sendPending_spec (set_snd (queued c data) c) [] false Hq) as (segs & HE & HR).
  exists k, segs. split; [lia|]. split; [lia|]. cbn zeta. fold data. split; [done|]. split; [done|].
  rewrite HE. outcome_simpl. split; [done|]. exact HR.
Qed.

Lemma write_ok (c : tcpConn) (p : bytes) (total : Z) :
  conn_inv c -> c_state c <> stateSynRcvd -> 0 <= total <= zlen p ->
  exists res c' acts, writePass c p total = Ok (res, c', acts) /\ step_ok c c'.
Proof.
  intros Hi Hst Ht. pose proof Hi as [Hc [Ha Hl]].
  destruct (writePass_spec c p total (ki_snd c Hc) Ht) as [(res & HE & _)|(k & segs & Hk & Hle & Hq & _ & HE & _)].
  { exists res, c, []. split; [done|]. by apply same_ok. }
  set (s := queued c _) in *. eexists _, _, _. split; [exact HE|]. apply quiet_ok; [|done|].
  2:{ constructor; cbn; try done. rewrite zlen_app. pose proof (zlen_nonneg (take (Z.to_nat k) (drop (Z.to_nat total) p))). lia. }
  pose proof (pending_target_range s false Hq) as Hm. pose proof (si_sent _ Hq) as Hsent.
  destruct (pending_flags s (c_tmr c) false) as [E1 E2]. split.
  - apply upd_inv; try done; [apply snd_inv_sent; [done|lia]|apply pending_flushed|].
    apply pending_timers_ok; [apply slack_nonneg|apply Hc].
  - constructor; cbn [upd c_state c_tmr c_snd]; intros Hcl; [exact (pending_armed _ _ _ (Ha Hcl))|].
    assert (Hpos : 0 < sentBytes s -> is_Some (rtoTimer (c_tmr c))).
    { intros Hp. apply Hl; [done|]. right. right. by left. }
    intros [?|[Htw|[Ho|Ho]]]; [done| | |].
    + assert (is_Some (rtoTimer (c_tmr c))) by (apply Hl; [done|by right; left]).
      unfold pending_timers. repeat case_match; cbn; eauto.
    + apply pending_live; [done|exact (Ha Hcl)|done|by left].
    + apply pending_live; [done|exact (Ha Hcl)|done|by right].
Qed.

Lemma closeWrite_ok (c : tcpConn) : conn_inv c -> c_state c <> stateSynRcvd -> step_ok c (CloseWrite c).1.
Proof.
  intros Hi Hst. pose proof Hi as [Hc [Ha Hl]]. unfold CloseWrite.
  destruct (closeWriteOnce c); [by apply same_ok|].
  assert (Hsame : step_ok c (broadcastLocked (set_closeWriteOnce c))).
  { constructor; [|apply edge_refl|left; cbn; lia|done]. apply broadcast_inv. by destruct Hi as [[] []]. }
  assert (Hfin : forall st, c_state c <> stateClosed -> c_state c <> stateTimeWait -> edge (c_state c) st = true ->
    st = stateFinWait1 \/ st = stateLastAck -> (peer_closed_state st = true -> peerClosed (c_rcv c) = true) ->
    step_ok c (broadcastLocked (set_state st (sendFINLocked (set_closeWriteOnce c)).1))).
  { intros st Hcl Htw He Hor Hp.
    constructor; [|done|left; cbn; lia|intros _ _ Hs; cbn in Hs; by destruct Hor as [-> | ->]]. apply broadcast_inv, running_inv; [|cbn; eauto].
    pose proof (ki_tw c Hc Hcl) as Etw. destruct Hc. rewrite isClosed_false in ki_tmr0, ki_stop0 by done.
    constructor; cbn; try done.
    - by destruct ki_snd0.
    - rewrite (isClosed_false (set_state st _)) by (destruct Hor as [-> | ->]; done). tmr_solve.
    - intros _. by destruct Hor as [-> | ->].
    - by destruct Hor as [-> | ->].
    - intros _. rewrite Etw, !bool_decide_eq_false_2; [done|by destruct Hor as [-> | ->]|done].
    - by destruct Hor as [-> | ->].
    - by destruct Hor as [-> | ->].
    - rewrite (isClosed_false (set_state st _)) by (destruct Hor as [-> | ->]; done). done. }
  pose proof (ki_peer c Hc) as Hpeer. change (c_state (set_closeWriteOnce c)) with (c_state c).
  destruct (c_state c) eqn:Est; try exact Hsame.
  - apply (Hfin stateFinWait1); auto; done.
  - apply (Hfin stateLastAck); auto; done.
Qed.

(** Every operation, on every connection in the invariant, returns: no slice is
    out of range and no loop runs out of fuel. *)
Lemma exec_ok (ourMSS : Z) (c : tcpConn) (op : conn_op) :
  conn_inv c -> op_ok c op -> exists c' acts, exec ourMSS c op = Ok (c', acts) /\ step_ok c c'.
Proof.
  intros Hi Hok. pose proof Hi as [Hc _].
  destruct op as [seg|ev|n|p total| | | |rd wd|half live ip]; cbn [exec].
  - by apply handleSegment_ok.
  - destruct ev; cbn [timerLoop].
    + destruct (onRTOFired_ok (set_tmr (fired (c_tmr c)) c) ourMSS) as (c' & acts & -> & Hs).
      { apply set_tmr_inv; [done| |done|done]. pose proof (ki_tmr c Hc). tmr_solve. }
      outcome_simpl. eexists _, _. split; [done|]. destruct Hs as [? ? Hw ?].
      constructor; [done|done| |done]. destruct Hw as [?|[]]; [by left|right; by constructor].
    + unfold onAttachmentDetached. case_bool_decide; outcome_simpl; eexists _, _; (split; [done|]).
      * by apply same_ok.
      * apply (conn_close_ok c (Some ErrTCPConnReset) Hc ltac:(done)). eauto.
    + eexists _, _. split; [done|]. by apply same_ok.
  - eexists _, _. split; [done|]. unfold Read.
    pose proof (same_ok c Hi).
    repeat case_match; try done. cbn [snd]. apply quiet_ok; [|done|].
    2:{ constructor; cbn; try done. intros ->. by rewrite drop_nil. }
    split; [|by destruct Hi as [_ []]].
    destruct Hc. constructor; cbn; try done. destruct ki_rcv0. constructor; cbn; try done.
    pose proof (zlen_nonneg (recvBuf (c_rcv c))). unfold zlen in *. rewrite length_drop. lia.
  - destruct Hok as [Hst Ht]. destruct (write_ok c p total Hi Hst Ht) as (res & c' & acts & -> & Hs).
    outcome_simpl. by eexists _, _.
  - eexists _, _. split; [apply f_equal, surjective_pairing|]. by apply closeWrite_ok.
  - unfold Close. case_bool_decide as Hs.
    + eexists _, _. split; [done|]. apply (conn_close_ok c (Some errTCPWriteAfterClose) Hc ltac:(done)). eauto.
    + eexists _, _. split; [apply f_equal, surjective_pairing|]. by apply closeWrite_ok.
  - unfold abort. case_bool_decide.
    + eexists _, _. split; [done|]. by apply same_ok.
    + eexists _, _. split; [done|]. apply (conn_close_ok c (Some ErrTCPConnReset) Hc ltac:(done)). eauto.
  - eexists _, _. split; [done|]. apply quiet_ok; [|done|done]. by destruct Hi as [[] []].
  - eexists _, _. split; [done|]. apply quiet_ok; [|done|done]. by destruct Hi as [[] []].
Qed.

(** ** Reachable connections *)

Inductive reachable (ourMSS : Z) : tcpConn -> Prop :=
  | reach_new (l a : nat) (key : fourTuple) (isn cisn cwnd m : Z) :
      is_u32 isn -> is_u16 cwnd -> is_u16 m -> reachable ourMSS (newTCPConn l a key isn cisn cwnd m)
  | reach_step (c c' : tcpConn) (op : conn_op) (acts : list conn_action) :
      reachable ourMSS c -> op_ok c op -> exec ourMSS c op = Ok (c', acts) -> reachable ourMSS c'.

Lemma conn_reachable_inv (ourMSS : Z) (c : tcpConn) : reachable ourMSS c -> conn_inv c.
Proof.
  induction 1 as [l a key isn cisn cwnd m Hi Hw Hm|c c' op acts _ IH Hok HE]; [by apply newTCPConn_inv|].
  destruct (exec_ok ourMSS c op IH Hok) as (c1 & acts1 & HE1 & Hs). rewrite HE in HE1. injection HE1 as <- <-.
  by destruct Hs.
Qed.

(** C12. Every TCP connection keeps its invariant under any sequence of segments
    (well-formed or hostile), timer events and calls: buffers and advertised window
    within 65535 bytes, at most 16 reordered segments, the retransmission timeout
    between 0.3 and 8 seconds, at most 6 retransmissions while it is open; and, unless
    the peer announced an MSS of zero, everything the peer's window admits sent.  While
    the connection is open its timer runs in the handshake, in TIME_WAIT, as long as
    sent data is unacknowledged, and, under an MSS that is not zero, as long as data
    waits to be sent.  Nothing is said of a FIN that is sent and not acknowledged: its
    timer may have been stopped ([TcpTraces.lost_fin_never_resent]).  Every operation
    returns: no slice is out of range, no loop is without end. *)
Theorem tcp_invariant (ourMSS : Z) (c : tcpConn) :
  reachable ourMSS c ->
  conn_inv c /\ forall op, op_ok c op -> exists c' acts, exec ourMSS c op = Ok (c', acts) /\ reachable ourMSS c'.
Proof.
  intros Hr. pose proof (conn_reachable_inv _ _ Hr) as Hi. split; [done|]. intros op Hok.
  destruct (exec_ok ourMSS c op Hi Hok) as (c' & acts & HE & _). exists c', acts. split; [done|].
  by eapply reach_step.
Qed.

(** C31. The states move only along RFC 9293's diagram for a passive open; CLOSED is
    never left, and it is entered exactly when the timer goroutine is told to
    stop. *)
Theorem tcp_transitions (ourMSS : Z) (c c' : tcpConn) (op : conn_op) (acts : list conn_action) :
  reachable ourMSS c -> op_ok c op -> exec ourMSS c op = Ok (c', acts) ->
  edge (c_state c) (c_state c') = true /\ (c_state c = stateClosed -> c_state c' = stateClosed) /\
  (stopTimersClosed (c_tmr c') = true <-> c_state c' = stateClosed).
Proof.
  intros Hr%conn_reachable_inv Hok HE. destruct (exec_ok ourMSS c op Hr Hok) as (c1 & acts1 & HE1 & [[Hc _] He _ _]).
  rewrite HE in HE1. injection HE1 as <- <-. split_and!; [done| |].
  - intros Hst. rewrite Hst in He. by destruct (c_state c').
  - rewrite (ki_stop c' Hc). apply bool_decide_eq_true.
Qed.

(** ** Silence from the peer *)

(** The timer expires [n] times and nothing else happens; the time that takes. *)
Fixpoint silence (ourMSS : Z) (n : nat) (c : tcpConn) : outcome tcp_error (tcpConn * list conn_action * Z) :=
  match n, rtoTimer (c_tmr c) with
  | S n, Some d =>
      '(c, acts, _) ← timerLoop c ourMSS TimerC;
      '(c, acts', t) ← silence ourMSS n c;
      Ok (c, acts ++ acts', d + t)
  | _, _ => Ok (c, [], 0)
  end.

Lemma silence_stopped (ourMSS : Z) (n : nat) (c : tcpConn) :
  rtoTimer (c_tmr c) = None -> silence ourMSS n c = Ok (c, [], 0).
Proof. intros E. destruct n; cbn [silence]; [done|by rewrite E]. Qed.

Lemma silence_step (ourMSS : Z) (n : nat) (c c1 : tcpConn) (acts : list conn_action) (d : Z) :
  rtoTimer (c_tmr c) = Some d -> timerLoop c ourMSS TimerC = Ok (c1, acts, true) ->
  silence ourMSS (S n) c = ('(c', acts', t) ← silence ourMSS n c1; Ok (c', acts ++ acts', d + t)).
Proof. intros E HE. cbn [silence]. by rewrite E, HE. Qed.

(** Waiting for the peer to acknowledge something. *)
Definition unacked (c : tcpConn) : Prop :=
  c_state c = stateSynRcvd \/ 0 < sentBytes (c_snd c) \/
  (finSent (c_snd c) = true /\ finAcked (c_snd c) = false).

Definition reset_done (c : tcpConn) : Prop :=
  c_state c = stateClosed /\ c_err c = Some ErrTCPConnReset /\ rtoTimer (c_tmr c) = None.

Lemma fire_spec (ourMSS : Z) (c : tcpConn) :
  conn_inv c -> exists c' acts, timerLoop c ourMSS TimerC = Ok (c', acts, true) /\ conn_inv c'.
Proof.
  intros Hi. destruct (exec_ok ourMSS c (TimerEvent TimerC) Hi I) as (c' & acts & HE & [Hi' _ _ _]).
  exists c', acts. cbn [exec timerLoop] in *. destruct (onRTOFired _ _) as [[c1 acts1]| |]; outcome_simpl; [|done..].
  by injection HE as -> ->.
Qed.

(** One expiry while something is unacknowledged. *)
Lemma fire_unacked (ourMSS : Z) (c c' : tcpConn) (acts : list conn_action) :
  conn_inv c -> c_state c <> stateClosed -> c_state c <> stateTimeWait -> unacked c ->
  timerLoop c ourMSS TimerC = Ok (c', acts, true) ->
  reset_done c' \/
  (c_state c' = c_state c /\ c_snd c' = c_snd c /\
   retransmitCount (c_tmr c') = retransmitCount (c_tmr c) + 1 /\ retransmitCount (c_tmr c') <= maxRetransmits).
Proof.
  intros [Hc _] Hcl Htw Hu. cbn [timerLoop]. set (c0 := set_tmr (fired (c_tmr c)) c).
  assert (HR : forall seg, ('(c1, acts1) ← retransmit c0 seg; Ok (c1, acts1, true)) = Ok (c', acts, true) ->
    reset_done c' \/ (c_state c' = c_state c /\ c_snd c' = c_snd c /\
      retransmitCount (c_tmr c') = retransmitCount (c_tmr c) + 1 /\ retransmitCount (c_tmr c') <= maxRetransmits)).
  { intros seg. unfold retransmit. cbn [c0 c_tmr set_tmr fired retransmitCount set_retransmits].
    destruct (Z.ltb_spec maxRetransmits (retransmitCount (c_tmr c) + 1)); outcome_simpl.
    - intros E. injection E as <- <-. left. done.
    - destruct seg; outcome_simpl; [|done..]. intros E. injection E as <- <-. right. done. }
  unfold onRTOFired. cbn [c0 c_state set_tmr c_tmr fired inTimeWait]. rewrite bool_decide_eq_false_2 by done.
  rewrite (ki_tw c Hc Hcl), bool_decide_eq_false_2 by done.
  case_bool_decide as Hs; [apply HR|]. change (c_snd c0) with (c_snd c).
  destruct (0 <? sentBytes (c_snd c)) eqn:Ep; [apply HR|]. apply Z.ltb_ge in Ep.
  destruct Hu as [?|[?|[-> ->]]]; [done|lia|]. apply HR.
Qed.

Lemma silence_unacked (ourMSS : Z) (n : nat) (c : tcpConn) :
  conn_inv c -> c_state c <> stateClosed -> c_state c <> stateTimeWait -> unacked c -> outstanding c ->
  maxRetransmits + 1 - retransmitCount (c_tmr c) <= Z.of_nat n ->
  exists c' acts t, silence ourMSS n c = Ok (c', acts, t) /\ reset_done c' /\ t <= Z.of_nat n * maxRTO.
Proof.
  revert c. induction n as [|n IH]; intros c Hi Hcl Htw Hu Ho Hn.
  { pose proof (ti_count _ _ (ki_tmr c (proj1 Hi))) as Hk. rewrite isClosed_false in Hk by done.
    unfold maxRetransmits in *. lia. }
  destruct (ti_live c (proj2 Hi) Hcl Ho) as [d Hd].
  pose proof (ti_timer _ _ (ki_tmr c (proj1 Hi)) d Hd) as Hdr.
  destruct (fire_spec ourMSS c Hi) as (c1 & acts & HE & Hi1). rewrite (silence_step _ _ _ _ _ _ Hd HE).
  destruct (fire_unacked ourMSS c c1 acts Hi Hcl Htw Hu HE) as [Hr|(Hs & Hsn & Hk & Hle)].
  - pose proof Hr as (_ & _ & Hnone). rewrite silence_stopped by done. outcome_simpl.
    eexists _, _, _. split_and!; [done|done|]. unfold maxRTO in *. lia.
  - destruct (IH c1) as (c' & acts' & t & -> & Hr & Ht);
      [done|congruence|congruence|unfold unacked in *; by rewrite Hs, Hsn|unfold outstanding in *; by rewrite Hs, Hsn|lia|].
    outcome_simpl. eexists _, _, _. split_and!; [done|done|]. unfold maxRTO in *. lia.
Qed.

#[export] Instance unacked_dec (c : tcpConn) : Decision (unacked c).
Proof. unfold unacked. apply _. Defined.

(** The first expiry with a closed window: one byte is sent as a probe. *)
Lemma fire_persist (ourMSS : Z) (c : tcpConn) :
  conn_inv c -> c_state c <> stateClosed -> c_state c <> stateTimeWait -> ~ unacked c -> outstanding c ->
  exists c' acts, timerLoop c ourMSS TimerC = Ok (c', acts, true) /\
    (reset_done c' \/ (conn_inv c' /\ c_state c' = c_state c /\ 0 < sentBytes (c_snd c') /\
                       0 <= retransmitCount (c_tmr c'))).
Proof.
  intros Hi Hcl Htw Hu Ho. pose proof Hi as [Hc _]. pose proof (ki_snd c Hc) as Hs.
  pose proof Hs as [_ [Hw Hm] Hsent Hcap _]. unfold is_u16, maxInFlightBytes in *.
  assert (Hns : c_state c <> stateSynRcvd) by (intros ?; apply Hu; by left).
  assert (Hz : sentBytes (c_snd c) = 0) by (destruct (Z.eq_dec (sentBytes (c_snd c)) 0); [done|]; exfalso; apply Hu; right; left; lia).
  destruct Ho as [?|[?|[?|[Hm0 Hb]]]]; [done|done|lia|].
  assert (Hw0 : sndWnd (c_snd c) = 0) by (pose proof (ki_flushed c Hc Hm0); lia).
  destruct (fire_spec ourMSS c Hi) as (c' & acts & HE & Hi'). exists c', acts. split; [done|].
  revert HE. cbn [timerLoop]. unfold onRTOFired. cbn [c_state set_tmr c_tmr fired inTimeWait c_snd persistProbeCount].
  rewrite bool_decide_eq_false_2 by done. rewrite (ki_tw c Hc Hcl), bool_decide_eq_false_2 by done.
  rewrite bool_decide_eq_false_2 by done. rewrite Hz. cbn [Z.ltb Z.compare].
  destruct (finSent (c_snd c) && negb (finAcked (c_snd c))) eqn:Ef.
  { exfalso. apply Hu. right. right. by destruct (finSent (c_snd c)), (finAcked (c_snd c)). }
  rewrite (u32_id (zlen _)) by (unfold is_u32; lia). rewrite Hw0, (proj2 (Z.ltb_lt 0 _)) by lia. cbn [Z.eqb andb].
  destruct (maxPersistProbes <? persistProbeCount (c_tmr c) + 1); outcome_simpl.
  { intros E. injection E as <- <-. by left. }
  set (t := set_persist _ _).
  destruct (sendPending_spec (set_tmr t (set_tmr (fired (c_tmr c)) c)) [] true Hs) as (segs & -> & _). outcome_simpl.
  intros E. injection E as <- <-. right. split_and!; [done|done| |apply (ti_count _ _ (ki_tmr c Hc))].
  cbn. unfold pending_target, send_target. rewrite Hw0, Hz. cbn [Z.eqb andb].
  rewrite (proj2 (Z.eqb_neq (sndMSS (c_snd c)) 0)) by lia. lia.
Qed.

(** C32. A peer that falls silent cannot hold a connection: while a handshake, data
    in flight, data waiting for the window or TIME_WAIT is outstanding, the timer
    runs, and if it expires eight times with nothing heard, within 64 seconds, the
    connection is closed and its timer stopped. *)
Theorem silent_peer_is_dropped (ourMSS : Z) (c : tcpConn) :
  reachable ourMSS c -> c_state c <> stateClosed -> outstanding c ->
  exists c' acts t, silence ourMSS 8 c = Ok (c', acts, t) /\ c_state c' = stateClosed /\
    rtoTimer (c_tmr c') = None /\ (c_state c <> stateTimeWait -> c_err c' = Some ErrTCPConnReset) /\
    t <= 8 * maxRTO.
Proof.
  intros Hi%conn_reachable_inv Hcl Ho. pose proof (ti_count _ _ (ki_tmr c (proj1 Hi))) as Hk.
  pose proof (ti_live c (proj2 Hi) Hcl Ho) as [d Hd]. pose proof (ti_timer _ _ (ki_tmr c (proj1 Hi)) d Hd) as Hdr.
  destruct (decide (c_state c = stateTimeWait)) as [Htw|Htw].
  { destruct (fire_spec ourMSS c Hi) as (c1 & acts & HE & _). rewrite (silence_step _ _ _ _ _ _ Hd HE). revert HE.
    cbn [timerLoop]. unfold onRTOFired. cbn [c_state set_tmr c_tmr fired inTimeWait].
    rewrite bool_decide_eq_false_2 by done. rewrite (ki_tw c (proj1 Hi) Hcl), bool_decide_eq_true_2 by done.
    outcome_simpl. intros E. injection E as <- <-. rewrite silence_stopped by done. outcome_simpl.
    eexists _, _, _. split_and!; [done|done|done|done|]. unfold maxRTO in *. lia. }
  assert (Hfin : exists c' acts t, silence ourMSS 8 c = Ok (c', acts, t) /\ reset_done c' /\ t <= 8 * maxRTO).
  2:{ destruct Hfin as (c' & acts & t & HE & (H1 & H2 & H3) & Ht). exists c', acts, t. by split_and!. }
  destruct (decide (unacked c)) as [Hu|Hu].
  { apply silence_unacked; try done. unfold maxRetransmits. lia. }
  destruct (fire_persist ourMSS c Hi Hcl Htw Hu Ho) as (c1 & acts & HE & [Hr|(Hi1 & Hs1 & Hp & Hk1)]).
  all: rewrite (silence_step _ _ _ _ _ _ Hd HE).
  - pose proof Hr as (_ & _ & Hnone). rewrite silence_stopped by done. outcome_simpl.
    eexists _, _, _. split_and!; [done|done|]. unfold maxRTO in *. lia.
  - destruct (silence_unacked ourMSS 7 c1) as (c' & acts' & t & -> & Hr & Ht);
      [done|congruence|congruence|by right; left|by right; right; left|unfold maxRetransmits; lia|].
    outcome_simpl. eexists _, _, _. split_and!; [done|done|]. unfold maxRTO in *. lia.
Qed.

(** ** Waiting calls *)

(** No wakeup is lost: an operation that leaves the notification channel alone
    leaves a waiting Read waiting and a waiting Write waiting; and once an
    established connection is closed, Read does not wait, however the close came
    about and whatever happens afterwards. *)
Theorem no_lost_wakeup (ourMSS : Z) (c c' : tcpConn) (op : conn_op) (acts : list conn_action) :
  reachable ourMSS c -> op_ok c op -> exec ourMSS c op = Ok (c', acts) ->
  (c_notify c' = c_notify c ->
     (forall n, (Read c n).1 = RBlock -> Deadline.passed (readDeadline c') = false -> (Read c' n).1 = RBlock) /\
     (forall p total, 0 <= total <= zlen p -> writePass c p total = Ok (WBlock, c, []) ->
        Deadline.passed (writeDeadline c') = false -> writePass c' p total = Ok (WBlock, c', []))) /\
  (c_state c <> stateSynRcvd -> readable c -> readable c').
Proof.
  intros Hi%conn_reachable_inv Hok HE. destruct (exec_ok ourMSS c op Hi Hok) as (c1 & acts1 & HE1 & [Hi' _ Hw Hr]).
  rewrite HE in HE1. injection HE1 as <- <-. split; [|done]. intros Hn.
  destruct Hw as [?|[Qr Qp Qe Qo]]; [lia|]. split.
  - intros n. unfold Read. intros HR Hd. rewrite Hd.
    destruct (Deadline.passed (readDeadline c)); [done|].
    destruct (Z.ltb_spec 0 (zlen (recvBuf (c_rcv c)))) as [|Hz]; [done|].
    assert (Hnil : recvBuf (c_rcv c) = []) by (apply zlen_0_nil; pose proof (zlen_nonneg (recvBuf (c_rcv c))); lia).
    rewrite (Qr Hnil), Qe, Qp.
    cbn [zlen length Z.of_nat Z.ltb Z.compare]. destruct (c_err c); [done|]. by destruct (peerClosed (c_rcv c)).
  - intros p total Ht. unfold writePass. intros HW Hd. rewrite Hd.
    pose proof (ki_snd c (proj1 Hi)) as [_ _ Hs Hcap _]. pose proof (ki_snd c' (proj1 Hi')) as [_ _ Hs' Hcap' _].
    destruct (negb (total <? zlen p)); [done|]. destruct (Deadline.passed (writeDeadline c)); [done|].
    rewrite Qe. destruct (c_err c); [done|]. revert HW. unfold maxInFlightBytes in *.
    rewrite !(u32_id (zlen (outBuf _))) by (unfold is_u32; lia).
    destruct (Z.ltb_spec (zlen (outBuf (c_snd c))) 65535) as [Hlt|Hge]; cbn [negb].
    + destruct (slice p total _) as [data| |]; outcome_simpl; [|done..].
      destruct (sendPendingLocked _ _ _) as [[c2 ts]| |]; outcome_simpl; done.
    + intros _. by rewrite (proj2 (Z.ltb_ge _ _) (Qo Hge)).
Qed.

End TcpInvariant.
