(* ===== verification/TcpTraces.v ===== *)
(** * TcpTraces: runs of a TCP connection

    Concrete runs of [TcpInvariant.exec], evaluated: the witnesses of the
    connection theorems, and the behaviours in which the code departs from its
    comments or from RFC 9293. *)

From stdpp Require Import gmap.
From S2P Require Import Prelude TcpSegment Deadline TcpConn TcpInvariant.
Import TcpSegment TcpConn TcpInvariant.

Module TcpTraces.

(** A run of operations, with everything it sends. *)
Fixpoint run (ourMSS : Z) (c : tcpConn) (ops : list conn_op) : outcome tcp_error (tcpConn * list conn_action) :=
  match ops with
  | [] => Ok (c, [])
  | op :: ops =>
      '(c, acts) ← exec ourMSS c op;
      '(c, acts') ← run ourMSS c ops;
      Ok (c, acts ++ acts')
  end.

Definition key : fourTuple := mkFourTuple [10; 8; 0; 2] 40000 80.
Definition ours : Z := 1460.

(** A connection offered by a client with sequence number 5000 and window [w]. *)
Definition fresh (w : Z) : tcpConn := newTCPConn 0 0 key 1000 5000 w 1460.

(** A segment of the client. *)
Definition seg (sq ak fl w : Z) (data : bytes) : tcpSegment := mkTcpSegment 40000 80 sq ak fl w false 0 data.
Definition FINACK : Z := Z.lor flagFIN flagACK.

(** The observable part of a run's end. *)
Definition view {A : Type} (f : tcpConn -> A) (o : outcome tcp_error (tcpConn * list conn_action)) : option A :=
  match o with Ok (c, _) => Some (f c) | _ => None end.

(** A complete connection: handshake, a byte each way, the client closes, we
    close. *)
Example whole_connection :
  view (fun c => (c_state c, c_err c, rtoTimer (c_tmr c)))
    (run ours (fresh 65535)
       [Segment (seg 5001 1001 flagACK 65535 []); Segment (seg 5001 1001 flagACK 65535 [7]); ReadOp 10;
        WriteOp [9] 0; Segment (seg 5002 1002 FINACK 65535 []); CloseWriteOp;
        Segment (seg 5003 1003 flagACK 65535 [])])
  = Some (stateClosed, None, None).
Proof. vm_compute. reflexivity. Qed.

(** A FIN sent behind data: when the data is acknowledged and the FIN is lost, the
    timer has been stopped and the FIN is never sent again. *)
Example lost_fin_never_resent :
  view (fun c => (c_state c, (finSent (c_snd c), finAcked (c_snd c)), rtoTimer (c_tmr c)))
    (run ours (fresh 65535)
       [Segment (seg 5001 1001 flagACK 65535 []); WriteOp [9] 0; CloseWriteOp;
        Segment (seg 5001 1002 flagACK 65535 [])])
  = Some (stateFinWait1, (true, false), None).
Proof. vm_compute. reflexivity. Qed.

(** A FIN on the handshake's last segment is consumed but the state stays
    ESTABLISHED; after our close the connection waits in FIN_WAIT_2, with no timer,
    for a FIN that has already been acknowledged; its retransmission changes
    nothing. *)
Example fin_with_handshake_stuck :
  view (fun c => (c_state c, peerClosed (c_rcv c), rtoTimer (c_tmr c)))
    (run ours (fresh 65535)
       [Segment (seg 5001 1001 FINACK 65535 []); CloseWriteOp; Segment (seg 5002 1002 flagACK 65535 []);
        Segment (seg 5001 1002 FINACK 65535 [])])
  = Some (stateFinWait2, true, None).
Proof. vm_compute. reflexivity. Qed.

(** A reordered segment that a longer one overtakes is never given up: everything
    received has been read, yet its bytes still count against the window. *)
Example overtaken_segment_leaks :
  view (fun c => (recvBuf (c_rcv c), size (reorder (c_rcv c)), advertisedWindowLocked (c_rcv c)))
    (run ours (fresh 65535)
       [Segment (seg 5001 1001 flagACK 65535 []); Segment (seg 5003 1001 flagACK 65535 [3; 4]);
        Segment (seg 5001 1001 flagACK 65535 [1; 2; 3; 4]); ReadOp 10])
  = Some ([], 1%nat, 65533).
Proof. vm_compute. reflexivity. Qed.

(** A closed window: after the first probe byte the retransmission limit applies,
    so the connection is reset after six retransmissions although the peer answers
    every probe and 20 probes are allowed. *)
Example zero_window_reset_early :
  view (fun c => (c_state c, c_err c, persistProbeCount (c_tmr c)))
    (run ours (fresh 0)
       ([Segment (seg 5001 1001 flagACK 0 []); WriteOp [1; 2] 0] ++
        concat (replicate 8 [TimerEvent TimerC; Segment (seg 5001 1001 flagACK 0 [])])))
  = Some (stateClosed, Some ErrTCPConnReset, 1).
Proof. vm_compute. reflexivity. Qed.

(** A Write that waits for buffer space while another goroutine closes the write
    side goes on after the FIN: its bytes get the FIN's sequence number. *)
Definition lastSend (acts : list conn_action) : option tcpSegment :=
  match last acts with Some (Send s) => Some s | _ => None end.

Example write_continues_after_fin :
  match run ours (fresh 65535)
          [Segment (seg 5001 1001 flagACK 65535 []); WriteOp (replicate (Z.to_nat 65540) 1) 0; CloseWriteOp;
           Segment (seg 5001 2001 flagACK 65535 []); WriteOp (replicate (Z.to_nat 65540) 1) 65535] with
  | Ok (c, acts) =>
      (c_state c, finSeq (c_snd c), (fun s => (seq s, payload s)) <$> lastSend acts)
  | _ => (stateListen, 0, None)
  end = (stateFinWait1, 66536, Some (66536, [1; 1; 1; 1; 1])).
Proof. vm_compute. reflexivity. Qed.

(** An MSS option of zero: the buffer fills and nothing is ever sent. *)
Example zero_mss_sends_nothing :
  match run ours (newTCPConn 0 0 key 1000 5000 65535 0)
          [Segment (seg 5001 1001 flagACK 65535 []); WriteOp [1; 2; 3] 0] with
  | Ok (c, acts) => (sentBytes (c_snd c), outBuf (c_snd c), rtoTimer (c_tmr c))
  | _ => (1, [], None)
  end = (0, [1; 2; 3], None).
Proof. vm_compute. reflexivity. Qed.

(** ** The connection theorems at work *)

Lemma fresh_reachable (w : Z) : is_u16 w -> reachable ours (fresh w).
Proof. intros Hw. apply reach_new; [decide_now|done|decide_now]. Qed.

Definition handshake : tcpSegment := seg 5001 1001 flagACK 65535 [].

Lemma handshake_ok : seg_ok handshake.
Proof. split; [constructor; decide_now|vm_compute; discriminate]. Qed.

Lemma tcp_invariant_witness :
  conn_inv (fresh 65535) /\
  exists c' acts, exec ours (fresh 65535) (Segment handshake) = Ok (c', acts) /\ reachable ours c'.
Proof.
  destruct (tcp_invariant ours (fresh 65535) (fresh_reachable 65535 ltac:(decide_now))) as [H1 H2].
  split; [exact H1|]. apply (H2 (Segment handshake)). exact handshake_ok.
Defined.

Lemma tcp_transitions_witness :
  exists c' acts, exec ours (fresh 65535) (Segment handshake) = Ok (c', acts) /\
    edge stateSynRcvd (c_state c') = true /\ c_state c' = stateEstablished.
Proof.
  destruct (exec ours (fresh 65535) (Segment handshake)) as [[c' acts]| |] eqn:E; [|vm_compute in E; discriminate E..].
  exists c', acts. split; [reflexivity|]. split.
  - exact (proj1 (tcp_transitions ours (fresh 65535) c' (Segment handshake) acts
      (fresh_reachable 65535 ltac:(decide_now)) handshake_ok E)).
  - vm_compute in E. apply (inj Ok) in E. by injection E as <- <-.
Defined.

Lemma silent_peer_is_dropped_witness :
  exists c' acts t, silence ours 8 (fresh 65535) = Ok (c', acts, t) /\ c_state c' = stateClosed /\ t <= 8 * maxRTO.
Proof.
  destruct (silent_peer_is_dropped ours (fresh 65535)) as (c' & acts & t & H1 & H2 & _ & _ & H3).
  - apply fresh_reachable. decide_now.
  - discriminate.
  - left. reflexivity.
  - exists c', acts, t. exact (conj H1 (conj H2 H3)).
Defined.

(** The connection after an operation. *)
Definition after (c : tcpConn) (op : conn_op) : tcpConn :=
  match exec ours c op with Ok (c', _) => c' | _ => c end.

Lemma after_exec (c : tcpConn) (op : conn_op) :
  is_ok (exec ours c op) = true -> exists acts, exec ours c op = Ok (after c op, acts).
Proof. unfold after. destruct (exec ours c op) as [[c' acts]| |]; [|done..]. intros _. by exists acts. Qed.

Lemma after_reachable (c : tcpConn) (op : conn_op) :
  reachable ours c -> op_ok c op -> is_ok (exec ours c op) = true -> reachable ours (after c op).
Proof. intros Hr Hok [acts HE]%after_exec. by eapply reach_step. Qed.

(** An established connection with a waiting reader: a write does not wake it. *)
Definition established : tcpConn := after (fresh 65535) (Segment handshake).

Lemma established_reachable : reachable ours established.
Proof.
  apply after_reachable; [apply fresh_reachable; decide_now|exact handshake_ok|vm_compute; reflexivity].
Qed.

Lemma no_lost_wakeup_witness :
  exists c' acts, exec ours established (WriteOp [1] 0) = Ok (c', acts) /\
    (Read established 5).1 = RBlock /\ (Read c' 5).1 = RBlock.
Proof.
  destruct (exec ours established (WriteOp [1] 0)) as [[c' acts]| |] eqn:E; [|vm_compute in E; discriminate E..].
  exists c', acts. split; [reflexivity|]. split; [vm_compute; reflexivity|].
  destruct (no_lost_wakeup ours established c' (WriteOp [1] 0) acts established_reachable) as [H _].
  - split; [vm_compute; discriminate|vm_compute; split; discriminate].
  - exact E.
  - vm_compute in E. apply (inj Ok) in E. injection E as <- <-.
    apply (H eq_refl); vm_compute; reflexivity.
Defined.

End TcpTraces.
