(* ===== verification/TcpStream.v ===== *)
(** * TcpStream: what a TCP connection delivers

    The bytes Read returns are a prefix of the bytes the peer sent, whatever the
    network loses, repeats or reorders; the segments the connection sends carry
    the bytes the application wrote, at their positions. *)

From stdpp Require Import gmap.
From S2P Require Import Prelude TcpSegment Deadline TcpConn TcpInvariant TcpTraces.
Import TcpSegment TcpConn TcpInvariant.

Module TcpStream.

(** ** Receiving *)

(** The bytes of [stream] from offset [o] on, [n] of them. *)
Definition window_of (stream : bytes) (o n : Z) : bytes := take (Z.to_nat n) (drop (Z.to_nat o) stream).

(** The sequence number of the byte at offset [o] for a sender whose initial
    sequence number is [isn]. *)
Definition seqOf (isn o : Z) : Z := isn +u32 (1 + o).

(** A piece of [stream]. *)
Definition piece (isn : Z) (stream : bytes) (q : Z) (data : bytes) : Prop :=
  exists o, 0 <= o /\ o + zlen data <= zlen stream /\ q = seqOf isn o /\ data = window_of stream o (zlen data).

(** What a peer that sends [stream] and then its FIN may put on the wire: pieces
    of the stream, cut and repeated as it likes; the FIN at the stream's end. *)
Definition honest (isn : Z) (stream : bytes) (seg : tcpSegment) : Prop :=
  consumes seg = true ->
  exists o, 0 <= o /\ o + zlen (payload seg) <= zlen stream /\ seq seg = seqOf isn o /\
    payload seg = window_of stream o (zlen (payload seg)) /\
    (has_flag (flags seg) flagFIN = true -> o + zlen (payload seg) = zlen stream).

(** The bytes an operation hands to the application. *)
Definition bytes_read (c : tcpConn) (op : conn_op) : bytes :=
  match op with
  | ReadOp n => match (Read c n).1 with RData d => d | _ => [] end
  | _ => []
  end.

(** Runs of a connection against such a peer, with all bytes read so far. *)
Inductive receives (ourMSS isn : Z) (stream : bytes) : tcpConn -> bytes -> Prop :=
  | rv_new (l a : nat) (key : fourTuple) (sisn cwnd m : Z) :
      is_u32 sisn -> is_u16 cwnd -> is_u16 m ->
      receives ourMSS isn stream (newTCPConn l a key sisn isn cwnd m) []
  | rv_op (c c' : tcpConn) (op : conn_op) (acts : list conn_action) (rd : bytes) :
      receives ourMSS isn stream c rd -> op_ok c op ->
      (forall seg, op = Segment seg -> honest isn stream seg) ->
      exec ourMSS c op = Ok (c', acts) -> receives ourMSS isn stream c' (rd ++ bytes_read c op).

(** The receive side in step with the peer's stream: [rd] and the buffer are its
    first [k] bytes. *)
Record in_step (isn : Z) (stream : bytes) (r : recvSide) (rd : bytes) (k : Z) : Prop := {
  is_range : 0 <= k <= zlen stream;
  is_bytes : rd ++ recvBuf r = take (Z.to_nat k) stream;
  is_nxt : rcvNxt r = seqOf isn (if peerClosed r then k + 1 else k);
  is_closed : peerClosed r = true -> k = zlen stream;
  is_stash : map_Forall (fun q d => piece isn stream q d) (reorder r);
  is_fin : hasPendingFIN r = true -> pendingFINSeq r = seqOf isn (zlen stream);
}.

Section Receive.
Context (isn : Z) (stream : bytes).
Context (Hshort : zlen stream < 2147483647).

Lemma seqOf_inj (a b : Z) : 0 <= a <= zlen stream + 1 -> 0 <= b <= zlen stream + 1 ->
  seqOf isn a = seqOf isn b -> a = b.
Proof. unfold seqOf. intros. word_lia. Qed.

Lemma seqOf_add (o n : Z) : seqOf isn o +u32 n = seqOf isn (o + n).
Proof. unfold seqOf. word_lia. Qed.

Lemma seqOf_gt (a b : Z) : 0 <= a <= zlen stream + 1 -> 0 <= b <= zlen stream + 1 ->
  seqGT (seqOf isn a) (seqOf isn b) = true -> b < a.
Proof. intros Ha Hb H%seqGT_spec. unfold seqOf in H. word_lia. Qed.

Lemma take_window (k n : Z) : 0 <= k -> 0 <= n ->
  take (Z.to_nat k) stream ++ window_of stream k n = take (Z.to_nat (k + n)) stream.
Proof. intros. unfold window_of. rewrite Z2Nat.inj_add by lia. by rewrite take_take_drop. Qed.

Lemma window_take (o n m : Z) : 0 <= m <= n ->
  take (Z.to_nat m) (window_of stream o n) = window_of stream o m.
Proof. intros. unfold window_of. rewrite take_take. f_equal. lia. Qed.

(** Appending the next [n] bytes of the stream. *)
Lemma in_step_advance (r : recvSide) (rd data : bytes) (k : Z) :
  in_step isn stream r rd k -> peerClosed r = false -> k + zlen data <= zlen stream ->
  data = window_of stream k (zlen data) -> in_step isn stream (advance r data) rd (k + zlen data).
Proof.
  intros [Hk Hb Hn Hc Hst Hf] Hp Hle Hd. pose proof (zlen_nonneg data). constructor; cbn; try done.
  - lia.
  - rewrite app_assoc, Hb. rewrite Hd at 1. apply take_window; lia.
  - rewrite Hn, Hp. apply seqOf_add.
  - by rewrite Hp.
Qed.

Lemma in_step_unstash (r : recvSide) (rd : bytes) (k : Z) :
  in_step isn stream r rd k -> in_step isn stream (unstash r) rd k.
Proof. intros []. constructor; cbn; try done. by apply map_Forall_delete. Qed.

Lemma drains_in_step (r r' : recvSide) (rd : bytes) (k : Z) :
  drains r r' -> in_step isn stream r rd k -> peerClosed r = false ->
  exists k', in_step isn stream r' rd k' /\ peerClosed r' = false.
Proof.
  intros HD. revert k. induction HD as [r _|r r' data Hd Hl _ IH]; intros k Hs Hp; [by exists k|].
  pose proof Hs as [Hk Hb Hn Hc Hst Hf]. destruct (Hst _ _ Hd) as (o & Ho & Hle & Hq & Hw). cbn in Hq.
  pose proof (zlen_nonneg data). rewrite Hp in Hn.
  assert (o = k) as -> by (apply seqOf_inj; [lia|lia|by rewrite <- Hq, <- Hn]).
  apply (IH (k + zlen data)); [|done]. apply in_step_advance; try done. by apply in_step_unstash.
Qed.

(** A segment of an honest peer keeps the receive side in step. *)
Lemma data_step_in_step (r r' : recvSide) (seg : tcpSegment) (fin : bool) (rd : bytes) (k : Z) :
  data_step r seg r' fin -> honest isn stream seg -> in_step isn stream r rd k ->
  exists k', in_step isn stream r' rd k'.
Proof.
  intros HD Hh Hs. pose proof Hs as [Hk Hb Hn Hc Hst Hf].
  assert (Hat : forall o, 0 <= o <= zlen stream -> seqOf isn o = rcvNxt r -> o = k /\ peerClosed r = false).
  { intros o Ho He. rewrite Hn in He. destruct (peerClosed r) eqn:Ep.
    - specialize (Hc eq_refl). apply seqOf_inj in He; [exfalso; lia|lia|lia].
    - apply seqOf_inj in He; [done|lia|lia]. }
  destruct HD as [|n Hseq Hn0 Hl|r1 r2 f Hcon Hseq Hl HD HF|Hcon Hgt Hno Hsz Hl]; [by exists k| | |].
  - destruct Hh as (o & Ho & Hle & Hq & Hw & _).
    { unfold consumes. rewrite (proj2 (Z.ltb_lt 0 _)) by lia. done. }
    destruct (Hat o) as [-> Hp]; [lia|congruence|].
    exists (k + zlen (take (Z.to_nat n) (payload seg))).
    apply in_step_advance; [done|done|..]; rewrite zlen_take, Z.min_l by lia; [lia|].
    rewrite Hw at 1. apply window_take. lia.
  - destruct (Hh Hcon) as (o & Ho & Hle & Hq & Hw & Hfin). pose proof (zlen_nonneg (payload seg)).
    destruct (Hat o) as [-> Hp]; [lia|congruence|].
    destruct (drains_in_step _ _ rd _ HD (in_step_advance r rd (payload seg) k Hs Hp Hle Hw) Hp) as (k1 & Hs1 & Hp1).
    pose proof Hs1 as [Hk1 Hb1 Hn1 Hc1 Hst1 Hf1]. rewrite Hp1 in Hn1. revert HF. unfold consumeFIN.
    destruct (has_flag (flags seg) flagFIN && _) eqn:E1; [|destruct (hasPendingFIN r1 && _) eqn:E2]; intros [= <- <-].
    + apply andb_true_iff in E1 as [E1 E1'%Z.eqb_eq]. exists k1.
      assert (Hk1' : k1 = zlen stream).
      { apply seqOf_inj; [lia|lia|]. rewrite <- Hn1, <- E1', Hq, <- (Hfin E1), (u32_id (zlen _)) by (unfold is_u32; lia).
        apply seqOf_add. }
      constructor; cbn; try done. rewrite Hn1. apply seqOf_add.
    + apply andb_true_iff in E2 as [E2 E2'%Z.eqb_eq]. exists k1.
      assert (Hk1' : k1 = zlen stream) by (apply seqOf_inj; [lia|lia|]; by rewrite <- Hn1, E2', (Hf1 E2)).
      constructor; cbn; try done. rewrite Hn1. apply seqOf_add.
    + by exists k1.
  - destruct (Hh Hcon) as (o & Ho & Hle & Hq & Hw & Hfin). exists k. constructor; cbn; try done.
    + apply map_Forall_insert_2; [|done]. by exists o.
    + destruct (has_flag (flags seg) flagFIN) eqn:Ef; [|done]. intros _. by rewrite Hq, <- (Hfin eq_refl), seqOf_add.
Qed.
End Receive.

(** ** The receive side under every operation *)

Lemma handleData_rcv (c : tcpConn) (seg : tcpSegment) (toSend : list tcpSegment) :
  rcv_inv (c_rcv c) -> seg_ok seg ->
  exists c' segs fin acts, handleEstablishedDataLocked c seg toSend = Ok (c', segs, fin, acts) /\
    data_step (c_rcv c) seg (c_rcv c') fin.
Proof.
  intros Hr Hseg. destruct (handleData_spec c seg toSend Hr Hseg) as (r & fin & acts & n & _ & HE & HD & _).
  by eexists _, _, fin, acts.
Qed.

Lemma handleSegment_rcv (c c' : tcpConn) (seg : tcpSegment) (acts : list conn_action) :
  conn_inv c -> seg_ok seg -> handleSegment c seg = Ok (c', acts) ->
  exists fin, data_step (c_rcv c) seg (c_rcv c') fin.
Proof.
  intros Hi Hseg. pose proof Hi as [Hc _]. unfold handleSegment.
  assert (Hig : forall c0, c_rcv c0 = c_rcv c -> exists fin, data_step (c_rcv c) seg (c_rcv c0) fin)
    by (intros c0 ->; exists false; constructor).
  destruct (has_flag (flags seg) flagRST).
  { destruct (negb _); intros E; apply (inj Ok) in E; injection E as <- <-; by apply Hig. }
  pose proof (handleAck_ok c seg [] Hi Hseg) as HA.
  destruct (c_state c) eqn:Est.
  all: try (intros E; apply (inj Ok) in E; injection E as <- <-; by apply Hig).
  - destruct (negb _ || negb _); [intros E; apply (inj Ok) in E; injection E as <- <-; by apply Hig|].
    match goal with |- context [handleEstablishedDataLocked ?x _ _] => set (c1 := x) end.
    destruct (handleData_rcv c1 seg [] (ki_rcv c Hc) Hseg) as (c2 & segs & fin & acts2 & -> & HD).
    outcome_simpl. intros E. injection E as <- <-. by exists fin.
  - destruct HA as (s & t & n & segs & -> & Hi1 & _ & _); [done..|]. outcome_simpl.
    destruct (handleData_rcv (upd s t n c) seg ([] ++ segs) (ki_rcv _ (proj1 Hi1)) Hseg)
      as (c2 & segs2 & fin & acts2 & -> & HD).
    outcome_simpl. intros E. injection E as <- <-. exists fin. by destruct fin.
  - destruct HA as (s & t & n & segs & -> & Hi1 & _ & _); [done..|]. outcome_simpl.
    destruct (handleData_rcv (upd s t n c) seg ([] ++ segs) (ki_rcv _ (proj1 Hi1)) Hseg)
      as (c2 & segs2 & fin & acts2 & -> & HD).
    outcome_simpl. intros E. injection E as <- <-. exists fin. by destruct fin, (finAcked (c_snd c2)).
  - destruct HA as (s & t & n & segs & -> & Hi1 & _ & _); [done..|]. outcome_simpl.
    destruct (handleData_rcv (upd s t n c) seg ([] ++ segs) (ki_rcv _ (proj1 Hi1)) Hseg)
      as (c2 & segs2 & fin & acts2 & -> & HD).
    outcome_simpl. intros E. injection E as <- <-. exists fin. by destruct fin.
  - destruct HA as (s & t & n & segs & -> & Hi1 & _ & _); [done..|]. outcome_simpl.
    intros E. injection E as <- <-. apply Hig. by destruct (finAcked _).
  - destruct HA as (s & t & n & segs & -> & Hi1 & _ & _); [done..|]. outcome_simpl.
    intros E. injection E as <- <-. by apply Hig.
  - destruct HA as (s & t & n & segs & -> & Hi1 & _ & _); [done..|]. outcome_simpl.
    destruct (finAcked _); intros E; injection E as <- <-; by apply Hig.
Qed.

Lemma onRTOFired_rcv (c c' : tcpConn) (ourMSS : Z) (acts : list conn_action) :
  core_inv c -> onRTOFired c ourMSS = Ok (c', acts) -> c_rcv c' = c_rcv c.
Proof.
  intros Hc. unfold onRTOFired.
  assert (HR : forall seg, retransmit c seg = Ok (c', acts) -> c_rcv c' = c_rcv c).
  { intros seg. unfold retransmit. case_match; [by intros [= <- <-]|].
    destruct seg; outcome_simpl; [|done..]. by intros [= <- <-]. }
  case_bool_decide; [by intros [= <- <-]|]. destruct (inTimeWait (c_tmr c)); [by intros [= <- <-]|].
  case_bool_decide; [apply HR|]. destruct (0 <? sentBytes (c_snd c)); [apply HR|].
  destruct (finSent (c_snd c) && negb (finAcked (c_snd c))); [apply HR|].
  destruct ((sndWnd (c_snd c) =? 0) && _); [|by intros [= <- <-]].
  case_match; [by intros [= <- <-]|].
  match goal with |- context [sendPendingLocked ?x _ _] => set (c1 := x) end.
  destruct (sendPending_spec c1 [] true (ki_snd c Hc)) as (segs & -> & _). outcome_simpl. by intros [= <- <-].
Qed.

Lemma CloseWrite_rcv (c : tcpConn) : c_rcv (CloseWrite c).1 = c_rcv c.
Proof.
  unfold CloseWrite. destruct (closeWriteOnce c); [done|]. cbn [c_state set_closeWriteOnce]. by destruct (c_state c).
Qed.

(** What each operation does to the receive side. *)
Lemma exec_rcv (ourMSS : Z) (c c' : tcpConn) (op : conn_op) (acts : list conn_action) :
  conn_inv c -> op_ok c op -> exec ourMSS c op = Ok (c', acts) ->
  match op with
  | Segment seg => exists fin, data_step (c_rcv c) seg (c_rcv c') fin
  | ReadOp n => c_rcv c' = c_rcv (Read c n).2
  | _ => c_rcv c' = c_rcv c
  end.
Proof.
  intros Hi Hok. pose proof Hi as [Hc _].
  destruct op as [seg|ev|n|p total| | | |rd wd|half live ip]; cbn [exec].
  - by apply handleSegment_rcv.
  - destruct ev; cbn [timerLoop].
    + destruct (onRTOFired _ ourMSS) as [[c1 acts1]| |] eqn:E; outcome_simpl; [|done..].
      intros [= <- <-]. apply onRTOFired_rcv in E; [done|].
      apply set_tmr_inv; [done| |done|done]. destruct (ki_tmr c Hc). by constructor.
    + unfold onAttachmentDetached. case_bool_decide; outcome_simpl; by intros [= <- <-].
    + by intros [= <- <-].
  - by intros [= <- <-].
  - destruct Hok as [_ Ht]. destruct (writePass_spec c p total (ki_snd c Hc) Ht)
      as [(res & -> & _)|(k & segs & _ & _ & _ & _ & -> & _)]; outcome_simpl; by intros [= <- <-].
  - intros E. injection E as E. rewrite <- (CloseWrite_rcv c). by rewrite E.
  - unfold Close. case_bool_decide; [by intros [= <- <-]|].
    intros E. injection E as E. rewrite <- (CloseWrite_rcv c). by rewrite E.
  - unfold abort. case_bool_decide; by intros [= <- <-].
  - by intros [= <- <-].
  - by intros [= <- <-].
Qed.

Lemma receives_reachable (ourMSS isn : Z) (stream : bytes) (c : tcpConn) (rd : bytes) :
  receives ourMSS isn stream c rd -> reachable ourMSS c.
Proof. induction 1; [by apply reach_new|by eapply reach_step]. Qed.

Lemma receives_in_step (ourMSS isn : Z) (stream : bytes) (c : tcpConn) (rd : bytes) :
  zlen stream < 2147483647 -> receives ourMSS isn stream c rd -> exists k, in_step isn stream (c_rcv c) rd k.
Proof.
  intros Hlen. induction 1 as [l a key sisn cwnd m Hs Hw Hm|c c' op acts rd Hr IH Hok Hh HE].
  - exists 0. pose proof (zlen_nonneg stream). by constructor.
  - destruct IH as [k Hk]. pose proof (conn_reachable_inv _ _ (receives_reachable _ _ _ _ _ Hr)) as Hi.
    pose proof (exec_rcv ourMSS c c' op acts Hi Hok HE) as Hrcv.
    destruct op as [seg|ev|n|p total| | | |rdl wdl|half live ip]; cbn [bytes_read]; rewrite ?app_nil_r;
      try (rewrite Hrcv; by exists k).
    + destruct Hrcv as [fin HD]. by eapply data_step_in_step; [done|exact HD|by apply Hh|exact Hk].
    + rewrite Hrcv. exists k. unfold Read. destruct (Deadline.passed _); [by rewrite app_nil_r|].
      destruct (0 <? zlen (recvBuf (c_rcv c))).
      * destruct Hk as [Hk Hb Hn Hc Hst Hf]. constructor; cbn; try done. by rewrite <- app_assoc, take_drop.
      * destruct (c_err c); [by rewrite app_nil_r|]. destruct (peerClosed _); by rewrite app_nil_r.
Qed.

(** C7. In-order delivery: against a peer that sends a stream (below 2^31 bytes) in
    segments of its choice and then its FIN, over a network that loses, repeats
    and reorders, and with any calls, timer events and other segments in between,
    the bytes Read has returned are a prefix of the stream; the buffer holds the
    next ones; Read reports the end of the stream only after all of it. *)
Theorem tcp_in_order_delivery (ourMSS isn : Z) (stream : bytes) (c : tcpConn) (rd : bytes) :
  zlen stream < 2147483647 -> receives ourMSS isn stream c rd ->
  (exists rest, stream = rd ++ recvBuf (c_rcv c) ++ rest) /\
  (forall n, (Read c n).1 = RErr EOF -> rd = stream).
Proof.
  intros Hlen Hr. destruct (receives_in_step _ _ _ _ _ Hlen Hr) as [k [Hk Hb Hn Hc _ _]].
  pose proof (ki_err c (proj1 (conn_reachable_inv _ _ (receives_reachable _ _ _ _ _ Hr)))) as Herr. split.
  - exists (drop (Z.to_nat k) stream). by rewrite app_assoc, Hb, take_drop.
  - intros n. unfold Read. destruct (Deadline.passed _); [done|].
    destruct (Z.ltb_spec 0 (zlen (recvBuf (c_rcv c)))) as [|Hz]; [done|]. intros HE.
    destruct (c_err c) as [e|] eqn:Ee; [injection HE as ->; done|].
    destruct (peerClosed (c_rcv c)); [|done]. specialize (Hc eq_refl).
    assert (recvBuf (c_rcv c) = []) as E by (apply zlen_0_nil; pose proof (zlen_nonneg (recvBuf (c_rcv c))); lia).
    rewrite E, app_nil_r in Hb. rewrite Hb, Hc. apply take_ge. unfold zlen. lia.
Qed.

(** ** Sending *)

(** The bytes an operation takes from the application. *)
Definition bytes_written (c : tcpConn) (op : conn_op) : bytes :=
  match op with
  | WriteOp p total =>
      match writePass c p total with
      | Ok (WMore n, _, _) => take (Z.to_nat (n - total)) (drop (Z.to_nat total) p)
      | _ => []
      end
  | _ => []
  end.

(** The data segments among [acts] carry bytes of the buffer at their place. *)
Definition from_buffer (s : sendSide) (acts : list conn_action) : Prop :=
  forall seg, Send seg ∈ acts -> payload seg <> [] ->
  exists n, 0 <= n /\ n + zlen (payload seg) <= zlen (outBuf s) /\ seq seg = sndUna s +u32 n /\
    payload seg = window_of (outBuf s) n (zlen (payload seg)) /\ zlen (payload seg) <= sndMSS s.

(** No action carries data. *)
Definition dataless (acts : list conn_action) : Prop := forall seg, Send seg ∈ acts -> payload seg = [].

Lemma dataless_from (s : sendSide) (acts : list conn_action) : dataless acts -> from_buffer s acts.
Proof. intros Hd seg Hin Hne. by apply Hd in Hin. Qed.

Lemma elem_sends (seg : tcpSegment) (segs : list tcpSegment) : Send seg ∈ sends segs <-> seg ∈ segs.
Proof.
  unfold sends. rewrite list_elem_of_fmap. split; [intros (x & [= ->] & Hx); done|]. intros H. by exists seg.
Qed.

Lemma data_run_from (c : tcpConn) (n m : Z) (segs : list tcpSegment) :
  0 <= n -> data_run c n segs m -> from_buffer (c_snd c) (sends segs).
Proof.
  intros Hn HR seg Hin%elem_sends Hne. revert Hn Hin. induction HR as [n|n k m segs Hk Hle HR IH]; intros Hn Hin.
  { by apply elem_of_nil in Hin. }
  apply elem_of_cons in Hin as [->|Hin]; [|apply IH; [lia|done]].
  cbn. rewrite zlen_take by lia. rewrite zlen_drop by lia. rewrite Z.min_l by lia.
  exists n. split_and!; [done|lia|done|done|lia].
Qed.

Lemma RST_dataless (seg : tcpSegment) : payload (buildRSTSegment seg) = [].
Proof. unfold buildRSTSegment. by case_match. Qed.

Ltac dataless_solve :=
  let x := fresh in let Hx := fresh in intros x Hx;
  repeat (apply elem_of_cons in Hx as [?|Hx]; [simplify_eq; first [done|apply RST_dataless]|]);
  by apply elem_of_nil in Hx.

(** What a data-taking state sends: the data of the acknowledgement phase, then
    possibly an acknowledgement. *)
Lemma data_phase (c : tcpConn) (seg : tcpSegment) (segs : list tcpSegment) :
  rcv_inv (c_rcv c) -> seg_ok seg ->
  exists c2 segs2 fin acts2, handleEstablishedDataLocked c seg segs = Ok (c2, segs2, fin, acts2) /\
    c_snd c2 = c_snd c /\ c_state c2 = c_state c /\
    forall x, Send x ∈ acts2 ++ sends segs2 -> x ∈ segs \/ payload x = [].
Proof.
  intros Hr Hseg. destruct (handleData_spec c seg segs Hr Hseg) as (r & fin & acts & n & _ & -> & _ & Ha).
  eexists _, _, fin, acts. split_and!; [done|done|done|].
  intros x [Hx|Hx]%elem_of_app.
  - right. revert x Hx. destruct Ha as [-> | ->]; dataless_solve.
  - apply elem_sends, elem_of_app in Hx as [Hx|Hx]; [by left|]. right.
    destruct (consumes seg); [by apply list_elem_of_singleton in Hx as ->|by apply elem_of_nil in Hx].
Qed.

(** A segment of the peer: the send side is that of [handleAckLocked], or the
    handshake's last step, or untouched. *)
Lemma handleSegment_snd (c c' : tcpConn) (seg : tcpSegment) (acts : list conn_action) :
  conn_inv c -> seg_ok seg -> handleSegment c seg = Ok (c', acts) ->
  (c_snd c' = c_snd c /\ (c_state c = stateSynRcvd -> c_state c' = stateSynRcvd \/ c_state c' = stateClosed) /\ dataless acts) \/
  (c_state c = stateSynRcvd /\ ack seg = sndUna (c_snd c) +u32 1 /\ c_state c' = stateEstablished /\
     c_snd c' = set_sndUna (ack seg) (c_snd c) /\ dataless acts) \/
  (c_state c <> stateSynRcvd /\ exists c1 segs, handleAckLocked c seg [] = Ok (c1, segs) /\ c_snd c' = c_snd c1 /\
     forall x, Send x ∈ acts -> x ∈ segs \/ payload x = []).
Proof.
  intros Hi Hseg. pose proof Hi as [Hc _]. unfold handleSegment.
  destruct (has_flag (flags seg) flagRST).
  { destruct (negb _); intros E; apply (inj Ok) in E; injection E as <- <-; left; (split_and!; [done|auto|dataless_solve]). }
  pose proof (handleAck_ok c seg [] Hi Hseg) as HA.
  destruct (c_state c) eqn:Est; [by destruct Hc|..].
  { destruct (negb _ || negb _) eqn:Eb.
    { intros E. apply (inj Ok) in E. injection E as <- <-. left. split_and!; [done|auto|dataless_solve]. }
    apply orb_false_iff in Eb as [_ Eb%negb_false_iff%Z.eqb_eq].
    match goal with |- context [handleEstablishedDataLocked ?x _ _] => set (c1 := x) end.
    destruct (data_phase c1 seg [] (ki_rcv c Hc) Hseg) as (c2 & segs2 & fin & acts2 & -> & Hs & Hst & Hx).
    outcome_simpl. intros E. injection E as <- <-. right. left. split_and!; [done|done|done|done|].
    intros x Hin. destruct (Hx x) as [H|H]; [|by apply elem_of_nil in H|done].
    apply elem_of_app in Hin as [Hin|Hin]; apply elem_of_app; [by left|]. right.
    do 2 (apply elem_of_cons in Hin as [?|Hin]; [done|]). done. }
  all: try (intros E; apply (inj Ok) in E; injection E as <- <-; left; split_and!;
    [done|done|try (destruct (has_flag (flags seg) flagFIN)); dataless_solve]).
  all: destruct HA as (s & t & n & segs & HA & Hi1 & _ & _); [done..|]; rewrite HA; outcome_simpl; intros E;
    right; right; (split; [done|]); exists (upd s t n c), ([] ++ segs); split; [done|].
  all: try (destruct (data_phase (upd s t n c) seg ([] ++ segs) (ki_rcv _ (proj1 Hi1)) Hseg)
      as (c2 & segs2 & fin & acts2 & HE & Hs & Hst & Hx); rewrite HE in E; outcome_simpl; injection E as <- <-;
    split; [|exact Hx]; destruct fin, (finAcked (c_snd c2)); exact Hs).
  - injection E as <- <-. split; [by destruct (finAcked _)|]. intros x Hx%elem_sends. by left.
  - injection E as <- <-. split; [done|]. intros x Hx%elem_sends. by left.
  - destruct (finAcked _); injection E as <- <-; (split; [done|]); intros x Hx; left; apply elem_sends; [|done].
    by apply elem_of_cons in Hx as [?|?].
Qed.

(** One for the SYN, when the handshake completes. *)
Definition syn_acked (c c' : tcpConn) : Z :=
  if bool_decide (c_state c = stateSynRcvd) && bool_decide (c_state c' = stateEstablished) then 1 else 0.

(** How an operation moves the send side: [n] bytes are retired, [added] are
    queued; what is in flight stays within the peer's window, one probe byte
    excepted. *)
Record snd_moves (c c' : tcpConn) (added : bytes) (acts : list conn_action) (n : Z) : Prop := {
  sm_from : from_buffer (c_snd c') acts;
  sm_acked : 0 <= n <= sentBytes (c_snd c);
  sm_una : sndUna (c_snd c') = sndUna (c_snd c) +u32 (syn_acked c c' + n);
  sm_buf : outBuf (c_snd c') = drop (Z.to_nat n) (outBuf (c_snd c)) ++ added;
  sm_window : sentBytes (c_snd c') <= Z.max (sentBytes (c_snd c)) (Z.max 1 (sndWnd (c_snd c')));
}.

Lemma snd_stays_fin (c c' : tcpConn) (acts : list conn_action) :
  conn_inv c -> sndUna (c_snd c') = sndUna (c_snd c) -> outBuf (c_snd c') = outBuf (c_snd c) ->
  sentBytes (c_snd c') = sentBytes (c_snd c) ->
  (c_state c = stateSynRcvd -> c_state c' <> stateEstablished) -> dataless acts -> snd_moves c c' [] acts 0.
Proof.
  intros [Hc _] E1 E2 E3 Hst Hd. pose proof (ki_snd c Hc) as [Hu _ Hsent _ _]. constructor.
  - by apply dataless_from.
  - lia.
  - rewrite E1. unfold syn_acked. case_bool_decide; [|by rewrite Z.add_0_r, u32_id].
    rewrite bool_decide_eq_false_2 by auto. by rewrite Z.add_0_r, u32_id.
  - by rewrite E2, drop_0, app_nil_r.
  - rewrite E3. lia.
Qed.

Lemma snd_stays (c c' : tcpConn) (acts : list conn_action) :
  conn_inv c -> c_snd c' = c_snd c -> (c_state c = stateSynRcvd -> c_state c' <> stateEstablished) -> dataless acts ->
  snd_moves c c' [] acts 0.
Proof. intros Hi E. by apply snd_stays_fin; rewrite ?E. Qed.

Lemma pending_window (s : sendSide) :
  snd_inv s -> pending_target s false <= Z.max (sentBytes s) (sndWnd s).
Proof.
  intros [_ [Hw _] Hsent _ _]. unfold pending_target, send_target, is_u16 in *.
  rewrite andb_false_r. destruct (sndMSS s =? 0); lia.
Qed.

Lemma syn_acked_not (c c' : tcpConn) : c_state c <> stateSynRcvd -> syn_acked c c' = 0.
Proof. intros. unfold syn_acked. by rewrite bool_decide_eq_false_2. Qed.

Lemma handleSegment_moves (c c' : tcpConn) (seg : tcpSegment) (acts : list conn_action) :
  conn_inv c -> seg_ok seg -> handleSegment c seg = Ok (c', acts) -> exists n, snd_moves c c' [] acts n.
Proof.
  intros Hi Hseg HE. pose proof Hi as [Hc _]. pose proof (ki_snd c Hc) as Hs. pose proof Hs as [Hu _ Hsent _ _].
  destruct (handleSegment_snd c c' seg acts Hi Hseg HE) as
    [(E & Hst & Hd)|[(Hst & Hack & Hst' & E & Hd)|(Hst & c1 & segs & HA & E & Hx)]].
  - exists 0. apply snd_stays; try done. intros H. by destruct (Hst H) as [-> | ->].
  - exists 0. constructor; rewrite ?E; cbn; [by apply dataless_from|lia| |by rewrite drop_0, app_nil_r|lia].
    unfold syn_acked. by rewrite !bool_decide_eq_true_2, Z.add_0_r.
  - destruct (has_flag (flags seg) flagACK) eqn:Ef.
    2:{ unfold handleAckLocked in HA. rewrite Ef in HA. injection HA as <- <-. exists 0. apply snd_stays; try done.
        intros x Hin. by destruct (Hx x Hin) as [?%elem_of_nil|?]. }
    destruct Hseg as [Hr _]. destruct (handleAck_spec c seg [] Hs Hr Ef) as (segs' & n & _ & HA' & HR & _).
    rewrite HA in HA'. injection HA' as -> ->. set (s := ack_snd (c_snd c) seg) in *.
    assert (Hs1 : snd_inv s) by (apply ack_snd_inv; [done|by destruct Hr as [_ _ [_ ?] _]]).
    pose proof (acked_range (c_snd c) (ack seg) Hs) as Hn. pose proof (pending_window s Hs1) as Hw.
    exists (acked (c_snd c) (ack seg)). constructor; rewrite ?E; cbn [c_snd upd].
    + intros x Hin Hne. destruct (Hx x Hin) as [Hin'|?]; [|done].
      refine (data_run_from _ _ _ _ (proj1 (si_sent _ Hs1)) HR x _ Hne). by apply elem_sends.
    + lia.
    + rewrite syn_acked_not by done. done.
    + by rewrite app_nil_r.
    + cbn [set_sentBytes sentBytes sndWnd]. unfold s in Hw |- *. cbn [ack_snd sentBytes sndWnd] in Hw |- *. lia.
Qed.

(** A retransmission of [seg] changes only the timers. *)
Lemma retransmit_moves (c c' : tcpConn) (o : outcome tcp_error tcpSegment) (acts : list conn_action) :
  conn_inv c -> retransmit (set_tmr (fired (c_tmr c)) c) o = Ok (c', acts) ->
  (forall seg, o = Ok seg -> from_buffer (c_snd c) [Send seg]) -> snd_moves c c' [] acts 0.
Proof.
  intros Hi. unfold retransmit. case_match.
  - intros E _. injection E as <- <-. apply snd_stays; try done. dataless_solve.
  - destruct o as [seg| |]; outcome_simpl; [|done..]. intros E HF. injection E as <- <-.
    destruct (snd_stays c (set_tmr (fired (c_tmr c)) c) [] Hi) as [_ H2 H3 H4 H5]; try done.
    { cbn. congruence. }
    { dataless_solve. }
    constructor; try done. by apply HF.
Qed.

Lemma timer_moves (c c' : tcpConn) (ourMSS : Z) (acts : list conn_action) :
  conn_inv c -> onRTOFired (set_tmr (fired (c_tmr c)) c) ourMSS = Ok (c', acts) -> snd_moves c c' [] acts 0.
Proof.
  intros Hi. pose proof Hi as [Hc _]. pose proof (ki_snd c Hc) as Hs. pose proof Hs as [Hu [Hw Hm] Hsent Hcap _].
  unfold onRTOFired, is_u16, maxInFlightBytes in *. set (c0 := set_tmr (fired (c_tmr c)) c).
  change (c_state c0) with (c_state c). change (c_snd c0) with (c_snd c).
  assert (Hd : forall seg, payload seg = [] -> from_buffer (c_snd c) [Send seg]).
  { intros seg Hp x Hx Hne. apply list_elem_of_singleton in Hx as [= ->]. done. }
  assert (Hst : forall c1 acts1, c_snd c1 = c_snd c -> c_state c1 <> stateEstablished \/ c_state c1 = c_state c ->
    dataless acts1 -> snd_moves c c1 [] acts1 0).
  { intros c1 acts1 E1 E2 Hd1. apply snd_stays; try done. destruct E2 as [?|E2]; [done|]. congruence. }
  case_bool_decide; [intros E; injection E as <- <-; apply Hst; [done|by right|dataless_solve]|].
  destruct (inTimeWait (c_tmr c0)); [intros E; injection E as <- <-; apply Hst; [done|by left|dataless_solve]|].
  case_bool_decide as Hsyn; [intros E; apply (retransmit_moves _ _ _ _ Hi E); intros seg [= <-]; by apply Hd|].
  destruct (Z.ltb_spec 0 (sentBytes (c_snd c))) as [Hpos|Hz].
  { set (chunk := if _ <? _ then _ else _). assert (Hch : chunk = Z.min (sndMSS (c_snd c)) (sentBytes (c_snd c)))
      by (unfold chunk; bool_cases; lia). clearbody chunk.
    rewrite slice_ok by lia. outcome_simpl. intros E. apply (retransmit_moves _ _ _ _ Hi E).
    intros seg [= <-] x Hx Hne. apply list_elem_of_singleton in Hx as [= ->]. exists 0. cbn.
    rewrite Z.sub_0_r, drop_0, zlen_take, Z.min_l by lia.
    split_and!; [lia|lia|by rewrite Z.add_0_r, u32_id|done|lia]. }
  destruct (finSent (c_snd c) && negb (finAcked (c_snd c)));
    [intros E; apply (retransmit_moves _ _ _ _ Hi E); intros seg [= <-]; by apply Hd|].
  rewrite (u32_id (zlen _)) by (unfold is_u32; lia).
  destruct ((sndWnd (c_snd c) =? 0) && (sentBytes (c_snd c) <? zlen (outBuf (c_snd c)))) eqn:Ep.
  2:{ intros E; injection E as <- <-; apply Hst; [done|by right|dataless_solve]. }
  case_match; [intros E; injection E as <- <-; apply Hst; [done|by left|dataless_solve]|].
  match goal with |- context [sendPendingLocked ?x _ _] => set (c1 := x) end.
  destruct (sendPending_spec c1 [] true Hs) as (segs & -> & HR). outcome_simpl. intros E. injection E as <- <-.
  destruct (Hst c [] eq_refl (or_intror eq_refl) ltac:(dataless_solve)) as [_ H2 H3 H4 H5].
  constructor; try done.
  - intros x Hx Hne. refine (data_run_from _ _ _ _ (proj1 Hsent) HR x _ Hne). done.
  - cbn. unfold pending_target, send_target. apply andb_true_iff in Ep as [-> _]. cbn [andb].
    destruct (sndMSS (c_snd c) =? 0); lia.
Qed.

Lemma closeWrite_moves (c : tcpConn) :
  conn_inv c -> c_state c <> stateSynRcvd -> snd_moves c (CloseWrite c).1 [] (CloseWrite c).2 0.
Proof.
  intros Hi Hst. unfold CloseWrite. destruct (closeWriteOnce c).
  { apply snd_stays; try done. dataless_solve. }
  cbn [c_state set_closeWriteOnce].
  destruct (c_state c) eqn:Es; (apply snd_stays_fin; [done|done|done|done|congruence|dataless_solve]).
Qed.

Lemma write_moves (c c' : tcpConn) (p : bytes) (total : Z) (acts : list conn_action) :
  conn_inv c -> c_state c <> stateSynRcvd -> 0 <= total <= zlen p ->
  exec 0 c (WriteOp p total) = Ok (c', acts) -> snd_moves c c' (bytes_written c (WriteOp p total)) acts 0.
Proof.
  intros Hi Hst Ht. pose proof Hi as [Hc _]. pose proof (ki_snd c Hc) as Hs. pose proof Hs as [Hu _ Hsent _ _].
  cbn [exec bytes_written].
  destruct (writePass_spec c p total Hs Ht) as [(res & -> & Hres)|(k & segs & Hk & Hle & Hq & _ & -> & HR)]; outcome_simpl.
  - intros E. injection E as <- <-. destruct res; [| |by destruct (Hres total0)]; apply snd_stays; try done; dataless_solve.
  - intros E. injection E as <- <-. replace (total + k - total) with k by lia. set (s := queued c _) in *.
    pose proof (pending_window s Hq) as Hw. constructor.
    + refine (data_run_from _ _ _ _ (proj1 (si_sent _ Hq)) HR).
    + lia.
    + rewrite syn_acked_not by done. cbn. by rewrite Z.add_0_r, u32_id.
    + by rewrite drop_0.
    + cbn [upd c_snd set_sentBytes sentBytes sndWnd]. unfold s in Hw |- *.
      cbn [queued set_outBuf sentBytes sndWnd] in Hw |- *. lia.
Qed.

Lemma exec_moves (ourMSS : Z) (c c' : tcpConn) (op : conn_op) (acts : list conn_action) :
  conn_inv c -> op_ok c op -> exec ourMSS c op = Ok (c', acts) ->
  exists n, snd_moves c c' (bytes_written c op) acts n.
Proof.
  intros Hi Hok HE. assert (Hst : forall c1, c_snd c1 = c_snd c -> c_state c1 <> stateEstablished \/ c_state c1 = c_state c ->
    forall acts1, dataless acts1 -> snd_moves c c1 [] acts1 0).
  { intros c1 E1 E2 acts1 Hd1. apply snd_stays; try done. destruct E2 as [?|E2]; [done|]. congruence. }
  destruct op as [seg|ev|n|p total| | | |rd wd|half live ip]; cbn [exec op_ok] in HE, Hok;
    [by eapply handleSegment_moves|exists 0..]; cbn [bytes_written].
  - destruct ev; cbn [timerLoop] in HE.
    + destruct (onRTOFired _ ourMSS) as [[c1 acts1]| |] eqn:E; outcome_simpl; [|done..].
      injection HE as <- <-. by apply (timer_moves c c1 ourMSS).
    + unfold onAttachmentDetached in HE. revert HE.
      case_bool_decide; outcome_simpl; intros HE; injection HE as <- <-; apply Hst; auto; dataless_solve.
    + injection HE as <- <-. apply Hst; auto. dataless_solve.
  - injection HE as <- <-. unfold Read. repeat case_match; apply Hst; auto; dataless_solve.
  - destruct Hok as [Hs Ht]. by apply write_moves.
  - injection HE as HE. pose proof (closeWrite_moves c Hi Hok) as H. by rewrite HE in H.
  - unfold Close in HE. revert HE. case_bool_decide as Hs; intros HE.
    + injection HE as <- <-. apply Hst; auto. dataless_solve.
    + injection HE as HE. pose proof (closeWrite_moves c Hi Hs) as H. by rewrite HE in H.
  - unfold abort in HE. revert HE. case_bool_decide; intros HE; injection HE as <- <-; apply Hst; auto; dataless_solve.
  - injection HE as <- <-. apply Hst; auto; dataless_solve.
  - injection HE as <- <-. apply Hst; auto; dataless_solve.
Qed.

(** ** The written stream *)

(** A handshake that was refused: the application never gets the connection. *)
Definition refused (c c' : tcpConn) : Prop := c_state c = stateSynRcvd /\ c_state c' = stateClosed.

(** Runs of a connection whose initial sequence number is [sisn], with all bytes
    accepted by Write so far. *)
Inductive transmits (ourMSS sisn : Z) : tcpConn -> bytes -> Prop :=
  | tx_new (l a : nat) (key : fourTuple) (cisn cwnd m : Z) :
      is_u32 sisn -> is_u16 cwnd -> is_u16 m -> transmits ourMSS sisn (newTCPConn l a key sisn cisn cwnd m) []
  | tx_op (c c' : tcpConn) (op : conn_op) (acts : list conn_action) (w : bytes) :
      transmits ourMSS sisn c w -> op_ok c op -> exec ourMSS c op = Ok (c', acts) -> ~ refused c c' ->
      transmits ourMSS sisn c' (w ++ bytes_written c op).

(** The first [a] written bytes are acknowledged; the buffer holds the rest. *)
Record snd_step (sisn : Z) (c : tcpConn) (w : bytes) (a : Z) : Prop := {
  ss_range : 0 <= a <= zlen w;
  ss_buf : outBuf (c_snd c) = drop (Z.to_nat a) w;
  ss_syn : c_state c = stateSynRcvd -> w = [] /\ sndUna (c_snd c) = sisn;
  ss_una : c_state c <> stateSynRcvd -> sndUna (c_snd c) = seqOf sisn a;
}.

Lemma transmits_reachable (ourMSS sisn : Z) (c : tcpConn) (w : bytes) :
  transmits ourMSS sisn c w -> reachable ourMSS c.
Proof. induction 1; [by apply reach_new|by eapply reach_step]. Qed.

Lemma written_syn (c : tcpConn) (op : conn_op) : op_ok c op -> c_state c = stateSynRcvd -> bytes_written c op = [].
Proof. intros Hok Hs. destruct op; try done. by destruct Hok as [? _]. Qed.

(** One operation keeps the send side in step. *)
Lemma exec_snd_step (ourMSS sisn : Z) (c c' : tcpConn) (op : conn_op) (acts : list conn_action) (w : bytes) (a : Z) :
  conn_inv c -> snd_step sisn c w a -> op_ok c op -> exec ourMSS c op = Ok (c', acts) -> ~ refused c c' ->
  exists a', snd_step sisn c' (w ++ bytes_written c op) a'.
Proof.
  intros Hi [Ha Hb Hsyn Huna] Hok HE Hnr. pose proof Hi as [Hc _].
  destruct (exec_ok ourMSS c op Hi Hok) as (c1 & acts1 & HE1 & Hstep).
  rewrite HE in HE1. injection HE1 as <- <-. pose proof (so_edge _ _ Hstep) as He.
  destruct (exec_moves ourMSS c c' op acts Hi Hok HE) as [n [_ Hn Hu Hbuf _]].
  pose proof (ki_snd c Hc) as [_ _ Hsent _ _]. rewrite Hb in Hsent. rewrite zlen_drop in Hsent by lia.
  exists (a + n). assert (Hz : zlen (w ++ bytes_written c op) = zlen w + zlen (bytes_written c op)) by apply zlen_app.
  pose proof (zlen_nonneg (bytes_written c op)).
  constructor.
  - lia.
  - rewrite Hbuf, Hb, drop_drop, drop_app_le by (unfold zlen in *; lia). f_equal. f_equal. lia.
  - intros Hs'. assert (Hs : c_state c = stateSynRcvd) by (rewrite Hs' in He; by destruct (c_state c)).
    destruct (Hsyn Hs) as [-> Hu0]. rewrite (written_syn c op Hok Hs). split; [done|]. rewrite Hu.
    unfold syn_acked. rewrite Hs', (bool_decide_eq_false_2 (stateSynRcvd = stateEstablished)), andb_false_r by done.
    change (zlen []) with 0 in *. rewrite Hu0. replace (0 + n) with 0 by lia. rewrite Z.add_0_r, u32_id; [done|].
    rewrite <- Hu0. by destruct (ki_snd c Hc).
  - intros Hs'. rewrite Hu. destruct (decide (c_state c = stateSynRcvd)) as [Hs|Hs].
    + destruct (Hsyn Hs) as [-> Hu0]. unfold syn_acked. rewrite Hs in *. change (zlen []) with 0 in *.
      destruct (c_state c') eqn:Es'; try done; [|by destruct Hnr].
      rewrite !bool_decide_eq_true_2 by done. rewrite Hu0. unfold seqOf. cbn [andb]. f_equal. lia.
    + rewrite syn_acked_not by done. rewrite (Huna Hs). apply seqOf_add.
Qed.

Lemma transmits_step (ourMSS sisn : Z) (c : tcpConn) (w : bytes) :
  transmits ourMSS sisn c w -> exists a, snd_step sisn c w a.
Proof.
  induction 1 as [l a key cisn cwnd m|c c' op acts w Ht IH Hok HE Hnr].
  - exists 0. by constructor.
  - destruct IH as [a Ha]. eapply exec_snd_step; try done.
    by eapply conn_reachable_inv, transmits_reachable.
Qed.

(** C11. Faithful sending: every data segment a connection emits, first transmission,
    retransmission or probe, carries bytes the application wrote, at the sequence
    numbers of their positions in the written stream, and no more than the peer's
    MSS; acknowledgements, even forged ones, only retire bytes that were sent; and
    what is in flight does not grow beyond the peer's window, one probe byte
    excepted. *)
Theorem tcp_sends_written_stream (ourMSS sisn : Z) (c c' : tcpConn) (w : bytes) (op : conn_op)
    (acts : list conn_action) :
  transmits ourMSS sisn c w -> op_ok c op -> exec ourMSS c op = Ok (c', acts) -> ~ refused c c' ->
  (forall seg, Send seg ∈ acts -> payload seg <> [] ->
     piece sisn (w ++ bytes_written c op) (seq seg) (payload seg) /\ zlen (payload seg) <= sndMSS (c_snd c')) /\
  (exists n, 0 <= n <= sentBytes (c_snd c) /\
     outBuf (c_snd c') = drop (Z.to_nat n) (outBuf (c_snd c)) ++ bytes_written c op) /\
  sentBytes (c_snd c') <= Z.max (sentBytes (c_snd c)) (Z.max 1 (sndWnd (c_snd c'))).
Proof.
  intros Ht Hok HE Hnr. pose proof (conn_reachable_inv _ _ (transmits_reachable _ _ _ _ Ht)) as Hi.
  destruct (transmits_step _ _ _ _ Ht) as [a Ha].
  destruct (exec_snd_step _ _ _ _ _ _ _ _ Hi Ha Hok HE Hnr) as [a' [Hr Hb Hsyn Huna]].
  destruct (exec_moves _ _ _ _ _ Hi Hok HE) as [n [Hf Hn _ Hbuf Hw]].
  split_and!; [|by exists n|done]. intros seg Hin Hne.
  destruct (Hf seg Hin Hne) as (o & Ho & Hle & Hq & Hp & Hm). split; [|done].
  assert (Hl : 0 < zlen (payload seg)) by (destruct (payload seg); [done|rewrite zlen_cons; pose proof (zlen_nonneg l); lia]).
  rewrite Hb in Hle, Hp. rewrite zlen_drop in Hle by lia. exists (a' + o). split_and!; [lia|lia| |].
  - rewrite Hq, Huna; [apply seqOf_add|]. intros Hs. destruct (Hsyn Hs) as [E _]. rewrite E in *.
    change (zlen []) with 0 in *. lia.
  - rewrite Hp at 1. unfold window_of. rewrite drop_drop. f_equal. f_equal. lia.
Qed.

(** ** Witnesses: a stream of four bytes, its second half first *)

Module ToyStream.
Import TcpTraces.
Definition stream : bytes := [1; 2; 3; 4].
Definition late : tcpSegment := seg 5003 1001 flagACK 65535 [3; 4].
Definition early : tcpSegment := seg 5001 1001 flagACK 65535 [1; 2].
Definition c1 : tcpConn := after established (Segment late).
Definition c2 : tcpConn := after c1 (Segment early).

Lemma late_ok : seg_ok late.
Proof. split; [constructor; decide_now|vm_compute; discriminate]. Qed.
Lemma early_ok : seg_ok early.
Proof. split; [constructor; decide_now|vm_compute; discriminate]. Qed.

Lemma receives_after (c : tcpConn) (op : conn_op) (rd : bytes) :
  receives ours 5000 stream c rd -> op_ok c op -> (forall s, op = Segment s -> honest 5000 stream s) ->
  is_ok (exec ours c op) = true -> receives ours 5000 stream (after c op) (rd ++ bytes_read c op).
Proof. intros Hr Hok Hh [acts HE]%after_exec. by eapply rv_op. Qed.

Lemma toy_receives : receives ours 5000 stream c2 [].
Proof.
  apply (receives_after c1 (Segment early) []); [|exact early_ok| |vm_compute; reflexivity].
  - apply (receives_after established (Segment late) []); [|exact late_ok| |vm_compute; reflexivity].
    + apply (receives_after (fresh 65535) (Segment handshake) []); [|exact handshake_ok| |vm_compute; reflexivity].
      * apply rv_new; decide_now.
      * intros s [= <-] E. discriminate E.
    + intros s [= <-] _. exists 2. split_and!; try (vm_compute; reflexivity); vm_compute; try discriminate.
  - intros s [= <-] _. exists 0. split_and!; try (vm_compute; reflexivity); vm_compute; try discriminate.
Qed.
End ToyStream.

Lemma tcp_in_order_delivery_witness :
  recvBuf (c_rcv ToyStream.c2) = [1; 2; 3; 4] /\
  exists rest, ToyStream.stream = [] ++ recvBuf (c_rcv ToyStream.c2) ++ rest.
Proof.
  split; [vm_compute; reflexivity|].
  exact (proj1 (tcp_in_order_delivery TcpTraces.ours 5000 ToyStream.stream ToyStream.c2 []
    ltac:(vm_compute; reflexivity) ToyStream.toy_receives)).
Defined.

Lemma established_transmits : transmits TcpTraces.ours 1000 TcpTraces.established [].
Proof.
  destruct (TcpTraces.after_exec (TcpTraces.fresh 65535) (Segment TcpTraces.handshake)) as [acts HE];
    [vm_compute; reflexivity|].
  apply (tx_op _ _ (TcpTraces.fresh 65535) _ (Segment TcpTraces.handshake) acts []); [|exact TcpTraces.handshake_ok|exact HE|].
  - apply tx_new; decide_now.
  - intros [_ H]. vm_compute in H. discriminate H.
Qed.

Lemma tcp_sends_written_stream_witness :
  exists acts s, exec TcpTraces.ours TcpTraces.established (WriteOp [7; 8; 9] 0) =
      Ok (TcpTraces.after TcpTraces.established (WriteOp [7; 8; 9] 0), acts) /\
    acts = [Send s] /\ piece 1000 [7; 8; 9] (seq s) (payload s).
Proof.
  destruct (TcpTraces.after_exec TcpTraces.established (WriteOp [7; 8; 9] 0)) as [acts HE]; [vm_compute; reflexivity|].
  exists acts, (outSegment TcpTraces.established 1001 flagACK [7; 8; 9]).
  assert (Ha : acts = [Send (outSegment TcpTraces.established 1001 flagACK [7; 8; 9])]).
  { apply (f_equal (fun o => match o with Ok (_, a) => a | _ => [] end)) in HE. rewrite <- HE. vm_compute. reflexivity. }
  split; [exact HE|]. split; [exact Ha|].
  refine (proj1 (proj1 (tcp_sends_written_stream TcpTraces.ours 1000 TcpTraces.established _ [] (WriteOp [7; 8; 9] 0) acts
    established_transmits _ HE _) _ _ _)).
  - split; [vm_compute; discriminate|vm_compute; split; discriminate].
  - intros [H _]. vm_compute in H. discriminate H.
  - rewrite Ha. apply list_elem_of_here.
  - discriminate.
Defined.

End TcpStream.
