(* ===== verification/TcpListener.v ===== *)
(** * TcpListener: the TCP demultiplexer and its listeners

    Model of [netstack/tcp_listener.go]: the table of connections by 4-tuple, the
    listeners with their accept queues, SYN handling with the per-client bounds on
    half-open and live connections, resets for segments that belong nowhere, and
    the teardown calls the connections make.

    Connections and listeners are objects of heaps indexed by their identity (the
    code compares pointers).  A method is one function of the demultiplexer; the
    actions a connection's method returns are carried out here, in their order.
    What leaves is a list of transmissions; [sendOne] and [sendRST] turn each of
    them into a packet handed to the stack's [writePacket]. *)

From stdpp Require Import gmap.
From S2P Require Import Prelude Frame IPv4 TcpSegment Deadline Stack TcpConn TcpInvariant.
Import TcpSegment TcpConn TcpInvariant.

Module TcpListener.

Definition defaultBacklog : Z := 16.
Definition maxHalfOpenPerSession : Z := 8.
Definition maxLiveConnsPerSession : Z := 64.

Inductive listen_error := ErrTCPPortZero | ErrTCPPortInUse | ErrTCPListenerClosed.

#[export] Instance listen_error_eq_dec : EqDecision listen_error.
Proof. solve_decision. Defined.

(** The counters of [tcpDemuxStats], all [atomic.Uint64]. *)
Inductive tcp_counter :=
  | backlogOverflow | halfOpenCapHits | liveConnCapHits | reorderDropped | rstsSent | rstsReceived.

#[export] Instance tcp_counter_eq_dec : EqDecision tcp_counter.
Proof. solve_decision. Defined.

Definition tcpDemuxStats : Type := tcp_counter -> Z.

Record tcpListener := mkListener {
  l_port : Z;
  l_closed : bool;
  l_backlog : list nat;     (* the connections in the channel *)
}.

Record tcpDemux := mkDemux {
  d_listeners : gmap Z nat;
  d_conns : gmap fourTuple nat;
  d_halfOpen : gmap bytes Z;
  d_liveConns : gmap bytes Z;
  d_stats : tcpDemuxStats;
  d_lheap : gmap nat tcpListener;  (* the listener objects *)
  d_cheap : gmap nat tcpConn;      (* the connection objects *)
  d_next : nat;                    (* the identity of the next object *)
}.

Definition newTCPDemux : tcpDemux := mkDemux ∅ ∅ ∅ ∅ (fun _ => 0) ∅ ∅ 0.

Definition TCPStats (d : option tcpDemux) (c : tcp_counter) : Z :=
  match d with Some d => d_stats d c | None => 0 end.

(** ** Field updates *)

Definition set_conns (m : gmap fourTuple nat) (d : tcpDemux) : tcpDemux :=
  mkDemux (d_listeners d) m (d_halfOpen d) (d_liveConns d) (d_stats d) (d_lheap d) (d_cheap d) (d_next d).
Definition set_counts (half live : gmap bytes Z) (d : tcpDemux) : tcpDemux :=
  mkDemux (d_listeners d) (d_conns d) half live (d_stats d) (d_lheap d) (d_cheap d) (d_next d).
Definition set_cheap (h : gmap nat tcpConn) (d : tcpDemux) : tcpDemux :=
  mkDemux (d_listeners d) (d_conns d) (d_halfOpen d) (d_liveConns d) (d_stats d) (d_lheap d) h (d_next d).
Definition set_lheap (h : gmap nat tcpListener) (d : tcpDemux) : tcpDemux :=
  mkDemux (d_listeners d) (d_conns d) (d_halfOpen d) (d_liveConns d) (d_stats d) h (d_cheap d) (d_next d).
Definition set_listeners (m : gmap Z nat) (d : tcpDemux) : tcpDemux :=
  mkDemux m (d_conns d) (d_halfOpen d) (d_liveConns d) (d_stats d) (d_lheap d) (d_cheap d) (d_next d).
Definition set_next (n : nat) (d : tcpDemux) : tcpDemux :=
  mkDemux (d_listeners d) (d_conns d) (d_halfOpen d) (d_liveConns d) (d_stats d) (d_lheap d) (d_cheap d) n.
Definition count (c : tcp_counter) (d : tcpDemux) : tcpDemux :=
  mkDemux (d_listeners d) (d_conns d) (d_halfOpen d) (d_liveConns d)
    (fun c' => if decide (c' = c) then u64 (d_stats d c' + 1) else d_stats d c')
    (d_lheap d) (d_cheap d) (d_next d).

(** ** Listeners *)

Definition listen (d : tcpDemux) (port : Z) : outcome listen_error nat * tcpDemux :=
  match d_listeners d !! port with
  | Some _ => (Err ErrTCPPortInUse, d)
  | None =>
      let id := d_next d in
      (Ok id, set_next (S id) (set_listeners (<[port := id]> (d_listeners d))
                (set_lheap (<[id := mkListener port false []]> (d_lheap d)) d)))
  end.

(** The demultiplexer exists from the first call on. *)
Definition ListenTCP (d : option tcpDemux) (port : Z) : outcome listen_error nat * option tcpDemux :=
  if port =? 0 then (Err ErrTCPPortZero, d) else
  let d := default newTCPDemux d in
  let '(res, d) := listen d port in (res, Some d).

Definition removeListener (d : tcpDemux) (port : Z) : tcpDemux :=
  set_listeners (delete port (d_listeners d)) d.

(** ** Accounting *)

(** The decrement both release functions make. *)
Definition decr (m : gmap bytes Z) (ip : bytes) : gmap bytes Z :=
  match m !! ip with
  | Some n => if n <=? 1 then delete ip m else <[ip := n - 1]> m
  | None => m
  end.

Definition releaseHalfOpen (d : tcpDemux) (id : nat) : tcpDemux :=
  match d_cheap d !! id with
  | None => d
  | Some c =>
      let counted := halfOpenCounted c in
      let d := set_cheap (<[id := set_counted false (liveCounted c) c]> (d_cheap d)) d in
      if counted then set_counts (decr (d_halfOpen d) (halfOpenIP c)) (d_liveConns d) d else d
  end.

Definition releaseLiveConn (d : tcpDemux) (id : nat) : tcpDemux :=
  match d_cheap d !! id with
  | None => d
  | Some c =>
      let counted := liveCounted c in
      let d := set_cheap (<[id := set_counted (halfOpenCounted c) false c]> (d_cheap d)) d in
      if counted then set_counts (d_halfOpen d) (decr (d_liveConns d) (halfOpenIP c)) d else d
  end.

Definition removeConn (d : tcpDemux) (id : nat) : tcpDemux :=
  match d_cheap d !! id with
  | None => d
  | Some c =>
      let d := if bool_decide (d_conns d !! c_key c = Some id)
               then set_conns (delete (c_key c) (d_conns d)) d else d in
      releaseLiveConn (releaseHalfOpen d id) id
  end.

(** ** Carrying out a connection's actions *)

(** What leaves: a segment for the stack's outbound seam, or the stack's own
    counter of malformed packets. *)
Inductive out :=
  | Transmit (a : nat) (localIP remoteIP : bytes) (seg : tcpSegment)
  | CountMalformed.

Section Demux.
(** The stack: its address and MTU are fixed when it is created. *)
Context (stk : Stack.Stack).

Definition ourMSS : Z := Stack.maxSegmentSize stk.

(** Every action but [Enqueue]. *)
Definition applyBasic (d : tcpDemux) (id : nat) (act : conn_action) : tcpDemux * list out :=
  match act with
  | Send seg =>
      match d_cheap d !! id with
      | Some c => (d, [Transmit (c_a c) (Stack.s_serverIP stk) (remoteIP (c_key c)) seg])
      | None => (d, [])
      end
  | RemoveConn => (removeConn d id, [])
  | ReleaseHalfOpen => (releaseHalfOpen d id, [])
  | CountRstSent => (count rstsSent d, [])
  | CountRstReceived => (count rstsReceived d, [])
  | CountReorderDropped => (count reorderDropped d, [])
  | Enqueue => (d, [])
  end.

Fixpoint applyAll (f : tcpDemux -> nat -> conn_action -> tcpDemux * list out) (d : tcpDemux) (id : nat)
    (acts : list conn_action) : tcpDemux * list out :=
  match acts with
  | [] => (d, [])
  | act :: acts =>
      let '(d, o) := f d id act in
      let '(d, o') := applyAll f d id acts in (d, o ++ o')
  end.

(** [c.abort()]. *)
Definition abortConn (d : tcpDemux) (id : nat) : tcpDemux * list out :=
  match d_cheap d !! id with
  | None => (d, [])
  | Some c =>
      let '(c, acts) := abort c in
      applyAll applyBasic (set_cheap (<[id := c]> (d_cheap d)) d) id acts
  end.

Definition enqueue (d : tcpDemux) (l id : nat) : tcpDemux * list out :=
  match d_lheap d !! l with
  | None => (d, [])
  | Some lst =>
      if l_closed lst then abortConn d id else
      if Z.of_nat (length (l_backlog lst)) <? defaultBacklog then
        (set_lheap (<[l := mkListener (l_port lst) (l_closed lst) (l_backlog lst ++ [id])]> (d_lheap d)) d, [])
      else let '(d, o) := abortConn d id in (count backlogOverflow d, o)
  end.

Definition apply (d : tcpDemux) (id : nat) (act : conn_action) : tcpDemux * list out :=
  match act, d_cheap d !! id with
  | Enqueue, Some c => enqueue d (c_listener c) id
  | _, _ => applyBasic d id act
  end.

(** A method of connection [id]: its effect on the object, then its actions. *)
Definition connOp (d : tcpDemux) (id : nat) (op : conn_op) : outcome tcp_error (tcpDemux * list out) :=
  match d_cheap d !! id with
  | None => Ok (d, [])
  | Some c =>
      '(c, acts) ← exec ourMSS c op;
      Ok (applyAll apply (set_cheap (<[id := c]> (d_cheap d)) d) id acts)
  end.

(** ** Inbound packets *)

Definition handleSYN (d : tcpDemux) (l : nat) (a : nat) (remoteIP : bytes) (seg : tcpSegment) (isn : Z)
    : tcpDemux * list out :=
  match d_lheap d !! l with
  | None => (d, [])
  | Some lst =>
      if l_closed lst then (d, []) else
      if maxHalfOpenPerSession <=? default 0 (d_halfOpen d !! remoteIP) then (count halfOpenCapHits d, []) else
      if maxLiveConnsPerSession <=? default 0 (d_liveConns d !! remoteIP) then (count liveConnCapHits d, []) else
      let d := set_counts (<[remoteIP := default 0 (d_halfOpen d !! remoteIP) + 1]> (d_halfOpen d))
                          (<[remoteIP := default 0 (d_liveConns d !! remoteIP) + 1]> (d_liveConns d)) d in
      let mss := if hasMSS seg then (if ourMSS <? mss seg then ourMSS else mss seg) else defaultMSSWhenAbsent in
      let key := mkFourTuple remoteIP (srcPort seg) (dstPort seg) in
      let c := newTCPConn l a key isn (TcpSegment.seq seg) (window seg) mss in
      let c := set_counted true true (set_halfOpenIP remoteIP c) in
      let id := d_next d in
      let d := set_next (S id) (set_conns (<[key := id]> (d_conns d)) (set_cheap (<[id := c]> (d_cheap d)) d)) in
      (d, [Transmit a (Stack.s_serverIP stk) remoteIP (synAckSegment c ourMSS)])
  end.

Definition sendRST (d : tcpDemux) (a : nat) (localIP remoteIP : bytes) (seg : tcpSegment) : tcpDemux * list out :=
  (count rstsSent d, [Transmit a localIP remoteIP (buildRSTSegment seg)]).

(** [isn] is the number [randomISN] draws if it is called. *)
Definition handlePacket (d : tcpDemux) (a : nat) (src dst payload : bytes) (isn : Z)
    : outcome tcp_error (tcpDemux * list out) :=
  match parseTCP payload with
  | Panic => Panic
  | Err _ => Ok (d, [CountMalformed])
  | Ok seg =>
      match d_conns d !! mkFourTuple src (srcPort seg) (dstPort seg) with
      | Some id => connOp d id (Segment seg)
      | None =>
          if has_flag (flags seg) flagRST then Ok (d, []) else
          if has_flag (flags seg) flagSYN && negb (has_flag (flags seg) flagACK) then
            match d_listeners d !! dstPort seg with
            | None => Ok (sendRST d a dst src seg)
            | Some l => Ok (handleSYN d l a src seg isn)
            end
          else Ok (sendRST d a dst src seg)
      end
  end.

(** ** Accepting and closing *)

(** One look at both channels: a connection, the error, or nothing yet. *)
Inductive accept_result := Accepted (id : nat) | AcceptErr (e : listen_error) | AcceptBlocks.

(** With both channels ready Go picks either; [closeFirst] is its choice. *)
Definition Accept (d : tcpDemux) (l : nat) (closeFirst : bool) : accept_result * tcpDemux :=
  match d_lheap d !! l with
  | None => (AcceptBlocks, d)
  | Some lst =>
      match l_backlog lst with
      | id :: rest =>
          if l_closed lst && closeFirst then (AcceptErr ErrTCPListenerClosed, d) else
          (Accepted id, set_lheap (<[l := mkListener (l_port lst) (l_closed lst) rest]> (d_lheap d)) d)
      | [] => if l_closed lst then (AcceptErr ErrTCPListenerClosed, d) else (AcceptBlocks, d)
      end
  end.

(** The drain loop of [Close]. *)
Fixpoint abortAll (d : tcpDemux) (ids : list nat) : tcpDemux * list out :=
  match ids with
  | [] => (d, [])
  | id :: ids =>
      let '(d, o) := abortConn d id in
      let '(d, o') := abortAll d ids in (d, o ++ o')
  end.

Definition CloseListener (d : tcpDemux) (l : nat) : tcpDemux * list out :=
  match d_lheap d !! l with
  | None => (d, [])
  | Some lst =>
      if l_closed lst then (d, []) else
      let backlog := l_backlog lst in
      let d := set_lheap (<[l := mkListener (l_port lst) true []]> (d_lheap d)) d in
      abortAll (removeListener d (l_port lst)) backlog
  end.
End Demux.

(** ** The outbound seam *)

Section Seam.
Context (writeOK : nat -> bytes -> bool).

(** [sendOne], and the last steps of [sendRST]: the write's error is ignored. *)
Definition transmit (s : Stack.Stack) (a : nat) (localIP remoteIP : bytes) (seg : tcpSegment)
    : outcome tcp_error (Stack.Stack * list Stack.action) :=
  tcpBytes ← buildTCP [] seg localIP remoteIP;
  match IPv4.buildIPv4 [] localIP remoteIP Frame.ProtocolTCP tcpBytes with
  | Ok pkt =>
      match Stack.writePacket writeOK s a pkt with
      | Ok (_, s, acts) => Ok (s, acts)
      | _ => Panic
      end
  | _ => Panic
  end.

Fixpoint transmitAll (s : Stack.Stack) (outs : list out) : outcome tcp_error (Stack.Stack * list Stack.action) :=
  match outs with
  | [] => Ok (s, [])
  | CountMalformed :: outs => transmitAll (Stack.count s Stack.malformedDropped) outs
  | Transmit a localIP remoteIP seg :: outs =>
      '(s, acts) ← transmit s a localIP remoteIP seg;
      '(s, acts') ← transmitAll s outs;
      Ok (s, acts ++ acts')
  end.

(** A segment that fits the MTU leaves as one packet which, at the other end,
    parses to an IPv4 header with the right addresses and to the same TCP segment,
    options and data included, with a checksum that verifies. *)
Theorem transmit_roundtrip (s : Stack.Stack) (a : nat) (remote : bytes) (seg : tcpSegment) :
  Frame.is_addr (Stack.s_serverIP s) -> Frame.is_addr remote -> 576 <= Stack.s_mtu s <= 65535 ->
  seg_range seg -> is_u16 (mss seg) -> (hasMSS seg = false -> mss seg = 0) ->
  20 + headerLen seg + zlen (payload seg) <= Stack.s_mtu s ->
  exists pkt hdr, transmit s a (Stack.s_serverIP s) remote seg = Ok (s, [Stack.Write a pkt]) /\
    IPv4.parseIPv4 pkt = Ok hdr /\ IPv4.h_src hdr = Stack.s_serverIP s /\ IPv4.h_dst hdr = remote /\
    IPv4.h_protocol hdr = Frame.ProtocolTCP /\ parseTCP (IPv4.payload_of hdr pkt) = Ok seg /\
    Frame.TransportChecksum (Stack.s_serverIP s) remote Frame.ProtocolTCP (IPv4.payload_of hdr pkt) = 0.
Proof.
  intros Hs Hr Hmtu Hseg Hm Hm0 Hfit. pose proof (zlen_nonneg (payload seg)).
  assert (Hh : 20 <= headerLen seg) by (unfold headerLen; destruct (hasMSS seg); lia).
  destruct (parseTCP_buildTCP seg (Stack.s_serverIP s) remote Hseg Hm Hm0 Hs Hr ltac:(lia)) as (p & HB & HP & HC & HZ).
  assert (Hu8 : is_u8 Frame.ProtocolTCP) by decide_now.
  destruct (Frame.BuildIPv4_shape (E := IPv4.ip_error) (Stack.s_serverIP s) remote Frame.ProtocolTCP p Hs Hr Hu8)
    as (ck & hd & _ & _ & HI & Hlen & Hhok & _).
  destruct (IPv4.parse_built (Stack.s_serverIP s) remote Frame.ProtocolTCP p (hd ++ p) Hs Hr Hu8 ltac:(lia) HI)
    as (HPI & Hd & HzI & _).
  eexists (hd ++ p), _. split; [|split; [exact HPI|]].
  - unfold transmit. rewrite HB. outcome_simpl. unfold IPv4.buildIPv4. rewrite HI. unfold Stack.writePacket.
    rewrite HPI. cbn [IPv4.h_src IPv4.h_totalLen]. rewrite bool_decide_eq_true_2 by done. cbn [negb].
    by rewrite (proj2 (Z.leb_le _ _)) by lia.
  - assert (Hpay : IPv4.payload_of (IPv4.mkIPv4Header 20 (20 + zlen p) Frame.ProtocolTCP (Stack.s_serverIP s) remote 20 0 false 0)
      (hd ++ p) = p).
    { unfold IPv4.payload_of. cbn. change (Z.to_nat 20) with 20%nat. rewrite Hd. apply take_ge. unfold zlen. lia. }
    rewrite Hpay. by split_and!.
Qed.
End Seam.

Module ToySeam.
Definition s : Stack.Stack :=
  Stack.mkStack [10; 8; 0; 1] 1500 (Stack.mkLimits 0 0 0) 0 ∅ ∅ 0 false true (fun _ => 0) false.
Definition synack : tcpSegment := mkTcpSegment 443 50000 4000000000 7 18 65535 true 1460 [1; 2; 3].
End ToySeam.

Lemma transmit_roundtrip_witness :
  exists pkt hdr, transmit (fun _ _ => true) ToySeam.s 0 [10; 8; 0; 1] [10; 8; 0; 2] ToySeam.synack =
      Ok (ToySeam.s, [Stack.Write 0 pkt]) /\ IPv4.parseIPv4 pkt = Ok hdr /\
    parseTCP (IPv4.payload_of hdr pkt) = Ok ToySeam.synack.
Proof.
  destruct (transmit_roundtrip (fun _ _ => true) ToySeam.s 0 [10; 8; 0; 2] ToySeam.synack)
    as (pkt & hdr & H1 & H2 & _ & _ & _ & H3 & _).
  - decide_now.
  - decide_now.
  - vm_compute. split; discriminate.
  - constructor; decide_now.
  - decide_now.
  - discriminate.
  - vm_compute. discriminate.
  - exists pkt, hdr. exact (conj H1 (conj H2 H3)).
Defined.

End TcpListener.
