(* ===== verification/TcpAccounting.v ===== *)
(** * TcpAccounting: the bounds the TCP demultiplexer keeps

    For every state the demultiplexer can reach: the table of connections holds
    exactly the connections that are not closed, the two per-client counters count
    exactly the half-open and the live ones, and stay within their limits; accept
    queues stay within the backlog. *)

From stdpp Require Import gmap.
From S2P Require Import Prelude Frame IPv4 TcpSegment Deadline Stack TcpConn TcpInvariant TcpListener.
Import TcpSegment TcpConn TcpInvariant TcpListener.

Module TcpAccounting.

(** ** What a connection's method asks of the demultiplexer *)

Definition plain (act : conn_action) : bool :=
  match act with RemoveConn | ReleaseHalfOpen | Enqueue => false | _ => true end.
Abbreviation all_plain acts := (Forall (fun act => plain act = true) acts).

(** The fields the demultiplexer relies on. *)
Definition ident (c : tcpConn) := (c_key c, c_a c, c_listener c, halfOpenCounted c, halfOpenIP c, liveCounted c).

(** A method leaves the connection in its class, or closes it and asks for its
    removal, or completes the handshake and offers it to the listener. *)
Inductive shape (c c' : tcpConn) : list conn_action -> Prop :=
  | sh_stay (acts : list conn_action) :
      all_plain acts -> (c_state c' = stateClosed <-> c_state c = stateClosed) ->
      (c_state c' = stateSynRcvd <-> c_state c = stateSynRcvd) -> shape c c' acts
  | sh_close (a1 a2 : list conn_action) :
      all_plain a1 -> all_plain a2 -> c_state c' = stateClosed -> shape c c' (a1 ++ RemoveConn :: a2)
  | sh_establish (a1 a2 : list conn_action) :
      all_plain a1 -> all_plain a2 -> c_state c = stateSynRcvd -> c_state c' = stateEstablished ->
      shape c c' (a1 ++ ReleaseHalfOpen :: Enqueue :: a2).

Lemma sends_plain (segs : list tcpSegment) : all_plain (sends segs).
Proof. unfold sends. induction segs; by constructor. Qed.

Lemma data_acts (c : tcpConn) (seg : tcpSegment) (segs : list tcpSegment) :
  rcv_inv (c_rcv c) -> seg_ok seg ->
  exists c2 segs2 fin acts2, handleEstablishedDataLocked c seg segs = Ok (c2, segs2, fin, acts2) /\
    ident c2 = ident c /\ c_state c2 = c_state c /\ all_plain (acts2 ++ sends segs2).
Proof.
  intros Hr Hseg. destruct (handleData_spec c seg segs Hr Hseg) as (r & fin & acts & n & _ & -> & _ & Ha).
  eexists _, _, fin, acts. split_and!; [done|done|done|].
  apply Forall_app. split; [|apply sends_plain]. destruct Ha as [-> | ->]; by repeat constructor.
Qed.

Lemma handleSegment_shape (c c' : tcpConn) (seg : tcpSegment) (acts : list conn_action) :
  conn_inv c -> seg_ok seg -> handleSegment c seg = Ok (c', acts) -> ident c' = ident c /\ shape c c' acts.
Proof.
  intros Hi Hseg. pose proof Hi as [Hc _]. unfold handleSegment.
  destruct (has_flag (flags seg) flagRST).
  { destruct (negb _); intros E; apply (inj Ok) in E; injection E as <- <-; (split; [done|]); [by apply sh_stay|].
    apply (sh_close _ _ [CountRstReceived] []); by repeat constructor. }
  pose proof (handleAck_ok c seg [] Hi Hseg) as HA.
  destruct (c_state c) eqn:Est; [by destruct Hc|..].
  { destruct (negb _ || negb _).
    { intros E. apply (inj Ok) in E. injection E as <- <-. split; [done|].
      apply (sh_close _ _ [] _); by repeat constructor. }
    match goal with |- context [handleEstablishedDataLocked ?x _ _] => set (c1 := x) end.
    destruct (data_acts c1 seg [] (ki_rcv c Hc) Hseg) as (c2 & segs2 & fin & acts2 & -> & Hid & Hst & Hp).
    outcome_simpl. intros E. injection E as <- <-. split; [done|]. apply Forall_app in Hp as [H1 H2].
    by apply sh_establish. }
  5:{ intros E. apply (inj Ok) in E. injection E as <- <-. split; [done|].
      apply sh_stay; [destruct (has_flag (flags seg) flagFIN); by repeat constructor|cbn; by rewrite Est..]. }
  7:{ intros E. apply (inj Ok) in E. injection E as <- <-. split; [done|]. by apply sh_stay. }
  all: destruct HA as (s & t & n & segs & HA & Hi1 & _ & _); [done..|]; rewrite HA; outcome_simpl; intros E.
  all: try (destruct (data_acts (upd s t n c) seg ([] ++ segs) (ki_rcv _ (proj1 Hi1)) Hseg)
      as (c2 & segs2 & fin & acts2 & HE & Hid & Hst & Hp); rewrite HE in E; outcome_simpl; injection E as <- <-;
    split; [by destruct fin, (finAcked (c_snd c2))|]; apply sh_stay; [exact Hp|..]; rewrite Est in *; cbn in Hst;
    destruct fin, (finAcked (c_snd c2)); cbn; by rewrite ?Hst, ?Est).
  - injection E as <- <-. split; [by destruct (finAcked _)|].
    apply sh_stay; [apply sends_plain|..]; destruct (finAcked _); cbn; by rewrite ?Est.
  - injection E as <- <-. split; [done|]. apply sh_stay; [apply sends_plain|done|done].
  - destruct (finAcked _); injection E as <- <-; (split; [done|]).
    + apply (sh_close _ _ [] _); [done|apply sends_plain|done].
    + apply sh_stay; [apply sends_plain|done|done].
Qed.

Lemma retransmit_shape (c c' : tcpConn) (o : outcome tcp_error tcpSegment) (acts : list conn_action) :
  retransmit c o = Ok (c', acts) -> ident c' = ident c /\ shape c c' acts.
Proof.
  unfold retransmit. case_match.
  - intros [= <- <-]. split; [done|]. apply (sh_close _ _ [] _); by repeat constructor.
  - destruct o; outcome_simpl; [|done..]. intros [= <- <-]. split; [done|]. apply sh_stay; by repeat constructor.
Qed.

Lemma onRTOFired_shape (c c' : tcpConn) (m : Z) (acts : list conn_action) :
  core_inv c -> onRTOFired c m = Ok (c', acts) -> ident c' = ident c /\ shape c c' acts.
Proof.
  intros Hc. unfold onRTOFired.
  case_bool_decide; [intros [= <- <-]; split; [done|]; by apply sh_stay|].
  destruct (inTimeWait (c_tmr c)).
  { intros [= <- <-]. split; [done|]. apply (sh_close _ _ [] []); by repeat constructor. }
  case_bool_decide; [apply retransmit_shape|]. destruct (0 <? sentBytes (c_snd c)); [apply retransmit_shape|].
  destruct (finSent (c_snd c) && negb (finAcked (c_snd c))); [apply retransmit_shape|].
  destruct ((sndWnd (c_snd c) =? 0) && _); [|intros [= <- <-]; split; [done|]; by apply sh_stay].
  case_match; [intros [= <- <-]; split; [done|]; apply (sh_close _ _ [] _); by repeat constructor|].
  match goal with |- context [sendPendingLocked ?x _ _] => set (c1 := x) end.
  destruct (sendPending_spec c1 [] true (ki_snd c Hc)) as (segs & -> & _). outcome_simpl. intros [= <- <-].
  split; [done|]. apply sh_stay; [apply sends_plain|done|done].
Qed.

Lemma CloseWrite_shape (c : tcpConn) :
  c_state c <> stateSynRcvd -> ident (CloseWrite c).1 = ident c /\ shape c (CloseWrite c).1 (CloseWrite c).2.
Proof.
  intros Hs. unfold CloseWrite. destruct (closeWriteOnce c); [split; [done|]; by apply sh_stay|].
  cbn [c_state set_closeWriteOnce].
  destruct (c_state c) eqn:E; (split; [done|]); (apply sh_stay; [by repeat constructor|cbn; by rewrite E..]).
Qed.

(** The demultiplexer's own bookkeeping aside, every operation has the shape. *)
Lemma exec_shape (m : Z) (c c' : tcpConn) (op : conn_op) (acts : list conn_action) :
  conn_inv c -> op_ok c op -> (forall h l ip, op <> Counted h l ip) -> exec m c op = Ok (c', acts) ->
  ident c' = ident c /\ shape c c' acts.
Proof.
  intros Hi Hok Hnc HE. pose proof Hi as [Hc _].
  destruct op as [seg|ev|n|p total| | | |rd wd|half live ip]; cbn [exec op_ok] in HE, Hok.
  - by apply (handleSegment_shape c c' seg).
  - destruct ev; cbn [timerLoop] in HE.
    + destruct (onRTOFired _ m) as [[c1 acts1]| |] eqn:E; outcome_simpl; [|done..]. injection HE as <- <-.
      assert (Hc1 : core_inv (set_tmr (fired (c_tmr c)) c)).
      { apply set_tmr_inv; [done| |done|done]. destruct (ki_tmr c Hc). by constructor. }
      destruct (onRTOFired_shape _ _ _ _ Hc1 E) as [Hid Hsh]. split; [done|].
      by destruct Hsh; constructor.
    + unfold onAttachmentDetached in HE. revert HE.
      case_bool_decide; outcome_simpl; intros [= <- <-]; (split; [done|]); [by apply sh_stay|].
      apply (sh_close _ _ [] []); by repeat constructor.
    + injection HE as <- <-. split; [done|]. by apply sh_stay.
  - injection HE as <- <-. unfold Read. repeat case_match; (split; [done|]); by apply sh_stay.
  - destruct Hok as [Hs Ht]. destruct (writePass_spec c p total (ki_snd c Hc) Ht)
      as [(res & E & _)|(k & segs & _ & _ & _ & _ & E & _)]; rewrite E in HE; outcome_simpl; injection HE as <- <-;
      (split; [done|]); apply sh_stay; try done. apply sends_plain.
  - injection HE as HE. pose proof (CloseWrite_shape c Hok) as H. by rewrite HE in H.
  - unfold Close in HE. revert HE. case_bool_decide as Hs.
    + intros [= <- <-]. split; [done|]. apply (sh_close _ _ [] []); by repeat constructor.
    + intros HE. injection HE as HE. pose proof (CloseWrite_shape c Hs) as H. by rewrite HE in H.
  - unfold abort in HE. revert HE. case_bool_decide; intros [= <- <-]; (split; [done|]); [by apply sh_stay|].
    apply (sh_close _ _ [] _); by repeat constructor.
  - injection HE as <- <-. split; [done|]. by apply sh_stay.
  - by destruct (Hnc half live ip).
Qed.

(** ** Counting *)

(** The connections of the heap that satisfy [P]. *)
Definition cnt (P : tcpConn -> bool) (h : gmap nat tcpConn) : Z :=
  Z.of_nat (size (filter (fun p => P p.2 = true) h)).
Definition b2z (b : bool) : Z := if b then 1 else 0.

Lemma cnt_insert (P : tcpConn -> bool) (h : gmap nat tcpConn) (id : nat) (c : tcpConn) :
  h !! id = None -> cnt P (<[id := c]> h) = b2z (P c) + cnt P h.
Proof.
  intros Hid. unfold cnt. destruct (P c) eqn:E; cbn [b2z].
  - rewrite map_filter_insert_True by done. rewrite map_size_insert_None; [lia|]. apply map_lookup_filter_None. by left.
  - rewrite map_filter_insert_False by (cbn; by rewrite E). by rewrite delete_id.
Qed.

Lemma cnt_update (P : tcpConn -> bool) (h : gmap nat tcpConn) (id : nat) (c c' : tcpConn) :
  h !! id = Some c -> cnt P (<[id := c']> h) = cnt P h - b2z (P c) + b2z (P c').
Proof.
  intros Hid. rewrite <- insert_delete_eq. rewrite cnt_insert by apply lookup_delete_eq.
  rewrite <- (insert_delete_id h id c) at 2 by done. rewrite cnt_insert by apply lookup_delete_eq. lia.
Qed.

Lemma cnt_nonneg (P : tcpConn -> bool) (h : gmap nat tcpConn) : 0 <= cnt P h.
Proof. unfold cnt. lia. Qed.

Lemma cnt_pos (P : tcpConn -> bool) (h : gmap nat tcpConn) (id : nat) (c : tcpConn) :
  h !! id = Some c -> P c = true -> 1 <= cnt P h.
Proof.
  intros Hid HP. pose proof (cnt_update P h id c c Hid) as H. rewrite <- (insert_delete_id h id c) by done.
  rewrite cnt_insert by apply lookup_delete_eq. rewrite HP. cbn. pose proof (cnt_nonneg P (delete id h)). lia.
Qed.

(** A counter map that counts [f ip] for every client. *)
Record counts (m : gmap bytes Z) (f : bytes -> Z) : Prop := {
  co_value : forall ip, default 0 (m !! ip) = f ip;
  co_pos : forall ip n, m !! ip = Some n -> 1 <= n;
}.

Lemma counts_incr (m : gmap bytes Z) (f g : bytes -> Z) (ip : bytes) :
  counts m f -> g ip = f ip + 1 -> (forall ip', ip' <> ip -> g ip' = f ip') ->
  counts (<[ip := default 0 (m !! ip) + 1]> m) g.
Proof.
  intros [Hv Hp] Hg Ho. constructor; intros ip'; destruct (decide (ip' = ip)) as [->|Hne].
  - rewrite lookup_insert_eq. cbn. rewrite Hv. by rewrite Hg.
  - rewrite lookup_insert_ne by done. by rewrite Hv, Ho.
  - intros n. rewrite lookup_insert_eq. intros [= <-]. destruct (m !! ip) eqn:E; cbn; [apply Hp in E|]; lia.
  - intros n. rewrite lookup_insert_ne by done. apply Hp.
Qed.

Lemma counts_decr (m : gmap bytes Z) (f g : bytes -> Z) (ip : bytes) :
  counts m f -> g ip = f ip - 1 -> 0 <= g ip -> (forall ip', ip' <> ip -> g ip' = f ip') -> counts (decr m ip) g.
Proof.
  intros [Hv Hp] Hg Hnn Ho. pose proof (Hv ip) as Hip. unfold decr. destruct (m !! ip) as [n|] eqn:E; cbn in Hip; [|lia].
  pose proof (Hp ip n E). destruct (Z.leb_spec n 1).
  - constructor; intros ip'; destruct (decide (ip' = ip)) as [->|Hne].
    + rewrite lookup_delete_eq. cbn. lia.
    + rewrite lookup_delete_ne by done. by rewrite Hv, Ho.
    + intros k. by rewrite lookup_delete_eq.
    + intros k. rewrite lookup_delete_ne by done. apply Hp.
  - constructor; intros ip'; destruct (decide (ip' = ip)) as [->|Hne].
    + rewrite lookup_insert_eq. cbn. lia.
    + rewrite lookup_insert_ne by done. by rewrite Hv, Ho.
    + intros k. rewrite lookup_insert_eq. intros [= <-]. lia.
    + intros k. rewrite lookup_insert_ne by done. apply Hp.
Qed.

Lemma counts_ext (m : gmap bytes Z) (f g : bytes -> Z) : counts m f -> (forall ip, g ip = f ip) -> counts m g.
Proof. intros [Hv Hp] H. constructor; [|done]. intros. by rewrite Hv. Qed.

(** ** The invariant of the demultiplexer *)

Definition half_at (ip : bytes) (c : tcpConn) : bool := halfOpenCounted c && bool_decide (halfOpenIP c = ip).
Definition live_at (ip : bytes) (c : tcpConn) : bool := liveCounted c && bool_decide (halfOpenIP c = ip).

Section Invariant.
Context (stk : Stack.Stack).
Abbreviation m := (ourMSS stk).

(** What holds between any two actions. *)
Record flags_inv (d : tcpDemux) : Prop := {
  fi_conn : forall id c, d_cheap d !! id = Some c ->
    reachable m c /\ halfOpenIP c = remoteIP (c_key c) /\ (id < d_next d)%nat;
  fi_table : forall k id, d_conns d !! k = Some id <->
    exists c, d_cheap d !! id = Some c /\ c_key c = k /\ liveCounted c = true;
  fi_half : counts (d_halfOpen d) (fun ip => cnt (half_at ip) (d_cheap d));
  fi_live : counts (d_liveConns d) (fun ip => cnt (live_at ip) (d_cheap d));
  fi_half_max : forall ip, cnt (half_at ip) (d_cheap d) <= maxHalfOpenPerSession;
  fi_live_max : forall ip, cnt (live_at ip) (d_cheap d) <= maxLiveConnsPerSession;
  fi_listeners : forall port l, d_listeners d !! port = Some l ->
    exists lst, d_lheap d !! l = Some lst /\ l_port lst = port /\ l_closed lst = false;
  fi_backlog : forall l lst, d_lheap d !! l = Some lst ->
    (l < d_next d)%nat /\ Z.of_nat (length (l_backlog lst)) <= defaultBacklog /\
    (l_closed lst = true -> l_backlog lst = []);
}.

(** The two flags of a connection say what its state is. *)
Definition flags_true (c : tcpConn) : Prop :=
  halfOpenCounted c = bool_decide (c_state c = stateSynRcvd) /\ liveCounted c = negb (isClosed c).

Definition demux_inv (d : tcpDemux) : Prop :=
  flags_inv d /\ forall id c, d_cheap d !! id = Some c -> flags_true c.

Lemma new_demux_inv : demux_inv newTCPDemux.
Proof.
  split; [|by intros id c H].
  constructor; cbn; try done.
  - intros k id. split; [done|]. by intros (c & H & _).
Qed.

Lemma half_at_ident (c c' : tcpConn) (ip : bytes) : ident c' = ident c -> half_at ip c' = half_at ip c.
Proof. intros [= _ _ _ E1 E2 _]. unfold half_at. by rewrite E1, E2. Qed.
Lemma live_at_ident (c c' : tcpConn) (ip : bytes) : ident c' = ident c -> live_at ip c' = live_at ip c.
Proof. intros [= _ _ _ _ E1 E2]. unfold live_at. by rewrite E1, E2. Qed.

(** A method of connection [id] changes the object. *)
Lemma flags_update (d : tcpDemux) (id : nat) (c c' : tcpConn) :
  flags_inv d -> d_cheap d !! id = Some c -> ident c' = ident c -> reachable m c' ->
  flags_inv (set_cheap (<[id := c']> (d_cheap d)) d).
Proof.
  intros [Hc Ht Hh Hl Hhm Hlm Hli Hb] Hid Hident Hr. pose proof Hident as [= Ek Ea El Ehc Eip Elc].
  assert (E1 : forall ip, cnt (half_at ip) (<[id := c']> (d_cheap d)) = cnt (half_at ip) (d_cheap d)).
  { intros ip. rewrite (cnt_update _ _ _ c) by done. rewrite (half_at_ident c c') by done. lia. }
  assert (E2 : forall ip, cnt (live_at ip) (<[id := c']> (d_cheap d)) = cnt (live_at ip) (d_cheap d)).
  { intros ip. rewrite (cnt_update _ _ _ c) by done. rewrite (live_at_ident c c') by done. lia. }
  constructor; cbn; try done.
  - intros id' c1. destruct (decide (id' = id)) as [->|Hne].
    + rewrite lookup_insert_eq. intros [= <-]. rewrite Ek, Eip. destruct (Hc id c Hid) as (_ & ? & ?). done.
    + rewrite lookup_insert_ne by done. apply Hc.
  - intros k id'. rewrite Ht. destruct (decide (id' = id)) as [->|Hne].
    + rewrite lookup_insert_eq, Hid. split.
      * intros (x & [= <-] & H1 & H2). exists c'. by rewrite Ek, Elc.
      * intros (x & [= <-] & H1 & H2). exists c. by rewrite <- Ek, <- Elc.
    + by rewrite lookup_insert_ne by done.
  - by apply (counts_ext _ _ _ Hh).
  - by apply (counts_ext _ _ _ Hl).
  - intros ip. by rewrite E1.
  - intros ip. by rewrite E2.
Qed.

Lemma set_counted_reachable (c : tcpConn) (h l : bool) : reachable m c -> reachable m (set_counted h l c).
Proof.
  intros Hr. apply (reach_step m c _ (Counted h l (halfOpenIP c)) []); [done|done|]. cbn [exec]. by destruct c.
Qed.

(** Counts when the flags of [id] are lowered. *)
Lemma cnt_lower (P : bytes -> tcpConn -> bool) (d : tcpDemux) (id : nat) (c c' : tcpConn) (mp : gmap bytes Z) (b : bool) :
  d_cheap d !! id = Some c -> counts mp (fun ip => cnt (P ip) (d_cheap d)) ->
  (forall ip, P ip c = b && bool_decide (halfOpenIP c = ip)) -> (forall ip, P ip c' = false) ->
  counts (if b then decr mp (halfOpenIP c) else mp) (fun ip => cnt (P ip) (<[id := c']> (d_cheap d))).
Proof.
  intros Hid Hcn HP HP'. destruct b; cbn [andb] in HP.
  - apply (counts_decr _ _ _ _ Hcn).
    + rewrite (cnt_update _ _ _ c) by done. rewrite HP, HP', bool_decide_eq_true_2 by done. cbn. lia.
    + apply cnt_nonneg.
    + intros ip' Hne. rewrite (cnt_update _ _ _ c) by done. rewrite HP, HP', bool_decide_eq_false_2 by done. cbn. lia.
  - apply (counts_ext _ _ _ Hcn). intros ip. rewrite (cnt_update _ _ _ c) by done. rewrite HP, HP'. cbn. lia.
Qed.

Lemma cnt_lower_le (P : tcpConn -> bool) (h : gmap nat tcpConn) (id : nat) (c c' : tcpConn) :
  h !! id = Some c -> P c' = false -> cnt P (<[id := c']> h) <= cnt P h.
Proof. intros Hid HP. rewrite (cnt_update _ _ _ c) by done. rewrite HP. unfold b2z. destruct (P c); lia. Qed.

(** The lowered flags of [id], whatever else the step does to the table. *)
Lemma flags_lower (d d' : tcpDemux) (id : nat) (c c' : tcpConn) :
  flags_inv d -> d_cheap d !! id = Some c -> c_key c' = c_key c -> halfOpenIP c' = halfOpenIP c -> reachable m c' ->
  halfOpenCounted c' = false -> (liveCounted c' = true -> liveCounted c = true) ->
  d_cheap d' = <[id := c']> (d_cheap d) -> d_next d' = d_next d -> d_lheap d' = d_lheap d ->
  d_listeners d' = d_listeners d ->
  d_halfOpen d' = (if halfOpenCounted c then decr (d_halfOpen d) (halfOpenIP c) else d_halfOpen d) ->
  counts (d_liveConns d') (fun ip => cnt (live_at ip) (<[id := c']> (d_cheap d))) ->
  (forall k i, d_conns d' !! k = Some i <-> d_conns d !! k = Some i /\ (i = id -> liveCounted c' = true)) ->
  flags_inv d'.
Proof.
  intros [Hc Ht Hh Hl Hhm Hlm Hli Hb] Hid Ek Eip Hr Hhf Hlv Ech En Elh Els Eho Hlc Hconns.
  constructor; rewrite ?Ech, ?En, ?Elh, ?Els; try done.
  - intros i x. destruct (decide (i = id)) as [->|Hne].
    + rewrite lookup_insert_eq. intros [= <-]. rewrite Ek, Eip. destruct (Hc id c Hid) as (_ & ? & ?). done.
    + rewrite lookup_insert_ne by done. apply Hc.
  - intros k i. rewrite Hconns, Ht. destruct (decide (i = id)) as [->|Hne].
    + rewrite lookup_insert_eq, Hid. split.
      * intros [(x & [= <-] & H1 & H2) H3]. exists c'. split_and!; [done|congruence|by apply H3].
      * intros (x & [= <-] & H1 & H2). split; [|done]. exists c. split_and!; [done|congruence|by apply Hlv].
    + rewrite lookup_insert_ne by done. split; [by intros [? _]|]. intros H. by split.
  - rewrite Eho. apply cnt_lower; [done|done|done|]. intros ip. unfold half_at. by rewrite Hhf.
  - intros ip. etrans; [apply (cnt_lower_le _ _ _ c); [done|]|apply Hhm]. unfold half_at. by rewrite Hhf.
  - intros ip. rewrite (cnt_update _ _ _ c) by done. pose proof (Hlm ip).
    assert (b2z (live_at ip c') <= b2z (live_at ip c)); [|lia]. unfold live_at. rewrite Eip.
    destruct (liveCounted c') eqn:E; [by rewrite Hlv by done|]. cbn. by destruct (_ && _).
Qed.

Lemma releaseHalfOpen_flags (d : tcpDemux) (id : nat) (c : tcpConn) :
  flags_inv d -> d_cheap d !! id = Some c ->
  flags_inv (releaseHalfOpen d id) /\
  d_cheap (releaseHalfOpen d id) = <[id := set_counted false (liveCounted c) c]> (d_cheap d).
Proof.
  intros Hf Hid. unfold releaseHalfOpen. rewrite Hid. split; [|by destruct (halfOpenCounted c)].
  pose proof (fi_conn d Hf id c Hid) as (Hr & _). pose proof (set_counted_reachable c false (liveCounted c) Hr) as Hr'.
  apply (flags_lower d _ id c (set_counted false (liveCounted c) c)); try done; try (by destruct (halfOpenCounted c)).
  - assert (E : forall ip, cnt (live_at ip) (<[id := set_counted false (liveCounted c) c]> (d_cheap d)) =
      cnt (live_at ip) (d_cheap d)) by (intros ip; rewrite (cnt_update _ _ _ c) by done; unfold live_at; cbn; lia).
    destruct (halfOpenCounted c); cbn; exact (counts_ext _ _ _ (fi_live d Hf) E).
  - intros k i. destruct (halfOpenCounted c); cbn; (split; [|by intros [? _]]); intros H; (split; [done|]); intros ->.
    all: apply (fi_table d Hf) in H as (x & Hx & _ & H2); rewrite Hid in Hx; by injection Hx as <-.
Qed.

Lemma table_delete (d : tcpDemux) (id : nat) (c : tcpConn) :
  flags_inv d -> d_cheap d !! id = Some c -> forall k i,
  (if bool_decide (d_conns d !! c_key c = Some id) then delete (c_key c) (d_conns d) else d_conns d) !! k = Some i <->
  d_conns d !! k = Some i /\ (i = id -> false = true).
Proof.
  intros Hf Hid k i.
  assert (Hk : d_conns d !! k = Some id -> k = c_key c).
  { intros (x & Hx & <- & _)%(fi_table d Hf). by rewrite Hid in Hx; injection Hx as <-. }
  case_bool_decide as Hb.
  - destruct (decide (k = c_key c)) as [->|Hne].
    + rewrite lookup_delete_eq. split; [done|]. intros [H Hi]. rewrite Hb in H. injection H as <-. by specialize (Hi eq_refl).
    + rewrite lookup_delete_ne by done. split; [|by intros [? _]]. intros H. split; [done|]. intros ->. by apply Hk in H.
  - split; [|by intros [? _]]. intros H. split; [done|]. intros ->. pose proof (Hk H) as ->. done.
Qed.

Lemma removeConn_eq (d : tcpDemux) (id : nat) (c : tcpConn) :
  d_cheap d !! id = Some c ->
  removeConn d id = mkDemux (d_listeners d)
    (if bool_decide (d_conns d !! c_key c = Some id) then delete (c_key c) (d_conns d) else d_conns d)
    (if halfOpenCounted c then decr (d_halfOpen d) (halfOpenIP c) else d_halfOpen d)
    (if liveCounted c then decr (d_liveConns d) (halfOpenIP c) else d_liveConns d)
    (d_stats d) (d_lheap d) (<[id := set_counted false false c]> (d_cheap d)) (d_next d).
Proof.
  intros Hid. unfold removeConn. rewrite Hid.
  case_bool_decide; unfold releaseHalfOpen; cbn; rewrite Hid; destruct (halfOpenCounted c); unfold releaseLiveConn; cbn;
    rewrite lookup_insert_eq; cbn; destruct (liveCounted c); cbn; unfold set_cheap, set_counts; cbn;
    by rewrite insert_insert_eq.
Qed.

Lemma removeConn_flags (d : tcpDemux) (id : nat) (c : tcpConn) :
  flags_inv d -> d_cheap d !! id = Some c ->
  flags_inv (removeConn d id) /\ d_cheap (removeConn d id) = <[id := set_counted false false c]> (d_cheap d).
Proof.
  intros Hf Hid. pose proof (fi_conn d Hf id c Hid) as (Hr & _). rewrite (removeConn_eq d id c Hid). split; [|done].
  apply (flags_lower d _ id c (set_counted false false c)); try done.
  - by apply set_counted_reachable.
  - by apply cnt_lower; [| apply (fi_live d Hf)|..].
  - intros k i. by apply table_delete.
Qed.

(** ** Transactions *)

Lemma count_flags (d : tcpDemux) (x : tcp_counter) : flags_inv d -> flags_inv (count x d).
Proof. by intros []. Qed.

(** Plain actions touch only the counters of the statistics. *)
Lemma plain_flags (d : tcpDemux) (id : nat) (acts : list conn_action) (f : tcpDemux -> nat -> conn_action -> tcpDemux * list out) :
  (forall d id act, plain act = true -> f d id act = applyBasic stk d id act) ->
  all_plain acts -> flags_inv d ->
  flags_inv (applyAll f d id acts).1 /\ d_cheap (applyAll f d id acts).1 = d_cheap d.
Proof.
  intros Hfeq Hp. revert d. induction Hp as [|act acts Ha Hp IH]; intros d Hf; [done|]. cbn [applyAll].
  rewrite Hfeq by done. destruct (applyBasic stk d id act) as [d1 o1] eqn:E.
  assert (H1 : flags_inv d1 /\ d_cheap d1 = d_cheap d).
  { destruct act; try done; cbn [applyBasic] in E; try (injection E as <- <-; by split; [apply count_flags|]).
    destruct (d_cheap d !! id); by injection E as <- <-. }
  destruct H1 as [H1 H2]. destruct (IH d1 H1) as [H3 H4].
  destruct (applyAll f d1 id acts) as [d2 o2]. cbn in *. by rewrite H4.
Qed.

Lemma applyAll_app (f : tcpDemux -> nat -> conn_action -> tcpDemux * list out) (d : tcpDemux) (id : nat)
    (a1 a2 : list conn_action) :
  (applyAll f d id (a1 ++ a2)).1 = (applyAll f (applyAll f d id a1).1 id a2).1.
Proof.
  revert d. induction a1 as [|act a1 IH]; intros d; [done|]. cbn [app applyAll].
  destruct (f d id act) as [d1 o1]. specialize (IH d1).
  destruct (applyAll f d1 id (a1 ++ a2)) as [d2 o2]. cbn in IH |- *.
  destruct (applyAll f d1 id a1) as [d3 o3]. done.
Qed.

Lemma applyAll_cons (f : tcpDemux -> nat -> conn_action -> tcpDemux * list out) (d : tcpDemux) (id : nat)
    (act : conn_action) (acts : list conn_action) :
  (applyAll f d id (act :: acts)).1 = (applyAll f (f d id act).1 id acts).1.
Proof. cbn [applyAll]. destruct (f d id act) as [d1 o1]. cbn. by destruct (applyAll f d1 id acts). Qed.

(** Everybody else's flags are right. *)
Definition others_true (d : tcpDemux) (id : nat) : Prop :=
  forall i c, i <> id -> d_cheap d !! i = Some c -> flags_true c.

Lemma demux_inv_of (d : tcpDemux) (id : nat) (c : tcpConn) :
  flags_inv d -> others_true d id -> d_cheap d !! id = Some c -> flags_true c -> demux_inv d.
Proof.
  intros Hf Ho Hid Ht. split; [done|]. intros i x Hx. destruct (decide (i = id)) as [->|Hne]; [|by eapply Ho].
  rewrite Hid in Hx. by injection Hx as <-.
Qed.

(** The connection has closed: plain actions, the removal, plain actions. *)
Lemma close_transaction (f : tcpDemux -> nat -> conn_action -> tcpDemux * list out) (d : tcpDemux) (id : nat)
    (c : tcpConn) (a1 a2 : list conn_action) :
  (forall d id act, plain act = true \/ act = RemoveConn -> f d id act = applyBasic stk d id act) ->
  flags_inv d -> others_true d id -> d_cheap d !! id = Some c -> c_state c = stateClosed ->
  all_plain a1 -> all_plain a2 -> demux_inv (applyAll f d id (a1 ++ RemoveConn :: a2)).1.
Proof.
  intros Hfeq Hf Ho Hid Hst H1 H2. rewrite applyAll_app, applyAll_cons.
  destruct (plain_flags d id a1 f ltac:(auto) H1 Hf) as [Hf1 E1]. set (d1 := (applyAll f d id a1).1) in *.
  rewrite Hfeq by auto. cbn [applyBasic fst]. rewrite <- E1 in Hid.
  destruct (removeConn_flags d1 id c Hf1 Hid) as [Hf2 E2].
  destruct (plain_flags _ id a2 f ltac:(auto) H2 Hf2) as [Hf3 E3].
  apply (demux_inv_of _ id (set_counted false false c)); [done| | |].
  - intros i x Hne. rewrite E3, E2, lookup_insert_ne by done. rewrite E1. by apply Ho.
  - by rewrite E3, E2, lookup_insert_eq.
  - unfold flags_true, isClosed. cbn. by rewrite Hst.
Qed.

(** After a method of [id]: the flags still agree, everybody else is untouched. *)
Lemma method_start (d : tcpDemux) (id : nat) (c c' : tcpConn) :
  demux_inv d -> d_cheap d !! id = Some c -> ident c' = ident c -> reachable m c' ->
  let d1 := set_cheap (<[id := c']> (d_cheap d)) d in
  flags_inv d1 /\ others_true d1 id /\ d_cheap d1 !! id = Some c'.
Proof.
  intros [Hf Ht] Hid Hident Hr d1. split_and!.
  - by apply (flags_update d id c c').
  - intros i x Hne. unfold d1. cbn. rewrite lookup_insert_ne by done. apply Ht.
  - unfold d1. cbn. by rewrite lookup_insert_eq.
Qed.

Lemma abortConn_inv (d : tcpDemux) (id : nat) : demux_inv d -> demux_inv (abortConn stk d id).1.
Proof.
  intros Hi. unfold abortConn. destruct (d_cheap d !! id) as [c|] eqn:Hid; [|done].
  pose proof (fi_conn d (proj1 Hi) id c Hid) as (Hr & _).
  assert (Hr' : reachable m (abort c).1).
  { apply (reach_step m c _ AbortOp (abort c).2); [done|done|]. cbn [exec]. by rewrite <- surjective_pairing. }
  revert Hr'. unfold abort. case_bool_decide as Hcl.
  - intros _. cbn [applyAll fst]. rewrite insert_id by done. by destruct d.
  - intros Hr'. destruct (method_start d id c (resetConn c).1 Hi Hid eq_refl Hr') as (H1 & H2 & H3).
    apply (close_transaction (applyBasic stk) _ id (resetConn c).1 [] [Send (abortRST c); CountRstSent]);
      [done|exact H1|exact H2|exact H3|done|done|by repeat constructor].
Qed.

Lemma lheap_inv (d : tcpDemux) (l : nat) (lst lst' : tcpListener) :
  demux_inv d -> d_lheap d !! l = Some lst -> l_port lst' = l_port lst -> l_closed lst' = l_closed lst ->
  Z.of_nat (length (l_backlog lst')) <= defaultBacklog -> (l_closed lst' = true -> l_backlog lst' = []) ->
  demux_inv (set_lheap (<[l := lst']> (d_lheap d)) d).
Proof.
  intros [[Hc Ht Hh Hl Hhm Hlm Hli Hb] Htr] Hl0 Ep Ec Hlen Hcl. split; [|done]. constructor; cbn; try done.
  - intros port l' H. destruct (Hli port l' H) as (x & Hx & H1 & H2). destruct (decide (l' = l)) as [->|Hne].
    + exists lst'. rewrite lookup_insert_eq. rewrite Hl0 in Hx. injection Hx as <-. split_and!; congruence.
    + exists x. by rewrite lookup_insert_ne.
  - intros l' x. destruct (decide (l' = l)) as [->|Hne].
    + rewrite lookup_insert_eq. intros [= <-]. destruct (Hb l lst Hl0) as (? & _). done.
    + rewrite lookup_insert_ne by done. apply Hb.
Qed.

Lemma enqueue_inv (d : tcpDemux) (l id : nat) : demux_inv d -> demux_inv (enqueue stk d l id).1.
Proof.
  intros Hi. unfold enqueue. destruct (d_lheap d !! l) as [lst|] eqn:El; [|done].
  destruct (l_closed lst) eqn:Ec; [by apply abortConn_inv|].
  destruct (Z.ltb_spec (Z.of_nat (length (l_backlog lst))) defaultBacklog) as [Hlt|Hge].
  - cbn [fst]. apply (lheap_inv d l lst); [done|done|done|done| |done]. cbn. rewrite length_app. cbn. lia.
  - pose proof (abortConn_inv d id Hi) as H. destruct (abortConn stk d id) as [d1 o]. cbn in *.
    destruct H as [H1 H2]. split; [by apply count_flags|done].
Qed.

Lemma apply_basic (d : tcpDemux) (id : nat) (act : conn_action) : act <> Enqueue -> apply stk d id act = applyBasic stk d id act.
Proof. intros H. unfold apply. by destruct act. Qed.

(** The handshake is complete: the half-open count is released, the connection is
    offered to its listener. *)
Lemma establish_transaction (d : tcpDemux) (id : nat) (c : tcpConn) (a1 a2 : list conn_action) :
  flags_inv d -> others_true d id -> d_cheap d !! id = Some c -> c_state c = stateEstablished -> liveCounted c = true ->
  all_plain a1 -> all_plain a2 -> demux_inv (applyAll (apply stk) d id (a1 ++ ReleaseHalfOpen :: Enqueue :: a2)).1.
Proof.
  intros Hf Ho Hid Hst Hl H1 H2. rewrite applyAll_app, !applyAll_cons.
  assert (Hpl : forall d id act, plain act = true -> apply stk d id act = applyBasic stk d id act)
    by (intros ? ? [] ?; try done).
  destruct (plain_flags d id a1 (apply stk) Hpl H1 Hf) as [Hf1 E1]. set (d1 := (applyAll (apply stk) d id a1).1) in *.
  rewrite (apply_basic d1) by done. cbn [applyBasic fst]. rewrite <- E1 in Hid.
  destruct (releaseHalfOpen_flags d1 id c Hf1 Hid) as [Hf2 E2]. set (d2 := releaseHalfOpen d1 id) in *.
  assert (Hi2 : demux_inv d2).
  { apply (demux_inv_of _ id (set_counted false (liveCounted c) c)); [done| | |].
    - intros i x Hne. rewrite E2, lookup_insert_ne by done. rewrite E1. by apply Ho.
    - by rewrite E2, lookup_insert_eq.
    - unfold flags_true, isClosed. cbn. by rewrite Hst, Hl. }
  assert (Hi3 : demux_inv (apply stk d2 id Enqueue).1).
  { unfold apply. destruct (d_cheap d2 !! id); [by apply enqueue_inv|done]. }
  destruct (plain_flags _ id a2 (apply stk) Hpl H2 (proj1 Hi3)) as [Hf4 E4]. split; [done|].
  intros i x. rewrite E4. apply Hi3.
Qed.

(** Any method of any connection keeps the invariant. *)
Lemma connOp_inv (d : tcpDemux) (id : nat) (op : conn_op) :
  demux_inv d -> (forall c, d_cheap d !! id = Some c -> op_ok c op) -> (forall h l ip, op <> Counted h l ip) ->
  exists d' o, connOp stk d id op = Ok (d', o) /\ demux_inv d'.
Proof.
  intros Hi Hok Hnc. unfold connOp. destruct (d_cheap d !! id) as [c|] eqn:Hid; [|by exists d, []].
  pose proof (fi_conn d (proj1 Hi) id c Hid) as (Hr & _). pose proof (conn_reachable_inv _ _ Hr) as Hci.
  destruct (exec_ok m c op Hci (Hok c eq_refl)) as (c' & acts & HE & _). rewrite HE. outcome_simpl.
  eexists _, _. split; [apply f_equal, surjective_pairing|].
  destruct (exec_shape m c c' op acts Hci (Hok c eq_refl) Hnc HE) as [Hident Hsh].
  assert (Hr' : reachable m c') by (by eapply reach_step; [|apply (Hok c eq_refl)|]).
  destruct (method_start d id c c' Hi Hid Hident Hr') as (H1 & H2 & H3).
  pose proof (proj2 Hi id c Hid) as [Hth Htl]. pose proof Hident as [= _ _ _ Ehc _ Elc].
  assert (Hpl : forall d id act, plain act = true -> apply stk d id act = applyBasic stk d id act)
    by (intros ? ? [] ?; try done).
  destruct Hsh as [acts Hp Hc1 Hc2|a1 a2 Hp1 Hp2 Hc|a1 a2 Hp1 Hp2 Hs Hs'].
  - destruct (plain_flags _ id acts (apply stk) Hpl Hp H1) as [Hf E].
    apply (demux_inv_of _ id c'); [done| |by rewrite E|].
    + intros i x Hne. rewrite E. by apply H2.
    + unfold flags_true, isClosed in *. rewrite Ehc, Elc, Hth, Htl. split; [|f_equal]; by apply bool_decide_ext.
  - apply (close_transaction (apply stk) _ id c'); try done. intros ? ? ? [?| ->]; [by apply Hpl|done].
  - apply (establish_transaction _ id c'); try done. rewrite Elc, Htl. unfold isClosed. by rewrite Hs.
Qed.

(** ** New connections and listeners *)

Lemma cnt_new (P : bytes -> tcpConn -> bool) (d : tcpDemux) (c : tcpConn) (ip : bytes) :
  d_cheap d !! d_next d = None -> (forall x, P x c = bool_decide (ip = x)) ->
  cnt (P ip) (<[d_next d := c]> (d_cheap d)) = cnt (P ip) (d_cheap d) + 1 /\
  forall ip', ip' <> ip -> cnt (P ip') (<[d_next d := c]> (d_cheap d)) = cnt (P ip') (d_cheap d).
Proof.
  intros Hn HP. split.
  - rewrite cnt_insert by done. rewrite HP, bool_decide_eq_true_2 by done. cbn. lia.
  - intros ip' Hne. rewrite cnt_insert by done. rewrite HP, bool_decide_eq_false_2 by congruence. cbn. lia.
Qed.

Lemma next_fresh (d : tcpDemux) : flags_inv d -> d_cheap d !! d_next d = None.
Proof.
  intros Hf. destruct (d_cheap d !! d_next d) as [c|] eqn:E; [|done]. destruct (fi_conn d Hf _ _ E) as (_ & _ & ?). lia.
Qed.

(** A registered half-open connection is added within both limits. *)
Lemma register_inv (d : tcpDemux) (c : tcpConn) (ip : bytes) :
  demux_inv d -> reachable m c -> c_state c = stateSynRcvd -> halfOpenCounted c = true -> liveCounted c = true ->
  halfOpenIP c = ip -> remoteIP (c_key c) = ip -> d_conns d !! c_key c = None ->
  cnt (half_at ip) (d_cheap d) < maxHalfOpenPerSession -> cnt (live_at ip) (d_cheap d) < maxLiveConnsPerSession ->
  demux_inv (set_next (S (d_next d)) (set_conns (<[c_key c := d_next d]> (d_conns d))
    (set_cheap (<[d_next d := c]> (d_cheap d))
      (set_counts (<[ip := default 0 (d_halfOpen d !! ip) + 1]> (d_halfOpen d))
                  (<[ip := default 0 (d_liveConns d !! ip) + 1]> (d_liveConns d)) d)))).
Proof.
  intros [Hf Ht] Hr Hst Hhc Hlc Hip Hrem Hkey Hh Hl. pose proof (next_fresh d Hf) as Hn.
  destruct (cnt_new half_at d c ip Hn) as [Eh1 Eh2]. { intros x. unfold half_at. by rewrite Hhc, Hip. }
  destruct (cnt_new live_at d c ip Hn) as [El1 El2]. { intros x. unfold live_at. by rewrite Hlc, Hip. }
  destruct Hf as [Fc Ft Fh Fl Fhm Flm Fli Fb]. split.
  2:{ intros i x. cbn. destruct (decide (i = d_next d)) as [->|Hne].
      - rewrite lookup_insert_eq. intros [= <-]. unfold flags_true, isClosed. by rewrite Hhc, Hlc, Hst.
      - rewrite lookup_insert_ne by done. apply Ht. }
  constructor; cbn.
  - intros i x. destruct (decide (i = d_next d)) as [->|Hne].
    + rewrite lookup_insert_eq. intros [= <-]. split_and!; [done|congruence|lia].
    + rewrite lookup_insert_ne by done. intros (? & ? & ?)%Fc. split_and!; [done|done|lia].
  - intros k i. destruct (decide (k = c_key c)) as [->|Hk].
    + rewrite lookup_insert_eq. split.
      * intros [= <-]. exists c. by rewrite lookup_insert_eq.
      * intros (x & Hx & H1 & H2). destruct (decide (i = d_next d)) as [->|Hne]; [done|]. exfalso.
        rewrite lookup_insert_ne in Hx by done.
        assert (d_conns d !! c_key c = Some i) as E by (apply Ft; eauto). by rewrite Hkey in E.
    + rewrite lookup_insert_ne by done. rewrite Ft. destruct (decide (i = d_next d)) as [->|Hne].
      * rewrite lookup_insert_eq, Hn. split; [by intros (x & ? & _)|]. intros (x & [= <-] & H1 & _). done.
      * by rewrite lookup_insert_ne.
  - by apply (counts_incr _ _ _ _ Fh).
  - by apply (counts_incr _ _ _ _ Fl).
  - intros ip'. destruct (decide (ip' = ip)) as [->|Hne]; [rewrite Eh1; lia|rewrite Eh2 by done; apply Fhm].
  - intros ip'. destruct (decide (ip' = ip)) as [->|Hne]; [rewrite El1; lia|rewrite El2 by done; apply Flm].
  - done.
  - intros l lst H. destruct (Fb l lst H) as (? & ? & ?). split_and!; [lia|done|done].
Qed.

Lemma handleSYN_inv (d : tcpDemux) (l a : nat) (ip : bytes) (seg : tcpSegment) (isn : Z) :
  demux_inv d -> seg_range seg -> is_u16 (mss seg) -> is_u32 isn ->
  d_conns d !! mkFourTuple ip (srcPort seg) (dstPort seg) = None -> demux_inv (handleSYN stk d l a ip seg isn).1.
Proof.
  intros Hi Hr Hm Hisn Hnone. unfold handleSYN. destruct (d_lheap d !! l) as [lst|]; [|done].
  destruct (l_closed lst); [done|].
  assert (Hcount : forall x, demux_inv (count x d)) by (intros x; destruct Hi; split; [by apply count_flags|done]).
  rewrite (co_value _ _ (fi_half d (proj1 Hi))), (co_value _ _ (fi_live d (proj1 Hi))).
  destruct (Z.leb_spec maxHalfOpenPerSession (cnt (half_at ip) (d_cheap d))) as [|Hh]; [apply Hcount|].
  destruct (Z.leb_spec maxLiveConnsPerSession (cnt (live_at ip) (d_cheap d))) as [|Hl]; [apply Hcount|].
  rewrite <- (co_value _ _ (fi_half d (proj1 Hi)) ip), <- (co_value _ _ (fi_live d (proj1 Hi)) ip).
  cbn [fst]. set (mv := if hasMSS seg then _ else _).
  assert (Hmv : is_u16 mv).
  { unfold mv. destruct (hasMSS seg); [|decide_now]. destruct (_ <? _); [|done].
    unfold ourMSS, Stack.maxSegmentSize. apply u16_range. }
  set (c := newTCPConn l a _ isn _ _ mv).
  apply (register_inv d (set_counted true true (set_halfOpenIP ip c)) ip); try done.
  apply (reach_step _ c _ (Counted true true ip) []); [|done|done].
  apply reach_new; [done| |done]. by destruct Hr as [_ _ [_ ?] _].
Qed.

Lemma handlePacket_inv (d : tcpDemux) (a : nat) (src dst payload : bytes) (isn : Z) :
  demux_inv d -> bytes_ok payload -> zlen payload <= 65535 -> is_u32 isn ->
  exists d' o, handlePacket stk d a src dst payload isn = Ok (d', o) /\ demux_inv d'.
Proof.
  intros Hi Hok Hlen Hisn. unfold handlePacket. pose proof (parseTCP_decides payload Hok) as HD.
  destruct (parseTCP payload) as [seg|e|] eqn:EP; [|by exists d, [CountMalformed]|done]. clear HD.
  destruct (parseTCP_ok payload seg Hok EP) as (Hr & Hm & Hl).
  assert (Hrst : exists d' o, Ok (E := tcp_error) (sendRST d a dst src seg) = Ok (d', o) /\ demux_inv d').
  { eexists _, _. split; [done|]. destruct Hi. split; [by apply count_flags|done]. }
  destruct (d_conns d !! _) as [id|] eqn:Ek.
  { apply connOp_inv; [done| |done]. intros c _. split; [done|lia]. }
  destruct (has_flag (flags seg) flagRST); [by exists d, []|].
  destruct (has_flag (flags seg) flagSYN && _); [|exact Hrst].
  destruct (d_listeners d !! dstPort seg) as [l|]; [|exact Hrst].
  eexists _, _. split; [apply f_equal, surjective_pairing|]. by apply handleSYN_inv.
Qed.

Lemma listen_inv (d : tcpDemux) (port : Z) : demux_inv d -> demux_inv (listen d port).2.
Proof.
  intros [Hf Ht]. unfold listen. destruct (d_listeners d !! port) as [l0|] eqn:El; [done|]. split; [|done].
  destruct Hf as [Fc Ft Fh Fl Fhm Flm Fli Fb].
  assert (Hn : d_lheap d !! d_next d = None).
  { destruct (d_lheap d !! d_next d) as [x|] eqn:E; [|done]. destruct (Fb _ _ E) as (? & _). lia. }
  constructor; cbn; try done.
  - intros i c H. destruct (Fc i c H) as (? & ? & ?). split_and!; [done|done|lia].
  - intros p l. destruct (decide (p = port)) as [->|Hne].
    + rewrite lookup_insert_eq. intros [= <-]. eexists. by rewrite lookup_insert_eq.
    + rewrite lookup_insert_ne by done. intros H. destruct (Fli p l H) as (x & Hx & ?). exists x.
      rewrite lookup_insert_ne; [done|]. intros <-. by rewrite Hn in Hx.
  - intros l x. destruct (decide (l = d_next d)) as [->|Hne].
    + rewrite lookup_insert_eq. intros [= <-]. cbn. by split_and!; [lia| |].
    + rewrite lookup_insert_ne by done. intros H. destruct (Fb l x H) as (? & ? & ?). split_and!; [lia|done|done].
Qed.

Lemma Accept_inv (d : tcpDemux) (l : nat) (cf : bool) : demux_inv d -> demux_inv (Accept d l cf).2.
Proof.
  intros Hi. unfold Accept. destruct (d_lheap d !! l) as [lst|] eqn:El; [|done].
  pose proof (fi_backlog d (proj1 Hi) l lst El) as (_ & Hb & Hc).
  destruct (l_backlog lst) as [|id rest] eqn:Eb; [by destruct (l_closed lst)|].
  destruct (l_closed lst) eqn:Ecl; [by specialize (Hc eq_refl)|]. cbn [andb snd].
  apply (lheap_inv d l lst); try done. cbn in *. lia.
Qed.

Lemma abortAll_inv (ids : list nat) (d : tcpDemux) : demux_inv d -> demux_inv (abortAll stk d ids).1.
Proof.
  revert d. induction ids as [|id ids IH]; intros d Hi; [done|]. cbn [abortAll].
  pose proof (abortConn_inv d id Hi) as H1. destruct (abortConn stk d id) as [d1 o1]. cbn in H1.
  specialize (IH d1 H1). by destruct (abortAll stk d1 ids).
Qed.

Lemma CloseListener_inv (d : tcpDemux) (l : nat) : demux_inv d -> demux_inv (CloseListener stk d l).1.
Proof.
  intros [Hf Ht]. unfold CloseListener. destruct (d_lheap d !! l) as [lst|] eqn:El; [|done].
  destruct (l_closed lst) eqn:Ecl; [done|]. apply abortAll_inv. split; [|done].
  destruct Hf as [Fc Ft Fh Fl Fhm Flm Fli Fb]. constructor; cbn; try done.
  - intros port l'. destruct (decide (port = l_port lst)) as [->|Hne]; [by rewrite lookup_delete_eq|].
    rewrite lookup_delete_ne by done. intros H. destruct (Fli port l' H) as (x & Hx & H1 & H2). exists x.
    rewrite lookup_insert_ne; [done|]. intros <-. rewrite El in Hx. injection Hx as <-. done.
  - intros l' x. destruct (decide (l' = l)) as [->|Hne].
    + rewrite lookup_insert_eq. intros [= <-]. destruct (Fb l lst El) as (? & _). done.
    + rewrite lookup_insert_ne by done. apply Fb.
Qed.

(** ** Reachable states *)

Inductive demux_event :=
  | EListen (port : Z)
  | EPacket (a : nat) (src dst payload : bytes) (isn : Z)
  | EConn (id : nat) (op : conn_op)         (* a timer event or a call of the application *)
  | EAccept (l : nat) (closeFirst : bool)
  | ECloseListener (l : nat).

Definition demux_exec (d : tcpDemux) (ev : demux_event) : outcome tcp_error (tcpDemux * list out) :=
  match ev with
  | EListen port => Ok ((listen d port).2, [])
  | EPacket a src dst payload isn => handlePacket stk d a src dst payload isn
  | EConn id op => connOp stk d id op
  | EAccept l cf => Ok ((Accept d l cf).2, [])
  | ECloseListener l => Ok (CloseListener stk d l)
  end.

Definition event_ok (d : tcpDemux) (ev : demux_event) : Prop :=
  match ev with
  | EPacket a src dst payload isn => bytes_ok payload /\ zlen payload <= 65535 /\ is_u32 isn
  | EConn id op => (forall c, d_cheap d !! id = Some c -> op_ok c op) /\ forall h l ip, op <> Counted h l ip
  | _ => True
  end.

Inductive demux_reachable : tcpDemux -> Prop :=
  | dr_new : demux_reachable newTCPDemux
  | dr_step (d d' : tcpDemux) (ev : demux_event) (o : list out) :
      demux_reachable d -> event_ok d ev -> demux_exec d ev = Ok (d', o) -> demux_reachable d'.

Lemma demux_exec_ok (d : tcpDemux) (ev : demux_event) :
  demux_inv d -> event_ok d ev -> exists d' o, demux_exec d ev = Ok (d', o) /\ demux_inv d'.
Proof.
  intros Hi. destruct ev as [port|a src dst payload isn|id op|l cf|l]; cbn [demux_exec event_ok].
  - intros _. eexists _, _. split; [done|]. by apply listen_inv.
  - intros (H1 & H2 & H3). by apply handlePacket_inv.
  - intros (H1 & H2). by apply connOp_inv.
  - intros _. eexists _, _. split; [done|]. by apply Accept_inv.
  - intros _. eexists _, _. split; [apply f_equal, surjective_pairing|]. by apply CloseListener_inv.
Qed.

Lemma demux_reachable_inv (d : tcpDemux) : demux_reachable d -> demux_inv d.
Proof.
  induction 1 as [|d d' ev o _ IH Hok HE]; [apply new_demux_inv|].
  destruct (demux_exec_ok d ev IH Hok) as (d1 & o1 & HE1 & Hi). rewrite HE in HE1. by injection HE1 as <- <-.
Qed.

End Invariant.

Lemma cnt_ext (P Q : tcpConn -> bool) (h : gmap nat tcpConn) :
  (forall id c, h !! id = Some c -> P c = Q c) -> cnt P h = cnt Q h.
Proof.
  intros H. unfold cnt. f_equal. f_equal. apply map_filter_ext. intros id c Hc. cbn. by rewrite (H id c Hc).
Qed.

(** The connections of client [ip] that are half-open, and those not closed. *)
Definition half_open_of (ip : bytes) (c : tcpConn) : bool :=
  bool_decide (c_state c = stateSynRcvd) && bool_decide (remoteIP (c_key c) = ip).
Definition live_of (ip : bytes) (c : tcpConn) : bool :=
  negb (isClosed c) && bool_decide (remoteIP (c_key c) = ip).

(** C33. The demultiplexer's bounds hold in every reachable state, whatever packets,
    timer events, calls, accepts and closes occur: no client has more than 8
    half-open or 64 live connections, both counters are exact, the table holds
    exactly the connections that are not closed, each under its own 4-tuple, and
    no accept queue is longer than the backlog; and every event is handled to its
    end. *)
Theorem tcp_caps (stk : Stack.Stack) (d : tcpDemux) :
  demux_reachable stk d ->
  (forall ip, default 0 (d_halfOpen d !! ip) = cnt (half_open_of ip) (d_cheap d) /\
              cnt (half_open_of ip) (d_cheap d) <= maxHalfOpenPerSession /\
              default 0 (d_liveConns d !! ip) = cnt (live_of ip) (d_cheap d) /\
              cnt (live_of ip) (d_cheap d) <= maxLiveConnsPerSession) /\
  (forall k id, d_conns d !! k = Some id <->
     exists c, d_cheap d !! id = Some c /\ c_key c = k /\ c_state c <> stateClosed) /\
  (forall l lst, d_lheap d !! l = Some lst -> Z.of_nat (length (l_backlog lst)) <= defaultBacklog) /\
  (forall ev, event_ok d ev -> exists d' o, demux_exec stk d ev = Ok (d', o)).
Proof.
  intros Hr%demux_reachable_inv. pose proof Hr as [Hf Ht].
  assert (Eh : forall ip, cnt (half_open_of ip) (d_cheap d) = cnt (half_at ip) (d_cheap d)).
  { intros ip. apply cnt_ext. intros id c Hc. unfold half_open_of, half_at. destruct (Ht id c Hc) as [-> _].
    by destruct (fi_conn stk d Hf id c Hc) as (_ & -> & _). }
  assert (El : forall ip, cnt (live_of ip) (d_cheap d) = cnt (live_at ip) (d_cheap d)).
  { intros ip. apply cnt_ext. intros id c Hc. unfold live_of, live_at. destruct (Ht id c Hc) as [_ ->].
    by destruct (fi_conn stk d Hf id c Hc) as (_ & -> & _). }
  split_and!.
  - intros ip. rewrite Eh, El. split_and!.
    + apply (co_value _ _ (fi_half stk d Hf)).
    + apply (fi_half_max stk d Hf).
    + apply (co_value _ _ (fi_live stk d Hf)).
    + apply (fi_live_max stk d Hf).
  - intros k id. rewrite (fi_table stk d Hf). split; intros (c & Hc & Hk & H); exists c; (split_and!; [done|done|]).
    + destruct (Ht id c Hc) as [_ E]. rewrite H in E. symmetry in E. by apply negb_true_iff, bool_decide_eq_false in E.
    + destruct (Ht id c Hc) as [_ ->]. by rewrite isClosed_false.
  - intros l lst H. apply (fi_backlog stk d Hf l lst H).
  - intros ev Hok. destruct (demux_exec_ok stk d ev Hr Hok) as (d' & o & HE & _). by exists d', o.
Qed.

(** ** Resets *)

(** The acceptance test of an inbound RST, without the signed comparisons: its
    sequence number lies in the window, which is never taken smaller than one. *)
Lemma rstInWindow_spec (c : tcpConn) (seg : tcpSegment) :
  rcv_inv (c_rcv c) -> is_u32 (TcpSegment.seq seg) ->
  rstInWindowLocked c seg = true <->
  TcpSegment.seq seg -u32 rcvNxt (c_rcv c) < Z.max 1 (advertisedWindowLocked (c_rcv c)).
Proof.
  intros Hr Hq. pose proof (advertised_eq _ Hr) as Ew. pose proof Hr as [Hn Hw _ _].
  pose proof (zlen_nonneg (recvBuf (c_rcv c))). pose proof (held_nonneg (reorder (c_rcv c))).
  unfold defaultReceiveWindow in *. unfold rstInWindowLocked. set (w := advertisedWindowLocked (c_rcv c)) in *.
  assert (Hw0 : 0 <= w <= 65535) by lia. clearbody w. set (q := TcpSegment.seq seg) in *. set (n := rcvNxt (c_rcv c)) in *.
  destruct (Z.eqb_spec w 0) as [->|Hne].
  - rewrite Z.eqb_eq. split; word_lia.
  - rewrite andb_true_iff, seqGE_spec, seqGT_spec. rewrite Z.max_r by lia. split; word_lia.
Qed.

(** Resets cannot be provoked or forged: a segment with the RST flag is never
    answered; it closes a connection exactly when its sequence number lies in that
    connection's receive window, and then the 4-tuple is free; otherwise it changes
    nothing. *)
Theorem reset_handling (stk : Stack.Stack) (d : tcpDemux) (a : nat) (src dst p : bytes) (isn : Z) (seg : tcpSegment) :
  demux_reachable stk d -> event_ok d (EPacket a src dst p isn) -> parseTCP p = Ok seg ->
  has_flag (flags seg) flagRST = true ->
  exists d', handlePacket stk d a src dst p isn = Ok (d', []) /\
  let key := mkFourTuple src (srcPort seg) (dstPort seg) in
  (d' = d /\ (forall id c, d_conns d !! key = Some id -> d_cheap d !! id = Some c ->
     Z.max 1 (advertisedWindowLocked (c_rcv c)) <= TcpSegment.seq seg -u32 rcvNxt (c_rcv c))) \/
  (exists id c, d_conns d !! key = Some id /\ d_cheap d !! id = Some c /\ d_conns d' !! key = None /\
     TcpSegment.seq seg -u32 rcvNxt (c_rcv c) < Z.max 1 (advertisedWindowLocked (c_rcv c))).
Proof.
  intros Hr%demux_reachable_inv (Hok & Hlen & Hisn) HE HR. unfold handlePacket. rewrite HE, HR.
  destruct (parseTCP_ok p seg Hok HE) as (Hsr & _ & _). set (key := mkFourTuple src (srcPort seg) (dstPort seg)).
  destruct (d_conns d !! key) as [id|] eqn:Ek.
  2:{ exists d. split; [done|]. left. split; [done|]. by intros. }
  pose proof Hr as [Hf Ht]. pose proof Ek as (c & Hc & Hkey & Hlv)%(fi_table stk d Hf).
  destruct (fi_conn stk d Hf id c Hc) as (Hrc & _ & _). pose proof (conn_reachable_inv _ _ Hrc) as [Hci _].
  pose proof (rstInWindow_spec c seg (ki_rcv c Hci) ltac:(by destruct Hsr as [_ [? _] _ _])) as Hwin.
  unfold connOp. rewrite Hc. cbn [exec]. unfold handleSegment. rewrite HR.
  destruct (rstInWindowLocked c seg) eqn:Ew; cbn [negb]; outcome_simpl.
  - set (c' := broadcastLocked _). cbn [applyAll apply applyBasic app].
    eexists. split; [done|]. right. exists id, c. split_and!; [done|done| |by apply Hwin].
    set (d1 := count rstsReceived _). assert (H1 : d_cheap d1 !! id = Some c') by apply lookup_insert_eq.
    rewrite (removeConn_eq d1 id c' H1). cbn.
    rewrite Hkey, Ek, bool_decide_eq_true_2 by done. apply lookup_delete_eq.
  - exists d. cbn [applyAll]. rewrite insert_id by done. split; [by destruct d|]. left. split; [done|].
    intros id' c0 [= <-] Hc0. rewrite Hc in Hc0. injection Hc0 as <-.
    destruct (Z.lt_ge_cases (TcpSegment.seq seg -u32 rcvNxt (c_rcv c)) (Z.max 1 (advertisedWindowLocked (c_rcv c)))) as [Hlt|];
      [|done]. by apply Hwin in Hlt.
Qed.

(** ** A client's SYN, and its reset *)

Module ToyDemux.
Definition stk : Stack.Stack :=
  Stack.mkStack [10; 8; 0; 1] 1500 (Stack.mkLimits 0 0 0) 0 ∅ ∅ 0 false true (fun _ => 0) false.
Definition client : bytes := [10; 8; 0; 2].
Definition header (fl s : Z) : bytes := [156; 64; 0; 80; 0; 0; 19; s; 0; 0; 0; 0; 80; fl; 255; 255; 0; 0; 0; 0].
Definition syn : demux_event := EPacket 0 client [10; 8; 0; 1] (header 2 136) 1000.

Definition after (d : tcpDemux) (ev : demux_event) : tcpDemux :=
  match demux_exec stk d ev with Ok (d', _) => d' | _ => d end.

Lemma demux_after_reachable (d : tcpDemux) (ev : demux_event) :
  demux_reachable stk d -> event_ok d ev -> is_ok (demux_exec stk d ev) = true -> demux_reachable stk (after d ev).
Proof.
  intros Hr Hok. unfold after. destruct (demux_exec stk d ev) as [[d' o]| |] eqn:E; [|done..].
  intros _. by eapply dr_step.
Qed.

Definition d0 : tcpDemux := after newTCPDemux (EListen 80).
Definition d1 : tcpDemux := after d0 syn.

Lemma d1_reachable : demux_reachable stk d1.
Proof.
  apply demux_after_reachable; [apply demux_after_reachable; [apply dr_new|exact I|vm_compute; reflexivity]| |vm_compute; reflexivity].
  split; [decide_now|]. split; [vm_compute; discriminate|decide_now].
Qed.
End ToyDemux.

Lemma tcp_caps_witness :
  default 0 (d_halfOpen ToyDemux.d1 !! ToyDemux.client) = 1 /\
  cnt (half_open_of ToyDemux.client) (d_cheap ToyDemux.d1) <= maxHalfOpenPerSession.
Proof.
  split; [vm_compute; reflexivity|].
  exact (proj1 (proj2 (proj1 (tcp_caps ToyDemux.stk ToyDemux.d1 ToyDemux.d1_reachable) ToyDemux.client))).
Defined.

Lemma reset_handling_witness :
  exists d', handlePacket ToyDemux.stk ToyDemux.d1 0 ToyDemux.client [10; 8; 0; 1] (ToyDemux.header 4 137) 0 = Ok (d', []).
Proof.
  destruct (parseTCP (ToyDemux.header 4 137)) as [seg| |] eqn:E; [|vm_compute in E; discriminate E..].
  destruct (reset_handling ToyDemux.stk ToyDemux.d1 0 ToyDemux.client [10; 8; 0; 1] (ToyDemux.header 4 137) 0 seg
    ToyDemux.d1_reachable) as (d' & H & _).
  - split; [decide_now|]. split; [vm_compute; discriminate|decide_now].
  - exact E.
  - apply (inj Ok) in E. rewrite <- E. vm_compute. reflexivity.
  - exists d'. exact H.
Defined.

End TcpAccounting.
