(* ===== verification/TunnelWeb.v ===== *)
(** * TunnelWeb: the example server starts

    Model of [examples/tunnelweb/main.go] up to its wait for the end: the PKI material is
    loaded, the network parsed, the stack created with its HTTP listener, and the
    server's configuration put together.  What runs afterwards is in [WebSessions].

    crypto/tls and the PEM side of crypto/x509 are parameters, a type class with the
    laws the program leans on; [net.ParseCIDR] is written out.  The files are those of
    the PKI directory that can be read. *)

From stdpp Require Import gmap.
From S2P Require Import Prelude GoText Wire TlsCrypt Cipher IpPool Serve Frame Stack TestPki TcpListener.
Import Frame TestPki.

Module TunnelWeb.

Definition tunnelwebDataCiphers : list bytes := [of_string "AES-256-GCM"; of_string "AES-128-GCM"].

(** [site.Options.Cipher]. *)
Definition siteCipher : bytes := join 58 tunnelwebDataCiphers.

(** The timeouts of the HTTP server. *)
Record httpServer := mkHTTP { ReadHeaderTimeout : Z; ReadTimeout : Z; WriteTimeout : Z; IdleTimeout : Z }.
Definition newHardenedHTTPServer : httpServer := mkHTTP (10 * second) (30 * second) (30 * second) (120 * second).

(** ** [net.ParseCIDR] *)

(** A field of a dotted address: digits without a leading zero, at most 255. *)
Definition parse_field (s : bytes) : option Z :=
  match s with
  | [] => None
  | c :: rest =>
      if (c =? 48) && negb (bool_decide (rest = [])) then None else
      match digits_value 0 s with Some v => if v <=? 255 then Some v else None | None => None end
  end.

Definition parseIPv4 (s : bytes) : option bytes :=
  let fields := split_on 46 s in
  if (length fields =? 4)%nat then mapM parse_field fields else None.

(** The hex digits at the front, and their value. *)
Fixpoint hex_prefix (s : bytes) : bytes :=
  match s with c :: s => if isHexDigit c then c :: hex_prefix s else [] | [] => [] end.
Definition hex_value (ds : bytes) : Z := foldl (fun acc c => acc * 16 + default 0 (hexValue c)) 0 ds.

(** The loop over the chunks: [ip] is what has been read, [ellipsis] where the zeros go.
    A chunk is two bytes, so eight rounds are all there can be. *)
Fixpoint ipv6_chunks (fuel : nat) (s ip : bytes) (ellipsis : option nat) : option (bytes * option nat) :=
  match fuel with
  | O => None
  | S fuel =>
      let ds := hex_prefix s in
      let rest := drop (length ds) s in
      if bool_decide (ds = []) || (4 <? length ds)%nat then None else
      if bool_decide (head rest = Some 46) then
        if bool_decide (ellipsis = None) && negb (length ip =? 12)%nat then None else
        if (12 <? length ip)%nat then None else
        v4 ← parseIPv4 s; Some (ip ++ v4, ellipsis)
      else
        let ip := ip ++ [hex_value ds / 256; hex_value ds mod 256] in
        match rest with
        | [] => Some (ip, ellipsis)
        | c :: s =>
            if negb (c =? 58) then None else
            match s with
            | [] => None
            | c' :: s' =>
                if c' =? 58 then
                  if bool_decide (is_Some ellipsis) then None else
                  match s' with
                  | [] => Some (ip, Some (length ip))
                  | _ => ipv6_chunks fuel s' ip (Some (length ip))
                  end
                else ipv6_chunks fuel s ip ellipsis
            end
        end
  end.

(** An address without a zone; those with one are no networks. *)
Definition parseIPv6 (s : bytes) : option bytes :=
  if bool_decide (37 ∈ s) then None else
  let finish r :=
    '(ip, ellipsis) ← r;
    match ellipsis with
    | Some e => if (length ip <? 16)%nat then Some (take e ip ++ replicate (16 - length ip) 0 ++ drop e ip) else None
    | None => if (length ip <? 16)%nat then None else Some ip
    end in
  match cut_prefix (of_string "::") s with
  | Some [] => Some (replicate 16 0)
  | Some s => finish (ipv6_chunks 8 s [] (Some 0%nat))
  | None => finish (ipv6_chunks 8 s [] None)
  end.

(** The first of the characters that tell the forms apart decides. *)
Definition ParseAddr (s : bytes) : option bytes :=
  match find (fun c => (c =? 46) || (c =? 58) || (c =? 37)) s with
  | Some c => if c =? 46 then parseIPv4 s else if c =? 58 then parseIPv6 s else None
  | None => None
  end.

(** [net.dtoi]: a number below 0xFFFFFF, at least one digit and nothing behind it. *)
Definition parse_mask (s : bytes) : option Z :=
  match s with
  | [] => None
  | _ => match digits_value 0 s with Some n => if n <? 16777215 then Some n else None | None => None end
  end.

Fixpoint CIDRMask (ones : Z) (len : nat) : bytes :=
  match len with
  | O => []
  | S len => if 8 <=? ones then 255 :: CIDRMask (ones - 8) len
             else Z.lxor 255 (Z.shiftr 255 ones) :: CIDRMask 0 len
  end.

(** The network; a dotted address is masked in its four-byte form. *)
Definition ParseCIDR (s : bytes) : option IpPool.IPNet :=
  match index_of [47] s with
  | None => None
  | Some i =>
      ip ← ParseAddr (take i s);
      n ← parse_mask (drop (S i) s);
      if zlen ip * 8 <? n then None else
      let m := CIDRMask n (length ip) in
      Some (IpPool.mkIPNet (zip_with Z.land ip m) m)
  end.

(** ** crypto/tls *)

(** A certificate chain in DER form with the key of its first certificate. *)
Record tlsCertificate {eckey rsakey : Type} := mkTLSCert { tc_chain : list bytes; tc_key : Signer eckey rsakey }.
Arguments tlsCertificate : clear implicits.
Arguments mkTLSCert {eckey rsakey}.

Class TLSLib `{!Crypto} := {
  (** [CertPool.AppendCertsFromPEM]: the certificates it adds; true when there is one. *)
  AppendCertsFromPEM : bytes -> list (Certificate pubkey);
  X509KeyPair : bytes -> bytes -> option (tlsCertificate eckey rsakey);
}.

(** The documented behaviour on a single certificate, and on a certificate with the key
    that it names. *)
Class TLSLaws `{!Crypto} `{!TLSLib} := {
  AppendCertsFromPEM_one : forall der cert,
    ParseCertificate der = Some cert -> AppendCertsFromPEM (cert_pem der) = [cert];
  X509KeyPair_matching : forall der cert key keyPEM,
    ParseCertificate der = Some cert -> key_pem key = Some keyPEM -> PublicKey cert = Public key ->
    X509KeyPair (cert_pem der) keyPEM = Some (mkTLSCert [der] key);
}.

Definition VersionTLS12 : Z := 771.

Section web.
Context `{!Crypto} `{!TLSLib}.

Record TLSConfig := mkTLSConfig {
  Certificates : list (tlsCertificate eckey rsakey);
  ClientCAs : list (Certificate pubkey);
  ClientAuth : Z;
  MinVersion : Z;
}.

Inductive load_error :=
  | ErrNoFile (name : bytes) | ErrNoCertificates | ErrKeyPair | ErrStaticKey (e : tc_error).

Definition ReadFile (fs : gmap bytes bytes) (name : bytes) : outcome load_error bytes :=
  match fs !! name with Some b => Ok b | None => Err (ErrNoFile name) end.

Definition loadConfig (fs : gmap bytes bytes) : outcome load_error (TLSConfig * bytes) :=
  caPEM ← ReadFile fs (file "ca.crt");
  let caPool := AppendCertsFromPEM caPEM in
  if bool_decide (length caPool = 0%nat) then Err ErrNoCertificates else
  certPEM ← ReadFile fs (file "server.crt");
  keyPEM ← ReadFile fs (file "server.key");
  match X509KeyPair certPEM keyPEM with
  | None => Err ErrKeyPair
  | Some serverCert =>
      let tlsCfg := mkTLSConfig [serverCert] caPool Serve.RequireAndVerifyClientCert VersionTLS12 in
      tlsCryptPEM ← ReadFile fs (file "tls-crypt.key");
      match ParseStaticKeyV1 tlsCryptPEM with
      | Ok tlsCryptKey => Ok (tlsCfg, tlsCryptKey)
      | Err e => Err (ErrStaticKey e)
      | Panic => Panic
      end
  end.

(** ** Putting the server together *)

Inductive web_error :=
  | ErrMissingPki
  | ErrLoad (e : load_error)
  | ErrParseNetwork
  | ErrStack (e : Stack.stack_error)
  | ErrListenTCP (e : TcpListener.listen_error)
  | ErrListenUDP.

(** [network.IP.To4()] is nil for an IPv6 network, and reading from it panics. *)
Definition firstHostIP {E : Type} (network : IpPool.IPNet) : outcome E bytes :=
  let ip4 := default [] (IpPool.to4 (IpPool.net_IP network)) in
  base ← get_u32 ip4;
  Ok (be32 (base +u32 1)).

Record web := mkWeb {
  wb_tls : TLSConfig;
  wb_stack : Stack.Stack;
  wb_demux : option TcpListener.tcpDemux;
  wb_ln : nat;
  wb_http : httpServer;
  wb_config : Serve.Config;
}.

(** The first TCP socket of a stack registers the handler. *)
Definition stackListenTCP (st : Stack.Stack) (port : Z)
    : outcome web_error (Stack.Stack * option TcpListener.tcpDemux * nat) :=
  match TcpListener.ListenTCP None port with
  | (Ok ln, d) => Ok ((Stack.registerTCPHandler st).2, d, ln)
  | (Err e, _) => Err (ErrListenTCP e)
  | (Panic, _) => Panic
  end.

(** [run] up to its [select].  Whatever ends that, [run] then closes the server, the HTTP
    server, the listener and the stack, and returns nil. *)
Definition run (pkiDir : bytes) (fs : gmap bytes bytes) (udp : bool) (networkCIDR : bytes) (httpPort : Z)
    : outcome web_error web :=
  if bool_decide (pkiDir = []) then Err ErrMissingPki else
  match loadConfig fs with
  | Panic => Panic
  | Err e => Err (ErrLoad e)
  | Ok (tlsCfg, tlsCryptKey) =>
      match ParseCIDR networkCIDR with
      | None => Err ErrParseNetwork
      | Some tunnelNetwork =>
          serverIP ← firstHostIP tunnelNetwork;
          match Stack.New (Some serverIP) [] with
          | Panic => Panic
          | Err e => Err (ErrStack e)
          | Ok stack =>
              '(stack, demux, ln) ← stackListenTCP stack httpPort;
              if negb udp then Err ErrListenUDP else
              Ok (mkWeb tlsCfg stack demux ln newHardenedHTTPServer
                    (Serve.mkConfig (Some (ClientAuth tlsCfg)) tlsCryptKey (Some tunnelNetwork) [] tunnelwebDataCiphers
                       true 0 false 0 0 0 false))
          end
      end
  end.

(** The [-http-port] flag is cut to sixteen bits. *)
Definition main (pkiDir : bytes) (fs : gmap bytes bytes) (udp : bool) (networkCIDR : bytes) (httpPort : Z) : outcome web_error web :=
  run pkiDir fs udp networkCIDR (u16 httpPort).

End web.

(** ** Dotted networks *)

Lemma parse_field_itoa (v : Z) : 0 <= v <= 255 -> parse_field (itoa v) = Some v.
Proof.
  intros Hv. assert (Hall : Forall (fun n => parse_field (itoa (Z.of_nat n)) = Some (Z.of_nat n)) (seq 0 256)) by decide_now.
  rewrite Forall_forall in Hall. specialize (Hall (Z.to_nat v)). rewrite Z2Nat.id in Hall by lia. apply Hall, elem_of_seq. lia.
Qed.

Lemma parse_mask_itoa (n : Z) : 0 <= n < 16777215 -> parse_mask (itoa n) = Some n.
Proof.
  intros Hn. destruct (itoa_digits n ltac:(lia)) as (Hne & _ & Hval). unfold parse_mask.
  destruct (itoa n) as [|c ds]; [done|]. rewrite Hval. by rewrite (proj2 (Z.ltb_lt _ _)) by lia.
Qed.

Lemma mapM_fields (ip : bytes) : bytes_ok ip -> mapM parse_field (map itoa ip) = Some ip.
Proof.
  induction 1 as [|v ip Hv _ IH]; [done|]. cbn [map mapM]. rewrite parse_field_itoa by (unfold is_u8 in *; lia).
  cbn [mbind option_bind]. by rewrite IH.
Qed.

(** The text of an address. *)
Definition dotted (ip : bytes) : bytes := join 46 (map itoa ip).

Lemma parseIPv4_dotted (ip : bytes) : is_addr ip -> parseIPv4 (dotted ip) = Some ip.
Proof.
  intros [Hl Hok]. unfold parseIPv4, dotted. rewrite split_join.
  - rewrite length_map, Hl. by apply mapM_fields.
  - by destruct ip.
  - apply Forall_map. eapply Forall_impl; [exact Hok|]. intros v [Hv _]. apply digits_avoid; [done|]. by apply itoa_digits.
Qed.

Lemma dotted_chars (ip : bytes) : bytes_ok ip -> Forall (fun c => is_digit c = true \/ c = 46) (dotted ip).
Proof.
  unfold dotted. induction 1 as [|v ip [Hv _] Hok IH]; [constructor|]. destruct (itoa_digits v Hv) as (_ & Hd & _).
  assert (Hd' : Forall (fun c => is_digit c = true \/ c = 46) (itoa v)) by (eapply Forall_impl; [exact Hd|]; by left).
  destruct ip as [|v' ip]; [exact Hd'|]. change (join 46 (map itoa (v :: v' :: ip))) with (itoa v ++ [46] ++ join 46 (map itoa (v' :: ip))).
  apply Forall_app. split; [done|]. apply Forall_app. split; [apply Forall_singleton; by right|done].
Qed.

(** A text of digits and dots with a dot in it is looked at as a dotted address. *)
Lemma ParseAddr_digits (s : bytes) : Forall (fun c => is_digit c = true \/ c = 46) s -> 46 ∈ s -> ParseAddr s = parseIPv4 s.
Proof.
  intros Hs Hin. unfold ParseAddr. enough (E : find (fun c => (c =? 46) || (c =? 58) || (c =? 37)) s = Some 46) by by rewrite E.
  induction Hs as [|c s Hc Hs IH]; [by apply not_elem_of_nil in Hin|]. cbn [find].
  destruct (Z.eqb_spec c 46) as [->|Hne]; [done|]. cbn [orb]. destruct Hc as [Hc|]; [|done]. unfold is_digit in Hc.
  rewrite (proj2 (Z.eqb_neq c 58)), (proj2 (Z.eqb_neq c 37)) by lia. cbn [orb].
  apply IH. apply elem_of_cons in Hin as [E|]; [congruence|done].
Qed.

(** The network of a dotted address with a prefix length. *)
Lemma ParseCIDR_dotted (ip : bytes) (k : Z) :
  is_addr ip -> 0 <= k <= 32 ->
  ParseCIDR (dotted ip ++ [47] ++ itoa k) = Some (IpPool.mkIPNet (zip_with Z.land ip (CIDRMask k 4)) (CIDRMask k 4)).
Proof.
  intros Hip Hk. pose proof Hip as [Hl Hok]. pose proof (dotted_chars ip Hok) as Hd. unfold ParseCIDR.
  change ([47] ++ itoa k) with ((47 :: []) ++ itoa k). rewrite index_of_app.
  2:{ intros Hin. rewrite Forall_forall in Hd. destruct (Hd 47 Hin) as [?|?]; done. }
  rewrite take_app_length.
  replace (drop (S (length (dotted ip))) (dotted ip ++ [47] ++ itoa k)) with (itoa k).
  2:{ rewrite (assoc_L (++)). symmetry. apply drop_app_length'. rewrite length_app. cbn. lia. }
  rewrite ParseAddr_digits; [|done|].
  2:{ unfold dotted. destruct ip as [|a [|b ip]]; [done|done|]. change (join 46 (map itoa (a :: b :: ip))) with (itoa a ++ [46] ++ join 46 (map itoa (b :: ip))).
      apply elem_of_app. right. apply list_elem_of_here. }
  rewrite parseIPv4_dotted by done. cbn [mbind option_bind]. rewrite parse_mask_itoa by lia. cbn [mbind option_bind].
  rewrite (proj2 (Z.ltb_ge _ _)); [by rewrite Hl|]. unfold zlen. rewrite Hl. lia.
Qed.

(** It makes a pool whenever it has at least four addresses and is not everything. *)
Lemma newIPPool_dotted (ip : bytes) (k : Z) :
  is_addr ip -> 1 <= k <= 30 ->
  exists p, IpPool.newIPPool (Some (IpPool.mkIPNet (zip_with Z.land ip (CIDRMask k 4)) (CIDRMask k 4))) = Ok p /\
    IpPool.p_size p = 2 ^ (32 - k).
Proof.
  intros [Hl Hok] Hk. set (m := CIDRMask k 4).
  assert (Hall : Forall (fun n => 
    length (CIDRMask (Z.of_nat n) 4) = 4%nat /\ IpPool.mask_Size (CIDRMask (Z.of_nat n) 4) = (Z.of_nat n, 32) /\
    u32 (Z.shiftl 1 (32 - Z.of_nat n)) = 2 ^ (32 - Z.of_nat n) /\ 4 <= 2 ^ (32 - Z.of_nat n)) (seq 1 30)) by decide_now.
  rewrite Forall_forall in Hall. destruct (Hall (Z.to_nat k)) as (H1 & H2 & H3 & H4); [apply elem_of_seq; lia|].
  rewrite Z2Nat.id in H1, H2, H3, H4 by lia. fold m in H1, H2.
  assert (Hz : length (zip_with Z.land ip m) = 4%nat) by (rewrite length_zip_with; lia).
  unfold IpPool.newIPPool. cbn [IpPool.net_IP IpPool.net_Mask]. unfold IpPool.to4. rewrite Hz. cbn [Nat.eqb].
  unfold IpPool.normalizeIPv4Mask. rewrite H1. cbn [Nat.eqb]. unfold zlen at 1. rewrite H1. cbn [Z.of_nat Z.eqb negb Pos.of_succ_nat Pos.succ Pos.eqb].
  rewrite H2, H3. cbn [Z.eqb Pos.eqb negb]. rewrite (proj2 (Z.ltb_ge _ _)) by done.
  destruct (get_u32_total (E := IpPool.pool_error) (zip_with Z.land ip m)) as [v ->]; [unfold zlen; lia|]. outcome_simpl. by eexists.
Qed.

(** ** From the generated files to a server that starts *)

Section start.
Context `{!Crypto} `{!CryptoLaws} `{!TLSLib} `{!TLSLaws} (dsk : disk).

(** The configuration in force for certificates [i], key [raw] and network [n]. *)
Record configured (i : issued) (raw : bytes) (n : IpPool.IPNet) (srv : web) : Prop := {
  cf_certificates : Certificates (wb_tls srv) = [mkTLSCert [(i_server i).1] (i_serverKey i)];
  cf_clientCAs : ClientCAs (wb_tls srv) = [(i_root i).2];
  cf_clientAuth : ClientAuth (wb_tls srv) = Serve.RequireAndVerifyClientCert /\ MinVersion (wb_tls srv) = VersionTLS12;
  cf_config : Serve.c_TLSConfig (wb_config srv) = Some Serve.RequireAndVerifyClientCert /\
    Serve.c_TLSCryptKey (wb_config srv) = raw /\ Serve.c_Network (wb_config srv) = Some n /\ Serve.c_OnSession (wb_config srv) = true;
  cf_stack : Stack.stack_inv (wb_stack srv) /\ Stack.s_tcpHandler (wb_stack srv) = true /\ Stack.s_routes (wb_stack srv) = ∅;
}.

Lemma firstHostIP_total (n : IpPool.IPNet) :
  match IpPool.to4 (IpPool.net_IP n) with
  | Some ip4 => exists base, get_u32 (E := IpPool.pool_error) ip4 = Ok base /\ firstHostIP (E := web_error) n = Ok (be32 (base +u32 1))
  | None => firstHostIP (E := web_error) n = Panic
  end.
Proof.
  unfold firstHostIP. destruct (IpPool.to4 (IpPool.net_IP n)) as [ip4|] eqn:E; [|done]. cbn [default from_option].
  assert (Hl : length ip4 = 4%nat).
  { revert E. unfold IpPool.to4. destruct (Nat.eqb_spec (length (IpPool.net_IP n)) 4); [by intros [= <-]|].
    destruct (Nat.eqb_spec (length (IpPool.net_IP n)) 16) as [E16|]; [|done]. cbn [andb]. destruct (bool_decide _); [|done].
    intros [= <-]. rewrite length_drop. lia. }
  destruct ip4 as [|b0 [|b1 [|b2 [|b3 ip4]]]]; try done. by eexists.
Qed.

(** What the generator leaves behind loads. *)
Lemma loadConfig_generated (dirs : list bytes) (noClientCert : bool) (credentials : bytes) (i : issued) (raw : bytes) (fs fs' : gmap bytes bytes) :
  issued_ok i -> output dsk dirs noClientCert credentials i raw fs fs' ->
  loadConfig fs' = Ok (mkTLSConfig [mkTLSCert [(i_server i).1] (i_serverKey i)] [(i_root i).2] Serve.RequireAndVerifyClientCert VersionTLS12, raw).
Proof.
  intros Hi Ho. unfold loadConfig, ReadFile. rewrite (o_ca _ _ _ _ _ _ _ _ Ho). outcome_simpl.
  assert (Hroot : ParseCertificate (i_root i).1 = Some (i_root i).2).
  { pose proof (io_client_path i Hi) as Hp. cbn in Hp. destruct (i_client i), (i_root i). by destruct Hp as (_ & _ & ? & _). }
  assert (Hsrv : ParseCertificate (i_server i).1 = Some (i_server i).2).
  { pose proof (io_server_path i Hi) as Hp. unfold server_path in Hp. cbn in Hp. destruct (i_server i). by destruct Hp as [? _]. }
  rewrite (AppendCertsFromPEM_one _ _ Hroot). rewrite bool_decide_eq_false_2 by done.
  rewrite (o_server _ _ _ _ _ _ _ _ Ho). outcome_simpl. destruct (o_serverKey _ _ _ _ _ _ _ _ Ho) as (data & Hd & ->). outcome_simpl.
  rewrite (X509KeyPair_matching _ _ _ _ Hsrv Hd (io_serverKey i Hi)).
  destruct (o_key _ _ _ _ _ _ _ _ Ho) as (-> & Hk & _). outcome_simpl. by rewrite Hk.
Qed.

Lemma run_configured (pkiDir : bytes) (dirs : list bytes) (noClientCert : bool) (credentials : bytes) (i : issued) (raw : bytes)
    (fs fs' : gmap bytes bytes) (udp : bool) (network : bytes) (n : IpPool.IPNet) (port : Z) :
  issued_ok i -> output dsk dirs noClientCert credentials i raw fs fs' -> pkiDir <> [] -> ParseCIDR network = Some n ->
  match IpPool.to4 (IpPool.net_IP n) with
  | None => main pkiDir fs' udp network port = Panic
  | Some ip4 =>
      if u16 port =? 0 then main pkiDir fs' udp network port = Err (ErrListenTCP TcpListener.ErrTCPPortZero) else
      if negb udp then main pkiDir fs' udp network port = Err ErrListenUDP else
      exists base srv, get_u32 (E := IpPool.pool_error) ip4 = Ok base /\ main pkiDir fs' udp network port = Ok srv /\
      configured i raw n srv /\ Stack.s_serverIP (wb_stack srv) = be32 (base +u32 1) /\
      wb_config srv = Serve.mkConfig (Some Serve.RequireAndVerifyClientCert) raw (Some n) [] tunnelwebDataCiphers true 0 false 0 0 0 false
  end.
Proof.
  intros Hi Ho Hd Hn. unfold main, run. rewrite bool_decide_eq_false_2 by done.
  rewrite (loadConfig_generated _ _ _ _ _ _ _ Hi Ho), Hn. pose proof (firstHostIP_total n) as Hf.
  destruct (IpPool.to4 (IpPool.net_IP n)) as [ip4|]; [|by rewrite Hf]. destruct Hf as (base & Hb & ->). outcome_simpl.
  destruct (Stack.New (Some (be32 (base +u32 1))) []) as [st| |] eqn:En; [|done|done].
  pose proof (Stack.New_inv (Some (be32 (base +u32 1))) [] st ltac:(intros b [= <-]; apply be32_bytes) ltac:(constructor) En) as Hst.
  unfold stackListenTCP, TcpListener.ListenTCP. destruct (u16 port =? 0); [by outcome_simpl|].
  cbn [default from_option TcpListener.listen]. unfold TcpListener.listen.
  change (TcpListener.d_listeners (default TcpListener.newTCPDemux None) !! u16 port) with (@None nat). outcome_simpl.
  destruct udp; [|done]. cbn [negb].
  apply (inj Ok) in En. exists base. eexists. split; [done|]. split; [done|]. split; [|split; [by subst st|done]].
  constructor; try done. cbn [wb_stack]. subst st. split; [|done]. refine (Stack.core_inv _ _ _ Hst). by split_and!.
Qed.

(** The start of a server configured like that. *)
Lemma start_configured (n : IpPool.IPNet) (raw ip4 : bytes) (base : Z) (srv : web) :
  zlen raw = 256 -> IpPool.to4 (IpPool.net_IP n) = Some ip4 -> get_u32 (E := IpPool.pool_error) ip4 = Ok base ->
  Stack.s_serverIP (wb_stack srv) = be32 (base +u32 1) ->
  wb_config srv = Serve.mkConfig (Some Serve.RequireAndVerifyClientCert) raw (Some n) [] tunnelwebDataCiphers true 0 false 0 0 0 false ->
  match IpPool.newIPPool (Some n), Serve.start (wb_config srv) false (Serve.NewServer (wb_config srv)) with
  | Ok p, (r, s) => r = Ok tt /\ Serve.pool s = Some p /\ Serve.dataCiphers s = tunnelwebDataCiphers /\
      Stack.s_serverIP (wb_stack srv) = IpPool.serverIP p
  | Err e, (r, _) => r = Err (Serve.ErrServeNetwork e)
  | Panic, _ => False
  end.
Proof.
  intros Hl E4 Hb Hs Hcfg.
  assert (Hv : Serve.validate (wb_config srv) = Ok tt).
  { apply Serve.validate_iff. rewrite Hcfg. constructor; try done. exists Serve.RequireAndVerifyClientCert. auto. }
  pose proof (Serve.newIPPool_no_panic (Some n)) as Hnp. unfold Serve.start. rewrite Hv, Hcfg.
  cbn [Serve.c_DataCiphers Serve.c_Cipher Serve.c_Network]. change (Cipher.resolveDataCiphers tunnelwebDataCiphers []) with (Ok (E := Cipher.cipher_error) tunnelwebDataCiphers).
  cbn iota beta zeta. destruct (IpPool.newIPPool (Some n)) as [p|e|] eqn:Ep; [|done|done]. split_and!; try done.
  rewrite Hs. unfold IpPool.serverIP, IpPool.offsetToIP. enough (IpPool.p_base p = base) as -> by done.
  revert Ep. unfold IpPool.newIPPool. rewrite E4. destruct (negb _); [done|]. destruct (IpPool.mask_Size _) as [ones bits].
  destruct (negb _); [done|]. destruct (_ <? 4); [done|]. rewrite Hb. outcome_simpl. by intros [= <-].
Qed.

(** C13. What becomes of the example on what the PKI generator leaves behind, with either
    of its profiles.  It refuses a network that does not parse, and panics on an IPv6
    network, whatever else.  On an IPv4 network it refuses a port that is zero in its
    sixteen bits, and a UDP address it cannot listen on.  Otherwise it comes up: its
    TLS configuration offers the generated server certificate with its key and requires
    client certificates that verify up to the generated root, and the tls-crypt key is
    the generated one.  The server's own start then depends on the network alone: it
    succeeds when the network makes a pool, with the ciphers the status page shows and
    with the pool's server address on the stack, and refuses with the pool's error
    otherwise. *)
Theorem web_starts (pkiDir profile : bytes) (dirs : list bytes) (noClientCert : bool) (credentials : bytes)
    (w w' : world) (udp : bool) (network : bytes) (port : Z) :
  TestPki.run dsk profile dirs noClientCert credentials w = (Ok tt, w') -> pkiDir <> [] ->
  exists i raw, issued_ok i /\ output dsk dirs noClientCert credentials i raw (w_files w) (w_files w') /\
  match ParseCIDR network with
  | None => main pkiDir (w_files w') udp network port = Err ErrParseNetwork
  | Some n =>
      if negb (bool_decide (is_Some (IpPool.to4 (IpPool.net_IP n)))) then main pkiDir (w_files w') udp network port = Panic else
      if u16 port =? 0 then main pkiDir (w_files w') udp network port = Err (ErrListenTCP TcpListener.ErrTCPPortZero) else
      if negb udp then main pkiDir (w_files w') udp network port = Err ErrListenUDP else
      exists srv, main pkiDir (w_files w') udp network port = Ok srv /\ configured i raw n srv /\
        match IpPool.newIPPool (Some n), Serve.start (wb_config srv) false (Serve.NewServer (wb_config srv)) with
        | Ok p, (r, s) => r = Ok tt /\ Serve.pool s = Some p /\ Serve.dataCiphers s = tunnelwebDataCiphers /\
            Stack.s_serverIP (wb_stack srv) = IpPool.serverIP p
        | Err e, (r, _) => r = Err (Serve.ErrServeNetwork e)
        | Panic, _ => False
        end
  end.
Proof.
  intros Hr Hd. destruct (run_output dsk profile dirs noClientCert credentials w tt w' Hr) as (i & raw & Hi & Ho & _).
  exists i, raw. split; [done|]. split; [done|]. destruct (ParseCIDR network) as [n|] eqn:Hn.
  2:{ unfold main, run. by rewrite bool_decide_eq_false_2, (loadConfig_generated _ _ _ _ _ _ _ Hi Ho), Hn by done. }
  pose proof (run_configured pkiDir dirs noClientCert credentials i raw (w_files w) (w_files w') udp network n port Hi Ho Hd Hn) as Hm.
  destruct (IpPool.to4 (IpPool.net_IP n)) as [ip4|] eqn:E4; cbn [negb bool_decide].
  2:{ by rewrite bool_decide_eq_false_2 by by intros [? ?]. }
  rewrite bool_decide_eq_true_2 by by eexists. cbn [negb].
  destruct (u16 port =? 0); [done|]. destruct udp; [|done]. cbn [negb] in *.
  destruct Hm as (base & srv & Hb & Hm & Hc & Hs & Hcfg). exists srv. split; [done|]. split; [done|].
  destruct (o_key _ _ _ _ _ _ _ _ Ho) as (_ & _ & Hl). by eapply start_configured.
Qed.
End start.

(** ** Witnesses: reading PEM back *)

Module Toy.
#[export] Existing Instances TestPki.Toy.crypto TestPki.Toy.laws.

Definition base64_value (c : Z) : option Z := (fun p => Z.of_nat p.1) <$> list_find (eq c) base64_alphabet.

Fixpoint unbase64 (s : bytes) : option bytes :=
  match s with
  | a :: b :: c :: d :: rest =>
      match base64_value a, base64_value b, base64_value c, base64_value d with
      | Some x, Some y, None, _ => Some [x * 4 + y / 16]
      | Some x, Some y, Some z, None => Some [x * 4 + y / 16; y mod 16 * 16 + z / 4]
      | Some x, Some y, Some z, Some u =>
          app [x * 4 + y / 16; y mod 16 * 16 + z / 4; z mod 4 * 64 + u] <$> unbase64 rest
      | _, _, _, _ => None
      end
  | [] => Some []
  | _ => None
  end.

Lemma base64_value_char (v : Z) : 0 <= v < 64 -> base64_value (base64_char v) = Some v /\ base64_char v <> 10.
Proof.
  intros Hv. assert (Hall : Forall (fun n => base64_value (base64_char (Z.of_nat n)) = Some (Z.of_nat n) /\ base64_char (Z.of_nat n) <> 10) (seq 0 64))
    by decide_now.
  rewrite Forall_forall in Hall. specialize (Hall (Z.to_nat v)). rewrite Z2Nat.id in Hall by lia. apply Hall, elem_of_seq. lia.
Qed.

(** Decoding what was encoded, and no line ends in it. *)
Lemma unbase64_base64 (b : bytes) : bytes_ok b -> unbase64 (base64 b) = Some b /\ Forall (fun c => negb (c =? 10) = true) (base64 b).
Proof.
  assert (Hn : forall v, 0 <= v < 64 -> negb (base64_char v =? 10) = true).
  { intros v Hv. destruct (base64_value_char v Hv) as [_ Hne]. by rewrite (proj2 (Z.eqb_neq _ _) Hne). }
  assert (Hv : forall v, 0 <= v < 64 -> base64_value (base64_char v) = Some v) by (intros; by apply base64_value_char).
  remember (length b) as n eqn:En. revert b En. induction (lt_wf n) as [n _ IH]. intros b -> Hb.
  destruct b as [|x [|y [|z b]]]; [by split; [|constructor]|..].
  - apply Forall_cons in Hb as [Hx _]. unfold is_u8 in Hx. cbn [base64]. split; [|repeat constructor; apply Hn || done; word_lia].
    cbn [unbase64]. rewrite !Hv by word_lia. change (base64_value 61) with (@None Z). cbn. do 2 f_equal. word_lia.
  - apply Forall_cons in Hb as [Hx [Hy _]%Forall_cons]. unfold is_u8 in *. cbn [base64]. split; [|repeat constructor; apply Hn || done; word_lia].
    cbn [unbase64]. rewrite !Hv by word_lia. change (base64_value 61) with (@None Z). cbn. repeat f_equal; word_lia.
  - apply Forall_cons in Hb as [Hx [Hy [Hz Hb]%Forall_cons]%Forall_cons]. unfold is_u8 in *. cbn [base64].
    destruct (IH (length b) ltac:(cbn; lia) b eq_refl Hb) as [I1 I2]. split;
      [|apply Forall_app; split; [|done]; repeat (apply Forall_cons; split); try (by constructor); apply Hn; word_lia].
    cbn [app unbase64]. rewrite !Hv by word_lia. rewrite I1. cbn. do 2 f_equal; [word_lia|]. f_equal; [word_lia|]. f_equal. word_lia.
Qed.

(** The contents of a file with one block of a type. *)
Definition pem_decode (ty pem : bytes) : option bytes :=
  let head := of_string "-----BEGIN " ++ ty ++ of_string "-----" ++ [10] in
  let foot := of_string "-----END " ++ ty ++ of_string "-----" ++ [10] in
  body ← cut_prefix head pem;
  unbase64 (List.filter (fun c => negb (c =? 10)) (take (length body - length foot) body)).

Lemma pem_decode_encode (ty der : bytes) : bytes_ok der -> pem_decode ty (pem_encode ty der) = Some der.
Proof.
  intros Hok. unfold pem_decode. set (foot := of_string "-----END " ++ ty ++ of_string "-----" ++ [10]).
  set (head := of_string "-----BEGIN " ++ ty ++ of_string "-----" ++ [10]).
  set (body := wrap_lines (length (base64 der)) 64 (base64 der)).
  assert (E : pem_encode ty der = head ++ (body ++ foot)) by (unfold pem_encode, head; by rewrite <- !(assoc_L (++))).
  assert (Hc : forall p s, cut_prefix p (p ++ s) = Some s).
  { intros p s. unfold cut_prefix. by rewrite has_prefix_app, drop_app_length. }
  rewrite E, Hc. cbn [mbind option_bind]. rewrite length_app.
  replace (length body + length foot - length foot)%nat with (length body) by lia. rewrite take_app_length.
  destruct (unbase64_base64 der Hok) as [U1 U2]. unfold body. rewrite wrap_lines_filter; [done|done|exact U2|lia|lia].
Qed.

#[export] Instance tls : TLSLib := {|
  AppendCertsFromPEM pem := option_list (pem_decode (of_string "CERTIFICATE") pem ≫= ParseCertificate);
  X509KeyPair certPEM keyPEM :=
    der ← pem_decode (of_string "CERTIFICATE") certPEM;
    cert ← ParseCertificate der;
    '(ec, k) ← PublicKey cert;
    let key := if ec : bool then SignECDSA k else SignRSA k in
    if bool_decide (key_pem key = Some keyPEM) then Some (mkTLSCert [der] key) else None;
|}.

Lemma parsed_bytes (der : bytes) (cert : Certificate pubkey) : ParseCertificate der = Some cert -> bytes_ok der.
Proof.
  assert (Hnum : forall b l, TestPki.Toy.numbers b = Some l -> bytes_ok b).
  { induction b as [|d b IH]; [constructor|]. intros l. cbn [TestPki.Toy.numbers].
    destruct (TestPki.Toy.numbers b) as [l'|]; [|done]. intros Hl. apply Forall_cons. split; [|by eapply IH].
    unfold is_u8. destruct (Z.eqb_spec d 2); [lia|]. destruct l'; [done|]. destruct (Z.eqb_spec d 0); [lia|]. destruct (Z.eqb_spec d 1); [lia|done]. }
  cbn. unfold TestPki.Toy.read, TestPki.Toy.of_bytes. destruct (TestPki.Toy.numbers der) eqn:E; [|done]. intros _. by eapply Hnum.
Qed.

#[export] Instance tls_laws : TLSLaws.
Proof.
  constructor.
  - intros der cert Hp. unfold AppendCertsFromPEM, tls, cert_pem. rewrite pem_decode_encode by by eapply parsed_bytes.
    cbn [mbind option_bind]. by rewrite Hp.
  - intros der cert key keyPEM Hp Hk Hpub. unfold X509KeyPair, tls, cert_pem. rewrite pem_decode_encode by by eapply parsed_bytes.
    cbn [mbind option_bind]. rewrite Hp. cbn [mbind option_bind]. rewrite Hpub.
    destruct key as [k|k|]; cbn; [|by rewrite bool_decide_eq_true_2|done]. rewrite bool_decide_eq_true_2; done.
Qed.

(** The directory after a run with the small profile. *)
Definition made : outcome pki_error unit * world := TestPki.run TestPki.Toy.works profileSmall [] false [] TestPki.Toy.empty.
Definition files : gmap bytes bytes := w_files made.2.
Definition dir : bytes := of_string "/tmp/tunnelweb-pki".
Definition network : bytes := of_string "10.8.0.0/24".

(** The server's address shown with the default flags. *)
Example default_address :
  match main dir files true network 8080 with Ok srv => Stack.s_serverIP (wb_stack srv) = [10; 8; 0; 1] | _ => False end.
Proof. vm_compute. reflexivity. Qed.

(** An IPv6 network panics where the address is computed. *)
Example ipv6_network_panics : match main dir files true (of_string "fd00::/64") 8080 with Panic => True | _ => False end.
Proof. vm_compute. exact I. Qed.

(** A port beyond sixteen bits is not refused but cut. *)
Example port_is_cut :
  match main dir files true network 65616 with
  | Ok srv => option_map (fun d => map fst (map_to_list (TcpListener.d_listeners d))) (wb_demux srv) = Some [80]
  | _ => False
  end.
Proof. vm_compute. reflexivity. Qed.

(** A network too small for the pool is only noticed by the server, whose error [run]
    logs before it returns nil. *)
Example small_network_starts_nothing :
  match main dir files true (of_string "10.8.0.0/31") 8080 with
  | Ok srv => (Serve.start (wb_config srv) false (Serve.NewServer (wb_config srv))).1 = Err (Serve.ErrServeNetwork IpPool.ErrTooSmall)
  | _ => False
  end.
Proof. vm_compute. reflexivity. Qed.
End Toy.

Import Toy.

Lemma web_starts_witness :
  made.1 = Ok tt /\ exists srv, main dir files true network 8080 = Ok srv /\ Serve.c_OnSession (wb_config srv) = true.
Proof.
  split; [vm_compute; reflexivity|].
  destruct (web_starts TestPki.Toy.works dir profileSmall [] false [] TestPki.Toy.empty made.2 true network 8080)
    as (i & raw & _ & _ & Hm).
  - vm_compute. reflexivity.
  - discriminate.
  - assert (En : ParseCIDR network = Some (IpPool.mkIPNet [10; 8; 0; 0] [255; 255; 255; 0])) by (vm_compute; reflexivity).
    rewrite En in Hm. change (u16 8080 =? 0) with false in Hm. cbn [negb bool_decide] in Hm.
    destruct Hm as (srv & E & Hc & _). exists srv. split; [exact E|]. destruct (cf_config _ _ _ _ Hc) as (_ & _ & _ & Hs). exact Hs.
Defined.

End TunnelWeb.
