(* ===== verification/WebSessions.v ===== *)
(** * WebSessions: the sessions of the server on the stack

    The second half of [examples/tunnelweb/main.go]: while it runs, every session the
    server hands over is attached to the stack at its tunnel address, and a goroutine of
    the stack reads its packets.  The state is the server's, the stack's, the calls of the
    [OnSession] hook that have not run yet, and where each read loop stands; a step is
    what one goroutine does between two points others can see. *)

From stdpp Require Import gmap.
From S2P Require Import Prelude Wire TlsCrypt Replay KeyDeriv Cipher DataChan IpPool Frame IPv4 Reassembly Stack Session SessionProps Serve Server ServerInv ServerProps.
Import Frame Session SessionProps Server ServerInv ServerProps.

Module WebSessions.

(** A read loop with its buffer: at its top, inside [Session.Read], behind it with what it
    returned ([None]: an error), or at its end. *)
Inductive loop := Top (buf : Z) | Reading (buf : Z) | Got (buf : Z) (res : option bytes) | Ended.

Section web.
Context {W : Type} `{!AntiReplay W} `{!DataChan.AEAD} `{!TLSCryptPrims}.
Notation entry := (entry (W := W)).
Notation server := (server (W := W)).

Record web := mkWeb {
  ws_server : server;
  ws_stack : Stack.Stack;
  ws_calls : list nat;             (* the sessions whose [OnSession] call is still to run *)
  ws_loops : gmap nat loop;        (* of each attachment *)
}.

(** What can be seen from outside: a session's action, a packet handed to the UDP or the
    TCP handler, and the result of attaching a session. *)
Inductive output :=
  | ToNetwork (id : nat) (a : action)
  | ToHandler (a : Stack.action)
  | Attached (id : nat) (r : outcome Stack.stack_error nat).

Inductive wevent :=
  | WServer (ev : sevent (W := W))
  | WOnSession (id : nat)
  | WCheck (a : nat)
  | WRead (a : nat) (pick : bool)
  | WDeliver (a : nat) (now : Z) (writeOK : nat -> bytes -> bool)
  | WTransmit (a : nat) (pkt : bytes) (writeOK : nat -> bytes -> bool)
  | WStackClose.

(** The sessions a step hands over. *)
Definition opened (acts : list (nat * action)) : list nat :=
  omap (fun x => if is_opened x.2 then Some x.1 else None) acts.

(** The stack's writes go to the attachments' sessions. *)
Fixpoint perform (cfg : settings) (writeOK : nat -> bytes -> bool) (st : Stack.Stack) (acts : list Stack.action) (v : server)
    : outcome DataChan.dc_error (server * list output) :=
  match acts with
  | [] => Ok (v, [])
  | Stack.Write a pkt :: acts =>
      match Stack.s_atts st !! a with
      | None => perform cfg writeOK st acts v
      | Some att =>
          let id := Stack.at_sess att in
          '(v, sent) ← session_event cfg id (EWrite (Some (fun _ => writeOK a pkt)) pkt) v;
          '(v, out) ← perform cfg writeOK st acts v;
          Ok (v, map (ToNetwork id) sent ++ out)
      end
  | act :: acts => '(v, out) ← perform cfg writeOK st acts v; Ok (v, ToHandler act :: out)
  end.

(** The hook. *)
Definition OnSession (id : nat) (w : web) : web * list output :=
  match sv_heap (ws_server w) !! id with
  | None => (w, [])
  | Some sess =>
      let calls := List.filter (fun i => negb (i =? id)%nat) (ws_calls w) in
      match Stack.Attach (ws_stack w) (Some id) (AssignedIP (e_sess sess)) with
      | (Ok a, st) => (mkWeb (ws_server w) st calls (<[a := Top Stack.readBufferSize]> (ws_loops w)), [Attached id (Ok a)])
      | (r, st) => (mkWeb (ws_server w) st calls (ws_loops w), [Attached id r])
      end
  end.

(** A step that is not enabled does nothing.  [writeOK] is what the writes of a step come
    to; every choice is a possible one for some transport. *)
Definition wexec (cfg : settings) (tlsKey : bytes) (queue : Z) (w : web) (ev : wevent)
    : outcome DataChan.dc_error (web * list output) :=
  let '(mkWeb v st calls loops) := w in
  match ev with
  | WServer ev =>
      '(v, acts) ← sexec cfg tlsKey queue v ev;
      Ok (mkWeb v st (calls ++ opened acts) loops, map (fun x => ToNetwork x.1 x.2) acts)
  | WOnSession id => if bool_decide (id ∈ calls) then Ok (OnSession id w) else Ok (w, [])
  | WCheck a =>
      match loops !! a with
      | Some (Top buf) => Ok (mkWeb v st calls (<[a := if Stack.mayRead st a then Reading buf else Ended]> loops), [])
      | _ => Ok (w, [])
      end
  | WRead a pick =>
      match loops !! a, Stack.s_atts st !! a with
      | Some (Reading buf), Some att =>
          match sv_heap v !! Stack.at_sess att with
          | None => Ok (w, [])
          | Some sess =>
              match (Read (e_sess sess) buf pick).1 with
              | RdBlocks => Ok (w, [])
              | r =>
                  '(v, _) ← session_event cfg (Stack.at_sess att) (ERead buf pick) v;
                  Ok (mkWeb v st calls (<[a := Got buf (match r with RdData p => Some p | _ => None end)]> loops), [])
              end
          end
      | _, _ => Ok (w, [])
      end
  | WDeliver a now writeOK =>
      match loops !! a with
      | Some (Got buf res) =>
          match Stack.afterRead writeOK st a buf res now with
          | Ok (st', next, acts) =>
              '(v, out) ← perform cfg writeOK st' acts v;
              Ok (mkWeb v st' calls (<[a := match next with Some buf => Top buf | None => Ended end]> loops), out)
          | _ => Panic
          end
      | _ => Ok (w, [])
      end
  | WTransmit a pkt writeOK =>
      match Stack.writePacket writeOK st a pkt with
      | Ok (_, st', acts) => '(v, out) ← perform cfg writeOK st' acts v; Ok (mkWeb v st' calls loops, out)
      | _ => Panic
      end
  | WStackClose => Ok (mkWeb v (Stack.Close st) calls loops, [])
  end.

(** What callers guarantee: the steps of the server as in [Server], without an
    [AssignIP] hook, which the example does not set; and packets of bytes. *)
Definition wevent_ok (w : web) (ev : wevent) : Prop :=
  match ev with
  | WServer ev => sevent_ok (ws_server w) ev /\ match ev with SAssign _ hook => hook = None | _ => True end
  | WDeliver a _ _ => forall buf p, ws_loops w !! a = Some (Got buf (Some p)) -> bytes_ok p
  | WTransmit _ pkt _ => bytes_ok pkt
  | _ => True
  end.

(** From a fresh server with pool [p] and a fresh stack with the pool's server address. *)
Inductive wreachable (cfg : settings) (tlsKey : bytes) (queue : Z) (p : IpPool.ipPool) : web -> Prop :=
  | wreach_new st : Stack.stack_inv st -> Stack.s_atts st = ∅ -> Stack.s_serverIP st = IpPool.serverIP p ->
      wreachable cfg tlsKey queue p (mkWeb (newServer (Some p)) st [] ∅)
  | wreach_step w ev w' out : wreachable cfg tlsKey queue p w -> wevent_ok w ev ->
      wexec cfg tlsKey queue w ev = Ok (w', out) -> wreachable cfg tlsKey queue p w'.
End web.

(** ** What the steps of the server do to addresses, assignments and hand-overs *)

Section view.
Context {W : Type} `{!AntiReplay W} `{!DataChan.AEAD} `{!DataChan.AEADLaws} `{!TLSCryptPrims}.
Notation entry := (entry (W := W)).
Notation server := (server (W := W)).

Definition seen (e : entry) : option bytes * assignment * bool :=
  (AssignedIP (e_sess e), e_assign e, l_published (s_life (e_sess e))).
Definition view (v : server) (id : nat) : option bytes * assignment * bool :=
  match sv_heap v !! id with Some e => seen e | None => (None, Unassigned, false) end.

(** [home]: the addresses that may be leased. *)
Inductive view_step (home : bytes -> Prop) : option bytes * assignment * bool -> option bytes * assignment * bool -> Prop :=
  | vs_same x : view_step home x x
  | vs_lease a l b : home (IpPool.l_ip l) -> view_step home (a, Unassigned, b) (a, Leased l, b)
  | vs_settle a s b : view_step home (a, s, b) (a, Settled, b)
  | vs_publish l b : view_step home (None, Leased l, b) (Some (IpPool.l_ip l), Settled, b)
  | vs_open ip s : view_step home (Some ip, s, false) (Some ip, s, true).

Record effect (home : bytes -> Prop) (v v' : server) (calls : list nat) : Prop := {
  ef_view : forall id, view_step home (view v id) (view v' id);
  ef_calls : (calls = [] /\ forall id, (view v' id).2 = (view v id).2) \/
    exists id, calls = [id] /\ (view v id).2 = false /\ (view v' id).2 = true /\ is_Some (view v id).1.1 /\
      forall j, j <> id -> (view v' j).2 = (view v j).2;
  ef_pool : same_pool v v';
}.

Variables (cfg : settings) (home : bytes -> Prop).

Lemma effect_none (v v' : server) : (forall id, view v' id = view v id) -> same_pool v v' -> effect home v v' [].
Proof. intros Hv Hp. constructor; [intros id; rewrite Hv; constructor|left; split; [done|intros id; by rewrite Hv]|done]. Qed.

Lemma effect_heap (v v' : server) : sv_heap v' = sv_heap v -> sv_pool v' = sv_pool v -> effect home v v' [].
Proof. intros Hh Hp. apply effect_none; [intros id; unfold view; by rewrite Hh|by apply same_pool_refl]. Qed.

Lemma view_put (v : server) (id j : nat) (e : entry) : view (put id e v) j = if decide (j = id) then seen e else view v j.
Proof.
  unfold view. cbn [put with_heap sv_heap]. destruct (decide (j = id)) as [->|Hne]; [by rewrite lookup_insert_eq|].
  by rewrite lookup_insert_ne.
Qed.

(** A step that first puts an entry that looks the same. *)
Lemma effect_after (v v1 v2 : server) (calls : list nat) :
  (forall id, view v1 id = view v id) -> sv_pool v1 = sv_pool v -> effect home v1 v2 calls -> effect home v v2 calls.
Proof.
  intros Hv Hp [E1 E2 E3]. constructor; [intros id; by rewrite <- Hv| |eapply same_pool_trans; [by apply same_pool_refl|exact E3]].
  destruct E2 as [(-> & E)|(id & -> & F1 & F2 & F3 & F4)]; [left; split; [done|intros id; by rewrite <- Hv]|].
  right. exists id. rewrite <- Hv. split_and!; try done. intros j Hj. rewrite <- Hv. by apply F4.
Qed.

Lemma view_same (v : server) (id : nat) (e e' : entry) :
  sv_heap v !! id = Some e -> seen e' = seen e -> forall j, view (put id e' v) j = view v j.
Proof. intros He Hs j. rewrite view_put. destruct (decide (j = id)) as [->|]; [|done]. rewrite Hs. unfold view. by rewrite He. Qed.

Lemma opened_pairs (id : nat) (acts : list action) :
  opened (map (pair id) acts) = map (fun _ => id) (List.filter is_opened acts).
Proof. induction acts as [|a acts IH]; [done|]. cbn. destruct (is_opened a); cbn; by rewrite <- IH. Qed.

Lemma session_event_effect (id : nat) (ev : event (W := W)) (v v' : server) (acts : list action) :
  (forall e, sv_heap v !! id = Some e -> addressed (e_sess e)) -> publishes_lease ev = false ->
  session_event cfg id ev v = Ok (v', acts) -> effect home v v' (opened (map (pair id) acts)).
Proof.
  intros Ha Hp. unfold session_event. destruct (sv_heap v !! id) as [e|] eqn:He; [|intros [= <- <-]; by apply effect_heap].
  destruct (exec cfg (e_state e) ev) as [[st a]| |] eqn:Ex; outcome_simpl; [|done..]. intros [= <- <-].
  apply exec_lstep in Ex. rewrite Hp in Ex. destruct (lstep_lease _ _ _ _ _ Ex) as [Ei _].
  pose proof (lstep_opened _ _ _ _ _ Ex (Ha e eq_refl)) as Ho. rewrite at_once_all, opened_pairs.
  set (e' := set_todo _ (set_state st e)).
  match goal with |- effect _ _ ?v' _ => set (v1 := v') end.
  assert (Hv1 : forall j, view v1 j = if decide (j = id) then seen e' else view v j) by (intros j; apply (view_put v id j e')).
  assert (Hseen : seen e' = (AssignedIP (e_sess e), e_assign e, l_published (s_life st.1))) by (unfold e', seen, e_sess in *; cbn; by rewrite Ei).
  assert (Hid : view v id = seen e) by (unfold view; by rewrite He).
  destruct Ho as [(Eo & ->)|(E1 & E2 & [ip Hip] & ->)]; cbn [map].
  - apply effect_none; [|by apply same_pool_refl]. intros j. rewrite Hv1. destruct (decide (j = id)) as [->|]; [|done].
    rewrite Hseen, Hid, Eo. done.
  - constructor; [| |by apply same_pool_refl].
    + intros j. rewrite Hv1. destruct (decide (j = id)) as [->|]; [|constructor]. rewrite Hseen, Hid. unfold seen, e_sess in *.
      rewrite Hip, E1, E2. constructor.
    + right. exists id. rewrite Hv1, decide_True, Hseen, Hid by done. unfold seen. cbn [fst snd]. split; [done|]. split; [done|].
      split; [done|]. split; [eexists; exact Hip|]. intros j Hj. by rewrite Hv1, decide_False.
Qed.

Lemma server_addressed (v : server) (id : nat) (e : entry) : server_inv v -> sv_heap v !! id = Some e -> addressed (e_sess e).
Proof. intros Hv He. apply (eo_listed _ (vi_entry v Hv id e He)). Qed.

(** A step that changes one session's assignment only. *)
Lemma effect_assign (v v' : server) (id : nat) (e : entry) (a : assignment) :
  sv_heap v !! id = Some e -> sv_heap v' = <[id := set_assign a e]> (sv_heap v) -> same_pool v v' ->
  (a = Settled \/ exists l, a = Leased l /\ e_assign e = Unassigned /\ home (IpPool.l_ip l)) -> effect home v v' [].
Proof.
  intros He Hh Hp Ha.
  assert (Hid : view v id = seen e) by (unfold view; by rewrite He).
  assert (Hv' : forall j, view v' j = if decide (j = id) then seen (set_assign a e) else view v j).
  { intros j. rewrite <- view_put. unfold view. by rewrite Hh. }
  constructor; [| |done].
  - intros j. rewrite Hv'. destruct (decide (j = id)) as [->|]; [|constructor]. rewrite Hid. unfold seen. cbn [set_assign e_assign].
    change (e_sess (set_assign a e)) with (e_sess e). destruct Ha as [->|(l & -> & -> & Hl)]; by constructor.
  - left. split; [done|]. intros j. rewrite Hv'. destruct (decide (j = id)) as [->|]; [|done]. by rewrite Hid.
Qed.

Lemma handleDataDatagram_effect (now : Z) (pick : bool) (opcode : Z) (packet : bytes) (v v' : server) (acts : list (nat * action)) :
  server_inv v -> handleDataDatagram cfg now pick opcode packet v = Ok (v', acts) -> effect home v v' (opened acts).
Proof.
  intros Hv. unfold handleDataDatagram. destruct (negb _); [intros [= <- <-]; by apply effect_heap|].
  destruct (_ <? 4); [intros [= <- <-]; by apply effect_heap|]. destruct (packetPeerID packet) as [p| |]; outcome_simpl; [|done..].
  destruct (sv_dataSessions v !! p) as [id|]; [|intros [= <- <-]; by apply effect_heap].
  destruct (session_event cfg id (EData now pick packet) v) as [[v1 a1]| |] eqn:Es; outcome_simpl; [|done..]. intros [= <- <-].
  refine (session_event_effect id _ _ _ _ (fun e => server_addressed v id e Hv) _ Es). done.
Qed.

Lemma deliver_control_effect (now : Z) (pick : bool) (id : nat) (cp : ControlPacket) (v v' : server) (acts : list (nat * action)) :
  server_inv v -> deliver_control cfg now pick id cp v = Ok (v', acts) -> effect home v v' (opened acts).
Proof.
  intros Hv. unfold deliver_control. destruct (_ =? _).
  - destruct (session_event cfg id (ESoftReset now cp) v) as [[v1 a1]| |] eqn:Es; outcome_simpl; [|done..]. intros [= <- <-].
    refine (session_event_effect id _ _ _ _ (fun e => server_addressed v id e Hv) _ Es). done.
  - intros [= <- <-]. unfold enqueue. destruct (sv_heap v !! id) as [e|] eqn:He; [|by apply effect_heap]. cbv zeta.
    destruct (_ && _); [|by apply effect_heap]. apply effect_none; [by apply (view_same v id e)|by apply same_pool_refl].
Qed.

Lemma finish_job_effect (now : Z) (pick : bool) (j : job (W := W)) (v v' : server) (acts : list (nat * action)) :
  server_inv v -> job_ok j -> finish_job cfg now pick j v = Ok (v', acts) -> effect home v v' (opened acts).
Proof.
  intros Hv Hj. destruct j as [id hdr packet|addr hdr packet|id cp|e cp]; cbn [finish_job];
    try (intros [= <- <-]; by apply effect_heap); [by apply deliver_control_effect|].
  unfold insert_candidate. destruct (sv_sessions v !! e_key e) as [id|]; [by apply deliver_control_effect|]. intros [= <- <-].
  apply effect_none; [|by apply same_pool_refl]. intros i. unfold view. cbn [Server.count sv_heap].
  destruct (decide (i = sv_next v)) as [->|Hne]; [|by rewrite lookup_insert_ne]. rewrite lookup_insert_eq.
  destruct (sv_heap v !! sv_next v) as [x|] eqn:Hx; [by apply (vi_fresh v Hv) in Hx; lia|].
  destruct Hj as (Es & Ea & _). unfold seen, e_sess. by rewrite Es, Ea.
Qed.

Lemma authenticate_job_effect (tlsKey : bytes) (serverSID : option bytes) (j : job (W := W)) (v v' : server) (j' : option (job (W := W))) :
  authenticate_job tlsKey serverSID j v = Ok (v', j') -> effect home v v' [].
Proof.
  destruct j as [id hdr packet|addr hdr packet|id cp|e cp]; cbn [authenticate_job]; try (intros [= <- <-]; by apply effect_heap).
  - destruct (sv_heap v !! id) as [e|] eqn:He; [|intros [= <- <-]; by apply effect_heap].
    destruct (authenticate_control (e_wrapper e) hdr packet) as [[cp| |] w]; outcome_simpl; [|done..].
    intros E. assert (Hh : sv_heap v' = sv_heap (put id (set_tls w e) v) /\ sv_pool v' = sv_pool v) by (by destruct cp; apply (inj Ok) in E; simplify_eq).
    destruct Hh as [Hh Hp]. apply effect_none; [|by apply same_pool_refl]. intros i. rewrite <- (view_same v id e (set_tls w e)) by done.
    unfold view. by rewrite Hh.
  - destruct (NewWrapper tlsKey true) as [w| |], serverSID as [sid|]; try (intros [= <- <-]; by apply effect_heap).
    destruct (authenticate_control w hdr packet) as [[cp| |] w']; outcome_simpl; [|done..].
    intros E. destruct cp; apply (inj Ok) in E; simplify_eq; by apply effect_heap.
Qed.

Lemma do_next_effect (id : nat) (v : server) : effect home v (do_next id v) [].
Proof.
  destruct (sv_heap v !! id) as [e|] eqn:He; [|unfold do_next; rewrite He; by apply effect_heap].
  destruct (e_todo e) as [|a rest] eqn:Et; [unfold do_next; rewrite He, Et; by apply effect_heap|].
  destruct (do_next_heap v id e a rest He Et) as (Hh & _ & _ & _ & Hp). apply effect_none; [|done]. intros j.
  rewrite <- (view_same v id e (set_todo rest e)) by done. unfold view. by rewrite Hh.
Qed.

Lemma giveUp_effect (id : nat) (e : entry) (l : IpPool.lease) (v : server) :
  sv_heap v !! id = Some e -> effect home v (giveUp id e l v) [].
Proof.
  intros He. apply (effect_assign v _ id e Settled); try done; [|by left]. unfold same_pool, giveUp. cbn. by destruct (sv_pool v).
Qed.

Lemma publish_effect (now queue : Z) (id : nat) (v v' : server) :
  server_inv v -> publish cfg now queue id v = Ok v' -> effect home v v' [].
Proof.
  intros Hv. unfold publish. destruct (sv_heap v !! id) as [e|] eqn:He; [|intros [= <-]; by apply effect_heap].
  destruct (e_assign e) as [|want|want o|l|] eqn:Ea; try (intros [= <-]; by apply effect_heap).
  assert (Hip : AssignedIP (e_sess e) = None).
  { destruct (AssignedIP (e_sess e)) eqn:E; [|done]. pose proof (eo_settled _ (vi_entry v Hv id e He)) as Hs. rewrite E, Ea in Hs. by specialize (Hs ltac:(by eexists)). }
  destruct (k_dataKeys _) as [dk|]; [|done]. destruct (ServerSlots _ _) as [keys| |]; [|done..].
  destruct (DataChan.NewWrapper keys _ _) as [w| |]; [|intros [= <-]; by apply giveUp_effect|done].
  destruct (closing (e_sess e)) eqn:Ec; [intros [= <-]; by apply giveUp_effect|].
  unfold session_event. cbn [put with_heap sv_heap]. rewrite lookup_insert_eq. change (e_state (set_assign Settled e)) with (e_state e).
  destruct (e_state e) as [s fl] eqn:Est. assert (Hs : e_sess e = s) by (unfold e_sess; by rewrite Est). rewrite Hs in Hip, Ec.
  cbn [exec]. unfold publishLease. rewrite Hip, Ec. outcome_simpl. intros [= <-]. cbn [foldl].
  assert (Hid : view v id = (None, Leased l, l_published (s_life s))) by (unfold view; rewrite He; unfold seen; by rewrite Hs, Hip, Ea).
  match goal with |- effect _ _ ?v1 _ => set (v2 := v1) end.
  assert (Hv2 : forall j, view v2 j = if decide (j = id) then (Some (IpPool.l_ip l), Settled, l_published (s_life s)) else view v j).
  { intros j. unfold view, v2. cbn [with_routes put with_heap sv_heap]. rewrite insert_insert_eq.
    destruct (decide (j = id)) as [->|Hne]; [by rewrite lookup_insert_eq|by rewrite lookup_insert_ne]. }
  constructor; [| |by apply same_pool_refl].
  - intros j. rewrite Hv2. destruct (decide (j = id)) as [->|]; [|constructor]. rewrite Hid. constructor.
  - left. split; [done|]. intros j. rewrite Hv2. destruct (decide (j = id)) as [->|]; [|done]. by rewrite Hid.
Qed.

(** Where no hook assigns addresses. *)
Definition unhooked (ev : sevent (W := W)) : Prop := match ev with SAssign _ hook => hook = None | _ => True end.
Definition plain_assign (a : assignment) : Prop := match a with Looking _ | Waiting _ _ => False | _ => True end.

Lemma sexec_effect (tlsKey : bytes) (queue : Z) (v v' : server) (ev : sevent (W := W)) (acts : list (nat * action)) :
  server_inv v -> unhooked ev -> (forall id, plain_assign (view v id).1.2) ->
  (forall p o, sv_pool v = Some p -> 2 <= o < IpPool.p_size p - 1 -> home (be32 (IpPool.p_base p +u32 o))) ->
  sexec cfg tlsKey queue v ev = Ok (v', acts) -> effect home v v' (opened acts).
Proof.
  intros Hv Hu Hpl Hhome.
  assert (Hid : forall A, Ok (E := DataChan.dc_error) (v, A) = Ok (v', acts) -> A = [] -> effect home v v' (opened acts)).
  { intros A [= <- <-] ->. by apply effect_heap. }
  destruct ev as [now pick addr packet|j sid|now pick j|now id|id ev|id|id hook|id order|id|now id|]; cbn [sexec unhooked] in *.
  - unfold arrive. destruct packet as [|b packet]; [outcome_simpl; intros [= <- <-]; by apply effect_heap|]. destruct (_ && _).
    + destruct (handleDataDatagram _ _ _ _ _ _) as [[v1 a1]| |] eqn:Ed; outcome_simpl; [|done..]. intros [= <- <-].
      apply (handleDataDatagram_effect _ _ _ _ _ _ _ Hv) in Ed as [E1 E2 E3]. by constructor.
    + destruct (lookup_datagram _ _ _); outcome_simpl; intros [= <- <-]; by apply effect_heap.
  - destruct (sv_jobs v !! j) as [jb|]; [|intros E; by apply (Hid [])]. unfold as_dc.
    destruct (authenticate_job tlsKey sid jb v) as [[v1 j1]| |] eqn:Ej; outcome_simpl; [|done..]. intros [= <- <-].
    apply authenticate_job_effect in Ej as [E1 E2 E3]. by constructor.
  - destruct (sv_jobs v !! j) as [jb|] eqn:Ej; [|intros E; by apply (Hid [])]. pose proof (fresh_jobs v Hv) as Hf.
    assert (Hjb : job_ok jb) by (rewrite Forall_lookup in Hf; by eapply Hf).
    assert (Hi : server_inv (with_jobs (delete j (sv_jobs v)) v)) by (apply jobs_inv; [by apply Forall_delete|done]).
    destruct jb as [| |id cp|e cp]; try (intros E; by apply (Hid []));
      intros E; (eapply effect_after; [| |exact (finish_job_effect _ _ _ _ _ _ Hi Hjb E)]; done).
  - destruct (sv_heap v !! id) as [e|] eqn:He; [|intros E; by apply (Hid [])]. destruct (e_inbound e) as [|cp rest]; [intros E; by apply (Hid [])|].
    destruct (session_event cfg id _ _) as [[v1 a1]| |] eqn:Es; outcome_simpl; [|done..]. intros [= <- <-].
    eapply effect_after; [apply (view_same v id e (set_inbound rest e) He); done|done|]. refine (session_event_effect id _ _ _ _ _ _ Es); [|done].
    intros x. cbn [put with_heap sv_heap]. rewrite lookup_insert_eq. intros [= <-]. by apply (server_addressed v id e).
  - destruct (own_event ev && in_order id ev v) eqn:Eo; [|intros E; by apply (Hid [])]. apply andb_true_iff in Eo as [Eo _].
    destruct (session_event cfg id ev v) as [[v1 a1]| |] eqn:Es; outcome_simpl; [|done..]. intros [= <- <-].
    refine (session_event_effect id _ _ _ _ (fun e => server_addressed v id e Hv) _ Es). by apply own_not_publish.
  - intros [= <- <-]. apply do_next_effect.
  - subst hook. destruct (sv_heap v !! id) as [e|] eqn:He; [|intros E; by apply (Hid [])].
    destruct (e_assign e) eqn:Ea, (sv_pool v) as [p|] eqn:Ep; try (intros E; by apply (Hid [])).
    case_bool_decide; [intros E; by apply (Hid [])|]. intros [= <- <-]. cbn [assign_first]. unfold allocateFromPool. rewrite Ep.
    pose proof (vi_pool v Hv) as HP. rewrite Ep in HP. cbn in HP. pose proof (IpPool.allocate_cases p (IpPool.li_wf _ _ HP)) as HC.
    destruct (IpPool.allocate p) as [[[ip peer]|e0|] p'] eqn:Eal; [| |done].
    + destruct HC as (o & -> & -> & (Ho & _) & _). eapply (effect_assign v _ id e (Leased _)); [done|done| |].
      * unfold same_pool. rewrite Ep. done.
      * right. eexists. split; [done|]. split; [done|]. cbn. by apply Hhome.
    + destruct HC as (_ & -> & _). eapply (effect_assign v _ id e Settled); [done|done| |by left]. unfold same_pool. rewrite Ep. done.
  - destruct (sv_heap v !! id) as [e|] eqn:He; [|intros E; by apply (Hid [])]. specialize (Hpl id). unfold view in Hpl. rewrite He in Hpl. cbn in Hpl.
    destruct (e_assign e); try done; intros E; by apply (Hid []).
  - destruct (sv_heap v !! id) as [e|] eqn:He; [|intros E; by apply (Hid [])]. specialize (Hpl id). unfold view in Hpl. rewrite He in Hpl. cbn in Hpl.
    destruct (e_assign e); try done; intros E; by apply (Hid []).
  - destruct (publish cfg now queue id v) as [v1| |] eqn:Ep; outcome_simpl; [|done..]. intros [= <- <-]. by apply (publish_effect now queue id).
  - intros [= <- <-]. by apply effect_heap.
Qed.
End view.

(** ** The steps of the stack keep the owners of its attachments *)

Section owners.
Definition owner (st : Stack.Stack) (a : nat) : option (nat * bytes) :=
  (fun att => (Stack.at_sess att, Stack.at_ip att)) <$> Stack.s_atts st !! a.

(** The same server address and the same attachments, but for their state. *)
Definition same_owners (st st' : Stack.Stack) : Prop :=
  Stack.s_serverIP st' = Stack.s_serverIP st /\ forall a, owner st' a = owner st a.

Lemma owners_trans (s1 s2 s3 : Stack.Stack) : same_owners s1 s2 -> same_owners s2 s3 -> same_owners s1 s3.
Proof. intros [E1 F1] [E2 F2]. split; [congruence|]. intros a. by rewrite F2. Qed.

Lemma core_owners (st st' : Stack.Stack) : Stack.same_core st st' -> same_owners st st'.
Proof. intros (E1 & _ & _ & _ & E2 & _). split; [done|]. intros a. unfold owner. by rewrite E2. Qed.

Lemma stop_owner (att : Stack.attachment) : Stack.at_sess (Stack.stop att) = Stack.at_sess att /\ Stack.at_ip (Stack.stop att) = Stack.at_ip att.
Proof. unfold Stack.stop. by destruct (Stack.at_stopped att). Qed.

Lemma stopAt_owners (st : Stack.Stack) (a : nat) : same_owners st (Stack.stopAt st a).
Proof.
  split; [done|]. intros b. unfold owner. cbn. destruct (decide (b = a)) as [->|Hne]; [|by rewrite lookup_alter_ne].
  rewrite lookup_alter_eq. destruct (Stack.s_atts st !! a) as [att|]; [|done]. cbn. by destruct (stop_owner att) as [-> ->].
Qed.

Lemma detach_owners (st : Stack.Stack) (a : nat) : same_owners st (Stack.detachAttachment st a).
Proof.
  unfold Stack.detachAttachment. destruct (Stack.s_atts st !! a) as [att|]; [|done].
  eapply owners_trans; [|apply stopAt_owners]. by destruct (bool_decide _).
Qed.

Lemma close_owners (st : Stack.Stack) : same_owners st (Stack.Close st).
Proof.
  unfold Stack.Close. destruct (Stack.s_stopped st); [done|].
  enough (Hl : forall l s, same_owners s (foldl (fun s (ra : bytes * nat) => Stack.stopAt s ra.2) s l))
    by (eapply owners_trans; [|apply Hl]; done).
  induction l as [|x l IH]; intros s; [done|]. eapply owners_trans; [apply stopAt_owners|apply IH].
Qed.

Lemma with_att_owners (st : Stack.Stack) (a : nat) (att : Stack.attachment) (r : Reassembly.reassembler) :
  Stack.s_atts st !! a = Some att -> same_owners st (Stack.with_att st a (Stack.set_reasm att r)).
Proof.
  intros Ha. split; [done|]. intros b. unfold owner. cbn. destruct (decide (b = a)) as [->|Hne]; [|by rewrite lookup_insert_ne].
  by rewrite lookup_insert_eq, Ha.
Qed.

Variable writeOK : nat -> bytes -> bool.

(** A round of a read loop succeeds; what it does is addressed as the attachment is. *)
Lemma afterRead_total (st : Stack.Stack) (a : nat) (buf now : Z) (res : option bytes) :
  Stack.stack_inv st -> (forall pkt, res = Some pkt -> bytes_ok pkt) ->
  exists st' next acts, Stack.afterRead writeOK st a buf res now = Ok (st', next, acts) /\ Stack.stack_inv st' /\ same_owners st st' /\
    (Stack.s_atts st !! a = None -> acts = []) /\
    forall att, Stack.s_atts st !! a = Some att -> Forall (Stack.act_ok st a (Stack.at_ip att)) acts.
Proof.
  intros Hi Hok.
  enough (Hx : exists st' next acts, Stack.afterRead writeOK st a buf res now = Ok (st', next, acts) /\ same_owners st st' /\
    (Stack.s_atts st !! a = None -> acts = []) /\ forall att, Stack.s_atts st !! a = Some att -> Forall (Stack.act_ok st a (Stack.at_ip att)) acts).
  { destruct Hx as (st' & next & acts & E & Ho & Ha). exists st', next, acts. split; [done|]. split; [|done].
    by apply (Stack.afterRead_inv writeOK st st' a buf now res next acts). }
  unfold Stack.afterRead. destruct (Stack.s_atts st !! a) as [att|] eqn:Ha; [|by eexists st, None, []].
  destruct res as [pkt|].
  - destruct (Stack.at_stopped att); [by eexists st, None, []; split_and!|].
    destruct (Stack.deliver_ok writeOK st a att now pkt Hi Ha (Hok pkt eq_refl)) as (s' & acts & r & -> & Hc & _ & Hacts & _).
    outcome_simpl. eexists s', (Some buf), acts. split; [done|]. split; [|split; [done|by intros ? [= <-]]].
    eapply owners_trans; [by apply with_att_owners|by apply core_owners].
  - destruct (_ <? _); eexists _, _, []; (split; [done|]; split; [|done]); [by apply core_owners|apply detach_owners].
Qed.

Lemma writePacket_total (st : Stack.Stack) (a : nat) (pkt : bytes) :
  Stack.stack_inv st -> bytes_ok pkt ->
  exists err st' acts, Stack.writePacket writeOK st a pkt = Ok (err, st', acts) /\ Stack.stack_inv st' /\ same_owners st st'.
Proof.
  intros Hi Hok. destruct (Stack.writePacket_ok writeOK st a pkt Hok (Stack.si_mtu _ Hi)) as (err & s' & acts & E & Hc & _).
  exists err, s', acts. split; [done|]. split; [by apply (Stack.core_inv st)|by apply core_owners].
Qed.
End owners.

(** ** The invariant *)

Section invariant.
Context {W : Type} `{!AntiReplay W} `{!DataChan.AEAD} `{!DataChan.AEADLaws} `{!TLSCryptPrims}.
Notation server := (server (W := W)).
Notation web := (web (W := W)).

(** An address of pool [p] that a client may have. *)
Definition client_address (p : IpPool.ipPool) (ip : bytes) : Prop :=
  exists o, 2 <= o < IpPool.p_size p - 1 /\ ip = be32 (IpPool.p_base p +u32 o).

Record web_inv (p : IpPool.ipPool) (w : web) : Prop := {
  wi_server : server_inv (ws_server w);
  wi_pool : exists p', sv_pool (ws_server w) = Some p' /\ IpPool.p_base p' = IpPool.p_base p /\ IpPool.p_size p' = IpPool.p_size p;
  wi_view : forall id, plain_assign (view (ws_server w) id).1.2 /\
    (forall ip, (view (ws_server w) id).1.1 = Some ip -> client_address p ip) /\
    (forall l, (view (ws_server w) id).1.2 = Leased l -> client_address p (IpPool.l_ip l));
  wi_nodup : NoDup (ws_calls w);
  wi_calls : forall id, id ∈ ws_calls w -> (view (ws_server w) id).2 = true /\ is_Some (view (ws_server w) id).1.1 /\
    forall a x, owner (ws_stack w) a = Some x -> x.1 <> id;
  wi_stack : Stack.stack_inv (ws_stack w);
  wi_address : Stack.s_serverIP (ws_stack w) = IpPool.serverIP p;
  wi_atts : forall a x, owner (ws_stack w) a = Some x ->
    (view (ws_server w) x.1).1.1 = Some x.2 /\ (view (ws_server w) x.1).2 = true;
  wi_once : forall a b x y, owner (ws_stack w) a = Some x -> owner (ws_stack w) b = Some y -> x.1 = y.1 -> a = b;
}.

Lemma view_step_keeps (home : bytes -> Prop) (x y : option bytes * assignment * bool) :
  view_step home x y ->
  (forall ip, x.1.1 = Some ip -> y.1.1 = Some ip) /\ (x.2 = true -> y.2 = true) /\
  (plain_assign x.1.2 -> plain_assign y.1.2) /\
  ((forall ip, x.1.1 = Some ip -> home ip) -> (forall l, x.1.2 = Leased l -> home (IpPool.l_ip l)) ->
   (forall ip, y.1.1 = Some ip -> home ip) /\ (forall l, y.1.2 = Leased l -> home (IpPool.l_ip l))).
Proof. destruct 1; cbn; naive_solver. Qed.

(** A step of the server within the composition. *)
Lemma server_step (p : IpPool.ipPool) (v v' : server) (st : Stack.Stack) (calls newcalls : list nat) (loops loops' : gmap nat loop) :
  web_inv p (mkWeb v st calls loops) -> server_inv v' -> effect (client_address p) v v' newcalls ->
  web_inv p (mkWeb v' st (calls ++ newcalls) loops').
Proof.
  intros [I1 (p' & Ep & Eb & Es) I3 I4 I5 I6 I7 I8 I9] Hv' [F1 F2 F3]. cbn [ws_server ws_stack ws_calls ws_loops] in *.
  assert (Hc : forall id, id ∈ calls -> (view v' id).2 = true /\ is_Some (view v' id).1.1).
  { intros id Hid. destruct (I5 id Hid) as (C1 & [ip C2] & _). destruct (view_step_keeps _ _ _ (F1 id)) as (K1 & K2 & _).
    split; [by apply K2|]. exists ip. by apply K1. }
  constructor; cbn [ws_server ws_stack ws_calls ws_loops]; try done.
  - unfold same_pool in F3. rewrite Ep in F3. destruct (sv_pool v') as [p2|]; [|done]. destruct F3 as [G1 G2].
    exists p2. split_and!; [done|congruence|congruence].
  - intros id. destruct (I3 id) as (P1 & P2 & P3). destruct (view_step_keeps _ _ _ (F1 id)) as (_ & _ & K3 & K4).
    split; [by apply K3|]. by apply K4.
  - destruct F2 as [(-> & _)|(id & -> & E1 & _)]; [by rewrite app_nil_r|]. apply NoDup_app. split_and!; [done| |apply NoDup_singleton].
    intros x Hx ->%list_elem_of_singleton. destruct (I5 id Hx) as (E & _). congruence.
  - intros id [Hid|Hid]%elem_of_app.
    + destruct (Hc id Hid). split_and!; try done. by apply I5.
    + destruct F2 as [(-> & _)|(id' & -> & E1 & E2 & [ip E3] & _)]; [by apply not_elem_of_nil in Hid|].
      apply list_elem_of_singleton in Hid as ->. split; [done|]. destruct (view_step_keeps _ _ _ (F1 id')) as (K1 & _).
      split; [exists ip; by apply K1|]. intros a x Ho Hx. destruct (I8 a x Ho) as [_ E]. rewrite Hx in E. congruence.
  - intros a x Ho. destruct (I8 a x Ho) as [E1 E2]. destruct (view_step_keeps _ _ _ (F1 x.1)) as (K1 & K2 & _). auto.
Qed.

(** A session's read or write, seen from here, changes nothing. *)
Lemma quiet_event (cfg : settings) (id : nat) (ev : event (W := W)) (v : server) :
  server_inv v -> match ev with ERead _ _ | EWrite _ _ => True | _ => False end ->
  exists v' acts, session_event cfg id ev v = Ok (v', acts) /\ server_inv v' /\ sv_pool v' = sv_pool v /\ forall i, view v' i = view v i.
Proof.
  intros Hv Hev. destruct (session_event_ok cfg id ev v Hv) as (v' & acts & E & Hi & _); [by destruct ev|by destruct ev|].
  exists v', acts. split; [done|]. split; [done|]. revert E. unfold session_event.
  destruct (sv_heap v !! id) as [e|] eqn:He; [|by intros [= <- <-]].
  destruct (exec cfg (e_state e) ev) as [[st a]| |] eqn:Ex; outcome_simpl; [|done..]. intros [= <- <-]. rewrite at_once_all. split; [done|].
  assert (Hp : s_life st.1 = s_life (e_sess e) /\ AssignedIP st.1 = AssignedIP (e_sess e)).
  { unfold e_sess. destruct (e_state e) as [s fl]. cbn [fst]. destruct ev; try done; cbn [exec] in Ex.
    - apply (inj Ok) in Ex. injection Ex as <- <-. by destruct (Read_plain s n pick) as (? & ? & _).
    - pose proof (Write_plain pcOK s p) as Hw. destruct (Write pcOK s p) as [[r s1] a1]. cbn [fst snd] in Hw.
      destruct r; try done; apply (inj Ok) in Ex; injection Ex as <- <-; by destruct Hw as (? & ? & _). }
  intros i. rewrite <- (view_same v id e (set_todo (e_todo e ++ List.filter later a) (set_state st e)) He); [done|].
  unfold seen, e_sess in *. cbn. by destruct Hp as [-> ->].
Qed.

Lemma perform_quiet (cfg : settings) (writeOK : nat -> bytes -> bool) (st : Stack.Stack) (acts : list Stack.action) (v : server) :
  server_inv v -> exists v' out, perform cfg writeOK st acts v = Ok (v', out) /\ server_inv v' /\ sv_pool v' = sv_pool v /\
    (forall i, view v' i = view v i) /\
    Forall (fun o => match o with
      | ToNetwork id _ => exists a pkt att, Stack.Write a pkt ∈ acts /\ Stack.s_atts st !! a = Some att /\ id = Stack.at_sess att
      | ToHandler act => act ∈ acts /\ match act with Stack.Write _ _ => False | _ => True end
      | Attached _ _ => False end) out.
Proof.
  revert v. induction acts as [|act acts IH]; intros v Hv; [by exists v, []|].
  assert (Hmono : forall o, (match o with
      | ToNetwork id _ => exists a pkt att, Stack.Write a pkt ∈ acts /\ Stack.s_atts st !! a = Some att /\ id = Stack.at_sess att
      | ToHandler act => act ∈ acts /\ match act with Stack.Write _ _ => False | _ => True end
      | Attached _ _ => False end) -> match o with
      | ToNetwork id _ => exists a pkt att, Stack.Write a pkt ∈ act :: acts /\ Stack.s_atts st !! a = Some att /\ id = Stack.at_sess att
      | ToHandler act' => act' ∈ act :: acts /\ match act' with Stack.Write _ _ => False | _ => True end
      | Attached _ _ => False end).
  { intros [id x|x|id r]; [|intros [Hx ?]; split; [by right|done]|done]. intros (a & pkt & att & Hx & ?). exists a, pkt, att. split; [by right|done]. }
  cbn [perform]. destruct act as [a pkt|a src dst payload|a src dst payload].
  - destruct (Stack.s_atts st !! a) as [att|] eqn:Ha.
    + destruct (quiet_event cfg (Stack.at_sess att) (EWrite (Some (fun _ => writeOK a pkt)) pkt) v Hv I) as (v1 & sent & -> & N1 & N2 & N3).
      outcome_simpl. destruct (IH v1 N1) as (v2 & out & -> & G1 & G2 & G3 & G4). outcome_simpl.
      eexists _, _. split; [done|]. split_and!; [done|congruence|intros i; by rewrite G3|]. apply Forall_app. split.
      * apply Forall_map, Forall_forall. intros x _. exists a, pkt, att. split; [apply list_elem_of_here|done].
      * eapply Forall_impl; [exact G4|exact Hmono].
    + destruct (IH v Hv) as (v2 & out & -> & G1 & G2 & G3 & G4). eexists _, _. split_and!; try done. eapply Forall_impl; [exact G4|exact Hmono].
  - destruct (IH v Hv) as (v2 & out & -> & G1 & G2 & G3 & G4). outcome_simpl. eexists _, _. split_and!; try done.
    constructor; [split; [apply list_elem_of_here|done]|]. eapply Forall_impl; [exact G4|exact Hmono].
  - destruct (IH v Hv) as (v2 & out & -> & G1 & G2 & G3 & G4). outcome_simpl. eexists _, _. split_and!; try done.
    constructor; [split; [apply list_elem_of_here|done]|]. eapply Forall_impl; [exact G4|exact Hmono].
Qed.

(** A step of the stack within the composition. *)
Lemma stack_step (p : IpPool.ipPool) (v v' : server) (st st' : Stack.Stack) (calls : list nat) (loops loops' : gmap nat loop) :
  web_inv p (mkWeb v st calls loops) -> server_inv v' -> sv_pool v' = sv_pool v -> (forall i, view v' i = view v i) ->
  Stack.stack_inv st' -> same_owners st st' -> web_inv p (mkWeb v' st' calls loops').
Proof.
  intros [I1 I2 I3 I4 I5 I6 I7 I8 I9] Hv' Hp Hview Hst' [Ho1 Ho2]. cbn [ws_server ws_stack ws_calls ws_loops] in *.
  constructor; cbn [ws_server ws_stack ws_calls ws_loops]; try done.
  - by rewrite Hp.
  - intros id. rewrite Hview. apply I3.
  - intros id Hid. rewrite Hview. destruct (I5 id Hid) as (C1 & C2 & C3). split_and!; try done. intros a x. rewrite Ho2. apply C3.
  - by rewrite Ho1.
  - intros a x. rewrite Ho2, Hview. apply I8.
  - intros a b x y. rewrite !Ho2. apply I9.
Qed.

Lemma to4_client (p : IpPool.ipPool) (ip : bytes) : client_address p ip -> Stack.toIPv4Addr (Some ip) = Ok ip /\ bytes_ok ip.
Proof. intros (o & _ & ->). split; [done|apply be32_bytes]. Qed.

(** A client's address is not the server's. *)
Lemma client_not_server (p : IpPool.ipPool) (ip : bytes) : IpPool.pool_wf p -> client_address p ip -> ip <> IpPool.serverIP p.
Proof.
  intros [Hb Hs] (o & Ho & ->) E. unfold IpPool.serverIP, IpPool.offsetToIP in E.
  assert (Ea : IpPool.addr_of (be32 (IpPool.p_base p +u32 o)) = IpPool.addr_of (be32 (IpPool.p_base p +u32 1))) by by rewrite E.
  rewrite !IpPool.addr_of_be32 in Ea by apply u32_range. injection Ea as Ea. unfold is_u32 in Hb.
  unfold u32 in Ea. Z.div_mod_to_equations. lia.
Qed.

(** What the hook comes to: an attachment, or a refusal because the address is taken. *)
Lemma OnSession_cases (p : IpPool.ipPool) (w : web) (id : nat) :
  web_inv p w -> IpPool.pool_wf p -> id ∈ ws_calls w ->
  exists sess ip, sv_heap (ws_server w) !! id = Some sess /\ AssignedIP (e_sess sess) = Some ip /\ client_address p ip /\
    let calls := List.filter (fun i => negb (i =? id)%nat) (ws_calls w) in
    match Stack.s_routes (ws_stack w) !! ip with
    | Some a => OnSession id w = (mkWeb (ws_server w) (ws_stack w) calls (ws_loops w), [Attached id (Err Stack.ErrDuplicateAttach)])
    | None => let a := Stack.s_next (ws_stack w) in exists st,
        OnSession id w = (mkWeb (ws_server w) st calls (<[a := Top Stack.readBufferSize]> (ws_loops w)), [Attached id (Ok a)]) /\
        Stack.stack_inv st /\ Stack.s_serverIP st = Stack.s_serverIP (ws_stack w) /\ Stack.s_routes st !! ip = Some a /\
        owner (ws_stack w) a = None /\ forall b, owner st b = if decide (b = a) then Some (id, ip) else owner (ws_stack w) b
    end.
Proof.
  intros Hw Hp Hid. destruct (wi_calls _ _ Hw id Hid) as (E1 & [ip E2] & Hno). unfold view in E1, E2.
  destruct (sv_heap (ws_server w) !! id) as [sess|] eqn:He; [|done]. cbn in E1, E2. exists sess, ip.
  assert (Hc : client_address p ip). { apply (wi_view _ _ Hw id). unfold view. by rewrite He. }
  split; [done|]. split; [done|]. split; [done|]. cbv zeta. destruct (to4_client p ip Hc) as [H4 Hb].
  assert (Hx : OnSession id w = match Stack.Attach (ws_stack w) (Some id) (Some ip) with
      | (Ok a, st) => (mkWeb (ws_server w) st (List.filter (fun i => negb (i =? id)%nat) (ws_calls w)) (<[a := Top Stack.readBufferSize]> (ws_loops w)), [Attached id (Ok a)])
      | (r, st) => (mkWeb (ws_server w) st (List.filter (fun i => negb (i =? id)%nat) (ws_calls w)) (ws_loops w), [Attached id r])
      end) by (unfold OnSession; by rewrite He, E2).
  rewrite Hx. clear Hx.
  pose proof (Stack.Attach_inv (ws_stack w) (Some id) (Some ip) (wi_stack _ _ Hw) ltac:(by intros ? [= <-])) as Hinv.
  unfold Stack.Attach in Hinv |- *. rewrite H4 in Hinv |- *. rewrite bool_decide_eq_false_2 in Hinv |- *
    by (rewrite (wi_address _ _ Hw); by apply client_not_server).
  destruct (Stack.s_routes (ws_stack w) !! ip) as [a|] eqn:Er; [done|]. cbn [snd] in Hinv. eexists. split; [done|].
  split; [exact Hinv|]. cbn [Stack.s_serverIP Stack.s_routes]. split; [done|]. split; [apply lookup_insert_eq|].
  assert (Hn : Stack.s_atts (ws_stack w) !! Stack.s_next (ws_stack w) = None).
  { destruct (Stack.s_atts (ws_stack w) !! Stack.s_next (ws_stack w)) as [att|] eqn:E; [|done].
    apply (Stack.si_fresh _ (wi_stack _ _ Hw)) in E. lia. }
  unfold owner. rewrite Hn. split; [done|]. intros b. cbn. destruct (decide (b = _)) as [->|Hne]; [by rewrite lookup_insert_eq|].
  by rewrite lookup_insert_ne.
Qed.

Lemma filter_other (id : nat) (l : list nat) :
  NoDup l -> NoDup (List.filter (fun i => negb (i =? id)%nat) l) /\ forall i, i ∈ List.filter (fun i => negb (i =? id)%nat) l -> i ∈ l /\ i <> id.
Proof.
  intros Hl. split.
  - apply NoDup_ListNoDup. apply List.NoDup_filter. by apply NoDup_ListNoDup.
  - intros i. rewrite !list_elem_of_In, List.filter_In. intros [F1 F2]. split; [done|]. intros ->. by rewrite Nat.eqb_refl in F2.
Qed.

Lemma OnSession_inv (p : IpPool.ipPool) (w : web) (id : nat) :
  web_inv p w -> IpPool.pool_wf p -> id ∈ ws_calls w -> web_inv p (OnSession id w).1.
Proof.
  intros Hw Hp Hid. destruct (OnSession_cases p w id Hw Hp Hid) as (sess & ip & He & Ea & Hc & Hm). cbv zeta in Hm.
  destruct (wi_calls _ _ Hw id Hid) as (E1 & _ & Hno).
  destruct (filter_other id (ws_calls w) (wi_nodup _ _ Hw)) as [Hf1 Hf2]. destruct Hw as [I1 I2 I3 I4 I5 I6 I7 I8 I9].
  destruct (Stack.s_routes (ws_stack w) !! ip) as [a|]; [rewrite Hm|destruct Hm as (st & -> & S1 & S2 & S3 & S4 & S5)];
    constructor; cbn [fst ws_server ws_stack ws_calls ws_loops]; try done.
  - intros i [Hi _]%Hf2. by apply I5.
  - intros i [Hi Hne]%Hf2. destruct (I5 i Hi) as (C1 & C2 & C3). split_and!; try done. intros b x. rewrite S5.
    destruct (decide _); [by intros [= <-]; cbn; congruence|apply C3].
  - by rewrite S2.
  - intros b x. rewrite S5. destruct (decide _); [|apply I8]. intros [= <-]. cbn [fst snd]. split; [|done]. unfold view. rewrite He. exact Ea.
  - intros b c x y. rewrite !S5. destruct (decide (b = _)) as [->|], (decide (c = _)) as [->|]; [done|..].
    + intros [= <-] Hy Exy. cbn in Exy. by destruct (Hno c y Hy).
    + intros Hx [= <-] Exy. cbn in Exy. by destruct (Hno b x Hx).
    + apply I9.
Qed.

Variables (cfg : settings) (tlsKey : bytes) (queue : Z).

(** Every step succeeds and keeps the invariant. *)
Lemma wexec_ok (p : IpPool.ipPool) (w : web) (ev : wevent (W := W)) :
  IpPool.pool_wf p -> web_inv p w -> wevent_ok w ev ->
  exists w' out, wexec cfg tlsKey queue w ev = Ok (w', out) /\ web_inv p w'.
Proof.
  intros Hp Hw Hev. destruct w as [v st calls loops].
  assert (Hloop : forall loops', web_inv p (mkWeb v st calls loops')) by (intros; by apply (stack_step p v v st st calls loops); try apply Hw).
  assert (Hid : exists w' out, Ok (E := DataChan.dc_error) (mkWeb v st calls loops, @nil output) = Ok (w', out) /\ web_inv p w') by (by eexists _, _).
  destruct ev as [ev|id|a|a pick|a now ok|a pkt ok|]; cbn [wexec wevent_ok ws_server ws_loops] in *.
  - destruct Hev as [Hev Hhook]. destruct (sexec_ok cfg tlsKey queue v ev (wi_server _ _ Hw) Hev) as (v' & acts & Hx & Hv').
    rewrite Hx. outcome_simpl. eexists _, _. split; [done|]. apply (server_step p v v' st calls (opened acts) loops); [done|done|].
    destruct (wi_pool _ _ Hw) as (p' & Ep & Eb & Es). cbn [ws_server] in Ep.
    apply (sexec_effect cfg (client_address p) tlsKey queue v v' ev acts (wi_server _ _ Hw)); [by destruct ev| | |done].
    + intros id. apply (wi_view _ _ Hw id).
    + intros q o Hq Ho. rewrite Ep in Hq. injection Hq as <-. exists o. by rewrite <- Es, Eb.
  - case_bool_decide as Hc; [|done]. eexists _, _. split; [apply f_equal, surjective_pairing|]. by apply OnSession_inv.
  - destruct (loops !! a) as [[buf|buf|buf res|]|]; try done. by eexists _, _.
  - destruct (loops !! a) as [[buf|buf|buf res|]|]; try done. destruct (Stack.s_atts st !! a) as [att|]; [|done].
    destruct (sv_heap v !! Stack.at_sess att) as [sess|]; [|done].
    destruct (quiet_event cfg (Stack.at_sess att) (ERead buf pick) v (wi_server _ _ Hw) I) as (v' & acts & E & Hv' & Hpool & Hview).
    rewrite E. outcome_simpl. destruct (Read (e_sess sess) buf pick).1; try done;
      (eexists _, _; split; [done|]; apply (stack_step p v v' st st calls loops); try done; apply Hw).
  - destruct (loops !! a) as [[buf|buf|buf res|]|] eqn:El; try done.
    destruct (afterRead_total ok st a buf now res (wi_stack _ _ Hw)) as (st' & next & acts & -> & S1 & S2 & _).
    { intros pkt ->. by eapply Hev. }
    destruct (perform_quiet cfg ok st' acts v (wi_server _ _ Hw)) as (v' & out & -> & Hv' & Hpool & Hview & _). outcome_simpl.
    eexists _, _. split; [done|]. by apply (stack_step p v v' st st' calls loops).
  - destruct (writePacket_total ok st a pkt (wi_stack _ _ Hw) Hev) as (err & st' & acts & -> & S1 & S2).
    destruct (perform_quiet cfg ok st' acts v (wi_server _ _ Hw)) as (v' & out & -> & Hv' & Hpool & Hview & _). outcome_simpl.
    eexists _, _. split; [done|]. by apply (stack_step p v v' st st' calls loops).
  - eexists _, _. split; [done|]. apply (stack_step p v v st (Stack.Close st) calls loops); try done; [apply Hw| |apply close_owners].
    apply Stack.Close_inv, Hw.
Qed.

Lemma wreachable_inv (p : IpPool.ipPool) (w : web) :
  IpPool.lease_inv p [] -> wreachable cfg tlsKey queue p w -> web_inv p w.
Proof.
  intros Hp. induction 1 as [st Hst Hat Hsrv|w ev w' out _ IH Hev Hx].
  - assert (Ho : forall a, owner st a = None) by (intros a; unfold owner; rewrite Hat; by rewrite lookup_empty).
    constructor; cbn [ws_server ws_stack ws_calls ws_loops]; try done.
    + by apply newServer_inv.
    + by exists p.
    + constructor.
    + by intros id ?%not_elem_of_nil.
    + intros a x. by rewrite Ho.
    + intros a b x y. by rewrite Ho.
  - destruct (wexec_ok p w ev (IpPool.li_wf _ _ Hp) IH Hev) as (w1 & out1 & E & Hi). congruence.
Qed.

(** C2. The example's sessions on its stack.  Whatever clients, the network, the embedder
    and the stack's goroutines do from the start on, every step succeeds; every
    attachment belongs to a session that was handed over and its address is that
    session's tunnel address, one attachment per session, and two attachments in use
    never share an address; and when a read loop delivers what it read from a
    session, everything handed to the TCP or UDP handler has that session's tunnel
    address as its source and the server's as its destination, and everything that
    leaves goes out through that session.  So the address the site shows and answers
    to is the one assigned to the client whose packets these are. *)
Theorem web_sessions (p : IpPool.ipPool) (w : web) :
  IpPool.lease_inv p [] -> wreachable cfg tlsKey queue p w ->
  (forall ev, wevent_ok w ev -> exists w' out, wexec cfg tlsKey queue w ev = Ok (w', out)) /\
  (forall a att, Stack.s_atts (ws_stack w) !! a = Some att -> exists sess,
     sv_heap (ws_server w) !! Stack.at_sess att = Some sess /\ AssignedIP (e_sess sess) = Some (Stack.at_ip att) /\
     l_published (s_life (e_sess sess)) = true /\ client_address p (Stack.at_ip att) /\
     forall b att', Stack.s_atts (ws_stack w) !! b = Some att' -> b <> a ->
       Stack.at_sess att' <> Stack.at_sess att /\
       (Stack.at_ip att' = Stack.at_ip att -> Stack.at_stopped att = true \/ Stack.at_stopped att' = true)) /\
  (forall a now ok buf res att w' out,
     ws_loops w !! a = Some (Got buf res) -> (forall pkt, res = Some pkt -> bytes_ok pkt) ->
     Stack.s_atts (ws_stack w) !! a = Some att -> wexec cfg tlsKey queue w (WDeliver a now ok) = Ok (w', out) ->
     Forall (fun o => match o with
       | ToNetwork id _ => id = Stack.at_sess att
       | ToHandler (Stack.ToTCP a' src dst _) | ToHandler (Stack.ToUDP a' src dst _) =>
           a' = a /\ src = Stack.at_ip att /\ dst = IpPool.serverIP p
       | ToHandler (Stack.Write _ _) | Attached _ _ => False
       end) out).
Proof.
  intros Hp Hr. pose proof (wreachable_inv p w Hp Hr) as Hw. pose proof (IpPool.li_wf _ _ Hp) as Hwf.
  assert (Hown : forall a att, Stack.s_atts (ws_stack w) !! a = Some att -> owner (ws_stack w) a = Some (Stack.at_sess att, Stack.at_ip att))
    by (intros a att Ha; unfold owner; by rewrite Ha).
  split_and!.
  - intros ev Hev. destruct (wexec_ok p w ev Hwf Hw Hev) as (w' & out & E & _). by exists w', out.
  - intros a att Ha. destruct (wi_atts _ _ Hw _ _ (Hown _ _ Ha)) as [E1 E2]. cbn in E1, E2.
    pose proof (wi_view _ _ Hw (Stack.at_sess att)) as (_ & Hv & _). pose proof (Hv _ E1) as Hc. unfold view in E1, E2.
    destruct (sv_heap (ws_server w) !! Stack.at_sess att) as [sess|]; [|done]. exists sess. split_and!; try done.
    intros b att' Hb Hne. split; [intros E; destruct Hne; apply (wi_once _ _ Hw b a _ _ (Hown _ _ Hb) (Hown _ _ Ha)); done|].
    intros Eip. destruct (Stack.at_stopped att) eqn:S1; [by left|]. destruct (Stack.at_stopped att') eqn:S2; [by right|].
    pose proof (Stack.si_live _ (wi_stack _ _ Hw) a att Ha S1) as R1. pose proof (Stack.si_live _ (wi_stack _ _ Hw) b att' Hb S2) as R2.
    rewrite Eip in R2. congruence.
  - intros a now ok buf res att w' out El Hok Ha. pose proof (wi_stack _ _ Hw) as Hst. pose proof (wi_address _ _ Hw) as Hs.
    destruct w as [v st calls loops]. cbn [ws_server ws_stack ws_loops wexec] in *. rewrite El.
    destruct (afterRead_total ok st a buf now res Hst Hok) as (st' & next & acts & -> & _ & [_ Ho] & _ & Hacts). specialize (Hacts att Ha).
    destruct (perform_quiet cfg ok st' acts v (wi_server _ _ Hw)) as (v' & o & -> & _ & _ & _ & Hout). outcome_simpl. intros [= <- <-].
    rewrite Forall_forall in Hacts. eapply Forall_impl; [exact Hout|]. intros [id x|act|id r]; [|intros [Hin Hwr]|done].
    + intros (b & pkt & att' & Hin & Hb & ->). apply Hacts in Hin as [-> _]. specialize (Ho a). unfold owner in Ho. rewrite Ha, Hb in Ho. by injection Ho.
    + apply Hacts in Hin. rewrite <- Hs. by destruct act.
Qed.

(** When the hook of a session handed over runs, the session has its tunnel address,
    and either it is attached there with a read loop of its own, or the address still
    leads to the attachment of another session that had it: then one of the two has
    been torn down already, and the stack is left as it is. *)
Theorem web_attach (p : IpPool.ipPool) (w : web) (id : nat) :
  IpPool.lease_inv p [] -> wreachable cfg tlsKey queue p w -> id ∈ ws_calls w ->
  exists sess ip w' out, sv_heap (ws_server w) !! id = Some sess /\ AssignedIP (e_sess sess) = Some ip /\
    wexec cfg tlsKey queue w (WOnSession id) = Ok (w', out) /\ ws_server w' = ws_server w /\ id ∉ ws_calls w' /\
    ((exists a, out = [Attached id (Ok a)] /\ Stack.s_routes (ws_stack w') !! ip = Some a /\ owner (ws_stack w') a = Some (id, ip) /\
        ws_loops w' !! a = Some (Top 2048)) \/
     (out = [Attached id (Err Stack.ErrDuplicateAttach)] /\ ws_stack w' = ws_stack w /\ ws_loops w' = ws_loops w /\
      exists a att other, Stack.s_routes (ws_stack w) !! ip = Some a /\ Stack.s_atts (ws_stack w) !! a = Some att /\
        Stack.at_sess att <> id /\ sv_heap (ws_server w) !! Stack.at_sess att = Some other /\ AssignedIP (e_sess other) = Some ip /\
        (torn sess = true \/ torn other = true))).
Proof.
  intros Hp Hr Hid. pose proof (wreachable_inv p w Hp Hr) as Hw. pose proof (IpPool.li_wf _ _ Hp) as Hwf.
  destruct (OnSession_cases p w id Hw Hwf Hid) as (sess & ip & He & Ea & Hc & Hm). cbv zeta in Hm.
  assert (Hx : wexec cfg tlsKey queue w (WOnSession id) = Ok (OnSession id w)) by (destruct w; cbn [wexec]; by rewrite bool_decide_eq_true_2).
  assert (Hnot : id ∉ List.filter (fun i => negb (i =? id)%nat) (ws_calls w)).
  { intros Hin. by destruct (proj2 (filter_other id (ws_calls w) (wi_nodup _ _ Hw)) id Hin). }
  destruct (Stack.s_routes (ws_stack w) !! ip) as [a|] eqn:Er.
  - exists sess, ip. eexists _, _. split; [done|]. split; [done|]. split; [by rewrite Hx, Hm|]. split; [done|]. split; [exact Hnot|]. right.
    split; [done|]. split; [done|]. split; [done|]. destruct (Stack.si_routes _ (wi_stack _ _ Hw) ip a Er) as (att & Ha & Hip & _).
    assert (Hown : owner (ws_stack w) a = Some (Stack.at_sess att, ip)) by (unfold owner; rewrite Ha, <- Hip; done).
    destruct (wi_atts _ _ Hw a _ Hown) as [E1 E2]. cbn in E1, E2. destruct (wi_calls _ _ Hw id Hid) as (_ & _ & Hno).
    pose proof (Hno a _ Hown) as Hne. cbn in Hne. unfold view in E1. destruct (sv_heap (ws_server w) !! Stack.at_sess att) as [other|] eqn:Ho; [|done].
    cbn in E1. exists a, att, other. split_and!; try done. destruct (torn sess) eqn:T1; [by left|]. destruct (torn other) eqn:T2; [by right|].
    destruct Hne. apply (published_alone (ws_server w) _ id other sess ip (wi_server _ _ Hw)); done.
  - destruct Hm as (st & E & S1 & S2 & S3 & S4 & S5). exists sess, ip. eexists _, _. split; [done|]. split; [done|]. split; [by rewrite Hx, E|].
    split; [done|]. split; [exact Hnot|]. left. eexists. split; [done|]. cbn [ws_stack ws_loops]. split; [exact S3|].
    rewrite S5, decide_True by done. split; [done|]. apply lookup_insert_eq.
Qed.
End invariant.

(** ** Examples and witnesses *)

Module Toy.
Import SessionProps.Toy ServerProps.Toy.
#[export] Existing Instances DataChan.Toy.aead DataChan.Toy.laws TlsCrypt.Toy.prims TlsCrypt.Toy.laws.
Notation web := (web (W := replayWindow)).
Notation wevent := (wevent (W := replayWindow)).

Definition stack0 : Stack.Stack :=
  match Stack.New (Some (IpPool.serverIP pool)) [] with Ok st => (Stack.registerTCPHandler st).2 | _ => Stack.ToyStack.s0 end.
Definition web0 : web := mkWeb (newServer (Some pool)) stack0 [] ∅.

Definition wevent_okb (w : web) (ev : wevent) : bool :=
  match ev with
  | WServer ev => sevent_okb (ws_server w) ev && match ev with SAssign _ (Some _) => false | _ => true end
  | WDeliver a _ _ =>
      match ws_loops w !! a with Some (Got _ (Some p)) => bool_decide (bytes_ok p) | _ => true end
  | WTransmit _ pkt _ => bool_decide (bytes_ok pkt)
  | _ => true
  end.

Lemma wevent_okb_ok (w : web) (ev : wevent) : wevent_okb w ev = true -> wevent_ok w ev.
Proof.
  destruct ev as [ev|id|a|a pick|a now ok|a pkt ok|]; cbn; try done.
  - intros [H1 H2]%andb_true_iff. split; [by apply sevent_okb_ok|]. destruct ev as [| | | | | |id hook| | | |]; try done. by destruct hook.
  - intros Hb buf p El. rewrite El in Hb. by apply bool_decide_eq_true in Hb.
  - by intros Hb%bool_decide_eq_true.
Qed.

Fixpoint wrun (w : web) (evs : list wevent) : option (web * list output) :=
  match evs with
  | [] => Some (w, [])
  | ev :: evs =>
      if wevent_okb w ev then
        match wexec cfg tlsKey 8 w ev with
        | Ok (w, o1) => '(w, o2) ← wrun w evs; Some (w, o1 ++ o2)
        | _ => None
        end
      else None
  end.

Lemma wrun_reachable (evs : list wevent) (w w' : web) (out : list output) :
  wreachable cfg tlsKey 8 pool w -> wrun w evs = Some (w', out) -> wreachable cfg tlsKey 8 pool w'.
Proof.
  revert w out. induction evs as [|ev evs IH]; intros w out Hr; cbn; [by intros [= <- <-]|].
  destruct (wevent_okb w ev) eqn:Eo; [|done]. destruct (wexec _ _ _ _ _) as [[w1 o1]| |] eqn:Ex; try done.
  destruct (wrun w1 evs) as [[w2 o2]|] eqn:Er; [|done]. cbn. intros [= <- <-].
  eapply IH; [|exact Er]. eapply wreach_step; [done|by apply wevent_okb_ok|done].
Qed.

Lemma web0_reachable : wreachable cfg tlsKey 8 pool web0.
Proof.
  apply wreach_new; [|vm_compute; reflexivity|vm_compute; reflexivity].
  unfold stack0. destruct (Stack.New (Some (IpPool.serverIP pool)) []) as [st| |] eqn:E; [|vm_compute in E; discriminate E..].
  refine (Stack.core_inv st _ _ (Stack.New_inv (Some (IpPool.serverIP pool)) [] st _ _ E)); [|intros b [= <-]; decide_now|constructor].
  unfold Stack.registerTCPHandler. by destruct (Stack.s_tcpHandler st).
Qed.

Definition after (evs : list wevent) : web := match wrun web0 evs with Some (w, _) => w | None => web0 end.
Definition seen_of (evs : list wevent) : list output := match wrun web0 evs with Some (_, o) => o | None => [] end.

Lemma after_wreachable (evs : list wevent) : is_Some (wrun web0 evs) -> wreachable cfg tlsKey 8 pool (after evs).
Proof. unfold after. intros [[w o] E]. rewrite E. eapply wrun_reachable; [apply web0_reachable|exact E]. Qed.

(** A client is served, at the next free address. *)
Definition serve (i : Z) (id : nat) : list wevent :=
  map WServer (knock i ++ keys id ++ [SAssign id None; SPublish 5 id; SSession id EHandshakeDone; SSession id EPublish]).

(** A session is closed, as far as the return of its lease. *)
Definition close (id : nat) : list wevent :=
  map WServer [SSession id (ECloseBegin CloseReasonClientExitNotify); SSession id ECloseEnd; SLater id].

(** The read loop of attachment [a] meets the end of its session: first with a larger
    buffer, then it detaches. *)
Definition wind_up (a : nat) : list wevent :=
  [WRead a false; WDeliver a 9 Stack.ToyStack.always; WCheck a; WRead a false; WDeliver a 9 Stack.ToyStack.always].

(** The first client's session ends, its address goes to the second client, and the
    second session is handed over before the first one's read loop has noticed: the
    attachment is refused and the client's packets are never read. *)
Definition race : list wevent :=
  serve 1 0 ++ [WOnSession 0; WCheck 0] ++ close 0 ++ serve 2 1 ++ [WOnSession 1] ++ wind_up 0.
Example stranded_client :
  List.filter (fun o => match o with Attached _ _ => true | _ => false end) (seen_of race) =
    [Attached 0 (Ok 0%nat); Attached 1 (Err Stack.ErrDuplicateAttach)] /\
  map_to_list (Stack.s_routes (ws_stack (after race))) = [] /\ ws_calls (after race) = [] /\
  (AssignedIP ∘ e_sess <$> sv_heap (ws_server (after race)) !! 1%nat) = Some (Some [10; 9; 0; 2]) /\
  (closing ∘ e_sess <$> sv_heap (ws_server (after race)) !! 1%nat) = Some false.
Proof. split_and!; vm_compute; reflexivity. Qed.

(** What the first client sends, in the datagram that carries it. *)
Definition segment : bytes := [4; 210; 31; 144] ++ replicate 16 0.
Definition packet : bytes := match IPv4.buildIPv4 [] [10; 9; 0; 2] [10; 9; 0; 1] ProtocolTCP segment with Ok p => p | _ => [] end.
Definition datagram : bytes :=
  match ServerSlots oldKey 32 with
  | Ok keys => match DataChan.NewWrapper (DataChan.flip_keys keys) 0 0 with
               | Ok c => match (DataChan.Seal c [] packet).1 with Ok d => d | _ => [] end
               | _ => []
               end
  | _ => []
  end.

(** Two clients are attached, the first one's packet has been read, and the hook of a
    third is to run. *)
Definition busy : list wevent :=
  serve 1 0 ++ [WOnSession 0; WCheck 0] ++ serve 2 1 ++ [WOnSession 1] ++ serve 3 2 ++
  [WServer (SArrive 6 false (addr 1) datagram); WRead 0 false].
Definition deliver : wevent := WDeliver 0 7 Stack.ToyStack.always.
Definition attached : Stack.attachment := default Stack.ToyStack.att (Stack.s_atts (ws_stack (after busy)) !! 0%nat).
End Toy.

Import SessionProps.Toy ServerProps.Toy Toy.

Lemma web_sessions_witness :
  exists w' out, wexec cfg tlsKey 8 (after busy) deliver = Ok (w', out) /\ out =
    [ToHandler (Stack.ToTCP 0 [10; 9; 0; 2] [10; 9; 0; 1] segment)] /\
    exists sess, sv_heap (ws_server (after busy)) !! 0%nat = Some sess /\ AssignedIP (e_sess sess) = Some [10; 9; 0; 2].
Proof.
  destruct (web_sessions cfg tlsKey 8 pool (after busy)) as (H1 & H2 & H3).
  - apply ServerProps.Toy.pool_fresh.
  - apply after_wreachable. vm_compute. by eexists.
  - destruct (H1 deliver) as (w' & out & E).
    { intros buf p El. vm_compute in El. injection El as <- <-. decide_now. }
    exists w', out. split; [exact E|]. split.
    + vm_compute in E. injection E as <- <-. vm_compute. reflexivity.
    + destruct (H2 0%nat attached) as (sess & S1 & S2 & _); [vm_compute; reflexivity|].
      exists sess. split; [exact S1|exact S2].
Defined.

Lemma web_attach_witness :
  exists w' out a, wexec cfg tlsKey 8 (after busy) (WOnSession 2) = Ok (w', out) /\ out = [Attached 2 (Ok a)] /\
    Stack.s_routes (ws_stack w') !! [10; 9; 0; 4] = Some a.
Proof.
  destruct (web_attach cfg tlsKey 8 pool (after busy) 2) as (sess & ip & w' & out & E1 & E2 & E3 & _ & _ & Hc).
  - apply ServerProps.Toy.pool_fresh.
  - apply after_wreachable. vm_compute. by eexists.
  - eapply bool_decide_unpack. vm_compute. exact I.
  - exists w', out. destruct Hc as [(a & H1 & H2 & _)|(H1 & _ & _ & a & att & other & H2 & _)].
    + exists a. split; [exact E3|]. split; [exact H1|]. assert (Hip : (AssignedIP ∘ e_sess) <$> sv_heap (ws_server (after busy)) !! 2%nat = Some (Some [10; 9; 0; 4]))
        by (vm_compute; reflexivity).
      rewrite E1 in Hip. cbn in Hip. rewrite E2 in Hip. injection Hip as ->. exact H2.
    + assert (Hip : (AssignedIP ∘ e_sess) <$> sv_heap (ws_server (after busy)) !! 2%nat = Some (Some [10; 9; 0; 4])) by (vm_compute; reflexivity).
      rewrite E1 in Hip. cbn in Hip. rewrite E2 in Hip. injection Hip as ->. vm_compute in H2. discriminate H2.
Defined.
End WebSessions.
