(* ===== verification/TunnelUdp.v ===== *)
(** * TunnelUdp: a question and its answer over UDP

    The whole way of a client's UDP datagram: sealed by the client, taken by the server,
    read by the stack's read loop, handed to the UDP handler and read from a socket; and
    of the answer that is written to the socket, back to the client.  The steps between
    the client and the handler are those of [WebSessions]. *)

From stdpp Require Import gmap.
From S2P Require Import Prelude Wire TlsCrypt Replay KeyDeriv DataChan Cipher IpPool Frame IPv4 Reassembly Deadline Stack Udp Session SessionProps Serve Server ServerInv ServerProps Handshake Tunnel WebSessions.
Import Frame IPv4 Session SessionProps Server ServerInv ServerProps Handshake Tunnel WebSessions.

Module TunnelUdp.

(** What a client sends: the datagram in its packet. *)
Definition question (ip server : bytes) (sp port : Z) (data : bytes) : outcome Udp.udp_error bytes :=
  seg ← Udp.buildUDP [] ip server sp port data;
  match buildIPv4 [] ip server ProtocolUDP seg with Ok pkt => Ok pkt | _ => Panic end.

(** The socket is open, nothing waits in it and no deadline has passed. *)
Record listening (d : Udp.udpDemux) (port : Z) (uid : nat) (c : Udp.udpConn) : Prop := {
  ln_port : Udp.ports d !! port = Some uid;
  ln_conn : Udp.conns d !! uid = Some c;
  ln_own : Udp.c_port c = port;
  ln_depth : 1 <= Udp.c_depth c;
  ln_empty : Udp.c_inbound c = [];
  ln_open : Udp.c_closed c = false;
  ln_read : Deadline.passed (Udp.c_readDeadline c) = false;
  ln_write : Deadline.passed (Udp.c_writeDeadline c) = false;
}.

(** The stack hands a client's datagram to the handler. *)
Lemma deliver_udp (ok : nat -> bytes -> bool) (st : Stack.Stack) (a : nat) (att : Stack.attachment) (now : Z) (seg pkt : bytes) :
  Stack.stack_inv st -> Stack.s_atts st !! a = Some att -> Stack.s_udpHandler st = true -> zlen seg <= 65515 ->
  buildIPv4 [] (Stack.at_ip att) (Stack.s_serverIP st) ProtocolUDP seg = Ok pkt ->
  Stack.deliver ok st a att now pkt =
    Ok (Stack.count st Stack.packetsReceived, [Stack.ToUDP a (Stack.at_ip att) (Stack.s_serverIP st) seg]).
Proof.
  intros Hi Ha Hh Hl Hb. pose proof (Stack.si_server _ Hi) as Hsrv. pose proof (Stack.ai_addr _ _ (Stack.si_atts _ Hi a att Ha)) as Hip.
  destruct (parse_built (Stack.at_ip att) (Stack.s_serverIP st) ProtocolUDP seg pkt Hip Hsrv ltac:(done) Hl Hb) as (Hp & Hdr & Hz & _).
  unfold Stack.deliver. rewrite Hp. cbn [h_src h_dst]. rewrite !bool_decide_eq_true_2 by done. cbn [negb].
  change (isFragment _) with false. cbv iota. unfold Stack.dispatch. cbn [h_payloadOff h_totalLen h_protocol].
  pose proof (zlen_nonneg seg). rewrite slice_ok by lia. outcome_simpl. change (ProtocolUDP =? ProtocolICMP) with false. change (ProtocolUDP =? ProtocolUDP) with true. cbv iota.
  change (Z.to_nat 20) with 20%nat. rewrite Hdr. replace (20 + zlen seg - 20) with (zlen seg) by lia.
  replace (take (Z.to_nat (zlen seg)) seg) with seg by (unfold zlen; by rewrite Nat2Z.id, firstn_all).
  change (Stack.s_udpHandler (Stack.count st Stack.packetsReceived)) with (Stack.s_udpHandler st). by rewrite Hh.
Qed.

(** The socket has the datagram, and it is read. *)
Lemma socket_reads (d : Udp.udpDemux) (port : Z) (uid : nat) (c : Udp.udpConn) (m : Udp.udpDatagram) (n pick : nat) :
  listening d port uid c ->
  exists c1, Udp.conns (Udp.deliver d port m) !! uid = Some c1 /\
    Udp.ReadFrom c1 n pick = (Udp.RdData (take n (Udp.dg_data m)) (Udp.dg_ip m) (Udp.dg_port m), c).
Proof.
  intros [Hp Hc _ Hdep He Ho Hr _]. rewrite (Udp.deliver_bound d port uid c m Hp Hc). cbn [Udp.conns]. rewrite lookup_insert_eq.
  eexists. split; [done|]. assert (Eq : (Udp.enqueue Udp.alone Udp.alone (Udp.c_policy c) (Udp.c_depth c) (Udp.c_inbound c) m).1 = [m]).
  { pose proof (Udp.enqueue_kept (Udp.c_policy c) (Udp.c_depth c) [] m Hdep) as Hk. rewrite He.
    rewrite (Udp.kept_short _ _ []) in Hk by (unfold zlen; cbn; lia). rewrite Hk. cbn [fst app]. by apply Udp.kept_short. }
  rewrite Eq. rewrite (Udp.ReadFrom_head _ m []); [|by cbn; unfold Udp.readEntry; cbn; rewrite Ho, Hr|done]. f_equal.
  destruct c. cbn in *. by subst.
Qed.

(** An IPv4 packet is no keepalive. *)
Lemma parsed_not_ping (pkt : bytes) (hdr : ipv4Header) : parseIPv4 pkt = Ok hdr -> DataChan.IsPing pkt = false.
Proof.
  intros Hp. unfold DataChan.IsPing. apply andb_false_iff. right. apply bool_decide_eq_false_2. intros ->. by vm_compute in Hp.
Qed.

Section way.
Context {W : Type} `{!AntiReplay W} `{!DataChan.AEAD} `{!DataChan.AEADLaws} `{!TLSCryptPrims}.
Notation entry := (entry (W := W)).
Notation server := (server (W := W)).
Notation web := (web (W := W)).
Variables (cfg : settings) (tlsKey : bytes) (serverQueue : Z).

Definition always : nat -> bytes -> bool := fun _ _ => true.

(** The read loop at its top, on a session with one packet to be read. *)
Lemma read_one (queue : Z) (keys : DataKeys) (h : list Z) (v : server) (e : entry) (st : Stack.Stack) (calls : list nat)
    (loops : gmap nat loop) (a : nat) (att : Stack.attachment) (pkt : bytes) :
  in_use queue keys h 0 (e_sess e) -> unread (e_sess e) = [pkt] -> zlen pkt <= Stack.readBufferSize ->
  Stack.s_atts st !! a = Some att -> Stack.at_stopped att = false -> loops !! a = Some (Top Stack.readBufferSize) ->
  exists e1, let l1 := <[a := Reading Stack.readBufferSize]> loops in
    wexec cfg tlsKey serverQueue (mkWeb (put (Stack.at_sess att) e v) st calls loops) (WCheck a) =
      Ok (mkWeb (put (Stack.at_sess att) e v) st calls l1, []) /\
    wexec cfg tlsKey serverQueue (mkWeb (put (Stack.at_sess att) e v) st calls l1) (WRead a false) =
      Ok (mkWeb (put (Stack.at_sess att) e1 v) st calls (<[a := Got Stack.readBufferSize (Some pkt)]> l1), []) /\
    in_use queue keys h 0 (e_sess e1) /\ PeerID (e_sess e1) = PeerID (e_sess e).
Proof.
  intros Hu Hun Hl Ha Hs Hlp. pose proof (read_step (e_sess e) Stack.readBufferSize (iu_closing _ _ _ _ _ Hu)) as Hrd.
  destruct (recv_session queue keys h 0 Stack.readBufferSize (e_sess e) Hu) as (Hu1 & Ep1 & _).
  assert (Hx : exec cfg (e_state e) (ERead Stack.readBufferSize false) = Ok (((Read (e_sess e) Stack.readBufferSize false).2, (e_state e).2), [])).
  { unfold e_sess in *. by destruct (e_state e). }
  destruct (own_server cfg (Stack.at_sess att) _ v e _ _ Hx) as (e1 & E1 & Es1); [constructor|]. cbn [fst] in Es1.
  assert (Hrecv : (Read (e_sess e) Stack.readBufferSize false).1 = RdData pkt).
  { destruct (Read (e_sess e) Stack.readBufferSize false) as [r s']. destruct Hrd as (_ & _ & _ & Hrd). rewrite Hun in Hrd.
    rewrite (proj2 (Z.ltb_ge _ _)) in Hrd by done. by destruct Hrd. }
  exists e1. cbv zeta. split_and!; [| |by rewrite Es1|by rewrite Es1].
  - cbn [wexec]. rewrite Hlp. unfold Stack.mayRead. by rewrite Ha, Hs.
  - cbn [wexec]. rewrite lookup_insert_eq, Ha. cbn [put with_heap sv_heap]. rewrite lookup_insert_eq.
    change (with_heap (<[Stack.at_sess att := e]> (sv_heap v)) v) with (put (Stack.at_sess att) e v). rewrite Hrecv, E1. outcome_simpl.
    done.
Qed.

(** C5. A question and its answer over UDP.  Take any state that the example's server,
    stack, read loops and hooks can reach, a session attached with its channel open and
    its read loop at its top, and a socket that listens on a port of the stack.  The
    client builds a UDP datagram to the port, of any content that fits, seals its packet
    and sends it, from any address.  Then the four steps up to the delivery succeed and
    hand exactly this datagram to the UDP handler, the socket reads its content cut to
    the reader's buffer, with the client's tunnel address and port, and is as before; and
    whatever that fits is then written to this address leaves in one datagram through
    this session, which opens at the client to an IPv4 packet from the server to it with
    the answer from the socket's port and a checksum that verifies. *)
Theorem udp_question_answer (p : IpPool.ipPool) (w : web) (a : nat) (att : Stack.attachment) (e : entry)
    (queue : Z) (keys : DataKeys) (cw : DataChan.Wrapper W) (d : Udp.udpDemux) (uid : nat) (c : Udp.udpConn)
    (sp port : Z) (addr data pkt answer : bytes) (now now' : Z) (n pick : nat) :
  IpPool.lease_inv p [] -> wreachable cfg tlsKey serverQueue p w ->
  Stack.s_atts (ws_stack w) !! a = Some att -> Stack.at_stopped att = false -> ws_loops w !! a = Some (Top Stack.readBufferSize) ->
  Stack.s_udpHandler (ws_stack w) = true -> listening d port uid c ->
  sv_heap (ws_server w) !! Stack.at_sess att = Some e -> open_tunnel queue keys (e_sess e) -> 0 < queue ->
  DataChan.NewWrapper (DataChan.flip_keys keys) (PeerID (e_sess e)) 0 = Ok cw ->
  is_u16 sp -> is_u16 port -> bytes_ok data -> zlen data <= 1996 ->
  question (Stack.at_ip att) (IpPool.serverIP p) sp port data = Ok pkt ->
  bytes_ok answer -> 28 + zlen answer <= Stack.s_mtu (ws_stack w) ->
  exists datagram w1 w2 w3 w4 seg d1 c1 st reply v out hdr ck,
    (DataChan.Seal cw [] pkt).1 = Ok datagram /\
    wexec cfg tlsKey serverQueue w (WServer (SArrive now false addr datagram)) = Ok (w1, []) /\
    wexec cfg tlsKey serverQueue w1 (WCheck a) = Ok (w2, []) /\
    wexec cfg tlsKey serverQueue w2 (WRead a false) = Ok (w3, []) /\
    wexec cfg tlsKey serverQueue w3 (WDeliver a now' always) =
      Ok (w4, [ToHandler (Stack.ToUDP a (Stack.at_ip att) (IpPool.serverIP p) seg)]) /\
    Udp.handlePacket (ws_stack w4) d (Stack.at_ip att) (IpPool.serverIP p) seg = Ok (ws_stack w4, d1) /\
    Udp.conns d1 !! uid = Some c1 /\ Udp.ReadFrom c1 n pick = (Udp.RdData (take n data) (Stack.at_ip att) sp, c) /\
    Udp.WriteTo always (ws_stack w4) c answer (Udp.UDPAddr (Some (Stack.at_ip att)) sp) = Ok (zlen answer, None, st, [Stack.Write a reply]) /\
    perform cfg always st [Stack.Write a reply] (ws_server w4) = Ok (v, [ToNetwork (Stack.at_sess att) (SendData out)]) /\
    (DataChan.Open cw [] out).1 = Ok reply /\ parseIPv4 reply = Ok hdr /\
    h_src hdr = IpPool.serverIP p /\ h_dst hdr = Stack.at_ip att /\ h_protocol hdr = ProtocolUDP /\
    Udp.is_datagram (payload_of hdr reply) port sp ck answer /\
    Udp.rfc_accepts (IpPool.serverIP p) (Stack.at_ip att) port sp ck answer = true.
Proof.
  intros Hp Hr Ha Hstop Hlp Hh Hln He Ho Hq Hcw Hsp Hport Hdat Hdl Hb Hans Hal.
  pose proof (wreachable_inv cfg tlsKey serverQueue p w Hp Hr) as Hw. pose proof (wi_address _ _ Hw) as Hsrv. pose proof (wi_stack _ _ Hw) as Hst.
  pose proof (Stack.si_server _ Hst) as Hsa. pose proof (Stack.si_mtu _ Hst) as Hmtu. pose proof (Stack.ai_addr _ _ (Stack.si_atts _ Hst a att Ha)) as Hip.
  assert (Hip' : AssignedIP (e_sess e) = Some (Stack.at_ip att)).
  { destruct (wi_atts _ _ Hw a (Stack.at_sess att, Stack.at_ip att)) as [E _]; [unfold owner; by rewrite Ha|]. cbn in E. unfold view in E. by rewrite He in E. }
  rewrite <- Hsrv in *. set (server := Stack.s_serverIP (ws_stack w)) in *.
  destruct (Udp.built_accepted (Udp.mkDatagram (Stack.at_ip att) sp data) server port) as (seg & HB & Hseg & Hzs & _ & _ & Hhand);
    [split_and!; cbn; try done; unfold Udp.maxUDPPayload; lia|done|done|]. cbn [Udp.dg_ip Udp.dg_port Udp.dg_data] in *.
  unfold question in Hb. rewrite HB in Hb. outcome_simpl. destruct (buildIPv4 [] (Stack.at_ip att) server ProtocolUDP seg) as [pkt'| |] eqn:Hb4; [|done..].
  apply (inj Ok) in Hb. subst pkt'.
  destruct (parse_built (Stack.at_ip att) server ProtocolUDP seg pkt Hip Hsa ltac:(done) ltac:(lia) Hb4) as (_ & _ & Hz & _).
  destruct (ipv4_not_special (Stack.at_ip att) server ProtocolUDP seg pkt Hip Hsa ltac:(done) Hb4) as [Hping Hexit].
  destruct w as [v0 st0 calls loops]. cbn [ws_server ws_stack ws_loops] in *.
  destruct (first_up cfg (Stack.at_sess att) queue keys v0 e cw pkt addr now (wi_server _ _ Hw) He ltac:(by rewrite Hip') Ho Hq Hcw ltac:(lia) Hping Hexit)
    as (datagram & e0 & Hseal & Hup & Ep & Hu & Hun).
  (* the way up *)
  set (v1 := with_jobs (sv_jobs v0 ++ []) v0).
  assert (Hput : forall e', with_jobs (sv_jobs (put (Stack.at_sess att) e' v0) ++ []) (put (Stack.at_sess att) e' v0) = put (Stack.at_sess att) e' v1) by done.
  destruct (read_one queue keys [1] v1 e0 st0 calls loops a att pkt Hu Hun ltac:(unfold Stack.readBufferSize; lia) Ha Hstop Hlp) as (e1 & X2 & X3 & Hu1 & Ep1).
  destruct Hln as [L1 L2 L3 L4 L5 L6 L7 L8] eqn:Eln. clear Eln.
  destruct (socket_reads d port uid c (Udp.mkDatagram (Stack.at_ip att) sp data) n pick) as (c1 & C1 & C2); [by constructor|].
  (* the answer *)
  set (st4 := Stack.count st0 Stack.packetsReceived).
  destruct (Udp.WriteTo_spec always st4 c answer (Udp.UDPAddr (Some (Stack.at_ip att)) sp)) as [_ Hwr]; try done; [by rewrite L3|by intros ip q [= <- _]; apply Hip|].
  destruct (Hwr a (Stack.at_ip att) sp) as (reply & hdr & ck & pkts & k & st & W1 & W2 & W3 & W4 & W5 & W6 & W7 & W8 & W9 & _ & W10).
  { split_and!; [done|done|unfold Udp.maxUDPPayload; lia|exact (Stack.si_live _ Hst a att Ha Hstop)|]. exists (Stack.at_ip att). split; [done|].
    unfold IpPool.to4. destruct Hip as [-> _]. done. }
  rewrite (proj2 (Z.leb_le _ _)) in W10 by done. subst pkts. cbn [forallb always andb] in W1, W3. rewrite (W3 eq_refl) in W1. cbn [length take map] in W1.
  rewrite (u16_id sp), L3 in * by done.
  destruct (down_session queue keys [1] 0 (e_sess e1) reply Hu1 ltac:(lia)) as (s' & w0 & w1 & out & D1 & D2 & D3 & D4 & D5 & _).
  assert (Hx2 : exec cfg (e_state e1) (EWrite (Some (fun _ => always a reply)) reply) = Ok ((s', (e_state e1).2), [SendData out])).
  { unfold e_sess, always in *. destruct (e_state e1) as [s fl]. cbn [fst snd exec] in *. by rewrite D1. }
  destruct (own_server cfg (Stack.at_sess att) _ v1 e1 _ _ Hx2) as (e2 & E2 & _); [constructor; [by eexists|constructor]|].
  destruct (fc_wrapper _ _ _ (ot_channel _ _ _ Ho)) as (wr & Hwr' & _).
  rewrite Ep1, Ep, Hwr' in D2. apply (inj Ok) in D2 as <-.
  destruct (DataChan.NewWrapper_flip _ _ _ _ _ _ _ Hwr' Hcw) as (F1 & F2 & _). destruct (DataChan.NewWrapper_start _ _ _ _ Hcw) as (_ & F3 & _).
  destruct (DataChan.sealed_packet w0 cw 1 reply out ltac:(congruence) ltac:(congruence) ltac:(done) D5) as (Hlo & Hsq & Hop).
  eexists datagram, _, _, _, _, seg, _, c1, st, reply, _, out, hdr, ck.
  split; [exact Hseal|]. split; [cbn [wexec sexec]; rewrite Hup; outcome_simpl; cbn [option_list]; rewrite Hput; reflexivity|].
  split; [rewrite app_nil_r; exact X2|]. split; [exact X3|].
  split. { cbn [wexec]. rewrite lookup_insert_eq. unfold Stack.afterRead. rewrite Ha, Hstop.
    rewrite (deliver_udp always st0 a att now' seg pkt Hst Ha Hh ltac:(lia) Hb4). outcome_simpl. cbn [perform]. outcome_simpl. reflexivity. }
  cbn [ws_stack ws_server]. split; [apply Hhand|]. split; [exact C1|]. split; [exact C2|]. split; [exact W1|].
  split. { cbn [perform]. replace (Stack.s_atts st !! a) with (Some att) by (rewrite <- Ha; symmetry; f_equal; apply W2). rewrite E2. outcome_simpl. reflexivity. }
  split; [|by split_and!].
  rewrite DataChan.Open_result, (proj2 (Z.ltb_ge _ 24)), Hop, Hsq by done. destruct (ar_accept (DataChan.w_replay cw) 1) as [ok r] eqn:Ea. rewrite F3 in Ea.
  destruct (ar_accept_spec ar_init [] 1 ok r ltac:(done) ar_init_models Ea) as (-> & _). cbn. by rewrite (parsed_not_ping _ _ W4).
Qed.
End way.

(** ** Witness *)

Module Toy.
Import SessionProps.Toy ServerProps.Toy WebSessions.Toy.
#[export] Existing Instances DataChan.Toy.aead DataChan.Toy.laws TlsCrypt.Toy.prims TlsCrypt.Toy.laws.

(** The example's start with a UDP handler, and a client that is attached. *)
Definition web1 : web := mkWeb (newServer (Some pool)) (Stack.registerUDPHandler stack0).2 [] ∅.
Definition attached_run := wrun web1 (serve 1 0 ++ [WOnSession 0]).
Definition w : web := match attached_run with Some (w, _) => w | None => web1 end.

Lemma w_reachable : wreachable cfg tlsKey 8 pool w.
Proof.
  assert (Hs : wreachable cfg tlsKey 8 pool web1).
  { pose proof web0_reachable as H0. unfold web0 in H0. pose proof (wreachable_inv cfg tlsKey 8 pool web0 ServerProps.Toy.pool_fresh web0_reachable) as Hi.
    apply wreach_new; [|vm_compute; reflexivity|vm_compute; reflexivity].
    refine (Stack.core_inv stack0 _ _ (wi_stack _ _ Hi)). unfold Stack.registerUDPHandler. by destruct (Stack.s_udpHandler stack0). }
  unfold w. destruct attached_run as [[w' o]|] eqn:E; [|done]. exact (wrun_reachable _ _ _ _ Hs E).
Qed.

Definition client_keys : DataKeys := match ServerSlots oldKey 32 with Ok k => k | _ => mkDataKeys [] [] [] [] 0 end.
Definition client : DataChan.Wrapper replayWindow :=
  match DataChan.NewWrapper (DataChan.flip_keys client_keys) 0 0 with Ok c => c | _ => DataChan.mkWrapper 0 0 [] [] [] [] 0 ar_init end.
Definition att : Stack.attachment := default Stack.ToyStack.att (Stack.s_atts (ws_stack w) !! 0%nat).
Definition dnsQuery : bytes := match question [10; 9; 0; 2] [10; 9; 0; 1] 5000 53 [7; 8; 9] with Ok pkt => pkt | _ => [] end.

Lemma socket_listening : listening Udp.ToyUdp.d 53 0 Udp.ToyUdp.conn.
Proof. constructor; by vm_compute. Qed.
End Toy.

Import SessionProps.Toy ServerProps.Toy WebSessions.Toy Toy.

Lemma udp_question_answer_witness :
  exists w1 w2 w3 w4 datagram seg, wexec cfg tlsKey 8 w (WServer (SArrive 9 false [9] datagram)) = Ok (w1, []) /\
    wexec cfg tlsKey 8 w1 (WCheck 0) = Ok (w2, []) /\ wexec cfg tlsKey 8 w2 (WRead 0 false) = Ok (w3, []) /\
    wexec cfg tlsKey 8 w3 (WDeliver 0 10 always) = Ok (w4, [ToHandler (Stack.ToUDP 0 [10; 9; 0; 2] [10; 9; 0; 1] seg)]).
Proof.
  destruct (sv_heap (ws_server w) !! 0%nat) as [e|] eqn:He; [|vm_compute in He; discriminate He].
  assert (Hatt : Stack.s_atts (ws_stack w) !! 0%nat = Some att) by (vm_compute; reflexivity).
  assert (Hs : match e_sess <$> sv_heap (ws_server w) !! 0%nat with
    | Some s => (exists w0, DataChan.NewWrapper client_keys (PeerID s) 0 = Ok w0 /\ ks_wrapper (k_primary (s_keys s)) = Some w0) /\
                ks_wrapper (k_lameDuck (s_keys s)) = None /\ d_ipInbound (s_data s) = Some (8, []) /\
                closing s = false /\ d_pendingRead (s_data s) = None /\ PeerID s = 0
    | None => False
    end) by (vm_compute; split; [eexists; split; reflexivity|split_and!; reflexivity]).
  rewrite He in Hs. destruct Hs as (S1 & S2 & S3 & S4 & S5 & S6).
  destruct (udp_question_answer cfg tlsKey 8 pool w 0 att e 8 client_keys client Udp.ToyUdp.d 0 Udp.ToyUdp.conn 5000 53 [9] [7; 8; 9] dnsQuery [1; 2] 9 10 100 0)
    as (datagram & w1 & w2 & w3 & w4 & seg & d1 & c1 & st & reply & v & out & hdr & ck & _ & E1 & E2 & E3 & E4 & _).
  - apply ServerProps.Toy.pool_fresh.
  - apply w_reachable.
  - exact Hatt.
  - vm_compute. reflexivity.
  - vm_compute. reflexivity.
  - vm_compute. reflexivity.
  - apply socket_listening.
  - exact He.
  - constructor; [constructor; [exact S1|exact S2|exact S3]|exact S4|exact S5].
  - lia.
  - rewrite S6. vm_compute. reflexivity.
  - decide_now.
  - decide_now.
  - decide_now.
  - vm_compute. discriminate.
  - vm_compute. reflexivity.
  - decide_now.
  - vm_compute. discriminate.
  - exists w1, w2, w3, w4, datagram, seg. split; [exact E1|]. split; [exact E2|]. split; [exact E3|].
    assert (Ei : Stack.at_ip att = [10; 9; 0; 2]) by (vm_compute; reflexivity). rewrite Ei in E4. exact E4.
Defined.

End TunnelUdp.
