(* ===== verification/Capture.v ===== *)
(** * Capture: decoding a capture of a server's traffic

    Model of [test/interop/pcap.go] and [test/interop/decode.go], the reader of capture
    files and the decoder the interoperability tests judge a run by, and of the selection
    of golden vectors in [test/interop/golden_export.go].

    A file is its bytes; a reader that fails otherwise than by ending is left out, as is
    the text of the error messages (the number of the payload is kept).  What the reader
    finds in a frame is stated apart from it ([carries]) for every frame there is
    ([carries_every]); a file cut within its last record is refused as a whole, and the
    first fragment of a datagram is taken for all of it, as the examples at the end show. *)

From S2P Require Import Prelude Wire Replay KeyDeriv TlsCrypt DataChan CtrlConn.

Module Capture.

(** ** pcap.go *)

Inductive Direction := DirClientToServer | DirServerToClient.

#[export] Instance Direction_eq_dec : EqDecision Direction.
Proof. solve_decision. Defined.

Definition Direction_String (d : Direction) : bytes :=
  match d with DirClientToServer => of_string "client->server" | DirServerToClient => of_string "server->client" end.

Record UDPPayload := mkUDPPayload { up_Direction : Direction; up_Payload : bytes }.

(** [ErrRounds] stands for the rounds of [records] running out. *)
Inductive pcap_error := ErrGlobalHeader | ErrMagic | ErrUnknownLinkType (linkType : Z) | ErrRecordHeader | ErrRecordData | ErrRounds.

Definition globalHeaderSize : Z := 24.
Definition recordHeaderSize : Z := 16.
Definition linkTypeEthernet : Z := 1.
Definition linkTypeLinuxSLL : Z := 113.
Definition linkTypeLinuxSLL2 : Z := 276.
Definition ethertypeIPv4 : Z := 2048.
Definition ethertypeVLANTag : Z := 33024.
Definition ipProtoUDP : Z := 17.
Definition ethernetHeaderSize : Z := 14.
Definition sllHeaderSize : Z := 16.
Definition sll2HeaderSize : Z := 20.
Definition magicMicrosecond : Z := 2712847316.
Definition magicNanosecond : Z := 2712812621.

Inductive ByteOrder := BigEndian | LittleEndian.

Definition Uint32 {E : Type} (order : ByteOrder) (b : bytes) : outcome E Z :=
  match order with
  | BigEndian => get_u32 b
  | LittleEndian => field ← slice b 0 4; get_u32 (rev field)
  end.

Definition detectByteOrder (magic : bytes) : outcome pcap_error ByteOrder :=
  be ← Uint32 BigEndian magic;
  le ← Uint32 LittleEndian magic;
  if (be =? magicMicrosecond) || (be =? magicNanosecond) then Ok BigEndian
  else if (le =? magicMicrosecond) || (le =? magicNanosecond) then Ok LittleEndian
  else Err ErrMagic.

(** [io.ReadFull]: the bytes and what is left behind them, or the end, at once or
    within. *)
Inductive full_read := Full (b rest : bytes) | EOF | UnexpectedEOF.
Definition ReadFull (n : Z) (s : bytes) : full_read :=
  if n <=? zlen s then Full (take (Z.to_nat n) s) (drop (Z.to_nat n) s)
  else match s with [] => EOF | _ => UnexpectedEOF end.

(** The loop over VLAN tags. *)
Fixpoint stripVLAN (etherType : Z) (payload : bytes) : option bytes :=
  if etherType =? ethertypeVLANTag then
    match payload with
    | _ :: _ :: b2 :: b3 :: payload => stripVLAN (b2 * 256 + b3) payload
    | _ => None
    end
  else if etherType =? ethertypeIPv4 then Some payload else None.

(** A cooked capture's header: its size and where the protocol is. *)
Definition stripCooked (size at_ : Z) (frame : bytes) : outcome pcap_error (option bytes) :=
  if zlen frame <? size then Ok None else
  field ← slice frame at_ (at_ + 2);
  protocolType ← get_u16 field;
  if negb (protocolType =? ethertypeIPv4) then Ok None else
  payload ← slice_from frame size;
  Ok (Some payload).

Definition stripLinkLayer (linkType : Z) (frame : bytes) : outcome pcap_error (option bytes) :=
  if linkType =? linkTypeEthernet then
    if zlen frame <? ethernetHeaderSize then Ok None else
    field ← slice frame 12 14;
    etherType ← get_u16 field;
    payload ← slice_from frame ethernetHeaderSize;
    Ok (stripVLAN etherType payload)
  else if linkType =? linkTypeLinuxSLL then stripCooked sllHeaderSize 14 frame
  else if linkType =? linkTypeLinuxSLL2 then stripCooked sll2HeaderSize 0 frame
  else Ok None.

(** Source port, destination port and payload. *)
Definition parseIPv4UDP (b : bytes) : outcome pcap_error (option (Z * Z * bytes)) :=
  if zlen b <? 20 then Ok None else
  b0 ← index b 0;
  if negb (Z.shiftr b0 4 =? 4) then Ok None else
  let ihl := Z.land b0 15 * 4 in
  if (ihl <? 20) || (zlen b <? ihl) then Ok None else
  b9 ← index b 9;
  if negb (b9 =? ipProtoUDP) then Ok None else
  udp ← slice_from b ihl;
  if zlen udp <? 8 then Ok None else
  field ← slice udp 0 2;
  srcPort ← get_u16 field;
  field ← slice udp 2 4;
  dstPort ← get_u16 field;
  field ← slice udp 4 6;
  udpLen ← get_u16 field;
  let end_ := if (8 <=? udpLen) && (udpLen <=? zlen udp) then udpLen else zlen udp in
  payload ← slice udp 8 end_;
  Ok (Some (srcPort, dstPort, payload)).

(** What a record adds to the result. *)
Definition record_payload (linkType port : Z) (frame : bytes) : outcome pcap_error (option UDPPayload) :=
  ip ← stripLinkLayer linkType frame;
  match ip with
  | None => Ok None
  | Some ipPayload =>
      udp ← parseIPv4UDP ipPayload;
      match udp with
      | None => Ok None
      | Some (srcPort, dstPort, udpPayload) =>
          if negb (srcPort =? port) && negb (dstPort =? port) then Ok None else
          let dir := if dstPort =? port then DirClientToServer else DirServerToClient in
          Ok (Some (mkUDPPayload dir udpPayload))
      end
  end.

(** The loop over the records; each takes at least its header from the file. *)
Fixpoint records (fuel : nat) (order : ByteOrder) (linkType port : Z) (s : bytes) : outcome pcap_error (list UDPPayload) :=
  match fuel with
  | O => Err ErrRounds
  | S fuel =>
      match ReadFull recordHeaderSize s with
      | EOF => Ok []
      | UnexpectedEOF => Err ErrRecordHeader
      | Full recHdr s =>
          field ← slice recHdr 8 12;
          inclLen ← Uint32 order field;
          match ReadFull inclLen s with
          | Full frame s =>
              x ← record_payload linkType port frame;
              out ← records fuel order linkType port s;
              Ok (option_list x ++ out)
          | _ => Err ErrRecordData
          end
      end
  end.

Definition ReadUDPPayloads (file : bytes) (port : Z) : outcome pcap_error (list UDPPayload) :=
  match ReadFull globalHeaderSize file with
  | Full hdr rest =>
      magic ← slice hdr 0 4;
      order ← detectByteOrder magic;
      field ← slice hdr 20 24;
      linkType ← Uint32 order field;
      if (linkType =? linkTypeEthernet) || (linkType =? linkTypeLinuxSLL) || (linkType =? linkTypeLinuxSLL2)
      then records (S (length rest)) order linkType port rest
      else Err (ErrUnknownLinkType linkType)
  | _ => Err ErrGlobalHeader
  end.

(** ** decode.go *)

Definition tunnelPort : Z := 1194.
Definition dataChannelKeyID : Z := 0.

Record decodedPacket := mkDecoded {
  dp_Direction : Direction;
  dp_Raw : bytes;
  dp_Header : Header;
  dp_Control : ControlPacket;
  dp_IsDataPacket : bool;
  dp_IsPing : bool;
  dp_PeerID : Z;
  dp_DataPacketID : Z;
  dp_Plaintext : bytes;
}.

(** The zero values in a data packet's record. *)
Definition zeroHeader : Header := mkHeader 0 0 zeroSessionID.
Definition zeroControl : ControlPacket := mkControlPacket 0 0 zeroSessionID [] zeroSessionID 0 [].

Record dataChannelKeyMaterial := mkKeyMaterial { km_peerID : Z; km_serverPerspective : DataKeys }.

Definition mirrorDataKeys (keys : DataKeys) : DataKeys :=
  mkDataKeys (DecryptCipher keys) (DecryptImplicitIV keys) (EncryptCipher keys) (EncryptImplicitIV keys) (CipherKeyLen keys).

(** Each with the number of the payload. *)
Inductive decode_error :=
  | ErrOpenFile
  | ErrParsePcap (e : pcap_error)
  | ErrEmptyPayload (i : nat)
  | ErrOpcode (i : nat) (opcode : Z)
  | ErrDataShort (i : nat)
  | ErrDataWrapper (i : nat) (e : DataChan.dc_error)
  | ErrDataAuth (i : nat) (e : DataChan.dc_error)
  | ErrControlShort (i : nat)
  | ErrControlWrapper (i : nat) (e : tc_error)
  | ErrControlAuth (i : nat) (e : tc_error)
  | ErrControlParse (i : nat) (e : wire_error).

Section decode.
Context {W : Type} `{!AntiReplay W} `{!DataChan.AEAD} `{!TLSCryptPrims}.

Definition decodeData (dataKeys : dataChannelKeyMaterial) (i : nat) (dir : Direction) (payload : bytes)
    : outcome decode_error decodedPacket :=
  if zlen payload <? 8 then Err (ErrDataShort i) else
  b1 ← index payload 1;
  b2 ← index payload 2;
  b3 ← index payload 3;
  let peerID := Z.lor (Z.lor (u32 (Z.shiftl b1 16)) (u32 (Z.shiftl b2 8))) b3 in
  field ← slice payload 4 8;
  dataPacketID ← get_u32 field;
  let keys := match dir with
              | DirClientToServer => km_serverPerspective dataKeys
              | DirServerToClient => mirrorDataKeys (km_serverPerspective dataKeys)
              end in
  match DataChan.NewWrapper (W := W) keys (km_peerID dataKeys) dataChannelKeyID with
  | Panic => Panic
  | Err e => Err (ErrDataWrapper i e)
  | Ok dw =>
      match (DataChan.Open dw [] payload).1 with
      | Panic => Panic
      | Ok plaintext => Ok (mkDecoded dir payload zeroHeader zeroControl true false peerID dataPacketID plaintext)
      | Err DataChan.ErrPingAbsorbed => Ok (mkDecoded dir payload zeroHeader zeroControl true true peerID dataPacketID [])
      | Err e => Err (ErrDataAuth i e)
      end
  end.

Definition decodeControl (key : bytes) (i : nat) (dir : Direction) (payload : bytes) : outcome decode_error decodedPacket :=
  if zlen payload <? OffCT then Err (ErrControlShort i) else
  match NewWrapper key (bool_decide (dir = DirClientToServer)) with
  | Panic => Panic
  | Err e => Err (ErrControlWrapper i e)
  | Ok w =>
      match (Unwrap w [] payload).1 with
      | Panic => Panic
      | Err e => Err (ErrControlAuth i e)
      | Ok (header, plaintext) =>
          h0 ← index header 0;
          let '(hdrOpcode, hdrKeyID) := ParseHeaderByte h0 in
          sid ← slice header 1 (1 + SessionIDSize);
          let hdr := mkHeader hdrOpcode hdrKeyID sid in
          match ParseControlPacket plaintext hdr with
          | Panic => Panic
          | Err e => Err (ErrControlParse i e)
          | Ok cp => Ok (mkDecoded dir payload hdr cp false false 0 0 [])
          end
      end
  end.

(** One round of the loop; [None]: the payload is skipped. *)
Definition decodePayload (key : bytes) (dataKeys : option dataChannelKeyMaterial) (i : nat) (p : UDPPayload)
    : outcome decode_error (option decodedPacket) :=
  let payload := up_Payload p in
  if zlen payload <? 1 then Err (ErrEmptyPayload i) else
  b0 ← index payload 0;
  let '(opcode, _) := ParseHeaderByte b0 in
  if negb (ValidOpcode opcode) then Err (ErrOpcode i opcode) else
  if (opcode =? OpDataV1) || (opcode =? OpDataV2) then
    match dataKeys with
    | None => Ok None
    | Some dataKeys =>
        if negb (opcode =? OpDataV2) then Ok None else
        d ← decodeData dataKeys i (up_Direction p) payload; Ok (Some d)
    end
  else d ← decodeControl key i (up_Direction p) payload; Ok (Some d).

Fixpoint decodeAll (key : bytes) (dataKeys : option dataChannelKeyMaterial) (i : nat) (payloads : list UDPPayload)
    : outcome decode_error (list decodedPacket) :=
  match payloads with
  | [] => Ok []
  | p :: payloads =>
      x ← decodePayload key dataKeys i p;
      out ← decodeAll key dataKeys (S i) payloads;
      Ok (option_list x ++ out)
  end.

(** [file]: the contents, [None] when the file cannot be opened. *)
Definition decodeCapture (file : option bytes) (key : bytes) (port : Z) (dataKeys : option dataChannelKeyMaterial)
    : outcome decode_error (list decodedPacket) :=
  match file with
  | None => Err ErrOpenFile
  | Some f =>
      match ReadUDPPayloads f port with
      | Panic => Panic
      | Err e => Err (ErrParsePcap e)
      | Ok payloads => decodeAll key dataKeys 0 payloads
      end
  end.
End decode.

(** ** golden_export.go: the choice of vectors *)

Inductive label := ClientHardReset | ServerHardReset | AckOnly | MaxFragment | FinalSmall | ICMPEchoRequest | ICMPEchoReply | PingKeepalive.

Definition label_String (l : label) : bytes :=
  of_string match l with
  | ClientHardReset => "client-hard-reset" | ServerHardReset => "server-hard-reset" | AckOnly => "ack-only"
  | MaxFragment => "max-fragment" | FinalSmall => "final-small" | ICMPEchoRequest => "icmp-echo-request"
  | ICMPEchoReply => "icmp-echo-reply" | PingKeepalive => "ping-keepalive"
  end.

Inductive golden_error := ErrNotFound (l : label).

Definition directionSlug (d : Direction) : bytes :=
  match d with DirClientToServer => of_string "client-to-server" | DirServerToClient => of_string "server-to-client" end.

Definition isICMPType (pkt : bytes) (wantType : Z) : outcome golden_error bool :=
  if zlen pkt <? 20 then Ok false else
  b0 ← index pkt 0;
  let version := Z.shiftr b0 4 in
  let ihl := Z.land b0 15 * 4 in
  if negb (version =? 4) || (ihl <? 20) || (zlen pkt <? ihl + 8) then Ok false else
  b9 ← index pkt 9;
  if negb (b9 =? 1) then Ok false else
  t ← index pkt ihl;
  Ok (t =? wantType).
Definition isICMPEchoRequest (pkt : bytes) : outcome golden_error bool := isICMPType pkt 8.
Definition isICMPEchoReply (pkt : bytes) : outcome golden_error bool := isICMPType pkt 0.

(** The conditions of the vectors, [&&] evaluated from the left. *)
Definition matches (l : label) (p : decodedPacket) : outcome golden_error bool :=
  let up := bool_decide (dp_Direction p = DirClientToServer) in
  let op := cp_Opcode (dp_Control p) in
  let len := zlen (cp_Payload (dp_Control p)) in
  match l with
  | ClientHardReset => Ok (up && (op =? OpControlHardResetClientV2))
  | ServerHardReset => Ok (negb up && (op =? OpControlHardResetServerV2))
  | AckOnly => Ok (op =? OpAckV1)
  | MaxFragment => Ok (negb up && (op =? OpControlV1) && (len =? CtrlConn.MaxPayload))
  | FinalSmall => Ok ((op =? OpControlV1) && (0 <? len) && (len <? CtrlConn.MaxPayload))
  | ICMPEchoRequest => if dp_IsDataPacket p && negb (dp_IsPing p) && up then isICMPEchoRequest (dp_Plaintext p) else Ok false
  | ICMPEchoReply => if dp_IsDataPacket p && negb (dp_IsPing p) && negb up then isICMPEchoReply (dp_Plaintext p) else Ok false
  | PingKeepalive => Ok (dp_IsDataPacket p && dp_IsPing p)
  end.

Record goldenSelection := mkSelection { gs_packet : decodedPacket; gs_label : label }.

(** The packets used so far, by their index, and what has been selected. *)
Definition selection : Type := list nat * list goldenSelection.

(** The first of the packets, with its index, that is not used and matches. *)
Fixpoint first_match (l : label) (used : list nat) (packets : list (nat * decodedPacket)) : outcome golden_error (option (nat * decodedPacket)) :=
  match packets with
  | [] => Ok None
  | (i, p) :: packets =>
      if bool_decide (i ∈ used) then first_match l used packets else
      b ← matches l p;
      if b : bool then Ok (Some (i, p)) else first_match l used packets
  end.

(** The final small packet is looked for from the end. *)
Definition pick (packets : list decodedPacket) (l : label) (st : selection) : outcome golden_error selection :=
  let numbered := imap pair packets in
  r ← first_match l st.1 (match l with FinalSmall => rev numbered | _ => numbered end);
  match r with
  | Some (i, p) => Ok (i :: st.1, st.2 ++ [mkSelection p l])
  | None => Err (ErrNotFound l)
  end.

Definition controlLabels : list label := [ClientHardReset; ServerHardReset; AckOnly; MaxFragment; FinalSmall].
Definition dataLabels : list label := [ICMPEchoRequest; ICMPEchoReply; PingKeepalive].

Fixpoint pickAll (packets : list decodedPacket) (ls : list label) (st : selection) : outcome golden_error selection :=
  match ls with
  | [] => Ok st
  | l :: ls => st ← pick packets l st; pickAll packets ls st
  end.

Definition selectGoldenVectors (packets : list decodedPacket) (includeControlChannel includeDataChannel : bool)
    : outcome golden_error (list goldenSelection) :=
  st ← (if includeControlChannel then pickAll packets controlLabels ([], []) else Ok ([], []));
  st ← (if includeDataChannel then pickAll packets dataLabels st else Ok st);
  Ok st.2.

(** ** What capture files look like *)

Definition put32 (order : ByteOrder) (v : Z) : bytes :=
  match order with BigEndian => be32 v | LittleEndian => rev (be32 v) end.

Record record := mkRecord { r_time : bytes; r_origLen : Z; r_frame : bytes }.

Definition record_bytes (order : ByteOrder) (r : record) : bytes :=
  r_time r ++ put32 order (zlen (r_frame r)) ++ put32 order (r_origLen r) ++ r_frame r.

Definition record_ok (r : record) : Prop := length (r_time r) = 8%nat /\ is_u32 (zlen (r_frame r)).

(** Behind the magic number come version, time zone, accuracy and snapshot length. *)
Definition file_bytes (order : ByteOrder) (magic : Z) (middle : bytes) (linkType : Z) (recs : list record) : bytes :=
  put32 order magic ++ middle ++ put32 order linkType ++ concat (map (record_bytes order) recs).

(** The header of a file names the byte order and the link type. *)
Definition magic_ok (magic : Z) : Prop := magic = magicMicrosecond \/ magic = magicNanosecond.
Definition link_ok (linkType : Z) : Prop := linkType = linkTypeEthernet \/ linkType = linkTypeLinuxSLL \/ linkType = linkTypeLinuxSLL2.

(** A link header that announces the protocol [t]; Ethernet's may have VLAN tags. *)
Definition vlan_chain (tcis : list bytes) (t : Z) : bytes := concat (map (app (be16 ethertypeVLANTag)) tcis) ++ be16 t.

Inductive link_header : Z -> bytes -> Z -> Prop :=
  | lh_ethernet macs tcis t : length macs = 12%nat -> Forall (fun tci => length tci = 2%nat) tcis -> t <> ethertypeVLANTag ->
      link_header linkTypeEthernet (macs ++ vlan_chain tcis t) t
  | lh_sll pre t : length pre = 14%nat -> link_header linkTypeLinuxSLL (pre ++ be16 t) t
  | lh_sll2 post t : length post = 18%nat -> link_header linkTypeLinuxSLL2 (be16 t ++ post) t.

(** An IPv4 header for UDP, with any options. *)
Definition ip_header (h : bytes) : Prop :=
  exists ihl, 5 <= ihl <= 15 /\ zlen h = 4 * ihl /\ h !! 0%nat = Some (64 + ihl) /\ h !! 9%nat = Some ipProtoUDP.

(** Packets that are not IPv4 or not UDP, or end within their headers. *)
Definition not_udp (b : bytes) : Prop :=
  zlen b < 20 \/
  exists b0 b9, b !! 0%nat = Some b0 /\ b !! 9%nat = Some b9 /\
    (Z.shiftr b0 4 <> 4 \/ Z.land b0 15 < 5 \/ b9 <> ipProtoUDP \/ zlen b < Z.land b0 15 * 4 + 8).

(** What stands behind a UDP header is the payload up to the length the header gives,
    and all of it when that length is too small or more than there is. *)
Definition udp_data (n : Z) (data : bytes) : bytes :=
  if bool_decide (8 <= n <= 8 + zlen data) then take (Z.to_nat (n - 8)) data else data.

(** Frames that end within their link header. *)
Inductive link_cut : Z -> bytes -> Prop :=
  | lc_ethernet frame : zlen frame < ethernetHeaderSize -> link_cut linkTypeEthernet frame
  | lc_vlan macs tcis rest : length macs = 12%nat -> Forall (fun tci => length tci = 2%nat) tcis -> zlen rest < 4 ->
      link_cut linkTypeEthernet (macs ++ vlan_chain tcis ethertypeVLANTag ++ rest)
  | lc_sll frame : zlen frame < sllHeaderSize -> link_cut linkTypeLinuxSLL frame
  | lc_sll2 frame : zlen frame < sll2HeaderSize -> link_cut linkTypeLinuxSLL2 frame.

(** The UDP datagram the reader finds in a frame, ports and payload, or none.  The
    fragment fields of the IP header do not count. *)
Inductive carries (linkType : Z) : bytes -> option (Z * Z * bytes) -> Prop :=
  | carries_udp l h sp dp n ck data : link_header linkType l ethertypeIPv4 -> ip_header h -> is_u16 sp -> is_u16 dp ->
      is_u16 n -> length ck = 2%nat ->
      carries linkType (l ++ h ++ be16 sp ++ be16 dp ++ be16 n ++ ck ++ data) (Some (sp, dp, udp_data n data))
  | carries_other_ip l b : link_header linkType l ethertypeIPv4 -> not_udp b -> carries linkType (l ++ b) None
  | carries_other_protocol l t b : link_header linkType l t -> is_u16 t -> t <> ethertypeIPv4 -> carries linkType (l ++ b) None
  | carries_cut frame : link_cut linkType frame -> carries linkType frame None.

Definition on_port (port : Z) (g : Z * Z * bytes) : option UDPPayload :=
  let '(sp, dp, p) := g in
  if negb (sp =? port) && negb (dp =? port) then None
  else Some (mkUDPPayload (if dp =? port then DirClientToServer else DirServerToClient) p).

(** ** Reading fields back *)

Lemma slice_at {E : Type} (a b c : bytes) (i j : Z) : zlen a = i -> zlen a + zlen b = j -> slice (E := E) (a ++ b ++ c) i j = Ok b.
Proof.
  intros <- <-. pose proof (zlen_nonneg a). pose proof (zlen_nonneg b). pose proof (zlen_nonneg c).
  rewrite slice_ok by (rewrite ?zlen_app; lia). f_equal. unfold zlen. rewrite Nat2Z.id, drop_app_length.
  replace (Z.to_nat _) with (length b) by lia. apply take_app_length.
Qed.

Lemma ReadFull_app (b rest : bytes) (n : Z) : zlen b = n -> ReadFull n (b ++ rest) = Full b rest.
Proof.
  intros <-. unfold ReadFull. pose proof (zlen_nonneg rest). rewrite (proj2 (Z.leb_le _ _)) by (rewrite zlen_app; lia).
  unfold zlen. by rewrite Nat2Z.id, take_app_length, drop_app_length.
Qed.

Lemma ReadFull_short (b : bytes) (n : Z) : b <> [] -> zlen b < n -> ReadFull n b = UnexpectedEOF.
Proof. intros Hb Hl. unfold ReadFull. rewrite (proj2 (Z.leb_gt _ _)) by done. by destruct b. Qed.

Lemma put32_length (order : ByteOrder) (v : Z) : zlen (put32 order v) = 4.
Proof. by destruct order. Qed.

Lemma Uint32_put32 {E : Type} (order : ByteOrder) (v : Z) : is_u32 v -> Uint32 (E := E) order (put32 order v) = Ok v.
Proof.
  intros Hv. destruct order; cbn [Uint32 put32].
  - rewrite <- (app_nil_r (be32 v)). by apply get_be32.
  - change (rev (be32 v)) with (rev (be32 v) ++ []). rewrite slice_app_l by done. outcome_simpl. rewrite rev_involutive.
    rewrite <- (app_nil_r (be32 v)). by apply get_be32.
Qed.

Lemma Uint32_total {E : Type} (order : ByteOrder) (b : bytes) : length b = 4%nat -> exists v, Uint32 (E := E) order b = Ok v.
Proof. intros Hb. destruct b as [|x [|y [|z [|u [|? ?]]]]]; try done. destruct order; by eexists. Qed.

Lemma get_be16_exact {E : Type} (v : Z) : is_u16 v -> get_u16 (E := E) (be16 v) = Ok v.
Proof. intros Hv. rewrite <- (app_nil_r (be16 v)). by apply get_be16. Qed.

Lemma stripVLAN_end (t : Z) (rest : bytes) : t <> ethertypeVLANTag -> stripVLAN t rest = (if t =? ethertypeIPv4 then Some rest else None).
Proof. intros Ht. destruct rest; cbn [stripVLAN]; by rewrite (proj2 (Z.eqb_neq _ _) Ht). Qed.

Lemma stripVLAN_chain (tcis : list bytes) (t : Z) : Forall (fun tci => length tci = 2%nat) tcis -> is_u16 t -> t <> ethertypeVLANTag ->
  exists v tail, vlan_chain tcis t = be16 v ++ tail /\ is_u16 v /\
    forall rest, stripVLAN v (tail ++ rest) = (if t =? ethertypeIPv4 then Some rest else None).
Proof.
  intros Htc Ht Hne. induction Htc as [|tci tcis Hl _ IH].
  - exists t, []. split; [unfold vlan_chain; cbn; by rewrite ?app_nil_r|]. split; [done|]. intros rest. by apply stripVLAN_end.
  - destruct IH as (v & tail & E & Hv & IH). exists ethertypeVLANTag, (tci ++ vlan_chain tcis t). split; [|split; [done|]].
    + unfold vlan_chain. cbn [map concat]. by rewrite <- !(assoc_L (++)).
    + intros rest. destruct tci as [|x [|y [|? ?]]]; try done. rewrite E. cbn [app be16 stripVLAN].
      change (ethertypeVLANTag =? ethertypeVLANTag) with true. cbn iota. rewrite <- (IH rest). f_equal. word_lia.
Qed.

(** A supported link header is stripped. *)
Lemma stripLinkLayer_header (linkType t : Z) (l rest : bytes) : link_header linkType l t -> is_u16 t ->
  stripLinkLayer linkType (l ++ rest) = Ok (if t =? ethertypeIPv4 then Some rest else None).
Proof.
  intros Hl Ht. pose proof (zlen_nonneg rest). destruct Hl as [macs tcis t Hm Htc Hne|pre t Hp|post t Hp]; unfold stripLinkLayer; cbn [Z.eqb Pos.eqb linkTypeEthernet linkTypeLinuxSLL linkTypeLinuxSLL2].
  - destruct (stripVLAN_chain tcis t Htc Ht Hne) as (v & tail & E & Hv & Hs). rewrite E, <- !(assoc_L (++)).
    rewrite (proj2 (Z.ltb_ge _ _)) by (rewrite !zlen_app, be16_length; unfold zlen, ethernetHeaderSize in *; lia).
    rewrite slice_at by (rewrite ?be16_length; unfold zlen; lia). outcome_simpl. rewrite get_be16_exact by done. outcome_simpl.
    rewrite (assoc_L (++)), slice_from_app by (rewrite zlen_app, be16_length; unfold zlen, ethernetHeaderSize; lia). outcome_simpl. by rewrite Hs.
  - unfold stripCooked. rewrite <- !(assoc_L (++)).
    rewrite (proj2 (Z.ltb_ge _ _)) by (rewrite !zlen_app, be16_length; unfold zlen, sllHeaderSize in *; lia).
    rewrite slice_at by (rewrite ?be16_length; unfold zlen; lia). outcome_simpl. rewrite get_be16_exact by done. outcome_simpl.
    rewrite (assoc_L (++)), slice_from_app by (rewrite zlen_app, be16_length; unfold zlen, sllHeaderSize; lia).
    by destruct (t =? ethertypeIPv4).
  - unfold stripCooked. rewrite <- !(assoc_L (++)).
    rewrite (proj2 (Z.ltb_ge _ _)) by (rewrite !zlen_app, be16_length; unfold zlen, sll2HeaderSize in *; lia).
    rewrite (slice_app_l (be16 t)) by done. outcome_simpl. rewrite get_be16_exact by done. outcome_simpl.
    rewrite (assoc_L (++)), slice_from_app by (rewrite zlen_app, be16_length; unfold zlen, sll2HeaderSize; lia).
    by destruct (t =? ethertypeIPv4).
Qed.

Lemma ihl_fields (ihl : Z) : 5 <= ihl <= 15 -> Z.shiftr (64 + ihl) 4 = 4 /\ Z.land (64 + ihl) 15 = ihl.
Proof.
  intros Hi. assert (Hall : Forall (fun n => Z.shiftr (64 + Z.of_nat n) 4 = 4 /\ Z.land (64 + Z.of_nat n) 15 = Z.of_nat n) (seq 5 11)) by decide_now.
  rewrite Forall_forall in Hall. specialize (Hall (Z.to_nat ihl)). rewrite Z2Nat.id in Hall by lia. apply Hall, elem_of_seq. lia.
Qed.

Lemma index_at {E : Type} (b : bytes) (i : nat) (x : Z) : b !! i = Some x -> index (E := E) b (Z.of_nat i) = Ok x.
Proof. intros Hx. unfold index. rewrite (proj2 (Z.leb_le _ _)), Nat2Z.id, Hx by lia. done. Qed.

Lemma parseIPv4UDP_datagram (h ck data : bytes) (sp dp n : Z) :
  ip_header h -> is_u16 sp -> is_u16 dp -> is_u16 n -> length ck = 2%nat ->
  parseIPv4UDP (h ++ be16 sp ++ be16 dp ++ be16 n ++ ck ++ data) = Ok (Some (sp, dp, udp_data n data)).
Proof.
  intros (ihl & Hi & Hl & H0 & H9) Hsp Hdp Hn Hck. destruct (ihl_fields ihl Hi) as [F1 F2].
  pose proof (zlen_nonneg data). set (udp := be16 sp ++ _).
  assert (Hudp : zlen udp = 8 + zlen data).
  { unfold udp. rewrite !zlen_app, !be16_length. unfold zlen in *. lia. }
  unfold parseIPv4UDP. rewrite (proj2 (Z.ltb_ge _ _)) by (rewrite zlen_app; lia).
  rewrite (index_at _ 0 (64 + ihl)) by by apply lookup_app_l_Some. outcome_simpl. rewrite F1, F2. change (4 =? 4) with true. cbn [negb].
  rewrite (proj2 (Z.ltb_ge _ 20)), (proj2 (Z.ltb_ge _ (ihl * 4))) by (rewrite ?zlen_app; lia). cbn [orb].
  rewrite (index_at _ 9 ipProtoUDP) by by apply lookup_app_l_Some. outcome_simpl. change (ipProtoUDP =? ipProtoUDP) with true. cbn [negb].
  rewrite slice_from_app by lia. outcome_simpl. rewrite (proj2 (Z.ltb_ge _ _)) by lia.
  assert (E0 : slice (E := pcap_error) udp 0 2 = Ok (be16 sp)) by by apply slice_app_l.
  assert (E2 : slice (E := pcap_error) udp 2 4 = Ok (be16 dp)) by by apply slice_at.
  assert (E4 : slice (E := pcap_error) udp 4 6 = Ok (be16 n)) by (unfold udp; rewrite (assoc_L (++)); by apply slice_at).
  rewrite E0, E2, E4. outcome_simpl. rewrite !get_be16_exact by done. outcome_simpl. rewrite Hudp.
  assert (Hdata : forall k, 0 <= k <= zlen data -> slice (E := pcap_error) udp 8 (8 + k) = Ok (take (Z.to_nat k) data)).
  { intros k Hk. unfold udp. rewrite <- (take_drop (Z.to_nat k) data) at 1. rewrite (assoc_L (++)), (assoc_L (++)), (assoc_L (++)).
    assert (zlen (take (Z.to_nat k) data) = k) by (rewrite zlen_take by lia; lia).
    apply slice_at; rewrite !zlen_app, !be16_length; unfold zlen in *; lia. }
  unfold udp_data. case_bool_decide as Hd.
  - rewrite (proj2 (Z.leb_le 8 _)), (proj2 (Z.leb_le n _)) by lia. cbn [andb].
    replace n with (8 + (n - 8)) at 1 by lia. by rewrite Hdata by lia.
  - assert (((8 <=? n) && (n <=? 8 + zlen data)) = false) as -> by (apply andb_false_iff; destruct (Z.leb_spec 8 n), (Z.leb_spec n (8 + zlen data)); tauto || lia).
    rewrite Hdata by lia. unfold zlen. by rewrite Nat2Z.id, firstn_all.
Qed.

(** The parser has an answer for every packet. *)
Lemma parseIPv4UDP_total (b : bytes) : exists r, parseIPv4UDP b = Ok r /\ (not_udp b -> r = None).
Proof.
  unfold parseIPv4UDP. destruct (Z.ltb_spec (zlen b) 20) as [|Hl]; [by exists None|].
  destruct (index_ok (E := pcap_error) b 0) as (b0 & L0 & ->); [lia|]. outcome_simpl.
  destruct (Z.eqb_spec (Z.shiftr b0 4) 4) as [Hv|]; [|by exists None]. cbn [negb]. pose proof (Z.land_nonneg b0 15).
  destruct (_ || _) eqn:Ei; [by exists None|]. apply orb_false_iff in Ei as [I1%Z.ltb_ge I2%Z.ltb_ge].
  destruct (index_ok (E := pcap_error) b 9) as (b9 & L9 & ->); [lia|]. outcome_simpl.
  destruct (Z.eqb_spec b9 ipProtoUDP) as [H9|]; [|by exists None]. cbn [negb].
  rewrite slice_from_ok by lia. outcome_simpl. set (udp := drop _ b). destruct (Z.ltb_spec (zlen udp) 8) as [|Hu]; [by exists None|].
  assert (Hget : forall i, 0 <= i <= 6 -> exists v, (field ← slice (E := pcap_error) udp i (i + 2); get_u16 field) = Ok v).
  { intros i Hi. rewrite slice_ok by lia. outcome_simpl. apply get_u16_total. rewrite zlen_take, zlen_drop by lia. lia. }
  destruct (Hget 0 ltac:(lia)) as [v0 V0]. destruct (Hget 2 ltac:(lia)) as [v2 V2]. destruct (Hget 4 ltac:(lia)) as [v4 V4]. cbn [Z.add Pos.add] in V0, V2, V4.
  assert (Hbind : forall A (m : outcome pcap_error bytes) (k : Z -> outcome pcap_error A) v,
    (field ← m; get_u16 field) = Ok v -> (field ← m; x ← get_u16 field; k x) = k v).
  { intros A [f| |] k v; cbn; [|done|done]. by intros ->. }
  rewrite (Hbind _ _ _ _ V0), (Hbind _ _ _ _ V2), (Hbind _ _ _ _ V4). rewrite slice_ok.
  - eexists. split; [reflexivity|]. change (Z.to_nat 0) with 0%nat in L0. change (Z.to_nat 9) with 9%nat in L9.
    unfold udp in Hu. rewrite zlen_drop in Hu by lia. intros [?|(b0' & b9' & E0 & E9 & Hc)]; [lia|].
    rewrite L0 in E0. rewrite L9 in E9. injection E0 as <-. injection E9 as <-. destruct Hc as [Hc|[Hc|[Hc|Hc]]]; [done|lia|done|lia].
  - destruct ((8 <=? v4) && (v4 <=? zlen udp)) eqn:Ev; [|lia]. lia.
  - destruct ((8 <=? v4) && (v4 <=? zlen udp)) eqn:Ev; [|lia]. lia.
Qed.

(** A frame that ends within its link header is passed over. *)
Lemma stripVLAN_cut (tcis : list bytes) (rest : bytes) : Forall (fun tci => length tci = 2%nat) tcis -> zlen rest < 4 ->
  exists v tail, vlan_chain tcis ethertypeVLANTag ++ rest = be16 v ++ tail /\ is_u16 v /\ stripVLAN v tail = None.
Proof.
  intros Htc Hr. induction Htc as [|tci tcis Hl _ (v & tail & E & Hv & IH)].
  - exists ethertypeVLANTag, rest. split_and!; [done|done|]. destruct rest as [|x [|y [|z [|u rest]]]]; try done.
    rewrite !zlen_cons in Hr. pose proof (zlen_nonneg rest). lia.
  - exists ethertypeVLANTag, (tci ++ be16 v ++ tail). split_and!; [|done|].
    + rewrite <- E. unfold vlan_chain. cbn [map concat]. by rewrite <- !(assoc_L (++)).
    + destruct tci as [|x [|y [|? ?]]]; try done. cbn [app be16 stripVLAN].
      change (ethertypeVLANTag =? ethertypeVLANTag) with true. cbn iota. rewrite <- IH. f_equal. word_lia.
Qed.

Lemma stripLinkLayer_cut (linkType : Z) (frame : bytes) : link_cut linkType frame -> stripLinkLayer linkType frame = Ok None.
Proof.
  intros [f Hf|macs tcis rest Hm Htc Hr|f Hf|f Hf]; unfold stripLinkLayer; cbn [Z.eqb Pos.eqb linkTypeEthernet linkTypeLinuxSLL linkTypeLinuxSLL2];
    unfold stripCooked; [by rewrite (proj2 (Z.ltb_lt _ _))| |by rewrite (proj2 (Z.ltb_lt _ _))..].
  destruct (stripVLAN_cut tcis rest Htc Hr) as (v & tail & E & Hv & Hs). rewrite E. pose proof (zlen_nonneg tail).
  rewrite (proj2 (Z.ltb_ge _ _)) by (rewrite !zlen_app, be16_length; unfold zlen, ethernetHeaderSize in *; lia).
  rewrite slice_at by (rewrite ?be16_length; unfold zlen; lia). outcome_simpl. rewrite get_be16_exact by done. outcome_simpl.
  rewrite (assoc_L (++)), slice_from_app by (rewrite zlen_app, be16_length; unfold zlen, ethernetHeaderSize; lia). outcome_simpl. by rewrite Hs.
Qed.

(** Every frame carries a datagram or none, whatever its bytes. *)
Lemma be16_pair (x y : Z) : is_u8 x -> is_u8 y -> be16 (x * 256 + y) = [x; y] /\ is_u16 (x * 256 + y).
Proof. unfold is_u8, is_u16, be16. intros Hx Hy. split; [|lia]. by repeat f_equal; word_lia. Qed.

Lemma bytes_ok_cons (x : Z) (l : bytes) : bytes_ok (x :: l) <-> is_u8 x /\ bytes_ok l.
Proof. apply Forall_cons. Qed.

Lemma vlan_cases (payload : bytes) (v : Z) : bytes_ok payload -> is_u16 v ->
  (exists tcis rest, be16 v ++ payload = vlan_chain tcis ethertypeVLANTag ++ rest /\ Forall (fun tci => length tci = 2%nat) tcis /\ zlen rest < 4) \/
  (exists tcis t b, be16 v ++ payload = vlan_chain tcis t ++ b /\ Forall (fun tci => length tci = 2%nat) tcis /\ t <> ethertypeVLANTag /\ is_u16 t).
Proof.
  revert v. remember (length payload) as n eqn:En. revert payload En. induction (lt_wf n) as [n _ IH]. intros payload -> v Hok Hv.
  destruct (decide (v = ethertypeVLANTag)) as [-> |Hne]; [|right; by exists [], v, payload].
  destruct payload as [|x [|y [|z [|u payload]]]]; try (left; by eexists [], _; split_and!; [reflexivity|constructor|]).
  rewrite !bytes_ok_cons in Hok. destruct Hok as (Hx & Hy & Hz & Hu & Hok). destruct (be16_pair z u Hz Hu) as [E Hzu].
  destruct (IH (length payload) ltac:(cbn; lia) payload eq_refl _ Hok Hzu) as [(tcis & rest & E' & Htc & Hr)|(tcis & t & b & E' & Htc & Hr)]; rewrite E in E'; cbn [app] in E'.
  - left. exists ([x; y] :: tcis), rest. split_and!; [|by constructor|done].
    rewrite E'. unfold vlan_chain. cbn [map concat]. by rewrite <- !(assoc_L (++)).
  - right. exists ([x; y] :: tcis), t, b. split_and!; [|by constructor|apply Hr..].
    rewrite E'. unfold vlan_chain. cbn [map concat]. by rewrite <- !(assoc_L (++)).
Qed.

Lemma link_cases (linkType : Z) (frame : bytes) : link_ok linkType -> bytes_ok frame ->
  link_cut linkType frame \/ exists l t b, frame = l ++ b /\ link_header linkType l t /\ is_u16 t.
Proof.
  intros Hk Hok. assert (Htwo : forall b, bytes_ok b -> length b = 2%nat -> exists v, b = be16 v /\ is_u16 v).
  { intros [|x [|y [|? ?]]] Hb Hl; try done. rewrite !bytes_ok_cons in Hb. destruct (be16_pair x y) as [<- ?]; [apply Hb..|]. by eexists. }
  destruct Hk as [->|[-> | ->]].
  - destruct (Z.ltb_spec (zlen frame) 14) as [Hl|Hl]; [left; by apply lc_ethernet|]. unfold zlen in Hl.
    destruct (Htwo (take 2 (drop 12 frame))) as (v & Ev & Hv); [by apply bytes_ok_take, bytes_ok_drop|rewrite length_take, length_drop; lia|].
    assert (Ef : frame = take 12 frame ++ be16 v ++ drop 14 frame).
    { rewrite <- Ev. change 14%nat with (12 + 2)%nat. rewrite <- drop_drop. by rewrite !take_drop. }
    assert (Hm : length (take 12 frame) = 12%nat) by (rewrite length_take; lia). rewrite Ef.
    destruct (vlan_cases (drop 14 frame) v) as [(tcis & rest & -> & Htc & Hr)|(tcis & t & b & -> & Htc & Hne & Ht)]; [by apply bytes_ok_drop|done|left; by apply lc_vlan|].
    right. exists (take 12 frame ++ vlan_chain tcis t), t, b. split_and!; [by rewrite (assoc_L (++))|by apply lh_ethernet|done].
  - destruct (Z.ltb_spec (zlen frame) 16) as [Hl|Hl]; [left; by apply lc_sll|]. unfold zlen in Hl. right.
    destruct (Htwo (take 2 (drop 14 frame))) as (v & Ev & Hv); [by apply bytes_ok_take, bytes_ok_drop|rewrite length_take, length_drop; lia|].
    exists (take 14 frame ++ be16 v), v, (drop 16 frame). split_and!; [|apply lh_sll; rewrite length_take; lia|done].
    rewrite <- Ev, <- (assoc_L (++)). change 16%nat with (14 + 2)%nat. rewrite <- drop_drop. by rewrite !take_drop.
  - destruct (Z.ltb_spec (zlen frame) 20) as [Hl|Hl]; [left; by apply lc_sll2|]. unfold zlen in Hl. right.
    destruct (Htwo (take 2 frame)) as (v & Ev & Hv); [by apply bytes_ok_take|rewrite length_take; lia|].
    exists (be16 v ++ take 18 (drop 2 frame)), v, (drop 20 frame). split_and!; [|apply lh_sll2; rewrite length_take, length_drop; lia|done].
    rewrite <- Ev, <- (assoc_L (++)). change 20%nat with (2 + 18)%nat. rewrite <- drop_drop. by rewrite !take_drop.
Qed.

Lemma version_byte (b0 : Z) : is_u8 b0 -> Z.shiftr b0 4 = 4 -> b0 = 64 + Z.land b0 15 /\ Z.land b0 15 <= 15.
Proof.
  change 15 with (Z.ones 4) at 1 2. rewrite (Z.land_ones b0 4), Z.shiftr_div_pow2 by lia. change (2 ^ 4) with 16. intros Hb Hv. word_lia.
Qed.

Lemma ip_cases (b : bytes) : bytes_ok b -> not_udp b \/
  exists h sp dp n ck data, b = h ++ be16 sp ++ be16 dp ++ be16 n ++ ck ++ data /\ ip_header h /\ is_u16 sp /\ is_u16 dp /\ is_u16 n /\ length ck = 2%nat.
Proof.
  intros Hok. unfold not_udp. destruct (Z.ltb_spec (zlen b) 20) as [|Hl]; [by left; left|]. unfold zlen in Hl.
  destruct (lookup_lt_is_Some_2 b 0) as [b0 H0]; [lia|]. destruct (lookup_lt_is_Some_2 b 9) as [b9 H9]; [lia|].
  pose proof (Forall_lookup_1 _ _ _ _ Hok H0) as Hb0. cbn in Hb0.
  destruct (decide (Z.shiftr b0 4 = 4)) as [Hv|]; [|left; right; exists b0, b9; tauto].
  destruct (decide (5 <= Z.land b0 15)) as [Hi|]; [|left; right; exists b0, b9; split_and!; [done..|lia]].
  destruct (decide (b9 = ipProtoUDP)) as [->|]; [|left; right; exists b0, b9; tauto].
  destruct (decide (Z.land b0 15 * 4 + 8 <= zlen b)) as [Hu|]; [|left; right; exists b0, ipProtoUDP; split_and!; [done..|lia]].
  right. set (ihl := Z.land b0 15) in *. set (k := Z.to_nat (ihl * 4)).
  destruct (version_byte b0 Hb0 Hv) as [Eb Hi']. fold ihl in Eb, Hi'.
  assert (Hd : bytes_ok (drop k b)) by by apply bytes_ok_drop. assert (Hlen : (8 <= length (drop k b))%nat) by (rewrite length_drop; unfold zlen in Hu; lia).
  destruct (drop k b) as [|x1 [|x2 [|x3 [|x4 [|x5 [|x6 [|x7 [|x8 data]]]]]]]] eqn:Ed; try (cbn in Hlen; lia). rewrite !bytes_ok_cons in Hd.
  destruct (be16_pair x1 x2) as [E1 U1]; [apply Hd..|]. destruct (be16_pair x3 x4) as [E2 U2]; [apply Hd..|]. destruct (be16_pair x5 x6) as [E3 U3]; [apply Hd..|].
  exists (take k b), (x1 * 256 + x2), (x3 * 256 + x4), (x5 * 256 + x6), [x7; x8], data. split_and!; [| |done..].
  - rewrite E1, E2, E3. cbn [app]. by rewrite <- Ed, take_drop.
  - exists ihl. split_and!; [lia|lia|unfold zlen in *; rewrite length_take; lia|rewrite lookup_take_lt by lia; congruence|by rewrite lookup_take_lt by lia].
Qed.

Lemma carries_every (linkType : Z) (frame : bytes) : link_ok linkType -> bytes_ok frame -> exists g, carries linkType frame g.
Proof.
  intros Hk Hok. destruct (link_cases linkType frame Hk Hok) as [Hc|(l & t & b & -> & Hl & Ht)]; [by exists None; apply carries_cut|].
  apply bytes_ok_app in Hok as [_ Hb]. destruct (decide (t = ethertypeIPv4)) as [->|Hne]; [|exists None; by eapply carries_other_protocol].
  destruct (ip_cases b Hb) as [Hn|(h & sp & dp & n & ck & data & -> & Hh & Hsp & Hdp & Hn & Hck)]; [exists None; by apply carries_other_ip|].
  eexists. by apply carries_udp.
Qed.

Lemma carries_all (linkType : Z) (recs : list record) : link_ok linkType -> Forall (fun r => bytes_ok (r_frame r)) recs ->
  exists gs, Forall2 (fun r g => carries linkType (r_frame r) g) recs gs.
Proof.
  intros Hk. induction 1 as [|r recs Hr _ [gs IH]]; [by exists []|]. destruct (carries_every linkType (r_frame r) Hk Hr) as [g Hg].
  exists (g :: gs). by constructor.
Qed.

Lemma stripLinkLayer_total (linkType : Z) (frame : bytes) : exists r, stripLinkLayer linkType frame = Ok r.
Proof.
  assert (Hcooked : forall size at_, 0 <= at_ -> at_ + 2 <= size -> exists r, stripCooked size at_ frame = Ok r).
  { intros size at_ H0 H1. unfold stripCooked. destruct (Z.ltb_spec (zlen frame) size) as [|Hl]; [by eexists|].
    rewrite slice_ok by lia. outcome_simpl. destruct (get_u16_total (E := pcap_error) (take (Z.to_nat (at_ + 2 - at_)) (drop (Z.to_nat at_) frame))) as [v ->].
    { rewrite zlen_take, zlen_drop by lia. lia. }
    outcome_simpl. destruct (negb _); [by eexists|]. rewrite slice_from_ok by lia. by eexists. }
  unfold stripLinkLayer. destruct (linkType =? linkTypeEthernet); [|destruct (linkType =? linkTypeLinuxSLL); [by apply Hcooked|]; destruct (linkType =? linkTypeLinuxSLL2); [by apply Hcooked|by eexists]].
  unfold ethernetHeaderSize. destruct (Z.ltb_spec (zlen frame) 14) as [|Hl]; [by eexists|].
  rewrite slice_ok by lia. outcome_simpl. destruct (get_u16_total (E := pcap_error) (take (Z.to_nat (14 - 12)) (drop (Z.to_nat 12) frame))) as [v ->].
  { rewrite zlen_take, zlen_drop by lia. lia. }
  outcome_simpl. rewrite slice_from_ok by lia. by eexists.
Qed.

Lemma record_payload_total (linkType port : Z) (frame : bytes) : exists r, record_payload linkType port frame = Ok r.
Proof.
  unfold record_payload. destruct (stripLinkLayer_total linkType frame) as [[ip|] ->]; outcome_simpl; [|by eexists].
  destruct (parseIPv4UDP_total ip) as [[[[sp dp] p]|] [-> _]]; outcome_simpl; [|by eexists]. destruct (_ && _); by eexists.
Qed.

(** What a frame carries is what its record adds. *)
Lemma record_payload_carries (linkType port : Z) (frame : bytes) (g : option (Z * Z * bytes)) :
  carries linkType frame g -> record_payload linkType port frame = Ok (g ≫= on_port port).
Proof.
  unfold record_payload. intros [l h sp dp n ck data Hl Hh Hsp Hdp Hn Hck|l b Hl Hb|l t b Hl Ht Hne|f Hf]; [| | |by rewrite stripLinkLayer_cut].
  - rewrite (stripLinkLayer_header _ _ _ _ Hl) by done. change (ethertypeIPv4 =? ethertypeIPv4) with true. cbn iota. outcome_simpl.
    rewrite parseIPv4UDP_datagram by done. outcome_simpl. cbn [on_port mbind option_bind]. by destruct (_ && _).
  - rewrite (stripLinkLayer_header _ _ _ _ Hl) by done. change (ethertypeIPv4 =? ethertypeIPv4) with true. cbn iota. outcome_simpl.
    destruct (parseIPv4UDP_total b) as (r & -> & Hr). by rewrite (Hr Hb).
  - rewrite (stripLinkLayer_header _ _ _ _ Hl) by done. by rewrite (proj2 (Z.eqb_neq _ _) Hne).
Qed.

(** ** Reading records *)

Lemma record_bytes_length (order : ByteOrder) (r : record) : record_ok r -> zlen (record_bytes order r) = 16 + zlen (r_frame r).
Proof. intros [Ht _]. unfold record_bytes. rewrite !zlen_app, !put32_length. unfold zlen. lia. Qed.

(** A round on the bytes of a record with others behind it. *)
Lemma records_record (fuel : nat) (order : ByteOrder) (linkType port : Z) (r : record) (s : bytes) : record_ok r ->
  records (S fuel) order linkType port (record_bytes order r ++ s) =
    (x ← record_payload linkType port (r_frame r); out ← records fuel order linkType port s; Ok (option_list x ++ out)).
Proof.
  intros [Ht Hf]. cbn [records]. unfold record_bytes. rewrite <- !(assoc_L (++)).
  set (a := r_time r). set (l := put32 order (zlen (r_frame r))). set (o := put32 order (r_origLen r)).
  replace (a ++ l ++ o ++ r_frame r ++ s) with ((a ++ l ++ o) ++ r_frame r ++ s) by by rewrite <- !(assoc_L (++)).
  rewrite ReadFull_app by (unfold a, l, o, recordHeaderSize; rewrite !zlen_app, !put32_length; unfold zlen; lia).
  rewrite slice_at by (unfold a, l; rewrite ?put32_length; unfold zlen; lia). outcome_simpl. unfold l. rewrite Uint32_put32 by done. outcome_simpl.
  by rewrite ReadFull_app.
Qed.

Definition contents (port : Z) (gs : list (option (Z * Z * bytes))) : list UDPPayload := omap (fun g => g ≫= on_port port) gs.

Lemma records_run (order : ByteOrder) (linkType port : Z) (recs : list record) (gs : list (option (Z * Z * bytes))) (tail : bytes) R :
  Forall record_ok recs -> Forall2 (fun r g => carries linkType (r_frame r) g) recs gs ->
  (forall fuel, (length tail < fuel)%nat -> records fuel order linkType port tail = R) ->
  forall fuel, (length (concat (map (record_bytes order) recs) ++ tail) < fuel)%nat ->
    records fuel order linkType port (concat (map (record_bytes order) recs) ++ tail) = (out ← R; Ok (contents port gs ++ out)).
Proof.
  intros Hok Hg HR. revert Hok. induction Hg as [|r g recs gs Hc _ IH].
  - intros _ fuel Hf. cbn [map concat app] in *. rewrite HR by done. by destruct R.
  - intros [Hr Hok]%Forall_cons fuel Hf. cbn [map concat] in *. rewrite <- (assoc_L (++)) in *. destruct fuel as [|fuel]; [lia|].
    rewrite length_app in Hf. pose proof (record_bytes_length order r Hr) as Hl.
    rewrite records_record by done. rewrite (record_payload_carries _ _ _ _ Hc). outcome_simpl.
    rewrite IH by (done || unfold zlen in *; lia). destruct R as [out| |]; [|done|done]. outcome_simpl. unfold contents. cbn [omap list_omap].
    destruct (g ≫= on_port port); cbn [option_list]; [|done]. done.
Qed.

(** The rounds always suffice, and nothing panics. *)
Lemma records_total (fuel : nat) (order : ByteOrder) (linkType port : Z) (s : bytes) : (length s < fuel)%nat ->
  match records fuel order linkType port s with Panic | Err ErrRounds => False | _ => True end.
Proof.
  revert s. induction fuel as [|fuel IH]; intros s Hf; [lia|]. cbn [records]. unfold ReadFull at 1, recordHeaderSize.
  destruct (Z.leb_spec 16 (zlen s)) as [Hl|]; [|by destruct s]. change (Z.to_nat 16) with 16%nat.
  assert (Hh : zlen (take 16 s) = 16) by (unfold zlen in *; rewrite length_take; lia).
  rewrite slice_ok by lia. outcome_simpl. set (field := take _ _).
  assert (Hfl : length field = 4%nat) by (unfold field; rewrite length_take, length_drop; unfold zlen in Hh; lia).
  destruct (Uint32_total (E := pcap_error) order field Hfl) as [v ->]. outcome_simpl. unfold ReadFull. destruct (v <=? _); [|by destruct (drop 16 s)].
  destruct (record_payload_total linkType port (take (Z.to_nat v) (drop 16 s))) as [x ->]. outcome_simpl.
  set (s' := drop (Z.to_nat v) (drop 16 s)). specialize (IH s' ltac:(unfold s'; rewrite !length_drop; unfold zlen in Hl; lia)).
  destruct (records fuel order linkType port s') as [out|e|]; [done|exact IH|done].
Qed.

(** The beginning of a record alone. *)
Lemma records_cut (fuel : nat) (order : ByteOrder) (linkType port : Z) (r : record) (cut rest : bytes) :
  record_ok r -> record_bytes order r = cut ++ rest -> cut <> [] -> rest <> [] ->
  records (S fuel) order linkType port cut = Err (if zlen cut <? 16 then ErrRecordHeader else ErrRecordData).
Proof.
  intros Hr E Hc He. cbn [records]. destruct (Z.ltb_spec (zlen cut) 16) as [Hl|Hl]; [by rewrite ReadFull_short|].
  pose proof (record_bytes_length order r Hr) as Hlen. rewrite E, zlen_app in Hlen.
  set (hd := r_time r ++ put32 order (zlen (r_frame r)) ++ put32 order (r_origLen r)).
  assert (Hhd : zlen hd = 16) by (destruct Hr as [Ht _]; unfold hd; rewrite !zlen_app, !put32_length; unfold zlen; lia).
  assert (Ecut : cut = hd ++ drop 16 cut).
  { assert (E' : hd ++ r_frame r = cut ++ rest) by (rewrite <- E; unfold hd, record_bytes; by rewrite <- !(assoc_L (++))).
    rewrite <- (take_drop 16 cut) at 1. f_equal. apply (f_equal (take 16)) in E'.
    rewrite take_app_length' in E' by (unfold zlen in Hhd; lia). rewrite E', take_app_le by (unfold zlen in Hl; lia). done. }
  rewrite Ecut, ReadFull_app by done. unfold hd. rewrite slice_at; [|destruct Hr; unfold zlen; lia|rewrite put32_length; destruct Hr; unfold zlen; lia].
  outcome_simpl. rewrite Uint32_put32 by apply Hr. outcome_simpl. unfold ReadFull.
  assert (Hd : zlen (drop 16 cut) = zlen cut - 16) by (unfold zlen in *; rewrite length_drop; lia).
  assert (0 < zlen rest) by (destruct rest; [done|unfold zlen; cbn; lia]). rewrite (proj2 (Z.leb_gt _ _)) by lia. by destruct (drop 16 cut).
Qed.

Lemma detectByteOrder_magic (order : ByteOrder) (magic : Z) : magic_ok magic -> detectByteOrder (put32 order magic) = Ok order.
Proof. intros [-> | ->]; by destruct order. Qed.

Lemma ReadUDPPayloads_file (order : ByteOrder) (magic linkType port : Z) (middle rest : bytes) :
  magic_ok magic -> length middle = 16%nat -> link_ok linkType ->
  ReadUDPPayloads (put32 order magic ++ middle ++ put32 order linkType ++ rest) port = records (S (length rest)) order linkType port rest.
Proof.
  intros Hm Hl Hk. unfold ReadUDPPayloads, globalHeaderSize. rewrite !(assoc_L (++)).
  rewrite ReadFull_app by (rewrite !zlen_app, !put32_length; unfold zlen; lia).
  rewrite <- !(assoc_L (++)), slice_app_l by apply put32_length. outcome_simpl. rewrite detectByteOrder_magic by done. outcome_simpl.
  rewrite (assoc_L (++)). rewrite <- (app_nil_r (put32 order linkType)).
  rewrite slice_at by (rewrite !zlen_app, !put32_length; unfold zlen; lia). outcome_simpl.
  rewrite Uint32_put32 by (destruct Hk as [->|[-> | ->]]; done). outcome_simpl.
  destruct Hk as [->|[-> | ->]]; done.
Qed.

Lemma ReadUDPPayloads_total (file : bytes) (port : Z) : match ReadUDPPayloads file port with Panic | Err ErrRounds => False | _ => True end.
Proof.
  unfold ReadUDPPayloads, ReadFull, globalHeaderSize. destruct (Z.leb_spec 24 (zlen file)) as [Hl|]; [|by destruct file].
  change (Z.to_nat 24) with 24%nat. set (hdr := take 24 file).
  assert (Hh : zlen hdr = 24) by (unfold hdr, zlen in *; rewrite length_take; lia).
  rewrite !slice_ok by lia. outcome_simpl. set (magic := take _ (drop (Z.to_nat 0) hdr)). set (link := take _ (drop (Z.to_nat 20) hdr)).
  assert (Hm : length magic = 4%nat) by (unfold magic, zlen in *; rewrite length_take, length_drop; lia).
  assert (Hk : length link = 4%nat) by (unfold link, zlen in *; rewrite length_take, length_drop; lia).
  unfold detectByteOrder. destruct (Uint32_total (E := pcap_error) BigEndian magic Hm) as [be ->]. destruct (Uint32_total (E := pcap_error) LittleEndian magic Hm) as [le ->].
  outcome_simpl. enough (Hrest : forall order, match (linkType ← Uint32 order link; if (linkType =? linkTypeEthernet) || (linkType =? linkTypeLinuxSLL) || (linkType =? linkTypeLinuxSLL2)
      then records (S (length (drop 24 file))) order linkType port (drop 24 file) else Err (ErrUnknownLinkType linkType)) with Panic | Err ErrRounds => False | _ => True end)
    by (destruct (_ || _); [apply Hrest|]; destruct (_ || _); [apply Hrest|done]).
  intros order. destruct (Uint32_total (E := pcap_error) order link Hk) as [v ->]. outcome_simpl. destruct (_ || _); [|done]. apply records_total. lia.
Qed.

(** Reading a capture.  Every file with the header of a supported link type, in either
    byte order and resolution, whose records carry whatever they like, reads as exactly
    the UDP payloads to or from the port, in the order of their records, each with its
    direction, behind VLAN tags, IP options and padding too; cut within a record, the
    file is refused with the part that is short.  And whatever the bytes, the reader
    neither panics nor runs out of rounds. *)
Theorem capture_round_trip (order : ByteOrder) (magic linkType port : Z) (middle : bytes) (recs : list record)
    (gs : list (option (Z * Z * bytes))) :
  magic_ok magic -> length middle = 16%nat -> link_ok linkType -> Forall record_ok recs ->
  Forall2 (fun r g => carries linkType (r_frame r) g) recs gs ->
  ReadUDPPayloads (file_bytes order magic middle linkType recs) port = Ok (omap (fun g => g ≫= on_port port) gs) /\
  (forall r cut rest, record_ok r -> record_bytes order r = cut ++ rest -> cut <> [] -> rest <> [] ->
     ReadUDPPayloads (file_bytes order magic middle linkType recs ++ cut) port = Err (if zlen cut <? 16 then ErrRecordHeader else ErrRecordData)) /\
  (forall file, match ReadUDPPayloads file port with Panic | Err ErrRounds => False | _ => True end).
Proof.
  intros Hm Hmid Hk Hok Hg. unfold file_bytes. rewrite ReadUDPPayloads_file by done.
  pose proof (fun tail R => records_run order linkType port recs gs tail R Hok Hg) as Hrun. split_and!.
  - specialize (Hrun [] (Ok [])). rewrite app_nil_r in Hrun. rewrite Hrun; [outcome_simpl; by rewrite app_nil_r|intros [|fuel] Hf; [cbn in Hf; lia|done]|lia].
  - intros r cut rest Hr E Hc He. rewrite <- !(assoc_L (++)), ReadUDPPayloads_file by done.
    rewrite (Hrun cut (Err (if zlen cut <? 16 then ErrRecordHeader else ErrRecordData))); [done| |lia].
    intros [|fuel] Hf; [lia|]. by apply records_cut with (r := r) (rest := rest).
  - intros file. apply ReadUDPPayloads_total.
Qed.

(** ** Payloads are bytes *)

Lemma slice_bytes {E : Type} (l r : bytes) (i j : Z) : bytes_ok l -> slice (E := E) l i j = Ok r -> bytes_ok r.
Proof. intros Hl. unfold slice. destruct (_ && _); [|done]. intros [= <-]. by apply bytes_ok_take, bytes_ok_drop. Qed.

Lemma stripVLAN_bytes (t : Z) (payload r : bytes) : bytes_ok payload -> stripVLAN t payload = Some r -> bytes_ok r.
Proof.
  revert t. remember (length payload) as n eqn:En. revert payload En. induction (lt_wf n) as [n _ IH]. intros payload -> t Hok.
  destruct payload as [|x [|y [|z [|u payload]]]]; cbn [stripVLAN];
    try (destruct (_ =? ethertypeVLANTag); [done|]; destruct (_ =? ethertypeIPv4); [by intros [= <-]|done]).
  destruct (_ =? ethertypeVLANTag); [|destruct (_ =? ethertypeIPv4); [by intros [= <-]|done]].
  eapply (IH (length payload)); [cbn; lia|done|]. by do 4 apply Forall_cons in Hok as [_ Hok].
Qed.

Lemma stripLinkLayer_bytes (linkType : Z) (frame r : bytes) : bytes_ok frame -> stripLinkLayer linkType frame = Ok (Some r) -> bytes_ok r.
Proof.
  intros Hok.
  assert (Hcooked : forall size at_, stripCooked size at_ frame = Ok (Some r) -> bytes_ok r).
  { intros size at_. unfold stripCooked. destruct (_ <? _); [done|]. destruct (slice frame at_ _); [|done..]. outcome_simpl.
    destruct (get_u16 _); [|done..]. outcome_simpl. destruct (negb _); [done|]. destruct (slice_from frame size) as [x| |] eqn:Es; [|done..].
    outcome_simpl. intros [= <-]. by eapply slice_bytes. }
  unfold stripLinkLayer. destruct (_ =? _); [|destruct (_ =? _); [apply Hcooked|]; destruct (_ =? _); [apply Hcooked|done]].
  destruct (_ <? _); [done|]. destruct (slice frame 12 14); [|done..]. outcome_simpl. destruct (get_u16 _); [|done..]. outcome_simpl.
  destruct (slice_from frame _) as [x| |] eqn:Es; [|done..]. outcome_simpl. intros [= E]. eapply stripVLAN_bytes; [|exact E]. by eapply slice_bytes.
Qed.

Lemma parseIPv4UDP_bytes (b : bytes) (sp dp : Z) (p : bytes) : bytes_ok b -> parseIPv4UDP b = Ok (Some (sp, dp, p)) -> bytes_ok p.
Proof.
  intros Hok. unfold parseIPv4UDP. destruct (_ <? _); [done|]. destruct (index b 0); [|done..]. outcome_simpl. destruct (negb _); [done|].
  destruct (_ || _); [done|]. destruct (index b 9); [|done..]. outcome_simpl. destruct (negb _); [done|].
  destruct (slice_from b _) as [udp| |] eqn:Eu; [|done..]. outcome_simpl. destruct (_ <? _); [done|].
  assert (Hudp : bytes_ok udp) by by eapply slice_bytes.
  destruct (slice udp 0 2) as [f0| |]; [|done..]. outcome_simpl. destruct (get_u16 f0); [|done..]. outcome_simpl.
  destruct (slice udp 2 4) as [f2| |]; [|done..]. outcome_simpl. destruct (get_u16 f2); [|done..]. outcome_simpl.
  destruct (slice udp 4 6) as [f4| |]; [|done..]. outcome_simpl. destruct (get_u16 f4); [|done..]. outcome_simpl.
  destruct (slice udp 8 _) as [q| |] eqn:Eq; [|done..]. outcome_simpl. intros [= _ _ <-]. by eapply slice_bytes.
Qed.

Lemma record_payload_bytes (linkType port : Z) (frame : bytes) (x : UDPPayload) :
  bytes_ok frame -> record_payload linkType port frame = Ok (Some x) -> bytes_ok (up_Payload x).
Proof.
  intros Hok. unfold record_payload. destruct (stripLinkLayer linkType frame) as [[ip|]| |] eqn:Es; [|done..]. outcome_simpl.
  destruct (parseIPv4UDP ip) as [[[[sp dp] p]|]| |] eqn:Ep; [|done..]. outcome_simpl. destruct (_ && _); [done|]. intros [= <-]. cbn.
  eapply parseIPv4UDP_bytes; [|exact Ep]. by eapply stripLinkLayer_bytes.
Qed.

Lemma ReadFull_bytes (n : Z) (s b rest : bytes) : bytes_ok s -> ReadFull n s = Full b rest -> bytes_ok b /\ bytes_ok rest.
Proof. intros Hs. unfold ReadFull. destruct (_ <=? _); [|by destruct s]. intros [= <- <-]. split; [by apply bytes_ok_take|by apply bytes_ok_drop]. Qed.

Lemma records_bytes (fuel : nat) (order : ByteOrder) (linkType port : Z) (s : bytes) (out : list UDPPayload) :
  bytes_ok s -> records fuel order linkType port s = Ok out -> Forall (fun p => bytes_ok (up_Payload p)) out.
Proof.
  revert s out. induction fuel as [|fuel IH]; intros s out Hs; [done|]. cbn [records].
  destruct (ReadFull recordHeaderSize s) as [recHdr s1| |] eqn:E1; [|by intros [= <-]|done]. destruct (ReadFull_bytes _ _ _ _ Hs E1) as [_ Hs1].
  destruct (slice recHdr 8 12); [|done..]. outcome_simpl. destruct (Uint32 order _) as [n| |]; [|done..]. outcome_simpl.
  destruct (ReadFull n s1) as [frame s2| |] eqn:E2; [|done..]. destruct (ReadFull_bytes _ _ _ _ Hs1 E2) as [Hf Hs2].
  destruct (record_payload linkType port frame) as [x| |] eqn:Ex; [|done..]. outcome_simpl.
  destruct (records fuel order linkType port s2) as [out'| |] eqn:Er; [|done..]. outcome_simpl. intros [= <-].
  apply Forall_app. split; [|exact (IH _ _ Hs2 Er)]. destruct x as [x|]; [|constructor]. apply Forall_singleton. exact (record_payload_bytes _ _ _ _ Hf Ex).
Qed.

Lemma ReadUDPPayloads_bytes (file : bytes) (port : Z) (out : list UDPPayload) :
  bytes_ok file -> ReadUDPPayloads file port = Ok out -> Forall (fun p => bytes_ok (up_Payload p)) out.
Proof.
  intros Hf. unfold ReadUDPPayloads. destruct (ReadFull globalHeaderSize file) as [hdr rest| |] eqn:E; [|done..].
  destruct (ReadFull_bytes _ _ _ _ Hf E) as [_ Hr]. destruct (slice hdr 0 4) as [m| |]; [|done..]. outcome_simpl.
  destruct (detectByteOrder m) as [o| |]; [|done..]. outcome_simpl. destruct (slice hdr 20 24) as [l| |]; [|done..]. outcome_simpl.
  destruct (Uint32 o l); [|done..]. outcome_simpl. destruct (_ || _); [|done]. by apply records_bytes.
Qed.

(** ** Decoding *)

Section decoding.
Context {W : Type} `{!AntiReplay W} `{!DataChan.AEAD} `{!TLSCryptPrims}.
#[local] Notation Wr := (DataChan.Wrapper W).

(** The keys a party sends under, from the server's. *)
Definition sender_keys (dir : Direction) (keys : DataKeys) : DataKeys :=
  match dir with DirClientToServer => mirrorDataKeys keys | DirServerToClient => keys end.
Definition receiver_keys (dir : Direction) (keys : DataKeys) : DataKeys :=
  match dir with DirClientToServer => keys | DirServerToClient => mirrorDataKeys keys end.

(** A datagram of a direction, and what is to be recovered of it: a control packet wrapped
    by its sender under any packet id, or a data packet sealed under any number. *)
Inductive sent (key : bytes) (dataKeys : option dataChannelKeyMaterial) (dir : Direction) : bytes -> option decodedPacket -> Prop :=
  | sent_control w p seq ts raw :
      wf_packet p -> 0 <= cp_KeyID p < 8 -> zlen (cp_SessionID p) = SessionIDSize -> cp_Opcode p <> OpDataV1 -> cp_Opcode p <> OpDataV2 ->
      NewWrapper key (bool_decide (dir = DirServerToClient)) = Ok w -> is_u32 seq ->
      WrapWithPacketID w [] (AppendHeaderByte [] (cp_Opcode p) (cp_KeyID p) ++ cp_SessionID p) (be32 seq ++ be32 ts) (AppendPlaintext p []) = Ok raw ->
      sent key dataKeys dir raw (Some (mkDecoded dir raw (header_of p) p false false 0 0 []))
  | sent_data km (w : Wr) peer keyID seq plaintext raw :
      dataKeys = Some km -> DataChan.NewWrapper (sender_keys dir (km_serverPerspective km)) peer keyID = Ok w ->
      0 <= peer <= 16777215 -> is_u32 seq -> DataChan.SealWithPacketID w [] seq plaintext = Ok raw ->
      sent key dataKeys dir raw (Some (mkDecoded dir raw zeroHeader zeroControl true (DataChan.IsPing plaintext) peer seq
        (if DataChan.IsPing plaintext then [] else plaintext)))
  | sent_data_skipped (w : Wr) seq plaintext raw :
      dataKeys = None -> DataChan.SealWithPacketID w [] seq plaintext = Ok raw -> sent key dataKeys dir raw None.

(** What a payload has passed when it is not refused. *)
Definition authentic (key : bytes) (dataKeys : option dataChannelKeyMaterial) (p : UDPPayload) (d : option decodedPacket) : Prop :=
  exists b0, up_Payload p !! 0%nat = Some b0 /\
  let opcode := (ParseHeaderByte b0).1 in
  ValidOpcode opcode = true /\
  match d with
  | None => opcode = OpDataV1 \/ opcode = OpDataV2 /\ dataKeys = None
  | Some d => dp_Raw d = up_Payload p /\ dp_Direction d = up_Direction p /\
      if dp_IsDataPacket d then
        opcode = OpDataV2 /\ exists km (w : Wr) plaintext, dataKeys = Some km /\
          DataChan.NewWrapper (receiver_keys (up_Direction p) (km_serverPerspective km)) (km_peerID km) 0 = Ok w /\
          DataChan.opened w (up_Payload p) = Some plaintext /\ dp_DataPacketID d = DataChan.seq_of (up_Payload p) /\
          dp_IsPing d = DataChan.IsPing plaintext /\ dp_Plaintext d = (if DataChan.IsPing plaintext then [] else plaintext)
      else
        opcode <> OpDataV1 /\ opcode <> OpDataV2 /\ exists w, NewWrapper key (bool_decide (up_Direction p = DirClientToServer)) = Ok w /\
          OffCT <= zlen (up_Payload p) /\ tag_verifies w (up_Payload p) = true /\
          ParseControlPacket (decrypted_of w (up_Payload p)) (dp_Header d) = Ok (dp_Control d)
  end.

Lemma fresh_window (seq : Z) : is_u32 seq -> (ar_accept ar_init seq).1 = true.
Proof.
  intros Hs. destruct (ar_accept ar_init seq) as [ok w'] eqn:E. by destruct (ar_accept_spec _ _ _ _ _ Hs ar_init_models E) as [-> _].
Qed.

(** ** A control packet *)

(** [Unwrap] by a fresh wrapper. *)
Lemma Unwrap_fresh (key : bytes) (server : bool) (w : Wrapper) (packet : bytes) : NewWrapper key server = Ok w ->
  (Unwrap w [] packet).1 = (if zlen packet <? OffCT then Err ErrShort else if tag_verifies w packet then Ok (take 9 packet, decrypted_of w packet) else Err ErrAuth).
Proof.
  intros Hw. rewrite Unwrap_result. cbn [fst]. unfold unwrap_verdict. change OffCT with 49. destruct (_ <? _); [done|].
  destruct (tag_verifies w packet); [|done]. cbn [negb]. enough (w_replay w = zeroReplayWindow) as -> by done.
  unfold NewWrapper in Hw. destruct (negb _); [done|]. destruct server; by injection Hw as <-.
Qed.

(** The decoder on a control packet, in full. *)
Lemma decodeControl_result (key : bytes) (i : nat) (dir : Direction) (payload : bytes) :
  match decodeControl key i dir payload with
  | Panic => False
  | Err _ => True
  | Ok d => exists w, NewWrapper key (bool_decide (dir = DirClientToServer)) = Ok w /\ OffCT <= zlen payload /\ tag_verifies w payload = true /\
      ParseControlPacket (decrypted_of w payload) (dp_Header d) = Ok (dp_Control d) /\ dp_Raw d = payload /\ dp_Direction d = dir /\ dp_IsDataPacket d = false
  end.
Proof.
  unfold decodeControl. destruct (Z.ltb_spec (zlen payload) OffCT) as [|Hl]; [done|].
  destruct (NewWrapper key (bool_decide (dir = DirClientToServer))) as [w| |] eqn:Hw; [|done|]; [|unfold NewWrapper in Hw; destruct (negb _); [done|by destruct (bool_decide _)]].
  rewrite (Unwrap_fresh _ _ _ _ Hw), (proj2 (Z.ltb_ge _ _)) by done. destruct (tag_verifies w payload) eqn:Ht; [|done].
  change OffCT with 49 in Hl. assert (Hh : zlen (take 9 payload) = 9) by (unfold zlen in *; rewrite length_take; lia).
  destruct (index_ok (E := decode_error) (take 9 payload) 0) as (h0 & _ & ->); [lia|]. outcome_simpl.
  destruct (ParseHeaderByte h0) as [op kid]. rewrite slice_ok by (unfold SessionIDSize; lia). outcome_simpl.
  destruct (ParseControlPacket _ _) as [cp| |] eqn:Hp; [|done|by destruct (ParseControlPacket_no_panic _ _ Hp)].
  exists w. cbn. by split_and!.
Qed.

(** ** A data packet *)

(** Keys as the type of the code has them. *)
Definition keys_ok (keys : DataKeys) : Prop := zlen (EncryptCipher keys) = 32 /\ zlen (DecryptCipher keys) = 32.

Lemma DataWrapper_no_panic (keys : DataKeys) (peer keyID : Z) : keys_ok keys -> DataChan.NewWrapper (W := W) keys peer keyID <> Panic.
Proof.
  intros [He Hd]. unfold DataChan.NewWrapper. destruct (_ && _) eqn:El; [done|].
  assert (Hlen : CipherKeyLen keys = 16 \/ CipherKeyLen keys = 32) by (apply andb_false_iff in El as [El|El]; apply negb_false_iff, Z.eqb_eq in El; auto).
  rewrite !slice_ok by lia. outcome_simpl. unfold DataChan.aesNewCipher. rewrite !Z.sub_0_r, !zlen_take by lia. change (Z.to_nat 0) with 0%nat. rewrite !drop_0, He, Hd.
  destruct Hlen as [-> | ->]; done.
Qed.

Lemma receiver_keys_ok (dir : Direction) (keys : DataKeys) : keys_ok keys -> keys_ok (receiver_keys dir keys).
Proof. intros [H1 H2]. by destruct dir. Qed.

(** [Open] by a fresh wrapper. *)
Lemma Open_fresh (keys : DataKeys) (peer keyID : Z) (w : Wr) (packet : bytes) : DataChan.NewWrapper keys peer keyID = Ok w -> is_u32 (DataChan.seq_of packet) ->
  (DataChan.Open w [] packet).1 = (if zlen packet <? 24 then Err DataChan.ErrShort else
    match DataChan.opened w packet with
    | None => Err DataChan.ErrAuth
    | Some plaintext => if DataChan.IsPing plaintext then Err DataChan.ErrPingAbsorbed else Ok plaintext
    end).
Proof.
  intros Hw Hok. rewrite DataChan.Open_result. destruct (_ <? _); [done|]. destruct (DataChan.opened w packet) as [p|]; [|done].
  destruct (DataChan.NewWrapper_start _ _ _ _ Hw) as (_ & -> & _). pose proof (fresh_window (DataChan.seq_of packet) Hok) as Hf.
  destruct (ar_accept ar_init (DataChan.seq_of packet)) as [ok r]. cbn in Hf. subst ok. cbn [negb fst]. by destruct (DataChan.IsPing p).
Qed.

(** The decoder on a data packet, in full. *)
Lemma decodeData_result (km : dataChannelKeyMaterial) (i : nat) (dir : Direction) (payload : bytes) :
  bytes_ok payload -> keys_ok (km_serverPerspective km) ->
  match decodeData km i dir payload with
  | Panic => False
  | Err _ => True
  | Ok d => exists (w : Wr) plaintext, DataChan.NewWrapper (receiver_keys dir (km_serverPerspective km)) (km_peerID km) 0 = Ok w /\
      DataChan.opened w payload = Some plaintext /\ dp_DataPacketID d = DataChan.seq_of payload /\
      dp_IsPing d = DataChan.IsPing plaintext /\ dp_Plaintext d = (if DataChan.IsPing plaintext then [] else plaintext) /\
      dp_Raw d = payload /\ dp_Direction d = dir /\ dp_IsDataPacket d = true
  end.
Proof.
  intros Hok Hk. unfold decodeData. destruct (Z.ltb_spec (zlen payload) 8) as [|Hl]; [done|].
  destruct (index_ok (E := decode_error) payload 1) as (b1 & _ & ->); [lia|]. destruct (index_ok (E := decode_error) payload 2) as (b2 & _ & ->); [lia|].
  destruct (index_ok (E := decode_error) payload 3) as (b3 & _ & ->); [lia|]. outcome_simpl. rewrite slice_ok by lia. outcome_simpl.
  change (Z.to_nat (8 - 4)) with 4%nat. change (Z.to_nat 4) with 4%nat.
  assert (Hg : get_u32 (E := decode_error) (take 4 (drop 4 payload)) = Ok (DataChan.seq_of payload)).
  { unfold DataChan.seq_of. assert (H4 : length (take 4 (drop 4 payload)) = 4%nat) by (unfold zlen in Hl; rewrite length_take, length_drop; lia).
    by destruct (take 4 (drop 4 payload)) as [|x [|y [|z [|u [|? ?]]]]]. }
  rewrite Hg. outcome_simpl. change dataChannelKeyID with 0.
  change (match dir with DirClientToServer => _ | DirServerToClient => _ end) with (receiver_keys dir (km_serverPerspective km)).
  pose proof (DataWrapper_no_panic (receiver_keys dir (km_serverPerspective km)) (km_peerID km) 0 (receiver_keys_ok dir _ Hk)) as Hnp.
  destruct (DataChan.NewWrapper (W := W) (receiver_keys dir (km_serverPerspective km)) (km_peerID km) 0) as [w| |] eqn:Hw; [|done|done].
  rewrite (Open_fresh _ _ _ _ _ Hw (DataChan.seq_of_u32 _ Hok)). destruct (zlen payload <? 24); [done|]. destruct (DataChan.opened w payload) as [plaintext|] eqn:Ho; [|done].
  destruct (DataChan.IsPing plaintext) eqn:Ep; exists w, plaintext; rewrite Ep; cbn; by split_and!.
Qed.

(** ** A payload *)

Lemma decodePayload_authentic (key : bytes) (dataKeys : option dataChannelKeyMaterial) (i : nat) (p : UDPPayload) :
  bytes_ok (up_Payload p) -> (forall km, dataKeys = Some km -> keys_ok (km_serverPerspective km)) ->
  match decodePayload (W := W) key dataKeys i p with Panic => False | Err _ => True | Ok d => authentic key dataKeys p d end.
Proof.
  intros Hok Hk. unfold decodePayload. destruct (Z.ltb_spec (zlen (up_Payload p)) 1) as [|Hl]; [done|].
  destruct (index_ok (E := decode_error) (up_Payload p) 0) as (b0 & L0 & ->); [lia|]. change (Z.to_nat 0) with 0%nat in L0. outcome_simpl.
  destruct (ParseHeaderByte b0) as [opcode kid] eqn:Eh. destruct (ValidOpcode opcode) eqn:Ev; [|done]. cbn [negb].
  assert (Hop : (ParseHeaderByte b0).1 = opcode) by by rewrite Eh.
  destruct (Z.eqb_spec opcode OpDataV1) as [E1|N1]; [|destruct (Z.eqb_spec opcode OpDataV2) as [E2|N2]]; cbn [orb].
  - destruct dataKeys; [|exists b0; rewrite Hop; auto]. rewrite E1. cbn. exists b0. rewrite Hop. auto.
  - destruct dataKeys as [km|]; [|exists b0; rewrite Hop; auto]. cbn [negb].
    pose proof (decodeData_result km i (up_Direction p) (up_Payload p) Hok (Hk km eq_refl)) as Hd.
    destruct (decodeData km i (up_Direction p) (up_Payload p)) as [d|e|]; [|done|done]. outcome_simpl.
    destruct Hd as (w & plaintext & D1 & D2 & D3 & D4 & D5 & D6 & D7 & D8). exists b0. cbv zeta. rewrite Hop, D8. do 2 (split; [done|]). do 3 (split; [done|]). exists km, w, plaintext. by split_and!.
  - pose proof (decodeControl_result key i (up_Direction p) (up_Payload p)) as Hd.
    destruct (decodeControl key i (up_Direction p) (up_Payload p)) as [d|e|]; [|done|done]. outcome_simpl.
    destruct Hd as (w & D1 & D2 & D3 & D4 & D5 & D6 & D7). exists b0. cbv zeta. rewrite Hop, D7. do 6 (split; [done|]). exists w. by split_and!.
Qed.

Lemma decodeAll_authentic (key : bytes) (dataKeys : option dataChannelKeyMaterial) (payloads : list UDPPayload) :
  Forall (fun p => bytes_ok (up_Payload p)) payloads -> (forall km, dataKeys = Some km -> keys_ok (km_serverPerspective km)) ->
  forall i, match decodeAll (W := W) key dataKeys i payloads with
            | Panic => False
            | Err _ => True
            | Ok out => exists ds, Forall2 (authentic key dataKeys) payloads ds /\ out = omap (fun d => d) ds
            end.
Proof.
  intros Hok Hk. induction Hok as [|p payloads Hp _ IH]; intros i; cbn [decodeAll]; [by exists []|].
  pose proof (decodePayload_authentic key dataKeys i p Hp Hk) as Hd. destruct (decodePayload key dataKeys i p) as [d| |]; [|done|done]. outcome_simpl.
  specialize (IH (S i)). destruct (decodeAll key dataKeys (S i) payloads) as [out| |]; [|done|done]. outcome_simpl. destruct IH as (ds & Hds & ->).
  exists (d :: ds). split; [by constructor|]. by destruct d.
Qed.

Context `{!DataChan.AEADLaws} `{!TLSCryptLaws}.

(** A header byte of the data channel. *)
Lemma data_header_byte (w : Wr) (pid : Z) : exists b rest, DataChan.header w pid = b :: rest /\ (ParseHeaderByte b).1 = OpDataV2.
Proof.
  eexists _, _. split; [reflexivity|]. unfold ParseHeaderByte. cbn [fst].
  assert (Hk : 0 <= Z.land (DataChan.w_keyID w) 7 < 8) by (change 7 with (Z.ones 3); rewrite Z.land_ones by lia; apply Z.mod_pos_bound; lia).
  generalize dependent (Z.land (DataChan.w_keyID w) 7). intros x Hx.
  assert (Hall : Forall (fun n => Z.shiftr (u8 (Z.lor (u8 (Z.shiftl (u8 OpDataV2) 3)) (Z.of_nat n))) opcodeShift = OpDataV2) (seq 0 8)) by decide_now.
  rewrite Forall_forall in Hall. specialize (Hall (Z.to_nat x)). rewrite Z2Nat.id in Hall by lia. apply Hall, elem_of_seq. lia.
Qed.

Lemma decodeControl_sent (key : bytes) (i : nat) (dir : Direction) (w : Wrapper) (p : ControlPacket) (seq ts : Z) (raw : bytes) :
  wf_packet p -> 0 <= cp_KeyID p < 8 -> zlen (cp_SessionID p) = SessionIDSize ->
  NewWrapper key (bool_decide (dir = DirServerToClient)) = Ok w -> is_u32 seq ->
  WrapWithPacketID w [] (AppendHeaderByte [] (cp_Opcode p) (cp_KeyID p) ++ cp_SessionID p) (be32 seq ++ be32 ts) (AppendPlaintext p []) = Ok raw ->
  decodeControl key i dir raw = Ok (mkDecoded dir raw (header_of p) p false false 0 0 []) /\
  exists b rest, raw = b :: rest /\ (ParseHeaderByte b).1 = cp_Opcode p.
Proof.
  intros Hp Hkid Hsid Hw Hs Hraw. destruct (header_byte_parse (cp_Opcode p) (cp_KeyID p) (wf_opcode p Hp) Hkid) as (b & Eb & _ & Hb).
  unfold WrapWithPacketID in Hraw. rewrite Eb in Hraw. set (header := [b] ++ cp_SessionID p) in *.
  assert (Hh : zlen header = OffPID) by (unfold header; rewrite zlen_app, Hsid; done). rewrite Hh in Hraw. cbn [Z.eqb Pos.eqb negb OffPID] in Hraw.
  change (OffPID =? OffPID) with true in Hraw. cbn [negb] in Hraw. apply (inj Ok) in Hraw.
  assert (Hr : exists r, NewWrapper key (bool_decide (dir = DirClientToServer)) = Ok r /\ w_encrypt w = w_decrypt r).
  { unfold NewWrapper in *. destruct (negb _); [done|]. destruct dir; cbn in *; injection Hw as <-; by eexists. }
  destruct Hr as (r & Er & Hk). destruct (wrapped_packet w r header (AppendPlaintext p []) seq ts Hk Hh Hs) as (F1 & F2 & F3 & _ & F5).
  rewrite Hraw in *. split.
  - unfold decodeControl. rewrite (proj2 (Z.ltb_ge _ _)), Er by done. rewrite (Unwrap_fresh _ _ _ _ Er), (proj2 (Z.ltb_ge _ _)), F2, F3, F5 by done.
    unfold header. rewrite index_app_0. outcome_simpl. rewrite Hb.
    rewrite <- (app_nil_r (cp_SessionID p)) at 1. rewrite slice_at by (rewrite ?Hsid; done). outcome_simpl.
    change (mkHeader (cp_Opcode p) (cp_KeyID p) (cp_SessionID p)) with (header_of p). by rewrite parse_print.
  - rewrite <- (take_drop 9 raw), F5. unfold header. eexists _, _. split; [reflexivity|]. by rewrite Hb.
Qed.

Lemma mirror_mirror (keys : DataKeys) : mirrorDataKeys (mirrorDataKeys keys) = keys.
Proof. by destruct keys. Qed.

(** The mirrored keys make a wrapper too. *)
Lemma NewWrapper_mirror (keys : DataKeys) (p1 p2 k1 k2 : Z) (w : Wr) :
  DataChan.NewWrapper keys p1 k1 = Ok w -> exists r, DataChan.NewWrapper (W := W) (mirrorDataKeys keys) p2 k2 = Ok r.
Proof.
  unfold DataChan.NewWrapper, mirrorDataKeys. cbn [CipherKeyLen EncryptCipher DecryptCipher]. destruct (_ && _); [done|].
  destruct (slice (EncryptCipher keys) _ _) as [ek| |]; [|done..]. outcome_simpl. destruct (DataChan.aesNewCipher ek); [|done..]. outcome_simpl.
  destruct (slice (DecryptCipher keys) _ _) as [dk| |]; [|done..]. outcome_simpl. destruct (DataChan.aesNewCipher dk); [|done..]. by eexists.
Qed.

Lemma decodeData_sent (km : dataChannelKeyMaterial) (i : nat) (dir : Direction) (w : Wr) (peer keyID seq : Z) (plaintext raw : bytes) :
  DataChan.NewWrapper (sender_keys dir (km_serverPerspective km)) peer keyID = Ok w -> 0 <= peer <= 16777215 -> is_u32 seq ->
  DataChan.SealWithPacketID w [] seq plaintext = Ok raw ->
  decodeData (W := W) km i dir raw = Ok (mkDecoded dir raw zeroHeader zeroControl true (DataChan.IsPing plaintext) peer seq
    (if DataChan.IsPing plaintext then [] else plaintext)).
Proof.
  intros Hw Hpe Hs Hraw. unfold DataChan.SealWithPacketID in Hraw.
  assert (Em : receiver_keys dir (km_serverPerspective km) = mirrorDataKeys (sender_keys dir (km_serverPerspective km)))
    by (destruct dir; cbn; by rewrite ?mirror_mirror).
  destruct (NewWrapper_mirror _ peer (km_peerID km) keyID 0 w Hw) as [r Hr]. rewrite <- Em in Hr.
  pose proof Hr as Hr'. rewrite Em in Hr'. destruct (DataChan.NewWrapper_flip _ _ _ _ _ _ _ Hw Hr') as (K1 & K2 & _).
  destruct (DataChan.sealed_packet w r seq plaintext raw K1 K2 Hs Hraw) as (F1 & F2 & F3).
  destruct (DataChan.sealWithSeq_ok w seq plaintext) as (ct & tag & E & _). rewrite E in Hraw. apply (inj Ok) in Hraw.
  unfold decodeData. rewrite (proj2 (Z.ltb_ge _ _)) by lia.
  assert (Hbytes : raw = [u8 (Z.lor (u8 (Z.shiftl (u8 OpDataV2) 3)) (Z.land (DataChan.w_keyID w) 7)); u8 (Z.shiftr peer 16); u8 (Z.shiftr peer 8); u8 peer] ++ be32 seq ++ tag ++ ct).
  { rewrite <- Hraw. unfold DataChan.header. destruct (DataChan.NewWrapper_start _ _ _ _ Hw) as (_ & _ & -> & _). by rewrite <- (assoc_L (++)). }
  assert (I1 : index (E := decode_error) raw 1 = Ok (u8 (Z.shiftr peer 16))) by by rewrite Hbytes.
  assert (I2 : index (E := decode_error) raw 2 = Ok (u8 (Z.shiftr peer 8))) by by rewrite Hbytes.
  assert (I3 : index (E := decode_error) raw 3 = Ok (u8 peer)) by by rewrite Hbytes.
  assert (I4 : slice (E := decode_error) raw 4 8 = Ok (be32 seq)) by (rewrite Hbytes; by apply slice_at).
  rewrite I1, I2, I3, I4. outcome_simpl. rewrite <- (app_nil_r (be32 seq)), get_be32 by done. outcome_simpl. rewrite DataChan.peer_bytes by done.
  change (match dir with DirClientToServer => _ | DirServerToClient => _ end) with (receiver_keys dir (km_serverPerspective km)).
  change dataChannelKeyID with 0. rewrite Hr. rewrite (Open_fresh _ _ _ _ _ Hr), (proj2 (Z.ltb_ge _ _)), F3 by (rewrite ?F2; done).
  by destruct (DataChan.IsPing plaintext).
Qed.

(** A datagram sent is recovered. *)
Lemma decodePayload_sent (key : bytes) (dataKeys : option dataChannelKeyMaterial) (i : nat) (dir : Direction) (raw : bytes) (d : option decodedPacket) :
  sent key dataKeys dir raw d -> decodePayload (W := W) key dataKeys i (mkUDPPayload dir raw) = Ok d.
Proof.
  intros [w p seq ts raw' Hp Hk Hsid N1 N2 Hw Hs Hraw|km w peer keyID seq plaintext raw' -> Hw Hpe Hs Hraw|w seq plaintext raw' -> Hraw]; unfold decodePayload; cbn [up_Payload up_Direction].
  - destruct (decodeControl_sent key i dir w p seq ts raw' Hp Hk Hsid Hw Hs Hraw) as (E & b & rest & -> & Hb).
    rewrite (proj2 (Z.ltb_ge _ _)) by (rewrite zlen_cons; pose proof (zlen_nonneg rest); lia).
    change (index (b :: rest) 0) with (Ok (E := decode_error) b). outcome_simpl. destruct (ParseHeaderByte b) as [op kid]. cbn [fst] in Hb. subst op.
    rewrite (wf_opcode p Hp), (proj2 (Z.eqb_neq _ _) N1), (proj2 (Z.eqb_neq _ _) N2). cbn [negb orb]. by rewrite E.
  - pose proof (decodeData_sent km i dir w peer keyID seq plaintext raw' Hw Hpe Hs Hraw) as E. unfold DataChan.SealWithPacketID in Hraw.
    destruct (DataChan.sealWithSeq_ok w seq plaintext) as (ct & tag & E' & _). rewrite E' in Hraw. apply (inj Ok) in Hraw.
    destruct (data_header_byte w seq) as (b & rest & Eb & Hb). rewrite Eb in Hraw. cbn [app] in Hraw. subst raw'.
    rewrite (proj2 (Z.ltb_ge _ _)) by (rewrite zlen_cons; pose proof (zlen_nonneg (rest ++ tag ++ ct)); lia).
    change (index (b :: rest ++ tag ++ ct) 0) with (Ok (E := decode_error) b). outcome_simpl. destruct (ParseHeaderByte b) as [op kid]. cbn [fst] in Hb. subst op.
    change (ValidOpcode OpDataV2) with true. change (OpDataV2 =? OpDataV1) with false. change (OpDataV2 =? OpDataV2) with true. cbn [negb orb]. by rewrite E.
  - unfold DataChan.SealWithPacketID in Hraw. destruct (DataChan.sealWithSeq_ok w seq plaintext) as (ct & tag & E' & _). rewrite E' in Hraw. apply (inj Ok) in Hraw.
    destruct (data_header_byte w seq) as (b & rest & Eb & Hb). rewrite Eb in Hraw. cbn [app] in Hraw. subst raw'.
    rewrite (proj2 (Z.ltb_ge _ _)) by (rewrite zlen_cons; pose proof (zlen_nonneg (rest ++ tag ++ ct)); lia).
    change (index (b :: rest ++ tag ++ ct) 0) with (Ok (E := decode_error) b). outcome_simpl. destruct (ParseHeaderByte b) as [op kid]. cbn [fst] in Hb. by subst op.
Qed.

Lemma decodeAll_sent (key : bytes) (dataKeys : option dataChannelKeyMaterial) (payloads : list UDPPayload) (ds : list (option decodedPacket)) :
  Forall2 (fun p d => sent key dataKeys (up_Direction p) (up_Payload p) d) payloads ds ->
  forall i, decodeAll (W := W) key dataKeys i payloads = Ok (omap (fun d => d) ds).
Proof.
  induction 1 as [|[dir raw] d payloads ds Hd _ IH]; intros i; [done|]. cbn [decodeAll]. cbn in Hd. rewrite (decodePayload_sent _ _ _ _ _ _ Hd). outcome_simpl.
  rewrite IH. by destruct d.
Qed.

(** C27. What a capture decodes to.  Take a file of whole records, of a supported link
    type, in either byte order, whose frames are any bytes whatsoever.  Each frame carries
    a UDP datagram or none, as the reader takes it ([carries]): frames and packets that end
    within their headers and other protocols carry none; fragment fields, total length and
    checksums do not count.  When the datagrams to and from the port among them are control
    packets wrapped by either side of a tls-crypt key, under whatever packet ids, and data
    packets sealed by either side of the session's keys, under whatever numbers, then all
    of them are recovered, in order: header and body of each control packet, peer-id,
    number and content of each data packet, pings marked; without the session's keys the
    data packets are skipped.  A file that ends within a record is refused, whatever stands
    before it.  And whatever the file contains, when it decodes nothing on the port was
    passed over but data packets without keys for them, and everything returned has
    verified under the key of its direction; no file makes the decoder panic. *)
Theorem capture_decodes (key : bytes) (dataKeys : option dataChannelKeyMaterial) (port : Z) :
  (forall km, dataKeys = Some km -> keys_ok (km_serverPerspective km)) ->
  (forall order magic linkType middle recs,
     magic_ok magic -> length middle = 16%nat -> link_ok linkType -> Forall record_ok recs -> Forall (fun r => bytes_ok (r_frame r)) recs ->
     let file := file_bytes order magic middle linkType recs in
     (exists gs, Forall2 (fun r g => carries linkType (r_frame r) g) recs gs) /\
     forall gs, Forall2 (fun r g => carries linkType (r_frame r) g) recs gs ->
       (forall ds, Forall2 (fun p d => sent key dataKeys (up_Direction p) (up_Payload p) d) (contents port gs) ds ->
          decodeCapture (W := W) (Some file) key port dataKeys = Ok (omap (fun d => d) ds)) /\
       (forall r cut rest, record_ok r -> record_bytes order r = cut ++ rest -> cut <> [] -> rest <> [] ->
          decodeCapture (W := W) (Some (file ++ cut)) key port dataKeys = Err (ErrParsePcap (if zlen cut <? 16 then ErrRecordHeader else ErrRecordData)))) /\
  (forall file, bytes_ok file ->
     match decodeCapture (W := W) (Some file) key port dataKeys with
     | Panic => False
     | Err _ => True
     | Ok out => exists payloads ds, ReadUDPPayloads file port = Ok payloads /\
         Forall2 (authentic key dataKeys) payloads ds /\ out = omap (fun d => d) ds
     end).
Proof.
  intros Hk. split.
  - intros order magic linkType middle recs Hm Hl Hlk Hok Hb file. split; [by apply carries_all|]. intros gs Hg.
    pose proof (records_run order linkType port recs gs) as Hrun. split.
    + intros ds Hs. specialize (Hrun [] (Ok []) Hok Hg). rewrite app_nil_r in Hrun. unfold decodeCapture, file, file_bytes.
      rewrite ReadUDPPayloads_file by done. rewrite Hrun; [|intros [|fuel] Hf; [cbn in Hf; lia|done]|lia].
      outcome_simpl. rewrite app_nil_r. by apply decodeAll_sent.
    + intros r cut rest Hr E Hc He. unfold decodeCapture, file, file_bytes. rewrite <- !(assoc_L (++)), ReadUDPPayloads_file by done.
      rewrite (Hrun cut (Err (if zlen cut <? 16 then ErrRecordHeader else ErrRecordData)) Hok Hg); [done| |lia].
      intros [|fuel] Hf; [lia|]. by apply records_cut with (r := r) (rest := rest).
  - intros file Hf. unfold decodeCapture. pose proof (ReadUDPPayloads_total file port) as Ht.
    destruct (ReadUDPPayloads file port) as [payloads| |] eqn:Er; [|done|done].
    pose proof (decodeAll_authentic key dataKeys payloads (ReadUDPPayloads_bytes _ _ _ Hf Er) Hk 0) as Ha.
    destruct (decodeAll key dataKeys 0 payloads) as [out| |]; [|done|done]. destruct Ha as (ds & Hds & ->). by exists payloads, ds.
Qed.

End decoding.

(** ** The choice of vectors *)

Lemma isICMPType_total (pkt : bytes) (wantType : Z) : exists b, isICMPType pkt wantType = Ok b.
Proof.
  unfold isICMPType. destruct (Z.ltb_spec (zlen pkt) 20) as [|Hl]; [by eexists|].
  destruct (index_ok (E := golden_error) pkt 0) as (b0 & _ & ->); [lia|]. outcome_simpl. pose proof (Z.land_nonneg b0 15).
  destruct (_ || _) eqn:Ei; [by eexists|]. apply orb_false_iff in Ei as [[_ I1%Z.ltb_ge]%orb_false_iff I2%Z.ltb_ge].
  destruct (index_ok (E := golden_error) pkt 9) as (b9 & _ & ->); [lia|]. outcome_simpl. destruct (negb _); [by eexists|].
  destruct (index_ok (E := golden_error) pkt (Z.land b0 15 * 4)) as (t & _ & ->); [lia|]. by eexists.
Qed.

Lemma matches_total (l : label) (p : decodedPacket) : exists b, matches l p = Ok b.
Proof. destruct l; cbn; try (by eexists); (destruct (_ && _); [by apply isICMPType_total|by eexists]). Qed.

Lemma first_match_spec (l : label) (used : list nat) (packets : list (nat * decodedPacket)) :
  match first_match l used packets with
  | Ok (Some (i, p)) => (i, p) ∈ packets /\ i ∉ used /\ matches l p = Ok true
  | Ok None => forall i p, (i, p) ∈ packets -> i ∈ used \/ matches l p = Ok false
  | _ => False
  end.
Proof.
  induction packets as [|[i p] packets IH]; cbn [first_match]; [by intros i p ?%elem_of_nil|].
  case_bool_decide as Hu.
  - destruct (first_match l used packets) as [[[j q]|]| |]; [|intros j q [[= -> ->]|Hin]%elem_of_cons; [by left|by apply IH]|done..].
    destruct IH as (? & ? & ?). split_and!; [by apply elem_of_cons; right|done|done].
  - destruct (matches_total l p) as [b Hb]. rewrite Hb. outcome_simpl. destruct b; [split_and!; [apply elem_of_cons; by left|done|done]|].
    destruct (first_match l used packets) as [[[j q]|]| |]; [|intros j q [[= -> ->]|Hin]%elem_of_cons; [by right|by apply IH]|done..].
    destruct IH as (? & ? & ?). split_and!; [by apply elem_of_cons; right|done|done].
Qed.

Definition numbered_of (l : label) (packets : list decodedPacket) : list (nat * decodedPacket) :=
  match l with FinalSmall => rev (imap pair packets) | _ => imap pair packets end.

Lemma elem_of_numbered (l : label) (packets : list decodedPacket) (i : nat) (p : decodedPacket) :
  (i, p) ∈ numbered_of l packets <-> packets !! i = Some p.
Proof.
  assert (H : (i, p) ∈ imap pair packets <-> packets !! i = Some p).
  { rewrite list_elem_of_lookup. split.
    - intros [k Hk]. rewrite list_lookup_imap in Hk. destruct (packets !! k) as [q|] eqn:Eq; [|done]. cbn in Hk. by injection Hk as -> ->.
    - intros Hi. exists i. by rewrite list_lookup_imap, Hi. }
  unfold numbered_of. destruct l; try done. by rewrite list_elem_of_In, <- in_rev, <- list_elem_of_In.
Qed.

(** What holds of a selection: its packets are used once each and match their labels. *)
Definition selected (packets : list decodedPacket) (st : selection) (ls : list label) : Prop :=
  NoDup st.1 /\ map gs_label st.2 = ls /\
  Forall2 (fun i s => packets !! i = Some (gs_packet s) /\ matches (gs_label s) (gs_packet s) = Ok true) (rev st.1) st.2.

Lemma pick_selected (packets : list decodedPacket) (l : label) (st : selection) (ls : list label) : selected packets st ls ->
  match pick packets l st with
  | Ok st' => selected packets st' (ls ++ [l])
  | Err (ErrNotFound l') => l' = l /\ forall i p, packets !! i = Some p -> i ∈ st.1 \/ matches l p = Ok false
  | Panic => False
  end.
Proof.
  intros (Hnd & Hl & Hf). unfold pick. change (match l with FinalSmall => _ | _ => _ end) with (numbered_of l packets).
  pose proof (first_match_spec l st.1 (numbered_of l packets)) as Hm. destruct (first_match l st.1 (numbered_of l packets)) as [[[i p]|]| |]; [| |done..]; outcome_simpl.
  - destruct Hm as (Hin & Hu & Hmat). apply elem_of_numbered in Hin. unfold selected. cbn [fst snd rev map]. split_and!; [by constructor|by rewrite map_app, Hl|].
    apply Forall2_app; [done|]. by repeat constructor.
  - split; [done|]. intros i p Hi. apply Hm. by apply elem_of_numbered.
Qed.

Lemma pickAll_selected (packets : list decodedPacket) (ls : list label) : forall (st : selection) (before : list label), selected packets st before ->
  match pickAll packets ls st with
  | Ok st' => selected packets st' (before ++ ls)
  | Err (ErrNotFound l) => exists st1 ls1 ls2, ls = ls1 ++ l :: ls2 /\ selected packets st1 (before ++ ls1) /\
      forall i p, packets !! i = Some p -> i ∈ st1.1 \/ matches l p = Ok false
  | Panic => False
  end.
Proof.
  induction ls as [|l ls IH]; intros st before Hs; cbn [pickAll]; [by rewrite app_nil_r|].
  pose proof (pick_selected packets l st before Hs) as Hp. destruct (pick packets l st) as [st'|[l']|]; [|destruct Hp as [-> Hp]|done]; outcome_simpl.
  - specialize (IH st' _ Hp). rewrite <- (assoc_L (++)) in IH. destruct (pickAll packets ls st') as [st2|[l2]|]; [done| |done].
    destruct IH as (st1 & ls1 & ls2 & -> & H1 & H2). exists st1, (l :: ls1), ls2. split_and!; [done| |done]. by rewrite <- (assoc_L (++)) in H1.
  - exists st, [], ls. rewrite app_nil_r. by split_and!.
Qed.

Lemma pickAll_app (packets : list decodedPacket) (ls1 ls2 : list label) (st : selection) :
  pickAll packets (ls1 ++ ls2) st = (st ← pickAll packets ls1 st; pickAll packets ls2 st).
Proof. revert st. induction ls1 as [|l ls1 IH]; intros st; [done|]. cbn [app pickAll]. destruct (pick packets l st); [|done..]. apply IH. Qed.

(** The selection has the vectors asked for, in their order, each of them a packet of the
    capture that meets its condition, and no packet twice; when it is refused, then for
    a vector that no unused packet meets the condition of. *)
Theorem golden_selection (packets : list decodedPacket) (includeControl includeData : bool) :
  let wanted := (if includeControl then controlLabels else []) ++ (if includeData then dataLabels else []) in
  match selectGoldenVectors packets includeControl includeData with
  | Ok out => exists idx, NoDup idx /\ map gs_label out = wanted /\
      Forall2 (fun i s => packets !! i = Some (gs_packet s) /\ matches (gs_label s) (gs_packet s) = Ok true) idx out
  | Err (ErrNotFound l) => l ∈ wanted /\ exists used, NoDup used /\ (length used < length wanted)%nat /\
      forall i p, packets !! i = Some p -> i ∈ used \/ matches l p = Ok false
  | Panic => False
  end.
Proof.
  intros wanted. assert (H : selectGoldenVectors packets includeControl includeData = (st ← pickAll packets wanted ([], []); Ok st.2)).
  { unfold selectGoldenVectors, wanted. destruct includeControl, includeData; cbn [app].
    - rewrite pickAll_app. by destruct (pickAll packets controlLabels ([], [])).
    - rewrite app_nil_r. by destruct (pickAll packets controlLabels ([], [])).
    - outcome_simpl. by destruct (pickAll packets dataLabels ([], [])).
    - done. }
  rewrite H. assert (H0 : selected packets ([], []) []) by (split_and!; constructor).
  pose proof (pickAll_selected packets wanted ([], []) [] H0) as Hp. cbn [app] in Hp.
  destruct (pickAll packets wanted ([], [])) as [st|[l]|]; [|outcome_simpl|done]; outcome_simpl.
  - destruct Hp as (Hnd & Hl & Hf). exists (rev st.1). split_and!; [by apply NoDup_ListNoDup, NoDup_rev, NoDup_ListNoDup|done|done].
  - destruct Hp as (st1 & ls1 & ls2 & -> & (Hnd & Hl & Hf) & Hnone). split; [apply elem_of_app; right; apply elem_of_cons; by left|].
    exists st1.1. split_and!; [done| |done]. apply Forall2_length in Hf. apply (f_equal length) in Hl.
    rewrite length_rev in Hf. rewrite length_map in Hl. rewrite length_app. cbn. lia.
Qed.

(** ** Examples and witnesses *)

Module Toy.
#[export] Existing Instances DataChan.Toy.aead DataChan.Toy.laws TlsCrypt.Toy.prims TlsCrypt.Toy.laws.

Definition macs : bytes := replicate 12 1.
Definition ip : bytes := [69; 0; 0; 0; 0; 0; 0; 0; 64; 17; 0; 0; 10; 9; 0; 2; 10; 9; 0; 1].
Definition link : bytes := macs ++ vlan_chain [[0; 5]] ethertypeIPv4.

Lemma link_ethernet : link_header linkTypeEthernet link ethertypeIPv4.
Proof. apply lh_ethernet; [done|by repeat constructor|done]. Qed.

Lemma ip_ok : ip_header ip.
Proof. exists 5. by split_and!. Qed.

(** A tagged frame with padding, and one that is not IP. *)
Definition frame (sp dp : Z) (p : bytes) : bytes := link ++ ip ++ be16 sp ++ be16 dp ++ be16 (8 + zlen p) ++ [0; 0] ++ p ++ [0; 0; 0].
Definition arp : bytes := (macs ++ vlan_chain [] 2054) ++ replicate 28 0.
Definition rec (f : bytes) : record := mkRecord (replicate 8 9) (zlen f) f.

Lemma frame_carries (sp dp : Z) (p : bytes) : is_u16 sp -> is_u16 dp -> 8 + zlen p < 65536 -> carries linkTypeEthernet (frame sp dp p) (Some (sp, dp, p)).
Proof.
  intros Hs Hd Hp. pose proof (zlen_nonneg p). pose proof (zlen_nonneg [0; 0; 0]).
  pose proof (carries_udp linkTypeEthernet link ip sp dp (8 + zlen p) [0; 0] (p ++ [0; 0; 0]) link_ethernet ip_ok Hs Hd) as H'.
  unfold udp_data in H'. rewrite bool_decide_eq_true_2 in H' by (rewrite zlen_app; lia).
  replace (Z.to_nat (8 + zlen p - 8)) with (length p) in H' by (unfold zlen; lia). rewrite take_app_length in H'.
  apply H'; [unfold is_u16; lia|done].
Qed.

Lemma arp_carries : carries linkTypeEthernet arp None.
Proof. unfold arp. eapply (carries_other_protocol _ _ 2054); [by apply lh_ethernet; [|constructor|]|done|done]. Qed.

(** The client's first packet, the server's data packet and its ping. *)
Definition reset : ControlPacket := mkControlPacket OpControlHardResetClientV2 0 [1; 2; 3; 4; 5; 6; 7; 8] [] zeroSessionID 0 [].
Definition client : Wrapper := match NewWrapper TlsCrypt.Toy.key false with Ok w => w | _ => mkWrapper (mkKeySlot [] []) (mkKeySlot [] []) 0 0 0 zeroReplayWindow end.
Definition knock : bytes :=
  match WrapWithPacketID client [] (AppendHeaderByte [] (cp_Opcode reset) (cp_KeyID reset) ++ cp_SessionID reset) (be32 1 ++ be32 77) (AppendPlaintext reset []) with
  | Ok raw => raw | _ => [] end.
Definition km : dataChannelKeyMaterial := mkKeyMaterial 0 DataChan.Toy.keys.
Definition server : DataChan.Wrapper replayWindow :=
  match DataChan.NewWrapper DataChan.Toy.keys 5 0 with Ok w => w | _ => DataChan.Toy.server end.
Definition sealed (seq : Z) (plaintext : bytes) : bytes := match DataChan.SealWithPacketID server [] seq plaintext with Ok raw => raw | _ => [] end.

Definition recs : list record :=
  [rec (frame 5000 1194 knock); rec arp; rec (frame 53 4000 [1; 2]); rec (frame 1194 5000 (sealed 3 [69; 1])); rec (frame 1194 5000 (sealed 4 DataChan.pingMagic))].
Definition gs : list (option (Z * Z * bytes)) :=
  [Some (5000, 1194, knock); None; Some (53, 4000, [1; 2]); Some (1194, 5000, sealed 3 [69; 1]); Some (1194, 5000, sealed 4 DataChan.pingMagic)].
Definition middle : bytes := replicate 16 0.
Definition file : bytes := file_bytes LittleEndian magicMicrosecond middle linkTypeEthernet recs.
Definition decoded : list (option decodedPacket) :=
  [Some (mkDecoded DirClientToServer knock (header_of reset) reset false false 0 0 []);
   Some (mkDecoded DirServerToClient (sealed 3 [69; 1]) zeroHeader zeroControl true false 5 3 [69; 1]);
   Some (mkDecoded DirServerToClient (sealed 4 DataChan.pingMagic) zeroHeader zeroControl true true 5 4 [])].

Lemma recs_ok : Forall record_ok recs.
Proof. repeat constructor; decide_now. Qed.

Lemma recs_carry : Forall2 (fun r g => carries linkTypeEthernet (r_frame r) g) recs gs.
Proof.
  repeat (apply Forall2_cons; split); [apply frame_carries|apply arp_carries|apply frame_carries|apply frame_carries|apply frame_carries|constructor]; decide_now.
Qed.

(** A record cut short makes the whole file unreadable, the records before it
    included. *)
Example truncated_capture : ReadUDPPayloads (take (length file - 1) file) 1194 = Err ErrRecordData.
Proof. vm_compute. reflexivity. Qed.

(** Neither the fragment fields nor a length beyond the packet are looked at: the first
    fragment of a datagram is read as a whole one. *)
Example fragment_read_as_datagram :
  parseIPv4UDP ([69; 0; 0; 30; 0; 9; 32; 0; 64; 17; 0; 0; 10; 9; 0; 2; 10; 9; 0; 1] ++ be16 5000 ++ be16 1194 ++ be16 100 ++ [0; 0; 7; 8]) = Ok (Some (5000, 1194, [7; 8])).
Proof. vm_compute. reflexivity. Qed.
End Toy.

Import Toy.

Lemma capture_round_trip_witness :
  ReadUDPPayloads file 1194 = Ok [mkUDPPayload DirClientToServer knock; mkUDPPayload DirServerToClient (sealed 3 [69; 1]);
    mkUDPPayload DirServerToClient (sealed 4 DataChan.pingMagic)] /\
  ReadUDPPayloads (file ++ take 20 (record_bytes LittleEndian (rec arp))) 1194 = Err ErrRecordData.
Proof.
  destruct (capture_round_trip LittleEndian magicMicrosecond linkTypeEthernet 1194 middle recs gs) as (H1 & H2 & _).
  - by left.
  - reflexivity.
  - by left.
  - exact recs_ok.
  - exact recs_carry.
  - split; [unfold file; rewrite H1; vm_compute; reflexivity|]. unfold file.
    rewrite (H2 (rec arp) (take 20 (record_bytes LittleEndian (rec arp))) (drop 20 (record_bytes LittleEndian (rec arp)))).
    + vm_compute. reflexivity.
    + decide_now.
    + vm_compute. reflexivity.
    + vm_compute. discriminate.
    + vm_compute. discriminate.
Defined.

Lemma capture_decodes_witness :
  decodeCapture (W := replayWindow) (Some file) TlsCrypt.Toy.key 1194 (Some km) = Ok (omap (fun d => d) decoded) /\
  decodeCapture (W := replayWindow) (Some (file ++ take 20 (record_bytes LittleEndian (rec arp)))) TlsCrypt.Toy.key 1194 (Some km)
    = Err (ErrParsePcap ErrRecordData).
Proof.
  destruct (capture_decodes (W := replayWindow) TlsCrypt.Toy.key (Some km) 1194) as [H1 _].
  - intros k Hk. injection Hk as <-. split; reflexivity.
  - destruct (H1 LittleEndian magicMicrosecond linkTypeEthernet middle recs) as [_ H2].
    + by left.
    + reflexivity.
    + by left.
    + exact recs_ok.
    + repeat constructor; decide_now.
    + destruct (H2 gs recs_carry) as [H3 H4]. split.
      * unfold file. apply H3. repeat (apply Forall2_cons; split).
        -- apply (sent_control _ _ _ client reset 1 77); done.
        -- apply (sent_data _ _ _ km server 5 0 3 [69; 1]); done.
        -- apply (sent_data _ _ _ km server 5 0 4 DataChan.pingMagic); done.
        -- constructor.
      * unfold file. rewrite (H4 (rec arp) (take 20 (record_bytes LittleEndian (rec arp))) (drop 20 (record_bytes LittleEndian (rec arp)))).
        -- vm_compute. reflexivity.
        -- decide_now.
        -- vm_compute. reflexivity.
        -- vm_compute. discriminate.
        -- vm_compute. discriminate.
Defined.

End Capture.
